(* ===== verification/_CoqProject ===== *)
-Q . S2P
Prelude.v
GoTime.v
GoStrings.v
Costing.v
Store.v
ExampleWorld.v
Limits.v
LimitsLedger.v
LimitsReserve.v
LimitsSpec.v
BudgetService.v
QuotaService.v
AnomalyService.v
Routing.v
ContentPolicy.v
Pricing.v
Metering.v
RateLimit.v
Rbac.v
Encodings.v
Tokens.v
ApiKeys.v
AdminTokens.v
Sessions.v
MagicLinks.v
Secrets.v
Outbound.v
HttpClient.v
SecretRotation.v
BudgetAlerts.v
Float64.v
GatewayBase.v
Providers.v
Redis.v
Caches.v
Adapters.v
Gateway.v
Sql.v
HttpServer.v
RequestLogs.v
AdminAudit.v
AdminHandlers.v
AccessHandlers.v
ChatHandler.v
GatewayFrame.v
GatewayReservations.v
GatewayBooks.v
ChatRoute.v
Integrity.v
Reports.v
AdminRoutes.v
AdminFrame.v
AdminGuard.v
AdminIsolation.v
AdminPrivacy.v
AdminTrail.v
Config.v
Email.v
App.v
Server.v
ClickHouse.v
Commands.v
GatewayStreams.v
GatewayProviders.v
GatewayExample.v
RouteExample.v
ReportsExample.v
AdminExample.v
AppExample.v
ServerExample.v
