(* ===== verification/Prelude.v ===== *)
(** * LLM cost gateway: a verification development

    The repository is a gateway, in Go, between the clients of a company and
    the providers of large language models. A client presents an API key and a
    chat request; the gateway checks the key, its rate, the budgets and quotas
    of its tenant, the content of the messages and the recent costs for
    anomalies, chooses providers by the tenant's route policies, reserves the
    estimated cost, calls the providers in turn, and records what the answer
    cost. Administrators configure all this through a second API. PostgreSQL
    holds the state, Redis the rate limits and the caches; Kafka, ClickHouse, a
    mail server, webhooks and the providers are called over the network.

    This library translates that program into definitions and proves what makes
    it correct. File names below are under [src/internal] unless they start
    with [cmd].

    ** How the program is modelled

    - Integers: Go's [int64], [int32] and [int] are integers of [Z], with
      [wrap64] and [wrap32] (this file) where an operation may leave the range;
      [bigint] and [integer] columns refuse instead ([pg_bigint], [pg_integer]
      of [Store]). Floats are [float64] of [Float64]: the [spec_float] of the
      Standard Library at 53 bits, rounded at every operation.
    - Strings are their bytes ([GoStrings], [Encodings]); instants are
      nanoseconds since 1970 and the calendar is [GoTime].
    - Errors are values ([err], [result] of this file); a panic is [EPanic],
      which only [catch] and the server's [Recovery] see.
    - State: [Store] has one record per table, the database [DB], the [world] (the
      database, which of the later calls that leave the process fail, the clock, the
      supply of identifiers and draws, the effects so far) and the monad [M] of
      the services: statements, transactions that roll back, loops, and the
      constraints of the tables as checks of the statements that write.
      [Sql] has joins and groupings.
    - Every definition is executable; loops that are not structural have fuel:
      the retries of a provider have the number of attempts, the digits of a
      number 19, the merging of hits and the replacement of text the length plus
      one, the walk along the pages of the log the number of its lines plus one;
      each is shown, where it is used, to be enough.
    - What the program takes from elsewhere is a type class, instantiated by a
      concrete one in the examples: [Runtime] (HMAC, random bytes, the order of a
      map's iteration), [AEAD] (AES-GCM, with opening undoes sealing), [Net]
      (URLs, addresses, names), [Transport] (HTTP exchanges), [Redis], [Digests]
      and [CacheJSON] (SHA-256, JSON), [UpstreamJSON], [Webhooks],
      [Surroundings], [RequestParsing], [ReportText], [AdminBodies],
      [AccessBodies] (decoding of requests and texts of instants), [RowJSON],
      [Environment], [MailServer], [Flags]. [PerfectHMAC], [PerfectDigest],
      [FaithfulJSON] and [FaithfulCursor] name the idealisations (no collisions,
      an encoding that loses nothing); a theorem that uses one says so.

    ** The files

    - [Costing] ([costing/calculator.go]): prices to costs, with the overflow
      check; [Pricing] ([costing/pricing_service.go]): versions of prices.
    - [Limits] ([limits/reservation_service.go]): [Reserve], [Settle], [Release];
      [LimitsLedger], [LimitsReserve] and [LimitsSpec]: the ledger's invariant,
      the abstract specification and the refinement.
    - [BudgetService], [QuotaService], [AnomalyService], [Routing],
      [ContentPolicy], [BudgetAlerts] ([budget], [auth/api_key_quota_service.go],
      [anomaly], [routing], [policy]): the checks before a request is routed, the
      choice of targets, redaction, and the webhooks sent when a budget fills.
    - [Metering] ([metering/service.go]): the books, i.e. the request log, the
      usages and the costs.
    - [Tokens], [ApiKeys], [AdminTokens], [Sessions], [MagicLinks], [Rbac]
      ([auth], [http/middleware/rbac.go]): credentials and permissions.
    - [Secrets], [SecretRotation] ([crypto], [admin]): sealed keys and their
      rotation. [Outbound], [HttpClient] ([netutil]): which hosts are called.
    - [RateLimit], [Redis], [Caches] ([ratelimit], [cache], [embedding]).
    - [Providers], [Adapters] ([provider]): the providers, their health, the
      requests sent to them and the streams read from them.
    - [GatewayBase], [Gateway] ([gateway]): a chat request, answered at once or
      streamed. [GatewayFrame], [GatewayReservations], [GatewayBooks],
      [GatewayStreams], [GatewayProviders]: what it touches, holds, records and
      tries.
    - [HttpServer], [ChatHandler] ([http], [http/handlers/gateway]): requests,
      middlewares, the chat route; [ChatRoute], [Integrity]: the route end to end
      and the types of the tables it writes.
    - [RequestLogs], [Reports], [ClickHouse] ([http/handlers/admin], [analytics],
      [store/sqlc/usage.sql.go]): the log's pages and the reports.
    - [AdminAudit], [AdminHandlers], [AccessHandlers], [AdminRoutes] ([audit],
      [http/handlers/admin], [http/handlers/platform], [app/router.go]): the
      administrative API; [AdminFrame], [AdminGuard], [AdminIsolation],
      [AdminPrivacy], [AdminTrail]: who may use it, what it may touch and show,
      and what is logged of it.
    - [Config], [App], [Commands] ([config], [app], [cmd]): the configuration, the
      table of all endpoints, and the processes; [Email] ([email]). [Server]: the
      whole table serving requests one after another.
    - [ExampleWorld] and the [...Example] files: small deployments on which the
      theorems are applied.

    ** What is proved

    - Money: the ledger of reservations is balanced in every reachable state,
      [Reserve] refines its specification and never overdraws a blocking limit
      ([LimitsSpec]); a success is recorded and settled exactly ([Metering]); a
      chat request charges what it reports, and an error nothing
      ([GatewayBooks]); a stream is charged once, for its last usage
      ([GatewayStreams]); what is reserved covers what can be used
      ([GatewayProviders]); costs are exact or refused ([Costing]).
    - End to end: only issued keys spend ([ChatRoute]); providers are tried in
      order and finitely often ([GatewayProviders]).
    - The whole server, whatever it is asked and by whom: nothing stays reserved,
      the books are only added to and keep their types (both of one request in
      [ChatRoute] and [Integrity]), and every charge has an issued key ([Server]).
    - Tenants: a request to the administrative API changes nothing without a
      manager's credential ([AdminGuard]), touches one tenant's rows
      ([AdminIsolation]), shows one tenant's rows ([AdminPrivacy]), and what it
      logs of itself is true ([AdminTrail]).
    - Credentials and secrets: keys authenticate as the history of issues and
      revocations says ([ApiKeys]); links open one session and are rationed
      ([MagicLinks]); rotation loses no secret and lets old keys be dropped
      ([SecretRotation], [Commands]); rings read back as they were written
      ([App]); mail is sealed ([Email]); a public-only client stays
      off the internal network ([Outbound]).
    - Reports: pages are complete ([RequestLogs]), sums reconcile with the books
      ([Reports]), ClickHouse's rows are read back ([ClickHouse]).
    - Policies: routing, anomalies, budgets, redaction, prices, alerts, rates and
      caches against their references, each in its own file; where a comparison
      of the code multiplies [int64] amounts (alerts, anomalies) the reference is
      over the integers and the theorem says for which amounts they agree.
    - The start: a production server is closed to strangers, a valid
      configuration starts, and nothing opened stays open ([App], [Commands]).

    ** Not modelled

    - Concurrency: requests, and the statements and transactions inside them, run
      one after another (the ledger and the limiter are also proved for any
      interleaving of their calls), so row locks and the races they exclude have no place, nor the
      race between the count and the insert of magic links, which run in no
      common transaction. Foreign keys are the invariant of [Integrity], not
      checks of the statements; identifiers are ordered as numbers.
    - Output without consequences: logging, tracing, metrics' exposition, the
      headers of replies. Counters, events and mails are effects of a run.
    - The texts of most errors, except where a reply shows them; results that
      come next to an error and are dropped by every caller.
    - [percentile_cont], SHA-256 and the decoding of JSON, YAML and floats are
      parameters; JSON columns keep what was written; PostgreSQL's rounding of
      timestamps and the fusing of float operations by some compilers are left
      out. Where SQL leaves an order open the model takes that of the rows.
    - The redirects an HTTP client follows inside one exchange ([HttpClient]),
      except which ones a public-only client may follow ([Outbound]); the reports
      of ClickHouse behind the administrative routes (the routes are those of
      PostgreSQL, the ClickHouse service is by itself in [ClickHouse]).
    - The router library's matching of paths; the key ring is never [nil], as
      [App] shows of the one that is passed.
    - The web console, the deployment and the test helpers.

    [Prelude] (this file) holds what every component shares: Go's
    fixed-width integers, Go's errors as values, the result type of fallible
    functions, and the tactics and list lemmas used throughout. *)

From Stdlib Require Export ZArith Lia.
From stdpp Require Export base list gmap strings sorting numbers.

#[global] Open Scope Z_scope.

(** ** Fixed-width integers

    Go's [int64] and [int32] are integers of [Z] kept in range; an operation
    that may leave the range is followed by [wrap64] or [wrap32], the
    two's-complement reduction the language prescribes. *)

Definition MaxInt64 : Z := 9223372036854775807.
Definition MinInt64 : Z := -9223372036854775808.
Definition MaxInt32 : Z := 2147483647.
Definition MinInt32 : Z := -2147483648.

Definition wrap64 (z : Z) : Z := (z + 2 ^ 63) mod 2 ^ 64 - 2 ^ 63.
Definition wrap32 (z : Z) : Z := (z + 2 ^ 31) mod 2 ^ 32 - 2 ^ 31.

Definition in64 (z : Z) : Prop := MinInt64 <= z <= MaxInt64.
Definition in32 (z : Z) : Prop := MinInt32 <= z <= MaxInt32.

Declare Scope go_scope.
Delimit Scope go_scope with go.
Notation "a +₆₄ b" := (wrap64 (a + b)) (at level 50, left associativity) : go_scope.
Notation "a -₆₄ b" := (wrap64 (a - b)) (at level 50, left associativity) : go_scope.
Notation "a *₆₄ b" := (wrap64 (a * b)) (at level 40, left associativity) : go_scope.
#[global] Open Scope go_scope.

Ltac unfold_ranges :=
  unfold in64, in32, MaxInt64, MinInt64, MaxInt32, MinInt32 in *.

Lemma wrap64_id z : in64 z → wrap64 z = z.
Proof.
  unfold wrap64; unfold_ranges; intros H.
  rewrite Z.mod_small; lia.
Qed.

Lemma wrap64_range z : in64 (wrap64 z).
Proof.
  unfold wrap64; unfold_ranges.
  pose proof (Z.mod_pos_bound (z + 2 ^ 63) (2 ^ 64)). lia.
Qed.

Lemma wrap32_id z : in32 z → wrap32 z = z.
Proof.
  unfold wrap32; unfold_ranges; intros H.
  rewrite Z.mod_small; lia.
Qed.

Lemma wrap32_range z : in32 (wrap32 z).
Proof.
  unfold wrap32; unfold_ranges.
  pose proof (Z.mod_pos_bound (z + 2 ^ 31) (2 ^ 32)). lia.
Qed.

Create HintDb go discriminated.
Create Rewrite HintDb gorw.
#[export] Hint Resolve wrap64_range wrap32_range : go.
#[export] Hint Rewrite wrap64_id wrap32_id using (unfold_ranges; lia) : gorw.

(** ** Errors

    Go code inspects errors with [errors.Is] and [errors.As]; the model keeps
    what those calls, and the callers' [switch]es, can observe. *)

Inductive err : Type :=
| EMsg (msg : string)                      (** errors.New, or fmt.Errorf without %w *)
| EWrap (sentinel msg : string)            (** a package sentinel, possibly wrapped with %w *)
| ENoRows                                  (** pgx.ErrNoRows *)
| EPg (sqlstate : string)                  (** an error reported by PostgreSQL *)
| EFault                                   (** the connection or the service failed *)
| EDomain (status : Z) (code msg : string) (** domain.Error *)
| EProvider (code msg : string) (status : Z) (retryable : bool) (cause : option err)
                                           (** contract.Error *)
| ECanceled                                (** context.Canceled *)
| EDeadline                                (** context.DeadlineExceeded *)
| EPanic.                                  (** a run-time panic, such as a nil dereference *)

(** ** Results *)

Inductive result (A : Type) : Type :=
| Ok (a : A)
| Err (e : err).
Arguments Ok {A} a.
Arguments Err {A} e.

#[export] Instance result_ret : MRet result := λ A a, Ok a.
#[export] Instance result_bind : MBind result :=
  λ A B f m, match m with Ok a => f a | Err e => Err e end.
#[export] Instance result_fmap : FMap result :=
  λ A B f m, match m with Ok a => Ok (f a) | Err e => Err e end.

Definition is_ok {A} (r : result A) : bool :=
  match r with Ok _ => true | Err _ => false end.

Lemma result_bind_ok {A B} (m : result A) (f : A → result B) b :
  m ≫= f = Ok b ↔ ∃ a, m = Ok a ∧ f a = Ok b.
Proof. destruct m; simpl; naive_solver. Qed.

Lemma Ok_inj {A} (a b : A) : Ok a = Ok b → a = b.
Proof. congruence. Qed.

(** ** Tactics *)

(** Turn boolean comparisons of the code into propositions. *)
Ltac bool_to_prop :=
  repeat match goal with
  | H : (_ <? _) = true |- _ => apply Z.ltb_lt in H
  | H : (_ <? _) = false |- _ => apply Z.ltb_ge in H
  | H : (_ <=? _) = true |- _ => apply Z.leb_le in H
  | H : (_ <=? _) = false |- _ => apply Z.leb_gt in H
  | H : (_ =? _) = true |- _ => apply Z.eqb_eq in H
  | H : (_ =? _) = false |- _ => apply Z.eqb_neq in H
  | H : (_ && _)%bool = true |- _ => apply andb_true_iff in H as [? ?]
  | H : (_ || _)%bool = false |- _ => apply orb_false_iff in H as [? ?]
  | H : negb _ = true |- _ => apply negb_true_iff in H
  | H : negb _ = false |- _ => apply negb_false_iff in H
  | H : bool_decide _ = true |- _ => apply bool_decide_eq_true in H
  | H : bool_decide _ = false |- _ => apply bool_decide_eq_false in H
  end.

(** The same for the equality tests on strings and identifiers. *)
Ltac eqb_to_prop :=
  bool_to_prop;
  repeat match goal with
  | H : String.eqb _ _ = true |- _ => apply String.eqb_eq in H
  | H : String.eqb _ _ = false |- _ => apply String.eqb_neq in H
  | H : (_ =? _)%N = true |- _ => apply N.eqb_eq in H
  | H : (_ =? _)%N = false |- _ => apply N.eqb_neq in H
  | H : (_ =? _)%nat = true |- _ => apply Nat.eqb_eq in H
  | H : (_ =? _)%nat = false |- _ => apply Nat.eqb_neq in H
  end.

(** Case on the innermost scrutinee of a [match] or [if] in hypothesis [H]. *)
Ltac case_step H :=
  match type of H with
  | context [match ?x with _ => _ end] =>
      lazymatch x with
      | context [match _ with _ => _ end] => fail
      | _ => let E := fresh "E" in destruct x eqn:E
      end
  end.

Ltac case_all H := repeat (case_step H; simplify_eq/=).

Ltac case_goal :=
  match goal with
  | |- context [match ?x with _ => _ end] =>
      lazymatch x with
      | context [match _ with _ => _ end] => fail
      | _ => let E := fresh "E" in destruct x eqn:E
      end
  end.

(** ** Sums over lists *)

Definition sumZ {A} (f : A → Z) (l : list A) : Z := foldr (λ x acc, f x + acc) 0 l.

Section sumZ.
  Context {A : Type}.
  Implicit Types (f g : A → Z) (l : list A).

Lemma sumZ_nil f : sumZ f [] = 0.
Proof. done. Qed.

Lemma sumZ_cons f x l : sumZ f (x :: l) = f x + sumZ f l.
Proof. done. Qed.

Lemma sumZ_app f l1 l2 : sumZ f (l1 ++ l2) = sumZ f l1 + sumZ f l2.
Proof. induction l1 as [|x l1 IH]; simpl; [done|]. unfold sumZ in *. lia. Qed.

Lemma sumZ_ext f g l : (∀ x, x ∈ l → f x = g x) → sumZ f l = sumZ g l.
Proof.
  induction l as [|x l IH]; intros H; [done|]. rewrite !sumZ_cons.
  rewrite H, IH; [done| |]; set_solver.
Qed.

Lemma sumZ_nonneg f l : (∀ x, x ∈ l → 0 <= f x) → 0 <= sumZ f l.
Proof.
  induction l as [|x l IH]; intros H; [done|]. rewrite sumZ_cons.
  assert (0 <= f x) by set_solver.
  assert (0 <= sumZ f l) by (apply IH; set_solver). lia.
Qed.

Lemma sumZ_elem_le f l x : (∀ y, y ∈ l → 0 <= f y) → x ∈ l → f x <= sumZ f l.
Proof.
  induction l as [|y l IH]; intros Hnn Hx; [set_solver|]. rewrite sumZ_cons.
  assert (0 <= sumZ f l) by (apply sumZ_nonneg; set_solver).
  assert (0 <= f y) by set_solver.
  apply elem_of_cons in Hx as [->|Hx]; [lia|].
  assert (f x <= sumZ f l) by (apply IH; set_solver). lia.
Qed.

Lemma sumZ_add f g l : sumZ (λ x, f x + g x) l = sumZ f l + sumZ g l.
Proof. induction l as [|x l IH]; [done|]. rewrite !sumZ_cons. lia. Qed.

Lemma sumZ_zero f l : (∀ x, x ∈ l → f x = 0) → sumZ f l = 0.
Proof.
  induction l as [|x l IH]; intros H; [done|]. rewrite sumZ_cons.
  rewrite H, IH; [done| |]; set_solver.
Qed.

Lemma sumZ_filter f (P : A → Prop) `{∀ x, Decision (P x)} l :
  sumZ f (filter P l) = sumZ (λ x, if decide (P x) then f x else 0) l.
Proof.
  induction l as [|x l IH]; [done|]. rewrite filter_cons, sumZ_cons.
  destruct (decide (P x)); rewrite ?sumZ_cons; lia.
Qed.
End sumZ.

Lemma sumZ_map {A B} (f : B → Z) (g : A → B) l : sumZ f (map g l) = sumZ (λ x, f (g x)) l.
Proof. induction l as [|x l IH]; [done|]. simpl. unfold sumZ in *. simpl. lia. Qed.

Lemma sumZ_flat_map {A B} (f : B → Z) (g : A → list B) l : sumZ f (flat_map g l) = sumZ (λ a, sumZ f (g a)) l.
Proof. induction l as [|a l IH]; [done|]. simpl. rewrite sumZ_app, IH. done. Qed.

(** ** Lists related element by element *)

Lemma Forall2_map_eq {A B} (f : A → B) (R : A → A → Prop) l l' :
  Forall2 R l l' → (∀ x y, R x y → f y = f x) → map f l' = map f l.
Proof. intros H Hf. induction H; simpl; f_equal; auto. Qed.

Lemma Forall2_elem_r {A B} (P : A → B → Prop) l l' y :
  Forall2 P l l' → y ∈ l' → ∃ x, x ∈ l ∧ P x y.
Proof.
  intros H Hy. apply list_elem_of_lookup in Hy as [i Hi].
  destruct (Forall2_lookup_r _ _ _ _ _ H Hi) as (x & Hx & HP).
  exists x. split; [by eapply list_elem_of_lookup_2|done].
Qed.

Lemma Forall2_elem_l {A B} (P : A → B → Prop) l l' x :
  Forall2 P l l' → x ∈ l → ∃ y, y ∈ l' ∧ P x y.
Proof.
  intros H Hx. apply list_elem_of_lookup in Hx as [i Hi].
  destruct (Forall2_lookup_l _ _ _ _ _ H Hi) as (y & Hy & HP).
  exists y. split; [by eapply list_elem_of_lookup_2|done].
Qed.

Lemma Forall2_chain {A B C} (P : A → B → Prop) (Q : B → C → Prop) (R : A → C → Prop) l1 l2 l3 :
  (∀ x y z, P x y → Q y z → R x z) → Forall2 P l1 l2 → Forall2 Q l2 l3 → Forall2 R l1 l3.
Proof.
  intros HR H12. revert l3. induction H12; intros l3 H23; inversion H23; subst; constructor; eauto.
Qed.

Lemma Forall2_map_r {A B} (R R' : A → B → Prop) (f : B → B) l l' :
  Forall2 R l l' → (∀ x y, x ∈ l → R x y → R' x (f y)) → Forall2 R' l (map f l').
Proof. intros H. induction H; simpl; intros Hf; constructor; [apply Hf; [by left|done]|]. apply IHForall2. intros. apply Hf; [by right|done]. Qed.

Lemma Forall2_impl_in {A B} (R R' : A → B → Prop) l l' :
  Forall2 R l l' → (∀ x y, x ∈ l → R x y → R' x y) → Forall2 R' l l'.
Proof. intros H Hf. rewrite <- (map_id l'). by apply (Forall2_map_r R). Qed.

Lemma Forall2_refl_in {A} (R : A → A → Prop) l : (∀ x, R x x) → Forall2 R l l.
Proof. intros. induction l; constructor; auto. Qed.

Lemma NoDup_map_inj {A B} (f : A → B) l x y :
  NoDup (map f l) → x ∈ l → y ∈ l → f x = f y → x = y.
Proof.
  intros Hnd Hx Hy Hf. induction l as [|z l IH]; [set_solver|]. simpl in Hnd.
  apply list.NoDup_cons in Hnd as [Hz Hnd].
  assert (∀ u, u ∈ l → f u ∈ map f l) as Hmap.
  { intros u Hu. apply list_elem_of_In, in_map, list_elem_of_In, Hu. }
  apply elem_of_cons in Hx as [->|Hx], Hy as [->|Hy]; auto; exfalso; apply Hz;
    [rewrite Hf|rewrite <- Hf]; auto.
Qed.

Lemma find_app {A} (p : A → bool) l1 l2 :
  find p (l1 ++ l2) = match find p l1 with Some x => Some x | None => find p l2 end.
Proof. induction l1 as [|x l1 IH]; simpl; [done|]. by destruct (p x). Qed.

Lemma find_existsb {A} (p : A → bool) l :
  existsb p l = match find p l with Some _ => true | None => false end.
Proof. induction l as [|x l IH]; simpl; [done|]. by destruct (p x). Qed.

Lemma NoDup_map_snoc {A B} (f : A → B) l x :
  NoDup (map f l) → (∀ y, y ∈ l → f y ≠ f x) → NoDup (map f (l ++ [x])).
Proof.
  intros Hl Hx. rewrite map_app. apply list.NoDup_app. split; [done|]. split; [|by apply NoDup_singleton].
  intros z Hz [->|[]%not_elem_of_nil]%elem_of_cons.
  apply list_elem_of_In, in_map_iff in Hz as (y & He & Hy). apply list_elem_of_In in Hy.
  by apply (Hx y).
Qed.

(** A run, from the result it gives. *)
Lemma run_eq {A B} (p : A * B) (a : A) : p.1 = a → p = (a, p.2).
Proof. destruct p; simpl. congruence. Qed.

(** ** Sorting

    A stable insertion sort: [ORDER BY], [sort.SliceStable]. [le] is the
    non-strict order. *)

Fixpoint insert_by {A} (le : A → A → bool) (x : A) (l : list A) : list A :=
  match l with
  | [] => [x]
  | y :: l' => if le x y then x :: l else y :: insert_by le x l'
  end.

Definition sort_by {A} (le : A → A → bool) (l : list A) : list A := foldr (insert_by le) [] l.

Section sort_by.
Context {A : Type} (le : A → A → bool).

Lemma insert_by_perm x l : insert_by le x l ≡ₚ x :: l.
Proof.
  induction l as [|y l IH]; simpl; [done|]. destruct (le x y); [done|].
  rewrite IH. apply Permutation_swap.
Qed.

Lemma sort_by_perm l : sort_by le l ≡ₚ l.
Proof. induction l as [|x l IH]; simpl; [done|]. by rewrite insert_by_perm, IH. Qed.

Lemma elem_of_sort_by x l : x ∈ sort_by le l ↔ x ∈ l.
Proof. by rewrite sort_by_perm. Qed.

Lemma insert_by_sorted x l :
  (∀ a b, le a b = false → le b a = true) →
  (∀ a b c, le a b = true → le b c = true → le a c = true) →
  StronglySorted (λ a b, le a b = true) l → StronglySorted (λ a b, le a b = true) (insert_by le x l).
Proof.
  intros Htot Htr. induction l as [|y l IH]; intros Hs; simpl; [repeat constructor|].
  apply StronglySorted_inv in Hs as [Hs Hy]. rewrite List.Forall_forall in Hy.
  destruct (le x y) eqn:E.
  - constructor; [constructor; [done|by apply List.Forall_forall]|].
    constructor; [done|]. apply List.Forall_forall. eauto.
  - constructor; [auto|]. apply List.Forall_forall. intros z Hz.
    apply list_elem_of_In in Hz. rewrite insert_by_perm in Hz.
    apply elem_of_cons in Hz as [->|Hz]; [auto|]. by apply Hy, list_elem_of_In.
Qed.

Lemma sort_by_sorted l :
  (∀ a b, le a b = false → le b a = true) →
  (∀ a b c, le a b = true → le b c = true → le a c = true) →
  StronglySorted (λ a b, le a b = true) (sort_by le l).
Proof.
  intros ? ?. induction l as [|x l IH]; simpl; [constructor|]. by apply insert_by_sorted.
Qed.

(** Elements the order does not tell apart keep their order. *)
Lemma insert_by_stable p x l :
  (∀ a b, p a = true → p b = true → le a b = true) →
  List.filter p (insert_by le x l) = List.filter p (x :: l).
Proof.
  intros Hp. induction l as [|y l IH]; [done|]. simpl insert_by. destruct (le x y) eqn:E; [done|].
  simpl in *. rewrite IH. destruct (p x) eqn:Ex, (p y) eqn:Ey; try done.
  rewrite (Hp x y) in E; done.
Qed.

Lemma sort_by_stable p l :
  (∀ a b, p a = true → p b = true → le a b = true) →
  List.filter p (sort_by le l) = List.filter p l.
Proof.
  intros Hp. induction l as [|x l IH]; [done|]. simpl sort_by.
  rewrite insert_by_stable by done. simpl. by rewrite IH.
Qed.
End sort_by.

(** ** Strict weak orders

    What a [less] function passed to a sort must be: asymmetric, with "not
    less" transitive. *)

Record weak_order {A} (less : A → A → bool) : Prop := {
  wo_asym a b : less a b = true → less b a = false;
  wo_trans a b c : less a b = false → less b c = false → less a c = false
}.

Lemma weak_order_ext {A} (less less' : A → A → bool) :
  (∀ a b, less' a b = less a b) → weak_order less → weak_order less'.
Proof. intros H [Ha Ht]. split; intros *; rewrite !H; eauto. Qed.

Lemma weak_order_Z {A} (f : A → Z) : weak_order (λ a b, f a <? f b).
Proof. split; intros *; rewrite ?Z.ltb_lt, ?Z.ltb_ge; lia. Qed.

Lemma weak_order_N {A} (f : A → N) : weak_order (λ a b, (f a <? f b)%N).
Proof. split; intros *; rewrite ?N.ltb_lt, ?N.ltb_ge; lia. Qed.

Definition lex {A} (less1 less2 : A → A → bool) (a b : A) : bool :=
  if less1 a b || less1 b a then less1 a b else less2 a b.

Lemma weak_order_lex {A} (less1 less2 : A → A → bool) :
  weak_order less1 → weak_order less2 → weak_order (lex less1 less2).
Proof.
  intros [A1 T1] [A2 T2]. unfold lex. split.
  - intros a b. rewrite (orb_comm (less1 b a)). pose proof (A1 a b). pose proof (A2 a b).
    destruct (less1 a b), (less1 b a); simpl; auto.
  - intros a b c.
    pose proof (A1 a b) as Aab. pose proof (A1 b c) as Abc. pose proof (A1 a c) as Aac.
    pose proof (T1 a b c) as Tabc. pose proof (T1 c b a) as Tcba. pose proof (T1 b a c) as Tbac.
    pose proof (T1 a c b) as Tacb. pose proof (T1 b c a) as Tbca. pose proof (T1 c a b) as Tcab.
    pose proof (T2 a b c) as T2abc.
    destruct (less1 a b), (less1 b a), (less1 b c), (less1 c b), (less1 a c), (less1 c a); simpl in *;
      intros; auto; try (by discriminate Aab); try (by discriminate Abc); try (by discriminate Aac);
      exfalso; (discriminate Tabc || discriminate Tcba || discriminate Tbac || discriminate Tacb
                || discriminate Tbca || discriminate Tcab || idtac); auto.
Qed.

Lemma weak_order_sorted {A} (less : A → A → bool) l :
  weak_order less → StronglySorted (λ a b, less b a = false) (sort_by (λ a b, negb (less b a)) l).
Proof.
  intros [Ha Ht].
  assert (H : StronglySorted (λ a b, negb (less b a) = true) (sort_by (λ a b, negb (less b a)) l)).
  { apply sort_by_sorted.
    - intros a b. rewrite negb_false_iff, negb_true_iff. apply Ha.
    - intros a b c. rewrite !negb_true_iff. intros H1 H2. by apply (Ht _ b). }
  induction H as [|x l' H IH Hx]; constructor; [done|].
  rewrite List.Forall_forall in Hx |- *. intros y Hy. apply negb_true_iff. auto.
Qed.

Lemma Permutation_filter_bool {A} (p : A → bool) (l l' : list A) :
  l ≡ₚ l' → List.filter p l ≡ₚ List.filter p l'.
Proof.
  induction 1 as [|x l l' _ IH|x y l|l1 l2 l3 _ IH1 _ IH2]; simpl; [done| | |by etrans].
  - destruct (p x); [by constructor|done].
  - destruct (p x), (p y); try done. apply Permutation_swap.
Qed.

Lemma StronglySorted_filter_bool {A} (R : A → A → Prop) (p : A → bool) l :
  StronglySorted R l → StronglySorted R (List.filter p l).
Proof.
  induction 1 as [|x l Hs IH Hx]; simpl; [constructor|]. destruct (p x); [|done].
  constructor; [done|]. rewrite List.Forall_forall in Hx |- *. intros y Hy.
  apply filter_In in Hy as [Hy _]. auto.
Qed.

Lemma filter_all_bool {A} (p : A → bool) l : (∀ x, x ∈ l → p x = true) → List.filter p l = l.
Proof.
  induction l as [|x l IH]; intros H; simpl; [done|].
  rewrite H by (by left). f_equal. apply IH. intros; apply H; by right.
Qed.

Lemma filter_none_bool {A} (p : A → bool) l : (∀ x, x ∈ l → p x = false) → List.filter p l = [].
Proof.
  induction l as [|x l IH]; intros H; simpl; [done|].
  rewrite H by (by left). apply IH. intros; apply H; by right.
Qed.

Lemma StronglySorted_cons_elem {A} (R : A → A → Prop) x l :
  StronglySorted R (x :: l) ↔ (∀ y, y ∈ l → R x y) ∧ StronglySorted R l.
Proof.
  split.
  - intros [H HF]%StronglySorted_inv. split; [|done]. intros y Hy. rewrite List.Forall_forall in HF.
    by apply HF, list_elem_of_In.
  - intros [HF H]. constructor; [done|]. apply List.Forall_forall. intros y Hy. by apply HF, list_elem_of_In.
Qed.
