(* ===== verification/GoTime.v ===== *)
(** * Instants and the UTC calendar

    [time.Time] as the services use it: an instant is the number of
    nanoseconds since the Unix epoch (every clock in the program is put in
    UTC), and [time.Date]/[AddDate] work in the proleptic Gregorian calendar.
    The day and month windows of the budget, quota and reservation services
    are built from these. *)

From S2P Require Import Prelude.

Definition Second : Z := 1000000000.
Definition Minute : Z := 60 * Second.
Definition Hour : Z := 60 * Minute.
Definition Day : Z := 24 * Hour.

(** [time.Time{}], 0001-01-01, and [Time.IsZero]. *)
Definition ZeroTime : Z := -62135596800 * Second.
Definition IsZero (t : Z) : bool := t =? ZeroTime.

(** [t.Unix()]: whole seconds, rounded towards the past. *)
Definition Unix (t : Z) : Z := t / Second.

(** Days since the epoch of an instant. *)
Definition day_of (t : Z) : Z := t / Day.

(** ** Days and civil dates

    Years are counted from March inside a 400-year era of 146097 days, which
    puts the leap day last. *)

Definition era_days : Z := 146097.
Definition epoch_shift : Z := 719468.

Definition yoe_of (doe : Z) : Z := (doe - doe / 1460 + doe / 36524 - doe / 146096) / 365.
Definition yoe_start (yoe : Z) : Z := 365 * yoe + yoe / 4 - yoe / 100.
Definition mp_of (doy : Z) : Z := (5 * doy + 2) / 153.
Definition mp_start (mp : Z) : Z := (153 * mp + 2) / 5.

Definition days_from_civil (y m d : Z) : Z :=
  let y' := if m <=? 2 then y - 1 else y in
  let mp := if 2 <? m then m - 3 else m + 9 in
  (y' / 400) * era_days + yoe_start (y' mod 400) + mp_start mp + (d - 1) - epoch_shift.

Definition civil_from_days (z : Z) : Z * Z * Z :=
  let z' := z + epoch_shift in
  let doe := z' mod era_days in
  let yoe := yoe_of doe in
  let doy := doe - yoe_start yoe in
  let mp := mp_of doy in
  let d := doy - mp_start mp + 1 in
  let m := if mp <? 10 then mp + 3 else mp - 9 in
  let y := yoe + (z' / era_days) * 400 in
  (if m <=? 2 then y + 1 else y, m, d).

(** [time.Date(y, m, d, 0, 0, 0, 0, time.UTC)]: the month is normalised into
    the year; days past the end of the month run on. *)
Definition Date (y m d : Z) : Z :=
  days_from_civil (y + (m - 1) / 12) ((m - 1) mod 12 + 1) d * Day.

(** [t.AddDate(years, months, days)] on a midnight instant. *)
Definition AddDate (t years months days : Z) : Z :=
  let '(y, m, d) := civil_from_days (day_of t) in Date (y + years) (m + months) (d + days).

(** The window of one UTC day and of one calendar month around an instant. *)
Definition dayWindow (now : Z) : Z * Z :=
  let '(y, m, d) := civil_from_days (day_of now) in
  let start := Date y m d in (start, AddDate start 0 0 1).

Definition monthWindow (now : Z) : Z * Z :=
  let '(y, m, _) := civil_from_days (day_of now) in
  let start := Date y m 1 in (start, AddDate start 0 1 0).

(** ** The calendar is a bijection between days and valid dates *)

Lemma yoe_of_spec doe :
  0 <= doe < era_days →
  0 <= yoe_of doe <= 399 ∧ yoe_start (yoe_of doe) <= doe ∧
  (doe < yoe_start (yoe_of doe + 1) ∨ yoe_of doe = 399).
Proof.
  unfold yoe_of, yoe_start, era_days. intros H.
  assert (E : doe / 146096 = if doe =? 146096 then 1 else 0).
  { destruct (Z.eqb_spec doe 146096); [by subst|]. apply Z.div_small. lia. }
  rewrite E.
  destruct (Z.eqb_spec doe 146096) as [->|Hne]; [vm_compute; intuition congruence|].
  assert (36524 * (doe / 36524) <= doe < 36524 * (doe / 36524) + 36524) as Hb
    by (Z.to_euclidean_division_equations; lia).
  assert (doe / 36524 = 0 ∨ doe / 36524 = 1 ∨ doe / 36524 = 2 ∨ doe / 36524 = 3 ∨
          doe / 36524 = 4) as [Hc|[Hc|[Hc|[Hc|Hc]]]] by lia;
    rewrite Hc in *; Z.to_euclidean_division_equations; lia.
Qed.

Lemma yoe_start_year yoe :
  0 <= yoe < 399 → yoe_start yoe + 365 <= yoe_start (yoe + 1) <= yoe_start yoe + 366.
Proof. unfold yoe_start. intros. Z.to_euclidean_division_equations; lia. Qed.

Lemma yoe_start_mono a b : a <= b → yoe_start a <= yoe_start b.
Proof. unfold yoe_start. intros. Z.to_euclidean_division_equations; lia. Qed.

Lemma mp_of_spec doy :
  0 <= doy <= 365 →
  0 <= mp_of doy <= 11 ∧ mp_start (mp_of doy) <= doy ∧ doy < mp_start (mp_of doy + 1).
Proof. unfold mp_of, mp_start. intros. Z.to_euclidean_division_equations; lia. Qed.

(** The decomposition of a day number that both directions share. *)
Lemma civil_decompose z :
  let z' := z + epoch_shift in
  let doe := z' mod era_days in
  let yoe := yoe_of doe in
  let doy := doe - yoe_start yoe in
  0 <= yoe <= 399 ∧ 0 <= doy <= 365 ∧
  z' = (z' / era_days) * era_days + yoe_start yoe + doy ∧
  (yoe < 399 → yoe_start yoe + doy < yoe_start (yoe + 1)) ∧
  (yoe = 399 → yoe_start yoe + doy < era_days).
Proof.
  cbv zeta. set (doe := _ mod era_days).
  assert (0 <= doe < era_days) as Hd by (apply Z.mod_pos_bound; done).
  destruct (yoe_of_spec doe Hd) as (Hy&Hs&Hn).
  assert (z + epoch_shift = (z + epoch_shift) / era_days * era_days + doe).
  { pose proof (Z.div_mod (z + epoch_shift) era_days ltac:(done)). unfold doe. lia. }
  assert (doe - yoe_start (yoe_of doe) <= 365).
  { destruct Hn as [Hn|Hn].
    - destruct (Z.eq_dec (yoe_of doe) 399) as [E|E].
      + rewrite E in *. unfold era_days in *. change (yoe_start 399) with 145731 in *. lia.
      + pose proof (yoe_start_year (yoe_of doe)). lia.
    - rewrite Hn in *. unfold era_days in *. change (yoe_start 399) with 145731 in *. lia. }
  repeat split; lia.
Qed.

Definition valid_date (y m d : Z) : Prop :=
  1 <= m <= 12 ∧ 1 <= d ∧ days_from_civil y m d < Date y (m + 1) 1 / Day.

(** Months of the March-based year, as [days_from_civil] numbers them. *)
Lemma days_from_civil_mp era yoe mp d :
  0 <= yoe <= 399 → 0 <= mp <= 11 →
  let m := if mp <? 10 then mp + 3 else mp - 9 in
  let y := yoe + era * 400 in
  days_from_civil (if m <=? 2 then y + 1 else y) m d =
    era * era_days + yoe_start yoe + mp_start mp + (d - 1) - epoch_shift.
Proof.
  intros Hy Hm. cbv zeta. unfold days_from_civil.
  assert (∀ e, (yoe + e * 400) / 400 = e) as Hdiv.
  { intros e. rewrite Z.div_add by done. rewrite Z.div_small by lia. lia. }
  assert (∀ e, (yoe + e * 400) mod 400 = yoe) as Hmod.
  { intros e. rewrite Z.mod_add by done. apply Z.mod_small. lia. }
  destruct (Z.ltb_spec mp 10).
  - rewrite (proj2 (Z.leb_gt (mp + 3) 2)) by lia.
    rewrite (proj2 (Z.ltb_lt 2 (mp + 3))) by lia.
    rewrite Hdiv, Hmod. replace (mp + 3 - 3) with mp by lia. done.
  - rewrite (proj2 (Z.leb_le (mp - 9) 2)) by lia.
    rewrite (proj2 (Z.ltb_ge 2 (mp - 9))) by lia.
    replace (yoe + era * 400 + 1 - 1) with (yoe + era * 400) by lia.
    rewrite Hdiv, Hmod. replace (mp - 9 + 9) with mp by lia. done.
Qed.

(** The first day of the month after March-based month [mp]. *)
Lemma next_month_mp era yoe mp :
  0 <= yoe <= 399 → 0 <= mp <= 11 →
  let m := if mp <? 10 then mp + 3 else mp - 9 in
  let y := yoe + era * 400 in
  Date (if m <=? 2 then y + 1 else y) (m + 1) 1 =
    Day * (if mp <? 11 then era * era_days + yoe_start yoe + mp_start (mp + 1) - epoch_shift
           else if yoe <? 399 then era * era_days + yoe_start (yoe + 1) - epoch_shift
           else (era + 1) * era_days - epoch_shift).
Proof.
  intros Hy Hm. cbv zeta. unfold Date.
  destruct (Z.ltb_spec mp 11) as [H11|H11].
  - (* the next month is in the same March-based year *)
    rewrite <- (Z.mul_comm _ Day). f_equal.
    pose proof (days_from_civil_mp era yoe (mp + 1) 1 Hy ltac:(lia)) as Hn.
    cbv zeta in Hn.
    replace (era * era_days + yoe_start yoe + mp_start (mp + 1) - epoch_shift)
      with (era * era_days + yoe_start yoe + mp_start (mp + 1) + (1 - 1) - epoch_shift) by lia.
    rewrite <- Hn. clear Hn.
    destruct (Z.ltb_spec mp 10); destruct (Z.ltb_spec (mp + 1) 10); try lia;
      repeat match goal with |- context [if ?a <=? 2 then _ else _] =>
        destruct (Z.leb_spec a 2); try lia end;
      try (assert (mp = 9) as -> by lia); try (assert (mp = 10) as -> by lia);
      f_equal; try done; try (rewrite ?Z.div_small, ?Z.mod_small by lia; lia).
  - assert (mp = 11) as -> by lia. change (11 <? 10) with false. cbv iota.
    change (11 - 9 <=? 2) with true. cbv iota.
    change ((11 - 9 + 1 - 1) / 12) with 0. change ((11 - 9 + 1 - 1) mod 12 + 1) with 3.
    unfold days_from_civil. change (3 <=? 2) with false. change (2 <? 3) with true. cbv iota.
    change (mp_start (3 - 3)) with 0.
    destruct (Z.ltb_spec yoe 399) as [H|H].
    + replace (yoe + era * 400 + 1 + 0) with (yoe + 1 + era * 400) by lia.
      rewrite Z.div_add, Z.mod_add by done.
      rewrite Z.div_small, Z.mod_small by lia. unfold Day, Hour, Minute, Second. lia.
    + assert (yoe = 399) as -> by lia.
      replace (399 + era * 400 + 1 + 0) with ((era + 1) * 400) by lia.
      rewrite Z.div_mul, Z.mod_mul by done.
      change (yoe_start 0) with 0. unfold Day, Hour, Minute, Second. lia.
Qed.

Lemma civil_from_days_spec z :
  let '(y, m, d) := civil_from_days z in
  1 <= m <= 12 ∧ 1 <= d <= 31 ∧
  days_from_civil y m d = z ∧ Day * z < Date y (m + 1) 1.
Proof.
  unfold civil_from_days. pose proof (civil_decompose z) as Hd. cbv zeta in *.
  set (era := (z + epoch_shift) / era_days) in *.
  set (yoe := yoe_of _) in *.
  set (doy := (z + epoch_shift) mod era_days - yoe_start yoe) in *.
  destruct Hd as (Hyoe & Hdoy & Hz & Hnext & Hlast).
  destruct (mp_of_spec doy Hdoy) as (Hmp & Hms & Hme).
  set (mp := mp_of doy) in *.
  pose proof (days_from_civil_mp era yoe mp (doy - mp_start mp + 1) Hyoe Hmp) as HA.
  pose proof (next_month_mp era yoe mp Hyoe Hmp) as HB. cbv zeta in HA, HB.
  assert (mp_start (mp + 1) - mp_start mp <= 31).
  { unfold mp_start. Z.to_euclidean_division_equations; lia. }
  split; [destruct (Z.ltb_spec mp 10); lia|].
  split; [lia|]. split; [rewrite HA; lia|].
  rewrite HB. apply Zmult_lt_compat_l; [done|].
  destruct (Z.ltb_spec mp 11); [lia|].
  assert (mp = 11) as E11 by lia.
  destruct (Z.ltb_spec yoe 399); lia.
Qed.

Lemma Day_pos : 0 < Day.
Proof. done. Qed.
#[export] Hint Resolve Day_pos : go.

Lemma day_of_mul z : day_of (z * Day) = z.
Proof. apply Z.div_mul. done. Qed.

Lemma day_of_bounds t : day_of t * Day <= t < day_of t * Day + Day.
Proof.
  unfold day_of. pose proof (Z.div_mod t Day ltac:(done)).
  pose proof (Z.mod_pos_bound t Day Day_pos). lia.
Qed.

Lemma Date_valid y m d : 1 <= m <= 12 → Date y m d = days_from_civil y m d * Day.
Proof.
  intros. unfold Date. rewrite Z.div_small by lia. rewrite Z.mod_small by lia.
  replace (y + 0) with y by lia. by replace (m - 1 + 1) with m by lia.
Qed.

Lemma days_from_civil_add y m d k : days_from_civil y m (d + k) = days_from_civil y m d + k.
Proof. unfold days_from_civil. lia. Qed.

Lemma dayWindow_eq now : dayWindow now = (day_of now * Day, day_of now * Day + Day).
Proof.
  unfold dayWindow. pose proof (civil_from_days_spec (day_of now)) as Hs.
  destruct (civil_from_days (day_of now)) as [[y m] d] eqn:E.
  destruct Hs as (Hm & Hd & Hz & _).
  rewrite Date_valid, Hz by done. f_equal.
  unfold AddDate. rewrite day_of_mul, E.
  replace (y + 0) with y by lia. replace (m + 0) with m by lia.
  rewrite Date_valid, days_from_civil_add, Hz by done. unfold Day, Hour, Minute, Second. lia.
Qed.

(** The day after the first of the month starts the month's own window. *)
Lemma civil_first_of_month z :
  let '(y, m, _) := civil_from_days z in
  civil_from_days (days_from_civil y m 1) = (y, m, 1) ∧ days_from_civil y m 1 <= z.
Proof.
  unfold civil_from_days at 1. pose proof (civil_decompose z) as Hd. cbv zeta in *.
  set (era := (z + epoch_shift) / era_days) in *.
  set (yoe := yoe_of _) in *.
  set (doy := (z + epoch_shift) mod era_days - yoe_start yoe) in *.
  destruct Hd as (Hyoe & Hdoy & Hz & Hnext & Hlast).
  destruct (mp_of_spec doy Hdoy) as (Hmp & Hms & Hme).
  set (mp := mp_of doy) in *.
  pose proof (days_from_civil_mp era yoe mp 1 Hyoe Hmp) as HA. cbv zeta in HA.
  rewrite HA. split; [|lia].
  assert (Hmod : ∀ r, 0 <= r < era_days →
    (era * era_days + r) / era_days = era ∧ (era * era_days + r) mod era_days = r).
  { intros r Hr. rewrite Z.add_comm, Z.div_add, Z.mod_add by done.
    rewrite Z.div_small, Z.mod_small by done. lia. }
  assert (0 <= mp_start mp) by (unfold mp_start; Z.to_euclidean_division_equations; lia).
  assert (0 <= yoe_start yoe) by (unfold yoe_start; Z.to_euclidean_division_equations; lia).
  assert (Hr : 0 <= yoe_start yoe + mp_start mp < era_days).
  { split; [lia|]. destruct (Z.eq_dec yoe 399); [lia|].
    pose proof (yoe_start_mono (yoe + 1) 399).
    change (yoe_start 399) with 145731 in *. unfold era_days. lia. }
  unfold civil_from_days. cbv zeta.
  replace (era * era_days + yoe_start yoe + mp_start mp + (1 - 1) - epoch_shift + epoch_shift)
    with (era * era_days + (yoe_start yoe + mp_start mp)) by lia.
  destruct (Hmod _ Hr) as [-> ->].
  assert (yoe_of (yoe_start yoe + mp_start mp) = yoe) as ->.
  { destruct (yoe_of_spec _ Hr) as (Hy1 & Hy2 & Hy3).
    set (y1 := yoe_of (yoe_start yoe + mp_start mp)) in *.
    destruct (Z.lt_trichotomy y1 yoe) as [Hlt|[?|Hgt]]; [exfalso|done|exfalso].
    - destruct Hy3 as [Hy3|?]; [|lia].
      pose proof (yoe_start_mono (y1 + 1) yoe). lia.
    - pose proof (yoe_start_mono (yoe + 1) y1). pose proof (Hnext ltac:(lia)). lia. }
  replace (yoe_start yoe + mp_start mp - yoe_start yoe) with (mp_start mp) by lia.
  assert (mp_of (mp_start mp) = mp) as ->.
  { unfold mp_of, mp_start. Z.to_euclidean_division_equations; lia. }
  replace (mp_start mp - mp_start mp + 1) with 1 by lia. done.
Qed.

Lemma monthWindow_eq now :
  ∃ y m, 1 <= m <= 12 ∧ monthWindow now = (Date y m 1, Date y (m + 1) 1) ∧
    Date y m 1 <= day_of now * Day < Date y (m + 1) 1 ∧
    civil_from_days (day_of (Date y m 1)) = (y, m, 1).
Proof.
  unfold monthWindow. pose proof (civil_from_days_spec (day_of now)) as Hs.
  pose proof (civil_first_of_month (day_of now)) as Hf.
  destruct (civil_from_days (day_of now)) as [[y m] d] eqn:E.
  destruct Hs as (Hm & Hd & Hz & Hlt). destruct Hf as [Hf1 Hf2].
  exists y, m. split; [done|].
  assert (Date y m 1 = days_from_civil y m 1 * Day) as HD by (by apply Date_valid).
  rewrite HD. split; [|split].
  - f_equal. unfold AddDate. rewrite day_of_mul, Hf1.
    f_equal; lia.
  - split; [|lia]. apply Z.mul_le_mono_nonneg_r; [done|]. lia.
  - by rewrite day_of_mul.
Qed.

(** Midnights are multiples of a day, so a window that contains the day's
    midnight and ends at a later midnight contains the whole day. *)
Lemma Date_multiple y m d : Date y m d = day_of (Date y m d) * Day.
Proof. unfold Date. by rewrite day_of_mul. Qed.

Lemma monthWindow_contains now :
  (monthWindow now).1 <= now < (monthWindow now).2.
Proof.
  destruct (monthWindow_eq now) as (y & m & Hm & -> & [H1 H2] & _); simpl.
  pose proof (day_of_bounds now). split; [lia|].
  rewrite Date_multiple in H2 |- *.
  assert (day_of now < day_of (Date y (m + 1) 1)).
  { apply Z.mul_lt_mono_pos_r with (p := Day); [done|lia]. }
  assert (day_of now * Day + Day <= day_of (Date y (m + 1) 1) * Day); [|lia].
  replace (day_of now * Day + Day) with ((day_of now + 1) * Day) by lia.
  apply Z.mul_le_mono_nonneg_r; [done|lia].
Qed.

Lemma dayWindow_contains now : (dayWindow now).1 <= now < (dayWindow now).2.
Proof. rewrite dayWindow_eq; simpl. apply day_of_bounds. Qed.

(** ** Windows partition time *)

(** Start of month number [k], counted from January of year 0. *)
Definition month_start (k : Z) : Z := Date 0 (k + 1) 1.

Lemma Date_month_start y m : Date y m 1 = month_start (12 * y + m - 1).
Proof.
  unfold month_start, Date.
  replace (12 * y + m - 1 + 1 - 1) with (m - 1 + y * 12) by lia.
  rewrite Z.div_add, Z.mod_add by done. f_equal. f_equal. lia.
Qed.

Lemma month_start_lt_succ k : month_start k < month_start (k + 1).
Proof.
  set (y := k / 12). set (m := k mod 12 + 1).
  assert (0 <= k mod 12 < 12) by (apply Z.mod_pos_bound; done).
  assert (k = 12 * y + m - 1) as Hk by (pose proof (Z.div_mod k 12); lia).
  replace (month_start (k + 1)) with (Date y (m + 1) 1) by (rewrite Date_month_start; f_equal; lia).
  replace (month_start k) with (Date y m 1) by (rewrite Date_month_start; f_equal; lia).
  set (mp := if 2 <? m then m - 3 else m + 9).
  set (y' := if m <=? 2 then y - 1 else y).
  assert (Hyoe : 0 <= y' mod 400 <= 399) by (pose proof (Z.mod_pos_bound y' 400); lia).
  assert (Hmp : 0 <= mp <= 11) by (unfold mp; destruct (Z.ltb_spec 2 m); lia).
  pose proof (days_from_civil_mp (y' / 400) (y' mod 400) mp 1 Hyoe Hmp) as HA.
  pose proof (next_month_mp (y' / 400) (y' mod 400) mp Hyoe Hmp) as HB. cbv zeta in HA, HB.
  replace (y' mod 400 + y' / 400 * 400) with y' in HA, HB by (pose proof (Z.div_mod y' 400); lia).
  replace (if mp <? 10 then mp + 3 else mp - 9) with m in HA, HB
    by (unfold mp; destruct (Z.ltb_spec 2 m);
        [destruct (Z.ltb_spec (m - 3) 10)|destruct (Z.ltb_spec (m + 9) 10)]; lia).
  replace (if m <=? 2 then y' + 1 else y') with y in HA, HB
    by (unfold y'; destruct (Z.leb_spec m 2); lia).
  rewrite HB, Date_valid, HA by lia. rewrite (Z.mul_comm _ Day).
  apply Zmult_lt_compat_l; [done|].
  assert (mp_start mp < mp_start (mp + 1)) by (unfold mp_start; Z.to_euclidean_division_equations; lia).
  destruct (Z.ltb_spec mp 11); [lia|].
  assert (mp = 11) as -> by lia. change (mp_start 11) with 337.
  destruct (Z.ltb_spec (y' mod 400) 399).
  - pose proof (yoe_start_year (y' mod 400)). lia.
  - replace (y' mod 400) with 399 by lia. change (yoe_start 399) with 145731.
    unfold era_days. lia.
Qed.

Lemma month_start_mono j k : j <= k → month_start j <= month_start k.
Proof.
  intros H. replace k with (j + Z.of_nat (Z.to_nat (k - j))) by lia.
  induction (Z.to_nat (k - j)) as [|n IH]; [by rewrite Z.add_0_r|].
  pose proof (month_start_lt_succ (j + Z.of_nat n)).
  replace (j + Z.of_nat (S n)) with (j + Z.of_nat n + 1) by lia. lia.
Qed.

Lemma month_start_unique t j k :
  month_start j <= t < month_start (j + 1) → month_start k <= t < month_start (k + 1) → j = k.
Proof.
  intros [Hj1 Hj2] [Hk1 Hk2].
  destruct (Z.lt_trichotomy j k) as [H|[H|H]]; [exfalso|done|exfalso].
  - pose proof (month_start_mono (j + 1) k). lia.
  - pose proof (month_start_mono (k + 1) j). lia.
Qed.

Lemma monthWindow_month_start now :
  ∃ k, monthWindow now = (month_start k, month_start (k + 1)).
Proof.
  destruct (monthWindow_eq now) as (y & m & Hm & -> & _).
  exists (12 * y + m - 1). rewrite !Date_month_start. do 2 f_equal. lia.
Qed.

(** The windows of a period tile the time line. Every instant lies in its
    own day and month window (start included, end excluded), and every other
    instant of that window is given exactly the same window, so a cost or a
    reservation is charged to one and the same counter row whenever in the
    window it is recorded. *)
Theorem windows_partition_time (now t : Z) :
  ((dayWindow now).1 <= now < (dayWindow now).2 ∧
   ((dayWindow now).1 <= t < (dayWindow now).2 ↔ dayWindow t = dayWindow now)) ∧
  ((monthWindow now).1 <= now < (monthWindow now).2 ∧
   ((monthWindow now).1 <= t < (monthWindow now).2 ↔ monthWindow t = monthWindow now)).
Proof.
  split; (split; [auto using dayWindow_contains, monthWindow_contains|]).
  - split; [|intros <-; apply dayWindow_contains].
    rewrite !dayWindow_eq; simpl. intros H.
    assert (day_of t = day_of now) as ->; [|done].
    pose proof (day_of_bounds t). unfold Day, Hour, Minute, Second in *. lia.
  - split; [|intros <-; apply monthWindow_contains].
    pose proof (monthWindow_contains t) as Ht.
    destruct (monthWindow_month_start now) as [j Hj], (monthWindow_month_start t) as [k Hk].
    rewrite Hj, Hk in *; simpl in *. intros H.
    by rewrite (month_start_unique t k j).
Qed.
