(* ===== verification/GoStrings.v ===== *)
(** * Go strings

    A Go string is its bytes: [string], a list of [ascii]. The functions of
    the [strings] package that the services use are defined on bytes; where Go
    works on runes ([TrimSpace]) the UTF-8 encodings are spelled out. *)

From Stdlib Require Import Ascii.
From S2P Require Import Prelude.

#[local] Open Scope string_scope.

Definition byte_of (c : ascii) : N := N_of_ascii c.
Definition is_byte (n : N) (c : ascii) : bool := (byte_of c =? n)%N.
Definition in_bytes (lo hi : N) (c : ascii) : bool := (lo <=? byte_of c)%N && (byte_of c <=? hi)%N.

(** [unicode.IsSpace] on one-byte runes. *)
Definition ascii_space (c : ascii) : bool := in_bytes 9 13 c || is_byte 32 c.

(** The two- and three-byte encodings of the other space runes:
    U+0085, U+00A0; U+1680, U+2000-200A, U+2028, U+2029, U+202F, U+205F, U+3000. *)
Definition space2 (a b : ascii) : bool :=
  is_byte 194 a && (is_byte 133 b || is_byte 160 b).
Definition space3 (a b c : ascii) : bool :=
  (is_byte 225 a && is_byte 154 b && is_byte 128 c)
  || (is_byte 226 a && is_byte 128 b &&
      (in_bytes 128 138 c || is_byte 168 c || is_byte 169 c || is_byte 175 c))
  || (is_byte 226 a && is_byte 129 b && is_byte 159 c)
  || (is_byte 227 a && is_byte 128 b && is_byte 128 c).

(** [strings.TrimLeftFunc(s, unicode.IsSpace)]. *)
Fixpoint trimSpaceLeft (s : string) : string :=
  match s with
  | EmptyString => ""
  | String a r =>
      if ascii_space a then trimSpaceLeft r
      else match r with
           | EmptyString => s
           | String b r' =>
               if space2 a b then trimSpaceLeft r'
               else match r' with
                    | EmptyString => s
                    | String c r'' => if space3 a b c then trimSpaceLeft r'' else s
                    end
           end
  end.

Fixpoint revString_app (s acc : string) : string :=
  match s with
  | EmptyString => acc
  | String c r => revString_app r (String c acc)
  end.
Definition revString (s : string) : string := revString_app s "".

(** Trailing space runes, read from the last byte backwards. *)
Fixpoint trimSpaceLeft_rev (s : string) : string :=
  match s with
  | EmptyString => ""
  | String a r =>
      if ascii_space a then trimSpaceLeft_rev r
      else match r with
           | EmptyString => s
           | String b r' =>
               if space2 b a then trimSpaceLeft_rev r'
               else match r' with
                    | EmptyString => s
                    | String c r'' => if space3 c b a then trimSpaceLeft_rev r'' else s
                    end
           end
  end.

Definition trimSpaceRight (s : string) : string := revString (trimSpaceLeft_rev (revString s)).

(** [strings.TrimSpace]. *)
Definition TrimSpace (s : string) : string := trimSpaceRight (trimSpaceLeft s).

(** [strings.HasPrefix] and [strings.TrimPrefix]. *)
Fixpoint cutPrefix (p s : string) : option string :=
  match p, s with
  | EmptyString, _ => Some s
  | String a p', String b s' => if Ascii.eqb a b then cutPrefix p' s' else None
  | String _ _, EmptyString => None
  end.

Definition HasPrefix (s p : string) : bool :=
  match cutPrefix p s with Some _ => true | None => false end.
Definition TrimPrefix (s p : string) : string := default s (cutPrefix p s).

(** [strings.HasSuffix] and [strings.TrimSuffix]. *)
Definition cutSuffix (p s : string) : option string :=
  revString <$> cutPrefix (revString p) (revString s).
Definition HasSuffix (s p : string) : bool :=
  match cutSuffix p s with Some _ => true | None => false end.
Definition TrimSuffix (s p : string) : string := default s (cutSuffix p s).

(** ** Laws *)

#[local] Arguments String.append : simpl nomatch.

Lemma string_app_cons c (a b : string) : String c a +:+ b = String c (a +:+ b).
Proof. done. Qed.

Lemma string_app_assoc (a b c : string) : a +:+ (b +:+ c) = (a +:+ b) +:+ c.
Proof. induction a as [|x a IH]; [done|]. rewrite ?string_app_cons. by rewrite IH. Qed.

Lemma string_app_nil_r (a : string) : a +:+ "" = a.
Proof. induction a as [|x a IH]; [done|]. rewrite ?string_app_cons. by rewrite IH. Qed.

Lemma revString_app_spec s acc : revString_app s acc = revString s +:+ acc.
Proof.
  unfold revString. revert acc. induction s as [|c s IH]; intros acc; [done|].
  simpl. rewrite (IH (String c acc)), (IH (String c "")). by rewrite <- string_app_assoc.
Qed.

Lemma revString_cons c s : revString (String c s) = revString s +:+ String c "".
Proof. unfold revString at 1. simpl. apply revString_app_spec. Qed.

Lemma revString_append a b : revString (a +:+ b) = revString b +:+ revString a.
Proof.
  induction a as [|c a IH]; [by rewrite string_app_nil_r|].
  change (String c a +:+ b) with (String c (a +:+ b)).
  by rewrite !revString_cons, IH, string_app_assoc.
Qed.

Lemma revString_involutive s : revString (revString s) = s.
Proof.
  induction s as [|c s IH]; [done|].
  rewrite revString_cons, revString_append, IH. done.
Qed.

Lemma cutPrefix_spec p s r : cutPrefix p s = Some r ↔ s = p +:+ r.
Proof.
  revert s. induction p as [|a p IH]; intros s; simpl; [naive_solver|].
  destruct s as [|b s]; [naive_solver|].
  destruct (Ascii.eqb_spec a b) as [->|Hne]; [rewrite IH|]; naive_solver.
Qed.

Lemma HasPrefix_spec s p : HasPrefix s p = true ↔ ∃ r, s = p +:+ r.
Proof.
  unfold HasPrefix. split.
  - intros H. case_all H. exists s0. by apply cutPrefix_spec.
  - intros [r H]. by rewrite (proj2 (cutPrefix_spec p s r) H).
Qed.

Lemma TrimPrefix_app p r : TrimPrefix (p +:+ r) p = r.
Proof. unfold TrimPrefix. by rewrite (proj2 (cutPrefix_spec p _ r) eq_refl). Qed.

Lemma cutSuffix_spec p s r : cutSuffix p s = Some r ↔ s = r +:+ p.
Proof.
  unfold cutSuffix. split.
  - destruct (cutPrefix _ _) as [t|] eqn:E; intros [= <-].
    apply cutPrefix_spec in E. rewrite <- (revString_involutive s), E.
    by rewrite revString_append, revString_involutive.
  - intros ->. rewrite revString_append.
    rewrite (proj2 (cutPrefix_spec _ _ (revString r)) eq_refl). simpl.
    by rewrite revString_involutive.
Qed.

Lemma HasSuffix_spec s p : HasSuffix s p = true ↔ ∃ r, s = r +:+ p.
Proof.
  unfold HasSuffix. split.
  - intros H. case_all H. exists s0. by apply cutSuffix_spec.
  - intros [r H]. by rewrite (proj2 (cutSuffix_spec p s r) H).
Qed.

Lemma TrimSuffix_app p r : TrimSuffix (r +:+ p) p = r.
Proof. unfold TrimSuffix. by rewrite (proj2 (cutSuffix_spec p _ r) eq_refl). Qed.

(** A prefix of a string that starts with no space rune starts with none. *)
Lemma trimSpaceLeft_prefix_fixed s t :
  trimSpaceLeft (s +:+ t) = s +:+ t → trimSpaceLeft s = s.
Proof.
  assert (Hlen : ∀ n u, (String.length u <= n)%nat → (String.length (trimSpaceLeft u) <= String.length u)%nat).
  { induction n as [|n IH]; intros u Hu; [destruct u; simpl in *; [done|lia]|].
    destruct u as [|a u]; [done|]. simpl. case_match; [etrans; [apply IH; simpl in *; lia|lia]|].
    destruct u as [|b u]; [done|]. simpl in Hu.
    case_match; [etrans; [apply IH; simpl in *; lia|simpl; lia]|].
    destruct u as [|c u]; [done|]. simpl in Hu.
    case_match; [etrans; [apply IH; simpl in *; lia|simpl; lia]|done]. }
  assert (Hneq : ∀ u v : string, (String.length u < String.length v)%nat → u ≠ v)
    by (intros u v H ->; lia).
  destruct s as [|a s]; [done|]. simpl. intros H.
  case_match eqn:Ha.
  { exfalso. eapply Hneq; [|exact H]. pose proof (Hlen _ (s +:+ t) (le_n _)). simpl. lia. }
  destruct s as [|b s]; [done|]. simpl in H.
  destruct (space2 a b) eqn:Hb.
  { exfalso. eapply Hneq; [|exact H]. pose proof (Hlen _ (s +:+ t) (le_n _)). simpl. lia. }
  destruct s as [|c s]; [done|]. simpl in H.
  destruct (space3 a b c) eqn:Hc; [|done].
  exfalso. eapply Hneq; [|exact H]. pose proof (Hlen _ (s +:+ t) (le_n _)). simpl. lia.
Qed.

Lemma string_len_ind (P : string → Prop) :
  (∀ s, (∀ t, (String.length t < String.length s)%nat → P t) → P s) → ∀ s, P s.
Proof. intros H s. induction (Nat.lt_wf_0_projected String.length s) as [s _ IH]. by apply H. Qed.

Ltac trim_cases IH :=
  match goal with
  | |- context [if ?b then _ else _] => destruct b eqn:?; [apply IH; simpl; lia|]
  end.

Lemma trimSpaceLeft_idem s : trimSpaceLeft (trimSpaceLeft s) = trimSpaceLeft s.
Proof.
  induction s as [s IH] using string_len_ind.
  destruct s as [|a s]; [done|]. cbn [trimSpaceLeft]. trim_cases IH.
  destruct s as [|b s]; [cbn; by rewrite Heqb|]. trim_cases IH.
  destruct s as [|c s]; [cbn; by rewrite Heqb, Heqb0|]. trim_cases IH.
  cbn. by rewrite Heqb, Heqb0, Heqb1.
Qed.

Lemma trimSpaceLeft_rev_suffix s : ∃ p, s = p +:+ trimSpaceLeft_rev s.
Proof.
  induction s as [s IH] using string_len_ind.
  destruct s as [|a s]; [by exists ""|]. cbn [trimSpaceLeft_rev].
  destruct (ascii_space a).
  { destruct (IH s) as [p Hp]; [simpl; lia|]. exists (String a p). simpl. by rewrite <- Hp. }
  destruct s as [|b s]; [by exists ""|]. destruct (space2 b a).
  { destruct (IH s) as [p Hp]; [simpl; lia|]. exists (String a (String b p)). simpl. by rewrite <- Hp. }
  destruct s as [|c s]; [by exists ""|]. destruct (space3 c b a); [|by exists ""].
  destruct (IH s) as [p Hp]; [simpl; lia|].
  exists (String a (String b (String c p))). simpl. by rewrite <- Hp.
Qed.

Lemma trimSpaceLeft_rev_idem s : trimSpaceLeft_rev (trimSpaceLeft_rev s) = trimSpaceLeft_rev s.
Proof.
  induction s as [s IH] using string_len_ind.
  destruct s as [|a s]; [done|]. cbn [trimSpaceLeft_rev]. trim_cases IH.
  destruct s as [|b s]; [cbn; by rewrite Heqb|]. trim_cases IH.
  destruct s as [|c s]; [cbn; by rewrite Heqb, Heqb0|]. trim_cases IH.
  cbn. by rewrite Heqb, Heqb0, Heqb1.
Qed.

(** Trimming is idempotent: a name stored after [TrimSpace] compares equal to
    itself when it is trimmed again on lookup. *)
Lemma TrimSpace_idem s : TrimSpace (TrimSpace s) = TrimSpace s.
Proof.
  unfold TrimSpace. set (u := trimSpaceLeft s).
  assert (Hp : ∃ q, u = trimSpaceRight u +:+ q).
  { unfold trimSpaceRight. destruct (trimSpaceLeft_rev_suffix (revString u)) as [p Hp].
    exists (revString p). rewrite <- revString_append, <- Hp. by rewrite revString_involutive. }
  assert (trimSpaceLeft (trimSpaceRight u) = trimSpaceRight u) as ->.
  { destruct Hp as [q Hq]. apply (trimSpaceLeft_prefix_fixed _ q).
    rewrite <- Hq. apply trimSpaceLeft_idem. }
  unfold trimSpaceRight. by rewrite revString_involutive, trimSpaceLeft_rev_idem.
Qed.
#[export] Hint Rewrite TrimSpace_idem revString_involutive : gorw.

(** Texts of equal length split where they were joined. *)
Lemma string_app_inj a b c d : String.length a = String.length b → a +:+ c = b +:+ d → a = b ∧ c = d.
Proof.
  revert b. induction a as [|x a IH]; intros [|y b]; simpl; try done. intros [= Hl] [= -> H].
  by destruct (IH b Hl H) as [-> ->].
Qed.

Lemma string_length_app a b : String.length (a +:+ b) = (String.length a + String.length b)%nat.
Proof. induction a as [|x a IH]; simpl; [done|]. by rewrite IH. Qed.

Lemma string_app_cancel p a b : p +:+ a = p +:+ b → a = b.
Proof. intros H. by apply string_app_inj in H as [_ H]. Qed.
