(* ===== verification/Costing.v ===== *)
(** * Costing: [internal/costing/calculator.go]

    The price of a completion from its token counts and a per-1000-token
    price, in integer micro-dollars. *)

From S2P Require Import Prelude.

(** [ErrInvalidCostInput] and [ErrCostOverflow]. *)
Definition ErrInvalidCostInput (msg : string) : err := EWrap "invalid cost input" msg.
Definition ErrCostOverflow (msg : string) : err := EWrap "cost overflow" msg.

Record CalculateInput := mkCalculateInput {
  PromptTokens : Z;
  CompletionTokens : Z;
  InputPriceMicroUSDPer1KTokens : Z;
  OutputPriceMicroUSDPer1KTokens : Z
}.

(** [domain.PricingSnapshot] and [domain.CostCalculation]. *)
Record PricingSnapshot := mkPricingSnapshot {
  Snapshot_InputPrice : Z;
  Snapshot_OutputPrice : Z;
  Snapshot_RoundingMode : string
}.

Record CostCalculation := mkCostCalculation {
  Currency : string;
  InputCostMicro : Z;
  OutputCostMicro : Z;
  TotalCostMicro : Z;
  Snapshot : PricingSnapshot
}.

Definition currencyUSD : string := "USD".
Definition RoundingModeTruncateToMicroUSD : string := "truncate_to_micro_usd".

(** [costMicro]: the product and the quotient are arbitrary-precision
    ([big.Int]); only the final value must fit an [int64]. *)
Definition costMicro (tokens price : Z) : result Z :=
  let product := tokens * price in
  let value := Z.quot product 1000 in
  if (MinInt64 <=? value) && (value <=? MaxInt64) then Ok value
  else Err (ErrCostOverflow "cost exceeds int64").

Definition Calculate (input : CalculateInput) : result CostCalculation :=
  if input.(PromptTokens) <? 0 then
    Err (ErrInvalidCostInput "prompt tokens must be non-negative")
  else if input.(CompletionTokens) <? 0 then
    Err (ErrInvalidCostInput "completion tokens must be non-negative")
  else if input.(InputPriceMicroUSDPer1KTokens) <? 0 then
    Err (ErrInvalidCostInput "input price must be non-negative")
  else if input.(OutputPriceMicroUSDPer1KTokens) <? 0 then
    Err (ErrInvalidCostInput "output price must be non-negative")
  else
    inputCostMicro ← costMicro input.(PromptTokens) input.(InputPriceMicroUSDPer1KTokens);
    outputCostMicro ← costMicro input.(CompletionTokens) input.(OutputPriceMicroUSDPer1KTokens);
    if MaxInt64 -₆₄ outputCostMicro <? inputCostMicro then
      Err (ErrCostOverflow "total cost exceeds int64")
    else Ok {|
      Currency := currencyUSD;
      InputCostMicro := inputCostMicro;
      OutputCostMicro := outputCostMicro;
      TotalCostMicro := inputCostMicro +₆₄ outputCostMicro;
      Snapshot := {|
        Snapshot_InputPrice := input.(InputPriceMicroUSDPer1KTokens);
        Snapshot_OutputPrice := input.(OutputPriceMicroUSDPer1KTokens);
        Snapshot_RoundingMode := RoundingModeTruncateToMicroUSD |} |}.

(** ** Reference specification

    On valid input the cost of a side is the real quotient rounded down, and
    the total is exact or rejected. *)

Definition valid_input (i : CalculateInput) : Prop :=
  0 <= i.(PromptTokens) ∧ 0 <= i.(CompletionTokens) ∧
  0 <= i.(InputPriceMicroUSDPer1KTokens) ∧ 0 <= i.(OutputPriceMicroUSDPer1KTokens).

Definition spec_input_cost (i : CalculateInput) : Z :=
  i.(PromptTokens) * i.(InputPriceMicroUSDPer1KTokens) / 1000.
Definition spec_output_cost (i : CalculateInput) : Z :=
  i.(CompletionTokens) * i.(OutputPriceMicroUSDPer1KTokens) / 1000.
Definition spec_total_cost (i : CalculateInput) : Z := spec_input_cost i + spec_output_cost i.

Lemma costMicro_spec t p :
  0 <= t → 0 <= p →
  costMicro t p =
    if t * p / 1000 <=? MaxInt64 then Ok (t * p / 1000)
    else Err (ErrCostOverflow "cost exceeds int64").
Proof.
  intros Ht Hp. unfold costMicro.
  rewrite Z.quot_div_nonneg by nia.
  assert (0 <= t * p / 1000) by (apply Z.div_pos; nia).
  replace (MinInt64 <=? t * p / 1000) with true; [done|].
  symmetry; apply Z.leb_le; unfold_ranges; lia.
Qed.

Lemma costMicro_range t p c : costMicro t p = Ok c → in64 c.
Proof.
  unfold costMicro; intros H; case_all H. bool_to_prop; unfold_ranges; lia.
Qed.
#[export] Hint Resolve costMicro_range : go.

Lemma spec_costs_nonneg i :
  valid_input i → 0 <= spec_input_cost i ∧ 0 <= spec_output_cost i.
Proof.
  intros (?&?&?&?). unfold spec_input_cost, spec_output_cost.
  split; apply Z.div_pos; nia.
Qed.

Lemma Calculate_invalid i :
  ¬ valid_input i → ∃ msg, Calculate i = Err (ErrInvalidCostInput msg).
Proof.
  unfold valid_input, Calculate; intros H.
  repeat case_match; eauto; exfalso; bool_to_prop; lia.
Qed.

Lemma Calculate_ok_iff i c :
  Calculate i = Ok c ↔
  valid_input i ∧ spec_total_cost i <= MaxInt64 ∧
  c = {| Currency := currencyUSD;
         InputCostMicro := spec_input_cost i;
         OutputCostMicro := spec_output_cost i;
         TotalCostMicro := spec_total_cost i;
         Snapshot := {| Snapshot_InputPrice := i.(InputPriceMicroUSDPer1KTokens);
                        Snapshot_OutputPrice := i.(OutputPriceMicroUSDPer1KTokens);
                        Snapshot_RoundingMode := RoundingModeTruncateToMicroUSD |} |}.
Proof.
  destruct (decide (0 <= i.(PromptTokens) ∧ 0 <= i.(CompletionTokens) ∧
    0 <= i.(InputPriceMicroUSDPer1KTokens) ∧ 0 <= i.(OutputPriceMicroUSDPer1KTokens)))
    as [Hv|Hv]; last first.
  { destruct (Calculate_invalid i Hv) as [m ->].
    split; [done|]. intros (Hv'&_); done. }
  destruct (spec_costs_nonneg i Hv) as [Hin Hout].
  destruct Hv as (H1&H2&H3&H4).
  unfold Calculate.
  rewrite !(proj2 (Z.ltb_ge _ _)) by done.
  rewrite !costMicro_spec by done.
  fold (spec_input_cost i) (spec_output_cost i). unfold spec_total_cost.
  destruct (Z.leb_spec (spec_input_cost i) MaxInt64); simpl; last first.
  { split; [done|]. intros (_&?&_); lia. }
  destruct (Z.leb_spec (spec_output_cost i) MaxInt64); simpl; last first.
  { split; [done|]. intros (_&?&_); lia. }
  rewrite (wrap64_id (MaxInt64 - _)) by (unfold_ranges; lia).
  destruct (Z.ltb_spec (MaxInt64 - spec_output_cost i) (spec_input_cost i)).
  { split; [done|]. intros (_&?&_); lia. }
  rewrite wrap64_id by (unfold_ranges; lia).
  split.
  - intros [= <-]. unfold valid_input; repeat split; auto; lia.
  - intros (_&_&->); done.
Qed.

(** Fewer tokens at the same prices cost no more, and can be priced. *)
Lemma Calculate_mono i j c :
  Calculate j = Ok c → 0 <= i.(PromptTokens) <= j.(PromptTokens) → 0 <= i.(CompletionTokens) <= j.(CompletionTokens) →
  i.(InputPriceMicroUSDPer1KTokens) = j.(InputPriceMicroUSDPer1KTokens) →
  i.(OutputPriceMicroUSDPer1KTokens) = j.(OutputPriceMicroUSDPer1KTokens) →
  ∃ c', Calculate i = Ok c' ∧ 0 <= c'.(TotalCostMicro) <= c.(TotalCostMicro).
Proof.
  intros ((? & ? & ? & ?) & Hmax & ->)%Calculate_ok_iff Hp Hc Ei Eo.
  assert (Hv : valid_input i) by (unfold valid_input; lia).
  pose proof (spec_costs_nonneg i Hv) as [? ?].
  assert (spec_input_cost i <= spec_input_cost j) by (unfold spec_input_cost; apply Z.div_le_mono; nia).
  assert (spec_output_cost i <= spec_output_cost j) by (unfold spec_output_cost; apply Z.div_le_mono; nia).
  eexists. split; [apply Calculate_ok_iff; split; [done|]; split; [|done]|simpl]; unfold spec_total_cost in *; lia.
Qed.

(** C19: on non-negative token counts and prices the calculator either returns
    the two sides rounded down to whole micro-dollars together with their exact
    sum, or, exactly when that sum does not fit an [int64], reports
    [ErrCostOverflow]; no intermediate wrap-around is observable. *)
Theorem Calculate_exact (i : CalculateInput) :
  valid_input i →
  (∃ c, Calculate i = Ok c ∧
     c.(InputCostMicro) = spec_input_cost i ∧
     c.(OutputCostMicro) = spec_output_cost i ∧
     c.(TotalCostMicro) = spec_total_cost i ∧
     0 <= c.(TotalCostMicro) <= MaxInt64) ∨
  (MaxInt64 < spec_total_cost i ∧ ∃ msg, Calculate i = Err (ErrCostOverflow msg)).
Proof.
  intros Hv. destruct (Calculate i) as [c|e] eqn:E.
  - left. apply Calculate_ok_iff in E as (_&Hle&->).
    pose proof (spec_costs_nonneg i Hv). unfold spec_total_cost in *.
    eexists; split; [done|]; simpl; lia.
  - right. split.
    + destruct (Z.le_gt_cases (spec_total_cost i) MaxInt64) as [Hle|]; [|done].
      assert (∃ c, Calculate i = Ok c) as [c Hc]; [|congruence].
      eexists; apply Calculate_ok_iff; done.
    + destruct Hv as (?&?&?&?). unfold Calculate in E.
      rewrite !(proj2 (Z.ltb_ge _ _)) in E by done.
      rewrite !costMicro_spec in E by done.
      repeat (case_match; simpl in E; simplify_eq; eauto).
Qed.

Lemma Calculate_exact_witness :
  valid_input (mkCalculateInput 1999 500 150 600) ∧
  ((∃ c, Calculate (mkCalculateInput 1999 500 150 600) = Ok c ∧
     c.(InputCostMicro) = spec_input_cost (mkCalculateInput 1999 500 150 600) ∧
     c.(OutputCostMicro) = spec_output_cost (mkCalculateInput 1999 500 150 600) ∧
     c.(TotalCostMicro) = spec_total_cost (mkCalculateInput 1999 500 150 600) ∧
     0 <= c.(TotalCostMicro) <= MaxInt64) ∨
   (MaxInt64 < spec_total_cost (mkCalculateInput 1999 500 150 600) ∧
    ∃ msg, Calculate (mkCalculateInput 1999 500 150 600) = Err (ErrCostOverflow msg))).
Proof.
  assert (H : valid_input (mkCalculateInput 1999 500 150 600)) by (unfold valid_input; simpl; lia).
  split; [exact H | exact (Calculate_exact _ H)].
Defined.
