(* ===== verification/Store.v ===== *)
(** * The store: rows, tables and transactions

    [internal/store] (the pool, [ExecTx]) and the row types of
    [internal/store/sqlc]. The database is the list of rows of each table; an
    SQL statement is a function on it that may fail. A service method runs in
    the monad [M] over [world]: the database, the clock, the supply of fresh
    UUIDs, the outcomes of the calls that leave the process, and a trace of
    the best-effort effects (events, analytics, logs, metrics). *)

From S2P Require Import Prelude Costing.

(** [uuid.UUID]; [uuid.Nil] is the zero value. *)
Definition uuid : Type := N.
#[export] Instance uuid_eq_dec : EqDecision uuid := N.eq_dec.
#[export] Instance uuid_countable : Countable uuid := N_countable.
Definition Nil : uuid := 0%N.

(** JSON values: request metadata, provider usage, route configuration. *)
Inductive json : Type :=
| JNull
| JBool (b : bool)
| JNum (n : Z)
| JFloat (text : string)
| JStr (s : string)
| JArr (items : list json)
| JObj (fields : list (string * json)).

(** One row of [budgets] ([sqlc.Budget]). *)
Record Budget := mkBudget {
  Budget_ID : uuid;
  Budget_OrgID : uuid;
  Budget_Name : string;
  Budget_ScopeType : string;
  Budget_ScopeID : option uuid;
  Budget_Period : string;
  Budget_LimitMicroUsd : Z;
  Budget_Action : string;
  Budget_Status : string;
  Budget_CreatedAt : Z;
  Budget_UpdatedAt : Z
}.

(** One row of [api_keys] ([sqlc.ApiKey]). *)
Record ApiKey := mkApiKey {
  ApiKey_ID : uuid;
  ApiKey_OrgID : uuid;
  ApiKey_Name : string;
  ApiKey_KeyPrefix : string;
  ApiKey_KeyHash : string;
  ApiKey_Scopes : list string;
  ApiKey_Status : string;
  ApiKey_RpmLimit : Z;
  ApiKey_ExpiresAt : option Z;
  ApiKey_LastUsedAt : option Z;
  ApiKey_CreatedAt : Z;
  ApiKey_RevokedAt : option Z;
  ApiKey_DailyCostLimitMicroUsd : option Z;
  ApiKey_MonthlyCostLimitMicroUsd : option Z;
  ApiKey_QuotaAction : string
}.

(** One row of [request_logs] ([sqlc.RequestLog]). *)
Record RequestLog := mkRequestLog {
  RequestLog_ID : uuid;
  RequestLog_OrgID : uuid;
  RequestLog_ApiKeyID : option uuid;
  RequestLog_ProviderID : option uuid;
  RequestLog_ModelID : option uuid;
  RequestLog_RoutePolicyID : option uuid;
  RequestLog_Method : string;
  RequestLog_Path : string;
  RequestLog_RequestModel : option string;
  RequestLog_Status : string;
  RequestLog_StatusCode : Z;
  RequestLog_ErrorCode : option string;
  RequestLog_RequestHash : option string;
  RequestLog_ResponseHash : option string;
  RequestLog_LatencyMs : Z;
  RequestLog_ProviderLatencyMs : option Z;
  RequestLog_Metadata : option json;
  RequestLog_StartedAt : Z;
  RequestLog_CompletedAt : Z
}.

(** One row of [usage_records] ([sqlc.UsageRecord]). *)
Record UsageRecord := mkUsageRecord {
  UsageRecord_ID : uuid;
  UsageRecord_RequestLogID : uuid;
  UsageRecord_OrgID : uuid;
  UsageRecord_ApiKeyID : uuid;
  UsageRecord_ProviderID : uuid;
  UsageRecord_ModelID : uuid;
  UsageRecord_PromptTokens : Z;
  UsageRecord_CompletionTokens : Z;
  UsageRecord_TotalTokens : Z;
  UsageRecord_ProviderUsageJson : option json;
  UsageRecord_CreatedAt : Z
}.

(** One row of [cost_records] ([sqlc.CostRecord]). *)
Record CostRecord := mkCostRecord {
  CostRecord_ID : uuid;
  CostRecord_UsageRecordID : uuid;
  CostRecord_OrgID : uuid;
  CostRecord_ProviderID : uuid;
  CostRecord_ModelID : uuid;
  CostRecord_Currency : string;
  CostRecord_InputCostMicro : Z;
  CostRecord_OutputCostMicro : Z;
  CostRecord_TotalCostMicro : Z;
  CostRecord_PricingSnapshot : PricingSnapshot;
  CostRecord_CreatedAt : Z;
  CostRecord_PricingVersionID : option uuid
}.

(** One row of [model_pricing_versions] ([sqlc.ModelPricingVersion]). *)
Record ModelPricingVersion := mkModelPricingVersion {
  ModelPricingVersion_ID : uuid;
  ModelPricingVersion_OrgID : uuid;
  ModelPricingVersion_ModelID : uuid;
  ModelPricingVersion_Version : Z;
  ModelPricingVersion_InputPriceMicroUsdPer1kTokens : Z;
  ModelPricingVersion_OutputPriceMicroUsdPer1kTokens : Z;
  ModelPricingVersion_Status : string;
  ModelPricingVersion_EffectiveFrom : Z;
  ModelPricingVersion_EffectiveTo : option Z;
  ModelPricingVersion_CreatedAt : Z
}.

(** One row of [models] ([sqlc.Model]). *)
Record Model := mkModel {
  Model_ID : uuid;
  Model_OrgID : uuid;
  Model_ProviderID : uuid;
  Model_ProviderModelName : string;
  Model_DisplayName : string;
  Model_InputPriceMicroUsdPer1kTokens : Z;
  Model_OutputPriceMicroUsdPer1kTokens : Z;
  Model_ContextWindow : option Z;
  Model_Status : string;
  Model_CreatedAt : Z;
  Model_UpdatedAt : Z
}.

(** One row of [providers] ([sqlc.Provider]). *)
Record Provider := mkProvider {
  Provider_ID : uuid;
  Provider_OrgID : uuid;
  Provider_Name : string;
  Provider_Type : string;
  Provider_BaseUrl : option string;
  Provider_TimeoutMs : Z;
  Provider_Status : string;
  Provider_CreatedAt : Z;
  Provider_UpdatedAt : Z;
  Provider_LastHealthStatus : option string;
  Provider_LastHealthCheckedAt : option Z;
  Provider_LastErrorCode : option string;
  Provider_LastErrorMessage : option string
}.

(** One row of [route_policies] ([sqlc.RoutePolicy]). *)
Record RoutePolicy := mkRoutePolicy {
  RoutePolicy_ID : uuid;
  RoutePolicy_OrgID : uuid;
  RoutePolicy_Name : string;
  RoutePolicy_MatchModel : string;
  RoutePolicy_Strategy : string;
  RoutePolicy_Status : string;
  RoutePolicy_CreatedAt : Z;
  RoutePolicy_UpdatedAt : Z;
  RoutePolicy_Config : option json
}.

(** One row of [route_targets] ([sqlc.RouteTarget]). *)
Record RouteTarget := mkRouteTarget {
  RouteTarget_ID : uuid;
  RouteTarget_OrgID : uuid;
  RouteTarget_RoutePolicyID : uuid;
  RouteTarget_ProviderID : uuid;
  RouteTarget_ModelID : uuid;
  RouteTarget_Priority : Z;
  RouteTarget_Weight : Z;
  RouteTarget_CreatedAt : Z
}.

(** One row of [content_policies] ([sqlc.ContentPolicy]). *)
Record ContentPolicy := mkContentPolicy {
  ContentPolicy_ID : uuid;
  ContentPolicy_OrgID : uuid;
  ContentPolicy_Name : string;
  ContentPolicy_PiiAction : string;
  ContentPolicy_Status : string;
  ContentPolicy_CreatedAt : Z;
  ContentPolicy_UpdatedAt : Z
}.

(** One row of [cost_anomaly_policies] ([sqlc.CostAnomalyPolicy]). *)
Record CostAnomalyPolicy := mkCostAnomalyPolicy {
  CostAnomalyPolicy_ID : uuid;
  CostAnomalyPolicy_OrgID : uuid;
  CostAnomalyPolicy_Name : string;
  CostAnomalyPolicy_RuleType : string;
  CostAnomalyPolicy_ScopeType : string;
  CostAnomalyPolicy_ScopeID : option uuid;
  CostAnomalyPolicy_ModelAlias : option string;
  CostAnomalyPolicy_ThresholdMicroUsd : option Z;
  CostAnomalyPolicy_ThresholdBps : option Z;
  CostAnomalyPolicy_SpikeMultiplierBps : Z;
  CostAnomalyPolicy_CurrentWindowMinutes : Z;
  CostAnomalyPolicy_BaselineWindowMinutes : Z;
  CostAnomalyPolicy_MinRequests : Z;
  CostAnomalyPolicy_Action : string;
  CostAnomalyPolicy_FallbackModel : option string;
  CostAnomalyPolicy_Status : string;
  CostAnomalyPolicy_CreatedAt : Z;
  CostAnomalyPolicy_UpdatedAt : Z
}.

(** One row of [cost_limit_counters] ([sqlc.CostLimitCounter]). *)
Record CostLimitCounter := mkCostLimitCounter {
  CostLimitCounter_ID : uuid;
  CostLimitCounter_OrgID : uuid;
  CostLimitCounter_ScopeType : string;
  CostLimitCounter_ScopeID : uuid;
  CostLimitCounter_Period : string;
  CostLimitCounter_WindowStart : Z;
  CostLimitCounter_WindowEnd : Z;
  CostLimitCounter_SettledMicroUsd : Z;
  CostLimitCounter_ReservedMicroUsd : Z;
  CostLimitCounter_CreatedAt : Z;
  CostLimitCounter_UpdatedAt : Z
}.

(** One row of [cost_reservations] ([sqlc.CostReservation]). *)
Record CostReservation := mkCostReservation {
  CostReservation_ID : uuid;
  CostReservation_RequestID : uuid;
  CostReservation_OrgID : uuid;
  CostReservation_ApiKeyID : uuid;
  CostReservation_ScopeType : string;
  CostReservation_ScopeID : uuid;
  CostReservation_Period : string;
  CostReservation_WindowStart : Z;
  CostReservation_WindowEnd : Z;
  CostReservation_ReservedMicroUsd : Z;
  CostReservation_SettledMicroUsd : Z;
  CostReservation_Status : string;
  CostReservation_CreatedAt : Z;
  CostReservation_UpdatedAt : Z
}.

(** One row of [cache_events] ([sqlc.CacheEvent]). *)
Record CacheEvent := mkCacheEvent {
  CacheEvent_ID : uuid;
  CacheEvent_OrgID : uuid;
  CacheEvent_RequestLogID : option uuid;
  CacheEvent_EventType : string;
  CacheEvent_RequestedModel : string;
  CacheEvent_CacheKeyHash : string;
  CacheEvent_MessagesHash : string;
  CacheEvent_Reason : option string;
  CacheEvent_CreatedAt : Z
}.

(** One row of [organizations] ([sqlc.Organization]). *)
Record Organization := mkOrganization {
  Organization_ID : uuid;
  Organization_Name : string;
  Organization_Slug : string;
  Organization_Status : string;
  Organization_CreatedAt : Z;
  Organization_UpdatedAt : Z
}.

(** One row of [users] ([sqlc.User]). *)
Record User := mkUser {
  User_ID : uuid;
  User_Email : string;
  User_DisplayName : string;
  User_Status : string;
  User_CreatedAt : Z;
  User_UpdatedAt : Z
}.

(** One row of [org_memberships] ([sqlc.OrgMembership]). *)
Record OrgMembership := mkOrgMembership {
  OrgMembership_ID : uuid;
  OrgMembership_OrgID : uuid;
  OrgMembership_UserID : uuid;
  OrgMembership_Role : string;
  OrgMembership_Status : string;
  OrgMembership_CreatedAt : Z;
  OrgMembership_UpdatedAt : Z
}.

(** One row of [user_sessions] ([sqlc.UserSession]). *)
Record UserSession := mkUserSession {
  UserSession_ID : uuid;
  UserSession_OrgID : uuid;
  UserSession_UserID : uuid;
  UserSession_TokenPrefix : string;
  UserSession_TokenHash : string;
  UserSession_Status : string;
  UserSession_ExpiresAt : Z;
  UserSession_LastUsedAt : option Z;
  UserSession_CreatedAt : Z;
  UserSession_RevokedAt : option Z
}.

(** One row of [magic_link_tokens] ([sqlc.MagicLinkToken]). *)
Record MagicLinkToken := mkMagicLinkToken {
  MagicLinkToken_ID : uuid;
  MagicLinkToken_OrgID : uuid;
  MagicLinkToken_UserID : uuid;
  MagicLinkToken_Email : string;
  MagicLinkToken_TokenPrefix : string;
  MagicLinkToken_TokenHash : string;
  MagicLinkToken_Status : string;
  MagicLinkToken_ExpiresAt : Z;
  MagicLinkToken_ConsumedAt : option Z;
  MagicLinkToken_CreatedAt : Z
}.

(** One row of [admin_tokens] ([sqlc.AdminToken]). *)
Record AdminToken := mkAdminToken {
  AdminToken_ID : uuid;
  AdminToken_OrgID : uuid;
  AdminToken_Name : string;
  AdminToken_TokenPrefix : string;
  AdminToken_TokenHash : string;
  AdminToken_Scopes : list string;
  AdminToken_Status : string;
  AdminToken_ExpiresAt : option Z;
  AdminToken_LastUsedAt : option Z;
  AdminToken_CreatedAt : Z;
  AdminToken_RevokedAt : option Z
}.

(** One row of [provider_secrets] ([sqlc.ProviderSecret]). *)
Record ProviderSecret := mkProviderSecret {
  ProviderSecret_ID : uuid;
  ProviderSecret_OrgID : uuid;
  ProviderSecret_ProviderID : uuid;
  ProviderSecret_EncryptedApiKey : string;
  ProviderSecret_Nonce : string;
  ProviderSecret_KeyVersion : Z;
  ProviderSecret_CreatedAt : Z;
  ProviderSecret_UpdatedAt : Z
}.

(** One row of [budget_alerts] ([sqlc.BudgetAlert]). *)
Record BudgetAlert := mkBudgetAlert {
  BudgetAlert_ID : uuid;
  BudgetAlert_OrgID : uuid;
  BudgetAlert_BudgetID : uuid;
  BudgetAlert_WebhookUrl : string;
  BudgetAlert_WebhookSecret : option string;
  BudgetAlert_Status : string;
  BudgetAlert_CreatedAt : Z;
  BudgetAlert_UpdatedAt : Z
}.

(** One row of [budget_alert_deliveries] ([sqlc.BudgetAlertDelivery]). *)
Record BudgetAlertDelivery := mkBudgetAlertDelivery {
  BudgetAlertDelivery_ID : uuid;
  BudgetAlertDelivery_OrgID : uuid;
  BudgetAlertDelivery_BudgetAlertID : uuid;
  BudgetAlertDelivery_BudgetID : uuid;
  BudgetAlertDelivery_Threshold : Z;
  BudgetAlertDelivery_Period : string;
  BudgetAlertDelivery_PeriodWindowStart : Z;
  BudgetAlertDelivery_PeriodWindowEnd : Z;
  BudgetAlertDelivery_UsedMicroUsd : Z;
  BudgetAlertDelivery_LimitMicroUsd : Z;
  BudgetAlertDelivery_WebhookUrl : string;
  BudgetAlertDelivery_Status : string;
  BudgetAlertDelivery_HttpStatus : option Z;
  BudgetAlertDelivery_ErrorMessage : option string;
  BudgetAlertDelivery_CreatedAt : Z
}.

(** One row of [admin_audit_logs] ([sqlc.AdminAuditLog]). *)
Record AdminAuditLog := mkAdminAuditLog {
  AdminAuditLog_ID : uuid;
  AdminAuditLog_OrgID : uuid;
  AdminAuditLog_ActorAdminTokenID : option uuid;
  AdminAuditLog_Action : string;
  AdminAuditLog_ResourceType : string;
  AdminAuditLog_ResourceID : option uuid;
  AdminAuditLog_RequestID : string;
  AdminAuditLog_CreatedAt : Z;
  AdminAuditLog_ActorUserID : option uuid
}.

(** The database: each table is the list of its rows. *)
Record DB := mkDB {
  budgets : list Budget;
  api_keys : list ApiKey;
  request_logs : list RequestLog;
  usage_records : list UsageRecord;
  cost_records : list CostRecord;
  model_pricing_versions : list ModelPricingVersion;
  models : list Model;
  providers : list Provider;
  route_policies : list RoutePolicy;
  route_targets : list RouteTarget;
  content_policies : list ContentPolicy;
  cost_anomaly_policies : list CostAnomalyPolicy;
  cost_limit_counters : list CostLimitCounter;
  cost_reservations : list CostReservation;
  cache_events : list CacheEvent;
  organizations : list Organization;
  users : list User;
  org_memberships : list OrgMembership;
  user_sessions : list UserSession;
  magic_link_tokens : list MagicLinkToken;
  admin_tokens : list AdminToken;
  provider_secrets : list ProviderSecret;
  budget_alerts : list BudgetAlert;
  budget_alert_deliveries : list BudgetAlertDelivery;
  admin_audit_logs : list AdminAuditLog
}.

Definition emptyDB : DB := mkDB [] [] [] [] [] [] [] [] [] [] [] [] [] [] [] [] [] [] [] [] [] [] [] [] [].

Definition set_budgets (f : list Budget → list Budget) (d : DB) : DB :=
  mkDB (f d.(budgets)) d.(api_keys) d.(request_logs) d.(usage_records) d.(cost_records) d.(model_pricing_versions) d.(models) d.(providers) d.(route_policies) d.(route_targets) d.(content_policies) d.(cost_anomaly_policies) d.(cost_limit_counters) d.(cost_reservations) d.(cache_events) d.(organizations) d.(users) d.(org_memberships) d.(user_sessions) d.(magic_link_tokens) d.(admin_tokens) d.(provider_secrets) d.(budget_alerts) d.(budget_alert_deliveries) d.(admin_audit_logs).
Definition set_api_keys (f : list ApiKey → list ApiKey) (d : DB) : DB :=
  mkDB d.(budgets) (f d.(api_keys)) d.(request_logs) d.(usage_records) d.(cost_records) d.(model_pricing_versions) d.(models) d.(providers) d.(route_policies) d.(route_targets) d.(content_policies) d.(cost_anomaly_policies) d.(cost_limit_counters) d.(cost_reservations) d.(cache_events) d.(organizations) d.(users) d.(org_memberships) d.(user_sessions) d.(magic_link_tokens) d.(admin_tokens) d.(provider_secrets) d.(budget_alerts) d.(budget_alert_deliveries) d.(admin_audit_logs).
Definition set_request_logs (f : list RequestLog → list RequestLog) (d : DB) : DB :=
  mkDB d.(budgets) d.(api_keys) (f d.(request_logs)) d.(usage_records) d.(cost_records) d.(model_pricing_versions) d.(models) d.(providers) d.(route_policies) d.(route_targets) d.(content_policies) d.(cost_anomaly_policies) d.(cost_limit_counters) d.(cost_reservations) d.(cache_events) d.(organizations) d.(users) d.(org_memberships) d.(user_sessions) d.(magic_link_tokens) d.(admin_tokens) d.(provider_secrets) d.(budget_alerts) d.(budget_alert_deliveries) d.(admin_audit_logs).
Definition set_usage_records (f : list UsageRecord → list UsageRecord) (d : DB) : DB :=
  mkDB d.(budgets) d.(api_keys) d.(request_logs) (f d.(usage_records)) d.(cost_records) d.(model_pricing_versions) d.(models) d.(providers) d.(route_policies) d.(route_targets) d.(content_policies) d.(cost_anomaly_policies) d.(cost_limit_counters) d.(cost_reservations) d.(cache_events) d.(organizations) d.(users) d.(org_memberships) d.(user_sessions) d.(magic_link_tokens) d.(admin_tokens) d.(provider_secrets) d.(budget_alerts) d.(budget_alert_deliveries) d.(admin_audit_logs).
Definition set_cost_records (f : list CostRecord → list CostRecord) (d : DB) : DB :=
  mkDB d.(budgets) d.(api_keys) d.(request_logs) d.(usage_records) (f d.(cost_records)) d.(model_pricing_versions) d.(models) d.(providers) d.(route_policies) d.(route_targets) d.(content_policies) d.(cost_anomaly_policies) d.(cost_limit_counters) d.(cost_reservations) d.(cache_events) d.(organizations) d.(users) d.(org_memberships) d.(user_sessions) d.(magic_link_tokens) d.(admin_tokens) d.(provider_secrets) d.(budget_alerts) d.(budget_alert_deliveries) d.(admin_audit_logs).
Definition set_model_pricing_versions (f : list ModelPricingVersion → list ModelPricingVersion) (d : DB) : DB :=
  mkDB d.(budgets) d.(api_keys) d.(request_logs) d.(usage_records) d.(cost_records) (f d.(model_pricing_versions)) d.(models) d.(providers) d.(route_policies) d.(route_targets) d.(content_policies) d.(cost_anomaly_policies) d.(cost_limit_counters) d.(cost_reservations) d.(cache_events) d.(organizations) d.(users) d.(org_memberships) d.(user_sessions) d.(magic_link_tokens) d.(admin_tokens) d.(provider_secrets) d.(budget_alerts) d.(budget_alert_deliveries) d.(admin_audit_logs).
Definition set_models (f : list Model → list Model) (d : DB) : DB :=
  mkDB d.(budgets) d.(api_keys) d.(request_logs) d.(usage_records) d.(cost_records) d.(model_pricing_versions) (f d.(models)) d.(providers) d.(route_policies) d.(route_targets) d.(content_policies) d.(cost_anomaly_policies) d.(cost_limit_counters) d.(cost_reservations) d.(cache_events) d.(organizations) d.(users) d.(org_memberships) d.(user_sessions) d.(magic_link_tokens) d.(admin_tokens) d.(provider_secrets) d.(budget_alerts) d.(budget_alert_deliveries) d.(admin_audit_logs).
Definition set_providers (f : list Provider → list Provider) (d : DB) : DB :=
  mkDB d.(budgets) d.(api_keys) d.(request_logs) d.(usage_records) d.(cost_records) d.(model_pricing_versions) d.(models) (f d.(providers)) d.(route_policies) d.(route_targets) d.(content_policies) d.(cost_anomaly_policies) d.(cost_limit_counters) d.(cost_reservations) d.(cache_events) d.(organizations) d.(users) d.(org_memberships) d.(user_sessions) d.(magic_link_tokens) d.(admin_tokens) d.(provider_secrets) d.(budget_alerts) d.(budget_alert_deliveries) d.(admin_audit_logs).
Definition set_route_policies (f : list RoutePolicy → list RoutePolicy) (d : DB) : DB :=
  mkDB d.(budgets) d.(api_keys) d.(request_logs) d.(usage_records) d.(cost_records) d.(model_pricing_versions) d.(models) d.(providers) (f d.(route_policies)) d.(route_targets) d.(content_policies) d.(cost_anomaly_policies) d.(cost_limit_counters) d.(cost_reservations) d.(cache_events) d.(organizations) d.(users) d.(org_memberships) d.(user_sessions) d.(magic_link_tokens) d.(admin_tokens) d.(provider_secrets) d.(budget_alerts) d.(budget_alert_deliveries) d.(admin_audit_logs).
Definition set_route_targets (f : list RouteTarget → list RouteTarget) (d : DB) : DB :=
  mkDB d.(budgets) d.(api_keys) d.(request_logs) d.(usage_records) d.(cost_records) d.(model_pricing_versions) d.(models) d.(providers) d.(route_policies) (f d.(route_targets)) d.(content_policies) d.(cost_anomaly_policies) d.(cost_limit_counters) d.(cost_reservations) d.(cache_events) d.(organizations) d.(users) d.(org_memberships) d.(user_sessions) d.(magic_link_tokens) d.(admin_tokens) d.(provider_secrets) d.(budget_alerts) d.(budget_alert_deliveries) d.(admin_audit_logs).
Definition set_content_policies (f : list ContentPolicy → list ContentPolicy) (d : DB) : DB :=
  mkDB d.(budgets) d.(api_keys) d.(request_logs) d.(usage_records) d.(cost_records) d.(model_pricing_versions) d.(models) d.(providers) d.(route_policies) d.(route_targets) (f d.(content_policies)) d.(cost_anomaly_policies) d.(cost_limit_counters) d.(cost_reservations) d.(cache_events) d.(organizations) d.(users) d.(org_memberships) d.(user_sessions) d.(magic_link_tokens) d.(admin_tokens) d.(provider_secrets) d.(budget_alerts) d.(budget_alert_deliveries) d.(admin_audit_logs).
Definition set_cost_anomaly_policies (f : list CostAnomalyPolicy → list CostAnomalyPolicy) (d : DB) : DB :=
  mkDB d.(budgets) d.(api_keys) d.(request_logs) d.(usage_records) d.(cost_records) d.(model_pricing_versions) d.(models) d.(providers) d.(route_policies) d.(route_targets) d.(content_policies) (f d.(cost_anomaly_policies)) d.(cost_limit_counters) d.(cost_reservations) d.(cache_events) d.(organizations) d.(users) d.(org_memberships) d.(user_sessions) d.(magic_link_tokens) d.(admin_tokens) d.(provider_secrets) d.(budget_alerts) d.(budget_alert_deliveries) d.(admin_audit_logs).
Definition set_cost_limit_counters (f : list CostLimitCounter → list CostLimitCounter) (d : DB) : DB :=
  mkDB d.(budgets) d.(api_keys) d.(request_logs) d.(usage_records) d.(cost_records) d.(model_pricing_versions) d.(models) d.(providers) d.(route_policies) d.(route_targets) d.(content_policies) d.(cost_anomaly_policies) (f d.(cost_limit_counters)) d.(cost_reservations) d.(cache_events) d.(organizations) d.(users) d.(org_memberships) d.(user_sessions) d.(magic_link_tokens) d.(admin_tokens) d.(provider_secrets) d.(budget_alerts) d.(budget_alert_deliveries) d.(admin_audit_logs).
Definition set_cost_reservations (f : list CostReservation → list CostReservation) (d : DB) : DB :=
  mkDB d.(budgets) d.(api_keys) d.(request_logs) d.(usage_records) d.(cost_records) d.(model_pricing_versions) d.(models) d.(providers) d.(route_policies) d.(route_targets) d.(content_policies) d.(cost_anomaly_policies) d.(cost_limit_counters) (f d.(cost_reservations)) d.(cache_events) d.(organizations) d.(users) d.(org_memberships) d.(user_sessions) d.(magic_link_tokens) d.(admin_tokens) d.(provider_secrets) d.(budget_alerts) d.(budget_alert_deliveries) d.(admin_audit_logs).
Definition set_cache_events (f : list CacheEvent → list CacheEvent) (d : DB) : DB :=
  mkDB d.(budgets) d.(api_keys) d.(request_logs) d.(usage_records) d.(cost_records) d.(model_pricing_versions) d.(models) d.(providers) d.(route_policies) d.(route_targets) d.(content_policies) d.(cost_anomaly_policies) d.(cost_limit_counters) d.(cost_reservations) (f d.(cache_events)) d.(organizations) d.(users) d.(org_memberships) d.(user_sessions) d.(magic_link_tokens) d.(admin_tokens) d.(provider_secrets) d.(budget_alerts) d.(budget_alert_deliveries) d.(admin_audit_logs).
Definition set_organizations (f : list Organization → list Organization) (d : DB) : DB :=
  mkDB d.(budgets) d.(api_keys) d.(request_logs) d.(usage_records) d.(cost_records) d.(model_pricing_versions) d.(models) d.(providers) d.(route_policies) d.(route_targets) d.(content_policies) d.(cost_anomaly_policies) d.(cost_limit_counters) d.(cost_reservations) d.(cache_events) (f d.(organizations)) d.(users) d.(org_memberships) d.(user_sessions) d.(magic_link_tokens) d.(admin_tokens) d.(provider_secrets) d.(budget_alerts) d.(budget_alert_deliveries) d.(admin_audit_logs).
Definition set_users (f : list User → list User) (d : DB) : DB :=
  mkDB d.(budgets) d.(api_keys) d.(request_logs) d.(usage_records) d.(cost_records) d.(model_pricing_versions) d.(models) d.(providers) d.(route_policies) d.(route_targets) d.(content_policies) d.(cost_anomaly_policies) d.(cost_limit_counters) d.(cost_reservations) d.(cache_events) d.(organizations) (f d.(users)) d.(org_memberships) d.(user_sessions) d.(magic_link_tokens) d.(admin_tokens) d.(provider_secrets) d.(budget_alerts) d.(budget_alert_deliveries) d.(admin_audit_logs).
Definition set_org_memberships (f : list OrgMembership → list OrgMembership) (d : DB) : DB :=
  mkDB d.(budgets) d.(api_keys) d.(request_logs) d.(usage_records) d.(cost_records) d.(model_pricing_versions) d.(models) d.(providers) d.(route_policies) d.(route_targets) d.(content_policies) d.(cost_anomaly_policies) d.(cost_limit_counters) d.(cost_reservations) d.(cache_events) d.(organizations) d.(users) (f d.(org_memberships)) d.(user_sessions) d.(magic_link_tokens) d.(admin_tokens) d.(provider_secrets) d.(budget_alerts) d.(budget_alert_deliveries) d.(admin_audit_logs).
Definition set_user_sessions (f : list UserSession → list UserSession) (d : DB) : DB :=
  mkDB d.(budgets) d.(api_keys) d.(request_logs) d.(usage_records) d.(cost_records) d.(model_pricing_versions) d.(models) d.(providers) d.(route_policies) d.(route_targets) d.(content_policies) d.(cost_anomaly_policies) d.(cost_limit_counters) d.(cost_reservations) d.(cache_events) d.(organizations) d.(users) d.(org_memberships) (f d.(user_sessions)) d.(magic_link_tokens) d.(admin_tokens) d.(provider_secrets) d.(budget_alerts) d.(budget_alert_deliveries) d.(admin_audit_logs).
Definition set_magic_link_tokens (f : list MagicLinkToken → list MagicLinkToken) (d : DB) : DB :=
  mkDB d.(budgets) d.(api_keys) d.(request_logs) d.(usage_records) d.(cost_records) d.(model_pricing_versions) d.(models) d.(providers) d.(route_policies) d.(route_targets) d.(content_policies) d.(cost_anomaly_policies) d.(cost_limit_counters) d.(cost_reservations) d.(cache_events) d.(organizations) d.(users) d.(org_memberships) d.(user_sessions) (f d.(magic_link_tokens)) d.(admin_tokens) d.(provider_secrets) d.(budget_alerts) d.(budget_alert_deliveries) d.(admin_audit_logs).
Definition set_admin_tokens (f : list AdminToken → list AdminToken) (d : DB) : DB :=
  mkDB d.(budgets) d.(api_keys) d.(request_logs) d.(usage_records) d.(cost_records) d.(model_pricing_versions) d.(models) d.(providers) d.(route_policies) d.(route_targets) d.(content_policies) d.(cost_anomaly_policies) d.(cost_limit_counters) d.(cost_reservations) d.(cache_events) d.(organizations) d.(users) d.(org_memberships) d.(user_sessions) d.(magic_link_tokens) (f d.(admin_tokens)) d.(provider_secrets) d.(budget_alerts) d.(budget_alert_deliveries) d.(admin_audit_logs).
Definition set_provider_secrets (f : list ProviderSecret → list ProviderSecret) (d : DB) : DB :=
  mkDB d.(budgets) d.(api_keys) d.(request_logs) d.(usage_records) d.(cost_records) d.(model_pricing_versions) d.(models) d.(providers) d.(route_policies) d.(route_targets) d.(content_policies) d.(cost_anomaly_policies) d.(cost_limit_counters) d.(cost_reservations) d.(cache_events) d.(organizations) d.(users) d.(org_memberships) d.(user_sessions) d.(magic_link_tokens) d.(admin_tokens) (f d.(provider_secrets)) d.(budget_alerts) d.(budget_alert_deliveries) d.(admin_audit_logs).
Definition set_budget_alerts (f : list BudgetAlert → list BudgetAlert) (d : DB) : DB :=
  mkDB d.(budgets) d.(api_keys) d.(request_logs) d.(usage_records) d.(cost_records) d.(model_pricing_versions) d.(models) d.(providers) d.(route_policies) d.(route_targets) d.(content_policies) d.(cost_anomaly_policies) d.(cost_limit_counters) d.(cost_reservations) d.(cache_events) d.(organizations) d.(users) d.(org_memberships) d.(user_sessions) d.(magic_link_tokens) d.(admin_tokens) d.(provider_secrets) (f d.(budget_alerts)) d.(budget_alert_deliveries) d.(admin_audit_logs).
Definition set_budget_alert_deliveries (f : list BudgetAlertDelivery → list BudgetAlertDelivery) (d : DB) : DB :=
  mkDB d.(budgets) d.(api_keys) d.(request_logs) d.(usage_records) d.(cost_records) d.(model_pricing_versions) d.(models) d.(providers) d.(route_policies) d.(route_targets) d.(content_policies) d.(cost_anomaly_policies) d.(cost_limit_counters) d.(cost_reservations) d.(cache_events) d.(organizations) d.(users) d.(org_memberships) d.(user_sessions) d.(magic_link_tokens) d.(admin_tokens) d.(provider_secrets) d.(budget_alerts) (f d.(budget_alert_deliveries)) d.(admin_audit_logs).
Definition set_admin_audit_logs (f : list AdminAuditLog → list AdminAuditLog) (d : DB) : DB :=
  mkDB d.(budgets) d.(api_keys) d.(request_logs) d.(usage_records) d.(cost_records) d.(model_pricing_versions) d.(models) d.(providers) d.(route_policies) d.(route_targets) d.(content_policies) d.(cost_anomaly_policies) d.(cost_limit_counters) d.(cost_reservations) d.(cache_events) d.(organizations) d.(users) d.(org_memberships) d.(user_sessions) d.(magic_link_tokens) d.(admin_tokens) d.(provider_secrets) d.(budget_alerts) d.(budget_alert_deliveries) (f d.(admin_audit_logs)).

(** ** The world *)

(** The write commands the caches send to Redis. *)
Inductive redis_command : Type :=
| SET (key value : string) (ttl : Z)
| DEL (key : string)
| SADD (key member : string)
| SREM (key member : string).

(** Effects whose failure the program ignores, in the order they happen. *)
Inductive effect : Type :=
| EffPublish (kind : string) (org request : uuid) (total_tokens total_cost : Z) (status : string)
| EffAnalytics (org request : uuid) (status : string) (total_tokens total_cost : Z)
| EffWarn (msg : string)
| EffMetric (name : string) (labels : list string) (amount : Z)
| EffEmail (recipient link : string) (validUntil : Z)
| EffHTTP (method url : string) (headers : list (string * string)) (body : string)
| EffRedis (command : redis_command).

Record world := mkWorld {
  w_db : DB;
  w_faults : list bool;      (** outcome of each later call to a service: [true] fails; [] = all succeed *)
  w_clock : nat → Z;         (** the instant the n-th clock reading returns *)
  w_tick : nat;              (** readings so far *)
  w_uuid : nat → uuid;       (** the n-th UUID that [uuid.New] returns *)
  w_fresh : nat;
  w_trace : list effect
}.

Definition set_db (d : DB) (w : world) : world :=
  mkWorld d w.(w_faults) w.(w_clock) w.(w_tick) w.(w_uuid) w.(w_fresh) w.(w_trace).
Definition set_faults (l : list bool) (w : world) : world :=
  mkWorld w.(w_db) l w.(w_clock) w.(w_tick) w.(w_uuid) w.(w_fresh) w.(w_trace).
Definition set_tick (n : nat) (w : world) : world :=
  mkWorld w.(w_db) w.(w_faults) w.(w_clock) n w.(w_uuid) w.(w_fresh) w.(w_trace).
Definition set_fresh (n : nat) (w : world) : world :=
  mkWorld w.(w_db) w.(w_faults) w.(w_clock) w.(w_tick) w.(w_uuid) n w.(w_trace).
Definition add_effect (e : effect) (w : world) : world :=
  mkWorld w.(w_db) w.(w_faults) w.(w_clock) w.(w_tick) w.(w_uuid) w.(w_fresh) (w.(w_trace) ++ [e]).

(** ** The monad of service methods *)

Definition M (A : Type) : Type := world → result A * world.

#[export] Instance M_ret : MRet M := λ A a w, (Ok a, w).
#[export] Instance M_bind : MBind M := λ A B f m w,
  match m w with
  | (Ok a, w') => f a w'
  | (Err e, w') => (Err e, w')
  end.

Definition fail {A} (e : err) : M A := λ w, (Err e, w).
Definition lift {A} (r : result A) : M A := λ w, (r, w).

(** [x, err := m] whose error the caller inspects itself. *)
Definition try {A} (m : M A) : M (result A) := λ w, let '(r, w') := m w in (Ok r, w').

(** The same when [m] may panic: a panic is no error, and ends the caller too. *)
Definition catch {A} (m : M A) : M (result A) := λ w,
  match m w with
  | (Err EPanic, w') => (Err EPanic, w')
  | (r, w') => (Ok r, w')
  end.

(** [s.clock()] and [uuid.New()]. *)
Definition clock : M Z := λ w, (Ok (w.(w_clock) w.(w_tick)), set_tick (S w.(w_tick)) w).
Definition new_uuid : M uuid := λ w, (Ok (w.(w_uuid) w.(w_fresh)), set_fresh (S w.(w_fresh)) w).
Definition emit (e : effect) : M unit := λ w, (Ok tt, add_effect e w).

(** The outcome of the next call that leaves the process. *)
Definition call : M unit := λ w,
  match w.(w_faults) with
  | [] => (Ok tt, w)
  | b :: l => (if (b : bool) then Err EFault else Ok tt, set_faults l w)
  end.

(** One SQL statement: the call may fail, the statement may be refused. *)
Definition stmt {A} (f : DB → result (A * DB)) : M A := λ w,
  match call w with
  | (Err e, w') => (Err e, w')
  | (Ok _, w') =>
      match f w'.(w_db) with
      | Ok (a, d) => (Ok a, set_db d w')
      | Err e => (Err e, w')
      end
  end.

Definition query {A} (f : DB → result A) : M A := stmt (λ d, a ← f d; Ok (a, d)).

(** A transaction as the services write it: [BeginTx], a deferred [Rollback],
    the body, and a [Commit] on the paths that reach it ([commit] says which).
    Every other path, an error or a failed commit included, leaves the database
    as it was. *)
Definition WithTx {A} (commit : A → bool) (fn : M A) : M A := λ w,
  match call w with
  | (Err e, w1) => (Err e, w1)
  | (Ok _, w1) =>
      match fn w1 with
      | (Err e, w2) => (Err e, set_db w1.(w_db) w2)
      | (Ok a, w2) =>
          if commit a then
            match call w2 with
            | (Ok _, w3) => (Ok a, w3)
            | (Err e, w3) => (Err e, set_db w1.(w_db) w3)
            end
          else (Ok a, set_db w1.(w_db) w2)
      end
  end.

(** [Store.ExecTxRaw] and [ExecTx]: commit whenever the body succeeds. *)
Definition ExecTxRaw {A} (fn : M A) : M A := WithTx (λ _, true) fn.

Definition ExecTx {A} (fn : M A) : M A := ExecTxRaw fn.

(** [for _, x := range l { acc, err = body(acc, x); if err != nil { return err } }] *)
Fixpoint forM {S A} (l : list A) (acc : S) (body : S → A → M S) : M S :=
  match l with
  | [] => mret acc
  | x :: l' => acc' ← body acc x; forM l' acc' body
  end.

(** ** SQL helpers *)

Definition pg_unique_violation : err := EPg "23505".
Definition pg_check_violation : err := EPg "23514".
Definition pg_out_of_range : err := EPg "22003".

(** A [bigint] (resp. [integer]) result: PostgreSQL reports an error where Go would wrap. *)
Definition pg_bigint (z : Z) : result Z :=
  if (MinInt64 <=? z) && (z <=? MaxInt64) then Ok z else Err pg_out_of_range.
Definition pg_integer (z : Z) : result Z :=
  if (MinInt32 <=? z) && (z <=? MaxInt32) then Ok z else Err pg_out_of_range.

Definition pg_check (b : bool) : result unit := if b then Ok tt else Err pg_check_violation.
Definition pg_unique {R} (clash : R → bool) (rows : list R) : result unit :=
  if existsb clash rows then Err pg_unique_violation else Ok tt.

(** [SELECT ... WHERE p] returning at most one row through [QueryRow]. *)
Definition pg_one {R} (p : R → bool) (rows : list R) : result R :=
  match List.filter p rows with [] => Err ENoRows | r :: _ => Ok r end.

(** [UPDATE ... SET f WHERE p]. *)
Fixpoint pg_update {R} (p : R → bool) (f : R → result R) (rows : list R) : result (list R) :=
  match rows with
  | [] => Ok []
  | r :: rows' =>
      r' ← (if p r then f r else Ok r);
      rs ← pg_update p f rows';
      Ok (r' :: rs)
  end.

(** ** Reasoning about methods

    [wp m Q w]: running [m] from [w] ends in a result and a world that satisfy
    [Q]. The rules below take a method apart statement by statement. *)

Definition wp {A} (m : M A) (Q : result A → world → Prop) (w : world) : Prop :=
  Q (m w).1 (m w).2.

Definition on_ok {A} (Q : A → world → Prop) (R : err → world → Prop) : result A → world → Prop :=
  λ r w, match r with Ok a => Q a w | Err e => R e w end.

Section wp.
  Context {A B : Type}.
  Implicit Types (w : world) (Q : result A → world → Prop).

Lemma wp_mono (m : M A) Q Q' w :
  wp m Q w → (∀ r w', Q r w' → Q' r w') → wp m Q' w.
Proof. unfold wp; eauto. Qed.

Lemma wp_ret (a : A) Q w : Q (Ok a) w → wp (mret (M := M) a) Q w.
Proof. done. Qed.

Lemma wp_fail e Q w : Q (Err e) w → wp (fail e) Q w.
Proof. done. Qed.

Lemma wp_lift (r : result A) Q w : Q r w → wp (lift r) Q w.
Proof. done. Qed.

Lemma wp_bind (m : M A) (f : A → M B) (Q : result B → world → Prop) w :
  wp m (on_ok (λ a w', wp (f a) Q w') (λ e w', Q (Err e) w')) w → wp (m ≫= f) Q w.
Proof.
  unfold wp, mbind, M_bind, on_ok. destruct (m w) as [[a|e] w'] eqn:E; simpl; auto.
Qed.

Lemma wp_try (m : M A) (Q : result (result A) → world → Prop) w :
  wp m (λ r w', Q (Ok r) w') w → wp (try m) Q w.
Proof. unfold wp, try. by destruct (m w). Qed.
End wp.

Lemma wp_clock Q w :
  Q (Ok (w.(w_clock) w.(w_tick))) (set_tick (S w.(w_tick)) w) → wp clock Q w.
Proof. done. Qed.

Lemma wp_new_uuid Q w :
  Q (Ok (w.(w_uuid) w.(w_fresh))) (set_fresh (S w.(w_fresh)) w) → wp new_uuid Q w.
Proof. done. Qed.

Lemma wp_emit e Q w : Q (Ok tt) (add_effect e w) → wp (emit e) Q w.
Proof. done. Qed.

(** What no statement touches. *)
Definition same_env (w w' : world) : Prop := w.(w_clock) = w'.(w_clock) ∧ w.(w_uuid) = w'.(w_uuid).

#[export] Instance same_env_equiv : Equivalence same_env.
Proof. unfold same_env. split; red; naive_solver congruence. Qed.

Lemma wp_call Q w :
  (∀ r w', w'.(w_db) = w.(w_db) → w'.(w_clock) = w.(w_clock) → w'.(w_uuid) = w.(w_uuid) →
     (w.(w_faults) = [] → r = Ok tt ∧ w' = w) → (r = Ok tt ∨ r = Err EFault) → Q r w') →
  wp call Q w.
Proof.
  intros H. unfold wp, call. destruct (w_faults w) as [|[] l] eqn:E; simpl;
    apply H; rewrite ?E; auto; done.
Qed.

(** The state the invariants talk about is the database alone: a property of
    the database that every statement and every rollback keeps is kept by the
    whole method, whatever calls fail. *)
Definition preserves {A} (I : DB → Prop) (m : M A) : Prop :=
  ∀ w, I w.(w_db) → I ((m w).2).(w_db).

Section preserves.
  Context (I : DB → Prop).

Lemma preserves_ret {A} (a : A) : preserves I (mret (M := M) a).
Proof. intros w H; exact H. Qed.
Lemma preserves_fail {A} e : preserves I (fail (A := A) e).
Proof. intros w H; exact H. Qed.
Lemma preserves_lift {A} (r : result A) : preserves I (lift r).
Proof. intros w H; exact H. Qed.
Lemma preserves_clock : preserves I clock.
Proof. intros w H; exact H. Qed.
Lemma preserves_new_uuid : preserves I new_uuid.
Proof. intros w H; exact H. Qed.
Lemma preserves_emit e : preserves I (emit e).
Proof. intros w H; exact H. Qed.
Lemma preserves_call : preserves I call.
Proof. intros w H. unfold call. by destruct (w_faults w). Qed.

Lemma preserves_bind {A B} (m : M A) (f : A → M B) :
  preserves I m → (∀ a, preserves I (f a)) → preserves I (m ≫= f).
Proof.
  intros Hm Hf w Hw. unfold mbind, M_bind. specialize (Hm w Hw).
  destruct (m w) as [[a|e] w']; simpl in *; [by apply Hf|done].
Qed.

Lemma preserves_try {A} (m : M A) : preserves I m → preserves I (try m).
Proof. intros Hm w Hw. unfold try. specialize (Hm w Hw). by destruct (m w). Qed.

Lemma preserves_stmt {A} (f : DB → result (A * DB)) :
  (∀ d a d', I d → f d = Ok (a, d') → I d') → preserves I (stmt f).
Proof.
  intros Hf w Hw. unfold stmt. pose proof (preserves_call w Hw) as Hc.
  destruct (call w) as [[]  w1]; simpl in *; [|done].
  destruct (f (w_db w1)) as [[a' d']|e] eqn:E; simpl; eauto.
Qed.

Lemma preserves_query {A} (f : DB → result A) : preserves I (query f).
Proof.
  apply preserves_stmt. intros d a d' Hd H.
  apply result_bind_ok in H as (b & _ & [= -> <-]). done.
Qed.

Lemma preserves_forM {S A} (l : list A) (body : S → A → M S) :
  (∀ acc x, preserves I (body acc x)) → ∀ acc, preserves I (forM l acc body).
Proof.
  intros Hb. induction l as [|x l IH]; intros acc; simpl;
    [apply preserves_ret|]. apply preserves_bind; auto.
Qed.

Lemma preserves_tx {A} commit (m : M A) :
  (∀ w a w', I w.(w_db) → m w = (Ok a, w') → commit a = true → I w'.(w_db)) →
  preserves I (WithTx commit m).
Proof.
  intros Hm w Hw. unfold WithTx. pose proof (preserves_call w Hw) as Hc.
  destruct (call w) as [[] w1]; simpl in *; [|done].
  destruct (m w1) as [[a'|e] w2] eqn:Em; simpl in *; [|done].
  destruct (commit a') eqn:Ec; [|done].
  pose proof (preserves_call w2 (Hm _ _ _ Hc Em Ec)) as Hc2.
  by destruct (call w2) as [[] w3].
Qed.
End preserves.

Create HintDb preserves discriminated.
#[export] Hint Resolve preserves_ret preserves_fail preserves_lift preserves_clock
  preserves_new_uuid preserves_emit preserves_call preserves_query preserves_bind
  preserves_try preserves_forM : preserves.

(** ** Successful runs

    [m w = (Ok a, w')] says that [m] ran to completion; these lemmas take such
    a run apart. *)

Lemma bind_ok {A B} (m : M A) (f : A → M B) w b w' :
  (m ≫= f) w = (Ok b, w') ↔ ∃ a w1, m w = (Ok a, w1) ∧ f a w1 = (Ok b, w').
Proof. unfold mbind, M_bind. destruct (m w) as [[]]; naive_solver. Qed.

Lemma bind_run {A B} (m : M A) (f : A → M B) w a w1 : m w = (Ok a, w1) → (m ≫= f) w = f a w1.
Proof. unfold mbind, M_bind. by intros ->. Qed.

(** A run of a sequence, whatever it returns. *)
Lemma bind_cases {A B} (m : M A) (f : A → M B) w r w' :
  (m ≫= f) w = (r, w') →
  (∃ a w1, m w = (Ok a, w1) ∧ f a w1 = (r, w')) ∨ (∃ e, m w = (Err e, w') ∧ r = Err e).
Proof. unfold mbind, M_bind. destruct (m w) as [[]]; naive_solver. Qed.

Lemma ret_ok {A} (a b : A) w w' : mret (M := M) a w = (Ok b, w') ↔ a = b ∧ w = w'.
Proof. unfold mret, M_ret. naive_solver. Qed.

Lemma lift_ok {A} (r : result A) b w w' : lift r w = (Ok b, w') ↔ r = Ok b ∧ w = w'.
Proof. unfold lift. naive_solver. Qed.

Lemma fail_ok {A} e (b : A) w w' : fail e w = (Ok b, w') ↔ False.
Proof. unfold fail. naive_solver. Qed.

Lemma call_db w : ((call w).2).(w_db) = w.(w_db).
Proof. unfold call. by destruct (w_faults w). Qed.

Lemma stmt_ok {A} (f : DB → result (A * DB)) w a w' :
  stmt f w = (Ok a, w') → f w.(w_db) = Ok (a, w'.(w_db)).
Proof.
  unfold stmt. intros H. pose proof (call_db w) as Hc.
  destruct (call w) as [[] w1]; simpl in *; [|by simplify_eq].
  destruct (f (w_db w1)) as [[]|] eqn:E; simplify_eq/=. congruence.
Qed.

Lemma stmt_cases {A} (f : DB → result (A * DB)) w r w' :
  stmt f w = (r, w') →
  match r with
  | Ok a => f w.(w_db) = Ok (a, w'.(w_db))
  | Err e => w'.(w_db) = w.(w_db) ∧ (e = EFault ∨ f w.(w_db) = Err e)
  end.
Proof.
  intros H. destruct r as [a|e]; [by apply stmt_ok|]. unfold stmt, call in H.
  destruct (w_faults w) as [|[] l]; simpl in H; [|by simplify_eq; split; [|left]|];
    destruct (f (w_db w)) as [[]|] eqn:E; simplify_eq/=; split; auto.
Qed.

Lemma query_ok {A} (f : DB → result A) w a w' :
  query f w = (Ok a, w') → f w.(w_db) = Ok a ∧ w'.(w_db) = w.(w_db).
Proof.
  intros H. apply stmt_ok in H. apply result_bind_ok in H as (b & Hb & H).
  injection H as H1 H2. rewrite <- H1, <- H2. done.
Qed.

Lemma clock_ok w a w' : clock w = (Ok a, w') → w'.(w_db) = w.(w_db).
Proof. unfold clock. intros H. by simplify_eq. Qed.

Lemma new_uuid_ok w a w' : new_uuid w = (Ok a, w') → w'.(w_db) = w.(w_db).
Proof. unfold new_uuid. intros H. by simplify_eq. Qed.

Lemma emit_ok e w a w' : emit e w = (Ok a, w') → w'.(w_db) = w.(w_db).
Proof. unfold emit. intros H. by simplify_eq. Qed.

Ltac minv H :=
  lazymatch type of H with
  | (_ ≫= _) _ = (Ok _, _) =>
      let a := fresh "a" in let w := fresh "w" in let H1 := fresh "H" in
      apply bind_ok in H as (a & w & H1 & H); minv H1; minv H
  | mret _ _ = (Ok _, _) => apply ret_ok in H as [? ?]; simplify_eq
  | lift _ _ = (Ok _, _) => apply lift_ok in H as [H ?]; simplify_eq
  | fail _ _ = (Ok _, _) => by apply fail_ok in H
  | query _ _ = (Ok _, _) => let H' := fresh H in apply query_ok in H as [H H']
  | stmt _ _ = (Ok _, _) => apply stmt_ok in H
  | clock _ = (Ok _, _) => apply clock_ok in H
  | new_uuid _ = (Ok _, _) => apply new_uuid_ok in H
  | emit _ _ = (Ok _, _) => apply emit_ok in H
  | _ => idtac
  end.

(** A loop, with what holds after each of its turns: [I done acc w] once the
    elements [done] are behind; a turn that fails leaves [J]. *)
Lemma forM_split {S A} (I : list A → S → world → Prop) (J : world → Prop) (body : S → A → M S) (l : list A) :
  (∀ seen x rest acc w r w', l = seen ++ x :: rest → I seen acc w → body acc x w = (r, w') →
     match r with Ok acc' => I (seen ++ [x]) acc' w' | Err _ => J w' end) →
  ∀ acc w r w', I [] acc w → forM l acc body w = (r, w') →
    match r with Ok acc' => I l acc' w' | Err _ => J w' end.
Proof.
  intros Hb.
  assert (Hgen : ∀ l2 l1 acc w r w', l = l1 ++ l2 → I l1 acc w → forM l2 acc body w = (r, w') →
    match r with Ok acc' => I l acc' w' | Err _ => J w' end).
  { induction l2 as [|x l2 IH]; intros l1 acc w r w' Hl Hi H; simpl in H.
    - injection H as <- <-. rewrite app_nil_r in Hl. by subst l1.
    - apply bind_cases in H as [(acc' & w1 & H1 & H)|(e & H1 & ->)].
      + apply (Hb l1 x l2) in H1; [|done..]. apply (IH (l1 ++ [x]) acc' w1 r w'); [|done..]. by rewrite <- app_assoc.
      + by apply (Hb l1 x l2) in H1. }
  intros. by apply (Hgen l [] acc w r w').
Qed.

Lemma forM_rule {S A} (I : list A → S → world → Prop) (J : world → Prop) (body : S → A → M S) (l : list A) :
  (∀ done acc x w r w', x ∈ l → I done acc w → body acc x w = (r, w') →
     match r with Ok acc' => I (done ++ [x]) acc' w' | Err _ => J w' end) →
  ∀ acc w r w', I [] acc w → forM l acc body w = (r, w') →
    match r with Ok acc' => I l acc' w' | Err _ => J w' end.
Proof.
  intros Hb. apply forM_split. intros seen x rest acc w r w' -> Hi H. apply (Hb seen acc x w r w'); [|done..].
  apply elem_of_app. right. by left.
Qed.

Lemma forM_inv {S A} (I : list A → world → Prop) (body : S → A → M S) (l : list A) :
  (∀ done acc x w r w', x ∈ l → I done w → body acc x w = (r, w') →
     match r with Ok _ => I (done ++ [x]) w' | Err _ => I done w' end) →
  ∀ acc w r w', I [] w → forM l acc body w = (r, w') →
    match r with Ok _ => I l w' | Err _ => ∃ done, I done w' end.
Proof.
  intros Hb acc w r w'. apply (forM_rule (λ l' (_ : S) w, I l' w) (λ w, ∃ l', I l' w)).
  intros done acc' x w1 r1 w1' Hx Hi H. apply (Hb done) in H; [|done..]. destruct r1; eauto.
Qed.

(** A transaction that does not commit has not changed the database. *)
Lemma WithTx_rollback {A} commit (m : M A) w :
  (∀ a, (WithTx commit m w).1 = Ok a → commit a = false) →
  ((WithTx commit m w).2).(w_db) = w.(w_db).
Proof.
  unfold WithTx. intros H.
  pose proof (call_db w). destruct (call w) as [[] w1]; simpl in *; [|done].
  destruct (m w1) as [[a'|e'] w2]; simpl in *; [|done].
  destruct (commit a') eqn:Ec; [|done].
  pose proof (call_db w2). destruct (call w2) as [[] w3]; simpl in *; [|done].
  specialize (H _ eq_refl). congruence.
Qed.

Lemma ExecTxRaw_err {A} (m : M A) w e :
  (ExecTxRaw m w).1 = Err e → ((ExecTxRaw m w).2).(w_db) = w.(w_db).
Proof. intros H. apply WithTx_rollback. unfold ExecTxRaw in H. congruence. Qed.

(** The instant the next reading of the clock gives. *)
Definition w_now (w : world) : Z := w.(w_clock) w.(w_tick).

Lemma call_now w : w_now (call w).2 = w_now w.
Proof. unfold call. by destruct (w_faults w). Qed.

Lemma stmt_now {A} (f : DB → result (A * DB)) w r w' : stmt f w = (r, w') → w_now w' = w_now w.
Proof.
  unfold stmt. intros H. pose proof (call_now w) as Hc.
  destruct (call w) as [[] w1]; simpl in *; [|by simplify_eq].
  destruct (f (w_db w1)) as [[]|] eqn:E; by simplify_eq/=.
Qed.

Lemma query_now {A} (f : DB → result A) w r w' : query f w = (r, w') → w_now w' = w_now w.
Proof. apply stmt_now. Qed.

Lemma clock_now w a w' : clock w = (Ok a, w') → a = w_now w.
Proof. unfold clock, w_now. intros H. by simplify_eq. Qed.

(** When no call fails, a statement is its function on the database. *)
Lemma stmt_run {A} (f : DB → result (A * DB)) w :
  w.(w_faults) = [] →
  stmt f w = match f w.(w_db) with Ok (a, d) => (Ok a, set_db d w) | Err e => (Err e, w) end.
Proof. intros H. unfold stmt, call. by rewrite H. Qed.

Lemma query_run {A} (f : DB → result A) w :
  w.(w_faults) = [] → query f w = (f w.(w_db), w).
Proof.
  intros H. unfold query. rewrite stmt_run by done.
  destruct (f (w_db w)); simpl; [|done]. by destruct w.
Qed.

(** No call changes the sequence of the clock's readings. *)
Lemma call_clock w : w_clock (call w).2 = w_clock w.
Proof. unfold call. by destruct (w_faults w). Qed.

Lemma stmt_clock {A} (f : DB → result (A * DB)) w r w' : stmt f w = (r, w') → w_clock w' = w_clock w.
Proof.
  unfold stmt. intros H. pose proof (call_clock w) as Hc.
  destruct (call w) as [[] w1]; simpl in *; [|by simplify_eq].
  destruct (f (w_db w1)) as [[]|] eqn:E; by simplify_eq/=.
Qed.

Lemma clock_reading w a w' :
  clock w = (Ok a, w') → a = w_now w ∧ w_clock w' = w_clock w ∧ w_db w' = w_db w.
Proof. unfold clock, w_now. intros H. by simplify_eq. Qed.

Lemma clock_faults w a w' : clock w = (Ok a, w') → w_faults w' = w_faults w.
Proof. unfold clock. intros H. by simplify_eq. Qed.

(** A committed transaction is a successful run of its body from the same database. *)
Lemma WithTx_ok {A} commit (m : M A) w a w' :
  WithTx commit m w = (Ok a, w') →
  ∃ w1 w2, w1.(w_db) = w.(w_db) ∧ w_now w1 = w_now w ∧ m w1 = (Ok a, w2) ∧
    w'.(w_db) = if commit a then w2.(w_db) else w.(w_db).
Proof.
  unfold WithTx. intros H.
  pose proof (call_db w) as Hc. pose proof (call_now w) as Hn.
  destruct (call w) as [[] w1]; simpl in *; [|done].
  destruct (m w1) as [[a'|e'] w2] eqn:Em; simpl in *; [|done].
  destruct (commit a') eqn:Ec.
  - pose proof (call_db w2). destruct (call w2) as [[] w3]; simplify_eq/=.
    exists w1, w2. by rewrite Ec.
  - simplify_eq/=. exists w1, w2. by rewrite Ec.
Qed.

(** ** Facts about the SQL helpers *)

Lemma pg_bigint_ok z a : pg_bigint z = Ok a ↔ a = z ∧ in64 z.
Proof.
  unfold pg_bigint. split.
  - intros H. case_all H. bool_to_prop. unfold_ranges; lia.
  - intros [-> H]. unfold in64 in H.
    rewrite !(proj2 (Z.leb_le _ _)) by lia. done.
Qed.

Lemma pg_update_map {R} (p : R → bool) (f : R → result R) rows rows' :
  pg_update p f rows = Ok rows' →
  Forall2 (λ r r', if p r then f r = Ok r' else r' = r) rows rows'.
Proof.
  revert rows'. induction rows as [|r rows IH]; intros rows' H; simpl in H.
  - simplify_eq. constructor.
  - apply result_bind_ok in H as (r1 & Hr & H).
    apply result_bind_ok in H as (rs & Hrs & [= <-]).
    constructor; [|by apply IH]. destruct (p r); simplify_eq; done.
Qed.

(** An [UPDATE] whose rows are computed by [g]. *)
Lemma pg_update_rows {R} (p : R → bool) (f : R → result R) (g : R → R) rows rows' :
  (∀ r r', f r = Ok r' → r' = g r) → pg_update p f rows = Ok rows' →
  rows' = map (λ r, if p r then g r else r) rows.
Proof.
  intros Hg H. apply pg_update_map in H. induction H as [|r r' rows rows' H _ IH]; simpl; [done|].
  f_equal; [|done]. destruct (p r); [by apply Hg|done].
Qed.

(** An [UPDATE] succeeds when every selected row's does. *)
Lemma pg_update_total {R} (p : R → bool) (f : R → result R) rows :
  (∀ r, r ∈ rows → p r = true → ∃ r', f r = Ok r') → ∃ rows', pg_update p f rows = Ok rows'.
Proof.
  induction rows as [|r rows IH]; intros H; [by eexists|]. simpl.
  destruct IH as [rows' ->]; [intros r' Hr'; apply H; by right|].
  destruct (p r) eqn:E; [|by eexists]. destruct (H r) as [r' ->]; [by left|done|]. by eexists.
Qed.

Lemma pg_one_ok {R} (p : R → bool) rows r :
  pg_one p rows = Ok r → r ∈ rows ∧ p r = true.
Proof.
  unfold pg_one. intros H. case_all H.
  assert (Hin : In r (List.filter p rows)) by (rewrite E; by left).
  apply filter_In in Hin as [Hin ?]. split; [by apply list_elem_of_In|done].
Qed.

Lemma pg_unique_ok {R} (clash : R → bool) rows :
  pg_unique clash rows = Ok tt ↔ Forall (λ r, clash r = false) rows.
Proof.
  unfold pg_unique. rewrite Forall_forall. split.
  - intros H r Hr. destruct (existsb clash rows) eqn:E; [done|].
    apply not_true_iff_false. intros Hc.
    apply not_true_iff_false in E. apply E, existsb_exists.
    by exists r.
  - intros H. destruct (existsb clash rows) eqn:E; [|done].
    apply existsb_exists in E as (r & Hr & Hc). apply H in Hr. congruence.
Qed.

Lemma pg_one_find {R} (p : R → bool) rows :
  pg_one p rows = match find p rows with Some r => Ok r | None => Err ENoRows end.
Proof.
  unfold pg_one. induction rows as [|r rows IH]; simpl; [done|]. by destruct (p r).
Qed.

(** ** Queries several services share *)

Definition GetProvider (orgID id : uuid) : M Provider :=
  query (λ d, pg_one (λ p, (p.(Provider_OrgID) =? orgID)%N && (p.(Provider_ID) =? id)%N) d.(providers)).
Definition GetModel (orgID id : uuid) : M Model :=
  query (λ d, pg_one (λ m, (m.(Model_OrgID) =? orgID)%N && (m.(Model_ID) =? id)%N) d.(models)).

(** [if errors.Is(err, pgx.ErrNoRows) { return e }; return err]. *)
Definition orNoRows {A} (m : M A) (e : err) : M A :=
  r ← try m;
  match r with
  | Ok a => mret a
  | Err ENoRows => fail e
  | Err e' => fail e'
  end.

Lemma try_ok {A} (m : M A) w r w' : try m w = (Ok r, w') → m w = (r, w').
Proof. unfold try. intros H. destruct (m w). by simplify_eq. Qed.

Lemma catch_ok {A} (m : M A) w r w' : catch m w = (Ok r, w') → m w = (r, w').
Proof. unfold catch. destruct (m w) as [[a|[]] w1]; intros; simplify_eq; done. Qed.

Lemma try_never {A} (m : M A) w e w' : try m w = (Err e, w') → False.
Proof. unfold try. by destruct (m w). Qed.

Lemma orNoRows_ok {A} (m : M A) e w a w' : orNoRows m e w = (Ok a, w') → m w = (Ok a, w').
Proof.
  unfold orNoRows. intros H. apply bind_ok in H as (r & w1 & H1 & H). apply try_ok in H1.
  destruct r as [b|e']; [by apply ret_ok in H as [-> ->]|]. by destruct e'; apply fail_ok in H.
Qed.
