(* ===== verification/ExampleWorld.v ===== *)
(** * A small deployment

    A concrete database and world on which the theorems' hypotheses are seen to
    hold: an organisation with a blocking daily budget of 1000 micro-dollars and
    a key limited to 800 a day, of which 200 are already recorded; it is noon
    on 1970-01-02 and no call fails. *)

From S2P Require Import Prelude GoTime Costing Store.

Definition ex_db : DB :=
  set_budgets (λ _, [mkBudget 20%N 1%N "daily cap" "org" None "daily" 1000 "block" "active" 0 0])
  (set_api_keys (λ _, [mkApiKey 2%N 1%N "key" "gw" "hash" [] "active" 60 None None 0 None (Some 800) None "block"])
  (set_usage_records (λ _, [mkUsageRecord 30%N 31%N 1%N 2%N 40%N 41%N 10 10 20 None (Day + 1)])
  (set_cost_records (λ _, [mkCostRecord 32%N 30%N 1%N 40%N 41%N "USD" 100 100 200
                             (mkPricingSnapshot 1 1 "truncate_to_micro_usd") (Day + 1) None]) emptyDB))).

Definition ex_world : world :=
  mkWorld ex_db [] (λ _, Day + 12 * Hour) 0 (λ n, (1000 + N.of_nat n)%N) 0 [].

(** The same deployment with one provider, a large and a small model, and a
    route of each kind to both of them. *)
Definition ex_provider : Provider := mkProvider 40%N 1%N "mock" "mock" None 30000 "active" 0 0 None None None None.
Definition ex_large : Model := mkModel 41%N 1%N 40%N "large-1" "Large" 150 600 None "active" 0 0.
Definition ex_small : Model := mkModel 42%N 1%N 40%N "small-1" "Small" 10 20 None "active" 0 0.

Definition ex_routes (d : DB) : DB :=
  set_providers (λ _, [ex_provider])
  (set_models (λ _, [ex_large; ex_small])
  (set_route_policies (λ _,
     [mkRoutePolicy 60%N 1%N "chain" "gpt" "fallback" "active" 0 0 (Some (JObj []));
      mkRoutePolicy 61%N 1%N "cheap" "gpt-cheap" "lowest_cost" "active" 0 0
        (Some (JObj [("Max_Estimated_Cost_Micro_USD", JNum 100)]));
      mkRoutePolicy 62%N 1%N "fast" "gpt-fast" "lowest_latency" "active" 0 0 (Some (JObj []))])
  (set_route_targets (λ _,
     [mkRouteTarget 70%N 1%N 60%N 40%N 42%N 2 100 0; mkRouteTarget 71%N 1%N 60%N 40%N 41%N 1 100 0;
      mkRouteTarget 72%N 1%N 61%N 40%N 41%N 1 100 0; mkRouteTarget 73%N 1%N 61%N 40%N 42%N 2 100 0;
      mkRouteTarget 74%N 1%N 62%N 40%N 41%N 1 100 0; mkRouteTarget 75%N 1%N 62%N 40%N 42%N 2 100 0])
  (set_request_logs (λ _,
     [mkRequestLog 31%N 1%N (Some 2%N) (Some 40%N) (Some 42%N) None "POST" "/v1/chat/completions"
        (Some "gpt") "success" 200 None None None 250 None None (Day + 12 * Hour - Second) (Day + 12 * Hour - Second)]) d)))).

Definition ex_route_world : world := set_db (ex_routes ex_db) ex_world.
