(* ===== verification/Limits.v ===== *)
(** * Cost reservations: [internal/limits/reservation_service.go]

    Before a request is sent to a provider its estimated cost is reserved
    against every blocking limit of the organisation and of the API key; the
    reservation is settled with the actual cost, or released. A limit's
    counter row carries what has been settled in its window and what is
    currently reserved. *)

From S2P Require Import Prelude GoTime Store.

Definition ScopeTypeOrg : string := "org".
Definition ScopeTypeAPIKey : string := "api_key".
Definition PeriodDaily : string := "daily".
Definition PeriodMonthly : string := "monthly".
Definition ActionBlock : string := "block".
Definition StatusActive : string := "active".

Record ReserveInput := mkReserveInput {
  ri_RequestID : uuid;
  ri_OrgID : uuid;
  ri_APIKeyID : uuid;
  ri_EstimatedCostMicroUSD : Z
}.

Record ReserveResult := mkReserveResult {
  rr_Allowed : bool;
  rr_BlockedScope : string;
  rr_Period : string;
  rr_LimitMicroUSD : Z;
  rr_UsedMicroUSD : Z;
  rr_ReservedMicroUSD : Z
}.

Record constraint := mkconstraint {
  c_ScopeType : string;
  c_ScopeID : uuid;
  c_Period : string;
  c_LimitMicroUSD : Z
}.

Record counterState := mkcounterState {
  cs_ID : uuid;
  cs_SettledMicroUSD : Z;
  cs_ReservedMicroUSD : Z
}.

(** ** Constraints *)

(** [SELECT period, MIN(limit) ... GROUP BY period ORDER BY period]. *)
Fixpoint upsert_min (p : string) (l : Z) (acc : list (string * Z)) : list (string * Z) :=
  match acc with
  | [] => [(p, l)]
  | (q, m) :: acc' =>
      match String.compare p q with
      | Lt => (p, l) :: acc
      | Eq => (q, Z.min m l) :: acc'
      | Gt => (q, m) :: upsert_min p l acc'
      end
  end.

Definition group_min (rows : list (string * Z)) : list (string * Z) :=
  foldr (λ r acc, upsert_min r.1 r.2 acc) [] rows.

Definition blocking_budget (orgID : uuid) (b : Budget) : bool :=
  (b.(Budget_OrgID) =? orgID)%N && String.eqb b.(Budget_ScopeType) ScopeTypeOrg
  && String.eqb b.(Budget_Status) StatusActive && String.eqb b.(Budget_Action) ActionBlock.

Definition org_constraints (orgID : uuid) (d : DB) : list constraint :=
  map (λ pl, mkconstraint ScopeTypeOrg orgID pl.1 pl.2)
    (group_min (map (λ b, (b.(Budget_Period), b.(Budget_LimitMicroUsd)))
                  (List.filter (blocking_budget orgID) d.(budgets)))).

Definition key_constraints (apiKeyID : uuid) (k : ApiKey) : list constraint :=
  if String.eqb k.(ApiKey_QuotaAction) ActionBlock then
    match k.(ApiKey_DailyCostLimitMicroUsd) with
    | Some l => [mkconstraint ScopeTypeAPIKey apiKeyID PeriodDaily l] | None => [] end ++
    match k.(ApiKey_MonthlyCostLimitMicroUsd) with
    | Some l => [mkconstraint ScopeTypeAPIKey apiKeyID PeriodMonthly l] | None => [] end
  else [].

Definition is_api_key (orgID id : uuid) (k : ApiKey) : bool :=
  (k.(ApiKey_OrgID) =? orgID)%N && (k.(ApiKey_ID) =? id)%N.

Definition loadBlockingConstraints (orgID apiKeyID : uuid) : M (list constraint) :=
  items ← query (λ d, Ok (org_constraints orgID d));
  key ← query (λ d, pg_one (is_api_key orgID apiKeyID) d.(api_keys));
  mret (items ++ key_constraints apiKeyID key).

(** ** Windows *)

Definition periodWindow (now : Z) (period : string) : result (Z * Z) :=
  if String.eqb period PeriodDaily then Ok (dayWindow now)
  else if String.eqb period PeriodMonthly then Ok (monthWindow now)
  else Err (EMsg "unsupported cost reservation period").

(** ** Counters *)

(** The unique key of [cost_limit_counters]; a reservation carries the key of
    the counter it is charged to. *)
Definition counter_key : Type := uuid * string * uuid * string * Z.

Definition key_of_counter (c : CostLimitCounter) : counter_key :=
  (c.(CostLimitCounter_OrgID), c.(CostLimitCounter_ScopeType), c.(CostLimitCounter_ScopeID),
   c.(CostLimitCounter_Period), c.(CostLimitCounter_WindowStart)).

Definition key_of_reservation (r : CostReservation) : counter_key :=
  (r.(CostReservation_OrgID), r.(CostReservation_ScopeType), r.(CostReservation_ScopeID),
   r.(CostReservation_Period), r.(CostReservation_WindowStart)).

Definition has_key (k : counter_key) (c : CostLimitCounter) : bool :=
  bool_decide (key_of_counter c = k).

(** What the [LEFT JOIN] of the seed query sums: the costs recorded in the
    window, for a key only those whose usage record is the key's. *)
Definition usage_of_cost (d : DB) (cr : CostRecord) : option UsageRecord :=
  find (λ ur, (ur.(UsageRecord_OrgID) =? cr.(CostRecord_OrgID))%N &&
              (ur.(UsageRecord_ID) =? cr.(CostRecord_UsageRecordID))%N) d.(usage_records).

Definition seed_row (d : DB) (orgID : uuid) (scopeType : string) (apiKeyID : uuid)
    (windowStart windowEnd : Z) (cr : CostRecord) : bool :=
  (cr.(CostRecord_OrgID) =? orgID)%N
  && (windowStart <=? cr.(CostRecord_CreatedAt)) && (cr.(CostRecord_CreatedAt) <? windowEnd)
  && (String.eqb scopeType ScopeTypeOrg ||
      match usage_of_cost d cr with
      | Some ur => (ur.(UsageRecord_ApiKeyID) =? apiKeyID)%N
      | None => false
      end).

Definition seed_settled (d : DB) (orgID : uuid) (scopeType : string) (apiKeyID : uuid)
    (windowStart windowEnd : Z) : Z :=
  sumZ CostRecord_TotalCostMicro
    (List.filter (seed_row d orgID scopeType apiKeyID windowStart windowEnd) d.(cost_records)).

(** [CHECK]s and keys of [cost_limit_counters]. *)
Definition check_counter (c : CostLimitCounter) : result unit :=
  pg_check ((0 <=? c.(CostLimitCounter_SettledMicroUsd)) && (0 <=? c.(CostLimitCounter_ReservedMicroUsd))
            && (c.(CostLimitCounter_WindowStart) <? c.(CostLimitCounter_WindowEnd))).

Definition insert_counter_if_absent (c : CostLimitCounter) (d : DB) : result (unit * DB) :=
  _ ← check_counter c;
  if existsb (has_key (key_of_counter c)) d.(cost_limit_counters) then Ok (tt, d)
  else
    _ ← pg_unique (λ c', (c'.(CostLimitCounter_ID) =? c.(CostLimitCounter_ID))%N) d.(cost_limit_counters);
    Ok (tt, set_cost_limit_counters (λ cs, cs ++ [c]) d).

Definition ensureAndLockCounter (orgID apiKeyID : uuid) (item : constraint)
    (windowStart windowEnd now : Z) : M counterState :=
  id ← new_uuid;
  _ ← stmt (λ d,
    settled ← pg_bigint (seed_settled d orgID item.(c_ScopeType) apiKeyID windowStart windowEnd);
    insert_counter_if_absent
      (mkCostLimitCounter id orgID item.(c_ScopeType) item.(c_ScopeID) item.(c_Period)
         windowStart windowEnd settled 0 now now) d);
  row ← query (λ d, pg_one (has_key (orgID, item.(c_ScopeType), item.(c_ScopeID),
                                      item.(c_Period), windowStart)) d.(cost_limit_counters));
  mret (mkcounterState row.(CostLimitCounter_ID) row.(CostLimitCounter_SettledMicroUsd)
          row.(CostLimitCounter_ReservedMicroUsd)).

(** ** Reserve *)

Definition set_reserved (v now : Z) (c : CostLimitCounter) : CostLimitCounter :=
  mkCostLimitCounter c.(CostLimitCounter_ID) c.(CostLimitCounter_OrgID) c.(CostLimitCounter_ScopeType)
    c.(CostLimitCounter_ScopeID) c.(CostLimitCounter_Period) c.(CostLimitCounter_WindowStart)
    c.(CostLimitCounter_WindowEnd) c.(CostLimitCounter_SettledMicroUsd) v
    c.(CostLimitCounter_CreatedAt) now.

(** [UPDATE cost_limit_counters SET reserved_micro_usd = reserved_micro_usd + $2 WHERE id = $1]. *)
Definition add_reserved (id : uuid) (amount now : Z) (d : DB) : result (unit * DB) :=
  cs ← pg_update (λ c, (c.(CostLimitCounter_ID) =? id)%N)
         (λ c, v ← pg_bigint (c.(CostLimitCounter_ReservedMicroUsd) + amount);
               _ ← check_counter (set_reserved v now c);
               Ok (set_reserved v now c)) d.(cost_limit_counters);
  Ok (tt, set_cost_limit_counters (λ _, cs) d).

Definition same_reservation_slot (r r' : CostReservation) : bool :=
  (r.(CostReservation_RequestID) =? r'.(CostReservation_RequestID))%N
  && String.eqb r.(CostReservation_ScopeType) r'.(CostReservation_ScopeType)
  && (r.(CostReservation_ScopeID) =? r'.(CostReservation_ScopeID))%N
  && String.eqb r.(CostReservation_Period) r'.(CostReservation_Period)
  && (r.(CostReservation_WindowStart) =? r'.(CostReservation_WindowStart)).

Definition insert_reservation (r : CostReservation) (d : DB) : result (unit * DB) :=
  _ ← pg_check ((0 <=? r.(CostReservation_ReservedMicroUsd)) && (0 <=? r.(CostReservation_SettledMicroUsd))
                && (r.(CostReservation_WindowStart) <? r.(CostReservation_WindowEnd)));
  _ ← pg_unique (λ r', (r'.(CostReservation_ID) =? r.(CostReservation_ID))%N) d.(cost_reservations);
  _ ← pg_unique (same_reservation_slot r) d.(cost_reservations);
  Ok (tt, set_cost_reservations (λ rs, rs ++ [r]) d).

(** One iteration of the loop of [Reserve]: [Some] is the early return. *)
Definition reserveConstraint (input : ReserveInput) (now : Z) (item : constraint)
    : M (option ReserveResult) :=
  '(windowStart, windowEnd) ← lift (periodWindow now item.(c_Period));
  state ← ensureAndLockCounter input.(ri_OrgID) input.(ri_APIKeyID) item windowStart windowEnd now;
  let used := state.(cs_SettledMicroUSD) +₆₄ state.(cs_ReservedMicroUSD) in
  let remaining := item.(c_LimitMicroUSD) -₆₄ used in
  let blocked := mkReserveResult false item.(c_ScopeType) item.(c_Period)
                   item.(c_LimitMicroUSD) used state.(cs_ReservedMicroUSD) in
  if remaining <=? 0 then mret (Some blocked)
  else if (remaining <? input.(ri_EstimatedCostMicroUSD)) && (0 <? used) then mret (Some blocked)
  else
    let reservationAmount :=
      if remaining <? input.(ri_EstimatedCostMicroUSD) then remaining
      else input.(ri_EstimatedCostMicroUSD) in
    if reservationAmount =? 0 then mret None
    else
      _ ← stmt (add_reserved state.(cs_ID) reservationAmount now);
      id ← new_uuid;
      _ ← stmt (insert_reservation
                  (mkCostReservation id input.(ri_RequestID) input.(ri_OrgID) input.(ri_APIKeyID)
                     item.(c_ScopeType) item.(c_ScopeID) item.(c_Period) windowStart windowEnd
                     reservationAmount 0 "reserved" now now));
      mret None.

Definition allowedResult : ReserveResult := mkReserveResult true "" "" 0 0 0.

Fixpoint reserveConstraints (input : ReserveInput) (now : Z) (items : list constraint)
    : M ReserveResult :=
  match items with
  | [] => mret allowedResult
  | item :: items' =>
      r ← reserveConstraint input now item;
      match r with
      | Some blocked => mret blocked
      | None => reserveConstraints input now items'
      end
  end.

Definition Reserve (input : ReserveInput) : M ReserveResult :=
  if (input.(ri_RequestID) =? Nil)%N then fail (EMsg "request_id is required")
  else if (input.(ri_OrgID) =? Nil)%N then fail (EMsg "org_id is required")
  else if (input.(ri_APIKeyID) =? Nil)%N then fail (EMsg "api_key_id is required")
  else if input.(ri_EstimatedCostMicroUSD) <? 0 then
    fail (EMsg "estimated_cost_micro_usd must be non-negative")
  else
    WithTx rr_Allowed (
      constraints ← loadBlockingConstraints input.(ri_OrgID) input.(ri_APIKeyID);
      match constraints with
      | [] => mret allowedResult
      | _ => now ← clock; reserveConstraints input now constraints
      end).

(** ** Settle and Release *)

Definition reserved_row (requestID : uuid) (r : CostReservation) : bool :=
  (r.(CostReservation_RequestID) =? requestID)%N && String.eqb r.(CostReservation_Status) "reserved".

Definition set_reservation (status : string) (settled now : Z) (r : CostReservation) : CostReservation :=
  mkCostReservation r.(CostReservation_ID) r.(CostReservation_RequestID) r.(CostReservation_OrgID)
    r.(CostReservation_ApiKeyID) r.(CostReservation_ScopeType) r.(CostReservation_ScopeID)
    r.(CostReservation_Period) r.(CostReservation_WindowStart) r.(CostReservation_WindowEnd)
    r.(CostReservation_ReservedMicroUsd) settled status r.(CostReservation_CreatedAt) now.

(** The counter update of [SettleTx] and of [ReleaseTx]:
    [reserved = GREATEST(reserved - $6, 0)], and for a settlement
    [settled = settled + $7]. *)
Definition settle_counter (item : CostReservation) (actual now : Z) (c : CostLimitCounter)
    : result CostLimitCounter :=
  v ← pg_bigint (c.(CostLimitCounter_SettledMicroUsd) + actual);
  let c' := mkCostLimitCounter c.(CostLimitCounter_ID) c.(CostLimitCounter_OrgID)
      c.(CostLimitCounter_ScopeType) c.(CostLimitCounter_ScopeID) c.(CostLimitCounter_Period)
      c.(CostLimitCounter_WindowStart) c.(CostLimitCounter_WindowEnd) v
      (Z.max (c.(CostLimitCounter_ReservedMicroUsd) - item.(CostReservation_ReservedMicroUsd)) 0)
      c.(CostLimitCounter_CreatedAt) now in
  _ ← check_counter c';
  Ok c'.

Definition release_counter (item : CostReservation) (now : Z) (c : CostLimitCounter)
    : result CostLimitCounter :=
  let c' := set_reserved
      (Z.max (c.(CostLimitCounter_ReservedMicroUsd) - item.(CostReservation_ReservedMicroUsd)) 0) now c in
  _ ← check_counter c';
  Ok c'.

Definition update_counter (k : counter_key) (f : CostLimitCounter → result CostLimitCounter) (d : DB)
    : result (unit * DB) :=
  cs ← pg_update (has_key k) f d.(cost_limit_counters);
  Ok (tt, set_cost_limit_counters (λ _, cs) d).

Definition update_reservations (requestID : uuid) (f : CostReservation → CostReservation) (d : DB)
    : result (unit * DB) :=
  rs ← pg_update (reserved_row requestID) (λ r, Ok (f r)) d.(cost_reservations);
  Ok (tt, set_cost_reservations (λ _, rs) d).

Definition SettleTx (requestID : uuid) (actualCostMicroUSD now : Z) : M unit :=
  if (requestID =? Nil)%N then fail (EMsg "request_id is required")
  else if actualCostMicroUSD <? 0 then fail (EMsg "actual_cost_micro_usd must be non-negative")
  else
    reservations ← query (λ d, Ok (List.filter (reserved_row requestID) d.(cost_reservations)));
    _ ← forM reservations tt (λ _ item,
          stmt (update_counter (key_of_reservation item) (settle_counter item actualCostMicroUSD now)));
    stmt (update_reservations requestID (set_reservation "settled" actualCostMicroUSD now)).

Definition ReleaseTx (requestID : uuid) (now : Z) : M unit :=
  if (requestID =? Nil)%N then fail (EMsg "request_id is required")
  else
    reservations ← query (λ d, Ok (List.filter (reserved_row requestID) d.(cost_reservations)));
    _ ← forM reservations tt (λ _ item,
          stmt (update_counter (key_of_reservation item) (release_counter item now)));
    stmt (update_reservations requestID
            (λ r, set_reservation "released" r.(CostReservation_SettledMicroUsd) now r)).

Definition Settle (requestID : uuid) (actualCostMicroUSD : Z) : M unit :=
  if actualCostMicroUSD <? 0 then fail (EMsg "actual_cost_micro_usd must be non-negative")
  else ExecTxRaw (now ← clock; SettleTx requestID actualCostMicroUSD now).

Definition Release (requestID : uuid) : M unit :=
  ExecTxRaw (now ← clock; ReleaseTx requestID now).
