(* ===== verification/LimitsLedger.v ===== *)
(** * The ledger of cost reservations

    What [Limits] promises: a counter's reserved amount is exactly the sum of
    the reservations outstanding on it, whatever calls are made in whatever
    order and whichever of them fail. *)

From S2P Require Import Prelude GoTime Store Limits.

(** ** The ledger invariant *)

(** What reservation [r] holds on the counter of key [k]. *)
Definition held (k : counter_key) (r : CostReservation) : Z :=
  if String.eqb r.(CostReservation_Status) "reserved" && bool_decide (key_of_reservation r = k)
  then r.(CostReservation_ReservedMicroUsd) else 0.

Definition outstanding (d : DB) (k : counter_key) : Z := sumZ (held k) d.(cost_reservations).

Definition has_counter (d : DB) (k : counter_key) : Prop :=
  ∃ c, c ∈ d.(cost_limit_counters) ∧ key_of_counter c = k.

Record ledger_ok (d : DB) : Prop := {
  ledger_ids : NoDup (map CostLimitCounter_ID d.(cost_limit_counters));
  ledger_keys : NoDup (map key_of_counter d.(cost_limit_counters));
  ledger_reserved c : c ∈ d.(cost_limit_counters) →
    c.(CostLimitCounter_ReservedMicroUsd) = outstanding d (key_of_counter c);
  ledger_settled c : c ∈ d.(cost_limit_counters) → 0 <= c.(CostLimitCounter_SettledMicroUsd);
  ledger_amounts r : r ∈ d.(cost_reservations) → 0 <= r.(CostReservation_ReservedMicroUsd);
  ledger_counters r : r ∈ d.(cost_reservations) →
    r.(CostReservation_Status) = "reserved" → has_counter d (key_of_reservation r);
  ledger_windows c : c ∈ d.(cost_limit_counters) →
    c.(CostLimitCounter_WindowStart) < c.(CostLimitCounter_WindowEnd)
}.

(** What the service's calls leave alone: every other table. *)
Definition limits_frame (d d' : DB) : Prop :=
  set_cost_limit_counters (λ _, []) (set_cost_reservations (λ _, []) d) =
  set_cost_limit_counters (λ _, []) (set_cost_reservations (λ _, []) d').

(** ** Updating counters *)

(** [c'] is the counter [c] with other amounts. *)
Definition same_counter (c c' : CostLimitCounter) : Prop :=
  c'.(CostLimitCounter_ID) = c.(CostLimitCounter_ID) ∧ key_of_counter c' = key_of_counter c ∧
  c'.(CostLimitCounter_WindowEnd) = c.(CostLimitCounter_WindowEnd).

(** [c'] is [c] with [r] added to what is reserved and [s] to what is settled. *)
Definition moved (r s : counter_key → Z) (c c' : CostLimitCounter) : Prop :=
  same_counter c c' ∧
  c'.(CostLimitCounter_ReservedMicroUsd) = c.(CostLimitCounter_ReservedMicroUsd) + r (key_of_counter c) ∧
  c'.(CostLimitCounter_SettledMicroUsd) = c.(CostLimitCounter_SettledMicroUsd) + s (key_of_counter c).

Lemma moved_ids r s l l' :
  Forall2 (moved r s) l l' → map CostLimitCounter_ID l' = map CostLimitCounter_ID l.
Proof.
  intros H. apply (Forall2_map_eq _ _ _ _ H). by intros ?? ((?&?&?)&_).
Qed.

Lemma moved_keys r s l l' :
  Forall2 (moved r s) l l' → map key_of_counter l' = map key_of_counter l.
Proof.
  intros H. apply (Forall2_map_eq _ _ _ _ H). by intros ?? ((?&?&?)&_).
Qed.

Lemma moved_compose r1 s1 r2 s2 l1 l2 l3 :
  Forall2 (moved r1 s1) l1 l2 → Forall2 (moved r2 s2) l2 l3 →
  Forall2 (moved (λ k, r1 k + r2 k) (λ k, s1 k + s2 k)) l1 l3.
Proof.
  intros H12 H23. eapply Forall2_chain; [|exact H12|exact H23].
  intros c1 c2 c3 ((?&Hk&?)&?&?) ((?&?&?)&?&?).
  rewrite Hk in *. unfold moved, same_counter. repeat split; first [congruence|lia].
Qed.

(** An update that keeps the keys and moves the amounts in step with the
    outstanding reservations keeps the ledger. *)
Lemma ledger_ok_moved d d' r s :
  ledger_ok d →
  Forall2 (moved r s) d.(cost_limit_counters) d'.(cost_limit_counters) →
  (∀ k, has_counter d k → outstanding d' k = outstanding d k + r k) →
  (∀ k, 0 <= s k) →
  (∀ x, x ∈ d'.(cost_reservations) → 0 <= x.(CostReservation_ReservedMicroUsd)) →
  (∀ x, x ∈ d'.(cost_reservations) → x.(CostReservation_Status) = "reserved" →
     has_counter d (key_of_reservation x)) →
  ledger_ok d'.
Proof.
  intros [Hids Hkeys Hres Hset _ _ Hwin] HF Hout Hs Hamt Hcnt. split.
  - by rewrite (moved_ids _ _ _ _ HF).
  - by rewrite (moved_keys _ _ _ _ HF).
  - intros c' Hc'. destruct (Forall2_elem_r _ _ _ _ HF Hc') as (c & Hc & (?&Hk&?) & Hr & _).
    rewrite Hr, Hk, Hout, (Hres c Hc); [done|by exists c].
  - intros c' Hc'. destruct (Forall2_elem_r _ _ _ _ HF Hc') as (c & Hc & (?&Hk&?) & _ & Hse).
    rewrite Hse. specialize (Hset c Hc). specialize (Hs (key_of_counter c)). lia.
  - done.
  - intros x Hx Hst. destruct (Hcnt x Hx Hst) as (c & Hc & Hk).
    destruct (Forall2_elem_l _ _ _ _ HF Hc) as (c' & Hc' & (?&Hk'&?) & _).
    exists c'. split; [done|congruence].
  - intros c' Hc'. destruct (Forall2_elem_r _ _ _ _ HF Hc') as (c & Hc & (?&Hk&->) & _).
    injection Hk as _ _ _ _ ->. by apply Hwin.
Qed.

(** ** The settlement loop

    [SettleTx] and [ReleaseTx] run the same loop; the first also adds [a] to
    what is settled. *)

Definition discharges (a : Z) (f : CostReservation → CostLimitCounter → result CostLimitCounter) : Prop :=
  ∀ item c c', f item c = Ok c' →
    same_counter c c' ∧
    c'.(CostLimitCounter_ReservedMicroUsd) =
      Z.max (c.(CostLimitCounter_ReservedMicroUsd) - item.(CostReservation_ReservedMicroUsd)) 0 ∧
    c'.(CostLimitCounter_SettledMicroUsd) = c.(CostLimitCounter_SettledMicroUsd) + a.

Lemma settle_discharges a now : discharges a (λ item, settle_counter item a now).
Proof.
  intros item c c' H. unfold settle_counter in H.
  apply result_bind_ok in H as (v & Hv & H). apply pg_bigint_ok in Hv as [-> _].
  apply result_bind_ok in H as ([] & _ & [= <-]). done.
Qed.

Lemma release_discharges now : discharges 0 (λ item, release_counter item now).
Proof.
  intros item c c' H. unfold release_counter in H.
  apply result_bind_ok in H as ([] & _ & [= <-]).
  unfold same_counter; simpl. repeat split; lia.
Qed.

(** What the reservations [items] hold on [k], and how many they are. *)
Definition on_key (k : counter_key) (f : CostReservation → Z) (r : CostReservation) : Z :=
  if bool_decide (key_of_reservation r = k) then f r else 0.
Definition charged (items : list CostReservation) (k : counter_key) : Z :=
  sumZ (on_key k CostReservation_ReservedMicroUsd) items.
Definition hits (items : list CostReservation) (k : counter_key) : Z := sumZ (on_key k (λ _, 1)) items.

Lemma charged_nonneg items k :
  (∀ r, r ∈ items → 0 <= r.(CostReservation_ReservedMicroUsd)) → 0 <= charged items k.
Proof.
  intros H. apply sumZ_nonneg. intros r Hr. unfold on_key. case_bool_decide; [by apply H|lia].
Qed.

Lemma hits_nonneg items k : 0 <= hits items k.
Proof. apply sumZ_nonneg. intros r _. unfold on_key. case_bool_decide; lia. Qed.

Lemma hits_app l1 l2 k : hits (l1 ++ l2) k = hits l1 k + hits l2 k.
Proof. apply sumZ_app. Qed.

Lemma hits_none items k : (∀ r, r ∈ items → key_of_reservation r ≠ k) → hits items k = 0.
Proof.
  intros H. apply sumZ_zero. intros r Hr. unfold on_key.
  rewrite bool_decide_eq_false_2; [done|by apply H].
Qed.

Lemma hits_all k items :
  (∀ r, r ∈ items → key_of_reservation r = k) → hits items k = Z.of_nat (length items).
Proof.
  induction items as [|r items IH]; intros H; [done|]. unfold hits in *. rewrite sumZ_cons, IH.
  - unfold on_key. rewrite bool_decide_eq_true_2 by (apply H; by left). simpl length. lia.
  - intros; apply H; by right.
Qed.

(** A key that is hit by no reservation is charged nothing. *)
Lemma hits_zero items k : hits items k = 0 → ∀ r, r ∈ items → key_of_reservation r ≠ k.
Proof.
  intros H r Hr Hk.
  assert (on_key k (λ _, 1) r <= hits items k).
  { apply sumZ_elem_le; [|done]. intros y _. unfold on_key. case_bool_decide; lia. }
  unfold on_key in *. rewrite bool_decide_eq_true_2 in * by done. lia.
Qed.

Lemma charged_none items k : (∀ r, r ∈ items → key_of_reservation r ≠ k) → charged items k = 0.
Proof.
  intros H. apply sumZ_zero. intros r Hr. unfold on_key.
  rewrite bool_decide_eq_false_2; [done|by apply H].
Qed.

Lemma charged_app l1 l2 k : charged (l1 ++ l2) k = charged l1 k + charged l2 k.
Proof. apply sumZ_app. Qed.

Lemma update_counter_moved a f item d d' :
  discharges a f →
  0 <= item.(CostReservation_ReservedMicroUsd) →
  (∀ c, c ∈ d.(cost_limit_counters) → key_of_counter c = key_of_reservation item →
     item.(CostReservation_ReservedMicroUsd) <= c.(CostLimitCounter_ReservedMicroUsd)) →
  update_counter (key_of_reservation item) (f item) d = Ok (tt, d') →
  limits_frame d d' ∧ d'.(cost_reservations) = d.(cost_reservations) ∧
  Forall2 (moved (λ k, - charged [item] k) (λ k, a * hits [item] k))
    d.(cost_limit_counters) d'.(cost_limit_counters).
Proof.
  intros Hf Hpos Hle H. apply result_bind_ok in H as (cs & Hcs & [= <-]).
  split; [done|]. split; [done|]. simpl.
  apply pg_update_map in Hcs. apply Forall2_same_length_lookup in Hcs as [Hlen Hcs].
  apply Forall2_same_length_lookup. split; [done|]. intros i c c' Hc Hc'.
  specialize (Hcs i c c' Hc Hc'). apply list_elem_of_lookup_2 in Hc.
  unfold has_key in Hcs. unfold moved, charged, hits, on_key. simpl.
  destruct (decide (key_of_counter c = key_of_reservation item)) as [Hk|Hk].
  - rewrite bool_decide_eq_true_2 in Hcs by done. rewrite !bool_decide_eq_true_2 by done.
    destruct (Hf _ _ _ Hcs) as (? & Hr & ?). specialize (Hle c Hc Hk).
    split; [done|]. lia.
  - rewrite bool_decide_eq_false_2 in Hcs by done. subst c'.
    rewrite !bool_decide_eq_false_2 by done. unfold same_counter. repeat split; lia.
Qed.

Lemma limits_frame_trans d1 d2 d3 : limits_frame d1 d2 → limits_frame d2 d3 → limits_frame d1 d3.
Proof. unfold limits_frame. congruence. Qed.

Lemma discharge_loop a f items w w' :
  discharges a f →
  (∀ r, r ∈ items → 0 <= r.(CostReservation_ReservedMicroUsd)) →
  (∀ c, c ∈ w.(w_db).(cost_limit_counters) →
     charged items (key_of_counter c) <= c.(CostLimitCounter_ReservedMicroUsd)) →
  forM items tt (λ _ item, stmt (update_counter (key_of_reservation item) (f item))) w = (Ok tt, w') →
  limits_frame w.(w_db) w'.(w_db) ∧ w'.(w_db).(cost_reservations) = w.(w_db).(cost_reservations) ∧
  Forall2 (moved (λ k, - charged items k) (λ k, a * hits items k))
    w.(w_db).(cost_limit_counters) w'.(w_db).(cost_limit_counters).
Proof.
  intros Hf. revert w. induction items as [|item items IH]; intros w Hpos Hle H; simpl in H.
  - minv H. split; [done|]. split; [done|]. apply Forall2_same_length_lookup.
    split; [done|]. intros i c c' Hc Hc'. simplify_eq.
    unfold moved, same_counter, charged, hits; simpl. repeat split; lia.
  - apply bind_ok in H as ([] & w1 & H1 & H). apply stmt_ok in H1.
    apply (update_counter_moved a) in H1 as (Hfr1 & Hrs1 & HF1); auto; last first.
    { intros c Hc Hk. specialize (Hle c Hc). revert Hle. unfold charged.
      rewrite sumZ_cons. unfold on_key at 1. rewrite bool_decide_eq_true_2 by done.
      pose proof (charged_nonneg items (key_of_counter c)) as Hnn. unfold charged in Hnn.
      intros. assert (0 <= sumZ (on_key (key_of_counter c) CostReservation_ReservedMicroUsd) items)
        by (apply Hnn; set_solver). lia. }
    { apply Hpos. set_solver. }
    apply IH in H as (Hfr & Hrs & HF).
    + split; [by eapply limits_frame_trans|]. split; [congruence|].
      eapply Forall2_chain; [|exact HF1|exact HF].
      intros c1 c2 c3 ((?&Hk&?)&?&?) ((?&?&?)&?&?). rewrite Hk in *.
      unfold moved, same_counter, charged, hits in *. rewrite !sumZ_cons. simpl in *.
      repeat split; first [congruence|lia].
    + intros; apply Hpos; set_solver.
    + intros c' Hc'. destruct (Forall2_elem_r _ _ _ _ HF1 Hc') as (c & Hc & (?&Hk&?) & Hr & _).
      specialize (Hle c Hc). unfold charged in *. rewrite Hk, Hr. rewrite sumZ_cons in Hle.
      simpl. lia.
Qed.

(** ** Settle and release as one discharge *)

Definition held_by (req : uuid) (d : DB) : list CostReservation :=
  List.filter (reserved_row req) d.(cost_reservations).

Definition same_slot (r r' : CostReservation) : Prop :=
  key_of_reservation r' = key_of_reservation r ∧
  r'.(CostReservation_ID) = r.(CostReservation_ID) ∧
  r'.(CostReservation_RequestID) = r.(CostReservation_RequestID) ∧
  r'.(CostReservation_ReservedMicroUsd) = r.(CostReservation_ReservedMicroUsd).

(** The reservations of [req] are closed with status [st], the others kept. *)
Definition closed (req : uuid) (st : string) (r r' : CostReservation) : Prop :=
  if reserved_row req r then same_slot r r' ∧ r'.(CostReservation_Status) = st else r' = r.

Lemma outstanding_closed req st l l' k :
  st ≠ "reserved" → Forall2 (closed req st) l l' →
  sumZ (held k) l' = sumZ (held k) l - charged (List.filter (reserved_row req) l) k.
Proof.
  intros Hst. induction 1 as [|r r' l l' Hr _ IH]; [done|].
  rewrite !sumZ_cons, IH. simpl. unfold closed in Hr.
  destruct (reserved_row req r) eqn:E.
  - destruct Hr as [(Hk&_&_&_) Hs]. unfold charged. rewrite sumZ_cons.
    unfold reserved_row in E. bool_to_prop. unfold held at 1 3, on_key at 2.
    rewrite Hs, (proj2 (String.eqb_neq _ _) Hst), H0. simpl. case_bool_decide; lia.
  - subst r'. lia.
Qed.

Lemma charged_le_outstanding req d k :
  (∀ r, r ∈ d.(cost_reservations) → 0 <= r.(CostReservation_ReservedMicroUsd)) →
  charged (held_by req d) k <= outstanding d k.
Proof.
  unfold held_by, outstanding. generalize d.(cost_reservations) as l.
  induction l as [|r l IH]; intros Hpos; [done|]. rewrite sumZ_cons. simpl.
  assert (Hr : 0 <= r.(CostReservation_ReservedMicroUsd)) by (apply Hpos; set_solver).
  assert (0 <= held k r) by (unfold held; case_match; lia).
  assert (IHl : charged (List.filter (reserved_row req) l) k <= sumZ (held k) l)
    by (apply IH; set_solver).
  destruct (reserved_row req r) eqn:E; [|lia].
  unfold charged in *. rewrite sumZ_cons. unfold reserved_row in E. bool_to_prop.
  unfold held at 1, on_key at 1. rewrite H1. simpl. lia.
Qed.

Lemma held_by_pos req d :
  ledger_ok d → ∀ r, r ∈ held_by req d → 0 <= r.(CostReservation_ReservedMicroUsd).
Proof.
  intros H r Hr. apply list_elem_of_In, filter_In in Hr as [Hr _].
  by apply (ledger_amounts _ H), list_elem_of_In.
Qed.

(** Everything a successful settlement or release does. *)
Record discharged (req : uuid) (st : string) (a : Z) (d d' : DB) : Prop := {
  discharged_frame : limits_frame d d';
  discharged_rows : Forall2 (closed req st) d.(cost_reservations) d'.(cost_reservations);
  discharged_counters :
    Forall2 (moved (λ k, - charged (held_by req d) k) (λ k, a * hits (held_by req d) k))
      d.(cost_limit_counters) d'.(cost_limit_counters);
  discharged_outstanding k : outstanding d' k = outstanding d k - charged (held_by req d) k;
  discharged_ledger : ledger_ok d'
}.

Lemma discharged_intro req st a d d' :
  ledger_ok d → 0 <= a → st ≠ "reserved" → limits_frame d d' →
  Forall2 (closed req st) d.(cost_reservations) d'.(cost_reservations) →
  Forall2 (moved (λ k, - charged (held_by req d) k) (λ k, a * hits (held_by req d) k))
    d.(cost_limit_counters) d'.(cost_limit_counters) →
  discharged req st a d d'.
Proof.
  intros Hok Ha Hst Hfr Hcl HF.
  assert (Hout : ∀ k, outstanding d' k = outstanding d k - charged (held_by req d) k)
    by (intros k; by apply (outstanding_closed req st)).
  split; [done..|]. eapply ledger_ok_moved; [exact Hok|exact HF| | | |].
  - intros k _. rewrite Hout. lia.
  - intros k. pose proof (hits_nonneg (held_by req d) k). nia.
  - intros x Hx. destruct (Forall2_elem_r _ _ _ _ Hcl Hx) as (y & Hy & Hc).
    pose proof (ledger_amounts _ Hok y Hy). unfold closed in Hc.
    case_match; [destruct Hc as [(_&_&_&->) _]; done|by subst].
  - intros x Hx Hrs. destruct (Forall2_elem_r _ _ _ _ Hcl Hx) as (y & Hy & Hc).
    unfold closed in Hc. case_match; [destruct Hc as [_ ?]; congruence|subst].
    by apply (ledger_counters _ Hok).
Qed.

Lemma discharge_body a f g st req w w' :
  discharges a f → 0 <= a → st ≠ "reserved" →
  (∀ r, same_slot r (g r) ∧ (g r).(CostReservation_Status) = st) →
  ledger_ok w.(w_db) →
  (reservations ← query (λ d, Ok (List.filter (reserved_row req) d.(cost_reservations)));
   _ ← forM reservations tt (λ _ item,
          stmt (update_counter (key_of_reservation item) (f item)));
   stmt (update_reservations req g)) w = (Ok tt, w') →
  discharged req st a w.(w_db) w'.(w_db).
Proof.
  intros Hf Ha Hst Hg Hok H.
  apply bind_ok in H as (items & w1 & H1 & H). apply query_ok in H1 as [[= <-] Hw1].
  apply bind_ok in H as ([] & w2 & H2 & H). apply stmt_ok in H.
  fold (held_by req w.(w_db)) in H2. rewrite <- Hw1 in H2, Hok |- *.
  apply (discharge_loop a) in H2 as (Hfr & Hrs & HF); [|done|by apply held_by_pos|]; last first.
  { intros c Hc. rewrite (ledger_reserved _ Hok c Hc).
    apply charged_le_outstanding, (ledger_amounts _ Hok). }
  apply result_bind_ok in H as (rs & Hupd & [= <-]).
  apply discharged_intro; auto. simpl.
  rewrite <- Hrs. apply pg_update_map in Hupd. eapply Forall2_chain with (Q := eq); [|exact Hupd|].
  - intros r r' ? Hr ->. unfold closed. case_match; [|done]. injection Hr as <-. apply Hg.
  - apply Forall2_same_length_lookup. split; [done|]. naive_solver.
Qed.

Lemma SettleTx_discharged req a now w w' :
  ledger_ok w.(w_db) → SettleTx req a now w = (Ok tt, w') →
  0 <= a ∧ discharged req "settled" a w.(w_db) w'.(w_db).
Proof.
  intros Hok H. unfold SettleTx in H. case_all H. bool_to_prop. split; [done|].
  eapply discharge_body; [apply settle_discharges| | | |done|exact H]; done.
Qed.

Lemma ReleaseTx_discharged req now w w' :
  ledger_ok w.(w_db) → ReleaseTx req now w = (Ok tt, w') →
  discharged req "released" 0 w.(w_db) w'.(w_db).
Proof.
  intros Hok H. unfold ReleaseTx in H. case_all H.
  eapply discharge_body; [apply release_discharges| | | |done|exact H]; done.
Qed.

(** The methods: an error leaves the database as it was. *)
Lemma Settle_cases req a w r w' :
  ledger_ok w.(w_db) → Settle req a w = (r, w') →
  (∃ e, r = Err e ∧ w'.(w_db) = w.(w_db)) ∨
  (r = Ok tt ∧ 0 <= a ∧ discharged req "settled" a w.(w_db) w'.(w_db)).
Proof.
  intros Hok H. unfold Settle in H. case_match.
  { injection H as <- <-. left. by eexists. }
  destruct r as [[]|e].
  - right. apply WithTx_ok in H as (w1 & w2 & Hw1 & _ & H & ->).
    apply bind_ok in H as (now & w3 & Hc & H). apply clock_ok in Hc.
    rewrite <- Hw1, <- Hc in *. apply SettleTx_discharged in H; [|done]. naive_solver.
  - left. exists e. split; [done|].
    pose proof (ExecTxRaw_err (now ← clock; SettleTx req a now) w e) as He.
    rewrite H in He. by apply He.
Qed.

Lemma Release_cases req w r w' :
  ledger_ok w.(w_db) → Release req w = (r, w') →
  (∃ e, r = Err e ∧ w'.(w_db) = w.(w_db)) ∨
  (r = Ok tt ∧ discharged req "released" 0 w.(w_db) w'.(w_db)).
Proof.
  intros Hok H. unfold Release in H. destruct r as [[]|e].
  - right. apply WithTx_ok in H as (w1 & w2 & Hw1 & _ & H & ->).
    apply bind_ok in H as (now & w3 & Hc & H). apply clock_ok in Hc.
    rewrite <- Hw1, <- Hc in *. apply ReleaseTx_discharged in H; naive_solver.
  - left. exists e. split; [done|].
    pose proof (ExecTxRaw_err (now ← clock; ReleaseTx req now) w e) as He.
    rewrite H in He. by apply He.
Qed.

(** ** A release cannot fail

    While the tables hold what the invariant says, no constraint can refuse
    the release of a request: it succeeds as soon as no call fails. *)

Definition checked (c : CostLimitCounter) : Prop :=
  0 <= c.(CostLimitCounter_SettledMicroUsd) ∧ c.(CostLimitCounter_WindowStart) < c.(CostLimitCounter_WindowEnd).

Lemma release_counter_total item now c :
  checked c → ∃ c', release_counter item now c = Ok c' ∧ checked c'.
Proof.
  intros [Hs Hw]. unfold release_counter, check_counter, pg_check. simpl.
  rewrite !(proj2 (Z.leb_le _ _)), (proj2 (Z.ltb_lt _ _)) by lia. simpl. by eexists.
Qed.

Lemma release_loop_total items now w :
  w_faults w = [] → (∀ c, c ∈ (w_db w).(cost_limit_counters) → checked c) →
  ∃ w', forM items tt (λ _ item, stmt (update_counter (key_of_reservation item) (release_counter item now))) w = (Ok tt, w') ∧
    w_faults w' = [].
Proof.
  revert w. induction items as [|item items IH]; intros w Hf Hc; simpl; [by eexists|].
  destruct (pg_update_total (has_key (key_of_reservation item)) (release_counter item now) (w_db w).(cost_limit_counters))
    as [rows' Hrows].
  { intros c Hin _. destruct (release_counter_total item now c) as (c' & ? & _); [by apply Hc|]. by eexists. }
  unfold mbind, M_bind. rewrite stmt_run by done. unfold update_counter. rewrite Hrows. simpl.
  apply IH; [done|]. simpl. intros c' Hc'. apply pg_update_map in Hrows.
  destruct (Forall2_elem_r _ _ _ _ Hrows Hc') as (c & Hin & H). apply Hc in Hin.
  destruct (has_key _ c); [|by subst c']. destruct (release_counter_total item now c Hin) as (c1 & E & ?). congruence.
Qed.

Lemma Release_total req w :
  ledger_ok (w_db w) → w_faults w = [] → req ≠ Nil → (Release req w).1 = Ok tt.
Proof.
  intros Hok Hf Hn. unfold Release, ExecTxRaw, WithTx, call. rewrite Hf.
  unfold clock, ReleaseTx. rewrite (proj2 (N.eqb_neq _ _) Hn).
  unfold mbind at 1, M_bind at 1. unfold mbind at 1, M_bind at 1. rewrite query_run by done.
  set (items := List.filter _ _). set (now := w_clock w (w_tick w)).
  unfold mbind, M_bind.
  destruct (release_loop_total items now (set_tick (S (w_tick w)) w)) as (w1 & -> & Hf1); [done| |].
  { intros c Hc. split; [by apply (ledger_settled _ Hok)|by apply (ledger_windows _ Hok)]. }
  rewrite stmt_run by done. unfold update_reservations.
  destruct (pg_update_total (reserved_row req) (λ r, Ok (set_reservation "released" (CostReservation_SettledMicroUsd r) now r))
    (w_db w1).(cost_reservations)) as [rows' ->]; [by eexists|]. simpl. by rewrite Hf1.
Qed.

(** Afterwards the request holds nothing. *)
Lemma discharged_none_held req st a d d' : st ≠ "reserved" → discharged req st a d d' → held_by req d' = [].
Proof.
  intros Hst Hd. unfold held_by. apply filter_none_bool. intros r Hr.
  destruct (Forall2_elem_r _ _ _ _ (discharged_rows _ _ _ _ _ Hd) Hr) as (r0 & _ & Hc).
  unfold closed in Hc. destruct (reserved_row _ r0) eqn:E; [|by subst r].
  destruct Hc as [_ Hs]. unfold reserved_row. rewrite Hs, (proj2 (String.eqb_neq _ _) Hst). by rewrite andb_false_r.
Qed.

