(* ===== verification/LimitsReserve.v ===== *)
(** * What a reservation decides

    The abstract specification of [ReservationService.Reserve] — the first
    blocking limit without room, or a charge on every limit — and the proof
    that the code implements it. *)

From S2P Require Import Prelude GoTime Store Limits LimitsLedger.

(** ** Specification *)

Definition window_of (now : Z) (item : constraint) : Z * Z :=
  match periodWindow now item.(c_Period) with Ok w => w | Err _ => (0, 0) end.

Definition item_key (input : ReserveInput) (now : Z) (item : constraint) : counter_key :=
  (input.(ri_OrgID), item.(c_ScopeType), item.(c_ScopeID), item.(c_Period), (window_of now item).1).

(** What is settled and what is reserved against a limit: its counter, or,
    before the first reservation of the window, the recorded costs. *)
Definition counter_use (d : DB) (input : ReserveInput) (now : Z) (item : constraint) : Z * Z :=
  match find (has_key (item_key input now item)) d.(cost_limit_counters) with
  | Some c => (c.(CostLimitCounter_SettledMicroUsd), c.(CostLimitCounter_ReservedMicroUsd))
  | None => (seed_settled d input.(ri_OrgID) item.(c_ScopeType) input.(ri_APIKeyID)
               (window_of now item).1 (window_of now item).2, 0)
  end.

Definition used (d : DB) (input : ReserveInput) (now : Z) (item : constraint) : Z :=
  (counter_use d input now item).1 + (counter_use d input now item).2.

(** A limit has no room when it is used up, or when something is used and the
    estimate does not fit in the rest. *)
Definition over_limit (d : DB) (input : ReserveInput) (now : Z) (item : constraint) : bool :=
  (item.(c_LimitMicroUSD) <=? used d input now item)
  || ((item.(c_LimitMicroUSD) <? used d input now item + input.(ri_EstimatedCostMicroUSD))
      && (0 <? used d input now item)).

Definition blocked_by (d : DB) (input : ReserveInput) (now : Z) (item : constraint) : ReserveResult :=
  mkReserveResult false item.(c_ScopeType) item.(c_Period) item.(c_LimitMicroUSD)
    (used d input now item) (counter_use d input now item).2.

(** What an admitted request charges to a limit: its estimate, cut to the
    limit when the window is still empty. *)
Definition charge (d : DB) (input : ReserveInput) (now : Z) (item : constraint) : Z :=
  Z.min input.(ri_EstimatedCostMicroUSD) (item.(c_LimitMicroUSD) - used d input now item).

Definition blocking_constraints (d : DB) (orgID apiKeyID : uuid) : list constraint :=
  org_constraints orgID d ++
  match find (is_api_key orgID apiKeyID) d.(api_keys) with
  | Some k => key_constraints apiKeyID k
  | None => []
  end.

(** The amounts are columns of type [bigint] and their sum does not overflow. *)
Definition sane_item (d : DB) (input : ReserveInput) (now : Z) (item : constraint) : Prop :=
  0 <= item.(c_LimitMicroUSD) <= MaxInt64 ∧ used d input now item <= MaxInt64.

(** ** One iteration *)

Lemma has_key_true k c : has_key k c = true ↔ key_of_counter c = k.
Proof. apply bool_decide_eq_true. Qed.

Lemma find_has_key k l c : find (has_key k) l = Some c → c ∈ l ∧ key_of_counter c = k.
Proof.
  intros H. apply find_some in H as [Hin Hk]. split; [by apply list_elem_of_In|].
  by apply has_key_true.
Qed.

Lemma find_counter l c :
  NoDup (map key_of_counter l) → c ∈ l → find (has_key (key_of_counter c)) l = Some c.
Proof.
  intros Hnd Hc. destruct (find (has_key (key_of_counter c)) l) as [c'|] eqn:E.
  - apply find_has_key in E as [Hc' Hk]. f_equal. by apply (NoDup_map_inj key_of_counter l).
  - exfalso. apply list_elem_of_In in Hc. apply (find_none _ _ E) in Hc.
    assert (has_key (key_of_counter c) c = true) by by apply has_key_true. congruence.
Qed.

Lemma find_moved r s k l l' :
  Forall2 (moved r s) l l' →
  match find (has_key k) l, find (has_key k) l' with
  | Some c, Some c' => moved r s c c'
  | None, None => True
  | _, _ => False
  end.
Proof.
  induction 1 as [|c c' l l' Hm _ IH]; simpl; [done|].
  pose proof Hm as ((_&Hk&_)&_).
  assert (has_key k c' = has_key k c) as -> by (unfold has_key; by rewrite Hk).
  by destruct (has_key k c).
Qed.

(** The amount at stake in [d] is non-negative as soon as the costs recorded are. *)
Definition costs_nonneg (d : DB) : Prop :=
  ∀ cr, cr ∈ d.(cost_records) → 0 <= cr.(CostRecord_TotalCostMicro).

Lemma outstanding_nonneg d k : ledger_ok d → 0 <= outstanding d k.
Proof.
  intros H. apply sumZ_nonneg. intros r Hr. unfold held.
  case_match; [by apply (ledger_amounts _ H)|done].
Qed.

Lemma counter_use_nonneg d input now item :
  ledger_ok d → costs_nonneg d →
  0 <= (counter_use d input now item).1 ∧ 0 <= (counter_use d input now item).2.
Proof.
  intros Hok Hc. unfold counter_use. case_match eqn:E; simpl.
  - apply find_has_key in E as [Hin _]. split; [by apply (ledger_settled _ Hok)|].
    rewrite (ledger_reserved _ Hok) by done. by apply outstanding_nonneg.
  - split; [|done]. apply sumZ_nonneg. intros cr Hcr.
    apply list_elem_of_In, filter_In in Hcr as [Hcr _]. by apply Hc, list_elem_of_In.
Qed.

(** [ensureAndLockCounter] finds or creates the counter, without changing
    what any limit has used. *)
Record ensured (input : ReserveInput) (now : Z) (item : constraint) (d d' : DB) (st : counterState)
    : Prop := {
  ensured_frame : limits_frame d d';
  ensured_ledger : ledger_ok d';
  ensured_rows : d'.(cost_reservations) = d.(cost_reservations);
  ensured_use item' : counter_use d' input now item' = counter_use d input now item';
  ensured_state : (st.(cs_SettledMicroUSD), st.(cs_ReservedMicroUSD)) = counter_use d input now item;
  ensured_counter : ∃ c, c ∈ d'.(cost_limit_counters) ∧ key_of_counter c = item_key input now item ∧
    c.(CostLimitCounter_ID) = st.(cs_ID)
}.

Lemma insert_counter_ok c d d' :
  ledger_ok d → c.(CostLimitCounter_ReservedMicroUsd) = 0 →
  insert_counter_if_absent c d = Ok (tt, d') →
  limits_frame d d' ∧ ledger_ok d' ∧ d'.(cost_reservations) = d.(cost_reservations) ∧
  ∃ c', find (has_key (key_of_counter c)) d'.(cost_limit_counters) = Some c' ∧
    ((d' = d) ∨
     (c' = c ∧ find (has_key (key_of_counter c)) d.(cost_limit_counters) = None ∧
      d'.(cost_limit_counters) = d.(cost_limit_counters) ++ [c])).
Proof.
  intros Hok H0 H. unfold insert_counter_if_absent in H.
  apply result_bind_ok in H as ([] & Hchk & H). rewrite find_existsb in H.
  destruct (find (has_key (key_of_counter c)) d.(cost_limit_counters)) as [c0|] eqn:Ef.
  { injection H as <-. repeat split; [apply Hok..|]. exists c0. auto. }
  apply result_bind_ok in H as ([] & Hid & [= <-]). apply pg_unique_ok in Hid.
  rewrite List.Forall_forall in Hid. split; [done|]. split; [|split; [done|]]; last first.
  { exists c. simpl. rewrite find_app, Ef. simpl.
    rewrite (proj2 (has_key_true _ _)) by done. auto. }
  assert (Hnew : ∀ c', c' ∈ d.(cost_limit_counters) → key_of_counter c' ≠ key_of_counter c).
  { intros c' Hc' Hk. apply list_elem_of_In in Hc'. apply (find_none _ _ Ef) in Hc'.
    apply (proj2 (has_key_true _ _)) in Hk. congruence. }
  destruct Hok as [Hids Hkeys Hres Hset Hamt Hcnt Hwin].
  unfold check_counter, pg_check in Hchk. case_all Hchk. bool_to_prop.
  split; simpl; [| | | |done| |].
  - apply NoDup_map_snoc; [done|]. intros c' Hc'. apply list_elem_of_In, Hid in Hc'.
    by apply N.eqb_neq in Hc'.
  - by apply NoDup_map_snoc.
  - intros c' [Hc'|[->|[]%not_elem_of_nil]%elem_of_cons]%elem_of_app; [by apply Hres|].
    rewrite H0. symmetry. apply sumZ_zero. intros r Hr. unfold held.
    destruct (String.eqb _ _ && bool_decide _) eqn:E; [|done].
    apply andb_true_iff in E as [Hst Hk0]. eqb_to_prop. destruct (Hcnt r Hr Hst) as (c' & Hc' & Hk).
    exfalso. apply (Hnew c'); congruence.
  - intros c' [Hc'|[->|[]%not_elem_of_nil]%elem_of_cons]%elem_of_app; [by apply Hset|lia].
  - intros r Hr Hst. destruct (Hcnt r Hr Hst) as (c' & Hc' & Hk). exists c'. set_solver.
  - intros c' [Hc'|[->|[]%not_elem_of_nil]%elem_of_cons]%elem_of_app; [by apply Hwin|lia].
Qed.

Lemma ensure_ok input now item st w w' :
  ledger_ok w.(w_db) →
  ensureAndLockCounter input.(ri_OrgID) input.(ri_APIKeyID) item
    (window_of now item).1 (window_of now item).2 now w = (Ok st, w') →
  ensured input now item w.(w_db) w'.(w_db) st.
Proof.
  intros Hok H. unfold ensureAndLockCounter in H.
  apply bind_ok in H as (id & w1 & H1 & H). apply new_uuid_ok in H1. rewrite <- H1 in *. clear H1.
  apply bind_ok in H as ([] & w2 & H2 & H). apply stmt_ok in H2.
  apply result_bind_ok in H2 as (settled & Hs & H2). apply pg_bigint_ok in Hs as [-> _].
  apply bind_ok in H as (row & w3 & H3 & H). apply query_ok in H3 as [H3 Hw3].
  apply ret_ok in H as [<- <-]. rewrite Hw3. clear Hw3.
  apply insert_counter_ok in H2 as (Hfr & Hok' & Hrs & c' & Hf & Hd); [|done..].
  rewrite pg_one_find in H3.
  change (find _ _) with (find (has_key (item_key input now item)) w2.(w_db).(cost_limit_counters)) in Hf.
  fold (item_key input now item) in H3. rewrite Hf in H3. injection H3 as <-.
  change (find _ _ = None) with
    (find (has_key (item_key input now item)) w1.(w_db).(cost_limit_counters) = None) in Hd.
  split; [done..| | |]; simpl.
  - intros item'. destruct Hd as [->|(-> & Hn & Hcs)]; [done|].
    unfold counter_use. rewrite Hcs, find_app.
    destruct (find (has_key (item_key input now item')) (cost_limit_counters (w_db w1))) eqn:E; [done|].
    simpl. destruct (has_key _ _) eqn:Ek; simpl.
    + apply has_key_true in Ek. injection Ek as Es _ Ep _.
      unfold window_of. by rewrite <- Es, <- Ep.
    + unfold limits_frame in Hfr. destruct (w_db w1), (w_db w2). simpl in *. by simplify_eq.
  - destruct Hd as [Hd|(-> & Hn & _)].
    + rewrite Hd in Hf. unfold counter_use. by rewrite Hf.
    + unfold counter_use. by rewrite Hn.
  - exists c'. apply find_has_key in Hf as [? ?]. done.
Qed.

(** A charge of [amount] on the counter of [item], recorded as a reservation
    of the request. *)
Record charged_item (input : ReserveInput) (now : Z) (item : constraint) (amount : Z) (d d' : DB)
    : Prop := {
  charged_frame : limits_frame d d';
  charged_ledger : ledger_ok d';
  charged_rows : ∃ new, d'.(cost_reservations) = d.(cost_reservations) ++ new ∧
    (∀ r, r ∈ new → reserved_row input.(ri_RequestID) r = true ∧
                    key_of_reservation r = item_key input now item) ∧
    length new = if amount =? 0 then 0%nat else 1%nat;
  charged_use : counter_use d' input now item =
    ((counter_use d input now item).1, (counter_use d input now item).2 + amount);
  charged_others item' : item_key input now item' ≠ item_key input now item →
    counter_use d' input now item' = counter_use d input now item'
}.

(** Only the counter of the given identifier is updated. *)
Lemma add_reserved_moved id amount now d d' c :
  ledger_ok d → c ∈ d.(cost_limit_counters) → c.(CostLimitCounter_ID) = id →
  add_reserved id amount now d = Ok (tt, d') →
  limits_frame d d' ∧ d'.(cost_reservations) = d.(cost_reservations) ∧
  Forall2 (moved (λ k, if bool_decide (k = key_of_counter c) then amount else 0) (λ _, 0))
    d.(cost_limit_counters) d'.(cost_limit_counters).
Proof.
  intros Hok Hc Hid H. apply result_bind_ok in H as (cs & Hcs & [= <-]).
  split; [done|]. split; [done|]. simpl.
  apply pg_update_map in Hcs. apply Forall2_same_length_lookup in Hcs as [Hlen Hcs].
  apply Forall2_same_length_lookup. split; [done|]. intros i c1 c1' Hc1 Hc1'.
  specialize (Hcs i c1 c1' Hc1 Hc1'). apply list_elem_of_lookup_2 in Hc1.
  unfold moved, same_counter. destruct (_ =? _)%N eqn:E; eqb_to_prop.
  - assert (c1 = c) as -> by (apply (NoDup_map_inj CostLimitCounter_ID d.(cost_limit_counters));
      [apply ledger_ids|..]; congruence).
    rewrite bool_decide_eq_true_2 by done.
    apply result_bind_ok in Hcs as (v & Hv & Hcs). apply pg_bigint_ok in Hv as [-> _].
    apply result_bind_ok in Hcs as ([] & _ & [= <-]). simpl. repeat split; lia.
  - subst c1'. rewrite bool_decide_eq_false_2; [repeat split; lia|].
    intros Hk. apply E. rewrite <- Hid.
    f_equal. apply (NoDup_map_inj key_of_counter d.(cost_limit_counters)); auto using ledger_keys.
Qed.

Lemma counter_use_frame d d' input now item r s :
  limits_frame d d' →
  Forall2 (moved r s) d.(cost_limit_counters) d'.(cost_limit_counters) →
  has_counter d (item_key input now item) ∨ r (item_key input now item) = 0 ∧ s (item_key input now item) = 0 →
  counter_use d' input now item =
    ((counter_use d input now item).1 + s (item_key input now item),
     (counter_use d input now item).2 + r (item_key input now item)).
Proof.
  intros Hfr HF Hor. unfold counter_use.
  pose proof (find_moved _ _ (item_key input now item) _ _ HF) as Hfm.
  destruct (find _ (cost_limit_counters d)) as [c|] eqn:E,
           (find _ (cost_limit_counters d')) as [c'|] eqn:E'; try done.
  - apply find_has_key in E as [_ Hk]. destruct Hfm as (_ & -> & ->). by rewrite Hk.
  - destruct Hor as [(c & Hc & Hk)|[-> ->]].
    + apply list_elem_of_In in Hc. apply (find_none _ _ E) in Hc.
      apply (proj2 (has_key_true _ _)) in Hk. congruence.
    + unfold limits_frame in Hfr. rewrite !Z.add_0_r. destruct d, d'; simpl in *. by simplify_eq.
Qed.

Lemma insert_reservation_ok r d d' :
  insert_reservation r d = Ok (tt, d') →
  0 <= r.(CostReservation_ReservedMicroUsd) ∧ d' = set_cost_reservations (λ rs, rs ++ [r]) d.
Proof.
  intros H. unfold insert_reservation in H.
  apply result_bind_ok in H as ([] & Hc & H). apply result_bind_ok in H as ([] & _ & H).
  apply result_bind_ok in H as ([] & _ & [= <-]).
  unfold pg_check in Hc. case_all Hc. bool_to_prop. done.
Qed.

Lemma charge_ok input now item amount st d d2 d3 r :
  ledger_ok d → amount ≠ 0 →
  (∃ c, c ∈ d.(cost_limit_counters) ∧ key_of_counter c = item_key input now item ∧
     c.(CostLimitCounter_ID) = st.(cs_ID)) →
  reserved_row input.(ri_RequestID) r = true → key_of_reservation r = item_key input now item →
  r.(CostReservation_ReservedMicroUsd) = amount →
  add_reserved st.(cs_ID) amount now d = Ok (tt, d2) →
  insert_reservation r d2 = Ok (tt, d3) →
  charged_item input now item amount d d3.
Proof.
  intros Hok Hne (c & Hc & Hk & Hid) Hrow Hrk Hra Hadd Hins.
  apply (add_reserved_moved _ _ _ _ _ c) in Hadd as (Hfr & Hrs & HF); [|done..].
  apply insert_reservation_ok in Hins as [Hpos ->].
  assert (Hst : r.(CostReservation_Status) = "reserved").
  { unfold reserved_row in Hrow. by eqb_to_prop. }
  assert (Hfr3 : limits_frame d (set_cost_reservations (λ rs, rs ++ [r]) d2)) by exact Hfr.
  split.
  - done.
  - eapply ledger_ok_moved; [exact Hok|exact HF| |done| |].
    + intros k _. unfold outstanding. simpl. rewrite Hrs, sumZ_app, sumZ_cons, sumZ_nil.
      f_equal. unfold held. rewrite Hst, Hrk, Hra, Hk. simpl.
      repeat case_bool_decide; congruence || lia.
    + simpl. rewrite Hrs. intros x [Hx|[->|[]%not_elem_of_nil]%elem_of_cons]%elem_of_app;
        [by apply (ledger_amounts _ Hok)|done].
    + simpl. rewrite Hrs. intros x [Hx|[->|[]%not_elem_of_nil]%elem_of_cons]%elem_of_app Hxs;
        [by apply (ledger_counters _ Hok)|]. rewrite Hrk. by exists c.
  - exists [r]. simpl. rewrite Hrs, (proj2 (Z.eqb_neq _ _) Hne). split; [done|]. split; [|done].
    by intros x ->%list_elem_of_singleton.
  - erewrite counter_use_frame; [|exact Hfr3|exact HF|left; by exists c].
    rewrite Hk, bool_decide_eq_true_2, Z.add_0_r by done. done.
  - intros item' Hne'.
    erewrite counter_use_frame; [|exact Hfr3|exact HF|right].
    + rewrite Hk, bool_decide_eq_false_2, !Z.add_0_r by done. by destruct (counter_use _ _ _ item').
    + rewrite Hk, bool_decide_eq_false_2 by done. done.
Qed.

(** Looking a counter up charges nothing, and what is charged after it is charged. *)
Lemma ensured_uncharged input now item st d d' : ensured input now item d d' st → charged_item input now item 0 d d'.
Proof.
  intros [Hfr Hok Hrs Huse _ _]. split; [done..| | |].
  - exists []. rewrite Hrs, app_nil_r. split; [done|]. split; [set_solver|done].
  - rewrite Huse, Z.add_0_r. by destruct (counter_use d input now item).
  - intros item' _. apply Huse.
Qed.

Lemma ensured_charged input now item st amount d d1 d' :
  ensured input now item d d1 st → charged_item input now item amount d1 d' → charged_item input now item amount d d'.
Proof.
  intros [Hfr _ Hrs Huse _ _] [Hfr' Hok' (new & Hrows & Hnew & Hlen) Huse' Hoth']. split.
  - by eapply limits_frame_trans.
  - done.
  - exists new. by rewrite Hrows, Hrs.
  - by rewrite Huse', Huse.
  - intros item' Hi. rewrite Hoth' by done. apply Huse.
Qed.

(** One iteration of the loop, against the specification. *)
Lemma reserveConstraint_ok input now item o w w' :
  ledger_ok w.(w_db) → costs_nonneg w.(w_db) → 0 <= input.(ri_EstimatedCostMicroUSD) →
  sane_item w.(w_db) input now item →
  reserveConstraint input now item w = (Ok o, w') →
  if over_limit w.(w_db) input now item then o = Some (blocked_by w.(w_db) input now item)
  else o = None ∧ charged_item input now item (charge w.(w_db) input now item) w.(w_db) w'.(w_db).
Proof.
  intros Hok Hcn Hest [[Hl0 Hl] Hu] H. unfold reserveConstraint in H.
  apply bind_ok in H as ([ws we] & w1 & H1 & H). apply lift_ok in H1 as [Hw <-].
  assert (Hwin : window_of now item = (ws, we)) by (unfold window_of; by rewrite Hw).
  apply bind_ok in H as (st & w2 & H2 & H).
  replace ws with (window_of now item).1 in H2, H by (by rewrite Hwin).
  replace we with (window_of now item).2 in H2, H by (by rewrite Hwin).
  apply ensure_ok in H2 as He; [|done]. pose proof (ensured_ledger _ _ _ _ _ _ He) as Hok2.
  pose proof (ensured_counter _ _ _ _ _ _ He) as Hctr. pose proof (ensured_state _ _ _ _ _ _ He) as Hst.
  pose proof (counter_use_nonneg w.(w_db) input now item Hok Hcn) as [Hs0 Hr0].
  unfold over_limit, charge, blocked_by, used in *.
  destruct (counter_use w.(w_db) input now item) as [s r] eqn:Eu. injection Hst as Hs Hr.
  rewrite Hs, Hr in H. simpl in *.
  rewrite (wrap64_id (s + r)) in H by (unfold_ranges; lia).
  rewrite (wrap64_id (_ - (s + r))) in H by (unfold_ranges; lia).
  destruct (Z.leb_spec (c_LimitMicroUSD item - (s + r)) 0) as [Hle|Hgt].
  { apply ret_ok in H as [<- _].
    rewrite (proj2 (Z.leb_le (c_LimitMicroUSD item) (s + r))) by lia. done. }
  rewrite (proj2 (Z.leb_gt (c_LimitMicroUSD item) (s + r))) by lia. simpl.
  replace (c_LimitMicroUSD item - (s + r) <? ri_EstimatedCostMicroUSD input)
    with (c_LimitMicroUSD item <? s + r + ri_EstimatedCostMicroUSD input) in H
    by (apply Bool.eq_iff_eq_true; rewrite !Z.ltb_lt; lia).
  destruct ((_ <? _) && (0 <? s + r)) eqn:Eb.
  { by apply ret_ok in H as [<- _]. }
  replace (if c_LimitMicroUSD item <? _ then _ else _)
    with (ri_EstimatedCostMicroUSD input `min` (c_LimitMicroUSD item - (s + r))) in H
    by (destruct (Z.ltb_spec (c_LimitMicroUSD item) (s + r + ri_EstimatedCostMicroUSD input)); lia).
  generalize dependent (ri_EstimatedCostMicroUSD input `min` (c_LimitMicroUSD item - (s + r))).
  intros amount H.
  destruct (amount =? 0) eqn:E0; [apply Z.eqb_eq in E0; subst amount|apply Z.eqb_neq in E0].
  { apply ret_ok in H as [<- <-]. split; [done|by eapply ensured_uncharged]. }
  apply bind_ok in H as ([] & w3 & H3 & H). apply stmt_ok in H3.
  apply bind_ok in H as (id & w4 & H4 & H). apply new_uuid_ok in H4.
  apply bind_ok in H as ([] & w5 & H5 & H). apply stmt_ok in H5.
  apply ret_ok in H as [<- <-]. rewrite H4 in H5. split; [done|].
  eapply ensured_charged; [exact He|].
  eapply charge_ok; [exact Hok2|exact E0|exact Hctr| | | |exact H3|exact H5]; [|done..].
  unfold reserved_row. simpl. by rewrite N.eqb_refl.
Qed.

(** ** The whole loop *)

(** What an admitted request leaves behind: every limit is charged once. *)
Record admitted (input : ReserveInput) (now : Z) (items : list constraint) (d d' : DB) : Prop := {
  admitted_frame : limits_frame d d';
  admitted_ledger : ledger_ok d';
  admitted_rows : ∃ new, d'.(cost_reservations) = d.(cost_reservations) ++ new ∧
    (∀ r, r ∈ new → reserved_row input.(ri_RequestID) r = true ∧
                    key_of_reservation r ∈ map (item_key input now) items) ∧
    (∀ item, item ∈ items →
       hits new (item_key input now item) = if charge d input now item =? 0 then 0 else 1);
  admitted_use item : item ∈ items → counter_use d' input now item =
    ((counter_use d input now item).1,
     (counter_use d input now item).2 + charge d input now item);
  admitted_others item : item_key input now item ∉ map (item_key input now) items →
    counter_use d' input now item = counter_use d input now item
}.

Lemma limits_frame_costs d d' : limits_frame d d' → d'.(cost_records) = d.(cost_records).
Proof. unfold limits_frame. destruct d, d'. simpl. intros H. by simplify_eq. Qed.

Lemma find_ext {A} (f g : A → bool) l : (∀ x, x ∈ l → f x = g x) → find f l = find g l.
Proof.
  intros Hfg. induction l as [|x l IH]; simpl; [done|]. rewrite (Hfg x) by by left. rewrite IH; [done|].
  intros y Hy. apply Hfg. by right.
Qed.

(** Charging one limit leaves the use of the others as it was. *)
Lemma charged_same input now item items amount d d' :
  item_key input now item ∉ map (item_key input now) items → charged_item input now item amount d d' →
  ∀ item', item' ∈ items → counter_use d' input now item' = counter_use d input now item'.
Proof.
  intros Hnew Hc item' Hin. apply (charged_others _ _ _ _ _ _ Hc). intros Heq. apply Hnew. rewrite <- Heq.
  by apply list_elem_of_In, in_map, list_elem_of_In.
Qed.

(** One limit is charged, and then the rest. *)
Lemma admitted_cons input now item items d d1 d' :
  item_key input now item ∉ map (item_key input now) items →
  charged_item input now item (charge d input now item) d d1 → admitted input now items d1 d' →
  admitted input now (item :: items) d d'.
Proof.
  intros Hfresh Hc [Hfr Hok' (new & Hrows & Hnewr & Hhits) Huse Hoth].
  pose proof (charged_same _ _ _ _ _ _ _ Hfresh Hc) as Hsame.
  destruct Hc as [Hfr1 Hok1 (new1 & Hrows1 & Hnew1 & Hlen1) Huse1 Hoth1]. split.
  - by eapply limits_frame_trans.
  - done.
  - exists (new1 ++ new). rewrite Hrows, Hrows1, app_assoc. split; [done|]. split.
    + intros r [Hr|Hr]%elem_of_app; simpl.
      * destruct (Hnew1 r Hr) as [? ->]. split; [done|by left].
      * destruct (Hnewr r Hr). split; [done|by right].
    + intros item' Hin. rewrite hits_app. apply elem_of_cons in Hin as [->|Hin].
      * rewrite (hits_all _ new1) by naive_solver. rewrite Hlen1, hits_none.
        -- by case_match.
        -- intros r Hr Hk. destruct (Hnewr r Hr) as [_ Hin]. congruence.
      * rewrite (Hhits item' Hin), hits_none; [by unfold charge, used; rewrite Hsame|].
        intros r Hr Hk. destruct (Hnew1 r Hr) as [_ Hk']. apply Hfresh. rewrite <- Hk', Hk.
        by apply list_elem_of_In, in_map, list_elem_of_In.
  - intros item' [->|Hin]%elem_of_cons.
    + rewrite Hoth by done. exact Huse1.
    + rewrite Huse by done. unfold charge, used. by rewrite Hsame.
  - intros item' Hni. simpl in Hni. apply not_elem_of_cons in Hni as [? ?]. by rewrite Hoth, Hoth1.
Qed.

Lemma reserveConstraints_ok input now items res w w' :
  0 <= input.(ri_EstimatedCostMicroUSD) →
  NoDup (map (item_key input now) items) →
  ledger_ok w.(w_db) → costs_nonneg w.(w_db) →
  (∀ item, item ∈ items → sane_item w.(w_db) input now item) →
  reserveConstraints input now items w = (Ok res, w') →
  match find (over_limit w.(w_db) input now) items with
  | Some item => res = blocked_by w.(w_db) input now item
  | None => res = allowedResult ∧ admitted input now items w.(w_db) w'.(w_db)
  end.
Proof.
  intros Hest. revert w. induction items as [|item items IH]; intros w Hnd Hok Hcn Hsane H; simpl in *.
  - apply ret_ok in H as [<- <-]. split; [done|]. split; [done..| | |done].
    + exists []. rewrite app_nil_r. split; [done|]. split; set_solver.
    + set_solver.
  - apply bind_ok in H as (o & w1 & H1 & H).
    apply list.NoDup_cons in Hnd as [Hnew Hnd].
    apply reserveConstraint_ok in H1; [|done..|by apply Hsane; left].
    destruct (over_limit (w_db w) input now item) eqn:Eo.
    { subst o. by apply ret_ok in H as [<- _]. }
    destruct H1 as [-> Hc]. pose proof (charged_same _ _ _ _ _ _ _ Hnew Hc) as Hsame.
    apply IH in H; [|done|by eapply charged_ledger| |]; last first.
    { intros item' Hin. destruct (Hsane item') as [? Hu]; [by right|]. split; [done|].
      unfold used in *. by rewrite Hsame. }
    { unfold costs_nonneg. by rewrite (limits_frame_costs _ _ (charged_frame _ _ _ _ _ _ Hc)). }
    rewrite (find_ext _ (over_limit (w_db w) input now)) in H by (intros item' Hin; unfold over_limit, used; by rewrite Hsame).
    destruct (find _ items) as [blk|] eqn:Ef.
    + rewrite H. unfold blocked_by, used. apply find_some in Ef as [Hin _]. rewrite Hsame; [done|by apply list_elem_of_In].
    + destruct H as [-> Ha]. split; [done|]. by eapply admitted_cons.
Qed.

(** ** The constraints are distinct *)

Lemma upsert_min_keys p l acc x :
  x ∈ map fst (upsert_min p l acc) ↔ x = p ∨ x ∈ map fst acc.
Proof.
  induction acc as [|[q m] acc IH]; simpl; [set_solver|].
  destruct (String.compare p q) eqn:E; simpl; [|set_solver|].
  - apply String.compare_eq_iff in E as ->. set_solver.
  - rewrite !elem_of_cons, IH. tauto.
Qed.

Definition str_lt (a b : string) : Prop := String.compare a b = Lt.

Lemma str_lt_trans a b c : str_lt a b → str_lt b c → str_lt a c.
Proof.
  unfold str_lt. revert b c. induction a as [|x a IH]; intros [|y b] [|z c]; simpl; try done.
  unfold Ascii.compare. intros H1 H2.
  destruct (N.compare_spec (Ascii.N_of_ascii x) (Ascii.N_of_ascii y)),
    (N.compare_spec (Ascii.N_of_ascii y) (Ascii.N_of_ascii z)),
    (N.compare_spec (Ascii.N_of_ascii x) (Ascii.N_of_ascii z)); try done; try lia; eauto.
Qed.

Lemma str_lt_irrefl a : ¬ str_lt a a.
Proof.
  unfold str_lt.
  induction a as [|x a IH]; simpl; [done|]. unfold Ascii.compare. by rewrite N.compare_refl.
Qed.

Lemma upsert_min_sorted p l acc :
  StronglySorted str_lt (map fst acc) → StronglySorted str_lt (map fst (upsert_min p l acc)).
Proof.
  induction acc as [|[q m] acc IH]; intros Hs; simpl; [repeat constructor|].
  simpl in Hs. apply StronglySorted_inv in Hs as [Hs Hq]. rewrite List.Forall_forall in Hq.
  destruct (String.compare p q) eqn:E; simpl.
  - constructor; [done|by apply List.Forall_forall].
  - constructor; [constructor; [done|by apply List.Forall_forall]|].
    constructor; [done|]. apply List.Forall_forall. intros x Hx. eapply str_lt_trans; [exact E|auto].
  - constructor; [auto|]. apply List.Forall_forall. intros x Hx.
    apply list_elem_of_In, upsert_min_keys in Hx as [->|Hx].
    + unfold str_lt. rewrite String.compare_antisym, E. done.
    + apply Hq. by apply list_elem_of_In.
Qed.

Lemma group_min_sorted rows : StronglySorted str_lt (map fst (group_min rows)).
Proof. induction rows as [|r rows IH]; simpl; [constructor|]. by apply upsert_min_sorted. Qed.

Lemma sorted_NoDup (l : list string) : StronglySorted str_lt l → NoDup l.
Proof.
  induction 1 as [|x l Hs IH Hx]; constructor; [|done]. intros Hin.
  rewrite List.Forall_forall in Hx. apply (str_lt_irrefl x), Hx. by apply list_elem_of_In.
Qed.

Lemma NoDup_map_via {A B C} (f : A → B) (g : A → C) l :
  NoDup (map f l) → (∀ x y, g x = g y → f x = f y) → NoDup (map g l).
Proof.
  intros Hnd Hfg. induction l as [|x l IH]; simpl in *; [constructor|].
  apply list.NoDup_cons in Hnd as [Hx Hnd]. constructor; [|auto]. intros Hin. apply Hx.
  apply list_elem_of_In, in_map_iff in Hin as (y & Hy & Hin).
  rewrite <- (Hfg _ _ Hy). by apply list_elem_of_In, in_map.
Qed.

Lemma org_constraints_spec d orgID item :
  item ∈ org_constraints orgID d → item.(c_ScopeType) = ScopeTypeOrg ∧ item.(c_ScopeID) = orgID.
Proof. intros H. apply list_elem_of_In, in_map_iff in H as ([p l] & <- & _). done. Qed.

Lemma key_constraints_spec apiKeyID k item :
  item ∈ key_constraints apiKeyID k →
  item.(c_ScopeType) = ScopeTypeAPIKey ∧ item.(c_ScopeID) = apiKeyID ∧
  k.(ApiKey_QuotaAction) = ActionBlock ∧
  ((item.(c_Period) = PeriodDaily ∧ k.(ApiKey_DailyCostLimitMicroUsd) = Some item.(c_LimitMicroUSD)) ∨
   (item.(c_Period) = PeriodMonthly ∧ k.(ApiKey_MonthlyCostLimitMicroUsd) = Some item.(c_LimitMicroUSD))).
Proof.
  unfold key_constraints. destruct (String.eqb _ _) eqn:E; [|set_solver]. eqb_to_prop.
  intros [H|H]%elem_of_app; case_match; try (by apply not_elem_of_nil in H);
    apply list_elem_of_singleton in H as ->; auto 6.
Qed.

Lemma blocking_constraints_distinct d input now :
  NoDup (map (item_key input now) (blocking_constraints d input.(ri_OrgID) input.(ri_APIKeyID))).
Proof.
  apply (NoDup_map_via (λ i, (i.(c_ScopeType), i.(c_Period)))).
  2: { intros x y Heq. unfold item_key in Heq. injection Heq as ? ? ? ?. congruence. }
  unfold blocking_constraints. rewrite map_app. apply list.NoDup_app. split; [|split].
  - unfold org_constraints. rewrite map_map. simpl.
    eapply NoDup_map_via; [apply sorted_NoDup, group_min_sorted|].
    intros x y Heq. by injection Heq.
  - intros x Hx Hk. apply list_elem_of_In, in_map_iff in Hx as (i & <- & Hi).
    apply list_elem_of_In, org_constraints_spec in Hi as [Ho _].
    case_match; [|by apply not_elem_of_nil in Hk].
    apply list_elem_of_In, in_map_iff in Hk as (j & Hj & Hi).
    apply list_elem_of_In, key_constraints_spec in Hi as [Hs _]. unfold ScopeTypeOrg, ScopeTypeAPIKey in *. congruence.
  - case_match; [|constructor]. unfold key_constraints.
    destruct (String.eqb _ _); [|constructor].
    destruct (ApiKey_DailyCostLimitMicroUsd _), (ApiKey_MonthlyCostLimitMicroUsd _);
      repeat constructor; set_solver.
Qed.

(** [GROUP BY period] with [MIN]: each period of the rows once, with its
    smallest limit. *)
Lemma upsert_min_lookup p l acc q m :
  StronglySorted str_lt (map fst acc) →
  (q, m) ∈ upsert_min p l acc ↔
  (q ≠ p ∧ (q, m) ∈ acc) ∨
  (q = p ∧ ((p ∉ map fst acc ∧ m = l) ∨ ∃ m', (p, m') ∈ acc ∧ m = Z.min m' l)).
Proof.
  induction acc as [|[q' m'] acc IH]; intros Hs; simpl; [set_solver|].
  simpl in Hs. apply StronglySorted_inv in Hs as [Hs Hq]. rewrite List.Forall_forall in Hq.
  assert (Hlt : ∀ x n, (x, n) ∈ acc → str_lt q' x).
  { intros x n Hin. apply Hq, in_map_iff. exists (x, n). split; [done|]. by apply list_elem_of_In. }
  assert (Hlt' : ∀ x, x ∈ map fst acc → str_lt q' x) by (intros; by apply Hq, list_elem_of_In).
  destruct (String.compare p q') eqn:E; simpl.
  - apply String.compare_eq_iff in E as ->. rewrite !elem_of_cons. split.
    + intros [[= -> ->]|Hin].
      { right. split; [done|]. right. exists m'. split; [by left|done]. }
      left. split; [|auto]. intros ->. by apply (str_lt_irrefl q'), (Hlt q' m).
    + intros [[Hne [[= -> ->]|Hin]]|[-> [[Hni _]|(n & [[= ->]|Hin]%elem_of_cons & ->)]]]; auto; [done| |].
      * exfalso. apply Hni. by left.
      * exfalso. by apply (str_lt_irrefl q'), (Hlt q' n).
  - assert (Hp : p ∉ q' :: map fst acc).
    { intros [->|Hin]%elem_of_cons.
      - by apply (str_lt_irrefl q').
      - apply (str_lt_irrefl p). eapply str_lt_trans; [exact E|by apply Hlt']. }
    assert (Hp' : ∀ n, (p, n) ∉ (q', m') :: acc).
    { intros n Hin. apply Hp. change (q' :: map fst acc) with (map fst ((q', m') :: acc)).
      apply list_elem_of_In, in_map_iff. exists (p, n). split; [done|by apply list_elem_of_In]. }
    rewrite elem_of_cons. split.
    + intros [[= -> ->]|Hin]; [right; auto|]. left. split; [|done]. intros ->. by apply (Hp' m).
    + intros [[Hne Hin]|[-> [[_ ->]|(n & Hin & ->)]]]; auto. by apply Hp' in Hin.
  - assert (p ≠ q') as Hne by (intros ->; by apply str_lt_irrefl with q';
      unfold str_lt; rewrite String.compare_antisym, E).
    rewrite !elem_of_cons, IH by done. split.
    + intros [[= -> ->]|[[? ?]|[-> [[? ->]|(n & ? & ->)]]]]; auto.
      * right. split; [done|]. left. split; [|done]. intros [?|?]; done.
      * right. split; [done|]. right. exists n. split; [by right|done].
    + intros [[? [[= -> ->]|?]]|[-> [[Hni ->]|(n & [[= -> ->]|?]%elem_of_cons & ->)]]]; auto; [|done|].
      * do 2 right. split; [done|]. left. auto.
      * do 2 right. split; [done|]. right. eauto.
Qed.

Lemma group_min_keys rows p : p ∈ map fst (group_min rows) ↔ p ∈ map fst rows.
Proof.
  induction rows as [|[q l] rows IH]; simpl; [done|]. rewrite upsert_min_keys, IH, elem_of_cons. done.
Qed.

Lemma elem_of_map_fst {A B} (l : list (A * B)) x : x ∈ map fst l ↔ ∃ y, (x, y) ∈ l.
Proof.
  rewrite list_elem_of_In, in_map_iff. split.
  - intros ([? y] & <- & Hin). exists y. by apply list_elem_of_In.
  - intros [y Hin]. exists (x, y). split; [done|by apply list_elem_of_In].
Qed.

Lemma group_min_lookup rows p l :
  (p, l) ∈ group_min rows ↔ (p, l) ∈ rows ∧ ∀ m, (p, m) ∈ rows → l <= m.
Proof.
  revert p l. induction rows as [|[q n] rows IH]; intros p l; simpl; [set_solver|].
  rewrite upsert_min_lookup by apply group_min_sorted. rewrite group_min_keys, elem_of_map_fst.
  split.
  - intros [[Hne [Hin Hmin]%IH]|[-> [[Hni ->]|(m & [Hin Hmin]%IH & ->)]]].
    + split; [by right|]. intros m [[= -> ->]|Hm]%elem_of_cons; [done|auto].
    + split; [by left|]. intros m [[= ->]|Hm]%elem_of_cons; [done|]. exfalso; eauto.
    + split.
      * destruct (Z.min_spec m n) as [[_ ->]|[_ ->]]; [by right|by left].
      * intros k [[= ->]|Hk]%elem_of_cons; [|apply Hmin in Hk]; lia.
  - intros [Hin Hmin]. destruct (decide (p = q)) as [->|Hne].
    + right. split; [done|].
      destruct (decide (q ∈ map fst (group_min rows))) as [Hq|Hq].
      * right. apply elem_of_map_fst in Hq as [m Hm]. exists m. split; [done|].
        apply IH in Hm as [Hm Hm'].
        assert (l <= n) by (apply Hmin; by left). assert (l <= m) by (apply Hmin; by right).
        apply elem_of_cons in Hin as [[= ->]|Hl]; [lia|]. apply Hm' in Hl. lia.
      * left. rewrite group_min_keys, elem_of_map_fst in Hq. split; [done|].
        apply elem_of_cons in Hin as [[= ->]|Hl]; [done|]. exfalso; eauto.
    + left. split; [done|]. apply IH. apply elem_of_cons in Hin as [[= -> ->]|Hin]; [done|].
      split; [done|]. intros m Hm. apply Hmin. by right.
Qed.

(** ** The method *)

Lemma pg_one_blocking d orgID apiKeyID k :
  pg_one (is_api_key orgID apiKeyID) d.(api_keys) = Ok k →
  blocking_constraints d orgID apiKeyID = org_constraints orgID d ++ key_constraints apiKeyID k.
Proof. rewrite pg_one_find. unfold blocking_constraints. intros H. case_all H. done. Qed.

(** The conditions under which the service's [int64] arithmetic is exact. *)
Definition sane_limits (d : DB) (input : ReserveInput) (now : Z) : Prop :=
  ledger_ok d ∧ costs_nonneg d ∧
  ∀ item, item ∈ blocking_constraints d input.(ri_OrgID) input.(ri_APIKeyID) →
    sane_item d input now item.

Lemma Reserve_ok input res w w' :
  sane_limits w.(w_db) input (w_now w) →
  Reserve input w = (Ok res, w') →
  match find (over_limit w.(w_db) input (w_now w))
          (blocking_constraints w.(w_db) input.(ri_OrgID) input.(ri_APIKeyID)) with
  | Some item => res = blocked_by w.(w_db) input (w_now w) item ∧ w'.(w_db) = w.(w_db)
  | None => res = allowedResult ∧
      admitted input (w_now w) (blocking_constraints w.(w_db) input.(ri_OrgID) input.(ri_APIKeyID))
        w.(w_db) w'.(w_db)
  end.
Proof.
  intros (Hok & Hcn & Hsane) H. unfold Reserve in H.
  destruct (_ =? Nil)%N; [by apply fail_ok in H|]. destruct (_ =? Nil)%N; [by apply fail_ok in H|].
  destruct (_ =? Nil)%N; [by apply fail_ok in H|]. destruct (_ <? 0) eqn:Eest; [by apply fail_ok in H|].
  apply Z.ltb_ge in Eest.
  apply WithTx_ok in H as (w1 & w2 & Hd1 & Hn1 & H & ->).
  apply bind_ok in H as (cs & w3 & H3 & H).
  apply bind_ok in H3 as (items & w4 & H4 & H3).
  pose proof (query_now _ _ _ _ H4) as Hn4. apply query_ok in H4 as [[= <-] Hd4].
  apply bind_ok in H3 as (key & w5 & H5 & H3).
  pose proof (query_now _ _ _ _ H5) as Hn5. apply query_ok in H5 as [H5 Hd5].
  apply ret_ok in H3 as [<- <-].
  assert (Hd : w5.(w_db) = w.(w_db)) by congruence.
  assert (Hn : w_now w5 = w_now w) by congruence.
  rewrite Hd4 in H5. rewrite <- (pg_one_blocking _ _ _ _ H5), Hd1 in H.
  set (cs := blocking_constraints _ _ _) in *. rewrite <- Hd, <- Hn in *. clear Hd1 Hn1 Hd4 Hn4 H5 Hd Hn.
  assert (Hrun : (match cs with [] => allowedResult = res ∧ w5 = w2 | _ => True end) ∧
    ∃ w6, w6.(w_db) = w5.(w_db) ∧ reserveConstraints input (w_now w5) cs w6 = (Ok res, w2)).
  { destruct cs as [|c cs'].
    - apply ret_ok in H as [<- <-]. split; [done|]. by exists w5.
    - apply bind_ok in H as (now & w6 & H6 & H). split; [done|].
      pose proof (clock_now _ _ _ H6) as ->. apply clock_ok in H6. by exists w6. }
  destruct Hrun as (_ & w6 & Hd6 & Hrun). rewrite <- Hd6.
  apply reserveConstraints_ok in Hrun; [|done|apply blocking_constraints_distinct|by rewrite Hd6..|];
    last first.
  { rewrite Hd6. exact Hsane. }
  destruct (find _ cs); [|by destruct Hrun as [-> Hrun]].
  rewrite Hrun. done.
Qed.

(** Whatever happens, a call that does not admit the request leaves the
    database as it was. *)
Lemma Reserve_no_trace input w :
  (∀ res, (Reserve input w).1 = Ok res → res.(rr_Allowed) = false) →
  ((Reserve input w).2).(w_db) = w.(w_db).
Proof.
  unfold Reserve. intros H. repeat case_match; try done. by apply WithTx_rollback.
Qed.

(** The windowless part of the ledger: [Reserve] keeps it with no assumption
    on the amounts at all. *)
Lemma reserveConstraint_ledger input now item o w w' :
  ledger_ok w.(w_db) → reserveConstraint input now item w = (Ok o, w') →
  limits_frame w.(w_db) w'.(w_db) ∧ ledger_ok w'.(w_db).
Proof.
  intros Hok H. unfold reserveConstraint in H.
  apply bind_ok in H as ([ws we] & w1 & H1 & H). apply lift_ok in H1 as [Hw <-].
  assert (Hwin : window_of now item = (ws, we)) by (unfold window_of; by rewrite Hw).
  apply bind_ok in H as (st & w2 & H2 & H).
  replace ws with (window_of now item).1 in H2, H by (by rewrite Hwin).
  replace we with (window_of now item).2 in H2, H by (by rewrite Hwin).
  apply ensure_ok in H2 as [Hfr Hok2 Hrs Huse Hst Hctr]; [|done].
  destruct (_ <=? 0); [by apply ret_ok in H as [<- <-]|].
  destruct (_ && _); [by apply ret_ok in H as [<- <-]|].
  destruct (_ =? 0) eqn:E0; [by apply ret_ok in H as [<- <-]|]. apply Z.eqb_neq in E0. revert E0 H.
  generalize dependent (if c_LimitMicroUSD item -₆₄ (cs_SettledMicroUSD st +₆₄ cs_ReservedMicroUSD st) <?
    ri_EstimatedCostMicroUSD input
    then c_LimitMicroUSD item -₆₄ (cs_SettledMicroUSD st +₆₄ cs_ReservedMicroUSD st)
    else ri_EstimatedCostMicroUSD input). intros amount E0 H.
  apply bind_ok in H as ([] & w3 & H3 & H). apply stmt_ok in H3.
  apply bind_ok in H as (id & w4 & H4 & H). apply new_uuid_ok in H4.
  apply bind_ok in H as ([] & w5 & H5 & H). apply stmt_ok in H5.
  apply ret_ok in H as [_ <-]. rewrite H4 in H5.
  assert (Hch : charged_item input now item amount w2.(w_db) w5.(w_db)).
  { eapply charge_ok; [exact Hok2|exact E0|exact Hctr| | | |exact H3|exact H5]; [|done..].
    unfold reserved_row. simpl. by rewrite N.eqb_refl. }
  destruct Hch as [Hfr5 Hok5 _ _ _]. split; [by eapply limits_frame_trans|done].
Qed.

Lemma reserveConstraints_ledger input now items res w w' :
  ledger_ok w.(w_db) → reserveConstraints input now items w = (Ok res, w') →
  limits_frame w.(w_db) w'.(w_db) ∧ ledger_ok w'.(w_db).
Proof.
  revert w. induction items as [|item items IH]; intros w Hok H; simpl in H.
  - by apply ret_ok in H as [<- <-].
  - apply bind_ok in H as (o & w1 & H1 & H).
    apply reserveConstraint_ledger in H1 as [Hfr1 Hok1]; [|done].
    destruct o; [by apply ret_ok in H as [<- <-]|].
    apply IH in H as [Hfr Hok']; [|done]. split; [by eapply limits_frame_trans|done].
Qed.

Lemma Reserve_ledger input r w w' :
  ledger_ok w.(w_db) → Reserve input w = (r, w') →
  limits_frame w.(w_db) w'.(w_db) ∧ ledger_ok w'.(w_db).
Proof.
  intros Hok H. destruct r as [res|e]; last first.
  { pose proof (Reserve_no_trace input w) as Hd. rewrite H in Hd. simpl in Hd. rewrite Hd by done. done. }
  unfold Reserve in H.
  do 3 (destruct (_ =? Nil)%N; [by apply fail_ok in H|]). destruct (_ <? 0); [by apply fail_ok in H|].
  apply WithTx_ok in H as (w1 & w2 & Hd1 & Hn1 & H & ->). destruct (rr_Allowed res); [|done].
  apply bind_ok in H as (cs & w3 & H3 & H).
  apply bind_ok in H3 as (items & w4 & H4 & H3). apply query_ok in H4 as [_ Hd4].
  apply bind_ok in H3 as (key & w5 & H5 & H3). apply query_ok in H5 as [_ Hd5].
  apply ret_ok in H3 as [_ <-].
  assert (Hd : w5.(w_db) = w.(w_db)) by congruence. rewrite <- Hd in *.
  destruct cs; [by apply ret_ok in H as [_ <-]|].
  apply bind_ok in H as (now & w6 & H6 & H). apply clock_ok in H6. rewrite <- H6 in *.
  by eapply reserveConstraints_ledger.
Qed.
