(* ===== verification/LimitsSpec.v ===== *)
(** * The contract of the reservation service

    The theorems a caller of [limits.ReservationService] relies on: the ledger
    balances in every reachable state, a reservation is granted exactly when
    every blocking limit has room and never overdraws one, and a settlement or
    a release undoes exactly what the reservation did. *)

From S2P Require Import Prelude GoTime Costing Store ExampleWorld Limits LimitsLedger LimitsReserve.

(** ** Reachable states

    The service's calls in any order and with any arguments, succeeding or
    failing, interleaved with anything that does not touch its two tables. *)
Inductive ledger_step : world → world → Prop :=
| step_reserve input w : ledger_step w (Reserve input w).2
| step_settle requestID actual w : ledger_step w (Settle requestID actual w).2
| step_release requestID w : ledger_step w (Release requestID w).2
| step_other w w' :
    w'.(w_db).(cost_limit_counters) = w.(w_db).(cost_limit_counters) →
    w'.(w_db).(cost_reservations) = w.(w_db).(cost_reservations) →
    ledger_step w w'.

Lemma ledger_ok_tables d d' :
  d'.(cost_limit_counters) = d.(cost_limit_counters) →
  d'.(cost_reservations) = d.(cost_reservations) → ledger_ok d → ledger_ok d'.
Proof.
  intros Hc Hr [H1 H2 H3 H4 H5 H6 H7]. unfold outstanding, has_counter in *.
  split; unfold outstanding, has_counter; rewrite ?Hc, ?Hr; done.
Qed.

Lemma ledger_step_ok w w' : ledger_step w w' → ledger_ok w.(w_db) → ledger_ok w'.(w_db).
Proof.
  intros [input w1|req a w1|req w1|w1 w2 Hc Hr] Hok.
  - destruct (Reserve input w1) as [r w2] eqn:E. by apply Reserve_ledger in E as [_ ?].
  - destruct (Settle req a w1) as [r w2] eqn:E. simpl.
    apply Settle_cases in E as [(e & _ & ->)|(_ & _ & [])]; done.
  - destruct (Release req w1) as [r w2] eqn:E. simpl.
    apply Release_cases in E as [(e & _ & ->)|(_ & [])]; done.
  - by apply (ledger_ok_tables w1.(w_db)).
Qed.

(** C1: in every state reachable from empty reservation tables, whatever calls
    failed on the way, each counter's reserved amount is the sum of the
    reservations still open on it, nothing is negative, no window has two
    counters and every open reservation has its counter; so the [GREATEST] in
    the settlement and release updates never hides a lost amount. *)
Theorem ledger_balanced (w w' : world) :
  w.(w_db).(cost_limit_counters) = [] → w.(w_db).(cost_reservations) = [] →
  rtc ledger_step w w' →
  (∀ c, c ∈ w'.(w_db).(cost_limit_counters) →
     c.(CostLimitCounter_ReservedMicroUsd) = outstanding w'.(w_db) (key_of_counter c) ∧
     0 <= c.(CostLimitCounter_ReservedMicroUsd) ∧ 0 <= c.(CostLimitCounter_SettledMicroUsd)) ∧
  NoDup (map key_of_counter w'.(w_db).(cost_limit_counters)) ∧
  (∀ r, r ∈ w'.(w_db).(cost_reservations) → r.(CostReservation_Status) = "reserved" →
     has_counter w'.(w_db) (key_of_reservation r) ∧
     ∀ c, c ∈ w'.(w_db).(cost_limit_counters) → key_of_counter c = key_of_reservation r →
       r.(CostReservation_ReservedMicroUsd) <= c.(CostLimitCounter_ReservedMicroUsd)).
Proof.
  intros Hc Hr Hrtc.
  assert (Hok : ledger_ok w'.(w_db)).
  { assert (Hok : ledger_ok w.(w_db)).
    { split; rewrite ?Hc, ?Hr; simpl; try constructor; set_solver. }
    clear Hc Hr. induction Hrtc; eauto using ledger_step_ok. }
  split; [|split; [apply ledger_keys, Hok|]].
  - intros c Hin. rewrite (ledger_reserved _ Hok c Hin). split; [done|].
    split; [by apply outstanding_nonneg|by apply (ledger_settled _ Hok)].
  - intros r Hin Hst. split; [by apply (ledger_counters _ Hok)|]. intros c Hcin Hk.
    rewrite (ledger_reserved _ Hok c Hcin), Hk.
    assert (held (key_of_reservation r) r = r.(CostReservation_ReservedMicroUsd)) as <-.
    { unfold held. rewrite Hst, bool_decide_eq_true_2 by done. done. }
    apply sumZ_elem_le; [|done]. intros y Hy. unfold held.
    case_match; [by apply (ledger_amounts _ Hok)|done].
Qed.

(** C11: a [Reserve] that returns implements its specification: the first
    blocking limit without room is reported, with the amounts settled and
    reserved against it, and the database is left as it was; if there is none,
    every blocking limit is charged the estimate (cut to the limit when the
    window is empty) and no other counter moves. *)
Theorem Reserve_refines_spec (input : ReserveInput) (res : ReserveResult) (w w' : world) :
  sane_limits w.(w_db) input (w_now w) →
  Reserve input w = (Ok res, w') →
  match find (over_limit w.(w_db) input (w_now w))
          (blocking_constraints w.(w_db) input.(ri_OrgID) input.(ri_APIKeyID)) with
  | Some item => res = blocked_by w.(w_db) input (w_now w) item ∧ w'.(w_db) = w.(w_db)
  | None =>
      res = allowedResult ∧ limits_frame w.(w_db) w'.(w_db) ∧
      (∀ item, item ∈ blocking_constraints w.(w_db) input.(ri_OrgID) input.(ri_APIKeyID) →
         counter_use w'.(w_db) input (w_now w) item =
           ((counter_use w.(w_db) input (w_now w) item).1,
            (counter_use w.(w_db) input (w_now w) item).2 + charge w.(w_db) input (w_now w) item)) ∧
      (∀ item, item_key input (w_now w) item ∉ map (item_key input (w_now w))
           (blocking_constraints w.(w_db) input.(ri_OrgID) input.(ri_APIKeyID)) →
         counter_use w'.(w_db) input (w_now w) item = counter_use w.(w_db) input (w_now w) item)
  end.
Proof.
  intros Hs H. apply Reserve_ok in H; [|done]. destruct (find _ _); [done|].
  destruct H as [-> []]. auto.
Qed.

(** C16: an admitted request never overdraws a limit: after [Reserve] allows
    it, what is settled and reserved against each blocking limit of the
    organisation and of the key is still within that limit. *)
Theorem Reserve_within_limits (input : ReserveInput) (res : ReserveResult) (w w' : world) :
  sane_limits w.(w_db) input (w_now w) →
  Reserve input w = (Ok res, w') → res.(rr_Allowed) = true →
  ∀ item, item ∈ blocking_constraints w.(w_db) input.(ri_OrgID) input.(ri_APIKeyID) →
    used w'.(w_db) input (w_now w) item <= item.(c_LimitMicroUSD).
Proof.
  intros Hs H Hallowed item Hin. apply Reserve_ok in H; [|done].
  destruct (find _ _) as [i|] eqn:Ef; [destruct H as [-> _]; done|].
  destruct H as [_ [_ _ _ Huse _]]. unfold used at 1. rewrite Huse by done. simpl.
  apply list_elem_of_In in Hin. apply (find_none _ _ Ef) in Hin.
  unfold over_limit in Hin. apply orb_false_iff in Hin as [Hin _]. apply Z.leb_gt in Hin.
  unfold charge, used in *. lia.
Qed.

(** [Reserve] is all or nothing: unless it returns [Allowed], because it
    blocks, fails, or a statement or the commit is lost, the database is
    exactly what it was. *)
Theorem Reserve_all_or_nothing (input : ReserveInput) (w : world) :
  (∀ res, (Reserve input w).1 = Ok res → res.(rr_Allowed) = false) →
  ((Reserve input w).2).(w_db) = w.(w_db).
Proof. apply Reserve_no_trace. Qed.

(** ** Reserve followed by Settle or Release *)

Lemma counter_use_reserved d input now item :
  ledger_ok d → (counter_use d input now item).2 = outstanding d (item_key input now item).
Proof.
  intros Hok. unfold counter_use. destruct (find _ _) as [c|] eqn:E; simpl.
  - apply find_has_key in E as [Hin <-]. by apply (ledger_reserved _ Hok).
  - symmetry. apply sumZ_zero. intros r Hr. unfold held.
    destruct (String.eqb _ _ && _) eqn:Eh; [|done]. apply andb_true_iff in Eh as [Hst Hk]. eqb_to_prop.
    destruct (ledger_counters _ Hok r Hr Hst) as (c & Hc & Hkc).
    apply list_elem_of_In in Hc. apply (find_none _ _ E) in Hc.
    assert (has_key (item_key input now item) c = true) by (apply has_key_true; congruence). congruence.
Qed.

Lemma discharged_use req st a d d' input now item :
  ledger_ok d → discharged req st a d d' →
  counter_use d' input now item =
    ((counter_use d input now item).1 + a * hits (held_by req d) (item_key input now item),
     (counter_use d input now item).2 - charged (held_by req d) (item_key input now item)).
Proof.
  intros Hok [Hfr _ HF _ _]. rewrite (counter_use_frame _ _ _ _ _ _ _ Hfr HF); [by rewrite <- Z.add_opp_r|].
  destruct (decide (hits (held_by req d) (item_key input now item) = 0)) as [H0|Hne].
  - right. rewrite H0, charged_none; [lia|by apply hits_zero].
  - left. destruct (existsb (λ r, bool_decide (key_of_reservation r = item_key input now item))
                      (held_by req d)) eqn:E.
    + apply existsb_exists in E as (r & Hin & Hk). bool_to_prop. rewrite <- Hk.
      apply filter_In in Hin as [Hin Hrow]. apply (ledger_counters _ Hok); [by apply list_elem_of_In|].
      unfold reserved_row in Hrow. by eqb_to_prop.
    + exfalso. apply Hne, hits_none. intros r Hr Hk.
      rewrite <- not_true_iff_false, existsb_exists in E. apply E. exists r.
      split; [by apply list_elem_of_In|by apply bool_decide_eq_true].
Qed.

Lemma held_by_app req d d' new :
  d'.(cost_reservations) = d.(cost_reservations) ++ new →
  held_by req d' = held_by req d ++ List.filter (reserved_row req) new.
Proof. intros H. unfold held_by. by rewrite H, List.filter_app. Qed.

Lemma admitted_held input now items d d' :
  held_by input.(ri_RequestID) d = [] → admitted input now items d d' →
  ∃ new, d'.(cost_reservations) = d.(cost_reservations) ++ new ∧
    held_by input.(ri_RequestID) d' = new ∧
    ∀ item, item ∈ items →
      hits new (item_key input now item) = if charge d input now item =? 0 then 0 else 1.
Proof.
  intros Hnone [_ _ (new & Hrows & Hnew & Hhits) _ _]. exists new. split; [done|]. split; [|done].
  rewrite (held_by_app _ _ _ _ Hrows), Hnone. apply filter_all_bool. intros r Hr. by apply Hnew.
Qed.

Lemma outstanding_new d d' req new k :
  d'.(cost_reservations) = d.(cost_reservations) ++ new → held_by req d' = new →
  outstanding d' k = outstanding d k + charged new k.
Proof.
  intros Hrows Hheld. unfold outstanding. rewrite Hrows, sumZ_app. f_equal.
  apply sumZ_ext. intros r Hr. rewrite <- Hheld in Hr.
  apply list_elem_of_In, filter_In in Hr as [_ Hrow]. unfold reserved_row in Hrow.
  apply andb_true_iff in Hrow as [_ Hst]. unfold held, on_key. by rewrite Hst.
Qed.

Lemma closed_none req st l l' :
  st ≠ "reserved" → Forall2 (closed req st) l l' → List.filter (reserved_row req) l' = [].
Proof.
  intros Hst. induction 1 as [|r r' l l' Hr _ IH]; simpl; [done|].
  rewrite IH. unfold closed in Hr. destruct (reserved_row req r) eqn:E.
  - destruct Hr as [_ Hs]. unfold reserved_row. rewrite Hs, (proj2 (String.eqb_neq _ _) Hst).
    by rewrite andb_false_r.
  - subst r'. by rewrite E.
Qed.

Lemma discharged_none req st a d d' :
  st ≠ "reserved" → discharged req st a d d' → held_by req d' = [].
Proof. intros Hst []. by eapply closed_none. Qed.

(** Settling an admitted request moves its cost and nothing else: every
    limit it was charged to ends with the actual cost added to what is settled
    and with the reserved amount it had before the reservation, no reservation
    of the request stays open, and what other requests reserved is untouched. *)
Theorem Reserve_Settle_exact (input : ReserveInput) (res : ReserveResult) (actual : Z)
    (w w1 w2 w3 : world) :
  sane_limits w.(w_db) input (w_now w) → held_by input.(ri_RequestID) w.(w_db) = [] →
  Reserve input w = (Ok res, w1) → res.(rr_Allowed) = true →
  w2.(w_db) = w1.(w_db) → Settle input.(ri_RequestID) actual w2 = (Ok tt, w3) →
  0 <= actual ∧ held_by input.(ri_RequestID) w3.(w_db) = [] ∧
  ∀ item, item ∈ blocking_constraints w.(w_db) input.(ri_OrgID) input.(ri_APIKeyID) →
    counter_use w3.(w_db) input (w_now w) item =
      ((counter_use w.(w_db) input (w_now w) item).1 +
         (if charge w.(w_db) input (w_now w) item =? 0 then 0 else actual),
       (counter_use w.(w_db) input (w_now w) item).2).
Proof.
  intros Hs Hnone H Hal Hd HS. pose proof Hs as (Hok & _ & _).
  apply Reserve_ok in H; [|done]. destruct (find _ _); [destruct H as [-> _]; done|].
  destruct H as [_ Hadm]. pose proof (admitted_ledger _ _ _ _ _ Hadm) as Hok1.
  destruct (admitted_held _ _ _ _ _ Hnone Hadm) as (new & Hrows & Hheld & Hhits).
  rewrite <- Hd in Hadm, Hok1, Hrows, Hheld.
  apply Settle_cases in HS as [(e & ? & _)|(_ & Ha & Hdis)]; [done| |done].
  split; [done|]. split; [by eapply discharged_none; [|exact Hdis]|].
  intros item Hin. erewrite discharged_use by done.
  rewrite (admitted_use _ _ _ _ _ Hadm) by done. rewrite Hheld, Hhits by done.
  simpl. f_equal.
  - case_match; lia.
  - pose proof (counter_use_reserved w2.(w_db) input (w_now w) item Hok1) as Hr.
    rewrite (admitted_use _ _ _ _ _ Hadm) in Hr by done.
    rewrite (counter_use_reserved w.(w_db)) in * by done. simpl in Hr.
    rewrite (outstanding_new _ _ _ _ _ Hrows Hheld) in Hr. lia.
Qed.

(** Releasing an admitted request undoes its reservation: what is settled
    and reserved against every limit is what it was before [Reserve], and no
    reservation of the request stays open. *)
Theorem Reserve_Release_restores (input : ReserveInput) (res : ReserveResult) (w w1 w2 w3 : world) :
  sane_limits w.(w_db) input (w_now w) → held_by input.(ri_RequestID) w.(w_db) = [] →
  Reserve input w = (Ok res, w1) → res.(rr_Allowed) = true →
  w2.(w_db) = w1.(w_db) → Release input.(ri_RequestID) w2 = (Ok tt, w3) →
  held_by input.(ri_RequestID) w3.(w_db) = [] ∧
  ∀ item, item ∈ blocking_constraints w.(w_db) input.(ri_OrgID) input.(ri_APIKeyID) →
    counter_use w3.(w_db) input (w_now w) item = counter_use w.(w_db) input (w_now w) item.
Proof.
  intros Hs Hnone H Hal Hd HS. pose proof Hs as (Hok & _ & _).
  apply Reserve_ok in H; [|done]. destruct (find _ _); [destruct H as [-> _]; done|].
  destruct H as [_ Hadm]. pose proof (admitted_ledger _ _ _ _ _ Hadm) as Hok1.
  destruct (admitted_held _ _ _ _ _ Hnone Hadm) as (new & Hrows & Hheld & Hhits).
  rewrite <- Hd in Hadm, Hok1, Hrows, Hheld.
  apply Release_cases in HS as [(e & ? & _)|(_ & Hdis)]; [done| |done].
  split; [by eapply discharged_none; [|exact Hdis]|].
  intros item Hin. erewrite discharged_use by done.
  rewrite (admitted_use _ _ _ _ _ Hadm) by done. rewrite Hheld by done.
  apply injective_projections; simpl; [lia|].
  pose proof (counter_use_reserved w2.(w_db) input (w_now w) item Hok1) as Hr.
  rewrite (admitted_use _ _ _ _ _ Hadm) in Hr by done.
  rewrite (counter_use_reserved w.(w_db)) in * by done. simpl in Hr.
  rewrite (outstanding_new _ _ _ _ _ Hrows Hheld) in Hr. lia.
Qed.

(** The organisation's constraints are the query's [GROUP BY]: one for
    each period in which it has an active blocking budget, in strictly
    increasing order of period (so concurrent requests lock counters in the
    same order), with the smallest of the limits of that period. *)
Theorem org_constraints_tightest (orgID : uuid) (d : DB) :
  StronglySorted str_lt (map c_Period (org_constraints orgID d)) ∧
  ∀ item, item ∈ org_constraints orgID d ↔
    item.(c_ScopeType) = ScopeTypeOrg ∧ item.(c_ScopeID) = orgID ∧
    (∃ b, b ∈ d.(budgets) ∧ blocking_budget orgID b = true ∧
       b.(Budget_Period) = item.(c_Period) ∧ b.(Budget_LimitMicroUsd) = item.(c_LimitMicroUSD)) ∧
    (∀ b, b ∈ d.(budgets) → blocking_budget orgID b = true →
       b.(Budget_Period) = item.(c_Period) → item.(c_LimitMicroUSD) <= b.(Budget_LimitMicroUsd)).
Proof.
  unfold org_constraints. split.
  { rewrite map_map. simpl. apply group_min_sorted. }
  intros item. rewrite list_elem_of_In, in_map_iff.
  assert (Hrows : ∀ p l, (p, l) ∈ map (λ b, (Budget_Period b, Budget_LimitMicroUsd b))
      (List.filter (blocking_budget orgID) (budgets d)) ↔
    ∃ b, b ∈ d.(budgets) ∧ blocking_budget orgID b = true ∧ b.(Budget_Period) = p ∧ b.(Budget_LimitMicroUsd) = l).
  { intros p l. rewrite list_elem_of_In, in_map_iff. split.
    - intros (b & [= <- <-] & [Hb ?]%filter_In). exists b. by rewrite list_elem_of_In.
    - intros (b & Hb & ? & <- & <-). exists b. split; [done|]. apply filter_In. by rewrite <- list_elem_of_In. }
  set (rows := map _ (List.filter _ _)) in *. clearbody rows.
  split.
  - intros ([p l] & <- & Hin%list_elem_of_In%group_min_lookup). simpl.
    destruct Hin as [Hin Hmin]. repeat split; [by apply Hrows|].
    intros b Hb Hblk <-. apply Hmin, Hrows. eauto.
  - intros (Hs & Hi & Hb & Hmin). exists (c_Period item, c_LimitMicroUSD item).
    split; [destruct item; simpl in *; by subst|].
    apply list_elem_of_In, group_min_lookup. split; [by apply Hrows|].
    intros m (b & Hb' & Hblk & Hp & <-)%Hrows. by apply Hmin.
Qed.

(** ** A concrete run *)

Definition ex_input : ReserveInput := mkReserveInput 3%N 1%N 2%N 300.

Lemma ex_sane : sane_limits ex_world.(w_db) ex_input (w_now ex_world).
Proof.
  split; [split; simpl; try constructor; set_solver|]. split.
  - intros cr Hcr. simpl in Hcr. apply list_elem_of_singleton in Hcr as ->. simpl. lia.
  - intros item Hin.
    assert (H : Forall (λ i, 0 <= c_LimitMicroUSD i <= MaxInt64 ∧
        used ex_db ex_input (Day + 12 * Hour) i <= MaxInt64)
        (blocking_constraints ex_db 1%N 2%N)).
    { repeat constructor; vm_compute; congruence. }
    rewrite List.Forall_forall in H. apply H. by apply list_elem_of_In.
Qed.

Lemma ledger_balanced_witness :
  let w1 := (Reserve ex_input ex_world).2 in
  let w2 := (Settle 3%N 250 w1).2 in
  rtc ledger_step ex_world w2 ∧
  map CostLimitCounter_SettledMicroUsd w2.(w_db).(cost_limit_counters) = [450; 450] ∧
  (∀ c, c ∈ w2.(w_db).(cost_limit_counters) →
     c.(CostLimitCounter_ReservedMicroUsd) = outstanding w2.(w_db) (key_of_counter c) ∧
     0 <= c.(CostLimitCounter_ReservedMicroUsd) ∧ 0 <= c.(CostLimitCounter_SettledMicroUsd)).
Proof.
  intros w1 w2; subst w2 w1.
  assert (H : rtc ledger_step ex_world (Settle 3%N 250 (Reserve ex_input ex_world).2).2).
  { eapply rtc_l; [apply (step_reserve ex_input)|].
    eapply rtc_l; [apply (step_settle 3%N 250)|]. apply rtc_refl. }
  split; [exact H|]. split; [vm_compute; reflexivity|].
  exact (proj1 (ledger_balanced ex_world _ eq_refl eq_refl H)).
Defined.

Lemma Reserve_refines_spec_witness :
  let w' := (Reserve ex_input ex_world).2 in
  Reserve ex_input ex_world = (Ok allowedResult, w') ∧
  find (over_limit ex_db ex_input (Day + 12 * Hour)) (blocking_constraints ex_db 1%N 2%N) = None ∧
  limits_frame ex_db w'.(w_db).
Proof.
  intros w'; subst w'.
  assert (H : Reserve ex_input ex_world = (Ok allowedResult, (Reserve ex_input ex_world).2))
    by (apply run_eq; vm_compute; reflexivity).
  split; [exact H|]. pose proof (Reserve_refines_spec ex_input allowedResult ex_world _ ex_sane H) as Hr.
  assert (Hf : find (over_limit ex_db ex_input (Day + 12 * Hour)) (blocking_constraints ex_db 1%N 2%N) = None)
    by (vm_compute; reflexivity).
  split; [exact Hf|]. unfold w_now in Hr.
  change (w_clock ex_world (w_tick ex_world)) with (Day + 12 * Hour) in Hr.
  change (w_db ex_world) with ex_db in Hr.
  change (ri_OrgID ex_input) with 1%N in Hr. change (ri_APIKeyID ex_input) with 2%N in Hr.
  rewrite Hf in Hr. exact (proj1 (proj2 Hr)).
Defined.

Lemma Reserve_within_limits_witness :
  (Reserve ex_input ex_world).1 = Ok allowedResult ∧
  ∀ item, item ∈ blocking_constraints ex_db 1%N 2%N →
    used ((Reserve ex_input ex_world).2).(w_db) ex_input (Day + 12 * Hour) item <= item.(c_LimitMicroUSD).
Proof.
  split; [vm_compute; reflexivity|].
  apply (Reserve_within_limits ex_input allowedResult ex_world _ ex_sane).
  - apply run_eq; vm_compute; reflexivity.
  - reflexivity.
Defined.

(** A request that does not fit: 300 reserved and 700 more asked of a key
    limited to 800. *)
Lemma Reserve_all_or_nothing_witness :
  let input := mkReserveInput 4%N 1%N 2%N 700 in
  let w1 := (Reserve ex_input ex_world).2 in
  (Reserve input w1).1 = Ok (mkReserveResult false "org" "daily" 1000 500 300) ∧
  ((Reserve input w1).2).(w_db) = w1.(w_db).
Proof.
  intros input w1; subst w1 input.
  assert (H : (Reserve (mkReserveInput 4%N 1%N 2%N 700) (Reserve ex_input ex_world).2).1 = Ok (mkReserveResult false "org" "daily" 1000 500 300))
    by (vm_compute; reflexivity).
  split; [exact H|]. apply (Reserve_all_or_nothing).
  intros res Hres. rewrite H in Hres. injection Hres as <-. reflexivity.
Defined.

Lemma Reserve_Settle_exact_witness :
  let w1 := (Reserve ex_input ex_world).2 in
  let w3 := (Settle 3%N 250 w1).2 in
  held_by 3%N w3.(w_db) = [] ∧
  counter_use w3.(w_db) ex_input (Day + 12 * Hour) (mkconstraint "org" 1%N "daily" 1000) = (450, 0) ∧
  ∀ item, item ∈ blocking_constraints ex_db 1%N 2%N →
    counter_use w3.(w_db) ex_input (Day + 12 * Hour) item =
      ((counter_use ex_db ex_input (Day + 12 * Hour) item).1 +
         (if charge ex_db ex_input (Day + 12 * Hour) item =? 0 then 0 else 250),
       (counter_use ex_db ex_input (Day + 12 * Hour) item).2).
Proof.
  intros w1 w3; subst w3 w1.
  assert (H : 0 <= 250 ∧ held_by 3%N ((Settle 3%N 250 (Reserve ex_input ex_world).2).2).(w_db) = [] ∧
    ∀ item, item ∈ blocking_constraints ex_db 1%N 2%N →
    counter_use ((Settle 3%N 250 (Reserve ex_input ex_world).2).2).(w_db) ex_input (Day + 12 * Hour) item =
      ((counter_use ex_db ex_input (Day + 12 * Hour) item).1 +
         (if charge ex_db ex_input (Day + 12 * Hour) item =? 0 then 0 else 250),
       (counter_use ex_db ex_input (Day + 12 * Hour) item).2)).
  { apply (Reserve_Settle_exact ex_input allowedResult 250 ex_world (Reserve ex_input ex_world).2 (Reserve ex_input ex_world).2 _ ex_sane).
    - reflexivity.
    - apply run_eq; vm_compute; reflexivity.
    - reflexivity.
    - reflexivity.
    - apply run_eq; vm_compute; reflexivity. }
  split; [exact (proj1 (proj2 H))|]. split; [vm_compute; reflexivity|exact (proj2 (proj2 H))].
Defined.

Lemma Reserve_Release_restores_witness :
  let w1 := (Reserve ex_input ex_world).2 in
  let w3 := (Release 3%N w1).2 in
  held_by 3%N w1.(w_db) ≠ [] ∧ held_by 3%N w3.(w_db) = [] ∧
  ∀ item, item ∈ blocking_constraints ex_db 1%N 2%N →
    counter_use w3.(w_db) ex_input (Day + 12 * Hour) item =
    counter_use ex_db ex_input (Day + 12 * Hour) item.
Proof.
  intros w1 w3; subst w3 w1. split; [vm_compute; discriminate|].
  apply (Reserve_Release_restores ex_input allowedResult ex_world (Reserve ex_input ex_world).2 (Reserve ex_input ex_world).2 _ ex_sane).
  - reflexivity.
  - apply run_eq; vm_compute; reflexivity.
  - reflexivity.
  - reflexivity.
  - apply run_eq; vm_compute; reflexivity.
Defined.
