(* ===== verification/BudgetService.v ===== *)
(** * Budgets: [internal/budget/service.go]

    An organisation's budgets and what has been spent of them: creation,
    status of every budget with the usage of a period read once, and the
    advisory check the gateway makes before a request. *)

From S2P Require Import Prelude GoTime GoStrings Costing Store ExampleWorld.

Module BudgetService.

Definition ScopeTypeOrg : string := "org".
Definition PeriodDaily : string := "daily".
Definition PeriodMonthly : string := "monthly".
Definition ActionWarn : string := "warn".
Definition ActionBlock : string := "block".
Definition StatusActive : string := "active".
Definition StatusDisabled : string := "disabled".

Record CreateBudgetParams := mkCreateBudgetParams {
  cb_OrgID : uuid;
  cb_Name : string;
  cb_ScopeType : string;
  cb_Period : string;
  cb_LimitMicroUSD : Z;
  cb_Action : string
}.

Record Status := mkStatus {
  st_Budget : Budget;
  st_UsedMicroUSD : Z;
  st_RemainingMicroUSD : Z;
  st_Exceeded : bool;
  st_WindowStart : Z;
  st_WindowEnd : Z
}.

Record periodUsage := mkperiodUsage {
  pu_UsedMicroUSD : Z;
  pu_WindowStart : Z;
  pu_WindowEnd : Z
}.

Record CheckResult := mkCheckResult {
  cr_Allowed : bool;
  cr_Exceeded : bool;
  cr_Warning : bool;
  cr_Action : string;
  cr_Status : option Status
}.

(** ** Queries *)

(** The constraints of the table [budgets]. *)
Definition budget_check (b : Budget) : bool :=
  negb (String.eqb b.(Budget_Name) "")
  && String.eqb b.(Budget_ScopeType) "org"
  && (String.eqb b.(Budget_Period) "daily" || String.eqb b.(Budget_Period) "monthly")
  && (0 <=? b.(Budget_LimitMicroUsd))
  && (String.eqb b.(Budget_Action) "warn" || String.eqb b.(Budget_Action) "block")
  && (String.eqb b.(Budget_Status) "active" || String.eqb b.(Budget_Status) "disabled")
  && (negb (String.eqb b.(Budget_ScopeType) "org") || bool_decide (b.(Budget_ScopeID) = None)).

Definition insert_budget (b : Budget) (d : DB) : result (Budget * DB) :=
  _ ← pg_check (budget_check b);
  _ ← pg_unique (λ b', (b'.(Budget_ID) =? b.(Budget_ID))%N) d.(budgets);
  Ok (b, set_budgets (λ bs, bs ++ [b]) d).

(** [ORDER BY created_at DESC, id DESC]. *)
Definition newest_first (a b : Budget) : bool :=
  (b.(Budget_CreatedAt) <? a.(Budget_CreatedAt))
  || ((b.(Budget_CreatedAt) =? a.(Budget_CreatedAt)) && (b.(Budget_ID) <=? a.(Budget_ID))%N).

Definition list_budgets (orgID : uuid) (d : DB) : list Budget :=
  sort_by newest_first (List.filter (λ b, (b.(Budget_OrgID) =? orgID)%N) d.(budgets)).

(** [SUM(total_cost_micro)] of the organisation in [[start, end)]. *)
Definition used_amount (orgID : uuid) (start stop : Z) (d : DB) : Z :=
  sumZ CostRecord_TotalCostMicro
    (List.filter (λ c, (c.(CostRecord_OrgID) =? orgID)%N && (start <=? c.(CostRecord_CreatedAt))
                       && (c.(CostRecord_CreatedAt) <? stop)) d.(cost_records)).

Definition GetBudgetUsedAmount (orgID : uuid) (start stop : Z) : M Z :=
  query (λ d, pg_bigint (used_amount orgID start stop d)).

(** ** Operations *)

Definition CreateBudget (params : CreateBudgetParams) : M Budget :=
  let name := TrimSpace params.(cb_Name) in
  if String.eqb name "" then fail (EMsg "budget name is required")
  else if (params.(cb_OrgID) =? Nil)%N then fail (EMsg "org_id is required")
  else
    let scopeType := if String.eqb params.(cb_ScopeType) "" then ScopeTypeOrg else params.(cb_ScopeType) in
    if negb (String.eqb scopeType ScopeTypeOrg) then fail (EMsg "scope_type must be org")
    else if negb (String.eqb params.(cb_Period) PeriodDaily) && negb (String.eqb params.(cb_Period) PeriodMonthly)
    then fail (EMsg "period must be daily or monthly")
    else
      let action := if String.eqb params.(cb_Action) "" then ActionBlock else params.(cb_Action) in
      if negb (String.eqb action ActionWarn) && negb (String.eqb action ActionBlock)
      then fail (EMsg "action must be warn or block")
      else if params.(cb_LimitMicroUSD) <? 0 then fail (EMsg "limit_micro_usd must be non-negative")
      else
        now ← clock;
        id ← new_uuid;
        stmt (insert_budget (mkBudget id params.(cb_OrgID) name scopeType None params.(cb_Period)
                               params.(cb_LimitMicroUSD) action StatusActive now now)).

Definition ListBudgets (orgID : uuid) : M (list Budget) := query (λ d, Ok (list_budgets orgID d)).

Definition window_at (now : Z) (period : string) : result (Z * Z) :=
  if String.eqb period PeriodDaily then Ok (dayWindow now)
  else if String.eqb period PeriodMonthly then Ok (monthWindow now)
  else Err (EMsg "unsupported budget period").

Definition periodWindow (period : string) : M (Z * Z) :=
  now ← clock; lift (window_at now period).

(** The map [usageByPeriod] is [None] when the caller passes [nil]. *)
Definition usageForPeriod (orgID : uuid) (period : string) (usageByPeriod : option (gmap string periodUsage))
    : M (periodUsage * option (gmap string periodUsage)) :=
  match usageByPeriod ≫= λ m, m !! period with
  | Some usage => mret (usage, usageByPeriod)
  | None =>
      '(start, stop) ← periodWindow period;
      used ← GetBudgetUsedAmount orgID start stop;
      let usage := mkperiodUsage used start stop in
      mret (usage, (λ m, <[period := usage]> m) <$> usageByPeriod)
  end.

Definition statusForBudgetWithCache (item : Budget) (usageByPeriod : option (gmap string periodUsage))
    : M (Status * option (gmap string periodUsage)) :=
  '(usage, cache) ← usageForPeriod item.(Budget_OrgID) item.(Budget_Period) usageByPeriod;
  let remaining := item.(Budget_LimitMicroUsd) -₆₄ usage.(pu_UsedMicroUSD) in
  let remaining := if remaining <? 0 then 0 else remaining in
  mret (mkStatus item usage.(pu_UsedMicroUSD) remaining
          (item.(Budget_LimitMicroUsd) <=? usage.(pu_UsedMicroUSD))
          usage.(pu_WindowStart) usage.(pu_WindowEnd), cache).

Definition statusForBudget (item : Budget) : M Status :=
  '(status, _) ← statusForBudgetWithCache item None;
  mret status.

Definition GetStatus (orgID : uuid) : M (list Status) :=
  items ← ListBudgets orgID;
  '(statuses, _) ← forM items ([], Some ∅) (λ '(statuses, cache) item,
      '(status, cache') ← statusForBudgetWithCache item cache;
      mret (statuses ++ [status], cache'));
  mret statuses.

(** The loop of [Check] over the statuses. *)
Fixpoint checkStatuses (statuses : list Status) (result : CheckResult) : CheckResult :=
  match statuses with
  | [] => result
  | status :: rest =>
      if negb (String.eqb status.(st_Budget).(Budget_Status) StatusActive) || negb status.(st_Exceeded)
      then checkStatuses rest result
      else if String.eqb status.(st_Budget).(Budget_Action) ActionBlock then
        mkCheckResult false true false ActionBlock (Some status)
      else if String.eqb status.(st_Budget).(Budget_Action) ActionWarn then
        if negb result.(cr_Warning) then
          checkStatuses rest (mkCheckResult result.(cr_Allowed) true true ActionWarn (Some status))
        else checkStatuses rest result
      else checkStatuses rest result
  end.

Definition Check (orgID : uuid) : M CheckResult :=
  statuses ← GetStatus orgID;
  mret (checkStatuses statuses (mkCheckResult true false false "" None)).

(** ** Specification *)

(** The usage of a period at an instant. *)
Definition usage_at (d : DB) (orgID : uuid) (now : Z) (period : string) : option periodUsage :=
  match window_at now period with
  | Ok (start, stop) => Some (mkperiodUsage (used_amount orgID start stop d) start stop)
  | Err _ => None
  end.

(** The status of a budget whose period has that usage: what is left is never
    negative, and the budget is exceeded as soon as it is used up. *)
Definition status_of (b : Budget) (u : periodUsage) : Status :=
  mkStatus b u.(pu_UsedMicroUSD) (Z.max (b.(Budget_LimitMicroUsd) - u.(pu_UsedMicroUSD)) 0)
    (b.(Budget_LimitMicroUsd) <=? u.(pu_UsedMicroUSD)) u.(pu_WindowStart) u.(pu_WindowEnd).

(** One status per budget, all those of a period computed from one reading of
    the clock and one sum. *)
Definition status_report (d : DB) (orgID : uuid) (readings : nat → Z) (sts : list Status) : Prop :=
  ∃ m : gmap string periodUsage,
    (∀ p u, m !! p = Some u → ∃ n, usage_at d orgID (readings n) p = Some u) ∧
    Forall2 (λ b s, ∃ u, m !! b.(Budget_Period) = Some u ∧ s = status_of b u) (list_budgets orgID d) sts.

Definition blocking (s : Status) : bool :=
  String.eqb s.(st_Budget).(Budget_Status) StatusActive && s.(st_Exceeded)
  && String.eqb s.(st_Budget).(Budget_Action) ActionBlock.
Definition warning (s : Status) : bool :=
  String.eqb s.(st_Budget).(Budget_Status) StatusActive && s.(st_Exceeded)
  && String.eqb s.(st_Budget).(Budget_Action) ActionWarn.

Definition verdict (sts : list Status) : CheckResult :=
  match find blocking sts with
  | Some s => mkCheckResult false true false ActionBlock (Some s)
  | None =>
      match find warning sts with
      | Some s => mkCheckResult true true true ActionWarn (Some s)
      | None => mkCheckResult true false false "" None
      end
  end.

(** The amounts the columns of the tables hold. *)
Definition amounts_ok (d : DB) : Prop :=
  (∀ b, b ∈ d.(budgets) → 0 <= b.(Budget_LimitMicroUsd) <= MaxInt64) ∧
  (∀ c, c ∈ d.(cost_records) → 0 <= c.(CostRecord_TotalCostMicro)).

(** ** Proofs *)

Lemma window_at_contains now p s e : window_at now p = Ok (s, e) → s <= now < e.
Proof.
  unfold window_at. intros H.
  destruct (String.eqb p PeriodDaily); [|destruct (String.eqb p PeriodMonthly); [|done]]; apply Ok_inj in H.
  - pose proof (dayWindow_contains now) as Hd. by rewrite H in Hd.
  - pose proof (monthWindow_contains now) as Hd. by rewrite H in Hd.
Qed.

Lemma used_amount_nonneg orgID start stop d : amounts_ok d → 0 <= used_amount orgID start stop d.
Proof.
  intros [_ H]. apply sumZ_nonneg. intros c Hc. apply H, list_elem_of_In.
  by apply list_elem_of_In, filter_In in Hc as [? _].
Qed.

Lemma usageForPeriod_ok orgID p (m : gmap string periodUsage) w u c w' :
  usageForPeriod orgID p (Some m) w = (Ok (u, c), w') →
  w_db w' = w_db w ∧ w_clock w' = w_clock w ∧
  ∃ m', c = Some m' ∧ m' !! p = Some u ∧ (∀ q v, m !! q = Some v → m' !! q = Some v) ∧
    (∀ q v, m' !! q = Some v → m !! q = Some v ∨
       q = p ∧ in64 v.(pu_UsedMicroUSD) ∧ ∃ n, usage_at (w_db w) orgID (w_clock w n) q = Some v).
Proof.
  unfold usageForPeriod. simpl. destruct (m !! p) as [v|] eqn:E; intros H.
  - apply ret_ok in H as [[= <- <-] <-]. split; [done|]. split; [done|]. exists m. naive_solver.
  - apply bind_ok in H as ([s e] & w1 & H1 & H). apply bind_ok in H1 as (now & w2 & Hc & Hl).
    apply clock_reading in Hc as (-> & Hck & Hdb). apply lift_ok in Hl as [Hw <-].
    apply bind_ok in H as (used & w3 & Hq & H). pose proof (stmt_clock _ _ _ _ Hq) as Hck3.
    apply query_ok in Hq as [Hu Hdb3]. apply pg_bigint_ok in Hu as [-> Hr].
    apply ret_ok in H as [[= <- <-] <-]. rewrite Hdb3, Hck3, Hdb, Hck. split; [done|]. split; [done|].
    eexists. split; [done|]. split; [by rewrite lookup_insert, decide_True|]. split.
    + intros q v Hq. rewrite lookup_insert_ne; [done|]. congruence.
    + intros q v Hv. destruct (decide (q = p)) as [->|Hne].
      * right. rewrite lookup_insert, decide_True in Hv by done. injection Hv as <-.
        rewrite Hdb in Hr. split; [done|]. split; [exact Hr|]. exists (w_tick w).
        unfold usage_at. unfold w_now in Hw. by rewrite Hw, ?Hdb.
      * left. by rewrite lookup_insert_ne in Hv.
Qed.

Lemma status_wrap (b : Budget) (u : periodUsage) :
  0 <= b.(Budget_LimitMicroUsd) <= MaxInt64 → 0 <= u.(pu_UsedMicroUSD) <= MaxInt64 →
  mkStatus b u.(pu_UsedMicroUSD)
    (if b.(Budget_LimitMicroUsd) -₆₄ u.(pu_UsedMicroUSD) <? 0 then 0
     else b.(Budget_LimitMicroUsd) -₆₄ u.(pu_UsedMicroUSD))
    (b.(Budget_LimitMicroUsd) <=? u.(pu_UsedMicroUSD)) u.(pu_WindowStart) u.(pu_WindowEnd) = status_of b u.
Proof.
  intros Hb Hu. unfold status_of. rewrite wrap64_id by (unfold_ranges; lia).
  destruct (Z.ltb_spec (b.(Budget_LimitMicroUsd) - u.(pu_UsedMicroUSD)) 0); f_equal; lia.
Qed.

Lemma GetStatus_loop orgID items acc (m : gmap string periodUsage) w sts c w' :
  amounts_ok (w_db w) →
  (∀ b, b ∈ items → b.(Budget_OrgID) = orgID ∧ b ∈ (w_db w).(budgets)) →
  (∀ p u, m !! p = Some u → in64 u.(pu_UsedMicroUSD) ∧
     ∃ n, usage_at (w_db w) orgID (w_clock w n) p = Some u) →
  forM items (acc, Some m) (λ '(statuses, cache) item,
      '(status, cache') ← statusForBudgetWithCache item cache;
      mret (statuses ++ [status], cache')) w = (Ok (sts, c), w') →
  w_db w' = w_db w ∧
  ∃ (m' : gmap string periodUsage) (new : list Status), (∀ q v, m !! q = Some v → m' !! q = Some v) ∧ sts = acc ++ new ∧
    (∀ p u, m' !! p = Some u → ∃ n, usage_at (w_db w) orgID (w_clock w n) p = Some u) ∧
    Forall2 (λ b s, ∃ u, m' !! b.(Budget_Period) = Some u ∧ s = status_of b u) items new.
Proof.
  intros Hamt. revert acc m w Hamt. induction items as [|b items IH]; intros acc m w Hamt Horg Hm H; simpl in H.
  - apply ret_ok in H as [[= <- <-] <-]. split; [done|]. exists m, []. rewrite app_nil_r.
    split; [done|]. split; [done|]. split; [|constructor].
    intros p u Hp. by apply Hm in Hp as [_ ?].
  - apply bind_ok in H as ([acc1 c1] & w1 & H1 & H).
    apply bind_ok in H1 as ([st c2] & w2 & H1 & Hr). apply ret_ok in Hr as [[= <- <-] <-].
    apply bind_ok in H1 as ([u c3] & w3 & H1 & Hr). apply ret_ok in Hr as [[= <- <-] <-].
    destruct (Horg b) as [Ho Hb]; [by left|]. rewrite Ho in H1.
    apply usageForPeriod_ok in H1 as (Hdb & Hck & m1 & -> & Hu & Hsub & Hnew).
    assert (Hm1 : ∀ p v, m1 !! p = Some v → in64 v.(pu_UsedMicroUSD) ∧
      ∃ n, usage_at (w_db w) orgID (w_clock w n) p = Some v) by (intros p v Hv; destruct (Hnew p v Hv) as [Hv'|(_ & ? & ?)]; [by apply Hm|done]).
    apply IH in H as (Hdb' & m' & new & Hsub' & -> & Hgood & HF); [|by rewrite Hdb| |by rewrite Hdb, Hck].
    2: { rewrite Hdb. intros b' Hb'. apply Horg. by right. }
    split; [congruence|]. rewrite Hdb, Hck in Hgood. exists m'. eexists. split; [eauto|].
    rewrite <- app_assoc. split; [done|]. split; [done|]. constructor; [|done].
    exists u. split; [eauto|]. destruct (Hm1 _ _ Hu) as [Hr [n Hn]].
    apply status_wrap; [by apply Hamt|]. clear Ho. unfold usage_at in Hn. case_all Hn.
    pose proof (used_amount_nonneg orgID z z0 (w_db w) Hamt). unfold_ranges. simpl in *. lia.
Qed.

Lemma list_budgets_elem orgID d b : b ∈ list_budgets orgID d → b.(Budget_OrgID) = orgID ∧ b ∈ d.(budgets).
Proof.
  unfold list_budgets. rewrite elem_of_sort_by. intros H.
  apply list_elem_of_In, filter_In in H as [H Ho]. eqb_to_prop. split; [done|]. by apply list_elem_of_In.
Qed.

Lemma GetStatus_ok orgID w sts w' :
  amounts_ok (w_db w) → GetStatus orgID w = (Ok sts, w') →
  w_db w' = w_db w ∧ status_report (w_db w) orgID (w_clock w) sts.
Proof.
  intros Hamt H. unfold GetStatus in H. apply bind_ok in H as (items & w1 & H1 & H).
  pose proof (stmt_clock _ _ _ _ H1) as Hck. apply query_ok in H1 as [[= <-] Hdb].
  apply bind_ok in H as ([sts' c] & w2 & H2 & H). apply ret_ok in H as [<- <-].
  rewrite <- Hdb, <- Hck in *. apply (GetStatus_loop orgID) in H2 as (Hdb2 & m & new & _ & -> & Hm & HF); [|done| |].
  - split; [done|]. by exists m.
  - by apply list_budgets_elem.
  - intros p u. by rewrite lookup_empty.
Qed.

Lemma checkStatuses_verdict sts r :
  checkStatuses sts r =
  match find blocking sts with
  | Some s => mkCheckResult false true false ActionBlock (Some s)
  | None =>
      if cr_Warning r then r
      else match find warning sts with
           | Some s => mkCheckResult (cr_Allowed r) true true ActionWarn (Some s)
           | None => r
           end
  end.
Proof.
  revert r. induction sts as [|s sts IH]; intros r; simpl; [by destruct (cr_Warning r)|].
  unfold blocking at 1, warning at 1.
  destruct (String.eqb (Budget_Status (st_Budget s)) StatusActive), (st_Exceeded s); simpl; try apply IH.
  destruct (String.eqb (Budget_Action (st_Budget s)) ActionBlock); [done|].
  destruct (String.eqb (Budget_Action (st_Budget s)) ActionWarn); [|apply IH].
  destruct (cr_Warning r) eqn:E; simpl; rewrite IH; simpl; [by rewrite E|done].
Qed.

Lemma Check_ok orgID w r w' :
  amounts_ok (w_db w) → Check orgID w = (Ok r, w') →
  w_db w' = w_db w ∧ ∃ sts, status_report (w_db w) orgID (w_clock w) sts ∧ r = verdict sts.
Proof.
  intros Hamt H. apply bind_ok in H as (sts & w1 & H1 & H). apply ret_ok in H as [<- <-].
  apply GetStatus_ok in H1 as [Hdb Hrep]; [|done]. split; [done|]. exists sts. split; [done|].
  rewrite checkStatuses_verdict. done.
Qed.

(** [GetStatus] reports one status per budget of the organisation, newest
    first: its usage is the sum of the costs recorded in a calendar window
    around a reading of the clock, budgets of one period share the same window
    and sum, what remains is never negative, and a budget counts as exceeded
    exactly when nothing remains. *)
Theorem GetStatus_exact (orgID : uuid) (w w' : world) (sts : list Status) :
  amounts_ok (w_db w) → GetStatus orgID w = (Ok sts, w') →
  w_db w' = w_db w ∧ map st_Budget sts = list_budgets orgID (w_db w) ∧
  (∀ s, s ∈ sts →
     (∃ n, usage_at (w_db w) orgID (w_clock w n) s.(st_Budget).(Budget_Period) =
             Some (mkperiodUsage s.(st_UsedMicroUSD) s.(st_WindowStart) s.(st_WindowEnd)) ∧
           s.(st_WindowStart) <= w_clock w n < s.(st_WindowEnd)) ∧
     0 <= s.(st_RemainingMicroUSD) ∧ (s.(st_Exceeded) = true ↔ s.(st_RemainingMicroUSD) = 0)) ∧
  (∀ s1 s2, s1 ∈ sts → s2 ∈ sts → s1.(st_Budget).(Budget_Period) = s2.(st_Budget).(Budget_Period) →
     s1.(st_UsedMicroUSD) = s2.(st_UsedMicroUSD) ∧ s1.(st_WindowStart) = s2.(st_WindowStart)).
Proof.
  intros Hamt H. apply GetStatus_ok in H as (Hdb & m & Hm & HF); [|done]. split; [done|].
  assert (Hs : ∀ s, s ∈ sts → ∃ u, m !! s.(st_Budget).(Budget_Period) = Some u ∧ s = status_of s.(st_Budget) u).
  { intros s Hs. destruct (Forall2_elem_r _ _ _ _ HF Hs) as (b & _ & u & Hu & ->). by exists u. }
  split; [|split].
  - clear -HF. induction HF as [|b s l l' (u & _ & ->) _ IH]; simpl; [done|]. by f_equal.
  - intros s Hin. destruct (Hs s Hin) as (u & Hu & ->). simpl. split; [|split; [lia|]].
    + destruct (Hm _ _ Hu) as [n Hn]. exists n. destruct u. split; [exact Hn|].
      unfold usage_at in Hn. destruct (window_at _ _) as [[s0 e0]|] eqn:Ew; [|done].
      injection Hn as _ <- <-. by apply window_at_contains in Ew.
    + rewrite Z.leb_le. lia.
  - intros s1 s2 H1 H2 Hp. destruct (Hs s1 H1) as (u1 & Hu1 & ->), (Hs s2 H2) as (u2 & Hu2 & ->).
    simpl in *. rewrite Hp in Hu1. by simplify_eq.
Qed.

(** The budget check blocks exactly when some active budget with action
    [block] is exceeded, and reports the newest such budget; otherwise it
    allows, with a warning for the newest exceeded active [warn] budget. *)
Theorem Check_decides (orgID : uuid) (w w' : world) (r : CheckResult) :
  amounts_ok (w_db w) → Check orgID w = (Ok r, w') →
  w_db w' = w_db w ∧
  ∃ sts, status_report (w_db w) orgID (w_clock w) sts ∧ r = verdict sts ∧
    (r.(cr_Allowed) = false ↔ ∃ s, s ∈ sts ∧ s.(st_Budget).(Budget_Status) = StatusActive ∧
       s.(st_Budget).(Budget_Action) = ActionBlock ∧
       s.(st_Budget).(Budget_LimitMicroUsd) <= s.(st_UsedMicroUSD)).
Proof.
  intros Hamt H. apply Check_ok in H as (Hdb & sts & Hrep & ->); [|done]. split; [done|].
  exists sts. split; [done|]. split; [done|].
  assert (Hex : ∀ s, s ∈ sts → s.(st_Exceeded) = (s.(st_Budget).(Budget_LimitMicroUsd) <=? s.(st_UsedMicroUSD))).
  { intros s Hs. destruct Hrep as (m & _ & HF).
    destruct (Forall2_elem_r _ _ _ _ HF Hs) as (b & _ & u & _ & ->). done. }
  unfold verdict. destruct (find blocking sts) as [s|] eqn:E.
  - split; [|done]. intros _. apply find_some in E as [Hin Hb]. apply list_elem_of_In in Hin.
    exists s. unfold blocking in Hb. rewrite Hex in Hb by done. by eqb_to_prop.
  - split; [by destruct (find warning sts)|]. intros (s & Hin & Ha & Hb & Hle).
    pose proof (Hex s Hin) as He. rewrite (proj2 (Z.leb_le _ _) Hle) in He.
    apply list_elem_of_In in Hin. apply (find_none _ _ E) in Hin. unfold blocking in Hin.
    by rewrite Ha, Hb, He in Hin.
Qed.

(** What a new budget must satisfy. *)
Definition valid_params (p : CreateBudgetParams) : Prop :=
  TrimSpace p.(cb_Name) ≠ "" ∧ p.(cb_OrgID) ≠ Nil ∧
  (p.(cb_ScopeType) = "" ∨ p.(cb_ScopeType) = "org") ∧
  (p.(cb_Period) = "daily" ∨ p.(cb_Period) = "monthly") ∧
  (p.(cb_Action) = "" ∨ p.(cb_Action) = "warn" ∨ p.(cb_Action) = "block") ∧
  0 <= p.(cb_LimitMicroUSD).

(** The row a valid request creates. *)
Definition new_budget (p : CreateBudgetParams) (id : uuid) (now : Z) : Budget :=
  mkBudget id p.(cb_OrgID) (TrimSpace p.(cb_Name)) "org" None p.(cb_Period) p.(cb_LimitMicroUSD)
    (if String.eqb p.(cb_Action) "" then "block" else p.(cb_Action)) "active" now now.

(** When no call fails and the fresh identifier is new, [CreateBudget]
    accepts exactly the valid parameters; it then adds one active budget with
    the trimmed name and the defaults filled in, a row that satisfies every
    constraint of the table, and otherwise leaves the database as it was. *)
Theorem CreateBudget_total (params : CreateBudgetParams) (w : world) :
  w_faults w = [] → (∀ b, b ∈ (w_db w).(budgets) → b.(Budget_ID) ≠ w_uuid w (w_fresh w)) →
  let b := new_budget params (w_uuid w (w_fresh w)) (w_now w) in
  (valid_params params ∧ (CreateBudget params w).1 = Ok b ∧ budget_check b = true ∧
   w_db (CreateBudget params w).2 = set_budgets (λ bs, bs ++ [b]) (w_db w)) ∨
  (¬ valid_params params ∧ is_ok (CreateBudget params w).1 = false ∧
   w_db (CreateBudget params w).2 = w_db w).
Proof.
  intros Hf Hfresh. simpl. unfold CreateBudget, valid_params.
  destruct (String.eqb_spec (TrimSpace (cb_Name params)) "") as [E1|E1]; [right; tauto|].
  destruct (N.eqb_spec (cb_OrgID params) Nil) as [E2|E2]; [right; tauto|].
  set (sc := if String.eqb (cb_ScopeType params) "" then ScopeTypeOrg else cb_ScopeType params).
  destruct (String.eqb_spec sc ScopeTypeOrg) as [E3|E3]; simpl; subst sc.
  2: { right. split; [|done]. intros (_ & _ & [Hs|Hs] & _); rewrite Hs in E3; done. }
  rewrite E3. assert (Hsc : cb_ScopeType params = "" ∨ cb_ScopeType params = "org")
    by (destruct (String.eqb_spec (cb_ScopeType params) ""); auto).
  destruct (String.eqb_spec (cb_Period params) PeriodDaily) as [E4|E4],
    (String.eqb_spec (cb_Period params) PeriodMonthly) as [E5|E5]; simpl; try (right; tauto).
  1: rewrite E4 in E5; done.
  all: destruct (String.eqb_spec (cb_Action params) "") as [E6|E6]; simpl;
    [|destruct (String.eqb_spec (cb_Action params) ActionWarn) as [E7|E7],
       (String.eqb_spec (cb_Action params) ActionBlock) as [E8|E8]; simpl; try (right; tauto)];
    (destruct (Z.ltb_spec (cb_LimitMicroUSD params) 0) as [E9|E9]; [right; split; [lia|done]|]);
    left; (split; [tauto|]);
    unfold clock, new_uuid, mbind, M_bind; simpl; rewrite stmt_run by done; simpl;
    unfold insert_budget;
    rewrite (proj2 (pg_unique_ok _ _)) by
      (apply List.Forall_forall; intros b Hb; apply N.eqb_neq, Hfresh, list_elem_of_In, Hb);
    unfold pg_check, new_budget, budget_check; simpl;
    rewrite ?E4, ?E5, ?E7, ?E8, ?E6, (proj2 (Z.leb_le _ _) E9), (proj2 (String.eqb_neq _ _) E1);
    simpl; repeat split; done.
Qed.

Lemma ex_amounts : amounts_ok ex_db.
Proof. split; intros x Hx; apply list_elem_of_singleton in Hx as ->; simpl; unfold_ranges; lia. Qed.

Lemma GetStatus_exact_witness :
  map st_RemainingMicroUSD
    (match (GetStatus 1%N ex_world).1 with Ok sts => sts | Err _ => [] end) = [800] ∧
  w_db (GetStatus 1%N ex_world).2 = ex_db.
Proof.
  destruct (GetStatus 1%N ex_world).1 as [sts|e] eqn:E; [|vm_compute in E; discriminate].
  pose proof (GetStatus_exact 1%N ex_world _ sts ex_amounts (run_eq _ _ E)) as [Hdb _].
  split; [|exact Hdb]. vm_compute in E. injection E as <-. reflexivity.
Defined.

Lemma Check_decides_witness :
  (Check 1%N ex_world).1 = Ok (mkCheckResult true false false "" None) ∧
  w_db (Check 1%N ex_world).2 = ex_db.
Proof.
  assert (E : (Check 1%N ex_world).1 = Ok (mkCheckResult true false false "" None)) by (vm_compute; reflexivity).
  split; [exact E|]. exact (proj1 (Check_decides 1%N ex_world _ _ ex_amounts (run_eq _ _ E))).
Defined.

Lemma CreateBudget_total_witness :
  let p := mkCreateBudgetParams 1%N " monthly cap " "" "monthly" 5000 "" in
  (CreateBudget p ex_world).1 =
    Ok (mkBudget 1000%N 1%N "monthly cap" "org" None "monthly" 5000 "block" "active"
          (Day + 12 * Hour) (Day + 12 * Hour)) ∧
  valid_params p.
Proof.
  intros p; subst p. split; [vm_compute; reflexivity|].
  destruct (CreateBudget_total (mkCreateBudgetParams 1%N " monthly cap " "" "monthly" 5000 "") ex_world
    eq_refl ltac:(intros b Hb; apply list_elem_of_singleton in Hb as ->; vm_compute; congruence))
    as [[Hv _]|[_ [He _]]]; [exact Hv|vm_compute in He; discriminate].
Defined.

End BudgetService.
