(* ===== verification/QuotaService.v ===== *)
(** * API key quotas: [internal/auth/api_key_quota_service.go]

    The daily and monthly cost limits of an API key, checked before a request
    against the costs recorded for the key. *)

From S2P Require Import Prelude GoTime Costing Store ExampleWorld Limits BudgetService.

(** [auth.APIKeyPrincipal]: who an authenticated API key speaks for. *)
Record APIKeyPrincipal := mkAPIKeyPrincipal {
  OrgID : uuid;
  APIKeyID : uuid;
  Scopes : list string;
  RPMLimit : Z
}.

Module APIKeyQuota.

Definition QuotaPeriodDaily : string := "daily".
Definition QuotaPeriodMonthly : string := "monthly".
Definition QuotaActionWarn : string := "warn".
Definition QuotaActionBlock : string := "block".

Record APIKeyQuotaStatus := mkAPIKeyQuotaStatus {
  qs_APIKey : ApiKey;
  qs_Period : string;
  qs_LimitMicroUSD : Z;
  qs_UsedMicroUSD : Z;
  qs_RemainingMicroUSD : Z;
  qs_Exceeded : bool;
  qs_WindowStart : Z;
  qs_WindowEnd : Z
}.

Record APIKeyQuotaCheckResult := mkAPIKeyQuotaCheckResult {
  qr_Allowed : bool;
  qr_Exceeded : bool;
  qr_Warning : bool;
  qr_Action : string;
  qr_Status : option APIKeyQuotaStatus
}.

Definition GetAPIKey (orgID id : uuid) : M ApiKey :=
  query (λ d, pg_one (λ k, (k.(ApiKey_OrgID) =? orgID)%N && (k.(ApiKey_ID) =? id)%N) d.(api_keys)).

(** The [JOIN] of the costs with their usage records. *)
Definition key_used_amount (orgID apiKeyID : uuid) (start stop : Z) (d : DB) : Z :=
  sumZ CostRecord_TotalCostMicro
    (List.filter (λ cr, (cr.(CostRecord_OrgID) =? orgID)%N
        && existsb (λ ur, (ur.(UsageRecord_OrgID) =? cr.(CostRecord_OrgID))%N
                          && (ur.(UsageRecord_ID) =? cr.(CostRecord_UsageRecordID))%N
                          && (ur.(UsageRecord_ApiKeyID) =? apiKeyID)%N) d.(usage_records)
        && (start <=? cr.(CostRecord_CreatedAt)) && (cr.(CostRecord_CreatedAt) <? stop)) d.(cost_records)).

Definition GetAPIKeyCostUsedAmount (orgID apiKeyID : uuid) (start stop : Z) : M Z :=
  query (λ d, pg_bigint (key_used_amount orgID apiKeyID start stop d)).

Definition window_at (now : Z) (period : string) : result (Z * Z) :=
  if String.eqb period QuotaPeriodDaily then Ok (dayWindow now)
  else if String.eqb period QuotaPeriodMonthly then Ok (monthWindow now)
  else Err (EMsg "unsupported api key quota period").

Definition periodWindow (period : string) : M (Z * Z) :=
  now ← clock; lift (window_at now period).

Definition quotaLimitValue (value : option Z) : Z * bool :=
  match value with None => (0, false) | Some v => (v, true) end.

Definition quotaAction (action : string) : string :=
  if String.eqb action QuotaActionWarn then QuotaActionWarn else QuotaActionBlock.

Definition statusForPeriod (apiKey : ApiKey) (period : string) (limit : Z) : M APIKeyQuotaStatus :=
  '(start, stop) ← periodWindow period;
  used ← GetAPIKeyCostUsedAmount apiKey.(ApiKey_OrgID) apiKey.(ApiKey_ID) start stop;
  let remaining := limit -₆₄ used in
  let remaining := if remaining <? 0 then 0 else remaining in
  mret (mkAPIKeyQuotaStatus apiKey period limit used remaining (limit <=? used) start stop).

(** The loop of [Check] over the two periods. *)
Fixpoint checkPeriods (apiKey : ApiKey) (periods : list (string * option Z)) (result : APIKeyQuotaCheckResult)
    : M APIKeyQuotaCheckResult :=
  match periods with
  | [] => mret result
  | (name, value) :: rest =>
      let '(limit, ok) := quotaLimitValue value in
      if negb ok then checkPeriods apiKey rest result
      else
        status ← statusForPeriod apiKey name limit;
        if negb status.(qs_Exceeded) then checkPeriods apiKey rest result
        else if String.eqb (quotaAction apiKey.(ApiKey_QuotaAction)) QuotaActionBlock then
          mret (mkAPIKeyQuotaCheckResult false true false QuotaActionBlock (Some status))
        else if String.eqb (quotaAction apiKey.(ApiKey_QuotaAction)) QuotaActionWarn then
          if negb result.(qr_Warning) then
            checkPeriods apiKey rest
              (mkAPIKeyQuotaCheckResult result.(qr_Allowed) true true QuotaActionWarn (Some status))
          else checkPeriods apiKey rest result
        else checkPeriods apiKey rest result
  end.

Definition Check (principal : APIKeyPrincipal) : M APIKeyQuotaCheckResult :=
  apiKey ← GetAPIKey principal.(OrgID) principal.(APIKeyID);
  checkPeriods apiKey
    [(QuotaPeriodDaily, apiKey.(ApiKey_DailyCostLimitMicroUsd));
     (QuotaPeriodMonthly, apiKey.(ApiKey_MonthlyCostLimitMicroUsd))]
    (mkAPIKeyQuotaCheckResult true false false "" None).

Definition validateQuotaLimit (name : string) (value : option Z) : result unit :=
  match value with
  | Some v => if v <? 0 then Err (EMsg (name ++ " must be non-negative")) else Ok tt
  | None => Ok tt
  end.

Definition validateQuotaAction (action : string) : result string :=
  if String.eqb action "" then Ok QuotaActionBlock
  else if negb (String.eqb action QuotaActionWarn) && negb (String.eqb action QuotaActionBlock)
  then Err (EMsg "quota_action must be warn or block")
  else Ok action.

(** ** Specification *)

(** The limits a key has, with what has been used of each at given readings. *)
Definition key_limits (k : ApiKey) : list (string * Z) :=
  match k.(ApiKey_DailyCostLimitMicroUsd) with Some l => [(QuotaPeriodDaily, l)] | None => [] end ++
  match k.(ApiKey_MonthlyCostLimitMicroUsd) with Some l => [(QuotaPeriodMonthly, l)] | None => [] end.

Definition status_at (d : DB) (k : ApiKey) (period : string) (limit now : Z) : APIKeyQuotaStatus :=
  let '(start, stop) := match window_at now period with Ok w => w | Err _ => (0, 0) end in
  let used := key_used_amount k.(ApiKey_OrgID) k.(ApiKey_ID) start stop d in
  mkAPIKeyQuotaStatus k period limit used (Z.max (limit - used) 0) (limit <=? used) start stop.

(** The first exceeded limit decides: an action other than [warn] blocks. *)
Definition quota_verdict (k : ApiKey) (sts : list APIKeyQuotaStatus) : APIKeyQuotaCheckResult :=
  match find qs_Exceeded sts with
  | None => mkAPIKeyQuotaCheckResult true false false "" None
  | Some s =>
      if String.eqb k.(ApiKey_QuotaAction) QuotaActionWarn
      then mkAPIKeyQuotaCheckResult true true true QuotaActionWarn (Some s)
      else mkAPIKeyQuotaCheckResult false true false QuotaActionBlock (Some s)
  end.

(** ** Proofs *)

Lemma statusForPeriod_ok k p limit w s w' :
  (∀ c, c ∈ (w_db w).(cost_records) → 0 <= c.(CostRecord_TotalCostMicro)) →
  0 <= limit <= MaxInt64 →
  statusForPeriod k p limit w = (Ok s, w') →
  w_db w' = w_db w ∧ w_clock w' = w_clock w ∧ ∃ n, s = status_at (w_db w) k p limit (w_clock w n).
Proof.
  intros Hc Hl H. apply bind_ok in H as ([st e] & w1 & H1 & H).
  apply bind_ok in H1 as (now & w2 & H2 & H1). apply clock_reading in H2 as (-> & Hck & Hdb).
  apply lift_ok in H1 as [Hw <-].
  apply bind_ok in H as (u & w3 & H3 & H). pose proof (stmt_clock _ _ _ _ H3) as Hck3.
  apply query_ok in H3 as [Hu Hdb3]. apply pg_bigint_ok in Hu as [-> Hr].
  apply ret_ok in H as [<- <-]. rewrite Hdb in *. rewrite Hdb3, Hck3, Hck.
  split; [done|]. split; [done|]. exists (w_tick w). unfold status_at. fold (w_now w). rewrite Hw.
  assert (0 <= key_used_amount (ApiKey_OrgID k) (ApiKey_ID k) st e (w_db w)).
  { apply sumZ_nonneg. intros c Hin. apply Hc, list_elem_of_In.
    by apply list_elem_of_In, filter_In in Hin as [? _]. }
  set (u := key_used_amount _ _ _ _ _) in *. rewrite wrap64_id by (unfold_ranges; lia).
  f_equal. destruct (Z.ltb_spec (limit - u) 0); lia.
Qed.

(** The configured ones among the periods. *)
Fixpoint configured (periods : list (string * option Z)) : list (string * Z) :=
  match periods with
  | [] => []
  | (p, Some l) :: rest => (p, l) :: configured rest
  | (_, None) :: rest => configured rest
  end.

Definition read_at (d : DB) (k : ApiKey) (readings : nat → Z) (pl : string * Z) (s : APIKeyQuotaStatus) : Prop :=
  ∃ n, s = status_at d k pl.1 pl.2 (readings n).

Lemma checkPeriods_ok k periods r w r' w' :
  (∀ c, c ∈ (w_db w).(cost_records) → 0 <= c.(CostRecord_TotalCostMicro)) →
  (∀ p l, (p, l) ∈ configured periods → 0 <= l <= MaxInt64) →
  checkPeriods k periods r w = (Ok r', w') →
  w_db w' = w_db w ∧ ∃ sts,
    Forall2 (read_at (w_db w) k (w_clock w)) (configured periods) sts ∧
    r' = match find qs_Exceeded sts with
         | None => r
         | Some s =>
             if String.eqb k.(ApiKey_QuotaAction) QuotaActionWarn
             then if r.(qr_Warning) then r
                  else mkAPIKeyQuotaCheckResult r.(qr_Allowed) true true QuotaActionWarn (Some s)
             else mkAPIKeyQuotaCheckResult false true false QuotaActionBlock (Some s)
         end.
Proof.
  revert r w. induction periods as [|[p v] periods IH]; intros r w Hc Hl H; simpl in H.
  - apply ret_ok in H as [<- <-]. split; [done|]. exists []. split; [constructor|done].
  - destruct v as [l|]; simpl in H; [|by apply IH].
    apply bind_ok in H as (s & w1 & H1 & H).
    apply statusForPeriod_ok in H1 as (Hdb1 & Hck1 & n & Hs); [|done|apply (Hl p); by left].
    assert (Hl' : ∀ p l, (p, l) ∈ configured periods → 0 <= l <= MaxInt64) by (intros; eapply Hl; by right).
    assert (Hrd : read_at (w_db w) k (w_clock w) (p, l) s) by (by exists n).
    destruct (qs_Exceeded s) eqn:Ex; simpl in H.
    2: { apply IH in H as (Hdb & sts & HF & ->); [|by rewrite Hdb1|done].
         rewrite Hdb1, Hck1 in HF. split; [congruence|]. exists (s :: sts). simpl. rewrite Ex.
         split; [by constructor|done]. }
    unfold quotaAction in H.
    destruct (String.eqb (ApiKey_QuotaAction k) QuotaActionWarn) eqn:Ea; simpl in H.
    2: { apply ret_ok in H as [<- <-]. split; [done|].
         exists (s :: map (λ pl, status_at (w_db w) k pl.1 pl.2 (w_clock w 0)) (configured periods)).
         simpl. rewrite Ex. split; [|done]. constructor; [done|].
         generalize (configured periods) as l0.
         induction l0 as [|pl l0 IHl]; simpl; constructor; [by exists 0%nat|done]. }
    destruct (qr_Warning r) eqn:Ew; simpl in H.
    all: apply IH in H as (Hdb & sts & HF & ->); [|by rewrite Hdb1|done].
    all: rewrite Hdb1, Hck1 in HF; (split; [congruence|]); exists (s :: sts); simpl; rewrite Ex, ?Ew.
    all: split; [by constructor|by destruct (find qs_Exceeded sts)].
Qed.

(** The amounts the columns of the tables hold. *)
Definition quota_amounts_ok (d : DB) : Prop :=
  (∀ c, c ∈ d.(cost_records) → 0 <= c.(CostRecord_TotalCostMicro)) ∧
  (∀ k p l, k ∈ d.(api_keys) → (p, l) ∈ key_limits k → 0 <= l <= MaxInt64).

(** The quota check reads the caller's own key and decides on the first of
    its daily and monthly limits that the recorded costs of the key have
    reached: it blocks unless the key's action is exactly [warn] (an unknown
    action fails closed), and it allows without a warning exactly when no
    limit is reached. *)
Theorem QuotaCheck_decides (p : APIKeyPrincipal) (w w' : world) (r : APIKeyQuotaCheckResult) :
  quota_amounts_ok (w_db w) → Check p w = (Ok r, w') →
  w_db w' = w_db w ∧
  ∃ k sts, k ∈ (w_db w).(api_keys) ∧ k.(ApiKey_OrgID) = p.(OrgID) ∧ k.(ApiKey_ID) = p.(APIKeyID) ∧
    Forall2 (read_at (w_db w) k (w_clock w)) (key_limits k) sts ∧ r = quota_verdict k sts ∧
    (r.(qr_Exceeded) = true ↔ ∃ s, s ∈ sts ∧ s.(qs_LimitMicroUSD) <= s.(qs_UsedMicroUSD)) ∧
    (r.(qr_Allowed) = false ↔ r.(qr_Exceeded) = true ∧ k.(ApiKey_QuotaAction) ≠ QuotaActionWarn).
Proof.
  intros [Hc Hl] H. apply bind_ok in H as (k & w1 & H1 & H).
  pose proof (stmt_clock _ _ _ _ H1) as Hck. apply query_ok in H1 as [H1 Hdb].
  apply pg_one_ok in H1 as [Hin Hk]. eqb_to_prop.
  assert (Hconf : configured [(QuotaPeriodDaily, ApiKey_DailyCostLimitMicroUsd k);
      (QuotaPeriodMonthly, ApiKey_MonthlyCostLimitMicroUsd k)] = key_limits k).
  { unfold key_limits. simpl. by destruct (ApiKey_DailyCostLimitMicroUsd k), (ApiKey_MonthlyCostLimitMicroUsd k). }
  apply checkPeriods_ok in H as (Hdb' & sts & HF & ->); [|by rewrite Hdb|rewrite Hconf; intros; by eapply Hl].
  rewrite Hconf, Hdb, Hck in HF. split; [congruence|]. exists k, sts. repeat (split; [done|]).
  assert (Hex : ∀ s, s ∈ sts → s.(qs_Exceeded) = (s.(qs_LimitMicroUSD) <=? s.(qs_UsedMicroUSD))).
  { intros s Hs. destruct (Forall2_elem_r _ _ _ _ HF Hs) as ([q l] & _ & n & ->).
    unfold status_at. by case_match. }
  unfold quota_verdict. simpl. destruct (find qs_Exceeded sts) as [s|] eqn:E.
  - apply find_some in E as [Hs He]. apply list_elem_of_In in Hs. rewrite Hex in He by done.
    apply Z.leb_le in He. destruct (String.eqb_spec (ApiKey_QuotaAction k) QuotaActionWarn); simpl; naive_solver.
  - simpl. split; [|naive_solver]. split; [done|]. intros (s & Hs & He).
    pose proof (Hex s Hs) as Hs'. rewrite (proj2 (Z.leb_le _ _) He) in Hs'.
    apply list_elem_of_In in Hs. apply (find_none _ _ E) in Hs. congruence.
Qed.

Lemma find_existsb_unique (d : DB) (f : UsageRecord → bool) (g : UsageRecord → bool) :
  (∀ a b, a ∈ d.(usage_records) → b ∈ d.(usage_records) → f a = true → f b = true → a = b) →
  existsb (λ u, f u && g u) d.(usage_records) =
  match find f d.(usage_records) with Some u => g u | None => false end.
Proof.
  intros Hu. destruct (find f (usage_records d)) as [u|] eqn:E.
  - apply find_some in E as [Hin Hf]. apply Bool.eq_iff_eq_true. rewrite existsb_exists. split.
    + intros (v & Hv & [Hfv Hg]%andb_true_iff).
      rewrite (Hu u v); [done| | |done|done]; by apply list_elem_of_In.
    + intros Hg. exists u. by rewrite Hf, Hg.
  - apply not_true_iff_false. rewrite existsb_exists. intros (v & Hv & [Hfv _]%andb_true_iff).
    rewrite (find_none _ _ E v Hv) in Hfv. done.
Qed.

(** The three places that sum recorded costs agree: the seed of a new
    organisation counter is what the budget check reads for the same window,
    and the seed of a key's counter is what the quota check reads. *)
Theorem usage_sums_agree (d : DB) (orgID apiKeyID : uuid) (start stop : Z) :
  NoDup (map UsageRecord_ID d.(usage_records)) →
  seed_settled d orgID ScopeTypeOrg apiKeyID start stop = BudgetService.used_amount orgID start stop d ∧
  seed_settled d orgID ScopeTypeAPIKey apiKeyID start stop = key_used_amount orgID apiKeyID start stop d.
Proof.
  intros Hnd. unfold seed_settled, BudgetService.used_amount, key_used_amount. split.
  - f_equal. apply List.filter_ext. intros c. unfold seed_row. by rewrite andb_true_r.
  - f_equal. apply List.filter_ext. intros c. unfold seed_row. simpl.
    rewrite (find_existsb_unique d (λ ur, (UsageRecord_OrgID ur =? CostRecord_OrgID c)%N &&
      (UsageRecord_ID ur =? CostRecord_UsageRecordID c)%N) (λ ur, (UsageRecord_ApiKeyID ur =? apiKeyID)%N)).
    + unfold usage_of_cost. by destruct (_ =? orgID)%N, (start <=? _), (_ <? stop), (find _ _) as [u|]; simpl;
        rewrite ?andb_false_r; try destruct (_ =? _)%N.
    + intros a b Ha Hb Hfa Hfb. eqb_to_prop.
      apply (NoDup_map_inj UsageRecord_ID (usage_records d)); auto. congruence.
Qed.

Lemma QuotaCheck_decides_witness :
  quota_amounts_ok ex_db ∧
  (Check (mkAPIKeyPrincipal 1%N 2%N [] 60) ex_world).1 =
    Ok (mkAPIKeyQuotaCheckResult true false false "" None) ∧
  w_db (Check (mkAPIKeyPrincipal 1%N 2%N [] 60) ex_world).2 = ex_db.
Proof.
  assert (Ha : quota_amounts_ok ex_db).
  { split.
    - intros x Hx. apply list_elem_of_singleton in Hx as ->. simpl. lia.
    - intros k p l Hk Hl. apply list_elem_of_singleton in Hk as ->.
      apply list_elem_of_singleton in Hl. injection Hl as -> ->. unfold_ranges. lia. }
  assert (E : (Check (mkAPIKeyPrincipal 1%N 2%N [] 60) ex_world).1 =
    Ok (mkAPIKeyQuotaCheckResult true false false "" None)) by (vm_compute; reflexivity).
  split; [exact Ha|]. split; [exact E|].
  exact (proj1 (QuotaCheck_decides _ ex_world _ _ Ha (run_eq _ _ E))).
Defined.

Lemma usage_sums_agree_witness :
  seed_settled ex_db 1%N ScopeTypeAPIKey 2%N Day (Day + Day) = 200 ∧
  seed_settled ex_db 1%N ScopeTypeAPIKey 2%N Day (Day + Day) = key_used_amount 1%N 2%N Day (Day + Day) ex_db.
Proof.
  split; [vm_compute; reflexivity|].
  apply (usage_sums_agree ex_db 1%N 2%N Day (Day + Day)). simpl. apply NoDup_singleton.
Defined.

End APIKeyQuota.
