(* ===== verification/AnomalyService.v ===== *)
(** * Cost anomalies: [internal/anomaly/service.go]

    An organisation's anomaly policies, evaluated before a request: a daily
    cost threshold, a spike of cost against a baseline window, a spike of the
    error rate. The strongest triggered policy decides whether the request is
    blocked, downgraded to another model, or merely reported. *)

From S2P Require Import Prelude GoTime GoStrings Costing Store ExampleWorld.

Module Anomaly.

Definition RuleDailyCost : string := "daily_cost".
Definition RuleAPIKeyCostSpike : string := "api_key_cost_spike".
Definition RuleModelCostSpike : string := "model_cost_spike".
Definition RuleErrorRateSpike : string := "error_rate_spike".
Definition ScopeOrg : string := "org".
Definition ScopeAPIKey : string := "api_key".
Definition ScopeModel : string := "model".
Definition ActionNotify : string := "notify".
Definition ActionDowngrade : string := "downgrade".
Definition ActionBlock : string := "block".
Definition StatusActive : string := "active".

Definition defaultCurrentWindowMinutes : Z := 60.
Definition defaultBaselineWindowMinutes : Z := 1440.
Definition defaultMinRequests : Z := 1.
Definition defaultSpikeMultiplierBPS : Z := 20000.
Definition bpsScale : Z := 10000.

Record CreatePolicyParams := mkCreatePolicyParams {
  cp_OrgID : uuid;
  cp_Name : string;
  cp_RuleType : string;
  cp_ScopeType : string;
  cp_ScopeID : option uuid;
  cp_ModelAlias : string;
  cp_ThresholdMicroUSD : option Z;
  cp_ThresholdBPS : option Z;
  cp_SpikeMultiplierBPS : Z;
  cp_CurrentWindowMinutes : Z;
  cp_BaselineWindowMinutes : Z;
  cp_MinRequests : Z;
  cp_Action : string;
  cp_FallbackModel : string
}.

Record EvaluateParams := mkEvaluateParams {
  ep_OrgID : uuid;
  ep_APIKeyID : uuid;
  ep_RequestedModel : string
}.

Record Decision := mkDecision {
  dn_Triggered : bool;
  dn_Action : string;
  dn_Policy : option CostAnomalyPolicy;
  dn_OriginalModel : string;
  dn_EffectiveModel : string;
  dn_Reason : string
}.

Definition noDecision : Decision := mkDecision false "" None "" "" "".

(** ** Creating policies *)

Definition validRule (rule : string) : bool :=
  String.eqb rule RuleDailyCost || String.eqb rule RuleAPIKeyCostSpike
  || String.eqb rule RuleModelCostSpike || String.eqb rule RuleErrorRateSpike.

Definition validAction (action : string) : bool :=
  String.eqb action ActionNotify || String.eqb action ActionDowngrade || String.eqb action ActionBlock.

Definition validateScope (params : CreatePolicyParams) : result unit :=
  _ ← (if String.eqb params.(cp_ScopeType) ScopeOrg then
         if negb (bool_decide (params.(cp_ScopeID) = None)) || negb (String.eqb params.(cp_ModelAlias) "")
         then Err (EMsg "org scope cannot include scope_id or model_alias") else Ok tt
       else if String.eqb params.(cp_ScopeType) ScopeAPIKey then
         if match params.(cp_ScopeID) with None => true | Some id => (id =? Nil)%N end
            || negb (String.eqb params.(cp_ModelAlias) "")
         then Err (EMsg "api_key scope requires scope_id only") else Ok tt
       else if String.eqb params.(cp_ScopeType) ScopeModel then
         if negb (bool_decide (params.(cp_ScopeID) = None)) || String.eqb params.(cp_ModelAlias) ""
         then Err (EMsg "model scope requires model_alias only") else Ok tt
       else Err (EMsg "invalid scope_type"));
  if String.eqb params.(cp_RuleType) RuleAPIKeyCostSpike && negb (String.eqb params.(cp_ScopeType) ScopeAPIKey)
  then Err (EMsg "api_key_cost_spike requires api_key scope")
  else if String.eqb params.(cp_RuleType) RuleModelCostSpike && negb (String.eqb params.(cp_ScopeType) ScopeModel)
  then Err (EMsg "model_cost_spike requires model scope")
  else if String.eqb params.(cp_RuleType) RuleDailyCost && negb (String.eqb params.(cp_ScopeType) ScopeOrg)
  then Err (EMsg "daily_cost requires org scope")
  else Ok tt.

Definition validateRuleThresholds (params : CreatePolicyParams) : result unit :=
  if match params.(cp_ThresholdMicroUSD) with Some v => v <? 0 | None => false end
  then Err (EMsg "threshold_micro_usd must be non-negative")
  else if match params.(cp_ThresholdBPS) with Some v => v <=? 0 | None => false end
  then Err (EMsg "threshold_bps must be positive")
  else if String.eqb params.(cp_RuleType) RuleDailyCost then
    if bool_decide (params.(cp_ThresholdMicroUSD) = None)
    then Err (EMsg "threshold_micro_usd is required for daily_cost") else Ok tt
  else if String.eqb params.(cp_RuleType) RuleErrorRateSpike then
    if bool_decide (params.(cp_ThresholdBPS) = None)
    then Err (EMsg "threshold_bps is required for error_rate_spike") else Ok tt
  else Ok tt.

Definition trimParams (p : CreatePolicyParams) : CreatePolicyParams :=
  mkCreatePolicyParams p.(cp_OrgID) (TrimSpace p.(cp_Name)) (TrimSpace p.(cp_RuleType))
    (TrimSpace p.(cp_ScopeType)) p.(cp_ScopeID) (TrimSpace p.(cp_ModelAlias)) p.(cp_ThresholdMicroUSD)
    p.(cp_ThresholdBPS) p.(cp_SpikeMultiplierBPS) p.(cp_CurrentWindowMinutes)
    p.(cp_BaselineWindowMinutes) p.(cp_MinRequests) (TrimSpace p.(cp_Action)) (TrimSpace p.(cp_FallbackModel)).

Definition orDefault (d v : Z) : Z := if v =? 0 then d else v.

Definition fillDefaults (p : CreatePolicyParams) : CreatePolicyParams :=
  mkCreatePolicyParams p.(cp_OrgID) p.(cp_Name) p.(cp_RuleType) p.(cp_ScopeType) p.(cp_ScopeID)
    p.(cp_ModelAlias) p.(cp_ThresholdMicroUSD) p.(cp_ThresholdBPS)
    (orDefault defaultSpikeMultiplierBPS p.(cp_SpikeMultiplierBPS))
    (orDefault defaultCurrentWindowMinutes p.(cp_CurrentWindowMinutes))
    (orDefault defaultBaselineWindowMinutes p.(cp_BaselineWindowMinutes))
    (orDefault defaultMinRequests p.(cp_MinRequests)) p.(cp_Action) p.(cp_FallbackModel).

Definition normalizeCreatePolicyParams (params : CreatePolicyParams) : result CreatePolicyParams :=
  let params := trimParams params in
  if (params.(cp_OrgID) =? Nil)%N then Err (EMsg "org_id is required")
  else if String.eqb params.(cp_Name) "" then Err (EMsg "name is required")
  else if negb (validRule params.(cp_RuleType)) then Err (EMsg "invalid rule_type")
  else if negb (validAction params.(cp_Action)) then Err (EMsg "invalid action")
  else if String.eqb params.(cp_Action) ActionDowngrade && String.eqb params.(cp_FallbackModel) ""
  then Err (EMsg "fallback_model is required for downgrade")
  else
    let params := fillDefaults params in
    if (params.(cp_CurrentWindowMinutes) <? 0) || (params.(cp_BaselineWindowMinutes) <? 0)
       || (params.(cp_MinRequests) <? 0) || (params.(cp_SpikeMultiplierBPS) <? 0)
    then Err (EMsg "window, min_requests, and spike_multiplier_bps must be positive")
    else
      _ ← validateScope params;
      _ ← validateRuleThresholds params;
      Ok params.

Definition textValue (value : string) : option string := if String.eqb value "" then None else Some value.

(** The constraints of the table [cost_anomaly_policies]: on the scope, on the
    thresholds of each rule, on the fallback of a downgrade, and on each column. *)
Definition scope_check (p : CostAnomalyPolicy) : bool :=
  String.eqb p.(CostAnomalyPolicy_ScopeType) "org" && bool_decide (p.(CostAnomalyPolicy_ScopeID) = None)
    && bool_decide (p.(CostAnomalyPolicy_ModelAlias) = None)
  || String.eqb p.(CostAnomalyPolicy_ScopeType) "api_key" && negb (bool_decide (p.(CostAnomalyPolicy_ScopeID) = None))
    && bool_decide (p.(CostAnomalyPolicy_ModelAlias) = None)
  || String.eqb p.(CostAnomalyPolicy_ScopeType) "model" && bool_decide (p.(CostAnomalyPolicy_ScopeID) = None)
    && negb (bool_decide (p.(CostAnomalyPolicy_ModelAlias) = None)).

Definition threshold_check (p : CostAnomalyPolicy) : bool :=
  match p.(CostAnomalyPolicy_ThresholdMicroUsd) with Some v => 0 <=? v | None => true end
  && match p.(CostAnomalyPolicy_ThresholdBps) with Some v => 0 <? v | None => true end
  && (String.eqb p.(CostAnomalyPolicy_RuleType) "daily_cost" && negb (bool_decide (p.(CostAnomalyPolicy_ThresholdMicroUsd) = None))
      || String.eqb p.(CostAnomalyPolicy_RuleType) "api_key_cost_spike"
      || String.eqb p.(CostAnomalyPolicy_RuleType) "model_cost_spike"
      || String.eqb p.(CostAnomalyPolicy_RuleType) "error_rate_spike" && negb (bool_decide (p.(CostAnomalyPolicy_ThresholdBps) = None))).

Definition fallback_check (p : CostAnomalyPolicy) : bool :=
  negb (String.eqb p.(CostAnomalyPolicy_Action) "downgrade") || negb (bool_decide (p.(CostAnomalyPolicy_FallbackModel) = None)).

Definition column_check (p : CostAnomalyPolicy) : bool :=
  negb (String.eqb p.(CostAnomalyPolicy_Name) "")
  && validRule p.(CostAnomalyPolicy_RuleType)
  && (0 <? p.(CostAnomalyPolicy_SpikeMultiplierBps)) && (0 <? p.(CostAnomalyPolicy_CurrentWindowMinutes))
  && (0 <? p.(CostAnomalyPolicy_BaselineWindowMinutes)) && (0 <? p.(CostAnomalyPolicy_MinRequests))
  && validAction p.(CostAnomalyPolicy_Action)
  && (String.eqb p.(CostAnomalyPolicy_Status) "active" || String.eqb p.(CostAnomalyPolicy_Status) "disabled").

Definition policy_check (p : CostAnomalyPolicy) : bool :=
  column_check p && scope_check p && threshold_check p && fallback_check p.

Definition insert_policy (p : CostAnomalyPolicy) (d : DB) : result (CostAnomalyPolicy * DB) :=
  _ ← pg_check (policy_check p);
  _ ← pg_unique (λ p', (p'.(CostAnomalyPolicy_ID) =? p.(CostAnomalyPolicy_ID))%N) d.(cost_anomaly_policies);
  Ok (p, set_cost_anomaly_policies (λ ps, ps ++ [p]) d).

Definition policy_row (id : uuid) (now : Z) (n : CreatePolicyParams) : CostAnomalyPolicy :=
  mkCostAnomalyPolicy id n.(cp_OrgID) n.(cp_Name) n.(cp_RuleType) n.(cp_ScopeType) n.(cp_ScopeID)
    (textValue n.(cp_ModelAlias)) n.(cp_ThresholdMicroUSD) n.(cp_ThresholdBPS) n.(cp_SpikeMultiplierBPS)
    n.(cp_CurrentWindowMinutes) n.(cp_BaselineWindowMinutes) n.(cp_MinRequests) n.(cp_Action)
    (textValue n.(cp_FallbackModel)) StatusActive now now.

Definition CreatePolicy (params : CreatePolicyParams) : M CostAnomalyPolicy :=
  normalized ← lift (normalizeCreatePolicyParams params);
  now ← clock;
  id ← new_uuid;
  stmt (insert_policy (policy_row id now normalized)).

(** [ORDER BY created_at DESC, id DESC]. *)
Definition newest_policy_first (a b : CostAnomalyPolicy) : bool :=
  (b.(CostAnomalyPolicy_CreatedAt) <? a.(CostAnomalyPolicy_CreatedAt))
  || ((b.(CostAnomalyPolicy_CreatedAt) =? a.(CostAnomalyPolicy_CreatedAt))
      && (b.(CostAnomalyPolicy_ID) <=? a.(CostAnomalyPolicy_ID))%N).

Definition list_policies (orgID : uuid) (d : DB) : list CostAnomalyPolicy :=
  sort_by newest_policy_first (List.filter (λ p, (p.(CostAnomalyPolicy_OrgID) =? orgID)%N) d.(cost_anomaly_policies)).

Definition ListPolicies (orgID : uuid) : M (list CostAnomalyPolicy) :=
  if (orgID =? Nil)%N then fail (EMsg "org_id is required")
  else query (λ d, Ok (list_policies orgID d)).

(** ** Statistics *)

Definition policySQLFilter (policy : CostAnomalyPolicy) : result (RequestLog → bool) :=
  if String.eqb policy.(CostAnomalyPolicy_ScopeType) ScopeAPIKey then
    match policy.(CostAnomalyPolicy_ScopeID) with
    | Some id => Ok (λ rl, bool_decide (rl.(RequestLog_ApiKeyID) = Some id))
    | None => Err EPanic
    end
  else if String.eqb policy.(CostAnomalyPolicy_ScopeType) ScopeModel then
    let alias := match policy.(CostAnomalyPolicy_ModelAlias) with Some a => a | None => "" end in
    Ok (λ rl, bool_decide (rl.(RequestLog_RequestModel) = Some alias))
  else Ok (λ _, true).

Definition logs_in (orgID : uuid) (from to : Z) (f : RequestLog → bool) (d : DB) : list RequestLog :=
  List.filter (λ rl, (rl.(RequestLog_OrgID) =? orgID)%N && (from <=? rl.(RequestLog_CompletedAt))
                     && (rl.(RequestLog_CompletedAt) <? to) && f rl) d.(request_logs).

(** The rows of [request_logs LEFT JOIN usage_records LEFT JOIN cost_records]
    that one request contributes. *)
Definition joined_costs (d : DB) (rl : RequestLog) : list (option CostRecord) :=
  match List.filter (λ ur, (ur.(UsageRecord_OrgID) =? rl.(RequestLog_OrgID))%N
                           && (ur.(UsageRecord_RequestLogID) =? rl.(RequestLog_ID))%N) d.(usage_records) with
  | [] => [None]
  | urs => flat_map (λ ur,
      match List.filter (λ cr, (cr.(CostRecord_OrgID) =? rl.(RequestLog_OrgID))%N
                               && (cr.(CostRecord_UsageRecordID) =? ur.(UsageRecord_ID))%N) d.(cost_records) with
      | [] => [None]
      | crs => map Some crs
      end) urs
  end.

Definition cost_of_row (r : option CostRecord) : Z :=
  match r with Some cr => cr.(CostRecord_TotalCostMicro) | None => 0 end.

Definition costStats (policy : CostAnomalyPolicy) (from to : Z) : M (Z * Z) :=
  filter ← lift (policySQLFilter policy);
  query (λ d,
    let rows := flat_map (joined_costs d) (logs_in policy.(CostAnomalyPolicy_OrgID) from to filter d) in
    total ← pg_bigint (sumZ cost_of_row rows);
    Ok (total, Z.of_nat (length rows))).

Definition is_error (rl : RequestLog) : bool :=
  negb (String.eqb rl.(RequestLog_Status) "success" || String.eqb rl.(RequestLog_Status) "budget_warned").

Definition errorStats (policy : CostAnomalyPolicy) (from to : Z) : M (Z * Z) :=
  filter ← lift (policySQLFilter policy);
  query (λ d,
    let rows := logs_in policy.(CostAnomalyPolicy_OrgID) from to filter d in
    Ok (Z.of_nat (length rows), Z.of_nat (length (List.filter is_error rows)))).

(** ** Rules *)

(** [now.Add(-time.Duration(minutes) * time.Minute)]. *)
Definition minutesBefore (t minutes : Z) : Z := t + (- minutes) *₆₄ Minute.

Definition evaluateDailyCost (policy : CostAnomalyPolicy) : M (bool * string) :=
  match policy.(CostAnomalyPolicy_ThresholdMicroUsd) with
  | None => mret (false, "")
  | Some threshold =>
      now ← clock;
      '(total, _) ← costStats policy (dayWindow now).1 now;
      if threshold <=? total then mret (true, "daily_cost_threshold") else mret (false, "")
  end.

(** The comparison at the end of [evaluateCostSpike]. *)
Definition costSpikeReached (currentCost baselineCost : Z) (policy : CostAnomalyPolicy) : bool :=
  let left := (currentCost *₆₄ policy.(CostAnomalyPolicy_BaselineWindowMinutes)) *₆₄ bpsScale in
  let right := (baselineCost *₆₄ policy.(CostAnomalyPolicy_CurrentWindowMinutes))
                 *₆₄ policy.(CostAnomalyPolicy_SpikeMultiplierBps) in
  right <=? left.

Definition evaluateCostSpike (policy : CostAnomalyPolicy) : M (bool * string) :=
  now ← clock;
  let currentStart := minutesBefore now policy.(CostAnomalyPolicy_CurrentWindowMinutes) in
  let baselineEnd := currentStart in
  let baselineStart := minutesBefore baselineEnd policy.(CostAnomalyPolicy_BaselineWindowMinutes) in
  '(currentCost, currentRequests) ← costStats policy currentStart now;
  if (currentRequests <? policy.(CostAnomalyPolicy_MinRequests)) || (currentCost <=? 0) then mret (false, "")
  else if match policy.(CostAnomalyPolicy_ThresholdMicroUsd) with Some t => currentCost <? t | None => false end
  then mret (false, "")
  else
    '(baselineCost, _) ← costStats policy baselineStart baselineEnd;
    if baselineCost <=? 0 then mret (false, "")
    else if costSpikeReached currentCost baselineCost policy then mret (true, "cost_spike")
    else mret (false, "").

(** The two comparisons of [evaluateErrorRateSpike]. *)
Definition errorRateReached (requests errors threshold : Z) : bool :=
  requests *₆₄ threshold <=? errors *₆₄ bpsScale.
Definition errorSpikeReached (requests errors baseRequests baseErrors : Z) (policy : CostAnomalyPolicy) : bool :=
  let left := (errors *₆₄ baseRequests) *₆₄ bpsScale in
  let right := (baseErrors *₆₄ requests) *₆₄ policy.(CostAnomalyPolicy_SpikeMultiplierBps) in
  right <=? left.

Definition evaluateErrorRateSpike (policy : CostAnomalyPolicy) : M (bool * string) :=
  match policy.(CostAnomalyPolicy_ThresholdBps) with
  | None => mret (false, "")
  | Some threshold =>
      now ← clock;
      let currentStart := minutesBefore now policy.(CostAnomalyPolicy_CurrentWindowMinutes) in
      let baselineEnd := currentStart in
      let baselineStart := minutesBefore baselineEnd policy.(CostAnomalyPolicy_BaselineWindowMinutes) in
      '(requests, errors) ← errorStats policy currentStart now;
      if (requests <? policy.(CostAnomalyPolicy_MinRequests)) || (errors =? 0) then mret (false, "")
      else if negb (errorRateReached requests errors threshold) then mret (false, "")
      else
        '(baseRequests, baseErrors) ← errorStats policy baselineStart baselineEnd;
        if (baseRequests =? 0) || (baseErrors =? 0) then mret (true, "error_rate_spike")
        else if errorSpikeReached requests errors baseRequests baseErrors policy
        then mret (true, "error_rate_spike")
        else mret (false, "")
  end.

Definition evaluatePolicy (policy : CostAnomalyPolicy) : M (bool * string) :=
  if String.eqb policy.(CostAnomalyPolicy_RuleType) RuleDailyCost then evaluateDailyCost policy
  else if String.eqb policy.(CostAnomalyPolicy_RuleType) RuleAPIKeyCostSpike
          || String.eqb policy.(CostAnomalyPolicy_RuleType) RuleModelCostSpike then evaluateCostSpike policy
  else if String.eqb policy.(CostAnomalyPolicy_RuleType) RuleErrorRateSpike then evaluateErrorRateSpike policy
  else mret (false, "").

(** ** Evaluation *)

Definition policyApplies (policy : CostAnomalyPolicy) (params : EvaluateParams) : bool :=
  if String.eqb policy.(CostAnomalyPolicy_ScopeType) ScopeOrg then true
  else if String.eqb policy.(CostAnomalyPolicy_ScopeType) ScopeAPIKey then
    match policy.(CostAnomalyPolicy_ScopeID) with
    | Some id => (id =? params.(ep_APIKeyID))%N | None => false end
  else if String.eqb policy.(CostAnomalyPolicy_ScopeType) ScopeModel then
    match policy.(CostAnomalyPolicy_ModelAlias) with
    | Some a => String.eqb a (TrimSpace params.(ep_RequestedModel)) | None => false end
  else false.

Definition actionRank (action : string) : Z :=
  if String.eqb action ActionBlock then 3
  else if String.eqb action ActionDowngrade then 2
  else if String.eqb action ActionNotify then 1
  else 0.

Definition shouldReplaceDecision (current next : Decision) : bool :=
  if negb current.(dn_Triggered) then true
  else actionRank current.(dn_Action) <? actionRank next.(dn_Action).

Definition decisionOf (policy : CostAnomalyPolicy) (params : EvaluateParams) (reason : string) : Decision :=
  let model := TrimSpace params.(ep_RequestedModel) in
  mkDecision true policy.(CostAnomalyPolicy_Action) (Some policy) model
    (if String.eqb policy.(CostAnomalyPolicy_Action) ActionDowngrade then
       match policy.(CostAnomalyPolicy_FallbackModel) with Some m => m | None => model end
     else model) reason.

(** [ORDER BY created_at ASC, id ASC]. *)
Definition oldest_first (a b : CostAnomalyPolicy) : bool :=
  (a.(CostAnomalyPolicy_CreatedAt) <? b.(CostAnomalyPolicy_CreatedAt))
  || ((a.(CostAnomalyPolicy_CreatedAt) =? b.(CostAnomalyPolicy_CreatedAt))
      && (a.(CostAnomalyPolicy_ID) <=? b.(CostAnomalyPolicy_ID))%N).

Definition active_policies (orgID : uuid) (d : DB) : list CostAnomalyPolicy :=
  sort_by oldest_first
    (List.filter (λ p, (p.(CostAnomalyPolicy_OrgID) =? orgID)%N
                       && String.eqb p.(CostAnomalyPolicy_Status) "active") d.(cost_anomaly_policies)).

Definition evaluateOne (params : EvaluateParams) (best : Decision) (policy : CostAnomalyPolicy) : M Decision :=
  if negb (policyApplies policy params) then mret best
  else
    '(triggered, reason) ← evaluatePolicy policy;
    if negb triggered then mret best
    else
      let decision := decisionOf policy params reason in
      if shouldReplaceDecision best decision then mret decision else mret best.

Definition Evaluate (params : EvaluateParams) : M Decision :=
  if (params.(ep_OrgID) =? Nil)%N || String.eqb (TrimSpace params.(ep_RequestedModel)) "" then mret noDecision
  else
    policies ← query (λ d, Ok (active_policies params.(ep_OrgID) d));
    forM policies noDecision (evaluateOne params).

(** ** Specification *)

(** What a policy measures in [[from, to)]: cost and requests, or requests and errors. *)
Definition in_scope (p : CostAnomalyPolicy) : RequestLog → bool :=
  match policySQLFilter p with Ok f => f | Err _ => λ _, false end.

Definition cost_in (d : DB) (p : CostAnomalyPolicy) (from to : Z) : Z :=
  sumZ cost_of_row (flat_map (joined_costs d) (logs_in p.(CostAnomalyPolicy_OrgID) from to (in_scope p) d)).
Definition requests_in (d : DB) (p : CostAnomalyPolicy) (from to : Z) : Z :=
  Z.of_nat (length (flat_map (joined_costs d) (logs_in p.(CostAnomalyPolicy_OrgID) from to (in_scope p) d))).
Definition logged_in (d : DB) (p : CostAnomalyPolicy) (from to : Z) : Z :=
  Z.of_nat (length (logs_in p.(CostAnomalyPolicy_OrgID) from to (in_scope p) d)).
Definition errors_in (d : DB) (p : CostAnomalyPolicy) (from to : Z) : Z :=
  Z.of_nat (length (List.filter is_error (logs_in p.(CostAnomalyPolicy_OrgID) from to (in_scope p) d))).

(** The reason a policy fires at an instant, if it does; rates are compared by
    cross-multiplication, and the products taken as [norm] leaves them. *)
Definition fires_with (norm : Z → Z) (d : DB) (now : Z) (p : CostAnomalyPolicy) : option string :=
  let cur := p.(CostAnomalyPolicy_CurrentWindowMinutes) in
  let base := p.(CostAnomalyPolicy_BaselineWindowMinutes) in
  let mult := p.(CostAnomalyPolicy_SpikeMultiplierBps) in
  let t1 := now + norm (- cur * Minute) in
  let t0 := t1 + norm (- base * Minute) in
  if String.eqb p.(CostAnomalyPolicy_RuleType) RuleDailyCost then
    match p.(CostAnomalyPolicy_ThresholdMicroUsd) with
    | Some t => if t <=? cost_in d p (dayWindow now).1 now then Some "daily_cost_threshold" else None
    | None => None
    end
  else if String.eqb p.(CostAnomalyPolicy_RuleType) RuleAPIKeyCostSpike
          || String.eqb p.(CostAnomalyPolicy_RuleType) RuleModelCostSpike then
    if (p.(CostAnomalyPolicy_MinRequests) <=? requests_in d p t1 now) && (0 <? cost_in d p t1 now)
       && match p.(CostAnomalyPolicy_ThresholdMicroUsd) with Some t => t <=? cost_in d p t1 now | None => true end
       && (0 <? cost_in d p t0 t1)
       && (norm (cost_in d p t0 t1 * cur * mult) <=? norm (cost_in d p t1 now * base * bpsScale))
    then Some "cost_spike" else None
  else if String.eqb p.(CostAnomalyPolicy_RuleType) RuleErrorRateSpike then
    match p.(CostAnomalyPolicy_ThresholdBps) with
    | Some t =>
        if (p.(CostAnomalyPolicy_MinRequests) <=? logged_in d p t1 now) && (0 <? errors_in d p t1 now)
           && (norm (logged_in d p t1 now * t) <=? norm (errors_in d p t1 now * bpsScale))
           && ((logged_in d p t0 t1 =? 0) || (errors_in d p t0 t1 =? 0)
               || (norm (errors_in d p t0 t1 * logged_in d p t1 now * mult)
                   <=? norm (errors_in d p t1 now * logged_in d p t0 t1 * bpsScale)))
        then Some "error_rate_spike" else None
    | None => None
    end
  else None.

(** The rules over the integers, as they are meant. *)
Definition fires : DB → Z → CostAnomalyPolicy → option string := fires_with (λ z, z).

(** The policy's own products at that instant fit 64 bits; those of a daily cost
    always do, since it compares the sum itself. *)
Definition fits (d : DB) (now : Z) (p : CostAnomalyPolicy) : Prop :=
  let cur := p.(CostAnomalyPolicy_CurrentWindowMinutes) in
  let base := p.(CostAnomalyPolicy_BaselineWindowMinutes) in
  let mult := p.(CostAnomalyPolicy_SpikeMultiplierBps) in
  let t1 := now + - cur * Minute in
  let t0 := t1 + - base * Minute in
  if String.eqb p.(CostAnomalyPolicy_RuleType) RuleDailyCost then True
  else in64 (- cur * Minute) ∧ in64 (- base * Minute) ∧
    if String.eqb p.(CostAnomalyPolicy_RuleType) RuleErrorRateSpike then
      (∀ t, p.(CostAnomalyPolicy_ThresholdBps) = Some t → in64 (logged_in d p t1 now * t)) ∧
      in64 (errors_in d p t1 now * bpsScale) ∧ in64 (errors_in d p t0 t1 * logged_in d p t1 now * mult) ∧
      in64 (errors_in d p t1 now * logged_in d p t0 t1 * bpsScale)
    else in64 (cost_in d p t0 t1 * cur * mult) ∧ in64 (cost_in d p t1 now * base * bpsScale).

(** ** The rules compute their specification *)

Lemma fires_fits d now p : fits d now p → fires_with wrap64 d now p = fires d now p.
Proof.
  unfold fits, fires, fires_with. destruct (String.eqb_spec (CostAnomalyPolicy_RuleType p) RuleDailyCost); [done|].
  intros (Hcur & Hbase & Hrule). rewrite !(wrap64_id (- _ * Minute)) by done.
  destruct (String.eqb_spec (CostAnomalyPolicy_RuleType p) RuleErrorRateSpike) as [->|].
  - simpl. destruct Hrule as (Ht & He & Hl & Hr). destruct (CostAnomalyPolicy_ThresholdBps p) as [t|]; [|done].
    by rewrite !wrap64_id by auto.
  - destruct Hrule as (Hl & Hr). by rewrite !wrap64_id.
Qed.

Lemma wrap64_mul a b : wrap64 a *₆₄ b = a *₆₄ b.
Proof.
  assert (Hw : ∃ k, wrap64 a = a + k * 2 ^ 64).
  { exists (- ((a + 2 ^ 63) / 2 ^ 64)). unfold wrap64. pose proof (Z.div_mod (a + 2 ^ 63) (2 ^ 64) ltac:(lia)). lia. }
  destruct Hw as [k ->]. unfold wrap64. f_equal.
  replace ((a + k * 2 ^ 64) * b + 2 ^ 63) with (a * b + 2 ^ 63 + (k * b) * 2 ^ 64) by ring.
  by rewrite Z.mod_add.
Qed.

Lemma costStats_ok p from to w c n w' :
  costStats p from to w = (Ok (c, n), w') →
  w_db w' = w_db w ∧ w_clock w' = w_clock w ∧ c = cost_in (w_db w) p from to ∧
  n = requests_in (w_db w) p from to.
Proof.
  intros H. apply bind_ok in H as (f & w1 & Hf & H). apply lift_ok in Hf as [Hf <-].
  pose proof (stmt_clock _ _ _ _ H) as Hck. apply query_ok in H as [H Hdb].
  apply result_bind_ok in H as (t & Ht & [= <- <-]). apply pg_bigint_ok in Ht as [-> _].
  unfold cost_in, requests_in, in_scope. by rewrite Hf.
Qed.

Lemma errorStats_ok p from to w n e w' :
  errorStats p from to w = (Ok (n, e), w') →
  w_db w' = w_db w ∧ w_clock w' = w_clock w ∧ n = logged_in (w_db w) p from to ∧
  e = errors_in (w_db w) p from to.
Proof.
  intros H. apply bind_ok in H as (f & w1 & Hf & H). apply lift_ok in Hf as [Hf <-].
  pose proof (stmt_clock _ _ _ _ H) as Hck. apply query_ok in H as [[= <- <-] Hdb].
  unfold logged_in, errors_in, in_scope. by rewrite Hf.
Qed.

Definition outcome (tr : bool * string) : option string := if tr.1 then Some tr.2 else None.

(** A rule evaluated in [w] gives what [fires_with] says of its 64-bit products
    at a reading of the clock. *)
Definition evaluates (p : CostAnomalyPolicy) (w : world) (tr : bool * string) (w' : world) : Prop :=
  w_db w' = w_db w ∧ w_clock w' = w_clock w ∧ ∃ n, fires_with wrap64 (w_db w) (w_clock w n) p = outcome tr.

Lemma evaluates_ret p w w1 n tr :
  w_db w1 = w_db w → w_clock w1 = w_clock w → fires_with wrap64 (w_db w) (w_clock w n) p = outcome tr →
  evaluates p w tr w1.
Proof. intros. split; [done|]. split; [done|]. by exists n. Qed.

Lemma evaluateDailyCost_ok p w tr w' :
  p.(CostAnomalyPolicy_RuleType) = RuleDailyCost →
  evaluateDailyCost p w = (Ok tr, w') → evaluates p w tr w'.
Proof.
  intros Hr H. unfold evaluateDailyCost in H.
  destruct (CostAnomalyPolicy_ThresholdMicroUsd p) as [t|] eqn:Et.
  2: { apply ret_ok in H as [<- <-]. apply (evaluates_ret _ _ _ 0); [done..|].
       unfold fires_with. by rewrite Hr, Et. }
  apply bind_ok in H as (now & w1 & H1 & H). apply clock_reading in H1 as (-> & Hck & Hdb).
  apply bind_ok in H as ([c n] & w2 & H2 & H). apply costStats_ok in H2 as (Hdb2 & Hck2 & -> & ->).
  rewrite Hdb in *. unfold w_now in *.
  destruct (_ <=? _) eqn:E in H; apply ret_ok in H as [<- <-];
    (apply (evaluates_ret _ _ _ (w_tick w)); [congruence..|]); unfold fires_with; rewrite Hr, Et, String.eqb_refl; by rewrite E.
Qed.

Lemma evaluateCostSpike_ok p w tr w' :
  p.(CostAnomalyPolicy_RuleType) = RuleAPIKeyCostSpike ∨ p.(CostAnomalyPolicy_RuleType) = RuleModelCostSpike →
  evaluateCostSpike p w = (Ok tr, w') → evaluates p w tr w'.
Proof.
  intros Hr H. unfold evaluateCostSpike in H.
  apply bind_ok in H as (now & w1 & H1 & H). apply clock_reading in H1 as (-> & Hck & Hdb).
  unfold w_now, minutesBefore in H.
  set (t := w_clock w (w_tick w)) in *. set (t1 := t + _ *₆₄ Minute) in *. set (t0 := t1 + _ *₆₄ Minute) in *.
  apply bind_ok in H as ([c n] & w2 & H2 & H). apply costStats_ok in H2 as (Hdb2 & Hck2 & -> & ->).
  rewrite Hdb in *.
  assert (Hfires : ∀ o, (if (p.(CostAnomalyPolicy_MinRequests) <=? requests_in (w_db w) p t1 t)
       && (0 <? cost_in (w_db w) p t1 t)
       && match p.(CostAnomalyPolicy_ThresholdMicroUsd) with Some v => v <=? cost_in (w_db w) p t1 t | None => true end
       && (0 <? cost_in (w_db w) p t0 t1)
       && costSpikeReached (cost_in (w_db w) p t1 t) (cost_in (w_db w) p t0 t1) p
     then Some "cost_spike" else None) = o → fires_with wrap64 (w_db w) (w_clock w (w_tick w)) p = o).
  { intros o <-. unfold fires_with, costSpikeReached. rewrite !wrap64_mul. destruct Hr as [-> | ->]; done. }
  revert Hfires H. set (spike := costSpikeReached _ _ _). intros Hfires H.
  destruct (_ || _) eqn:E1 in H.
  { apply ret_ok in H as [<- <-]. apply (evaluates_ret _ _ _ (w_tick w)); [congruence..|]. apply Hfires.
    destruct (_ && _) eqn:E; [exfalso; bool_to_prop|done].
    apply orb_true_iff in E1 as [?|?]; bool_to_prop; lia. }
  destruct (match p.(CostAnomalyPolicy_ThresholdMicroUsd) with Some v => _ | None => _ end) eqn:E2 in H.
  { apply ret_ok in H as [<- <-]. apply (evaluates_ret _ _ _ (w_tick w)); [congruence..|]. apply Hfires.
    destruct (_ && _) eqn:E; [exfalso|done].
    destruct (CostAnomalyPolicy_ThresholdMicroUsd p); bool_to_prop; [lia|done]. }
  apply bind_ok in H as ([c n] & w3 & H3 & H). apply costStats_ok in H3 as (Hdb3 & Hck3 & -> & ->).
  rewrite Hdb2 in *.
  destruct (_ <=? 0) eqn:E3 in H.
  { apply ret_ok in H as [<- <-]. apply (evaluates_ret _ _ _ (w_tick w)); [congruence..|]. apply Hfires.
    destruct (_ && _) eqn:E; [exfalso; bool_to_prop; lia|done]. }
  destruct (costSpikeReached _ _ _) eqn:E4 in H; apply ret_ok in H as [<- <-];
    (apply (evaluates_ret _ _ _ (w_tick w)); [congruence..|]); apply Hfires; subst spike; rewrite E4.
  2: by rewrite andb_false_r.
  bool_to_prop. rewrite !(proj2 (Z.leb_le _ _)), !(proj2 (Z.ltb_lt _ _)) by lia.
  destruct (CostAnomalyPolicy_ThresholdMicroUsd p); [|done]. bool_to_prop.
  by rewrite (proj2 (Z.leb_le _ _)) by lia.
Qed.

Lemma evaluateErrorRateSpike_ok p w tr w' :
  p.(CostAnomalyPolicy_RuleType) = RuleErrorRateSpike →
  evaluateErrorRateSpike p w = (Ok tr, w') → evaluates p w tr w'.
Proof.
  intros Hr H. unfold evaluateErrorRateSpike in H.
  destruct (CostAnomalyPolicy_ThresholdBps p) as [b|] eqn:Eb.
  2: { apply ret_ok in H as [<- <-]. apply (evaluates_ret _ _ _ 0); [done..|].
       unfold fires_with. by rewrite Hr, Eb. }
  apply bind_ok in H as (now & w1 & H1 & H). apply clock_reading in H1 as (-> & Hck & Hdb).
  unfold w_now, minutesBefore in H.
  set (t := w_clock w (w_tick w)) in *. set (t1 := t + _ *₆₄ Minute) in *. set (t0 := t1 + _ *₆₄ Minute) in *.
  apply bind_ok in H as ([n e] & w2 & H2 & H). apply errorStats_ok in H2 as (Hdb2 & Hck2 & -> & ->).
  rewrite Hdb in *. assert (He : 0 <= errors_in (w_db w) p t1 t) by apply Nat2Z.is_nonneg.
  assert (Hfires : ∀ o, (if (p.(CostAnomalyPolicy_MinRequests) <=? logged_in (w_db w) p t1 t)
           && (0 <? errors_in (w_db w) p t1 t)
           && errorRateReached (logged_in (w_db w) p t1 t) (errors_in (w_db w) p t1 t) b
           && ((logged_in (w_db w) p t0 t1 =? 0) || (errors_in (w_db w) p t0 t1 =? 0)
               || errorSpikeReached (logged_in (w_db w) p t1 t) (errors_in (w_db w) p t1 t)
                    (logged_in (w_db w) p t0 t1) (errors_in (w_db w) p t0 t1) p)
     then Some "error_rate_spike" else None) = o → fires_with wrap64 (w_db w) (w_clock w (w_tick w)) p = o).
  { intros o <-. unfold fires_with, errorRateReached, errorSpikeReached. rewrite !wrap64_mul. by rewrite Hr, Eb. }
  revert Hfires H. set (rate := errorRateReached _ _ _). set (spike := errorSpikeReached _ _ _ _ _).
  intros Hfires H.
  destruct (_ || _) eqn:E1 in H.
  { apply ret_ok in H as [<- <-]. apply (evaluates_ret _ _ _ (w_tick w)); [congruence..|]. apply Hfires.
    destruct (_ && _) eqn:E; [exfalso; bool_to_prop|done].
    apply orb_true_iff in E1 as [?|?]; bool_to_prop; lia. }
  destruct (negb _) eqn:E2 in H.
  { apply ret_ok in H as [<- <-]. apply (evaluates_ret _ _ _ (w_tick w)); [congruence..|]. apply Hfires.
    destruct rate; [done|]. by rewrite andb_false_r. }
  apply negb_false_iff in E2. rewrite E2 in Hfires.
  apply bind_ok in H as ([n' e'] & w3 & H3 & H). apply errorStats_ok in H3 as (Hdb3 & Hck3 & -> & ->).
  rewrite Hdb2 in *. bool_to_prop. rewrite (proj2 (Z.leb_le _ _)), (proj2 (Z.ltb_lt _ _)) in Hfires by lia.
  simpl in Hfires. destruct (_ || _) eqn:E3 in H.
  { apply ret_ok in H as [<- <-]. apply (evaluates_ret _ _ _ (w_tick w)); [congruence..|]. apply Hfires.
    by rewrite E3. }
  rewrite E3 in Hfires. simpl in Hfires. fold spike in H.
  destruct spike; apply ret_ok in H as [<- <-]; (apply (evaluates_ret _ _ _ (w_tick w)); [congruence..|]);
    by apply Hfires.
Qed.

Lemma evaluatePolicy_ok p w tr w' : evaluatePolicy p w = (Ok tr, w') → evaluates p w tr w'.
Proof.
  intros H. unfold evaluatePolicy in H.
  destruct (String.eqb_spec (CostAnomalyPolicy_RuleType p) RuleDailyCost); [by apply evaluateDailyCost_ok|].
  destruct (_ || _) eqn:E.
  { apply evaluateCostSpike_ok; [|done]. apply orb_true_iff in E as [E|E]; eqb_to_prop; auto. }
  destruct (String.eqb_spec (CostAnomalyPolicy_RuleType p) RuleErrorRateSpike); [by apply evaluateErrorRateSpike_ok|].
  apply ret_ok in H as [<- <-]. apply (evaluates_ret _ _ _ 0); [done..|]. unfold fires_with. rewrite E.
  by rewrite !(proj2 (String.eqb_neq _ _)).
Qed.

(** ** The strongest policy *)

(** What one policy says: nothing unless it applies to the request; otherwise
    what its rule says of the 64-bit products at some reading of the clock, and
    that is what the rule means when those products fit. *)
Definition says (d : DB) (readings : nat → Z) (params : EvaluateParams) (p : CostAnomalyPolicy)
    (o : option string) : Prop :=
  if policyApplies p params
  then ∃ n, o = fires_with wrap64 d (readings n) p ∧ (fits d (readings n) p → o = fires d (readings n) p)
  else o = None.

Lemma says_evaluated d readings params p n o : policyApplies p params = true →
  fires_with wrap64 d (readings n) p = o → says d readings params p o.
Proof. intros Hp <-. unfold says. rewrite Hp. exists n. split; [done|]. apply fires_fits. Qed.

Definition rank_of (x : CostAnomalyPolicy * option string) : Z := actionRank x.1.(CostAnomalyPolicy_Action).

(** [d] is the decision of the first policy of greatest rank among those that fired. *)
Definition strongest (params : EvaluateParams) (l : list (CostAnomalyPolicy * option string)) (d : Decision) : Prop :=
  (d = noDecision ∧ ∀ x, x ∈ l → x.2 = None) ∨
  ∃ l1 p r l2, l = l1 ++ (p, Some r) :: l2 ∧ d = decisionOf p params r ∧
    (∀ x, x ∈ l1 → x.2 = None ∨ rank_of x < rank_of (p, Some r)) ∧
    (∀ x, x ∈ l2 → x.2 = None ∨ rank_of x <= rank_of (p, Some r)).

Lemma strongest_snoc_none params l d p : strongest params l d → strongest params (l ++ [(p, None)]) d.
Proof.
  intros [[-> Hn]|(l1 & q & r & l2 & -> & -> & H1 & H2)].
  - left. split; [done|]. intros x [Hx|Hx]%elem_of_app; [auto|]. by apply list_elem_of_singleton in Hx as ->.
  - right. exists l1, q, r, (l2 ++ [(p, None)]). rewrite <- app_assoc. split; [done|]. split; [done|].
    split; [done|]. intros x [Hx|Hx]%elem_of_app; [auto|]. apply list_elem_of_singleton in Hx as ->. by left.
Qed.

Lemma strongest_snoc_some params l d p r :
  strongest params l d →
  strongest params (l ++ [(p, Some r)])
    (if shouldReplaceDecision d (decisionOf p params r) then decisionOf p params r else d).
Proof.
  intros [[-> Hn]|(l1 & q & r' & l2 & -> & -> & H1 & H2)]; unfold shouldReplaceDecision; simpl.
  - right. exists l, p, r, []. split; [done|]. split; [done|]. split; [|set_solver]. intros x Hx. left. auto.
  - destruct (Z.ltb_spec (actionRank q.(CostAnomalyPolicy_Action)) (actionRank p.(CostAnomalyPolicy_Action))) as [Hlt|Hge].
    + right. exists (l1 ++ (q, Some r') :: l2), p, r, []. split; [done|]. split; [done|]. split; [|set_solver].
      unfold rank_of in *. simpl in *. intros x Hx.
      apply elem_of_app in Hx as [Hx|[->|Hx]%elem_of_cons].
      * destruct (H1 x Hx); [by left|right; lia].
      * right. simpl. lia.
      * destruct (H2 x Hx); [by left|right; lia].
    + right. exists l1, q, r', (l2 ++ [(p, Some r)]). rewrite <- app_assoc. split; [done|]. split; [done|].
      split; [done|]. intros x [Hx|Hx]%elem_of_app; [auto|]. apply list_elem_of_singleton in Hx as ->.
      right. unfold rank_of in *. simpl in *. lia.
Qed.

Lemma Evaluate_loop params ps best pre w d w' :
  strongest params pre best → forM ps best (evaluateOne params) w = (Ok d, w') →
  w_db w' = w_db w ∧ ∃ l, map fst l = ps ∧
    (∀ x, x ∈ l → says (w_db w) (w_clock w) params x.1 x.2) ∧ strongest params (pre ++ l) d.
Proof.
  revert best pre w. induction ps as [|p ps IH]; intros best pre w Hb H; simpl in H.
  - apply ret_ok in H as [<- <-]. split; [done|]. exists []. rewrite app_nil_r. split; [done|]. split; [set_solver|done].
  - apply bind_ok in H as (best' & w1 & H1 & H).
    assert (Hstep : w_db w1 = w_db w ∧ w_clock w1 = w_clock w ∧
      ∃ o, says (w_db w) (w_clock w) params p o ∧ strongest params (pre ++ [(p, o)]) best').
    { unfold evaluateOne in H1. destruct (policyApplies p params) eqn:Hp; simpl in H1.
      - apply bind_ok in H1 as ([tr reason] & w2 & H2 & H1).
        apply evaluatePolicy_ok in H2 as (Hdb & Hck & n & Hn).
        destruct tr; simpl in H1; unfold outcome in Hn; simpl in Hn.
        + assert (best' = (if shouldReplaceDecision best (decisionOf p params reason)
            then decisionOf p params reason else best) ∧ w1 = w2) as [-> ->]
            by (destruct (shouldReplaceDecision _ _); by apply ret_ok in H1 as [<- <-]).
          split; [done|]. split; [done|]. exists (Some reason). split; [by apply (says_evaluated _ _ _ _ n)|]. by apply strongest_snoc_some.
        + apply ret_ok in H1 as [<- <-]. split; [done|]. split; [done|]. exists None. split; [by apply (says_evaluated _ _ _ _ n)|].
          by apply strongest_snoc_none.
      - apply ret_ok in H1 as [<- <-]. split; [done|]. split; [done|]. exists None. split; [unfold says; by rewrite Hp|].
        by apply strongest_snoc_none. }
    destruct Hstep as (Hdb1 & Hck1 & o & Ho & Hb').
    apply (IH _ (pre ++ [(p, o)]) _) in H as (Hdb & l & Hl & Hsays & Hst); [|done].
    rewrite Hdb1, Hck1 in Hsays. split; [congruence|]. exists ((p, o) :: l). simpl. rewrite Hl.
    rewrite <- app_assoc in Hst. split; [done|]. split; [|done]. intros x [->|Hx]%elem_of_cons; auto.
Qed.

(** C37: for a request that names a model, [Evaluate] returns the decision of the
    first policy of highest severity (block over downgrade over notify) among
    the organisation's active policies that apply to the request and whose rule
    says so; it returns the empty decision when none does, and it changes
    nothing. A daily-cost rule says exactly what it means. The two spike rules
    compare products of 64 bits: each says exactly what it means when its own
    windows and products fit them at that instant, and otherwise what the wrapped
    products say, which may be wrong ([cost_spike_wraps]). *)
Theorem Evaluate_strongest (params : EvaluateParams) (w w' : world) (d : Decision) :
  params.(ep_OrgID) ≠ Nil → TrimSpace params.(ep_RequestedModel) ≠ "" →
  Evaluate params w = (Ok d, w') →
  w_db w' = w_db w ∧ ∃ l, map fst l = active_policies params.(ep_OrgID) (w_db w) ∧
    (∀ x, x ∈ l → says (w_db w) (w_clock w) params x.1 x.2) ∧ strongest params l d.
Proof.
  intros Ho Hm H. unfold Evaluate in H.
  rewrite (proj2 (N.eqb_neq _ _) Ho), (proj2 (String.eqb_neq _ _) Hm) in H. simpl in H.
  apply bind_ok in H as (ps & w1 & H1 & H).
  pose proof (stmt_clock _ _ _ _ H1) as Hck. apply query_ok in H1 as [[= <-] Hdb].
  apply (Evaluate_loop _ _ _ []) in H as (Hdb' & l & Hl & Hsays & Hst); [|left; split; [done|set_solver]].
  rewrite Hdb, Hck in *. split; [congruence|]. by exists l.
Qed.

Lemma policyApplies_filter p params : policyApplies p params = true → ∃ f, policySQLFilter p = Ok f.
Proof.
  unfold policyApplies, policySQLFilter. intros H.
  destruct (String.eqb_spec p.(CostAnomalyPolicy_ScopeType) ScopeOrg) as [E|_]; [rewrite E; by eexists|].
  destruct (String.eqb p.(CostAnomalyPolicy_ScopeType) ScopeAPIKey).
  - destruct (CostAnomalyPolicy_ScopeID p); [by eexists|done].
  - destruct (String.eqb p.(CostAnomalyPolicy_ScopeType) ScopeModel); by eexists.
Qed.

(** The nil dereference in [policySQLFilter] is unreachable: no evaluation
    panics, whatever rows the policy table holds. *)
Theorem Evaluate_no_panic (params : EvaluateParams) (w : world) :
  (Evaluate params w).1 ≠ Err EPanic.
Proof.
  assert (Hstmt : ∀ A (f : DB → result A) v, (∀ d, f d ≠ Err EPanic) → (query f v).1 ≠ Err EPanic).
  { intros A f v Hf. unfold query, stmt. pose proof (wp_call (λ r _, r ≠ Err EPanic) v) as Hc.
    unfold wp in Hc. destruct (call v) as [[u|e] v'] eqn:E; simpl in *.
    - specialize (Hf (w_db v')). destruct (f (w_db v')) as [a|e]; simpl; [done|]. congruence.
    - specialize (Hc ltac:(naive_solver)). congruence. }
  assert (Hbind : ∀ A B (m : M A) (k : A → M B) v, (m v).1 ≠ Err EPanic →
    (∀ a v', (k a v').1 ≠ Err EPanic) → ((m ≫= k) v).1 ≠ Err EPanic).
  { intros A B m k v Hm Hk. unfold mbind, M_bind. destruct (m v) as [[a|e] v']; simpl in *; [apply Hk|congruence]. }
  assert (Hcost : ∀ p from to v, policyApplies p params = true → (costStats p from to v).1 ≠ Err EPanic).
  { intros p from to v Hap. apply Hbind.
    - simpl. by destruct (policyApplies_filter _ _ Hap) as [f ->].
    - intros f v'. apply Hstmt. intros d0. unfold pg_bigint. simpl.
      by destruct (_ && _). }
  assert (Herr : ∀ p from to v, policyApplies p params = true → (errorStats p from to v).1 ≠ Err EPanic).
  { intros p from to v Hap. apply Hbind; [|intros f v'; by apply Hstmt].
    simpl. by destruct (policyApplies_filter _ _ Hap) as [f ->]. }
  unfold Evaluate. destruct (_ || _); [done|]. apply Hbind; [by apply Hstmt|].
  intros ps. generalize noDecision. induction ps as [|p ps IH]; intros best v; simpl; [done|].
  apply Hbind; [|by intros a v'; apply IH]. unfold evaluateOne.
  destruct (policyApplies p params) eqn:Hap; simpl; [|done]. apply Hbind; [|intros [[] r] v'; simpl; by repeat case_match].
  unfold evaluatePolicy, evaluateDailyCost, evaluateCostSpike, evaluateErrorRateSpike.
  repeat first [by apply Hcost | by apply Herr | apply Hbind | done | case_match | progress intros ].
Qed.

(** ** Creation *)

Lemma orDefault_fix d v : orDefault d (orDefault d v) = orDefault d v.
Proof. unfold orDefault. destruct (v =? 0) eqn:E; [by destruct (d =? 0)|by rewrite E]. Qed.

Lemma orDefault_pos d v : 0 < d → 0 <= orDefault d v → 0 < orDefault d v.
Proof. unfold orDefault. intros. destruct (Z.eqb_spec v 0); lia. Qed.

Lemma fillDefaults_trim_fix p :
  fillDefaults (trimParams (fillDefaults (trimParams p))) = fillDefaults (trimParams p) ∧
  trimParams (fillDefaults (trimParams p)) = fillDefaults (trimParams p).
Proof.
  unfold fillDefaults, trimParams; simpl. by rewrite !TrimSpace_idem, !orDefault_fix.
Qed.

(** Each group of constraints follows from one step of the validation. *)
Lemma scope_schema id now q : validateScope q = Ok tt → scope_check (policy_row id now q) = true.
Proof.
  intros ([] & H & _)%result_bind_ok. unfold scope_check, policy_row, textValue, ScopeOrg, ScopeAPIKey, ScopeModel in *. simpl.
  destruct (String.eqb (cp_ScopeType q) "org"); simpl.
  { destruct (bool_decide (cp_ScopeID q = None)), (String.eqb (cp_ModelAlias q) ""); done. }
  destruct (String.eqb (cp_ScopeType q) "api_key"); simpl.
  { destruct (cp_ScopeID q) as [i|]; [|done]. destruct (i =? Nil)%N, (String.eqb (cp_ModelAlias q) ""); done. }
  destruct (String.eqb (cp_ScopeType q) "model"); [|done].
  destruct (bool_decide (cp_ScopeID q = None)), (String.eqb (cp_ModelAlias q) ""); done.
Qed.

Lemma threshold_schema id now q :
  validateRuleThresholds q = Ok tt → validRule (cp_RuleType q) = true → threshold_check (policy_row id now q) = true.
Proof.
  unfold validateRuleThresholds. intros H Hr. unfold threshold_check. simpl.
  destruct (match cp_ThresholdMicroUSD q with Some v => v <? 0 | None => false end) eqn:E1; [done|].
  destruct (match cp_ThresholdBPS q with Some v => v <=? 0 | None => false end) eqn:E2; [done|].
  apply andb_true_iff. split; [apply andb_true_iff; split|].
  - destruct (cp_ThresholdMicroUSD q) as [v|]; [|done]. by rewrite Z.leb_antisym, E1.
  - destruct (cp_ThresholdBPS q) as [v|]; [|done]. by rewrite Z.ltb_antisym, E2.
  - unfold validRule, RuleDailyCost, RuleAPIKeyCostSpike, RuleModelCostSpike, RuleErrorRateSpike in *.
    destruct (String.eqb (cp_RuleType q) "daily_cost"); simpl in *.
    { by destruct (bool_decide (cp_ThresholdMicroUSD q = None)). }
    destruct (String.eqb (cp_RuleType q) "api_key_cost_spike"); [done|].
    destruct (String.eqb (cp_RuleType q) "model_cost_spike"); [done|].
    destruct (String.eqb (cp_RuleType q) "error_rate_spike"); [|done].
    by destruct (bool_decide (cp_ThresholdBPS q = None)).
Qed.

(** What the normalisation of parameters it accepts has checked. *)
Lemma normalize_ok params n :
  normalizeCreatePolicyParams params = Ok n →
  n = fillDefaults (trimParams params) ∧
  (cp_OrgID n =? Nil)%N = false ∧ String.eqb (cp_Name n) "" = false ∧ validRule (cp_RuleType n) = true ∧
  validAction (cp_Action n) = true ∧
  (String.eqb (cp_Action n) ActionDowngrade && String.eqb (cp_FallbackModel n) "" = false) ∧
  (0 < cp_CurrentWindowMinutes n ∧ 0 < cp_BaselineWindowMinutes n ∧ 0 < cp_MinRequests n ∧ 0 < cp_SpikeMultiplierBPS n) ∧
  validateScope n = Ok tt ∧ validateRuleThresholds n = Ok tt.
Proof.
  intros H. unfold normalizeCreatePolicyParams in H. cbv zeta in H.
  destruct (cp_OrgID (trimParams params) =? Nil)%N eqn:E1; [done|].
  destruct (String.eqb (cp_Name (trimParams params)) "") eqn:E2; [done|].
  destruct (negb (validRule (cp_RuleType (trimParams params)))) eqn:E3; [done|].
  destruct (negb (validAction (cp_Action (trimParams params)))) eqn:E4; [done|].
  destruct (_ && _) eqn:E5 in H; [done|]. destruct (_ || _) eqn:E6 in H; [done|].
  apply result_bind_ok in H as ([] & Hsc & H). apply result_bind_ok in H as ([] & Hth & [= <-]).
  apply negb_false_iff in E3, E4. repeat (split; [done|]). split; [|by split].
  bool_to_prop. repeat split; by apply orDefault_pos.
Qed.

(** What [CreatePolicy] accepts is what the schema accepts: parameters that
    pass validation give a row that satisfies every [CHECK] of the policy
    table, and normalising them again changes nothing. *)
Theorem normalize_meets_schema (params n : CreatePolicyParams) (id : uuid) (now : Z) :
  normalizeCreatePolicyParams params = Ok n →
  policy_check (policy_row id now n) = true ∧ normalizeCreatePolicyParams n = Ok n.
Proof.
  intros H. pose proof (normalize_ok params n H) as (Hn & E1 & E2 & E3 & E4 & E5 & (P1 & P2 & P3 & P4) & Hsc & Hth). split.
  - unfold policy_check. rewrite scope_schema, threshold_schema by done.
    assert (Hc : column_check (policy_row id now n) = true).
    { unfold column_check. simpl. by rewrite E2, E3, E4, !(proj2 (Z.ltb_lt _ _)). }
    rewrite Hc. unfold fallback_check, policy_row, textValue. simpl. unfold ActionDowngrade in E5.
    destruct (String.eqb (cp_Action n) "downgrade"); [|done]. simpl in E5. by rewrite E5.
  - destruct (fillDefaults_trim_fix params) as [_ Hfix]. unfold normalizeCreatePolicyParams. cbv zeta.
    rewrite <- Hn in Hfix. rewrite Hfix.
    assert (Hfill : fillDefaults n = n).
    { rewrite Hn. unfold fillDefaults, trimParams; simpl. by rewrite !orDefault_fix. }
    rewrite Hfill, E1, E2, E3, E4, E5. simpl.
    rewrite !(proj2 (Z.ltb_ge _ _)) by lia. simpl. by rewrite Hsc, Hth.
Qed.

(** ** Concrete cases *)

Definition ex_policy : CostAnomalyPolicy :=
  mkCostAnomalyPolicy 50%N 1%N "cap" "daily_cost" "org" None None (Some 150) None 20000 60 1440 1 "block" None "active" 0 0.

(** The deployment of [ex_db] with its one request logged and that policy. *)
Definition ex_policy_db : DB :=
  set_cost_anomaly_policies (λ _, [ex_policy])
    (set_request_logs (λ _, [mkRequestLog 31%N 1%N (Some 2%N) (Some 40%N) (Some 41%N) None "POST" "/v1/chat/completions"
       (Some "gpt") "success" 200 None None None 5 None None (Day + 1) (Day + 1)]) ex_db).

Lemma Evaluate_strongest_witness :
  let params := mkEvaluateParams 1%N 2%N "gpt" in
  let w := set_db ex_policy_db ex_world in
  (Evaluate params w).1 = Ok (decisionOf ex_policy params "daily_cost_threshold") ∧
  w_db (Evaluate params w).2 = ex_policy_db.
Proof.
  intros params w; subst params w.
  assert (E : (Evaluate (mkEvaluateParams 1%N 2%N "gpt") (set_db ex_policy_db ex_world)).1 =
    Ok (decisionOf ex_policy (mkEvaluateParams 1%N 2%N "gpt") "daily_cost_threshold"))
    by (vm_compute; reflexivity).
  split; [exact E|].
  refine (proj1 (Evaluate_strongest (mkEvaluateParams 1%N 2%N "gpt") (set_db ex_policy_db ex_world) _ _ _ _ (run_eq _ _ E))).
  - discriminate.
  - vm_compute; discriminate.
Defined.

Lemma normalize_meets_schema_witness :
  let params := mkCreatePolicyParams 1%N " cap " "daily_cost" "org" None "" (Some 150) None 0 0 0 0 " block" "" in
  ∃ n, normalizeCreatePolicyParams params = Ok n ∧ policy_check (policy_row 50%N 0 n) = true.
Proof.
  intros params. eexists. split; [vm_compute; reflexivity|].
  eapply (normalize_meets_schema params _ 50%N 0). vm_compute. reflexivity.
Defined.

(** The products of [evaluateCostSpike] are [int64]: a cost of 700 000 dollars
    in an hour against a baseline of one micro-dollar a day is not reported
    under the default windows. *)
Theorem cost_spike_wraps :
  let p := mkCostAnomalyPolicy 50%N 1%N "spike" "api_key_cost_spike" "api_key" (Some 2%N) None None None
             20000 60 1440 1 "block" None "active" 0 0 in
  costSpikeReached 700000000000 1 p = false ∧ 1 * 60 * 20000 <= 700000000000 * 1440 * bpsScale.
Proof. vm_compute. split; [done|discriminate]. Qed.

End Anomaly.
