(* ===== verification/Routing.v ===== *)
(** * Routing: [internal/routing/resolver.go]

    A route policy maps the model a client asks for to an ordered list of
    (provider, model) targets: one target, a fallback chain by priority, the
    cheapest first, or the fastest first. *)

From Stdlib Require Import QArith.
From S2P Require Import Prelude GoTime GoStrings Costing Store ExampleWorld.
#[local] Open Scope Z_scope.

Module Routing.

Definition StrategySingle : string := "single".
Definition StrategyFallback : string := "fallback".
Definition StrategyLowestCost : string := "lowest_cost".
Definition StrategyLowestLatency : string := "lowest_latency".

Definition ErrRouteNotFound : err := EWrap "route not found" "".
Definition ErrRouteTargetNotFound : err := EWrap "route target not found" "".

(** [*ValidationError]. *)
Definition validationError (message : string) : err := EWrap "validation error" message.
Definition IsValidationError (e : err) : bool :=
  match e with EWrap s _ => String.eqb s "validation error" | _ => false end.
Definition IsUniqueViolation (e : err) : bool :=
  match e with EPg s => String.eqb s "23505" | _ => false end.

Record TargetParams := mkTargetParams {
  tp_ProviderID : uuid;
  tp_ModelID : uuid;
  tp_Priority : Z;
  tp_Weight : Z
}.

(** [json.RawMessage] as a request carries it. *)
Inductive RawMessage : Type :=
| RawEmpty
| RawInvalid
| RawJson (j : json).

Record CreateRoutePolicyParams := mkCreateRoutePolicyParams {
  rp_OrgID : uuid;
  rp_Name : string;
  rp_MatchModel : string;
  rp_Strategy : string;
  rp_Config : RawMessage;
  rp_Targets : list TargetParams
}.

Record ResolveParams := mkResolveParams {
  rs_OrgID : uuid;
  rs_RequestedModel : string;
  rs_EstimatedPromptTokens : Z;
  rs_EstimatedMaxTokens : Z
}.

(** Latencies are non-NaN doubles, rationals here. *)
Record ResolvedTarget := mkResolvedTarget {
  rt_RouteTarget : RouteTarget;
  rt_Provider : Provider;
  rt_Model : Model;
  rt_EstimatedCostMicroUSD : Z;
  rt_HasLatencyStats : bool;
  rt_P50LatencyMS : Q;
  rt_P95LatencyMS : Q
}.

Record ResolveTargetsResult := mkResolveTargetsResult {
  rr_RoutePolicy : RoutePolicy;
  rr_Targets : list ResolvedTarget
}.

Record PolicyConfig := mkPolicyConfig {
  MaxEstimatedCostMicroUSD : option Z;
  FallbackToPriority : option bool;
  LatencyWindowMinutes : option Z
}.

(** ** Configuration *)

(** The case folding [encoding/json] applies to object keys: ASCII letters, the
    long s and the Kelvin sign. *)
Definition byte (a : Ascii.ascii) : nat := Ascii.nat_of_ascii a.

Definition lowerASCII (a : Ascii.ascii) : Ascii.ascii :=
  if ((65 <=? byte a) && (byte a <=? 90))%nat then Ascii.ascii_of_nat (byte a + 32) else a.

Fixpoint foldName (s : string) : string :=
  match s with
  | String a s1 =>
      match s1 with
      | String b s2 =>
          if ((byte a =? 197) && (byte b =? 191))%nat then String (Ascii.ascii_of_nat 115) (foldName s2)
          else
            match s2 with
            | String c s3 =>
                if ((byte a =? 226) && (byte b =? 132) && (byte c =? 170))%nat then String (Ascii.ascii_of_nat 107) (foldName s3)
                else String (lowerASCII a) (foldName s1)
            | EmptyString => String (lowerASCII a) (foldName s1)
            end
      | EmptyString => String (lowerASCII a) EmptyString
      end
  | EmptyString => EmptyString
  end.

Definition errUnmarshal : err := EMsg "json: cannot unmarshal".

(** One member of the object, decoded into the struct. *)
Definition setField (cfg : PolicyConfig) (field : string * json) : result PolicyConfig :=
  let '(key, value) := field in
  let name := foldName key in
  if String.eqb name "max_estimated_cost_micro_usd" then
    match value with
    | JNull => Ok (mkPolicyConfig None cfg.(FallbackToPriority) cfg.(LatencyWindowMinutes))
    | JNum n => if (MinInt64 <=? n) && (n <=? MaxInt64)
                then Ok (mkPolicyConfig (Some n) cfg.(FallbackToPriority) cfg.(LatencyWindowMinutes))
                else Err errUnmarshal
    | _ => Err errUnmarshal
    end
  else if String.eqb name "fallback_to_priority" then
    match value with
    | JNull => Ok (mkPolicyConfig cfg.(MaxEstimatedCostMicroUSD) None cfg.(LatencyWindowMinutes))
    | JBool b => Ok (mkPolicyConfig cfg.(MaxEstimatedCostMicroUSD) (Some b) cfg.(LatencyWindowMinutes))
    | _ => Err errUnmarshal
    end
  else if String.eqb name "latency_window_minutes" then
    match value with
    | JNull => Ok (mkPolicyConfig cfg.(MaxEstimatedCostMicroUSD) cfg.(FallbackToPriority) None)
    | JNum n => if (MinInt64 <=? n) && (n <=? MaxInt64)
                then Ok (mkPolicyConfig cfg.(MaxEstimatedCostMicroUSD) cfg.(FallbackToPriority) (Some n))
                else Err errUnmarshal
    | _ => Err errUnmarshal
    end
  else Ok cfg.

Fixpoint setFields (cfg : PolicyConfig) (fields : list (string * json)) : result PolicyConfig :=
  match fields with
  | [] => Ok cfg
  | f :: fs => cfg' ← setField cfg f; setFields cfg' fs
  end.

(** [json.Unmarshal(raw, &cfg)]. *)
Definition unmarshalConfig (j : json) : result PolicyConfig :=
  match j with
  | JObj fields => setFields (mkPolicyConfig None None None) fields
  | JNull => Ok (mkPolicyConfig None None None)
  | _ => Err errUnmarshal
  end.

Definition parsePolicyConfig (raw : option json) : result PolicyConfig :=
  match raw with
  | None => Ok (mkPolicyConfig None None None)
  | Some j =>
      cfg ← unmarshalConfig j;
      if match cfg.(MaxEstimatedCostMicroUSD) with Some n => n <? 0 | None => false end
      then Err (validationError "max_estimated_cost_micro_usd must be non-negative")
      else if match cfg.(LatencyWindowMinutes) with Some n => n <=? 0 | None => false end
      then Err (validationError "latency_window_minutes must be greater than zero")
      else Ok cfg
  end.

Definition fallbackToPriority (c : PolicyConfig) : bool :=
  match c.(FallbackToPriority) with None => true | Some b => b end.
Definition latencyWindowMinutes (c : PolicyConfig) : Z :=
  match c.(LatencyWindowMinutes) with None => 15 | Some n => n end.

Definition normalizePolicyConfig (raw : RawMessage) : result json :=
  match raw with
  | RawEmpty => Ok (JObj [])
  | RawInvalid => Err (validationError "config must be valid JSON")
  | RawJson j => _ ← parsePolicyConfig (Some j); Ok j
  end.

(** ** Creation *)

Definition validStrategy (strategy : string) : bool :=
  String.eqb strategy StrategySingle || String.eqb strategy StrategyFallback
  || String.eqb strategy StrategyLowestCost || String.eqb strategy StrategyLowestLatency.

Fixpoint validateTargets (targets : list TargetParams) : result unit :=
  match targets with
  | [] => Ok tt
  | t :: rest =>
      if (t.(tp_ProviderID) =? Nil)%N then Err (validationError "target provider_id is required")
      else if (t.(tp_ModelID) =? Nil)%N then Err (validationError "target model_id is required")
      else if t.(tp_Priority) <=? 0 then Err (validationError "target priority must be greater than zero")
      else if t.(tp_Weight) <=? 0 then Err (validationError "target weight must be greater than zero")
      else validateTargets rest
  end.

Definition validateCreateRoutePolicyParams (params : CreateRoutePolicyParams) : result unit :=
  let n := length params.(rp_Targets) in
  if (params.(rp_OrgID) =? Nil)%N then Err (validationError "org_id is required")
  else if String.eqb (TrimSpace params.(rp_Name)) "" then Err (validationError "name is required")
  else if String.eqb (TrimSpace params.(rp_MatchModel)) "" then Err (validationError "match_model is required")
  else if negb (validStrategy params.(rp_Strategy))
  then Err (validationError "strategy must be single, fallback, lowest_cost or lowest_latency")
  else if String.eqb params.(rp_Strategy) StrategySingle && negb (n =? 1)%nat
  then Err (validationError "single strategy requires exactly one target")
  else if String.eqb params.(rp_Strategy) StrategyFallback && (n <? 2)%nat
  then Err (validationError "fallback strategy requires at least two targets")
  else if String.eqb params.(rp_Strategy) StrategyLowestCost && (n =? 0)%nat
  then Err (validationError "lowest_cost strategy requires at least one target")
  else if String.eqb params.(rp_Strategy) StrategyLowestLatency && (n =? 0)%nat
  then Err (validationError "lowest_latency strategy requires at least one target")
  else validateTargets params.(rp_Targets).

Definition validateTargetBelongsToOrg (orgID : uuid) (target : TargetParams) : M unit :=
  provider ← orNoRows (GetProvider orgID target.(tp_ProviderID)) ErrRouteTargetNotFound;
  model ← orNoRows (GetModel orgID target.(tp_ModelID)) ErrRouteTargetNotFound;
  if negb (model.(Model_ProviderID) =? provider.(Provider_ID))%N then fail ErrRouteTargetNotFound
  else if negb (String.eqb provider.(Provider_Status) "active")
  then fail (validationError "target provider must be active")
  else if negb (String.eqb model.(Model_Status) "active")
  then fail (validationError "target model must be active")
  else mret tt.

(** The constraints of [route_policies] and [route_targets]. *)
Definition insert_route_policy (p : RoutePolicy) (d : DB) : result (RoutePolicy * DB) :=
  _ ← pg_check (negb (String.eqb p.(RoutePolicy_Name) "") && negb (String.eqb p.(RoutePolicy_MatchModel) "")
                && validStrategy p.(RoutePolicy_Strategy)
                && (String.eqb p.(RoutePolicy_Status) "active" || String.eqb p.(RoutePolicy_Status) "disabled"));
  _ ← pg_unique (λ p', (p'.(RoutePolicy_ID) =? p.(RoutePolicy_ID))%N) d.(route_policies);
  _ ← pg_unique (λ p', (p'.(RoutePolicy_OrgID) =? p.(RoutePolicy_OrgID))%N
                       && String.eqb p'.(RoutePolicy_MatchModel) p.(RoutePolicy_MatchModel)) d.(route_policies);
  Ok (p, set_route_policies (λ ps, ps ++ [p]) d).

Definition insert_route_target (t : RouteTarget) (d : DB) : result (unit * DB) :=
  _ ← pg_check ((0 <? t.(RouteTarget_Priority)) && (0 <? t.(RouteTarget_Weight)));
  _ ← pg_unique (λ t', (t'.(RouteTarget_ID) =? t.(RouteTarget_ID))%N) d.(route_targets);
  _ ← pg_unique (λ t', (t'.(RouteTarget_OrgID) =? t.(RouteTarget_OrgID))%N
                       && (t'.(RouteTarget_RoutePolicyID) =? t.(RouteTarget_RoutePolicyID))%N
                       && (t'.(RouteTarget_Priority) =? t.(RouteTarget_Priority))) d.(route_targets);
  Ok (tt, set_route_targets (λ ts, ts ++ [t]) d).

Definition createTarget (orgID policyID : uuid) (now : Z) (target : TargetParams) : M unit :=
  id ← new_uuid;
  stmt (insert_route_target (mkRouteTarget id orgID policyID target.(tp_ProviderID) target.(tp_ModelID)
                               target.(tp_Priority) target.(tp_Weight) now)).

Definition CreateRoutePolicy (params : CreateRoutePolicyParams) : M RoutePolicy :=
  _ ← lift (validateCreateRoutePolicyParams params);
  now ← clock;
  ExecTx (
    _ ← forM params.(rp_Targets) tt (λ _ target, validateTargetBelongsToOrg params.(rp_OrgID) target);
    config ← lift (normalizePolicyConfig params.(rp_Config));
    id ← new_uuid;
    policy ← stmt (insert_route_policy (mkRoutePolicy id params.(rp_OrgID) (TrimSpace params.(rp_Name))
                     (TrimSpace params.(rp_MatchModel)) params.(rp_Strategy) "active" now now (Some config)));
    _ ← forM params.(rp_Targets) tt (λ _ target, createTarget params.(rp_OrgID) policy.(RoutePolicy_ID) now target);
    mret policy).

(** [ORDER BY created_at DESC, id DESC]. *)
Definition newest_route_first (a b : RoutePolicy) : bool :=
  (b.(RoutePolicy_CreatedAt) <? a.(RoutePolicy_CreatedAt))
  || ((b.(RoutePolicy_CreatedAt) =? a.(RoutePolicy_CreatedAt)) && (b.(RoutePolicy_ID) <=? a.(RoutePolicy_ID))%N).

Definition ListRoutePolicies (orgID : uuid) : M (list RoutePolicy) :=
  query (λ d, Ok (sort_by newest_route_first (List.filter (λ p, (p.(RoutePolicy_OrgID) =? orgID)%N) d.(route_policies)))).

(** ** Resolution *)

Section Resolve.

(** PostgreSQL's [percentile_cont], as a double. *)
Variable percentile_cont : Q → list Z → Q.

Definition estimatedCostMicroUSD (model : Model) (params : ResolveParams) : result Z :=
  let promptTokens := if params.(rs_EstimatedPromptTokens) <? 0 then 0 else params.(rs_EstimatedPromptTokens) in
  let maxTokens := if params.(rs_EstimatedMaxTokens) <? 0 then 0 else params.(rs_EstimatedMaxTokens) in
  calculation ← Calculate (mkCalculateInput promptTokens maxTokens
      model.(Model_InputPriceMicroUsdPer1kTokens) model.(Model_OutputPriceMicroUsdPer1kTokens));
  Ok calculation.(TotalCostMicro).

(** [a.ID.String() < b.ID.String()]: the text of a UUID is its 32 hexadecimal
    digits at fixed places, so the texts compare as the numbers do. *)
Definition idLess (a b : RouteTarget) : bool := (a.(RouteTarget_ID) <? b.(RouteTarget_ID))%N.

Definition priorityLess (a b : ResolvedTarget) : bool :=
  if negb (a.(rt_RouteTarget).(RouteTarget_Priority) =? b.(rt_RouteTarget).(RouteTarget_Priority))
  then a.(rt_RouteTarget).(RouteTarget_Priority) <? b.(rt_RouteTarget).(RouteTarget_Priority)
  else idLess a.(rt_RouteTarget) b.(rt_RouteTarget).

Definition lowestCostLess (a b : ResolvedTarget) : bool :=
  if negb (a.(rt_EstimatedCostMicroUSD) =? b.(rt_EstimatedCostMicroUSD))
  then a.(rt_EstimatedCostMicroUSD) <? b.(rt_EstimatedCostMicroUSD)
  else priorityLess a b.

Definition Qltb (a b : Q) : bool := negb (Qle_bool b a).

Definition latencyLess (a b : ResolvedTarget) : bool :=
  if negb (Bool.eqb a.(rt_HasLatencyStats) b.(rt_HasLatencyStats)) then a.(rt_HasLatencyStats)
  else if a.(rt_HasLatencyStats) && b.(rt_HasLatencyStats) then
    if negb (Qeq_bool a.(rt_P95LatencyMS) b.(rt_P95LatencyMS)) then Qltb a.(rt_P95LatencyMS) b.(rt_P95LatencyMS)
    else if negb (Qeq_bool a.(rt_P50LatencyMS) b.(rt_P50LatencyMS)) then Qltb a.(rt_P50LatencyMS) b.(rt_P50LatencyMS)
    else priorityLess a b
  else priorityLess a b.

(** [sort.SliceStable(targets, less)]. *)
Definition SliceStable {A} (less : A → A → bool) (l : list A) : list A :=
  sort_by (λ a b, negb (less b a)) l.

Definition sortLowestCostTargets (targets : list ResolvedTarget) : list ResolvedTarget :=
  SliceStable lowestCostLess targets.
Definition sortLatencyTargets (targets : list ResolvedTarget) : list ResolvedTarget :=
  SliceStable latencyLess targets.

Definition setCost (t : ResolvedTarget) (cost : Z) : ResolvedTarget :=
  mkResolvedTarget t.(rt_RouteTarget) t.(rt_Provider) t.(rt_Model) cost
    t.(rt_HasLatencyStats) t.(rt_P50LatencyMS) t.(rt_P95LatencyMS).

Fixpoint estimateCosts (params : ResolveParams) (targets : list ResolvedTarget) : result (list ResolvedTarget) :=
  match targets with
  | [] => Ok []
  | t :: rest =>
      cost ← estimatedCostMicroUSD t.(rt_Model) params;
      rest' ← estimateCosts params rest;
      Ok (setCost t cost :: rest')
  end.

Definition resolveLowestCostTargets (policy : RoutePolicy) (params : ResolveParams)
    (targets : list ResolvedTarget) : result (list ResolvedTarget) :=
  cfg ← parsePolicyConfig policy.(RoutePolicy_Config);
  targets ← estimateCosts params targets;
  let targets := sortLowestCostTargets targets in
  match cfg.(MaxEstimatedCostMicroUSD) with
  | None => Ok targets
  | Some max =>
      let eligible := List.filter (λ t, t.(rt_EstimatedCostMicroUSD) <=? max) targets in
      match eligible with
      | _ :: _ => Ok eligible
      | [] => if fallbackToPriority cfg then Ok (SliceStable priorityLess targets) else Err ErrRouteNotFound
      end
  end.

(** The rows of [ProviderModelLatencyStats] that concern a target: [None] when
    no row has its provider and model. *)
Definition latency_sample (d : DB) (orgID : uuid) (from to : Z) (providerID modelID : uuid) : list Z :=
  map RequestLog_LatencyMs
    (List.filter (λ rl, (rl.(RequestLog_OrgID) =? orgID)%N
        && (from <=? rl.(RequestLog_CompletedAt)) && (rl.(RequestLog_CompletedAt) <? to)
        && bool_decide (rl.(RequestLog_ProviderID) = Some providerID)
        && bool_decide (rl.(RequestLog_ModelID) = Some modelID)
        && (String.eqb rl.(RequestLog_Status) "success" || String.eqb rl.(RequestLog_Status) "budget_warned"))
       d.(request_logs)).

Definition withLatency (d : DB) (orgID : uuid) (from to : Z) (t : ResolvedTarget) : ResolvedTarget :=
  match latency_sample d orgID from to t.(rt_Provider).(Provider_ID) t.(rt_Model).(Model_ID) with
  | [] => t
  | sample =>
      mkResolvedTarget t.(rt_RouteTarget) t.(rt_Provider) t.(rt_Model) t.(rt_EstimatedCostMicroUSD)
        true (percentile_cont (1 # 2) sample) (percentile_cont (95 # 100) sample)
  end.

Definition resolveLowestLatencyTargets (policy : RoutePolicy) (params : ResolveParams)
    (targets : list ResolvedTarget) : M (list ResolvedTarget) :=
  cfg ← lift (parsePolicyConfig policy.(RoutePolicy_Config));
  to ← clock;
  let from := to + (- latencyWindowMinutes cfg) *₆₄ Minute in
  targets ← query (λ d, Ok (map (withLatency d params.(rs_OrgID) from to) targets));
  mret (sortLatencyTargets targets).

Definition isRanked (strategy : string) : bool :=
  String.eqb strategy StrategyLowestCost || String.eqb strategy StrategyLowestLatency.

(** One iteration of the loop over the targets: [None] is its [continue]. *)
Definition resolveTarget (policy : RoutePolicy) (params : ResolveParams) (target : RouteTarget)
    : M (option ResolvedTarget) :=
  provider ← orNoRows (GetProvider params.(rs_OrgID) target.(RouteTarget_ProviderID)) ErrRouteNotFound;
  model ← orNoRows (GetModel params.(rs_OrgID) target.(RouteTarget_ModelID)) ErrRouteNotFound;
  if negb (String.eqb provider.(Provider_Status) "active") || negb (String.eqb model.(Model_Status) "active")
     || negb (model.(Model_ProviderID) =? provider.(Provider_ID))%N
  then if isRanked policy.(RoutePolicy_Strategy) then mret None else fail ErrRouteNotFound
  else mret (Some (mkResolvedTarget target provider model 0 false 0%Q 0%Q)).

(** [ORDER BY priority ASC, id ASC]. *)
Definition target_le (a b : RouteTarget) : bool :=
  (a.(RouteTarget_Priority) <? b.(RouteTarget_Priority))
  || ((a.(RouteTarget_Priority) =? b.(RouteTarget_Priority)) && (a.(RouteTarget_ID) <=? b.(RouteTarget_ID))%N).

Definition list_targets (orgID policyID : uuid) (d : DB) : list RouteTarget :=
  sort_by target_le
    (List.filter (λ t, (t.(RouteTarget_OrgID) =? orgID)%N && (t.(RouteTarget_RoutePolicyID) =? policyID)%N)
       d.(route_targets)).

Definition matches (orgID : uuid) (model : string) (p : RoutePolicy) : bool :=
  (p.(RoutePolicy_OrgID) =? orgID)%N && String.eqb p.(RoutePolicy_MatchModel) model
  && String.eqb p.(RoutePolicy_Status) "active".

Definition GetRoutePolicyByMatchModel (orgID : uuid) (model : string) : M RoutePolicy :=
  query (λ d, pg_one (matches orgID model) d.(route_policies)).

Definition ResolveTargets (params : ResolveParams) : M ResolveTargetsResult :=
  let requestedModel := TrimSpace params.(rs_RequestedModel) in
  if (params.(rs_OrgID) =? Nil)%N || String.eqb requestedModel "" then fail ErrRouteNotFound
  else
    policy ← orNoRows (GetRoutePolicyByMatchModel params.(rs_OrgID) requestedModel) ErrRouteNotFound;
    if negb (validStrategy policy.(RoutePolicy_Strategy)) then fail ErrRouteNotFound
    else
      targets ← query (λ d, Ok (list_targets params.(rs_OrgID) policy.(RoutePolicy_ID) d));
      match targets with
      | [] => fail ErrRouteNotFound
      | _ =>
          resolved ← forM targets [] (λ acc target,
              r ← resolveTarget policy params target;
              mret (match r with Some t => acc ++ [t] | None => acc end));
          resolved ← (if String.eqb policy.(RoutePolicy_Strategy) StrategyLowestCost
                      then lift (resolveLowestCostTargets policy params resolved) else mret resolved);
          resolved ← (if String.eqb policy.(RoutePolicy_Strategy) StrategyLowestLatency
                      then resolveLowestLatencyTargets policy params resolved else mret resolved);
          match resolved with
          | [] => fail ErrRouteNotFound
          | _ => mret (mkResolveTargetsResult policy resolved)
          end
      end.

Definition Resolve (params : ResolveParams) : M (RoutePolicy * Provider * Model) :=
  result ← ResolveTargets params;
  match result.(rr_Targets) with
  | [] => fail ErrRouteNotFound
  | target :: _ => mret (result.(rr_RoutePolicy), target.(rt_Provider), target.(rt_Model))
  end.

(** ** Specification *)

(** The target a row stands for, when its provider and model exist, are active
    and belong together. *)
Definition candidate (d : DB) (orgID : uuid) (t : RouteTarget) : option ResolvedTarget :=
  match find (λ p, (p.(Provider_OrgID) =? orgID)%N && (p.(Provider_ID) =? t.(RouteTarget_ProviderID))%N) d.(providers),
        find (λ m, (m.(Model_OrgID) =? orgID)%N && (m.(Model_ID) =? t.(RouteTarget_ModelID))%N) d.(models) with
  | Some p, Some m =>
      if String.eqb p.(Provider_Status) "active" && String.eqb m.(Model_Status) "active"
         && (m.(Model_ProviderID) =? p.(Provider_ID))%N
      then Some (mkResolvedTarget t p m 0 false 0%Q 0%Q) else None
  | _, _ => None
  end.

Definition candidates (d : DB) (orgID policyID : uuid) : list ResolvedTarget :=
  omap (candidate d orgID) (list_targets orgID policyID d).

(** A target fit to be called. *)
Definition usable (d : DB) (orgID policyID : uuid) (t : ResolvedTarget) : Prop :=
  t.(rt_RouteTarget) ∈ d.(route_targets) ∧
  t.(rt_RouteTarget).(RouteTarget_OrgID) = orgID ∧ t.(rt_RouteTarget).(RouteTarget_RoutePolicyID) = policyID ∧
  t.(rt_Provider) ∈ d.(providers) ∧ t.(rt_Provider).(Provider_OrgID) = orgID ∧
  t.(rt_Provider).(Provider_ID) = t.(rt_RouteTarget).(RouteTarget_ProviderID) ∧
  t.(rt_Provider).(Provider_Status) = "active" ∧
  t.(rt_Model) ∈ d.(models) ∧ t.(rt_Model).(Model_OrgID) = orgID ∧
  t.(rt_Model).(Model_ID) = t.(rt_RouteTarget).(RouteTarget_ModelID) ∧
  t.(rt_Model).(Model_Status) = "active" ∧ t.(rt_Model).(Model_ProviderID) = t.(rt_Provider).(Provider_ID).

(** ** Orders *)

Lemma weak_order_priority : weak_order priorityLess.
Proof.
  apply (weak_order_ext (lex (λ a b, a.(rt_RouteTarget).(RouteTarget_Priority) <? b.(rt_RouteTarget).(RouteTarget_Priority))
    (λ a b, (a.(rt_RouteTarget).(RouteTarget_ID) <? b.(rt_RouteTarget).(RouteTarget_ID))%N))).
  - intros a b. unfold priorityLess, lex, idLess.
    destruct (Z.eqb_spec (RouteTarget_Priority (rt_RouteTarget a)) (RouteTarget_Priority (rt_RouteTarget b))) as [->|Hne]; simpl.
    + by rewrite !Z.ltb_irrefl.
    + destruct (Z.ltb_spec (RouteTarget_Priority (rt_RouteTarget a)) (RouteTarget_Priority (rt_RouteTarget b))); simpl; [done|].
      by rewrite (proj2 (Z.ltb_lt _ _)) by lia.
  - apply weak_order_lex; [apply (weak_order_Z (λ t, RouteTarget_Priority (rt_RouteTarget t)))|
      apply (weak_order_N (λ t, RouteTarget_ID (rt_RouteTarget t)))].
Qed.

Lemma weak_order_cost : weak_order lowestCostLess.
Proof.
  apply (weak_order_ext (lex (λ a b, a.(rt_EstimatedCostMicroUSD) <? b.(rt_EstimatedCostMicroUSD)) priorityLess)).
  - intros a b. unfold lowestCostLess, lex.
    destruct (Z.eqb_spec (rt_EstimatedCostMicroUSD a) (rt_EstimatedCostMicroUSD b)) as [->|Hne]; simpl.
    + by rewrite !Z.ltb_irrefl.
    + destruct (Z.ltb_spec (rt_EstimatedCostMicroUSD a) (rt_EstimatedCostMicroUSD b)); simpl; [done|].
      by rewrite (proj2 (Z.ltb_lt _ _)) by lia.
  - apply weak_order_lex; [apply (weak_order_Z rt_EstimatedCostMicroUSD)|apply weak_order_priority].
Qed.

Lemma Qltb_lt a b : Qltb a b = true ↔ (a < b)%Q.
Proof.
  unfold Qltb. rewrite negb_true_iff, <- not_true_iff_false, Qle_bool_iff.
  split; [apply Qnot_le_lt|apply Qlt_not_le].
Qed.

Lemma Qltb_ge a b : Qltb a b = false ↔ (b <= a)%Q.
Proof. unfold Qltb. by rewrite negb_false_iff, Qle_bool_iff. Qed.

Lemma weak_order_Q {A} (f : A → Q) : weak_order (λ a b, Qltb (f a) (f b)).
Proof.
  split; intros *.
  - rewrite Qltb_lt, Qltb_ge. apply Qlt_le_weak.
  - rewrite !Qltb_ge. intros H1 H2. by apply (Qle_trans _ (f b)).
Qed.

Definition statKey (f : ResolvedTarget → Q) (t : ResolvedTarget) : Q :=
  if t.(rt_HasLatencyStats) then f t else 0%Q.

Lemma lex_Q (f : ResolvedTarget → Q) less a b :
  lex (λ a b, Qltb (f a) (f b)) less a b =
  if negb (Qeq_bool (f a) (f b)) then Qltb (f a) (f b) else less a b.
Proof.
  unfold lex. destruct (Qeq_bool (f a) (f b)) eqn:E; simpl.
  - apply Qeq_bool_iff in E.
    assert (Qltb (f a) (f b) = false ∧ Qltb (f b) (f a) = false) as [-> ->]; [|done].
    rewrite !Qltb_ge, E. split; apply Qle_refl.
  - destruct (Qltb (f a) (f b)) eqn:Eab; [done|]. simpl.
    destruct (Qltb (f b) (f a)) eqn:Eba; [done|]. exfalso. apply Qltb_ge in Eab, Eba.
    assert (Qeq_bool (f a) (f b) = true) by (apply Qeq_bool_iff; by apply Qle_antisym). congruence.
Qed.

Lemma weak_order_latency : weak_order latencyLess.
Proof.
  apply (weak_order_ext (lex (λ a b, (if a.(rt_HasLatencyStats) then 0 else 1) <? (if b.(rt_HasLatencyStats) then 0 else 1))
    (lex (λ a b, Qltb (statKey rt_P95LatencyMS a) (statKey rt_P95LatencyMS b))
       (lex (λ a b, Qltb (statKey rt_P50LatencyMS a) (statKey rt_P50LatencyMS b)) priorityLess)))).
  - intros a b. unfold lex at 1. rewrite !lex_Q. unfold latencyLess, statKey.
    by destruct (rt_HasLatencyStats a), (rt_HasLatencyStats b).
  - apply weak_order_lex; [apply (weak_order_Z (λ t, if rt_HasLatencyStats t then 0 else 1))|].
    apply weak_order_lex; [apply (weak_order_Q (statKey rt_P95LatencyMS))|].
    apply weak_order_lex; [apply (weak_order_Q (statKey rt_P50LatencyMS))|apply weak_order_priority].
Qed.

(** ** The loop over the targets *)

Lemma resolveTarget_ok policy params t w o w' :
  resolveTarget policy params t w = (Ok o, w') →
  w_db w' = w_db w ∧ w_clock w' = w_clock w ∧ o = candidate (w_db w) params.(rs_OrgID) t ∧
  (isRanked policy.(RoutePolicy_Strategy) = false → is_Some o).
Proof.
  intros H. unfold resolveTarget in H.
  apply bind_ok in H as (p & w1 & H1 & H). apply orNoRows_ok in H1.
  pose proof (stmt_clock _ _ _ _ H1) as Hck1. apply query_ok in H1 as [H1 Hdb1].
  apply bind_ok in H as (m & w2 & H2 & H). apply orNoRows_ok in H2.
  pose proof (stmt_clock _ _ _ _ H2) as Hck2. apply query_ok in H2 as [H2 Hdb2].
  rewrite Hdb1 in H2. rewrite pg_one_find in H1. rewrite pg_one_find in H2. unfold candidate.
  destruct (find _ (providers _)) as [p'|]; [|done]. injection H1 as <-.
  destruct (find _ (models _)) as [m'|]; [|done]. injection H2 as <-.
  destruct (String.eqb (Provider_Status p') "active"), (String.eqb (Model_Status m') "active"),
    (Model_ProviderID m' =? Provider_ID p')%N; simpl in *;
    try (destruct (isRanked _); [|by apply fail_ok in H]);
    apply ret_ok in H as [<- <-]; repeat split; first [congruence|done|by eexists].
Qed.

Lemma resolve_loop policy params ts acc w rs w' :
  forM ts acc (λ acc target,
      r ← resolveTarget policy params target;
      mret (match r with Some t => acc ++ [t] | None => acc end)) w = (Ok rs, w') →
  w_db w' = w_db w ∧ w_clock w' = w_clock w ∧
  rs = acc ++ omap (candidate (w_db w) params.(rs_OrgID)) ts ∧
  (isRanked policy.(RoutePolicy_Strategy) = false →
   ∀ t, t ∈ ts → is_Some (candidate (w_db w) params.(rs_OrgID) t)).
Proof.
  revert acc w. induction ts as [|t ts IH]; intros acc w H; simpl in H.
  - apply ret_ok in H as [<- <-]. rewrite app_nil_r. repeat split; try done. set_solver.
  - apply bind_ok in H as (acc' & w1 & H1 & H). apply bind_ok in H1 as (o & w2 & H1 & H2).
    apply resolveTarget_ok in H1 as (Hdb & Hck & -> & Hsome). apply ret_ok in H2 as [<- <-].
    apply IH in H as (Hdb' & Hck' & -> & Hall). rewrite Hdb in Hall. rewrite Hdb', Hck', Hdb, Hck.
    split; [done|]. split; [done|]. split.
    + simpl. destruct (candidate (w_db w) (rs_OrgID params) t); [by rewrite <- app_assoc|done].
    + intros Hr x [->|Hx]%elem_of_cons; auto.
Qed.

Lemma find_elem {A} (f : A → bool) l x : find f l = Some x → x ∈ l ∧ f x = true.
Proof. intros H. apply find_some in H as [Hin Hf]. split; [by apply list_elem_of_In|done]. Qed.

Lemma candidates_usable d orgID policyID t : t ∈ candidates d orgID policyID → usable d orgID policyID t.
Proof.
  intros H. apply list_elem_of_omap in H as (r & Hr & Hc).
  unfold list_targets in Hr. rewrite elem_of_sort_by in Hr.
  apply list_elem_of_In, filter_In in Hr as [Hr Hkey]. apply list_elem_of_In in Hr.
  unfold candidate in Hc. destruct (find _ (providers d)) as [p|] eqn:Ep; [|done].
  destruct (find _ (models d)) as [m|] eqn:Em; [|done]. destruct (_ && _) eqn:Eact in Hc; [|done].
  injection Hc as <-. apply find_elem in Ep as [Hp Hpk], Em as [Hm Hmk]. eqb_to_prop.
  unfold usable. simpl. repeat split; congruence.
Qed.

Lemma usable_same d orgID policyID t t' :
  usable d orgID policyID t → rt_RouteTarget t' = rt_RouteTarget t → rt_Provider t' = rt_Provider t →
  rt_Model t' = rt_Model t → usable d orgID policyID t'.
Proof. unfold usable. intros H -> -> ->. exact H. Qed.

(** ** The method *)

Lemma resolveLatency_ok policy params ts w rs w' :
  resolveLowestLatencyTargets policy params ts w = (Ok rs, w') →
  w_db w' = w_db w ∧ w_clock w' = w_clock w ∧
  ∃ cfg n, parsePolicyConfig policy.(RoutePolicy_Config) = Ok cfg ∧
    rs = sortLatencyTargets
      (map (withLatency (w_db w) params.(rs_OrgID)
              (w_clock w n + (- latencyWindowMinutes cfg) *₆₄ Minute) (w_clock w n)) ts).
Proof.
  intros H. apply bind_ok in H as (cfg & w1 & H1 & H). apply lift_ok in H1 as [Hcfg <-].
  apply bind_ok in H as (t & w2 & H2 & H). apply clock_reading in H2 as (-> & Hck & Hdb).
  apply bind_ok in H as (ts' & w3 & H3 & H). pose proof (stmt_clock _ _ _ _ H3) as Hck3.
  apply query_ok in H3 as [[= <-] Hdb3]. apply ret_ok in H as [<- <-].
  split; [congruence|]. split; [congruence|]. exists cfg, (w_tick w). split; [done|]. by rewrite Hdb.
Qed.

(** What a successful resolution returns, by strategy. *)
Record resolution (d : DB) (readings : nat → Z) (params : ResolveParams) (res : ResolveTargetsResult) : Prop := {
  res_policy : find (matches params.(rs_OrgID) (TrimSpace params.(rs_RequestedModel))) d.(route_policies) =
    Some res.(rr_RoutePolicy);
  res_strategy : validStrategy res.(rr_RoutePolicy).(RoutePolicy_Strategy) = true;
  res_nonempty : res.(rr_Targets) ≠ [];
  res_plain : isRanked res.(rr_RoutePolicy).(RoutePolicy_Strategy) = false →
    res.(rr_Targets) = candidates d params.(rs_OrgID) res.(rr_RoutePolicy).(RoutePolicy_ID) ∧
    ∀ t, t ∈ list_targets params.(rs_OrgID) res.(rr_RoutePolicy).(RoutePolicy_ID) d →
      is_Some (candidate d params.(rs_OrgID) t);
  res_cost : res.(rr_RoutePolicy).(RoutePolicy_Strategy) = StrategyLowestCost →
    resolveLowestCostTargets res.(rr_RoutePolicy) params
      (candidates d params.(rs_OrgID) res.(rr_RoutePolicy).(RoutePolicy_ID)) = Ok res.(rr_Targets);
  res_latency : res.(rr_RoutePolicy).(RoutePolicy_Strategy) = StrategyLowestLatency →
    ∃ cfg n, parsePolicyConfig res.(rr_RoutePolicy).(RoutePolicy_Config) = Ok cfg ∧
    res.(rr_Targets) = sortLatencyTargets
      (map (withLatency d params.(rs_OrgID) (readings n + (- latencyWindowMinutes cfg) *₆₄ Minute) (readings n))
         (candidates d params.(rs_OrgID) res.(rr_RoutePolicy).(RoutePolicy_ID)))
}.

Lemma ResolveTargets_ok params w res w' :
  ResolveTargets params w = (Ok res, w') →
  w_db w' = w_db w ∧ resolution (w_db w) (w_clock w) params res.
Proof.
  intros H. unfold ResolveTargets in H. cbv zeta in H.
  destruct (_ || _) in H; [by apply fail_ok in H|].
  apply bind_ok in H as (policy & w1 & H1 & H). apply orNoRows_ok in H1.
  pose proof (stmt_clock _ _ _ _ H1) as Hck1. apply query_ok in H1 as [H1 Hdb1]. rewrite pg_one_find in H1.
  destruct (find _ (route_policies _)) as [pol|] eqn:Ef; [|done]. injection H1 as <-.
  destruct (negb _) eqn:Est in H; [by apply fail_ok in H|]. apply negb_false_iff in Est.
  apply bind_ok in H as (ts & w2 & H2 & H). pose proof (stmt_clock _ _ _ _ H2) as Hck2.
  apply query_ok in H2 as [H2 Hdb2]. apply Ok_inj in H2.
  destruct ts as [|t0 ts0] eqn:Ets; [by apply fail_ok in H|]. rewrite <- Ets in *. clear Ets t0 ts0.
  apply bind_ok in H as (rs1 & w3 & H3 & H). apply resolve_loop in H3 as (Hdb3 & Hck3 & -> & Hall).
  apply bind_ok in H as (rs2 & w4 & H4 & H). apply bind_ok in H as (rs3 & w5 & H5 & H).
  assert (Hdb : w_db w2 = w_db w) by congruence. assert (Hck : w_clock w2 = w_clock w) by congruence.
  rewrite Hdb1 in H2. subst ts. rewrite Hdb in *. rewrite Hck in *.
  simpl in H4. fold (candidates (w_db w) (rs_OrgID params) (RoutePolicy_ID pol)) in H4.
  destruct rs3 as [|t3 ts3] eqn:E3; [by apply fail_ok in H|]. rewrite <- E3 in *.
  apply ret_ok in H as [<- <-]. assert (Hne : rs3 ≠ []) by (by rewrite E3). clear E3 t3 ts3.
  destruct (String.eqb_spec (RoutePolicy_Strategy pol) StrategyLowestCost) as [Ec|Ec].
  { apply lift_ok in H4 as [H4 <-]. rewrite Ec in H5. simpl in H5. apply ret_ok in H5 as [<- <-].
    split; [congruence|]. split; simpl; try done; rewrite ?Ec; done. }
  apply ret_ok in H4 as [<- <-].
  destruct (String.eqb_spec (RoutePolicy_Strategy pol) StrategyLowestLatency) as [El|El].
  { apply resolveLatency_ok in H5 as (Hdb5 & _ & cfg & n & Hcfg & ->). rewrite Hdb3, Hck3 in *.
    split; [congruence|]. split; simpl; try done; rewrite ?El; try done. intros _. by exists cfg, n. }
  apply ret_ok in H5 as [<- <-]. split; [congruence|]. split; simpl; try done.
  split; [done|]. intros t Ht. apply Hall; [|done]. unfold isRanked.
  by rewrite !(proj2 (String.eqb_neq _ _)).
Qed.

Lemma estimateCosts_ok params ts ts' :
  estimateCosts params ts = Ok ts' →
  Forall2 (λ t t', t' = setCost t t'.(rt_EstimatedCostMicroUSD) ∧
    estimatedCostMicroUSD t.(rt_Model) params = Ok t'.(rt_EstimatedCostMicroUSD)) ts ts'.
Proof.
  revert ts'. induction ts as [|t ts IH]; intros ts' H; simpl in H; [simplify_eq; constructor|].
  apply result_bind_ok in H as (c & Hc & H). apply result_bind_ok in H as (rest & Hr & [= <-]).
  constructor; [by split|auto].
Qed.

Lemma withLatency_same d orgID from to t :
  rt_RouteTarget (withLatency d orgID from to t) = rt_RouteTarget t ∧
  rt_Provider (withLatency d orgID from to t) = rt_Provider t ∧
  rt_Model (withLatency d orgID from to t) = rt_Model t.
Proof. unfold withLatency. by destruct (latency_sample _ _ _ _ _ _). Qed.

(** What the lowest-cost strategy returns, once the costs are estimated. *)
Lemma lowest_cost_ok policy params cs ts :
  resolveLowestCostTargets policy params cs = Ok ts →
  ∃ cfg costed, parsePolicyConfig policy.(RoutePolicy_Config) = Ok cfg ∧ estimateCosts params cs = Ok costed ∧
    match cfg.(MaxEstimatedCostMicroUSD) with
    | None => ts = sortLowestCostTargets costed
    | Some max =>
        let eligible := List.filter (λ t, t.(rt_EstimatedCostMicroUSD) <=? max) (sortLowestCostTargets costed) in
        (eligible ≠ [] ∧ ts = eligible) ∨
        (eligible = [] ∧ fallbackToPriority cfg = true ∧ ts = SliceStable priorityLess (sortLowestCostTargets costed))
    end.
Proof.
  intros H. apply result_bind_ok in H as (cfg & Hcfg & H). apply result_bind_ok in H as (costed & Hc & H).
  exists cfg, costed. split; [done|]. split; [done|].
  destruct (MaxEstimatedCostMicroUSD cfg) as [max|]; [|by injection H as <-].
  cbv zeta in *. destruct (List.filter _ _) as [|e es] eqn:E; [|left; by injection H as <-].
  destruct (fallbackToPriority cfg); [|done]. right. by injection H as <-.
Qed.

Lemma SliceStable_elem {A} (less : A → A → bool) l x : x ∈ SliceStable less l ↔ x ∈ l.
Proof. apply elem_of_sort_by. Qed.

Lemma lowest_cost_subset policy params cs ts t' :
  resolveLowestCostTargets policy params cs = Ok ts → t' ∈ ts →
  ∃ t, t ∈ cs ∧ t' = setCost t t'.(rt_EstimatedCostMicroUSD) ∧
    estimatedCostMicroUSD t.(rt_Model) params = Ok t'.(rt_EstimatedCostMicroUSD).
Proof.
  intros H Ht. apply lowest_cost_ok in H as (cfg & costed & _ & Hc & H).
  assert (Hin : t' ∈ costed).
  { destruct (MaxEstimatedCostMicroUSD cfg) as [max|].
    - destruct H as [[_ ->]|(_ & _ & ->)].
      + apply list_elem_of_In, filter_In in Ht as [Ht _]. by apply list_elem_of_In, SliceStable_elem in Ht.
      + by apply SliceStable_elem, SliceStable_elem in Ht.
    - subst ts. by apply SliceStable_elem in Ht. }
  apply estimateCosts_ok in Hc. destruct (Forall2_elem_r _ _ _ _ Hc Hin) as (t & Ht' & ? & ?). by exists t.
Qed.

(** C36: whatever the strategy, [ResolveTargets] only ever returns, for the active
    policy that matches the requested model, targets of that policy whose
    provider and model exist in the organisation, are active and belong
    together; there is at least one, and the database is not changed. *)
Theorem ResolveTargets_usable (params : ResolveParams) (w w' : world) (res : ResolveTargetsResult) :
  ResolveTargets params w = (Ok res, w') →
  w_db w' = w_db w ∧
  matches params.(rs_OrgID) (TrimSpace params.(rs_RequestedModel)) res.(rr_RoutePolicy) = true ∧
  res.(rr_RoutePolicy) ∈ (w_db w).(route_policies) ∧ res.(rr_Targets) ≠ [] ∧
  ∀ t, t ∈ res.(rr_Targets) → usable (w_db w) params.(rs_OrgID) res.(rr_RoutePolicy).(RoutePolicy_ID) t.
Proof.
  intros H. apply ResolveTargets_ok in H as [Hdb [Hpol Hst Hne Hplain Hcost Hlat]].
  apply find_elem in Hpol as [Hin Hm]. repeat (split; [done|]). intros t Ht.
  destruct (isRanked (RoutePolicy_Strategy (rr_RoutePolicy res))) eqn:Er.
  2: { destruct (Hplain eq_refl) as [Heq _]. apply candidates_usable. by rewrite <- Heq. }
  unfold isRanked in Er. apply orb_true_iff in Er as [Er|Er]; eqb_to_prop.
  - destruct (lowest_cost_subset _ _ _ _ _ (Hcost Er) Ht) as (t0 & Ht0 & -> & _).
    eapply usable_same; [by apply candidates_usable|done..].
  - destruct (Hlat Er) as (cfg & n & _ & Heq). rewrite Heq in Ht. apply SliceStable_elem in Ht.
    apply list_elem_of_In, in_map_iff in Ht as (t0 & <- & Ht0). apply list_elem_of_In in Ht0.
    destruct (withLatency_same (w_db w) (rs_OrgID params)
      (w_clock w n + (- latencyWindowMinutes cfg) *₆₄ Minute) (w_clock w n) t0) as (? & ? & ?).
    by eapply usable_same; [apply candidates_usable|..].
Qed.

(** The plain strategies return the whole chain: every target of the policy,
    in strictly increasing order of priority and identifier; if one of them is
    not usable the resolution fails instead of skipping it. *)
Theorem ResolveTargets_fallback_order (params : ResolveParams) (w w' : world) (res : ResolveTargetsResult) :
  ResolveTargets params w = (Ok res, w') →
  isRanked res.(rr_RoutePolicy).(RoutePolicy_Strategy) = false →
  map rt_RouteTarget res.(rr_Targets) =
    list_targets params.(rs_OrgID) res.(rr_RoutePolicy).(RoutePolicy_ID) (w_db w) ∧
  StronglySorted (λ a b, target_le a b = true) (map rt_RouteTarget res.(rr_Targets)).
Proof.
  intros H Hr. apply ResolveTargets_ok in H as [Hdb [_ _ _ Hplain _ _]].
  destruct (Hplain Hr) as [-> Hall]. unfold candidates.
  assert (Heq : map rt_RouteTarget (omap (candidate (w_db w) (rs_OrgID params))
      (list_targets (rs_OrgID params) (RoutePolicy_ID (rr_RoutePolicy res)) (w_db w))) =
    list_targets (rs_OrgID params) (RoutePolicy_ID (rr_RoutePolicy res)) (w_db w)).
  { revert Hall. generalize (list_targets (rs_OrgID params) (RoutePolicy_ID (rr_RoutePolicy res)) (w_db w)) as l.
    induction l as [|t l IH]; intros Hall; [done|].
    destruct (Hall t) as [r Hr']; [by left|]. simpl. rewrite Hr'. simpl. f_equal.
    - unfold candidate in Hr'. repeat case_match; simplify_eq; done.
    - apply IH. intros; apply Hall; by right. }
  rewrite Heq. split; [done|]. apply sort_by_sorted.
  - unfold target_le. intros a b Hf. apply orb_false_iff in Hf as [H1 H2]. apply Z.ltb_ge in H1.
    apply orb_true_iff. destruct (Z.eqb_spec (RouteTarget_Priority a) (RouteTarget_Priority b)) as [He|He].
    + right. rewrite He, Z.eqb_refl. simpl in *. apply N.leb_gt in H2. apply N.leb_le. lia.
    + left. apply Z.ltb_lt. lia.
  - unfold target_le. intros a b c H1 H2. apply orb_true_iff in H1, H2. apply orb_true_iff.
    destruct H1 as [H1|[H1 H1']%andb_true_iff], H2 as [H2|[H2 H2']%andb_true_iff];
      bool_to_prop; rewrite ?Z.ltb_lt; try (left; lia).
    right. apply N.leb_le in H1', H2'. apply andb_true_iff. split; [apply Z.eqb_eq; lia|apply N.leb_le; lia].
Qed.

(** With the lowest-cost strategy each returned target carries its exact
    estimated cost and the cheapest come first; when a maximum is configured
    and some target is within it, exactly the targets within it are returned,
    and otherwise the chain falls back to priority order, if that is allowed. *)
Theorem ResolveTargets_cheapest_first (params : ResolveParams) (w w' : world) (res : ResolveTargetsResult) :
  ResolveTargets params w = (Ok res, w') →
  res.(rr_RoutePolicy).(RoutePolicy_Strategy) = StrategyLowestCost →
  ∃ cfg costed,
    parsePolicyConfig res.(rr_RoutePolicy).(RoutePolicy_Config) = Ok cfg ∧
    estimateCosts params (candidates (w_db w) params.(rs_OrgID) res.(rr_RoutePolicy).(RoutePolicy_ID)) = Ok costed ∧
    (∀ t, t ∈ res.(rr_Targets) → t ∈ costed ∧
       estimatedCostMicroUSD t.(rt_Model) params = Ok t.(rt_EstimatedCostMicroUSD)) ∧
    match cfg.(MaxEstimatedCostMicroUSD) with
    | None => res.(rr_Targets) ≡ₚ costed ∧
        StronglySorted (λ a b, a.(rt_EstimatedCostMicroUSD) <= b.(rt_EstimatedCostMicroUSD)) res.(rr_Targets)
    | Some max =>
        (res.(rr_Targets) ≡ₚ List.filter (λ t, t.(rt_EstimatedCostMicroUSD) <=? max) costed ∧
         StronglySorted (λ a b, a.(rt_EstimatedCostMicroUSD) <= b.(rt_EstimatedCostMicroUSD)) res.(rr_Targets)) ∨
        (Forall (λ t, max < t.(rt_EstimatedCostMicroUSD)) costed ∧ fallbackToPriority cfg = true ∧
         res.(rr_Targets) ≡ₚ costed ∧ StronglySorted (λ a b, priorityLess b a = false) res.(rr_Targets))
    end.
Proof.
  intros H Hs. apply ResolveTargets_ok in H as [_ [_ _ _ _ Hcost _]]. specialize (Hcost Hs).
  pose proof Hcost as Hsub. apply lowest_cost_ok in Hcost as (cfg & costed & Hcfg & Hc & Hres).
  exists cfg, costed. split; [done|]. split; [done|].
  assert (Hsorted : StronglySorted (λ a b, a.(rt_EstimatedCostMicroUSD) <= b.(rt_EstimatedCostMicroUSD))
    (sortLowestCostTargets costed)).
  { pose proof (weak_order_sorted _ costed weak_order_cost) as Hw. unfold sortLowestCostTargets, SliceStable.
    induction Hw as [|x l Hw IH Hx]; constructor; [done|]. rewrite List.Forall_forall in Hx |- *. intros y Hy.
    specialize (Hx y Hy). unfold lowestCostLess in Hx.
    destruct (Z.eqb_spec (rt_EstimatedCostMicroUSD y) (rt_EstimatedCostMicroUSD x)); simpl in Hx; bool_to_prop; lia. }
  assert (Hperm : sortLowestCostTargets costed ≡ₚ costed) by apply sort_by_perm.
  split.
  { intros t Ht. destruct (lowest_cost_subset _ _ _ _ _ Hsub Ht) as (t0 & _ & He & Hcost). split.
    - destruct (MaxEstimatedCostMicroUSD cfg); [|rewrite Hres in Ht; by apply SliceStable_elem in Ht].
      destruct Hres as [[_ Hr]|(_ & _ & Hr)]; rewrite Hr in Ht.
      + apply list_elem_of_In, filter_In in Ht as [Ht _]. by apply list_elem_of_In, SliceStable_elem in Ht.
      + by apply SliceStable_elem, SliceStable_elem in Ht.
    - by rewrite He in Hcost |- *. }
  destruct (MaxEstimatedCostMicroUSD cfg) as [max|]; [|by rewrite Hres].
  destruct Hres as [[_ ->]|(Hnone & Hfb & ->)]; [left|right].
  - split; [by apply Permutation_filter_bool|by apply StronglySorted_filter_bool].
  - split; [|split; [done|split]].
    + apply List.Forall_forall. intros t Ht. destruct (Z.leb_spec (rt_EstimatedCostMicroUSD t) max) as [Hle|]; [|done].
      exfalso. apply (in_nil (a := t)). rewrite <- Hnone. apply filter_In. split; [|by apply Z.leb_le].
      apply list_elem_of_In, SliceStable_elem, list_elem_of_In, Ht.
    + etrans; [apply sort_by_perm|done].
    + apply weak_order_sorted, weak_order_priority.
Qed.

(** With the lowest-latency strategy every usable target is returned;
    targets measured in the configured window come before unmeasured ones, in
    non-decreasing order of their 95th percentile. *)
Theorem ResolveTargets_fastest_first (params : ResolveParams) (w w' : world) (res : ResolveTargetsResult) :
  ResolveTargets params w = (Ok res, w') →
  res.(rr_RoutePolicy).(RoutePolicy_Strategy) = StrategyLowestLatency →
  (∃ cfg n, parsePolicyConfig res.(rr_RoutePolicy).(RoutePolicy_Config) = Ok cfg ∧
     res.(rr_Targets) ≡ₚ map (withLatency (w_db w) params.(rs_OrgID)
         (w_clock w n + (- latencyWindowMinutes cfg) *₆₄ Minute) (w_clock w n))
       (candidates (w_db w) params.(rs_OrgID) res.(rr_RoutePolicy).(RoutePolicy_ID))) ∧
  StronglySorted (λ a b,
    (b.(rt_HasLatencyStats) = true → a.(rt_HasLatencyStats) = true) ∧
    (a.(rt_HasLatencyStats) = true → b.(rt_HasLatencyStats) = true →
     (a.(rt_P95LatencyMS) <= b.(rt_P95LatencyMS))%Q)) res.(rr_Targets).
Proof.
  intros H Hs. apply ResolveTargets_ok in H as [_ [_ _ _ _ _ Hlat]].
  destruct (Hlat Hs) as (cfg & n & Hcfg & ->). split.
  - exists cfg, n. split; [done|]. apply sort_by_perm.
  - unfold sortLatencyTargets, SliceStable. set (l := map _ _).
    pose proof (weak_order_sorted _ l weak_order_latency) as Hw.
    induction Hw as [|x l' Hw IH Hx]; constructor; [done|]. rewrite List.Forall_forall in Hx |- *. intros y Hy.
    specialize (Hx y Hy). unfold latencyLess in Hx.
    destruct (rt_HasLatencyStats y) eqn:Ey, (rt_HasLatencyStats x) eqn:Ex; simpl in Hx; try done.
    split; [done|]. intros _ _. destruct (Qeq_bool (rt_P95LatencyMS y) (rt_P95LatencyMS x)) eqn:Eq.
    + apply Qeq_bool_iff in Eq. rewrite Eq. apply Qle_refl.
    + simpl in Hx. by apply Qltb_ge in Hx.
Qed.

End Resolve.

(** ** Creation *)

(** The row made from a target of the request. *)
Definition row_of (orgID policyID : uuid) (now : Z) (t : TargetParams) (r : RouteTarget) : Prop :=
  r = mkRouteTarget r.(RouteTarget_ID) orgID policyID t.(tp_ProviderID) t.(tp_ModelID)
        t.(tp_Priority) t.(tp_Weight) now.

Lemma create_targets_ok orgID policyID now ts w w' :
  forM ts tt (λ _ target, createTarget orgID policyID now target) w = (Ok tt, w') →
  ∃ new, w_db w' = set_route_targets (λ rs, rs ++ new) (w_db w) ∧ Forall2 (row_of orgID policyID now) ts new.
Proof.
  revert w. induction ts as [|t ts IH]; intros w H; simpl in H.
  - apply ret_ok in H as [_ <-]. exists []. split; [|constructor]. destruct (w_db w). unfold set_route_targets. simpl.
    by rewrite app_nil_r.
  - apply bind_ok in H as ([] & w1 & H1 & H). apply bind_ok in H1 as (id & w2 & Hid & H1).
    apply new_uuid_ok in Hid. apply stmt_ok in H1. rewrite Hid in H1.
    apply result_bind_ok in H1 as ([] & _ & H1). apply result_bind_ok in H1 as ([] & _ & H1).
    apply result_bind_ok in H1 as ([] & _ & [= H1]).
    apply IH in H as (new & Hdb & HF).
    exists (mkRouteTarget id orgID policyID (tp_ProviderID t) (tp_ModelID t) (tp_Priority t) (tp_Weight t) now :: new).
    split; [|by constructor]. rewrite Hdb, <- H1. unfold set_route_targets. simpl. by rewrite <- app_assoc.
Qed.

Lemma validate_targets_db orgID ts w w' :
  forM ts tt (λ _ target, validateTargetBelongsToOrg orgID target) w = (Ok tt, w') →
  w_db w' = w_db w ∧ ∀ t, t ∈ ts → ∃ p m, p ∈ (w_db w).(providers) ∧ m ∈ (w_db w).(models) ∧
    p.(Provider_OrgID) = orgID ∧ p.(Provider_ID) = t.(tp_ProviderID) ∧ p.(Provider_Status) = "active" ∧
    m.(Model_OrgID) = orgID ∧ m.(Model_ID) = t.(tp_ModelID) ∧ m.(Model_Status) = "active" ∧
    m.(Model_ProviderID) = p.(Provider_ID).
Proof.
  revert w. induction ts as [|t ts IH]; intros w H; simpl in H.
  - apply ret_ok in H as [_ <-]. split; [done|]. set_solver.
  - apply bind_ok in H as ([] & w1 & H1 & H). unfold validateTargetBelongsToOrg in H1.
    apply bind_ok in H1 as (p & w2 & Hp & H1). apply orNoRows_ok, query_ok in Hp as [Hp Hd2].
    apply bind_ok in H1 as (m & w3 & Hm & H1). apply orNoRows_ok, query_ok in Hm as [Hm Hd3].
    destruct (negb _) eqn:E1 in H1; [by apply fail_ok in H1|].
    destruct (negb _) eqn:E2 in H1; [by apply fail_ok in H1|].
    destruct (negb _) eqn:E3 in H1; [by apply fail_ok in H1|]. apply ret_ok in H1 as [_ <-].
    rewrite Hd2 in Hm. apply pg_one_ok in Hp as [Hp Hpk], Hm as [Hm Hmk]. eqb_to_prop.
    apply IH in H as [Hd Hall]. rewrite Hd3, Hd2 in Hall. split; [congruence|].
    intros t' [->|Ht']%elem_of_cons; [|auto]. exists p, m. repeat split; congruence.
Qed.

Record created (params : CreateRoutePolicyParams) (d d' : DB) (p : RoutePolicy) : Prop := {
  created_valid : validateCreateRoutePolicyParams params = Ok tt;
  created_config : ∃ c, normalizePolicyConfig params.(rp_Config) = Ok c ∧ p.(RoutePolicy_Config) = Some c;
  created_row : p.(RoutePolicy_OrgID) = params.(rp_OrgID) ∧ p.(RoutePolicy_Name) = TrimSpace params.(rp_Name) ∧
    p.(RoutePolicy_MatchModel) = TrimSpace params.(rp_MatchModel) ∧
    p.(RoutePolicy_Strategy) = params.(rp_Strategy) ∧ p.(RoutePolicy_Status) = "active";
  created_fresh : Forall (λ p', (p'.(RoutePolicy_ID) =? p.(RoutePolicy_ID))%N = false) d.(route_policies) ∧
    Forall (λ p', (p'.(RoutePolicy_OrgID) =? p.(RoutePolicy_OrgID))%N
              && String.eqb p'.(RoutePolicy_MatchModel) p.(RoutePolicy_MatchModel) = false) d.(route_policies);
  created_targets : ∃ new, Forall2 (row_of params.(rp_OrgID) p.(RoutePolicy_ID) p.(RoutePolicy_CreatedAt))
      params.(rp_Targets) new ∧
    d' = set_route_targets (λ ts, ts ++ new) (set_route_policies (λ ps, ps ++ [p]) d)
}.

Lemma CreateRoutePolicy_ok params w p w' :
  CreateRoutePolicy params w = (Ok p, w') →
  created params (w_db w) (w_db w') p ∧
  ∀ t, t ∈ params.(rp_Targets) → ∃ pr m, pr ∈ (w_db w).(providers) ∧ m ∈ (w_db w).(models) ∧
    pr.(Provider_OrgID) = params.(rp_OrgID) ∧ pr.(Provider_ID) = t.(tp_ProviderID) ∧ pr.(Provider_Status) = "active" ∧
    m.(Model_OrgID) = params.(rp_OrgID) ∧ m.(Model_ID) = t.(tp_ModelID) ∧ m.(Model_Status) = "active" ∧
    m.(Model_ProviderID) = pr.(Provider_ID).
Proof.
  intros H. apply bind_ok in H as ([] & w1 & H1 & H). apply lift_ok in H1 as [Hv <-].
  apply bind_ok in H as (now & w2 & H2 & H). apply clock_ok in H2.
  apply WithTx_ok in H as (w3 & w4 & Hd3 & _ & H & ->).
  apply bind_ok in H as ([] & w5 & H5 & H). apply validate_targets_db in H5 as [Hd5 Hall].
  apply bind_ok in H as (cfg & w6 & H6 & H). apply lift_ok in H6 as [Hcfg <-].
  apply bind_ok in H as (id & w7 & H7 & H). apply new_uuid_ok in H7.
  apply bind_ok in H as (pol & w8 & H8 & H). apply stmt_ok in H8.
  apply bind_ok in H as ([] & w9 & H9 & H). apply create_targets_ok in H9 as (new & Hd9 & HF).
  apply ret_ok in H as [<- <-].
  assert (Hd : w_db w7 = w_db w) by congruence. rewrite Hd in H8. rewrite Hd3, H2 in Hall.
  apply result_bind_ok in H8 as ([] & _ & H8). apply result_bind_ok in H8 as ([] & Hu1 & H8).
  apply result_bind_ok in H8 as ([] & Hu2 & [= <- H8]). apply pg_unique_ok in Hu1, Hu2.
  split; [|done]. split; simpl; try done.
  - by exists cfg.
  - exists new. split; [done|]. by rewrite Hd9, <- H8.
Qed.

Lemma CreateRoutePolicy_err params w e w' :
  CreateRoutePolicy params w = (Err e, w') → w_db w' = w_db w.
Proof.
  unfold CreateRoutePolicy. unfold mbind at 1, M_bind at 1. simpl.
  destruct (validateCreateRoutePolicyParams params) as [[]|e0]; simpl; [|by intros [= _ <-]].
  intros H.
  match type of H with (clock ≫= ?f) _ = _ => set (body := f) in H end.
  unfold mbind, M_bind in H. simpl in H. subst body. cbv beta in H.
  match type of H with ExecTx ?m ?w0 = _ => pose proof (ExecTxRaw_err m w0 e) as He end.
  unfold ExecTx in H. rewrite H in He. by apply He.
Qed.

(** Creating a route policy is all or nothing: on success exactly one active
    policy and one row per requested target are added, every target's provider
    and model are active rows of the organisation that belong together, and no
    policy of the organisation already matched the model; on any error, a
    constraint violation or a lost call in the middle included, the database is
    what it was. *)
Theorem CreateRoutePolicy_atomic (params : CreateRoutePolicyParams) (w w' : world) (r : result RoutePolicy) :
  CreateRoutePolicy params w = (r, w') →
  match r with
  | Err _ => w_db w' = w_db w
  | Ok p => created params (w_db w) (w_db w') p ∧
      ∀ t, t ∈ params.(rp_Targets) → ∃ pr m, pr ∈ (w_db w).(providers) ∧ m ∈ (w_db w).(models) ∧
        pr.(Provider_OrgID) = params.(rp_OrgID) ∧ pr.(Provider_ID) = t.(tp_ProviderID) ∧
        pr.(Provider_Status) = "active" ∧ m.(Model_OrgID) = params.(rp_OrgID) ∧ m.(Model_ID) = t.(tp_ModelID) ∧
        m.(Model_Status) = "active" ∧ m.(Model_ProviderID) = pr.(Provider_ID)
  end.
Proof.
  destruct r as [p|e]; intros H; [by apply CreateRoutePolicy_ok|by apply CreateRoutePolicy_err in H].
Qed.

Definition target_ids (t : RouteTarget) : uuid * uuid * Z :=
  (t.(RouteTarget_ProviderID), t.(RouteTarget_ModelID), t.(RouteTarget_Priority)).
Definition param_ids (t : TargetParams) : uuid * uuid * Z := (t.(tp_ProviderID), t.(tp_ModelID), t.(tp_Priority)).

Lemma created_list params d d' p :
  created params d d' p → (∀ t, t ∈ d.(route_targets) → t.(RouteTarget_RoutePolicyID) ≠ p.(RoutePolicy_ID)) →
  map target_ids (list_targets params.(rp_OrgID) p.(RoutePolicy_ID) d') ≡ₚ map param_ids params.(rp_Targets).
Proof.
  intros [_ _ (Ho & _) _ (new & HF & ->)] Hfresh. unfold list_targets. rewrite sort_by_perm. simpl.
  rewrite List.filter_app. rewrite (filter_none_bool _ (route_targets d)); simpl.
  2: { intros t Ht. apply Hfresh in Ht. apply andb_false_iff. right. by apply N.eqb_neq. }
  rewrite filter_all_bool.
  2: { intros t Ht. destruct (Forall2_elem_r _ _ _ _ HF Ht) as (t0 & _ & ->). simpl. by rewrite !N.eqb_refl. }
  clear Hfresh. induction HF as [|t r ts rs Hr _ IH]; simpl; [done|]. rewrite IH. rewrite Hr. done.
Qed.

(** What was created is what is resolved: after a successful creation with a
    plain strategy, resolving the same model name for the organisation yields
    the new policy and exactly the requested targets. *)
Theorem create_then_resolve (pc : Q → list Z → Q) (params : CreateRoutePolicyParams) (p : RoutePolicy)
    (rs : ResolveParams) (res : ResolveTargetsResult) (w w1 w2 w3 : world) :
  CreateRoutePolicy params w = (Ok p, w1) →
  (∀ t, t ∈ (w_db w).(route_targets) → t.(RouteTarget_RoutePolicyID) ≠ p.(RoutePolicy_ID)) →
  w_db w2 = w_db w1 → rs.(rs_OrgID) = params.(rp_OrgID) →
  TrimSpace rs.(rs_RequestedModel) = TrimSpace params.(rp_MatchModel) →
  isRanked params.(rp_Strategy) = false →
  ResolveTargets pc rs w2 = (Ok res, w3) →
  res.(rr_RoutePolicy) = p ∧
  map (λ t, target_ids t.(rt_RouteTarget)) res.(rr_Targets) ≡ₚ map param_ids params.(rp_Targets).
Proof.
  intros Hc Hfresh Hd Ho Hm Hr H. apply CreateRoutePolicy_ok in Hc as [Hc _].
  pose proof Hc as [_ _ (Hpo & _ & Hpm & Hps & Hpa) (_ & Huniq) (new & _ & Hd1)].
  apply ResolveTargets_ok in H as [_ [Hpol _ _ Hplain _ _]].
  assert (Heq : rr_RoutePolicy res = p).
  { rewrite Hd, Hd1 in Hpol. simpl in Hpol. rewrite find_app in Hpol.
    destruct (find _ (route_policies (w_db w))) as [q|] eqn:Eq.
    - apply find_elem in Eq as [Hq Hqm]. exfalso. rewrite List.Forall_forall in Huniq.
      apply list_elem_of_In, Huniq in Hq. unfold matches in Hqm. eqb_to_prop.
      rewrite Ho, <- Hpo in *. rewrite Hm, <- Hpm in *.
      rewrite H, H1, N.eqb_refl, String.eqb_refl in Hq. done.
    - simpl in Hpol. destruct (matches _ _ p) eqn:Emp; [by injection Hpol|done]. }
  split; [done|]. rewrite Heq in Hplain. rewrite Hps in Hplain. destruct (Hplain Hr) as [Hts Hall].
  rewrite <- (created_list _ _ _ _ Hc Hfresh), <- Hd, Hts, <- Ho. unfold candidates.
  revert Hall. generalize (list_targets (rs_OrgID rs) (RoutePolicy_ID p) (w_db w2)) as l.
  induction l as [|t l IH]; intros Hall; [done|].
  destruct (Hall t) as [c Hc']; [by left|]. simpl. rewrite Hc'. simpl.
  rewrite (IH ltac:(intros; apply Hall; by right)).
  assert (rt_RouteTarget c = t) as -> by (unfold candidate in Hc'; repeat case_match; by simplify_eq). done.
Qed.

(** ** Concrete cases *)

(** The largest value of the sample stands in for a percentile. *)
Definition ex_percentile (_ : Q) (l : list Z) : Q := inject_Z (foldr Z.max 0 l).

#[local] Notation ex_resolve model :=
  (ResolveTargets ex_percentile (mkResolveParams 1%N model 2000 500)).

Definition model_names (r : result ResolveTargetsResult) : list string :=
  match r with
  | Ok res => map (λ t, t.(rt_Model).(Model_DisplayName)) res.(rr_Targets)
  | Err _ => []
  end.

Lemma ResolveTargets_usable_witness :
  model_names (ex_resolve " gpt " ex_route_world).1 = ["Large"; "Small"] ∧
  w_db (ex_resolve " gpt " ex_route_world).2 = ex_routes ex_db.
Proof.
  split; [vm_compute; reflexivity|].
  destruct (ex_resolve " gpt " ex_route_world).1 as [res|e] eqn:E; [|vm_compute in E; discriminate].
  exact (proj1 (ResolveTargets_usable ex_percentile (mkResolveParams 1%N " gpt " 2000 500) ex_route_world _ res (run_eq _ _ E))).
Defined.

Lemma ResolveTargets_fallback_order_witness :
  ∃ res, (ex_resolve "gpt" ex_route_world).1 = Ok res ∧
    map rt_RouteTarget res.(rr_Targets) = list_targets 1%N 60%N (ex_routes ex_db).
Proof.
  destruct (ex_resolve "gpt" ex_route_world).1 as [res|e] eqn:E; [|vm_compute in E; discriminate].
  exists res. split; [reflexivity|].
  assert (Hp : RoutePolicy_ID (rr_RoutePolicy res) = 60%N ∧ isRanked (RoutePolicy_Strategy (rr_RoutePolicy res)) = false)
    by (vm_compute in E; injection E as <-; split; reflexivity).
  destruct Hp as [Hp Hr]. rewrite <- Hp.
  exact (proj1 (ResolveTargets_fallback_order ex_percentile (mkResolveParams 1%N "gpt" 2000 500) ex_route_world _ res
    (run_eq _ _ E) Hr)).
Defined.

Lemma ResolveTargets_cheapest_first_witness :
  model_names (ex_resolve "gpt-cheap" ex_route_world).1 = ["Small"] ∧
  ∃ res cfg, (ex_resolve "gpt-cheap" ex_route_world).1 = Ok res ∧
    parsePolicyConfig res.(rr_RoutePolicy).(RoutePolicy_Config) = Ok cfg.
Proof.
  split; [vm_compute; reflexivity|].
  destruct (ex_resolve "gpt-cheap" ex_route_world).1 as [res|e] eqn:E; [|vm_compute in E; discriminate].
  assert (Hs : RoutePolicy_Strategy (rr_RoutePolicy res) = StrategyLowestCost)
    by (vm_compute in E; injection E as <-; reflexivity).
  destruct (ResolveTargets_cheapest_first ex_percentile (mkResolveParams 1%N "gpt-cheap" 2000 500) ex_route_world _ res
    (run_eq _ _ E) Hs) as (cfg & costed & Hcfg & _).
  exists res, cfg. split; [reflexivity|exact Hcfg].
Defined.

Lemma ResolveTargets_fastest_first_witness :
  model_names (ex_resolve "gpt-fast" ex_route_world).1 = ["Small"; "Large"] ∧
  ∃ res, (ex_resolve "gpt-fast" ex_route_world).1 = Ok res ∧
    StronglySorted (λ a b,
      (b.(rt_HasLatencyStats) = true → a.(rt_HasLatencyStats) = true) ∧
      (a.(rt_HasLatencyStats) = true → b.(rt_HasLatencyStats) = true →
       (a.(rt_P95LatencyMS) <= b.(rt_P95LatencyMS))%Q)) res.(rr_Targets).
Proof.
  split; [vm_compute; reflexivity|].
  destruct (ex_resolve "gpt-fast" ex_route_world).1 as [res|e] eqn:E; [|vm_compute in E; discriminate].
  assert (Hs : RoutePolicy_Strategy (rr_RoutePolicy res) = StrategyLowestLatency)
    by (vm_compute in E; injection E as <-; reflexivity).
  exists res. split; [reflexivity|].
  exact (proj2 (ResolveTargets_fastest_first ex_percentile (mkResolveParams 1%N "gpt-fast" 2000 500) ex_route_world _ res
    (run_eq _ _ E) Hs)).
Defined.

Definition ex_create : CreateRoutePolicyParams :=
  mkCreateRoutePolicyParams 1%N "new" " gpt-new " "fallback" RawEmpty
    [mkTargetParams 40%N 41%N 2 100; mkTargetParams 40%N 42%N 1 100].

Lemma CreateRoutePolicy_atomic_witness :
  is_ok (CreateRoutePolicy ex_create ex_route_world).1 = true ∧
  (∃ p, created ex_create (ex_routes ex_db) (w_db (CreateRoutePolicy ex_create ex_route_world).2) p) ∧
  (* the second target cannot be inserted when its call is lost *)
  let lost := set_faults [false; false; false; false; false; false; false; true] ex_route_world in
  w_db (CreateRoutePolicy ex_create lost).2 = ex_routes ex_db.
Proof.
  split; [vm_compute; reflexivity|]. split.
  - destruct (CreateRoutePolicy ex_create ex_route_world).1 as [p|e] eqn:E; [|vm_compute in E; discriminate].
    exists p. exact (proj1 (CreateRoutePolicy_atomic ex_create ex_route_world _ (Ok p) (run_eq _ _ E))).
  - set (lost := set_faults _ _). cbv zeta.
    destruct (CreateRoutePolicy ex_create lost).1 as [p|e] eqn:E; [vm_compute in E; discriminate|].
    exact (CreateRoutePolicy_atomic ex_create lost _ (Err e) (run_eq _ _ E)).
Defined.

Lemma create_then_resolve_witness :
  let w1 := (CreateRoutePolicy ex_create ex_route_world).2 in
  model_names (ex_resolve "gpt-new" w1).1 = ["Small"; "Large"] ∧
  ∃ p res, (CreateRoutePolicy ex_create ex_route_world).1 = Ok p ∧ (ex_resolve "gpt-new" w1).1 = Ok res ∧
    res.(rr_RoutePolicy) = p.
Proof.
  intros w1. subst w1. split; [vm_compute; reflexivity|].
  destruct (CreateRoutePolicy ex_create ex_route_world).1 as [p|e] eqn:E; [|vm_compute in E; discriminate].
  destruct (ex_resolve "gpt-new" (CreateRoutePolicy ex_create ex_route_world).2).1 as [res|e] eqn:E';
    [|vm_compute in E'; discriminate].
  exists p, res. split; [reflexivity|]. split; [reflexivity|].
  refine (proj1 (create_then_resolve ex_percentile ex_create p (mkResolveParams 1%N "gpt-new" 2000 500) res ex_route_world
    _ _ _ (run_eq _ _ E) _ eq_refl eq_refl _ eq_refl (run_eq _ _ E'))).
  - vm_compute in E. injection E as <-. intros t Ht. vm_compute in Ht.
    repeat (apply elem_of_cons in Ht as [->|Ht]; [vm_compute; discriminate|]). by apply not_elem_of_nil in Ht.
  - vm_compute. reflexivity.
Defined.

End Routing.
