(* ===== verification/ContentPolicy.v ===== *)
(** * Content policy: [internal/policy]

    Detection of personal data in a prompt by four regular expressions, its
    redaction, and the organisation's policy that says whether a prompt with
    such data is allowed, redacted or blocked. *)

From S2P Require Import Prelude GoTime GoStrings Costing Store ExampleWorld.

(** ** Regular expressions

    The fragment of [regexp] the four patterns use, with its leftmost-first
    semantics: a matcher with continuations that prefers the first
    alternative and the longest repetition. Positions are byte offsets. *)

Module Regexp.

Definition byteAt (text : string) (i : nat) : option nat := Ascii.nat_of_ascii <$> String.get i text.

(** A class says how many bytes of [text] it takes at position [i], if any. *)
Definition cls : Type := string → nat → option nat.

Definition asciiCls (f : nat → bool) : cls := λ text i,
  match byteAt text i with Some b => if f b then Some 1%nat else None | None => None end.

Definition inRange (lo hi b : nat) : bool := ((lo <=? b) && (b <=? hi))%nat.
Definition isDigit (b : nat) : bool := inRange 48 57 b.
Definition isUpper (b : nat) : bool := inRange 65 90 b.
Definition isLower (b : nat) : bool := inRange 97 122 b.
Definition isLetter (b : nat) : bool := isUpper b || isLower b.
Definition isWord (b : nat) : bool := isLetter b || isDigit b || (b =? 95)%nat.
Definition oneOf (l : list nat) (b : nat) : bool := existsb (Nat.eqb b) l.

(** Under [(?i)] the letters k and s also match the Kelvin sign (E2 84 AA) and
    the long s (C5 BF). *)
Definition isByte (text : string) (i b : nat) : bool :=
  match byteAt text i with Some x => (x =? b)%nat | None => false end.
Definition foldedRune (withK withS : bool) : cls := λ text i,
  if withS && isByte text i 197 && isByte text (i + 1) 191 then Some 2%nat
  else if withK && isByte text i 226 && isByte text (i + 1) 132 && isByte text (i + 2) 170 then Some 3%nat
  else None.

Definition orCls (a b : cls) : cls := λ text i, match a text i with Some w => Some w | None => b text i end.

(** [[A-Z...]] under [(?i)]. *)
Definition foldCls (f : nat → bool) : cls :=
  orCls (asciiCls (λ b, isLetter b || f b)) (foldedRune true true).

(** One letter of a literal under [(?i)], given in lower case. *)
Definition foldLetter (lower : nat) : cls :=
  orCls (asciiCls (λ b, (b =? lower) || (b =? lower - 32))%nat)
        (foldedRune (lower =? 107)%nat (lower =? 115)%nat).

Inductive re : Type :=
| Cls (c : cls)
| WordBoundary
| Seq (r1 r2 : re)
| Alt (r1 r2 : re)
| RepCls (c : cls) (min : nat) (max : option nat)  (** a class, repeated; [None] is unbounded *)
| RepGroup (r : re) (min max : nat).               (** a group, repeated a bounded number of times *)

Definition wordAt (text : string) (i : nat) : bool :=
  match byteAt text i with Some b => isWord b | None => false end.
Definition boundaryAt (text : string) (i : nat) : bool :=
  xorb (match i with 0%nat => false | S j => wordAt text j end) (wordAt text i).

(** At most [n] repetitions of a class, longest first. *)
Fixpoint repCls (text : string) (c : cls) (n min i : nat) (k : nat → option nat) : option nat :=
  match n with
  | 0%nat => match min with 0%nat => k i | _ => None end
  | S n' =>
      let stop := match min with 0%nat => k i | _ => None end in
      match c text i with
      | None => stop
      | Some w =>
          match repCls text c n' (pred min) (i + w) k with
          | Some e => Some e
          | None => stop
          end
      end
  end.

Fixpoint exec (text : string) (r : re) (i : nat) (k : nat → option nat) : option nat :=
  match r with
  | Cls c => match c text i with Some w => k (i + w)%nat | None => None end
  | WordBoundary => if boundaryAt text i then k i else None
  | Seq r1 r2 => exec text r1 i (λ j, exec text r2 j k)
  | Alt r1 r2 => match exec text r1 i k with Some e => Some e | None => exec text r2 i k end
  | RepCls c min max =>
      repCls text c (match max with Some n => n | None => S (String.length text) end) min i k
  | RepGroup r min max =>
      (fix rep (n min i : nat) {struct n} : option nat :=
         let stop := match min with 0%nat => k i | _ => None end in
         match n with
         | 0%nat => stop
         | S n' =>
             match exec text r i (λ j, rep n' (pred min) j) with
             | Some e => Some e
             | None => stop
             end
         end) max min i
  end.

(** The match that starts at [i], if any. *)
Definition matchAt (text : string) (r : re) (i : nat) : option nat := exec text r i Some.

(** [FindAllStringIndex(text, -1)] from position [i], for a pattern that never
    matches the empty string; [n] bounds the number of positions still to try,
    and one more than the length of the text is enough. *)
Fixpoint findAll (text : string) (r : re) (n i : nat) : list (nat * nat) :=
  match n with
  | 0%nat => []
  | S n' =>
      match matchAt text r i with
      | Some e => (i, e) :: findAll text r n' (Nat.max e (S i))
      | None => findAll text r n' (S i)
      end
  end.

(** ** Declarative semantics *)

Section Semantics.
Context (text : string).

Inductive reps (c : cls) : nat → nat → nat → Prop :=
| reps_0 i : reps c 0 i i
| reps_S n i w j : c text i = Some w → reps c n (i + w) j → reps c (S n) i j.

(** [mt r i j]: the pattern matches the bytes from [i] to [j]. *)
Inductive mt : re → nat → nat → Prop :=
| mt_cls c i w : c text i = Some w → mt (Cls c) i (i + w)
| mt_wb i : boundaryAt text i = true → mt WordBoundary i i
| mt_seq r1 r2 i j l : mt r1 i j → mt r2 j l → mt (Seq r1 r2) i l
| mt_alt_l r1 r2 i j : mt r1 i j → mt (Alt r1 r2) i j
| mt_alt_r r1 r2 i j : mt r2 i j → mt (Alt r1 r2) i j
| mt_rep c min max n i j :
    reps c n i j → (min <= n)%nat → (∀ m, max = Some m → (n <= m)%nat) → mt (RepCls c min max) i j
| mt_group_0 r max i : mt (RepGroup r 0 max) i i
| mt_group_S r min max i j l :
    mt r i j → mt (RepGroup r (pred min) max) j l → mt (RepGroup r min (S max)) i l.

(** A class takes at least one byte, inside the text. *)
Definition cls_ok (c : cls) : Prop :=
  ∀ i w, c text i = Some w → (1 <= w)%nat ∧ (i + w <= String.length text)%nat.

Fixpoint wf (r : re) : Prop :=
  match r with
  | Cls c => cls_ok c
  | WordBoundary => True
  | Seq r1 r2 | Alt r1 r2 => wf r1 ∧ wf r2
  | RepCls c _ _ => cls_ok c
  | RepGroup r _ _ => wf r
  end.

Lemma repCls_sound c n min i k e :
  repCls text c n min i k = Some e →
  ∃ m j, reps c m i j ∧ (min <= m)%nat ∧ (m <= n)%nat ∧ k j = Some e.
Proof.
  revert min i. induction n as [|n IH]; intros min i H; simpl in H.
  - destruct min; [|done]. exists 0%nat, i. repeat split; [constructor|lia|lia|done].
  - assert (Hstop : match min with 0%nat => k i | _ => None end = Some e →
      ∃ m j, reps c m i j ∧ (min <= m)%nat ∧ (m <= S n)%nat ∧ k j = Some e).
    { destruct min; [|done]. intros Hk. exists 0%nat, i. repeat split; [constructor|lia|lia|done]. }
    destruct (c text i) as [w|] eqn:Ec; [|auto].
    destruct (repCls text c n (pred min) (i + w) k) as [e'|] eqn:Er; [|auto]. injection H as ->.
    apply IH in Er as (m & j & Hr & Hm & Hn & Hk). exists (S m), j.
    repeat split; [by econstructor|lia|lia|done].
Qed.

Lemma repCls_complete c n min m i j k e :
  reps c m i j → (min <= m)%nat → (m <= n)%nat → k j = Some e → is_Some (repCls text c n min i k).
Proof.
  revert min m i. induction n as [|n IH]; intros min m i Hr Hm Hn Hk; simpl.
  - assert (m = 0%nat) as -> by lia. inversion Hr; subst. destruct min; [by eexists|lia].
  - inversion Hr; subst.
    + destruct min; [|lia]. destruct (c text j) as [w|]; [|by eexists].
      destruct (repCls text c n _ _ k); by eexists.
    + rewrite H. assert (is_Some (repCls text c n (pred min) (i + w) k)) as [e' ->]; [|by eexists].
      apply (IH (pred min) n0); [done|lia|lia|done].
Qed.

Lemma exec_sound r i k e : exec text r i k = Some e → ∃ j, mt r i j ∧ k j = Some e.
Proof.
  revert i k. induction r as [c| |r1 IH1 r2 IH2|r1 IH1 r2 IH2|c min max|r IH min max]; intros i k H; simpl in H.
  - destruct (c text i) as [w|] eqn:E; [|done]. eexists. split; [by constructor|done].
  - destruct (boundaryAt text i) eqn:E; [|done]. eexists. split; [by constructor|done].
  - apply IH1 in H as (j & H1 & H). apply IH2 in H as (l & H2 & H). exists l. split; [by econstructor|done].
  - destruct (exec text r1 i k) eqn:E.
    + injection H as ->. apply IH1 in E as (j & ? & ?). exists j. split; [by constructor|done].
    + apply IH2 in H as (j & ? & ?). exists j. split; [by apply mt_alt_r|done].
  - apply repCls_sound in H as (m & j & Hr & Hmin & Hmax & Hk). exists j. split; [|done].
    apply (mt_rep c min max m); [done|done|]. intros m' ->. done.
  - revert min i H. induction max as [|max IHmax]; intros min i H.
    + destruct min; [|done]. exists i. split; [constructor|done].
    + assert (Hstop : match min with 0%nat => k i | _ => None end = Some e →
        ∃ j, mt (RepGroup r min (S max)) i j ∧ k j = Some e).
      { destruct min; [|done]. intros Hk. exists i. split; [constructor|done]. }
      destruct (exec text r i _) as [e'|] eqn:E; [|auto]. injection H as ->.
      apply IH in E as (j & H1 & H2). apply IHmax in H2 as (l & H2 & Hk).
      exists l. split; [by econstructor|done].
Qed.

Lemma reps_length c n i j :
  cls_ok c → reps c n i j → (n + i <= j)%nat ∧ (n = 0%nat ∨ (j <= String.length text)%nat).
Proof.
  intros Hc. induction 1 as [|n i w j Hw Hr [IH1 IH2]]; [lia|]. destruct (Hc _ _ Hw) as [H1 H2].
  split; [lia|]. right. destruct IH2 as [->|]; [|done]. inversion Hr; subst. done.
Qed.

Lemma exec_complete r i j k e :
  wf r → mt r i j → k j = Some e → is_Some (exec text r i k).
Proof.
  intros Hwf Hm. revert k e Hwf. induction Hm as
    [c i w Hc|i Hb|r1 r2 i j l _ IH1 _ IH2|r1 r2 i j _ IH|r1 r2 i j _ IH|c min max n i j Hr Hmin Hmax|r max i
    |r min max i j l _ IH1 _ IH2]; intros k e Hwf Hk; simpl in *.
  - rewrite Hc. by eexists.
  - rewrite Hb. by eexists.
  - destruct Hwf as [Hw1 Hw2]. destruct (IH2 k e Hw2 Hk) as [e' He']. by apply (IH1 _ e').
  - destruct Hwf as [Hw1 Hw2]. destruct (IH k e Hw1 Hk) as [e' ->]. by eexists.
  - destruct Hwf as [Hw1 Hw2]. destruct (IH k e Hw2 Hk) as [e' ->]. by destruct (exec text r1 i k); eexists.
  - apply (repCls_complete c _ min n i j k e); [done|done| |done].
    destruct max as [m|]; [by apply Hmax|]. destruct (reps_length c n i j Hwf Hr) as [H1 [->|H2]]; lia.
  - destruct max as [|max]; [by eexists|]. by destruct (exec text r i _); eexists.
  - destruct (IH2 k e Hwf Hk) as [e' He'].
    destruct (IH1 (λ j, (fix rep (n min i : nat) {struct n} : option nat :=
         match n with
         | 0%nat => match min with 0%nat => k i | _ => None end
         | S n' => match exec text r i (λ j, rep n' (pred min) j) with
             | Some e => Some e | None => match min with 0%nat => k i | _ => None end end
         end) max (pred min) j) e' Hwf He') as [e'' ->]. by eexists.
Qed.

(** ** Searching *)

(** A pattern whose matches are never empty and end inside the text. *)
Definition nonempty (r : re) : Prop := ∀ i j, mt r i j → (i < j)%nat ∧ (j <= String.length text)%nat.

Lemma findAll_sound r n i a b :
  nonempty r → (a, b) ∈ findAll text r n i → mt r a b ∧ (i <= a)%nat.
Proof.
  intros Hne. revert i. induction n as [|n IH]; intros i H; simpl in H; [set_solver|].
  destruct (matchAt text r i) as [e|] eqn:E.
  - apply elem_of_cons in H as [[= -> ->]|H].
    + apply exec_sound in E as (j & Hm & [= ->]). done.
    + apply IH in H as [? ?]. split; [done|lia].
  - apply IH in H as [? ?]. split; [done|lia].
Qed.

(** Wherever the pattern matches from, a reported span is already under way or starts there. *)
Lemma findAll_complete r n i a b :
  wf r → nonempty r → mt r a b → (i <= a)%nat → (a < i + n)%nat →
  ∃ x y, (x, y) ∈ findAll text r n i ∧ (x <= a < y)%nat.
Proof.
  intros Hwf Hne Hm. revert i. induction n as [|n IH]; intros i Hi Hn; [lia|]. simpl.
  destruct (matchAt text r i) as [e|] eqn:E.
  - apply exec_sound in E as (j & Hj & [= ->]). destruct (Hne _ _ Hj) as [He _].
    destruct (decide (a < e)%nat) as [Ha|Ha].
    + exists i, e. split; [by left|lia].
    + destruct (IH (Nat.max e (S i))) as (x & y & Hxy & ?); [lia|lia|]. exists x, y. split; [by right|done].
  - destruct (decide (a = i)) as [->|Ha].
    + destruct (exec_complete r i b Some b Hwf Hm eq_refl) as [e He]. unfold matchAt in E. congruence.
    + destruct (IH (S i)) as (x & y & Hxy & ?); [lia|lia|]. by exists x, y.
Qed.

End Semantics.

End Regexp.

(** ** Facts about the classes *)

Module RegexpFacts.
Import Regexp.

Lemma byteAt_lt text i b : byteAt text i = Some b → (i < String.length text)%nat.
Proof.
  unfold byteAt. intros H. destruct (String.get i text) as [a|] eqn:E; [|done]. clear H.
  revert i E. induction text as [|c text IH]; intros i E; [by destruct i|].
  destruct i as [|i]; simpl in *; [lia|]. apply IH in E. lia.
Qed.

Lemma asciiCls_ok text f : cls_ok text (asciiCls f).
Proof.
  intros i w H. unfold asciiCls in H. destruct (byteAt text i) as [b|] eqn:E; [|done].
  apply byteAt_lt in E. destruct (f b); [|done]. injection H as <-. lia.
Qed.

Lemma isByte_lt text i b : isByte text i b = true → (i < String.length text)%nat.
Proof. unfold isByte. destruct (byteAt text i) eqn:E; [|done]. by apply byteAt_lt in E. Qed.

Lemma foldedRune_ok text a b : cls_ok text (foldedRune a b).
Proof.
  intros i w H. unfold foldedRune in H. destruct (b && _ && _) eqn:E1.
  - injection H as <-. apply andb_true_iff in E1 as [_ E]. apply isByte_lt in E. lia.
  - destruct (a && _ && _ && _) eqn:E2; [|done]. injection H as <-.
    apply andb_true_iff in E2 as [_ E]. apply isByte_lt in E. lia.
Qed.

Lemma orCls_ok text a b : cls_ok text a → cls_ok text b → cls_ok text (orCls a b).
Proof.
  intros Ha Hb i w H. unfold orCls in H. destruct (a text i) eqn:E; [|by apply Hb].
  injection H as <-. by apply Ha.
Qed.

Lemma foldCls_ok text f : cls_ok text (foldCls f).
Proof. apply orCls_ok; [apply asciiCls_ok|apply foldedRune_ok]. Qed.

Lemma foldLetter_ok text l : cls_ok text (foldLetter l).
Proof. apply orCls_ok; [apply asciiCls_ok|apply foldedRune_ok]. Qed.

(** Patterns that take at least one byte. *)
Fixpoint consumes (r : re) : bool :=
  match r with
  | Cls _ => true
  | WordBoundary => false
  | Seq r1 r2 => consumes r1 || consumes r2
  | Alt r1 r2 => consumes r1 && consumes r2
  | RepCls _ min _ => (1 <=? min)%nat
  | RepGroup r min _ => (1 <=? min)%nat && consumes r
  end.

Lemma mt_bounds text r i j :
  wf text r → mt text r i j →
  (i <= j)%nat ∧ (i = j ∨ (j <= String.length text)%nat) ∧ (consumes r = true → (i < j)%nat).
Proof.
  intros Hwf Hm. revert Hwf. induction Hm as
    [c i w Hc|i Hb|r1 r2 i j l _ IH1 _ IH2|r1 r2 i j _ IH|r1 r2 i j _ IH|c min max n i j Hr Hmin Hmax|r max i
    |r min max i j l _ IH1 _ IH2]; intros Hwf; simpl in *.
  - destruct (Hwf _ _ Hc). lia.
  - split; [lia|]. split; [by left|done].
  - destruct Hwf as [Hw1 Hw2]. destruct (IH1 Hw1) as (? & ? & H1), (IH2 Hw2) as (? & ? & H2).
    split; [lia|]. split; [lia|]. intros [Hc|Hc]%orb_true_iff; [apply H1 in Hc|apply H2 in Hc]; lia.
  - destruct Hwf as [Hw1 Hw2]. destruct (IH Hw1) as (? & ? & H1). split; [done|]. split; [done|].
    intros [Hc _]%andb_true_iff. auto.
  - destruct Hwf as [Hw1 Hw2]. destruct (IH Hw2) as (? & ? & H1). split; [done|]. split; [done|].
    intros [_ Hc]%andb_true_iff. auto.
  - destruct (reps_length text c n i j Hwf Hr) as [H1 [->|H2]].
    + inversion Hr; subst. split; [lia|]. split; [by left|]. destruct min; [done|lia].
    + split; [lia|]. split; [by right|]. destruct min; [done|lia].
  - split; [lia|]. split; [by left|done].
  - destruct (IH1 Hwf) as (? & ? & H1), (IH2 Hwf) as (? & ? & H2).
    split; [lia|]. split; [lia|]. intros [_ Hc]%andb_true_iff. apply H1 in Hc. lia.
Qed.

Lemma consumes_nonempty text r : wf text r → consumes r = true → nonempty text r.
Proof. intros Hwf Hc i j Hm. destruct (mt_bounds _ _ _ _ Hwf Hm) as (? & ? & H). apply H in Hc. lia. Qed.

End RegexpFacts.

(** ** Detection: [pii_detector.go] and [redactor.go] *)

Module PII.
Import Regexp RegexpFacts.

Definition PIIEmail : string := "email".
Definition PIIPhone : string := "phone".
Definition PIICreditCardLike : string := "credit_card_like".
Definition PIIAPIKeyLike : string := "api_key_like".

Definition lit (b : nat) : re := Cls (asciiCls (Nat.eqb b)).
Definition digit : cls := asciiCls isDigit.
Definition seqs (rs : list re) (last : re) : re := foldr Seq last rs.

(** [(?i)\b[A-Z0-9._%+\-]+@[A-Z0-9.\-]+\.[A-Z]{2,}\b] *)
Definition emailPattern : re :=
  seqs [WordBoundary;
        RepCls (foldCls (λ b, isDigit b || oneOf [46; 95; 37; 43; 45]%nat b)) 1 None;
        lit 64;
        RepCls (foldCls (λ b, isDigit b || oneOf [46; 45]%nat b)) 1 None;
        lit 46;
        RepCls (foldCls (λ _, false)) 2 None] WordBoundary.

(** [(?:\+?\d[\d\s().-]{7,}\d)] *)
Definition phonePattern : re :=
  seqs [RepCls (asciiCls (Nat.eqb 43)) 0 (Some 1%nat);
        Cls digit;
        RepCls (asciiCls (λ b, isDigit b || oneOf [9; 10; 12; 13; 32; 40; 41; 46; 45]%nat b)) 7 None]
       (Cls digit).

(** [(?:\d[ -]?){13,19}] *)
Definition creditCardPattern : re :=
  RepGroup (Seq (Cls digit) (RepCls (asciiCls (oneOf [32; 45]%nat)) 0 (Some 1%nat))) 13 19.

(** [[A-Za-z0-9_-]] under [(?i)]. *)
Definition tokenCls : cls := foldCls (λ b, isDigit b || oneOf [95; 45]%nat b).
Definition letters (ls : list nat) : list re := map (λ l, Cls (foldLetter l)) ls.

(** [(?i)\b(?:sk-[A-Za-z0-9_-]{16,}|llmgw_[A-Za-z0-9_-]{16,}|api[_-]?key[:=][A-Za-z0-9_-]{12,})\b] *)
Definition apiKeyPattern : re :=
  seqs [WordBoundary;
        Alt (seqs (letters [115; 107]%nat ++ [lit 45]) (RepCls tokenCls 16 None))
       (Alt (seqs (letters [108; 108; 109; 103; 119]%nat ++ [lit 95]) (RepCls tokenCls 16 None))
            (seqs (letters [97; 112; 105]%nat ++ [RepCls (asciiCls (oneOf [95; 45]%nat)) 0 (Some 1%nat)]
                   ++ letters [107; 101; 121]%nat ++ [Cls (asciiCls (oneOf [58; 61]%nat))])
                  (RepCls tokenCls 12 None)))]
       WordBoundary.

Record PIIHit := mkPIIHit { Type_ : string; Start : Z; End_ : Z }.

(** [pattern.FindAllStringIndex(text, -1)]. *)
Definition FindAllStringIndex (pattern : re) (text : string) : list (nat * nat) :=
  findAll text pattern (S (String.length text)) 0.

Definition hitOf (hitType : string) (m : nat * nat) : PIIHit :=
  mkPIIHit hitType (Z.of_nat m.1) (Z.of_nat m.2).

Definition appendRegexHits (hits : list PIIHit) (hitType : string) (pattern : re) (text : string) : list PIIHit :=
  hits ++ map (hitOf hitType) (FindAllStringIndex pattern text).

Fixpoint digitsOnly (value : string) : list nat :=
  match value with
  | EmptyString => []
  | String a rest => if isDigit (Ascii.nat_of_ascii a) then Ascii.nat_of_ascii a :: digitsOnly rest else digitsOnly rest
  end.

(** The loop of [luhnValid] runs from the last digit; [l] is the digits reversed. *)
Fixpoint luhnSum (l : list nat) (double : bool) : Z :=
  match l with
  | [] => 0
  | b :: rest =>
      let value := Z.of_nat b - 48 in
      let value := if double then let v := value * 2 in if 9 <? v then v - 9 else v else value in
      value + luhnSum rest (negb double)
  end.

Definition luhnValid (digits : list nat) : bool := luhnSum (rev digits) false mod 10 =? 0.

Definition isCard (text : string) (m : nat * nat) : bool :=
  let digits := digitsOnly (String.substring m.1 (m.2 - m.1) text) in
  negb ((length digits <? 13) || (19 <? length digits))%nat && luhnValid digits.

Definition appendCreditCardHits (hits : list PIIHit) (text : string) : list PIIHit :=
  hits ++ map (hitOf PIICreditCardLike) (List.filter (isCard text) (FindAllStringIndex creditCardPattern text)).

Definition overlapsType (hits : list PIIHit) (start end_ : Z) (hitType : string) : bool :=
  existsb (λ hit, String.eqb hit.(Type_) hitType && (start <? hit.(End_)) && (hit.(Start) <? end_)) hits.

Fixpoint appendPhones (hits : list PIIHit) (ms : list (nat * nat)) : list PIIHit :=
  match ms with
  | [] => hits
  | m :: rest =>
      if overlapsType hits (Z.of_nat m.1) (Z.of_nat m.2) PIICreditCardLike then appendPhones hits rest
      else appendPhones (hits ++ [hitOf PIIPhone m]) rest
  end.

Definition appendPhoneHits (hits : list PIIHit) (text : string) : list PIIHit :=
  appendPhones hits (FindAllStringIndex phonePattern text).

Definition hitLess (a b : PIIHit) : bool :=
  if negb (a.(Start) =? b.(Start)) then a.(Start) <? b.(Start) else a.(End_) <? b.(End_).

Definition Detect (text : string) : list PIIHit :=
  let hits := appendRegexHits [] PIIEmail emailPattern text in
  let hits := appendCreditCardHits hits text in
  let hits := appendPhoneHits hits text in
  let hits := appendRegexHits hits PIIAPIKeyLike apiKeyPattern text in
  sort_by (λ a b, negb (hitLess b a)) hits.

(** [HitTypes]: each type once, in increasing order. *)
Fixpoint dedupTypes (seen : list string) (hits : list PIIHit) : list string :=
  match hits with
  | [] => []
  | h :: rest =>
      if existsb (String.eqb h.(Type_)) seen then dedupTypes seen rest
      else h.(Type_) :: dedupTypes (h.(Type_) :: seen) rest
  end.

Definition HitTypes (hits : list PIIHit) : list string :=
  sort_by (λ a b, negb (String.ltb b a)) (dedupTypes [] hits).

(** *** Redaction *)

(** [merged] is kept in reverse, so that [last] is its head. *)
Fixpoint mergeLoop (merged : list PIIHit) (hits : list PIIHit) : list PIIHit :=
  match hits with
  | [] => rev merged
  | hit :: rest =>
      if (hit.(Start) <? 0) || (hit.(End_) <=? hit.(Start)) then mergeLoop merged rest
      else
        match merged with
        | [] => mergeLoop [hit] rest
        | last :: before =>
            if hit.(Start) <? last.(End_) then
              mergeLoop ((if last.(End_) <? hit.(End_)
                          then mkPIIHit last.(Type_) last.(Start) hit.(End_) else last) :: before) rest
            else mergeLoop (hit :: merged) rest
        end
  end.

Definition mergeHits (hits : list PIIHit) : list PIIHit := mergeLoop [] hits.

(** [text[a:b]], which panics out of range. *)
Definition slice (text : string) (a b : Z) : result string :=
  if (0 <=? a) && (a <=? b) && (b <=? Z.of_nat (String.length text))
  then Ok (String.substring (Z.to_nat a) (Z.to_nat (b - a)) text) else Err EPanic.

Definition marker (h : PIIHit) : string := ("[REDACTED:" ++ h.(Type_) ++ "]")%string.

Fixpoint redactLoop (text : string) (hits : list PIIHit) (builder : string) (cursor : Z) : result string :=
  match hits with
  | [] => rest ← slice text cursor (Z.of_nat (String.length text)); Ok (builder ++ rest)%string
  | hit :: hits' =>
      if hit.(Start) <? cursor then redactLoop text hits' builder cursor
      else
        piece ← slice text cursor hit.(Start);
        redactLoop text hits' (builder ++ piece ++ marker hit)%string hit.(End_)
  end.

Definition Redact (text : string) (hits : list PIIHit) : result string :=
  match hits with
  | [] => Ok text
  | _ => redactLoop text (mergeHits hits) "" 0
  end.

Example Detect_email : map Type_ (Detect "mail bob@example.com now") = [PIIEmail].
Proof. vm_compute. reflexivity. Qed.
Example Detect_card : map Type_ (Detect "card 4111 1111 1111 1111 ok") = [PIICreditCardLike].
Proof. vm_compute. reflexivity. Qed.
Example Detect_key : map Type_ (Detect "use SK-abcdefghijklmnopq-7") = [PIIAPIKeyLike].
Proof. vm_compute. reflexivity. Qed.
Example Redact_mixed :
  Redact "call +1 415 555 0101 or a.b@c.io!" (Detect "call +1 415 555 0101 or a.b@c.io!") =
  Ok "call [REDACTED:phone] or [REDACTED:email]!".
Proof. vm_compute. reflexivity. Qed.

(** *** What a redacted text is

    Byte by byte: a byte strictly inside a hit is dropped, a byte where a hit
    starts becomes the marker of the first hit that starts there, and every
    other byte is kept. *)

Definition validHit (h : PIIHit) : bool := (0 <=? h.(Start)) && (h.(Start) <? h.(End_)).
Definition straddled (hits : list PIIHit) (p : Z) : bool :=
  existsb (λ h, validHit h && (h.(Start) <? p) && (p <? h.(End_))) hits.
Definition startsAt (p : Z) (h : PIIHit) : bool := validHit h && (h.(Start) =? p).

Definition charAt (text : string) (p : nat) : string :=
  match String.get p text with Some c => String c "" | None => "" end.

Definition emitAt (text : string) (hits : list PIIHit) (p : nat) : string :=
  if straddled hits (Z.of_nat p) then ""
  else match find (startsAt (Z.of_nat p)) hits with Some h => marker h | None => charAt text p end.

Definition concatAll (l : list string) : string := foldr String.append "" l.

Definition redactSpec (text : string) (hits : list PIIHit) : string :=
  concatAll (map (emitAt text hits) (seq 0 (String.length text))).

Lemma concatAll_app l1 l2 : concatAll (l1 ++ l2) = (concatAll l1 ++ concatAll l2)%string.
Proof. induction l1 as [|x l1 IH]; simpl; [done|]. by rewrite IH, string_app_assoc. Qed.

Lemma substring_chars text a n :
  (a + n <= String.length text)%nat → String.substring a n text = concatAll (map (charAt text) (seq a n)).
Proof.
  revert a n. induction text as [|c text IH]; intros a n H; simpl in H.
  - assert (a = 0 ∧ n = 0)%nat as [-> ->] by lia. done.
  - assert (Hs : ∀ x k, map (charAt (String c text)) (seq (S x) k) = map (charAt text) (seq x k)).
    { intros x k. rewrite <- seq_shift, map_map. done. }
    destruct a as [|a].
    + destruct n as [|n]; [done|]. simpl. rewrite Hs, IH by lia. done.
    + simpl String.substring. rewrite Hs, IH by lia. done.
Qed.

(** Merged hits: valid, in order, no two of them overlap. *)
Definition disjointHits (hits : list PIIHit) : Prop :=
  StronglySorted (λ a b, a.(End_) <= b.(Start)) hits ∧ Forall (λ h, validHit h = true) hits.

Lemma validHit_spec h : validHit h = true ↔ 0 <= h.(Start) ∧ h.(Start) < h.(End_).
Proof. unfold validHit. rewrite andb_true_iff, Z.leb_le, Z.ltb_lt. done. Qed.

Lemma straddled_spec hits p :
  straddled hits p = true ↔ ∃ h, h ∈ hits ∧ validHit h = true ∧ h.(Start) < p < h.(End_).
Proof.
  unfold straddled. rewrite existsb_exists. split.
  - intros (h & Hin & H). exists h. rewrite list_elem_of_In. bool_to_prop. naive_solver lia.
  - intros (h & Hin & Hv & Hp). exists h. rewrite <- list_elem_of_In, Hv. split; [done|].
    rewrite (proj2 (Z.ltb_lt _ _)), (proj2 (Z.ltb_lt p _)) by lia. done.
Qed.

Lemma straddled_ext hits hits' :
  (∀ p, straddled hits p = true ↔ straddled hits' p = true) → ∀ p, straddled hits p = straddled hits' p.
Proof. intros H p. apply eq_true_iff_eq, H. Qed.

(** What is emitted up to the first hit of a disjoint list is the text itself. *)
Lemma emit_gap text h hits c n :
  disjointHits (h :: hits) → Z.of_nat (c + n) <= h.(Start) →
  map (emitAt text (h :: hits)) (seq c n) = map (charAt text) (seq c n).
Proof.
  intros [Hs Hv] Hn. apply map_ext_in. intros p [Hp1 Hp2]%in_seq.
  assert (Hle : ∀ x, x ∈ h :: hits → h.(Start) <= x.(Start)).
  { apply StronglySorted_cons_elem in Hs as [HF _].
    apply Forall_cons_iff in Hv as [Hh _]. apply validHit_spec in Hh.
    intros x [->|Hx]%elem_of_cons; [lia|]. apply HF in Hx. lia. }
  unfold emitAt. destruct (straddled _ _) eqn:E1.
  { apply straddled_spec in E1 as (x & Hx & _ & Hb). apply Hle in Hx. lia. }
  destruct (find _ _) as [x|] eqn:E2; [|done].
  apply find_some in E2 as [Hx He]. apply list_elem_of_In, Hle in Hx. unfold startsAt in He. bool_to_prop. lia.
Qed.

(** Inside the first hit: its marker and nothing else. *)
Lemma emit_block text h hits :
  disjointHits (h :: hits) →
  concatAll (map (emitAt text (h :: hits)) (seq (Z.to_nat h.(Start)) (Z.to_nat (h.(End_) - h.(Start))))) = marker h.
Proof.
  intros [Hs Hv]. apply Forall_cons_iff in Hv as [Hh Hv]. pose proof Hh as Hh'. apply validHit_spec in Hh' as [H1 H2].
  apply StronglySorted_cons_elem in Hs as [HF _].
  replace (Z.to_nat (End_ h - Start h)) with (S (Z.to_nat (End_ h - Start h - 1))) by lia. simpl.
  assert (Ehead : emitAt text (h :: hits) (Z.to_nat (Start h)) = marker h).
  { unfold emitAt. rewrite Z2Nat.id by lia. destruct (straddled _ _) eqn:E.
    - apply straddled_spec in E as (x & [->|Hx]%elem_of_cons & _ & Hb); [lia|]. apply HF in Hx. lia.
    - simpl. unfold startsAt at 1. by rewrite Hh, Z.eqb_refl. }
  rewrite Ehead.
  assert (Htail : ∀ n c, (Z.to_nat (Start h) < c)%nat → Z.of_nat (c + n) <= End_ h →
    concatAll (map (emitAt text (h :: hits)) (seq c n)) = "").
  { induction n as [|n IH]; intros c Hc Hn; simpl; [done|]. rewrite IH by lia.
    unfold emitAt. rewrite (proj2 (straddled_spec _ _)); [done|]. exists h. split; [by left|]. split; [done|lia]. }
  rewrite Htail by lia. apply string_app_nil_r.
Qed.

(** Past the first hit it no longer matters. *)
Lemma emit_after text h hits c n :
  h.(End_) <= Z.of_nat c → validHit h = true →
  map (emitAt text (h :: hits)) (seq c n) = map (emitAt text hits) (seq c n).
Proof.
  intros Hc Hh. apply validHit_spec in Hh. apply map_ext_in. intros p [Hp _]%in_seq. unfold emitAt. simpl.
  replace (Start h <? Z.of_nat p) with true by (symmetry; apply Z.ltb_lt; lia).
  replace (Z.of_nat p <? End_ h) with false by (symmetry; apply Z.ltb_ge; lia).
  rewrite andb_false_r. simpl. unfold startsAt at 1.
  replace (Start h =? Z.of_nat p) with false by (symmetry; apply Z.eqb_neq; lia). by rewrite andb_false_r.
Qed.

Lemma slice_ok text a b :
  0 <= a → a <= b → b <= Z.of_nat (String.length text) →
  slice text a b = Ok (concatAll (map (charAt text) (seq (Z.to_nat a) (Z.to_nat (b - a))))).
Proof.
  intros H1 H2 H3. unfold slice.
  rewrite !(proj2 (Z.leb_le _ _)) by lia. simpl. rewrite substring_chars by lia. done.
Qed.

Lemma redactLoop_spec text hits b c :
  disjointHits hits → (c <= String.length text)%nat →
  (∀ h, h ∈ hits → Z.of_nat c <= h.(Start) ∧ h.(End_) <= Z.of_nat (String.length text)) →
  redactLoop text hits b (Z.of_nat c) =
    Ok (b ++ concatAll (map (emitAt text hits) (seq c (String.length text - c))))%string.
Proof.
  revert b c. induction hits as [|h hits IH]; intros b c Hd Hc Hb; simpl redactLoop.
  - rewrite slice_ok by lia. simpl. rewrite Nat2Z.id, <- Nat2Z.inj_sub, Nat2Z.id by lia. done.
  - destruct (Hb h) as [Hs He]; [by left|]. rewrite (proj2 (Z.ltb_ge _ _)) by lia.
    pose proof Hd as [Hsort Hv]. apply StronglySorted_cons_elem in Hsort as [HF Hsort].
    apply Forall_cons_iff in Hv as [Hh Hv]. pose proof Hh as Hh'. apply validHit_spec in Hh' as [H0 H1].
    rewrite slice_ok by lia. simpl. rewrite Nat2Z.id.
    set (e := Z.to_nat (End_ h)). replace (End_ h) with (Z.of_nat e) by (subst e; lia).
    rewrite IH; [|by split|subst e; lia|intros x Hx; split; [apply HF in Hx; subst e; lia|apply Hb; by right]].
    f_equal. set (a := Z.to_nat (Start h)).
    replace (String.length text - c)%nat with ((a - c) + ((e - a) + (String.length text - e)))%nat by (subst e a; lia).
    rewrite !seq_app, !map_app, !concatAll_app.
    replace (c + (a - c))%nat with a by (subst a; lia). replace (a + (e - a))%nat with e by (subst e a; lia).
    rewrite (emit_gap text h hits c (a - c)) by (done || (subst a; lia)).
    pose proof (emit_block text h hits Hd) as Hblk.
    replace (Z.to_nat (End_ h - Start h)) with (e - a)%nat in Hblk by (subst e a; lia). fold a in Hblk.
    rewrite Hblk, (emit_after text h hits e) by (done || (subst e; lia)).
    replace (Z.to_nat (Start h - Z.of_nat c)) with (a - c)%nat by (subst a; lia).
    by rewrite !string_app_assoc.
Qed.

(** [merged] (in order) stands for the hits [done_] already read. *)
Definition mergedFor (merged done_ : list PIIHit) : Prop :=
  disjointHits merged ∧
  (∀ p, straddled merged p = straddled done_ p) ∧
  (∀ p, straddled done_ p = false →
     option_map marker (find (startsAt p) merged) = option_map marker (find (startsAt p) done_)).

Lemma straddled_app l1 l2 p : straddled (l1 ++ l2) p = straddled l1 p || straddled l2 p.
Proof. apply existsb_app. Qed.

Lemma disjointHits_snoc l h :
  disjointHits l → validHit h = true → (∀ x, x ∈ l → x.(End_) <= h.(Start)) → disjointHits (l ++ [h]).
Proof.
  intros [Hs Hv] Hh Hl. split; [|apply Forall_app; auto].
  clear Hv. induction l as [|x l IH]; simpl; [by repeat constructor|].
  apply StronglySorted_cons_elem in Hs as [HF Hs]. apply StronglySorted_cons_elem. split.
  - intros y [Hy|Hy%list_elem_of_singleton]%elem_of_app; [by apply HF|]. subst y. apply Hl. by left.
  - apply IH; [done|]. intros y Hy. apply Hl. by right.
Qed.

Lemma disjointHits_app l1 l2 : disjointHits (l1 ++ l2) → disjointHits l1.
Proof.
  intros [Hs Hv]. split; [|by apply Forall_app in Hv as [? _]]. clear Hv.
  induction l1 as [|x l1 IH]; [constructor|]. simpl in Hs. apply StronglySorted_cons_elem in Hs as [HF Hs].
  apply StronglySorted_cons_elem. split; [|auto]. intros y Hy. apply HF, elem_of_app. by left.
Qed.

Lemma disjointHits_snoc_inv l h x : disjointHits (l ++ [h]) → x ∈ l → x.(End_) <= h.(Start).
Proof.
  intros [Hs _] Hx. induction l as [|y l IH]; [set_solver|]. simpl in Hs.
  apply StronglySorted_cons_elem in Hs as [HF Hs].
  apply elem_of_cons in Hx as [->|Hx]; [|auto]. apply HF, elem_of_app. right. by left.
Qed.

Lemma mergedFor_skip merged done_ h :
  mergedFor merged done_ → validHit h = false → mergedFor merged (done_ ++ [h]).
Proof.
  intros (Hd & Hs & Hf) Hh. split; [done|]. split.
  - intros p. rewrite straddled_app, Hs. simpl. rewrite Hh. by rewrite orb_false_r.
  - intros p Hp. rewrite straddled_app in Hp. apply orb_false_iff in Hp as [Hp _].
    rewrite Hf, find_app by done. simpl. unfold startsAt at 3. rewrite Hh. simpl. by destruct (find _ done_).
Qed.

Lemma mergedFor_append merged done_ h :
  mergedFor merged done_ → validHit h = true → (∀ x, x ∈ merged → x.(End_) <= h.(Start)) →
  mergedFor (merged ++ [h]) (done_ ++ [h]).
Proof.
  intros (Hd & Hs & Hf) Hh Hle. split; [by apply disjointHits_snoc|]. split.
  - intros p. by rewrite !straddled_app, Hs.
  - intros p Hp. rewrite straddled_app in Hp. apply orb_false_iff in Hp as [Hp _].
    specialize (Hf p Hp). rewrite !find_app.
    destruct (find _ merged), (find _ done_); simpl in Hf; done.
Qed.

(** A hit that starts inside the last merged one extends it. *)
Lemma mergedFor_extend before last done_ h :
  mergedFor (before ++ [last]) done_ → validHit h = true → last.(Start) <= h.(Start) → h.(Start) < last.(End_) →
  let last' := mkPIIHit last.(Type_) last.(Start) (Z.max last.(End_) h.(End_)) in
  mergedFor (before ++ [last']) (done_ ++ [h]).
Proof.
  intros (Hd & Hs & Hf) Hh Hle Hlt last'.
  assert (Hl : validHit last = true) by (destruct Hd as [_ Hv]; apply Forall_app in Hv as [_ Hv]; by apply Forall_cons_iff in Hv as [? _]).
  pose proof Hh as Hhz. apply validHit_spec in Hhz. pose proof Hl as Hlz. apply validHit_spec in Hlz.
  assert (Hl' : validHit last' = true) by (apply validHit_spec; simpl; lia).
  split; [|split].
  - apply disjointHits_snoc; [by eapply disjointHits_app|done|]. intros x Hx. by apply (disjointHits_snoc_inv before last).
  - intros p. rewrite !straddled_app, <- Hs, straddled_app.
    destruct (straddled before p); [done|]. simpl. rewrite Hl, Hl', Hh. simpl.
    apply eq_true_iff_eq. rewrite ?orb_true_iff, ?orb_false_r, ?andb_true_iff, ?Z.ltb_lt. lia.
  - intros p Hp. rewrite straddled_app in Hp. apply orb_false_iff in Hp as [Hp _]. pose proof (Hf p Hp) as Hfp.
    rewrite find_app in Hfp |- *. rewrite (find_app _ done_). simpl in *.
    assert (Est : startsAt p last' = startsAt p last) by (unfold startsAt; rewrite Hl, Hl'; done).
    rewrite Est. destruct (find (startsAt p) before) as [x|]; [destruct (find (startsAt p) done_); [exact Hfp|discriminate]|].
    destruct (startsAt p last) eqn:El; [destruct (find (startsAt p) done_); [exact Hfp|discriminate]|].
    destruct (find (startsAt p) done_); [done|]. destruct (startsAt p h) eqn:Eh; [|done].
    exfalso. unfold startsAt in El, Eh. rewrite Hl in El. rewrite Hh in Eh. simpl in El, Eh.
    rewrite <- Hs in Hp. apply not_true_iff_false in Hp. apply Hp, straddled_spec.
    exists last. apply Z.eqb_eq in Eh. apply Z.eqb_neq in El.
    split; [apply elem_of_app; right; by left|]. split; [done|lia].
Qed.

Definition byStart (a b : PIIHit) : Prop := a.(Start) <= b.(Start).

Lemma mergeLoop_spec merged rest done_ :
  mergedFor (rev merged) done_ → StronglySorted byStart rest →
  (∀ x y, x ∈ merged → y ∈ rest → x.(Start) <= y.(Start)) →
  mergedFor (mergeLoop merged rest) (done_ ++ rest).
Proof.
  revert merged done_. induction rest as [|h rest IH]; intros merged done_ Hm Hs Hle; simpl.
  { by rewrite app_nil_r. }
  apply StronglySorted_cons_elem in Hs as [HF Hs]. rewrite (cons_middle h done_ rest), app_assoc.
  assert (Hv : validHit h = negb ((Start h <? 0) || (End_ h <=? Start h))).
  { unfold validHit. rewrite negb_orb, <- Z.leb_antisym, <- Z.ltb_antisym. done. }
  destruct ((Start h <? 0) || (End_ h <=? Start h)).
  { apply IH; [by apply mergedFor_skip|done|]. intros x y Hx Hy. apply Hle; [done|by right]. }
  destruct merged as [|last before].
  { apply IH; [apply (mergedFor_append []); [done|done|set_solver]|done|]. intros x y ->%list_elem_of_singleton Hy. by apply HF. }
  simpl in Hm. assert (Hlh : Start last <= Start h) by (apply Hle; by left).
  destruct (Z.ltb_spec (Start h) (End_ last)) as [Hlt|Hge].
  - apply IH; [|done|].
    + simpl. replace (if End_ last <? End_ h then _ else last)
        with (mkPIIHit (Type_ last) (Start last) (Z.max (End_ last) (End_ h))).
      { by apply mergedFor_extend. }
      destruct (Z.ltb_spec (End_ last) (End_ h)); [by rewrite Z.max_r by lia|].
      rewrite Z.max_l by lia. by destruct last.
    + intros x y [->|Hx]%elem_of_cons Hy; [|apply Hle; by right].
      apply HF in Hy. unfold byStart in Hy. destruct (End_ last <? End_ h); simpl; lia.
  - apply IH; [|done|].
    + change (rev (h :: last :: before)) with ((rev before ++ [last]) ++ [h]).
      apply mergedFor_append; [done|by rewrite Hv|]. intros x [Hx|Hx%list_elem_of_singleton]%elem_of_app; [|by subst x].
      pose proof Hm as [Hd _]. pose proof (disjointHits_snoc_inv _ _ _ Hd Hx).
      destruct Hd as [_ Hd]. apply Forall_app in Hd as [_ Hd]. apply Forall_cons_iff in Hd as [Hd _].
      apply validHit_spec in Hd. lia.
    + intros x y [->|Hx]%elem_of_cons Hy; [by apply HF|apply Hle; [done|by right]].
Qed.

Lemma mergeLoop_ends n merged rest :
  (∀ h, h ∈ merged → h.(End_) <= n) → (∀ h, h ∈ rest → h.(End_) <= n) →
  ∀ h, h ∈ mergeLoop merged rest → h.(End_) <= n.
Proof.
  revert merged. induction rest as [|x rest IH]; intros merged Hm Hr; simpl.
  { intros h Hh. apply Hm. by rewrite list_elem_of_In, in_rev, <- list_elem_of_In. }
  assert (Hr' : ∀ h, h ∈ rest → h.(End_) <= n) by (intros h Hh; apply Hr; by right).
  pose proof (Hr x ltac:(by left)) as Hx.
  destruct (_ || _); [by apply IH|]. destruct merged as [|last before].
  { apply IH; [|done]. by intros h ->%list_elem_of_singleton. }
  destruct (Start x <? End_ last).
  - apply IH; [|done]. intros h [->|Hh]%elem_of_cons; [|apply Hm; by right].
    destruct (End_ last <? End_ x); simpl; [done|]. apply Hm. by left.
  - apply IH; [|done]. by intros h [->|Hh]%elem_of_cons; [|apply Hm].
Qed.

Lemma substring_all text : String.substring 0 (String.length text) text = text.
Proof. induction text as [|c text IH]; simpl; [done|]. by rewrite IH. Qed.

Lemma Redact_spec text hits :
  StronglySorted byStart hits → (∀ h, h ∈ hits → h.(End_) <= Z.of_nat (String.length text)) →
  Redact text hits = Ok (redactSpec text hits).
Proof.
  intros Hs He. unfold Redact, redactSpec. destruct hits as [|h0 hits0] eqn:Eh.
  { rewrite <- (substring_all text) at 1. rewrite substring_chars by lia. done. }
  rewrite <- Eh in *. clear Eh h0 hits0.
  assert (Hm : mergedFor (mergeHits hits) hits).
  { apply (mergeLoop_spec [] hits []); [|done|set_solver]. split; [split; constructor|]. split; done. }
  destruct Hm as (Hd & Hst & Hf).
  rewrite (redactLoop_spec text _ "" 0); [|done|lia|].
  - rewrite Nat.sub_0_r. f_equal. change (concatAll (map (emitAt text (mergeHits hits)) (seq 0 (String.length text))) =
      concatAll (map (emitAt text hits) (seq 0 (String.length text)))). f_equal. apply map_ext. intros p. unfold emitAt. rewrite Hst.
    destruct (straddled hits (Z.of_nat p)) eqn:E; [done|]. specialize (Hf _ E).
    destruct (find _ (mergeHits hits)), (find _ hits); simpl in Hf; congruence.
  - intros h Hh. split.
    + destruct Hd as [_ Hv]. rewrite List.Forall_forall in Hv. apply list_elem_of_In, Hv, validHit_spec in Hh. lia.
    + revert h Hh. apply mergeLoop_ends; [set_solver|done].
Qed.

(** *** What detection reports *)

Definition patternOf (hitType : string) : option re :=
  if String.eqb hitType PIIEmail then Some emailPattern
  else if String.eqb hitType PIICreditCardLike then Some creditCardPattern
  else if String.eqb hitType PIIPhone then Some phonePattern
  else if String.eqb hitType PIIAPIKeyLike then Some apiKeyPattern
  else None.

Ltac solve_wf :=
  simpl; repeat first [apply asciiCls_ok | apply foldCls_ok | apply foldLetter_ok | exact I | reflexivity | split].

Lemma patterns_ok text hitType r : patternOf hitType = Some r → wf text r ∧ nonempty text r.
Proof.
  intros H. assert (Hw : wf text r ∧ consumes r = true).
  { unfold patternOf in H. repeat (destruct (String.eqb _ _); [injection H as <-; solve_wf|]). done. }
  destruct Hw as [Hw Hc]. split; [done|]. by apply consumes_nonempty.
Qed.

Lemma overlapsType_app l1 l2 a b T : overlapsType (l1 ++ l2) a b T = overlapsType l1 a b T || overlapsType l2 a b T.
Proof. apply existsb_app. Qed.

Lemma appendPhones_filter hits ms :
  appendPhones hits ms =
  hits ++ map (hitOf PIIPhone) (List.filter (λ m, negb (overlapsType hits (Z.of_nat m.1) (Z.of_nat m.2) PIICreditCardLike)) ms).
Proof.
  revert hits. induction ms as [|m ms IH]; intros hits; simpl; [by rewrite app_nil_r|].
  destruct (overlapsType hits _ _ _) eqn:E; simpl; [by rewrite IH|].
  rewrite IH, <- app_assoc. simpl. do 3 f_equal. apply filter_ext. intros x. f_equal.
  rewrite overlapsType_app. by rewrite orb_false_r.
Qed.

(** The card hits, and the hits of the four kinds before they are sorted. *)
Definition cardHits (text : string) : list PIIHit := appendCreditCardHits [] text.

Lemma Detect_elem text h :
  h ∈ Detect text ↔ ∃ m,
    (h = hitOf PIIEmail m ∧ m ∈ FindAllStringIndex emailPattern text) ∨
    (h = hitOf PIICreditCardLike m ∧ m ∈ FindAllStringIndex creditCardPattern text ∧ isCard text m = true) ∨
    (h = hitOf PIIPhone m ∧ m ∈ FindAllStringIndex phonePattern text ∧
     overlapsType (cardHits text) (Z.of_nat m.1) (Z.of_nat m.2) PIICreditCardLike = false) ∨
    (h = hitOf PIIAPIKeyLike m ∧ m ∈ FindAllStringIndex apiKeyPattern text).
Proof.
  unfold Detect. rewrite elem_of_sort_by. unfold appendRegexHits, appendPhoneHits, cardHits.
  rewrite appendPhones_filter. unfold appendCreditCardHits. simpl.
  assert (Hov : ∀ a b ms, overlapsType (map (hitOf PIIEmail) ms ++
    map (hitOf PIICreditCardLike) (List.filter (isCard text) (FindAllStringIndex creditCardPattern text))) a b PIICreditCardLike =
    overlapsType (map (hitOf PIICreditCardLike) (List.filter (isCard text) (FindAllStringIndex creditCardPattern text))) a b PIICreditCardLike).
  { intros a b ms. rewrite overlapsType_app.
    replace (overlapsType (map (hitOf PIIEmail) ms) a b PIICreditCardLike) with false; [done|].
    symmetry. induction ms as [|m ms IH]; simpl; [done|]. exact IH. }
  rewrite !list_elem_of_In, !in_app_iff, !in_map_iff. setoid_rewrite list_elem_of_In.
  split.
  - intros [[[(m & <- & H)|(m & <- & H)]|(m & <- & H)]|(m & <- & H)]; exists m.
    + by left.
    + apply filter_In in H as [H1 H2]. right; left. done.
    + apply filter_In in H as [H1 H2]. rewrite Hov in H2. apply negb_true_iff in H2.
      right; right; left. done.
    + by do 3 right.
  - intros (m & [(-> & H)|[(-> & H & Hc)|[(-> & H & Hc)|(-> & H)]]]).
    + left; left; left. by exists m.
    + left; left; right. exists m. by rewrite filter_In.
    + left; right. exists m. rewrite filter_In, Hov, Hc. done.
    + right. by exists m.
Qed.

Lemma FindAll_sound text T r a b :
  patternOf T = Some r → (a, b) ∈ FindAllStringIndex r text →
  mt text r a b ∧ (a < b)%nat ∧ (b <= String.length text)%nat.
Proof.
  intros [_ Hn]%(patterns_ok text) H. apply findAll_sound in H as [Hm _]; [|done].
  split; [done|]. by apply Hn.
Qed.

Lemma FindAll_complete text T r a b :
  patternOf T = Some r → mt text r a b → ∃ x y, (x, y) ∈ FindAllStringIndex r text ∧ (x <= a < y)%nat.
Proof.
  intros [Hw Hn]%(patterns_ok text) Hm. pose proof (Hn _ _ Hm).
  apply (findAll_complete text r _ 0 a b); [done|done|done|lia|lia].
Qed.

(** A hit is a match of its own pattern, inside the text. *)
Lemma Detect_match text h :
  h ∈ Detect text → ∃ r a b, patternOf h.(Type_) = Some r ∧ h = hitOf h.(Type_) (a, b) ∧ mt text r a b ∧
    (a < b)%nat ∧ (b <= String.length text)%nat.
Proof.
  rewrite Detect_elem. intros ([a b] & [(-> & H)|[(-> & H & _)|[(-> & H & _)|(-> & H)]]]); simpl;
    eexists _, a, b; (split; [reflexivity|]); (split; [done|]).
  - by apply (FindAll_sound text PIIEmail).
  - by apply (FindAll_sound text PIICreditCardLike).
  - by apply (FindAll_sound text PIIPhone).
  - by apply (FindAll_sound text PIIAPIKeyLike).
Qed.

Lemma weak_order_hitLess : weak_order hitLess.
Proof.
  apply (weak_order_ext (lex (λ a b, a.(Start) <? b.(Start)) (λ a b, a.(End_) <? b.(End_)))).
  - intros a b. unfold lex, hitLess. destruct (Z.eqb_spec (Start a) (Start b)) as [->|E]; simpl.
    + by rewrite Z.ltb_irrefl.
    + destruct (Z.ltb_spec (Start a) (Start b)), (Z.ltb_spec (Start b) (Start a)); try done; lia.
  - apply weak_order_lex; apply weak_order_Z.
Qed.

Lemma Detect_sorted text : StronglySorted (λ a b, hitLess b a = false) (Detect text).
Proof. apply weak_order_sorted, weak_order_hitLess. Qed.

Lemma Detect_byStart text : StronglySorted byStart (Detect text).
Proof.
  generalize (Detect_sorted text). generalize (Detect text). intros l.
  induction l as [|x l IH]; [constructor|]. rewrite !StronglySorted_cons_elem. intros [HF Hs]. split; [|auto].
  intros y Hy. apply HF in Hy. unfold byStart. unfold hitLess in Hy.
  destruct (Z.eqb_spec (Start y) (Start x)); simpl in Hy; [lia|]. apply Z.ltb_ge in Hy. lia.
Qed.

(** *** The Luhn checksum *)

(** What the digit [b] adds to the sum. *)
Definition luhnDigit (double : bool) (b : nat) : Z :=
  let v := Z.of_nat b - 48 in
  if double then if 9 <? v * 2 then v * 2 - 9 else v * 2 else v.

Lemma luhnSum_cons b l d : luhnSum (b :: l) d = luhnDigit d b + luhnSum l (negb d).
Proof. done. Qed.

Lemma luhnSum_app_at l1 d : ∃ d', ∀ l2, luhnSum (l1 ++ l2) d = luhnSum l1 d + luhnSum l2 d'.
Proof.
  revert d. induction l1 as [|b l1 IH]; intros d; [by exists d|].
  destruct (IH (negb d)) as [d' H]. exists d'. intros l2. rewrite <- app_comm_cons, !luhnSum_cons, H. lia.
Qed.

Lemma mod10_shift x y : (x mod 10 =? 0) = true → (y - x) mod 10 ≠ 0 → (y mod 10 =? 0) = false.
Proof. rewrite Z.eqb_eq, Z.eqb_neq. intros Hx Hd Hy. apply Hd. rewrite Zminus_mod, Hx, Hy. done. Qed.

Lemma isDigit_cases b : isDigit b = true → In b (seq 48 10).
Proof. unfold isDigit, inRange. rewrite andb_true_iff, !Nat.leb_le, in_seq. lia. Qed.

(** Finite check over the ten digits. *)
Lemma luhn_one_digit d : forallb (λ a, forallb (λ b,
  (a =? b)%nat || negb ((luhnDigit d b - luhnDigit d a) mod 10 =? 0)) (seq 48 10)) (seq 48 10) = true.
Proof. destruct d; vm_compute; reflexivity. Qed.

Lemma luhn_two_digits d : forallb (λ a, forallb (λ b,
  (a =? b)%nat || ((a =? 48) && (b =? 57))%nat || ((a =? 57) && (b =? 48))%nat ||
  negb ((luhnDigit d a + luhnDigit (negb d) b - (luhnDigit d b + luhnDigit (negb d) a)) mod 10 =? 0)) (seq 48 10)) (seq 48 10) = true.
Proof. destruct d; vm_compute; reflexivity. Qed.

Lemma forallb_pair (f : nat → nat → bool) l a b :
  forallb (λ a, forallb (f a) l) l = true → In a l → In b l → f a b = true.
Proof. rewrite forallb_forall. intros H Ha Hb. apply H in Ha. rewrite forallb_forall in Ha. auto. Qed.

(** The checksum that separates card numbers from other digit runs
    changes with every single wrong digit, and with every swap of two
    neighbouring digits except 0 and 9. *)
Theorem luhn_detects_errors (l1 l2 : list nat) (a b : nat) :
  isDigit a = true → isDigit b = true → a ≠ b →
  (luhnValid (l1 ++ a :: l2) = true → luhnValid (l1 ++ b :: l2) = false) ∧
  (luhnValid (l1 ++ a :: b :: l2) = true → ¬ (a = 48 ∧ b = 57)%nat → ¬ (a = 57 ∧ b = 48)%nat →
   luhnValid (l1 ++ b :: a :: l2) = false).
Proof.
  intros Ha%isDigit_cases Hb%isDigit_cases Hne. unfold luhnValid.
  destruct (luhnSum_app_at (rev l2) false) as [d Hd]. split.
  - simpl. rewrite !rev_app_distr. simpl. rewrite <- !app_assoc. simpl. rewrite !Hd, !luhnSum_cons.
    intros H. eapply mod10_shift; [exact H|].
    pose proof (forallb_pair _ _ a b (luhn_one_digit d) Ha Hb) as Hf. simpl in Hf.
    rewrite (proj2 (Nat.eqb_neq _ _) Hne) in Hf. simpl in Hf. apply negb_true_iff, Z.eqb_neq in Hf.
    intros E. apply Hf. rewrite <- E. f_equal. lia.
  - intros H H1 H2. rewrite !rev_app_distr in *. simpl in *. rewrite <- !app_assoc in *. simpl in *.
    rewrite !Hd, !luhnSum_cons in *. eapply mod10_shift; [exact H|].
    pose proof (forallb_pair _ _ a b (luhn_two_digits d) Ha Hb) as Hf. simpl in Hf.
    rewrite (proj2 (Nat.eqb_neq _ _) Hne) in Hf. rewrite !orb_true_iff, !andb_true_iff, !Nat.eqb_eq in Hf.
    destruct Hf as [[[Hf|Hf]|Hf]|Hf]; [done|done|done|]. apply negb_true_iff, Z.eqb_neq in Hf.
    intros E. apply Hf. rewrite <- E. f_equal. lia.
Qed.

(** Detection reports its hits in order of position. Every hit lies inside
    the text and is a match of the pattern of its own type; a card also has a
    valid checksum and a phone number overlaps no card. Wherever an e-mail
    address or an API key can be read in the text, a hit of that type covers
    the place; a phone number is reported as well unless it overlaps a card. *)
Theorem Detect_correct (text : string) :
  StronglySorted (λ a b, hitLess b a = false) (Detect text) ∧
  (∀ h, h ∈ Detect text → ∃ r a b, patternOf h.(Type_) = Some r ∧ h = hitOf h.(Type_) (a, b) ∧
     mt text r a b ∧ (a < b)%nat ∧ (b <= String.length text)%nat ∧
     (h.(Type_) = PIICreditCardLike → isCard text (a, b) = true) ∧
     (h.(Type_) = PIIPhone → overlapsType (cardHits text) h.(Start) h.(End_) PIICreditCardLike = false)) ∧
  (∀ T r a b, T = PIIEmail ∨ T = PIIAPIKeyLike → patternOf T = Some r → mt text r a b →
     ∃ h, h ∈ Detect text ∧ h.(Type_) = T ∧ h.(Start) <= Z.of_nat a < h.(End_)) ∧
  (∀ a b, mt text phonePattern a b → ∃ x y, (x <= a < y)%nat ∧
     (hitOf PIIPhone (x, y) ∈ Detect text ∨
      overlapsType (cardHits text) (Z.of_nat x) (Z.of_nat y) PIICreditCardLike = true)).
Proof.
  split; [apply Detect_sorted|]. split; [|split].
  - intros h Hh. destruct (Detect_match _ _ Hh) as (r & a & b & Hr & He & Hm & Hab & Hb).
    exists r, a, b. do 5 (split; [done|]).
    apply Detect_elem in Hh as ([x y] & Hh). rewrite He in Hh |- *. simpl.
    destruct Hh as [(E & _)|[(E & _ & Hc)|[(E & _ & Hc)|(E & _)]]]; injection E as E1 E2 E3; rewrite E1;
      (split; intros Ht; try discriminate Ht).
    + apply Nat2Z.inj in E2 as ->. apply Nat2Z.inj in E3 as ->. done.
    + rewrite E2, E3. exact Hc.
  - intros T r a b HT Hr Hm. destruct (FindAll_complete text T r a b Hr Hm) as (x & y & Hxy & Hb).
    exists (hitOf T (x, y)). split; [|split; [done|simpl; lia]]. apply Detect_elem. exists (x, y).
    destruct HT as [-> | ->]; injection Hr as <-; [by left|by do 3 right].
  - intros a b Hm. destruct (FindAll_complete text PIIPhone phonePattern a b eq_refl Hm) as (x & y & Hxy & Hb).
    exists x, y. split; [done|].
    destruct (overlapsType _ _ _ _) eqn:E; [by right|]. left. apply Detect_elem. exists (x, y). by do 2 right; left.
Qed.

Lemma Redact_Detect_ok text : Redact text (Detect text) = Ok (redactSpec text (Detect text)).
Proof.
  apply Redact_spec; [apply Detect_byStart|]. intros h Hh.
  destruct (Detect_match _ _ Hh) as (r & a & b & _ & -> & _ & _ & Hb). simpl. lia.
Qed.

(** C38: redacting a text by its own hits always succeeds and gives the text in
    which each byte inside a hit is dropped, each start of a group of
    overlapping hits becomes one marker, and every other byte is kept; in
    particular the place where an e-mail address or an API key begins is never
    copied. *)
Theorem Redact_Detect (text : string) :
  Redact text (Detect text) = Ok (redactSpec text (Detect text)) ∧
  (∀ T r a b, T = PIIEmail ∨ T = PIIAPIKeyLike → patternOf T = Some r → mt text r a b →
     emitAt text (Detect text) a = "" ∨ ∃ h, h ∈ Detect text ∧ emitAt text (Detect text) a = marker h).
Proof.
  split; [apply Redact_Detect_ok|].
  - intros T r a b HT Hr Hm. destruct (FindAll_complete text T r a b Hr Hm) as (x & y & Hxy & Hb).
    assert (Hin : hitOf T (x, y) ∈ Detect text).
    { apply Detect_elem. exists (x, y). destruct HT as [-> | ->]; injection Hr as <-; [by left|by do 3 right]. }
    assert (Hv : validHit (hitOf T (x, y)) = true) by (apply validHit_spec; simpl; lia).
    unfold emitAt. destruct (straddled _ _) eqn:Es; [by left|]. right.
    destruct (find _ _) as [h|] eqn:Ef.
    + apply find_some in Ef as [Hh _]. exists h. split; [by apply list_elem_of_In|done].
    + exfalso. destruct (decide (x = a)) as [->|Hne].
      * apply list_elem_of_In, (find_none _ _ Ef) in Hin. unfold startsAt in Hin. rewrite Hv in Hin. simpl in Hin.
        by rewrite Z.eqb_refl in Hin.
      * apply not_true_iff_false in Es. apply Es, straddled_spec. exists (hitOf T (x, y)).
        split; [done|]. split; [done|]. simpl. lia.
Qed.

Lemma luhn_detects_errors_witness :
  luhnValid (digitsOnly "7992 7398 713") = true ∧ luhnValid (digitsOnly "7992 7398 714") = false ∧
  luhnValid (digitsOnly "7992 7397 813") = false.
Proof.
  split; [vm_compute; reflexivity|]. split.
  - apply (proj1 (luhn_detects_errors [55; 57; 57; 50; 55; 51; 57; 56; 55; 49]%nat [] 51 52
      eq_refl eq_refl ltac:(discriminate))). vm_compute. reflexivity.
  - apply (proj2 (luhn_detects_errors [55; 57; 57; 50; 55; 51; 57]%nat [49; 51]%nat 56 55
      eq_refl eq_refl ltac:(discriminate))); [vm_compute; reflexivity|lia|lia].
Defined.

End PII.

(** ** The organisation's policy: [service.go] *)

Module PolicyService.

Definition ActionAllow : string := "allow".
Definition ActionRedact : string := "redact".
Definition ActionBlock : string := "block".

Record CreateContentPolicyParams := mkCreateContentPolicyParams {
  cp_OrgID : uuid;
  cp_Name : string;
  cp_PIIAction : string
}.

Definition validAction (action : string) : bool :=
  String.eqb action ActionAllow || String.eqb action ActionRedact || String.eqb action ActionBlock.

(** The constraints of the table: [PRIMARY KEY], [UNIQUE(org_id, name)], [CHECK]. *)
Definition insert_content_policy (p : ContentPolicy) (d : DB) : result (ContentPolicy * DB) :=
  _ ← pg_check (validAction p.(ContentPolicy_PiiAction)
                && (String.eqb p.(ContentPolicy_Status) "active" || String.eqb p.(ContentPolicy_Status) "disabled"));
  _ ← pg_unique (λ q, (q.(ContentPolicy_ID) =? p.(ContentPolicy_ID))%N
                      || ((q.(ContentPolicy_OrgID) =? p.(ContentPolicy_OrgID))%N
                          && String.eqb q.(ContentPolicy_Name) p.(ContentPolicy_Name))) d.(content_policies);
  Ok (p, set_content_policies (λ ps, ps ++ [p]) d).

(** [ORDER BY created_at DESC, id DESC]. *)
Definition newer (a b : ContentPolicy) : bool :=
  lex (λ a b, b.(ContentPolicy_CreatedAt) <? a.(ContentPolicy_CreatedAt))
      (λ a b, (b.(ContentPolicy_ID) <? a.(ContentPolicy_ID))%N) a b.
Definition list_content_policies (orgID : uuid) (d : DB) : list ContentPolicy :=
  sort_by (λ a b, negb (newer b a)) (List.filter (λ p, (p.(ContentPolicy_OrgID) =? orgID)%N) d.(content_policies)).

(** [WHERE org_id = $1 AND status = 'active']. *)
Definition active_of (orgID : uuid) (ps : list ContentPolicy) : list ContentPolicy :=
  List.filter (λ p, (p.(ContentPolicy_OrgID) =? orgID)%N && String.eqb p.(ContentPolicy_Status) "active") ps.

Definition GetActiveContentPolicy (orgID : uuid) : M ContentPolicy :=
  query (λ d,
    match sort_by (λ a b, negb (newer b a)) (active_of orgID d.(content_policies)) with
    | [] => Err ENoRows
    | p :: _ => Ok p
    end).

Definition CreateContentPolicy (params : CreateContentPolicyParams) : M ContentPolicy :=
  if (params.(cp_OrgID) =? Nil)%N then fail (EMsg "org_id is required")
  else
    let name := TrimSpace params.(cp_Name) in
    if String.eqb name "" then fail (EMsg "name is required")
    else if negb (validAction params.(cp_PIIAction)) then fail (EMsg "pii_action must be allow, redact or block")
    else
      now ← clock;
      id ← new_uuid;
      stmt (insert_content_policy (mkContentPolicy id params.(cp_OrgID) name params.(cp_PIIAction) "active" now now)).

Definition ListContentPolicies (orgID : uuid) : M (list ContentPolicy) :=
  if (orgID =? Nil)%N then fail (EMsg "org_id is required")
  else query (λ d, Ok (list_content_policies orgID d)).

Definition ActivePIIAction (orgID : uuid) : M string :=
  if (orgID =? Nil)%N then fail (EMsg "org_id is required")
  else
    r ← try (GetActiveContentPolicy orgID);
    match r with
    | Err ENoRows => mret ActionAllow
    | Err e => fail e
    | Ok item => if validAction item.(ContentPolicy_PiiAction) then mret item.(ContentPolicy_PiiAction) else mret ActionAllow
    end.

Lemma weak_order_newer : weak_order newer.
Proof.
  apply weak_order_lex.
  - split; intros *; rewrite ?Z.ltb_lt, ?Z.ltb_ge; lia.
  - split; intros *; rewrite ?N.ltb_lt, ?N.ltb_ge; lia.
Qed.

(** A row newer than all others comes first. *)
Lemma newest_head l p :
  (∀ q, q ∈ l → q.(ContentPolicy_CreatedAt) < p.(ContentPolicy_CreatedAt)) →
  ∃ rest, sort_by (λ a b, negb (newer b a)) (l ++ [p]) = p :: rest.
Proof.
  intros Hl. pose proof (weak_order_sorted newer (l ++ [p]) weak_order_newer) as Hs.
  pose proof (sort_by_perm (λ a b, negb (newer b a)) (l ++ [p])) as Hp.
  destruct (sort_by _ _) as [|x rest].
  { apply Permutation_nil in Hp. by destruct l. }
  exists rest. f_equal. assert (Hx : x ∈ l ++ [p]) by (rewrite <- Hp; by left).
  apply elem_of_app in Hx as [Hx|Hx%list_elem_of_singleton]; [|done]. exfalso. apply Hl in Hx as Hlt.
  assert (Hin : p ∈ x :: rest) by (rewrite Hp; apply elem_of_app; right; by left).
  apply elem_of_cons in Hin as [->|Hin]; [lia|]. apply StronglySorted_cons_elem in Hs as [HF _].
  apply HF in Hin. unfold newer, lex in Hin.
  rewrite (proj2 (Z.ltb_lt _ _) Hlt) in Hin. discriminate.
Qed.

(** Reading the action of an organisation when no call fails. *)
Lemma ActivePIIAction_run orgID w :
  w_faults w = [] → orgID ≠ Nil →
  ActivePIIAction orgID w =
  (Ok match sort_by (λ a b, negb (newer b a)) (active_of orgID (w_db w).(content_policies)) with
      | p :: _ => if validAction p.(ContentPolicy_PiiAction) then p.(ContentPolicy_PiiAction) else ActionAllow
      | [] => ActionAllow
      end, w).
Proof.
  intros Hf Hn. unfold ActivePIIAction. rewrite (proj2 (N.eqb_neq _ _) Hn).
  unfold mbind, M_bind, try, GetActiveContentPolicy. rewrite query_run by done. unfold active_of.
  destruct (sort_by _ _); [done|]. by destruct (validAction _).
Qed.

(** Creating a policy stores it and makes its action the organisation's at
    once, provided its clock reading is later than the organisation's other
    policies; the action of every other organisation stays what it was, and the
    action read is always one of allow, redact and block. *)
Theorem CreateContentPolicy_takes_effect (params : CreateContentPolicyParams) (w w' : world) (p : ContentPolicy) :
  w_faults w = [] →
  (∀ q, q ∈ (w_db w).(content_policies) → q.(ContentPolicy_OrgID) = params.(cp_OrgID) →
        q.(ContentPolicy_CreatedAt) < w_now w) →
  CreateContentPolicy params w = (Ok p, w') →
  (w_db w').(content_policies) = (w_db w).(content_policies) ++ [p] ∧
  (ActivePIIAction params.(cp_OrgID) w').1 = Ok params.(cp_PIIAction) ∧
  validAction params.(cp_PIIAction) = true ∧
  (∀ o, o ≠ params.(cp_OrgID) → o ≠ Nil → (ActivePIIAction o w').1 = (ActivePIIAction o w).1).
Proof.
  intros Hf Hnew H. unfold CreateContentPolicy in H.
  destruct (N.eqb_spec (cp_OrgID params) Nil) as [|Hn]; [done|].
  destruct (String.eqb _ ""); [done|]. destruct (validAction _) eqn:Hv; [|done]. simpl in H.
  unfold clock, new_uuid, mbind, M_bind in H. simpl in H. rewrite stmt_run in H by done.
  unfold insert_content_policy in H. simpl in H. rewrite Hv in H. simpl in H.
  destruct (pg_unique _ _); [|done]. simpl in H. injection H as <- <-. simpl.
  split; [done|]. rewrite ActivePIIAction_run by done. simpl. unfold active_of. rewrite filter_app. simpl.
  rewrite N.eqb_refl. simpl. split; [|split; [done|]].
  - destruct (newest_head (active_of (cp_OrgID params) (content_policies (w_db w)))
      (mkContentPolicy (w_uuid w (w_fresh w)) (cp_OrgID params) (TrimSpace (cp_Name params)) (cp_PIIAction params)
         "active" (w_now w) (w_now w))) as [rest Hr].
    { intros q Hq. apply list_elem_of_In, filter_In in Hq as [Hq Ho]. eqb_to_prop.
      apply Hnew; [by apply list_elem_of_In|done]. }
    unfold active_of, w_now in Hr. rewrite Hr. simpl. by rewrite Hv.
  - intros o Ho Hon. rewrite !ActivePIIAction_run by done. simpl. unfold active_of. rewrite filter_app. simpl.
    rewrite (proj2 (N.eqb_neq (cp_OrgID params) o)) by congruence. simpl. by rewrite app_nil_r.
Qed.

Lemma CreateContentPolicy_takes_effect_witness :
  let r := CreateContentPolicy (mkCreateContentPolicyParams 1%N "pii" "redact") ex_world in
  is_ok r.1 = true ∧ (ActivePIIAction 1%N r.2).1 = Ok "redact" ∧ (ActivePIIAction 1%N ex_world).1 = Ok "allow".
Proof.
  intros r; subst r.
  assert (E : (CreateContentPolicy (mkCreateContentPolicyParams 1%N "pii" "redact") ex_world).1 =
    Ok (mkContentPolicy 1000%N 1%N "pii" "redact" "active" (Day + 12 * Hour) (Day + 12 * Hour))) by (vm_compute; reflexivity).
  split; [by rewrite E|]. split; [|vm_compute; reflexivity].
  apply (CreateContentPolicy_takes_effect (mkCreateContentPolicyParams 1%N "pii" "redact") ex_world _ _ eq_refl
    ltac:(intros q Hq; apply elem_of_nil in Hq; destruct Hq) (run_eq _ _ E)).
Defined.

End PolicyService.
