(* ===== verification/Pricing.v ===== *)
(** * Model prices: [internal/costing/pricing_service.go] and the models of
    [internal/provider/provider_service.go]

    A model has a history of price versions, of which one is active. Creating
    a model writes its first version; changing its price closes the active
    version and opens the next one, in one transaction. *)

From S2P Require Import Prelude GoTime GoStrings Costing Store ExampleWorld.

Module Pricing.

Definition PricingStatusActive : string := "active".
Definition PricingStatusSuperseded : string := "superseded".
Definition ErrModelPricingNotFound : err := EMsg "model pricing not found".
Definition ErrProviderNotFound : err := EMsg "provider not found".

Record UpdateModelPricingParams := mkUpdateModelPricingParams {
  up_OrgID : uuid;
  up_ModelID : uuid;
  up_InputPriceMicroUSDPer1KTokens : Z;
  up_OutputPriceMicroUSDPer1KTokens : Z
}.

Record UpdateModelPricingResult := mkUpdateModelPricingResult {
  ur_Model : Model;
  ur_PreviousVersion : ModelPricingVersion;
  ur_PricingVersion : ModelPricingVersion
}.

(** ** Queries *)

Definition of_model (orgID modelID : uuid) (p : ModelPricingVersion) : bool :=
  (p.(ModelPricingVersion_OrgID) =? orgID)%N && (p.(ModelPricingVersion_ModelID) =? modelID)%N.
Definition active_version (orgID modelID : uuid) (p : ModelPricingVersion) : bool :=
  of_model orgID modelID p && String.eqb p.(ModelPricingVersion_Status) "active".

(** The [CHECK] constraints of [model_pricing_versions]. *)
Definition pricing_check (p : ModelPricingVersion) : bool :=
  (0 <? p.(ModelPricingVersion_Version))
  && (0 <=? p.(ModelPricingVersion_InputPriceMicroUsdPer1kTokens))
  && (0 <=? p.(ModelPricingVersion_OutputPriceMicroUsdPer1kTokens))
  && (String.eqb p.(ModelPricingVersion_Status) "active" || String.eqb p.(ModelPricingVersion_Status) "superseded")
  && match p.(ModelPricingVersion_EffectiveTo) with
     | None => true
     | Some t => p.(ModelPricingVersion_EffectiveFrom) <=? t
     end.

(** Its unique keys: the identifier, the version of a model, and the partial
    index on the active version of a model. *)
Definition pricing_clash (p q : ModelPricingVersion) : bool :=
  (q.(ModelPricingVersion_ID) =? p.(ModelPricingVersion_ID))%N
  || (of_model p.(ModelPricingVersion_OrgID) p.(ModelPricingVersion_ModelID) q
      && ((q.(ModelPricingVersion_Version) =? p.(ModelPricingVersion_Version))
          || (String.eqb p.(ModelPricingVersion_Status) "active" && String.eqb q.(ModelPricingVersion_Status) "active"))).

Definition insert_pricing_version (p : ModelPricingVersion) (d : DB) : result (ModelPricingVersion * DB) :=
  _ ← pg_check (pricing_check p);
  _ ← pg_unique (pricing_clash p) d.(model_pricing_versions);
  Ok (p, set_model_pricing_versions (λ ps, ps ++ [p]) d).

Definition query_active_version (orgID modelID : uuid) : M ModelPricingVersion :=
  query (λ d, pg_one (active_version orgID modelID) d.(model_pricing_versions)).

Definition next_version (orgID modelID : uuid) (d : DB) : result Z :=
  pg_integer (foldr Z.max 0 (map ModelPricingVersion_Version
                (List.filter (of_model orgID modelID) d.(model_pricing_versions))) + 1).

Definition superseded (now : Z) (p : ModelPricingVersion) : ModelPricingVersion :=
  mkModelPricingVersion p.(ModelPricingVersion_ID) p.(ModelPricingVersion_OrgID) p.(ModelPricingVersion_ModelID)
    p.(ModelPricingVersion_Version) p.(ModelPricingVersion_InputPriceMicroUsdPer1kTokens)
    p.(ModelPricingVersion_OutputPriceMicroUsdPer1kTokens) "superseded" p.(ModelPricingVersion_EffectiveFrom)
    (Some now) p.(ModelPricingVersion_CreatedAt).

Definition supersede (now : Z) (p : ModelPricingVersion) : result ModelPricingVersion :=
  _ ← pg_check (pricing_check (superseded now p));
  Ok (superseded now p).

(** [UPDATE ... RETURNING] read through [QueryRow]. *)
Definition supersede_active (orgID modelID : uuid) (now : Z) (d : DB) : result (ModelPricingVersion * DB) :=
  vs ← pg_update (active_version orgID modelID) (supersede now) d.(model_pricing_versions);
  p ← pg_one (active_version orgID modelID) d.(model_pricing_versions);
  Ok (superseded now p, set_model_pricing_versions (λ _, vs) d).

Definition is_model (orgID id : uuid) (m : Model) : bool :=
  (m.(Model_OrgID) =? orgID)%N && (m.(Model_ID) =? id)%N.

Definition model_check (m : Model) : bool :=
  negb (String.eqb m.(Model_ProviderModelName) "") && negb (String.eqb m.(Model_DisplayName) "")
  && (0 <=? m.(Model_InputPriceMicroUsdPer1kTokens)) && (0 <=? m.(Model_OutputPriceMicroUsdPer1kTokens))
  && match m.(Model_ContextWindow) with None => true | Some n => 0 <? n end
  && (String.eqb m.(Model_Status) "active" || String.eqb m.(Model_Status) "disabled").

Definition priced (input output now : Z) (m : Model) : Model :=
  mkModel m.(Model_ID) m.(Model_OrgID) m.(Model_ProviderID) m.(Model_ProviderModelName) m.(Model_DisplayName)
    input output m.(Model_ContextWindow) m.(Model_Status) m.(Model_CreatedAt) now.

Definition reprice (input output now : Z) (m : Model) : result Model :=
  _ ← pg_check (model_check (priced input output now m));
  Ok (priced input output now m).

Definition update_model_pricing (orgID id : uuid) (input output now : Z) (d : DB) : result (Model * DB) :=
  ms ← pg_update (is_model orgID id) (reprice input output now) d.(models);
  m ← pg_one (is_model orgID id) d.(models);
  Ok (priced input output now m, set_models (λ _, ms) d).

Definition insert_model (m : Model) (d : DB) : result (Model * DB) :=
  _ ← pg_check (model_check m);
  _ ← pg_unique (λ q, (q.(Model_ID) =? m.(Model_ID))%N
        || ((q.(Model_OrgID) =? m.(Model_OrgID))%N && (q.(Model_ProviderID) =? m.(Model_ProviderID))%N
            && String.eqb q.(Model_ProviderModelName) m.(Model_ProviderModelName))) d.(models);
  Ok (m, set_models (λ ms, ms ++ [m]) d).

(** ** The pricing service *)

Definition CreateInitialVersionWithQueries (model : Model) (effectiveFrom : Z) : M ModelPricingVersion :=
  if (model.(Model_OrgID) =? Nil)%N || (model.(Model_ID) =? Nil)%N
  then fail (ErrInvalidCostInput "model identity is required")
  else
    effectiveFrom ← (if IsZero effectiveFrom then clock else mret effectiveFrom);
    id ← new_uuid;
    stmt (insert_pricing_version
            (mkModelPricingVersion id model.(Model_OrgID) model.(Model_ID) 1
               model.(Model_InputPriceMicroUsdPer1kTokens) model.(Model_OutputPriceMicroUsdPer1kTokens)
               PricingStatusActive effectiveFrom None effectiveFrom)).

Definition CreateInitialVersion (model : Model) (effectiveFrom : Z) : M ModelPricingVersion :=
  CreateInitialVersionWithQueries model effectiveFrom.

Definition UpdateModelPricing (params : UpdateModelPricingParams) : M UpdateModelPricingResult :=
  if (params.(up_OrgID) =? Nil)%N then fail (ErrInvalidCostInput "org_id is required")
  else if (params.(up_ModelID) =? Nil)%N then fail (ErrInvalidCostInput "model_id is required")
  else if (params.(up_InputPriceMicroUSDPer1KTokens) <? 0) || (params.(up_OutputPriceMicroUSDPer1KTokens) <? 0)
  then fail (ErrInvalidCostInput "model prices must be non-negative")
  else
    now ← clock;
    ExecTx (
      model ← orNoRows (GetModel params.(up_OrgID) params.(up_ModelID)) ErrModelPricingNotFound;
      nextVersion ← query (next_version params.(up_OrgID) params.(up_ModelID));
      previous ← orNoRows (stmt (supersede_active params.(up_OrgID) params.(up_ModelID) now)) ErrModelPricingNotFound;
      updatedModel ← stmt (update_model_pricing params.(up_OrgID) params.(up_ModelID)
                        params.(up_InputPriceMicroUSDPer1KTokens) params.(up_OutputPriceMicroUSDPer1KTokens) now);
      id ← new_uuid;
      version ← stmt (insert_pricing_version
                  (mkModelPricingVersion id params.(up_OrgID) model.(Model_ID) nextVersion
                     params.(up_InputPriceMicroUSDPer1KTokens) params.(up_OutputPriceMicroUSDPer1KTokens)
                     PricingStatusActive now None now));
      mret (mkUpdateModelPricingResult updatedModel previous version)).

Definition list_versions (orgID modelID : uuid) (d : DB) : list ModelPricingVersion :=
  sort_by (λ a b, b.(ModelPricingVersion_Version) <=? a.(ModelPricingVersion_Version))
    (List.filter (of_model orgID modelID) d.(model_pricing_versions)).

Definition ListModelPricingVersions (orgID modelID : uuid) : M (list ModelPricingVersion) :=
  _ ← orNoRows (GetModel orgID modelID) ErrModelPricingNotFound;
  query (λ d, Ok (list_versions orgID modelID d)).

Definition GetActiveModelPricingVersion (orgID modelID : uuid) : M ModelPricingVersion :=
  orNoRows (query_active_version orgID modelID) ErrModelPricingNotFound.

(** ** Creating a model *)

Record CreateModelParams := mkCreateModelParams {
  cm_OrgID : uuid;
  cm_ProviderID : uuid;
  cm_ProviderModelName : string;
  cm_DisplayName : string;
  cm_InputPriceMicroUSDPer1KTokens : Z;
  cm_OutputPriceMicroUSDPer1KTokens : Z;
  cm_ContextWindow : option Z
}.

Definition validationError (message : string) : err := EWrap "validation" message.

Definition validateModelParams (params : CreateModelParams) : result unit :=
  if (params.(cm_OrgID) =? Nil)%N then Err (validationError "org_id is required")
  else if (params.(cm_ProviderID) =? Nil)%N then Err (validationError "provider_id is required")
  else if String.eqb (TrimSpace params.(cm_ProviderModelName)) "" then Err (validationError "provider_model_name is required")
  else if String.eqb (TrimSpace params.(cm_DisplayName)) "" then Err (validationError "display_name is required")
  else if (params.(cm_InputPriceMicroUSDPer1KTokens) <? 0) || (params.(cm_OutputPriceMicroUSDPer1KTokens) <? 0)
  then Err (validationError "model prices must be non-negative")
  else match params.(cm_ContextWindow) with
       | Some n => if n <=? 0 then Err (validationError "context_window must be greater than zero") else Ok tt
       | None => Ok tt
       end.

(** The closure [CreateModel] passes to [ExecTx]. *)
Definition createModelTx (params : CreateModelParams) (now : Z) : M Model :=
  id ← new_uuid;
  model ← stmt (insert_model
            (mkModel id params.(cm_OrgID) params.(cm_ProviderID) (TrimSpace params.(cm_ProviderModelName))
               (TrimSpace params.(cm_DisplayName)) params.(cm_InputPriceMicroUSDPer1KTokens)
               params.(cm_OutputPriceMicroUSDPer1KTokens) params.(cm_ContextWindow) "active" now now));
  _ ← CreateInitialVersionWithQueries model now;
  mret model.

Definition CreateModel (params : CreateModelParams) : M Model :=
  _ ← lift (validateModelParams params);
  _ ← orNoRows (GetProvider params.(cm_OrgID) params.(cm_ProviderID)) ErrProviderNotFound;
  now ← clock;
  ExecTx (createModelTx params now).

(** ** The invariant of the price history *)

#[export] Instance ModelPricingVersion_eq_dec : EqDecision ModelPricingVersion.
Proof. solve_decision. Defined.

Definition same_model (p q : ModelPricingVersion) : Prop :=
  p.(ModelPricingVersion_OrgID) = q.(ModelPricingVersion_OrgID) ∧
  p.(ModelPricingVersion_ModelID) = q.(ModelPricingVersion_ModelID).

Definition version_of (m : Model) (p : ModelPricingVersion) : Prop :=
  p.(ModelPricingVersion_OrgID) = m.(Model_OrgID) ∧ p.(ModelPricingVersion_ModelID) = m.(Model_ID).

Definition is_active (p : ModelPricingVersion) : Prop := p.(ModelPricingVersion_Status) = "active".

Record pricing_ok (d : DB) : Prop := {
  po_models : ∀ m1 m2, m1 ∈ d.(models) → m2 ∈ d.(models) → m1.(Model_ID) = m2.(Model_ID) → m1 = m2;
  po_owner : ∀ p, p ∈ d.(model_pricing_versions) → ∃ m, m ∈ d.(models) ∧ version_of m p;
  po_versions : ∀ p q, p ∈ d.(model_pricing_versions) → q ∈ d.(model_pricing_versions) →
    same_model p q → p.(ModelPricingVersion_Version) = q.(ModelPricingVersion_Version) → p = q;
  po_open : ∀ p, p ∈ d.(model_pricing_versions) → is_active p →
    p.(ModelPricingVersion_EffectiveTo) = None ∧
    ∀ q, q ∈ d.(model_pricing_versions) → same_model p q →
      q.(ModelPricingVersion_Version) <= p.(ModelPricingVersion_Version);
  po_closed : ∀ p, p ∈ d.(model_pricing_versions) → ¬ is_active p →
    ∃ q, q ∈ d.(model_pricing_versions) ∧ same_model p q ∧
      q.(ModelPricingVersion_Version) = p.(ModelPricingVersion_Version) + 1 ∧
      p.(ModelPricingVersion_EffectiveTo) = Some q.(ModelPricingVersion_EffectiveFrom) ∧
      p.(ModelPricingVersion_EffectiveFrom) <= q.(ModelPricingVersion_EffectiveFrom);
  po_first : ∀ p, p ∈ d.(model_pricing_versions) → 1 <= p.(ModelPricingVersion_Version) ∧
    (1 < p.(ModelPricingVersion_Version) →
     ∃ q, q ∈ d.(model_pricing_versions) ∧ same_model p q ∧
       q.(ModelPricingVersion_Version) = p.(ModelPricingVersion_Version) - 1);
  po_price : ∀ m, m ∈ d.(models) →
    ∃ p, p ∈ d.(model_pricing_versions) ∧ version_of m p ∧ is_active p ∧
      p.(ModelPricingVersion_InputPriceMicroUsdPer1kTokens) = m.(Model_InputPriceMicroUsdPer1kTokens) ∧
      p.(ModelPricingVersion_OutputPriceMicroUsdPer1kTokens) = m.(Model_OutputPriceMicroUsdPer1kTokens)
}.

Lemma of_model_true o i p :
  of_model o i p = true ↔ p.(ModelPricingVersion_OrgID) = o ∧ p.(ModelPricingVersion_ModelID) = i.
Proof. unfold of_model. by rewrite andb_true_iff, !N.eqb_eq. Qed.

Lemma active_version_true o i p :
  active_version o i p = true ↔
  (p.(ModelPricingVersion_OrgID) = o ∧ p.(ModelPricingVersion_ModelID) = i) ∧ is_active p.
Proof. unfold active_version. by rewrite andb_true_iff, of_model_true, String.eqb_eq. Qed.

Lemma is_model_true o i m : is_model o i m = true ↔ m.(Model_OrgID) = o ∧ m.(Model_ID) = i.
Proof. unfold is_model. by rewrite andb_true_iff, !N.eqb_eq. Qed.

(** At most one version of a model is active. *)
Lemma active_unique d p q :
  pricing_ok d → p ∈ d.(model_pricing_versions) → q ∈ d.(model_pricing_versions) →
  same_model p q → is_active p → is_active q → p = q.
Proof.
  intros H Hp Hq Hs Ha Hb. apply (po_versions d H); [done|done|done|].
  destruct (po_open d H p Hp Ha) as [_ H1], (po_open d H q Hq Hb) as [_ H2].
  specialize (H1 q Hq Hs). specialize (H2 p Hp). unfold same_model in *. destruct Hs. naive_solver lia.
Qed.

Lemma fold_max_ge l x : x ∈ l → x <= foldr Z.max 0 l.
Proof. induction l as [|y l IH]; [set_solver|]. intros [->|H]%elem_of_cons; simpl; [lia|]. apply IH in H. lia. Qed.

Lemma fold_max_elem l : foldr Z.max 0 l = 0 ∨ foldr Z.max 0 l ∈ l.
Proof.
  induction l as [|y l IH]; simpl; [by left|]. destruct (Z.max_spec y (foldr Z.max 0 l)) as [[H ->]|[H ->]].
  - destruct IH as [->|IH]; [by left|]. right. by right.
  - right. by left.
Qed.

(** The number after the active version's is the next one. *)
Lemma next_version_active d o i p n :
  pricing_ok d → p ∈ d.(model_pricing_versions) → active_version o i p = true →
  next_version o i d = Ok n → n = p.(ModelPricingVersion_Version) + 1.
Proof.
  intros Hok Hp [[Ho Hi] Ha]%active_version_true Hn. unfold next_version, pg_integer in Hn.
  destruct (_ && _); [|done]. injection Hn as <-. f_equal.
  set (l := map _ _). destruct (po_open d Hok p Hp Ha) as [_ Hmax].
  assert (Hin : p.(ModelPricingVersion_Version) ∈ l).
  { apply list_elem_of_In, in_map, filter_In. split; [by apply list_elem_of_In|]. by apply of_model_true. }
  pose proof (fold_max_ge l _ Hin). destruct (fold_max_elem l) as [E|E].
  - destruct (po_first d Hok p Hp) as [? _]. lia.
  - apply list_elem_of_In, in_map_iff in E as (q & Eq & [Hq Hqm]%filter_In).
    apply list_elem_of_In in Hq. apply of_model_true in Hqm as [? ?].
    specialize (Hmax q Hq ltac:(split; congruence)). lia.
Qed.

(** ** What the two operations do to the rows *)

Definition reprice_rows (o i : uuid) (a b now : Z) (new : ModelPricingVersion) (d d' : DB) : Prop :=
  d'.(model_pricing_versions) =
    map (λ q, if active_version o i q then superseded now q else q) d.(model_pricing_versions) ++ [new] ∧
  d'.(models) = map (λ m, if is_model o i m then priced a b now m else m) d.(models).

Lemma supersede_ok now p p' : supersede now p = Ok p' → p' = superseded now p ∧ p.(ModelPricingVersion_EffectiveFrom) <= now.
Proof.
  unfold supersede. intros (u & Hc & [= <-])%result_bind_ok. split; [done|].
  unfold pg_check in Hc. destruct (pricing_check _) eqn:E; [|done]. unfold pricing_check in E. simpl in E.
  apply andb_true_iff in E as [_ E]. by apply Z.leb_le in E.
Qed.

Lemma UpdateModelPricing_rows params w res w' :
  UpdateModelPricing params w = (Ok res, w') →
  let o := params.(up_OrgID) in let i := params.(up_ModelID) in
  ∃ p n new, p ∈ (w_db w).(model_pricing_versions) ∧ active_version o i p = true ∧
    p.(ModelPricingVersion_EffectiveFrom) <= w_now w ∧
    next_version o i (w_db w) = Ok n ∧
    (∃ id, new = mkModelPricingVersion id o i n params.(up_InputPriceMicroUSDPer1KTokens)
      params.(up_OutputPriceMicroUSDPer1KTokens) "active" (w_now w) None (w_now w)) ∧
    (∃ m, m ∈ (w_db w).(models) ∧ version_of m p) ∧
    res.(ur_PreviousVersion) = superseded (w_now w) p ∧ res.(ur_PricingVersion) = new ∧
    reprice_rows o i params.(up_InputPriceMicroUSDPer1KTokens) params.(up_OutputPriceMicroUSDPer1KTokens)
      (w_now w) new (w_db w) (w_db w').
Proof.
  intros H o i. unfold UpdateModelPricing in H.
  destruct (N.eqb _ _); [done|]. destruct (N.eqb _ _); [done|]. destruct (_ || _); [done|].
  apply bind_ok in H as (now & w1 & Hc & H). apply clock_reading in Hc as (-> & _ & Hdb1).
  apply WithTx_ok in H as (w2 & w3 & Hdb2 & _ & H & Hdb'). simpl in Hdb'.
  apply bind_ok in H as (m & w4 & H1 & H). apply orNoRows_ok, query_ok in H1 as [H1 Hdb4].
  apply bind_ok in H as (n & w5 & H2 & H). apply query_ok in H2 as [H2 Hdb5].
  apply bind_ok in H as (prev & w6 & H3 & H). apply orNoRows_ok, stmt_ok in H3.
  apply bind_ok in H as (um & w7 & H4 & H). apply stmt_ok in H4.
  apply bind_ok in H as (id & w8 & H5 & H). apply new_uuid_ok in H5.
  apply bind_ok in H as (ver & w9 & H6 & H). apply stmt_ok in H6. apply ret_ok in H as [<- <-].
  rewrite Hdb4, Hdb2, Hdb1 in *. rewrite Hdb5 in *. fold o i in H1, H2, H3, H4, H6 |- *.
  apply pg_one_ok in H1 as [Hm [Hmo Hmi]%is_model_true].
  apply result_bind_ok in H3 as (vs & Hvs & H3). apply result_bind_ok in H3 as (p & Hp & [= <- Hdb6]).
  apply pg_one_ok in Hp as [Hp Hpa].
  assert (Hrows := pg_update_map _ _ _ _ Hvs).
  apply (pg_update_rows _ _ (superseded (w_now w))) in Hvs; [|by intros r r' [-> _]%supersede_ok].
  apply result_bind_ok in H4 as (ms & Hms & H4). apply result_bind_ok in H4 as (m0 & _ & [= <- Hdb7]).
  apply (pg_update_rows _ _ (priced params.(up_InputPriceMicroUSDPer1KTokens) params.(up_OutputPriceMicroUSDPer1KTokens) (w_now w))) in Hms;
    [|by intros r r' (u & _ & [= <-])%result_bind_ok].
  apply result_bind_ok in H6 as (u1 & _ & H6). apply result_bind_ok in H6 as (u2 & _ & [= <- Hdb9]).
  exists p, n. eexists. split; [done|]. split; [done|]. split.
  { destruct (Forall2_elem_l _ _ _ _ Hrows Hp) as (r & _ & Hr). rewrite Hpa in Hr. by apply supersede_ok in Hr as [_ ?]. }
  split; [done|]. rewrite Hmi in *. split; [by exists id|].
  split; [exists m; split; [done|]; apply active_version_true in Hpa as [[] _]; split; congruence|].
  split; [done|]. split; [done|].
  unfold reprice_rows. rewrite <- Hdb6 in Hms. rewrite Hdb', <- Hdb9, H5, <- Hdb7, <- Hdb6. simpl. rewrite Hvs, Hms. done.
Qed.

Lemma same_model_sym q r : same_model q r → same_model r q.
Proof. unfold same_model. naive_solver. Qed.
Lemma same_model_trans q r s : same_model q r → same_model r s → same_model q s.
Proof. unfold same_model. naive_solver congruence. Qed.

Section reprice.
  Context (d d' : DB) (o i : uuid) (a b now : Z) (p new : ModelPricingVersion) (id : uuid).
  Hypothesis Hok : pricing_ok d.
  Hypothesis Hp : p ∈ d.(model_pricing_versions).
  Hypothesis Hpa : active_version o i p = true.
  Hypothesis Hfrom : p.(ModelPricingVersion_EffectiveFrom) <= now.
  Hypothesis Hnew : new = mkModelPricingVersion id o i (p.(ModelPricingVersion_Version) + 1) a b "active" now None now.
  Hypothesis Hrows : reprice_rows o i a b now new d d'.

Let step (q : ModelPricingVersion) : ModelPricingVersion :=
  if active_version o i q then superseded now q else q.

Lemma step_keeps q :
  same_model (step q) q ∧ (step q).(ModelPricingVersion_Version) = q.(ModelPricingVersion_Version) ∧
  (step q).(ModelPricingVersion_EffectiveFrom) = q.(ModelPricingVersion_EffectiveFrom).
Proof. unfold step. by destruct (active_version o i q). Qed.

Lemma step_other q : q ∈ d.(model_pricing_versions) → q ≠ p → step q = q.
Proof.
  intros Hq Hne. unfold step. destruct (active_version o i q) eqn:E; [|done]. exfalso. apply Hne.
  apply active_version_true in E as [[] ?]. apply active_version_true in Hpa as [[] ?].
  apply (active_unique d); try done. split; congruence.
Qed.

Lemma step_p : step p = superseded now p.
Proof. unfold step. by rewrite Hpa. Qed.

Lemma reprice_elem q :
  q ∈ d'.(model_pricing_versions) ↔ q = new ∨ ∃ q0, q0 ∈ d.(model_pricing_versions) ∧ q = step q0.
Proof.
  destruct Hrows as [-> _]. rewrite elem_of_app, list_elem_of_singleton, list_elem_of_In, in_map_iff.
  setoid_rewrite list_elem_of_In. naive_solver.
Qed.

Lemma new_same q : same_model new q ↔ same_model p q.
Proof. subst new. apply active_version_true in Hpa as [[<- <-] _]. done. Qed.

Lemma new_top q : q ∈ d.(model_pricing_versions) → same_model p q →
  q.(ModelPricingVersion_Version) < new.(ModelPricingVersion_Version).
Proof.
  intros Hq Hs. apply active_version_true in Hpa as [_ Ha].
  destruct (po_open d Hok p Hp Ha) as [_ Hmax]. apply Hmax in Hq; [|done]. subst new. simpl. lia.
Qed.

Lemma reprice_versions q r :
  q ∈ d'.(model_pricing_versions) → r ∈ d'.(model_pricing_versions) → same_model q r →
  q.(ModelPricingVersion_Version) = r.(ModelPricingVersion_Version) → q = r.
Proof.
  intros [->|(q0 & Hq & ->)]%reprice_elem [->|(r0 & Hr & ->)]%reprice_elem Hs Hv; [done| | |].
  - exfalso. destruct (step_keeps r0) as (H1 & H2 & _). rewrite new_same in Hs.
    pose proof (new_top r0 Hr (same_model_trans _ _ _ Hs H1)). lia.
  - exfalso. destruct (step_keeps q0) as (H1 & H2 & _). apply same_model_sym in Hs. rewrite new_same in Hs.
    pose proof (new_top q0 Hq (same_model_trans _ _ _ Hs H1)). lia.
  - f_equal. destruct (step_keeps q0) as (H1 & H2 & _), (step_keeps r0) as (H3 & H4 & _).
    apply (po_versions d Hok); [done|done| |congruence].
    apply (same_model_trans _ (step q0)); [by apply same_model_sym|]. by apply (same_model_trans _ (step r0)).
Qed.

Lemma reprice_open q :
  q ∈ d'.(model_pricing_versions) → is_active q →
  q.(ModelPricingVersion_EffectiveTo) = None ∧
  ∀ r, r ∈ d'.(model_pricing_versions) → same_model q r → r.(ModelPricingVersion_Version) <= q.(ModelPricingVersion_Version).
Proof.
  intros [->|(q0 & Hq & ->)]%reprice_elem Ha.
  - split; [by subst new|]. intros r [->|(r0 & Hr & ->)]%reprice_elem Hs; [lia|].
    destruct (step_keeps r0) as (H1 & H2 & _). rewrite new_same in Hs.
    pose proof (new_top r0 Hr (same_model_trans _ _ _ Hs H1)). lia.
  - destruct (decide (q0 = p)) as [->|Hne]; [rewrite step_p in Ha; discriminate|].
    rewrite (step_other q0) in * by done. destruct (po_open d Hok q0 Hq Ha) as [Ht Hmax]. split; [done|].
    intros r [->|(r0 & Hr & ->)]%reprice_elem Hs.
    + exfalso. apply Hne. apply same_model_sym in Hs. rewrite new_same in Hs.
      apply active_version_true in Hpa as [_ ?]. apply (active_unique d); try done. by apply same_model_sym.
    + destruct (step_keeps r0) as (H1 & H2 & _). rewrite H2. apply Hmax; [done|]. by apply (same_model_trans _ (step r0)).
Qed.

Lemma reprice_closed q :
  q ∈ d'.(model_pricing_versions) → ¬ is_active q →
  ∃ r, r ∈ d'.(model_pricing_versions) ∧ same_model q r ∧
    r.(ModelPricingVersion_Version) = q.(ModelPricingVersion_Version) + 1 ∧
    q.(ModelPricingVersion_EffectiveTo) = Some r.(ModelPricingVersion_EffectiveFrom) ∧
    q.(ModelPricingVersion_EffectiveFrom) <= r.(ModelPricingVersion_EffectiveFrom).
Proof.
  intros [->|(q0 & Hq & ->)]%reprice_elem Ha; [subst new; done|].
  destruct (decide (q0 = p)) as [->|Hne].
  - exists new. split; [apply reprice_elem; by left|]. rewrite step_p.
    split; [apply same_model_sym, new_same; by split|]. by subst new.
  - rewrite (step_other q0) in * by done. destruct (po_closed d Hok q0 Hq Ha) as (r & Hr & Hs & Hv & Ht & Hf).
    exists (step r). destruct (step_keeps r) as (H1 & H2 & H3). rewrite H2, H3.
    split; [apply reprice_elem; right; by exists r|]. split; [|done].
    apply (same_model_trans _ r); [done|]. by apply same_model_sym.
Qed.

Lemma reprice_first q :
  q ∈ d'.(model_pricing_versions) → 1 <= q.(ModelPricingVersion_Version) ∧
  (1 < q.(ModelPricingVersion_Version) →
   ∃ r, r ∈ d'.(model_pricing_versions) ∧ same_model q r ∧
     r.(ModelPricingVersion_Version) = q.(ModelPricingVersion_Version) - 1).
Proof.
  intros [->|(q0 & Hq & ->)]%reprice_elem.
  - destruct (po_first d Hok p Hp) as [Hv _]. split; [subst new; simpl; lia|]. intros _.
    exists (step p). split; [apply reprice_elem; right; by exists p|]. destruct (step_keeps p) as (H1 & H2 & _).
    split; [apply new_same; by apply same_model_sym|]. rewrite H2. subst new. simpl. lia.
  - destruct (step_keeps q0) as (H1 & H2 & _). destruct (po_first d Hok q0 Hq) as [Hv Hprev].
    rewrite H2. split; [done|]. intros Hlt. destruct (Hprev Hlt) as (r & Hr & Hs & Hrv).
    exists (step r). destruct (step_keeps r) as (H3 & H4 & _). rewrite H4.
    split; [apply reprice_elem; right; by exists r|]. split; [|done].
    apply (same_model_trans _ q0); [done|]. apply (same_model_trans _ r); [done|]. by apply same_model_sym.
Qed.

Lemma reprice_ok : pricing_ok d'.
Proof.
  pose proof Hpa as Hpa'. apply active_version_true in Hpa' as [[Hpo Hpi] Hact].
  pose proof Hrows as [_ Hms].
  assert (Hkeep : ∀ m, (if is_model o i m then priced a b now m else m).(Model_ID) = m.(Model_ID) ∧
    (if is_model o i m then priced a b now m else m).(Model_OrgID) = m.(Model_OrgID))
    by (intros m; by destruct (is_model o i m)).
  assert (Hin : ∀ m', m' ∈ d'.(models) ↔ ∃ m, m ∈ d.(models) ∧ m' = if is_model o i m then priced a b now m else m).
  { intros m'. rewrite Hms, list_elem_of_In, in_map_iff. setoid_rewrite list_elem_of_In. naive_solver. }
  split; [| |apply reprice_versions|apply reprice_open|apply reprice_closed|apply reprice_first|].
  - intros m1 m2 (m1' & H1 & ->)%Hin (m2' & H2 & ->)%Hin He.
    rewrite (proj1 (Hkeep m1')), (proj1 (Hkeep m2')) in He. by rewrite (po_models d Hok m1' m2' H1 H2 He).
  - assert (Hown : ∀ q0, q0 ∈ d.(model_pricing_versions) → ∀ q, same_model q q0 → ∃ m, m ∈ d'.(models) ∧ version_of m q).
    { intros q0 Hq0 q [Hs1 Hs2]. destruct (po_owner d Hok q0 Hq0) as (m & Hm & Hv1 & Hv2). eexists.
      split; [apply Hin; by exists m|]. destruct (Hkeep m) as [E1 E2]. split; [rewrite E2|rewrite E1]; congruence. }
    intros q [->|(q0 & Hq0 & ->)]%reprice_elem; [apply (Hown p Hp), new_same; by split|].
    apply (Hown q0 Hq0). by destruct (step_keeps q0).
  - intros m' (m & Hm & ->)%Hin. destruct (is_model o i m) eqn:Em.
    + apply is_model_true in Em as [? ?]. exists new. split; [apply reprice_elem; by left|].
      subst new. repeat split; simpl; congruence.
    + destruct (po_price d Hok m Hm) as (q & Hq & Hv & Ha & Hprices). exists q. split; [|done].
      apply reprice_elem. right. exists q. split; [done|]. symmetry. apply step_other; [done|]. intros ->.
      apply not_true_iff_false in Em. apply Em, is_model_true. destruct Hv. split; congruence.
Qed.

End reprice.

Lemma UpdateModelPricing_ok params w : pricing_ok (w_db w) → pricing_ok (w_db (UpdateModelPricing params w).2).
Proof.
  intros Hok. destruct (UpdateModelPricing params w) as [[res|e] w'] eqn:E.
  - apply UpdateModelPricing_rows in E as (p & n & new & Hp & Hpa & Hfrom & Hn & (id & Hnew) & _ & _ & _ & Hrows).
    pose proof (next_version_active _ _ _ _ _ Hok Hp Hpa Hn) as ->. by apply (reprice_ok _ _ _ _ _ _ _ _ _ _ Hok Hp Hpa Hfrom Hnew Hrows).
  - unfold UpdateModelPricing, fail in E. destruct (N.eqb _ _); [by simplify_eq|]. destruct (N.eqb _ _); [by simplify_eq|].
    destruct (_ || _); [by simplify_eq|]. unfold mbind, M_bind, clock in E. simpl in E.
    pose proof (ExecTxRaw_err _ _ e (f_equal fst E)) as Hdb. unfold ExecTx in E. rewrite E in Hdb. simpl in *. by rewrite Hdb.
Qed.

(** A new model comes with its first version. *)
Lemma createModelTx_rows params now w m w' :
  createModelTx params now w = (Ok m, w') →
  (∀ q, q ∈ (w_db w).(models) → q.(Model_ID) ≠ m.(Model_ID)) ∧
  (w_db w').(models) = (w_db w).(models) ++ [m] ∧
  ∃ id from, (w_db w').(model_pricing_versions) = (w_db w).(model_pricing_versions) ++
    [mkModelPricingVersion id m.(Model_OrgID) m.(Model_ID) 1 m.(Model_InputPriceMicroUsdPer1kTokens)
       m.(Model_OutputPriceMicroUsdPer1kTokens) "active" from None from].
Proof.
  intros H. unfold createModelTx in H.
  apply bind_ok in H as (id & w6 & H6 & H). apply new_uuid_ok in H6.
  apply bind_ok in H as (m' & w7 & H7 & H). apply stmt_ok in H7.
  apply bind_ok in H as (v & w8 & H8 & H). apply ret_ok in H as [-> <-].
  rewrite H6 in H7. apply result_bind_ok in H7 as (u1 & _ & H7).
  apply result_bind_ok in H7 as ([] & Hu & [= Hm Hdb7]).
  unfold CreateInitialVersionWithQueries in H8. destruct (_ || _); [done|].
  apply bind_ok in H8 as (from & w9 & H9 & H8). apply bind_ok in H8 as (vid & w10 & H10 & H8). apply stmt_ok in H8.
  assert (Hdb9 : w_db w9 = w_db w7) by (destruct (IsZero now); [by apply clock_ok in H9|by apply ret_ok in H9 as [_ <-]]).
  apply new_uuid_ok in H10. rewrite H10, Hdb9, <- Hdb7 in H8.
  apply result_bind_ok in H8 as (u3 & _ & H8). apply result_bind_ok in H8 as (u4 & _ & [= <- Hdb8]).
  rewrite <- Hdb8, Hm. simpl. split; [|split; [done|by exists vid, from]].
  apply pg_unique_ok in Hu. rewrite List.Forall_forall in Hu. intros q Hq. apply list_elem_of_In, Hu in Hq.
  apply orb_false_iff in Hq as [Hq _]. apply N.eqb_neq in Hq. by rewrite <- Hm.
Qed.

Lemma add_model_ok d d' m v :
  pricing_ok d → (∀ q, q ∈ d.(models) → q.(Model_ID) ≠ m.(Model_ID)) →
  d'.(models) = d.(models) ++ [m] → d'.(model_pricing_versions) = d.(model_pricing_versions) ++ [v] →
  version_of m v → v.(ModelPricingVersion_Version) = 1 → is_active v → v.(ModelPricingVersion_EffectiveTo) = None →
  v.(ModelPricingVersion_InputPriceMicroUsdPer1kTokens) = m.(Model_InputPriceMicroUsdPer1kTokens) →
  v.(ModelPricingVersion_OutputPriceMicroUsdPer1kTokens) = m.(Model_OutputPriceMicroUsdPer1kTokens) →
  pricing_ok d'.
Proof.
  intros Hok Hfresh Hms Hvs Hv H1 Ha Ht Hin Hout.
  assert (Hel : ∀ q, q ∈ d'.(model_pricing_versions) ↔ q ∈ d.(model_pricing_versions) ∨ q = v)
    by (intros q; rewrite Hvs, elem_of_app, list_elem_of_singleton; done).
  assert (Hml : ∀ q, q ∈ d'.(models) ↔ q ∈ d.(models) ∨ q = m)
    by (intros q; rewrite Hms, elem_of_app, list_elem_of_singleton; done).
  assert (Hno : ∀ q, q ∈ d.(model_pricing_versions) → q.(ModelPricingVersion_ModelID) ≠ v.(ModelPricingVersion_ModelID)).
  { intros q Hq. destruct (po_owner d Hok q Hq) as (mq & Hmq & _ & Hi). destruct Hv as [_ Hv].
    rewrite Hi, Hv. by apply Hfresh. }
  split.
  - intros m1 m2 [H| ->]%Hml [H'| ->]%Hml He; [by apply (po_models d Hok)| | |done]; exfalso; by eapply Hfresh.
  - intros q [Hq| ->]%Hel.
    + destruct (po_owner d Hok q Hq) as (mq & ? & ?). exists mq. rewrite Hml. auto.
    + exists m. rewrite Hml. auto.
  - intros q r [Hq| ->]%Hel [Hr| ->]%Hel [Hs1 Hs2] He; [by apply (po_versions d Hok)| | |done];
      exfalso; [by apply (Hno q)|by apply (Hno r)].
  - intros q [Hq| ->]%Hel Hqa.
    + destruct (po_open d Hok q Hq Hqa) as [? Hmax]. split; [done|].
      intros r [Hr| ->]%Hel Hs; [by apply Hmax|]. destruct Hs as [_ Hs]. exfalso. by apply (Hno q).
    + split; [done|]. intros r [Hr| ->]%Hel Hs; [|lia]. destruct Hs as [_ Hs]. exfalso. by apply (Hno r).
  - intros q [Hq| ->]%Hel Hqa; [|done]. destruct (po_closed d Hok q Hq Hqa) as (r & ? & ?). exists r. rewrite Hel. auto.
  - intros q [Hq| ->]%Hel; [|split; lia]. destruct (po_first d Hok q Hq) as [? Hp]. split; [done|].
    intros Hlt. destruct (Hp Hlt) as (r & ? & ?). exists r. rewrite Hel. auto.
  - intros mq [Hq| ->]%Hml.
    + destruct (po_price d Hok mq Hq) as (r & ? & ?). exists r. rewrite Hel. auto.
    + exists v. rewrite Hel. auto 6.
Qed.

Lemma CreateModel_ok params : preserves pricing_ok (CreateModel params).
Proof.
  apply preserves_bind; [apply preserves_lift|]. intros _. apply preserves_bind.
  { apply preserves_bind; [apply preserves_try, preserves_query|]. intros [x|[]]; auto with preserves. }
  intros _. apply preserves_bind; [apply preserves_clock|]. intros now. apply preserves_tx.
  intros w m w' Hok (Hf & Hms & id & from & Hvs)%createModelTx_rows _. by apply (add_model_ok _ _ _ _ Hok Hf Hms Hvs).
Qed.

(** ** The theorems *)

(** Everything that writes models or price versions, and anything that leaves
    both tables alone. *)
Inductive pricing_step : world → world → Prop :=
| step_create params w : pricing_step w (CreateModel params w).2
| step_update params w : pricing_step w (UpdateModelPricing params w).2
| step_other_tables w w' :
    (w_db w').(models) = (w_db w).(models) →
    (w_db w').(model_pricing_versions) = (w_db w).(model_pricing_versions) → pricing_step w w'.

Lemma pricing_ok_tables d d' :
  d'.(models) = d.(models) → d'.(model_pricing_versions) = d.(model_pricing_versions) →
  pricing_ok d → pricing_ok d'.
Proof. intros Hm Hv [? ? ? ? ? ? ?]. split; rewrite ?Hm, ?Hv; done. Qed.

Lemma pricing_steps_ok w w' : rtc pricing_step w w' → pricing_ok (w_db w) → pricing_ok (w_db w').
Proof.
  induction 1 as [|w1 w2 w3 Hs _ IH]; [done|]. intros H. apply IH.
  destruct Hs as [params w|params w|w w2 Hm Hv]; [by apply CreateModel_ok|by apply UpdateModelPricing_ok|].
  by apply (pricing_ok_tables (w_db w)).
Qed.

Lemma active_find d m p :
  pricing_ok d → p ∈ d.(model_pricing_versions) → version_of m p → is_active p →
  pg_one (active_version m.(Model_OrgID) m.(Model_ID)) d.(model_pricing_versions) = Ok p.
Proof.
  intros Hok Hp Hv Ha. assert (Hpa : active_version m.(Model_OrgID) m.(Model_ID) p = true) by (by apply active_version_true).
  destruct (pg_one _ _) as [q|e] eqn:E.
  - apply pg_one_ok in E as [Hq [[] ?]%active_version_true]. f_equal. destruct Hv.
    apply (active_unique d); try done. split; congruence.
  - exfalso. rewrite pg_one_find in E. destruct (find _ _) eqn:Ef; [done|].
    apply list_elem_of_In, (find_none _ _ Ef) in Hp. congruence.
Qed.

(** C28: whatever sequence of model creations and price changes runs, and
    whatever calls fail, every model always has exactly one active price
    version: reading it succeeds and gives the price shown on the model. *)
Theorem every_model_priced (w w' : world) :
  pricing_ok (w_db w) → rtc pricing_step w w' →
  pricing_ok (w_db w') ∧
  ∀ m, m ∈ (w_db w').(models) → w_faults w' = [] →
    ∃ p, GetActiveModelPricingVersion m.(Model_OrgID) m.(Model_ID) w' = (Ok p, w') ∧
      p.(ModelPricingVersion_InputPriceMicroUsdPer1kTokens) = m.(Model_InputPriceMicroUsdPer1kTokens) ∧
      p.(ModelPricingVersion_OutputPriceMicroUsdPer1kTokens) = m.(Model_OutputPriceMicroUsdPer1kTokens) ∧
      ∀ q, q ∈ (w_db w').(model_pricing_versions) → version_of m q → is_active q → q = p.
Proof.
  intros Hok Hs. pose proof (pricing_steps_ok _ _ Hs Hok) as Hok'. split; [done|]. intros m Hm Hf.
  destruct (po_price _ Hok' m Hm) as (p & Hp & Hv & Ha & H1 & H2). exists p. split; [|split; [done|split; [done|]]].
  - unfold GetActiveModelPricingVersion, orNoRows, query_active_version, mbind, M_bind, try.
    rewrite query_run by done. by rewrite (active_find _ m p).
  - intros q Hq Hvq Haq. apply (active_unique (w_db w')); try done. unfold version_of, same_model in *. split; naive_solver congruence.
Qed.

(** The version applies at the instant [t]. *)
Definition in_force (p : ModelPricingVersion) (t : Z) : Prop :=
  p.(ModelPricingVersion_EffectiveFrom) <= t ∧
  match p.(ModelPricingVersion_EffectiveTo) with None => True | Some e => t < e end.

Lemma later_version d p q :
  pricing_ok d → p ∈ d.(model_pricing_versions) → q ∈ d.(model_pricing_versions) → same_model p q →
  p.(ModelPricingVersion_Version) < q.(ModelPricingVersion_Version) →
  ∃ e, p.(ModelPricingVersion_EffectiveTo) = Some e ∧ e <= q.(ModelPricingVersion_EffectiveFrom).
Proof.
  intros Hok Hp Hq Hs Hlt. remember (Z.to_nat (ModelPricingVersion_Version q - ModelPricingVersion_Version p)) as k eqn:Hk.
  revert p Hp Hs Hlt Hk. induction k as [|k IH]; intros p Hp Hs Hlt Hk; [lia|].
  destruct (decide (p.(ModelPricingVersion_Status) = "active")) as [Ha|Ha].
  { destruct (po_open d Hok p Hp Ha) as [_ Hmax]. specialize (Hmax q Hq Hs). lia. }
  destruct (po_closed d Hok p Hp Ha) as (r & Hr & Hsr & Hv & Ht & Hf). eexists. split; [done|].
  assert (Hrq : same_model r q) by (apply (same_model_trans _ p); [by apply same_model_sym|done]).
  destruct (decide (ModelPricingVersion_Version r = ModelPricingVersion_Version q)) as [E|E].
  - by rewrite (po_versions d Hok r q Hr Hq Hrq E).
  - destruct (IH r Hr Hrq) as (e & He & Hle); [lia|lia|].
    destruct (decide (r.(ModelPricingVersion_Status) = "active")) as [Hra|Hra].
    { destruct (po_open d Hok r Hr Hra) as [Hn _]. congruence. }
    destruct (po_closed d Hok r Hr Hra) as (s & _ & _ & _ & Hts & Hfs). rewrite He in Hts. injection Hts as ->. lia.
Qed.

Lemma in_force_from d p t :
  pricing_ok d → p ∈ d.(model_pricing_versions) → p.(ModelPricingVersion_EffectiveFrom) <= t →
  ∃ q, q ∈ d.(model_pricing_versions) ∧ same_model p q ∧ in_force q t.
Proof.
  intros Hok Hp Ht. destruct (po_owner d Hok p Hp) as (m & Hm & Hmv).
  destruct (po_price d Hok m Hm) as (top & Htop & Htv & Hta & _).
  assert (Hst : same_model top p) by (unfold version_of, same_model in *; split; naive_solver congruence).
  destruct (po_open d Hok top Htop Hta) as [_ Hmax].
  remember (Z.to_nat (ModelPricingVersion_Version top - ModelPricingVersion_Version p)) as k eqn:Hk.
  revert p Hp Ht Hmv Hst Hk. induction k as [|k IH]; intros p Hp Ht Hmv Hst Hk.
  - exists p. split; [done|]. split; [by split|]. split; [done|].
    assert (p = top) as ->; [|by rewrite (proj1 (po_open d Hok top Htop Hta))].
    specialize (Hmax p Hp Hst). apply (po_versions d Hok); [done|done|by apply same_model_sym|lia].
  - destruct (decide (p.(ModelPricingVersion_Status) = "active")) as [Ha|Ha].
    { exists p. split; [done|]. split; [by split|]. split; [done|]. by rewrite (proj1 (po_open d Hok p Hp Ha)). }
    destruct (po_closed d Hok p Hp Ha) as (r & Hr & Hsr & Hv & Hto & Hf).
    destruct (decide (t < ModelPricingVersion_EffectiveFrom r)) as [Hlt|Hge].
    { exists p. split; [done|]. split; [by split|]. split; [done|]. by rewrite Hto. }
    destruct (IH r Hr) as (q & Hq & Hs & Hq'); [lia| | |lia|].
    { unfold version_of, same_model in *. split; naive_solver congruence. }
    { by apply (same_model_trans _ p). }
    exists q. split; [done|]. split; [by apply (same_model_trans _ r)|done].
Qed.

(** The versions of a model partition time: from the start of any version
    on, at every instant exactly one version of the model is in force. *)
Theorem price_in_force_unique (d : DB) (p : ModelPricingVersion) (t : Z) :
  pricing_ok d → p ∈ d.(model_pricing_versions) → p.(ModelPricingVersion_EffectiveFrom) <= t →
  ∃ q, (q ∈ d.(model_pricing_versions) ∧ same_model p q ∧ in_force q t) ∧
    ∀ r, r ∈ d.(model_pricing_versions) → same_model p r → in_force r t → r = q.
Proof.
  intros Hok Hp Ht. destruct (in_force_from d p t Hok Hp Ht) as (q & Hq & Hs & Hf). exists q. split; [done|].
  intros r Hr Hsr Hfr. assert (Hqr : same_model q r) by (unfold same_model in *; split; naive_solver congruence).
  destruct (Ztrichotomy (ModelPricingVersion_Version q) (ModelPricingVersion_Version r)) as [Hlt|[E|Hgt]].
  - destruct (later_version d q r Hok Hq Hr Hqr Hlt) as (e & He & Hle). unfold in_force in *. rewrite He in Hf. lia.
  - symmetry. by apply (po_versions d Hok).
  - destruct (later_version d r q Hok Hr Hq (same_model_sym _ _ Hqr)) as (e & He & Hle); [lia|].
    unfold in_force in *. rewrite He in Hfr. lia.
Qed.

(** A price change closes the active version at the instant of the change
    and opens the next one at the same instant with the new prices; the new
    version is the one later charges read. No recorded price is rewritten, and
    the versions of other models are untouched. *)
Theorem UpdateModelPricing_switches (params : UpdateModelPricingParams) (w w' : world) (res : UpdateModelPricingResult) :
  pricing_ok (w_db w) → UpdateModelPricing params w = (Ok res, w') →
  let prev := res.(ur_PreviousVersion) in
  let new := res.(ur_PricingVersion) in
  let d := w_db w in let d' := w_db w' in
  prev.(ModelPricingVersion_EffectiveTo) = Some (w_now w) ∧ new.(ModelPricingVersion_EffectiveFrom) = w_now w ∧
  new.(ModelPricingVersion_Version) = prev.(ModelPricingVersion_Version) + 1 ∧
  new.(ModelPricingVersion_InputPriceMicroUsdPer1kTokens) = params.(up_InputPriceMicroUSDPer1KTokens) ∧
  new.(ModelPricingVersion_OutputPriceMicroUsdPer1kTokens) = params.(up_OutputPriceMicroUSDPer1KTokens) ∧
  pg_one (active_version params.(up_OrgID) params.(up_ModelID)) d'.(model_pricing_versions) = Ok new ∧
  Forall2 (λ q q', if active_version params.(up_OrgID) params.(up_ModelID) q
                   then q' = prev ∧ q' = superseded (w_now w) q else q' = q)
    d.(model_pricing_versions) (take (length d.(model_pricing_versions)) d'.(model_pricing_versions)) ∧
  drop (length d.(model_pricing_versions)) d'.(model_pricing_versions) = [new].
Proof.
  intros Hok H. pose proof (UpdateModelPricing_ok params w Hok) as Hok'. rewrite H in Hok'. simpl in Hok'.
  apply UpdateModelPricing_rows in H as (p & n & new & Hp & Hpa & _ & Hn & (id & Hnew) & (m & Hm & Hv) & -> & -> & Hrows).
  rewrite (next_version_active _ _ _ _ _ Hok Hp Hpa Hn) in Hnew. simpl. pose proof Hrows as [Hvs Hms].
  split; [done|]. split; [by subst new|]. split; [by subst new|]. split; [by subst new|]. split; [by subst new|].
  assert (Hin : new ∈ model_pricing_versions (w_db w')) by (rewrite Hvs; apply elem_of_app; right; by left).
  split.
  - apply active_version_true in Hpa as [[Ho Hi] _]. destruct Hv as [Hv1 Hv2]. rewrite Ho in Hv1. rewrite Hi in Hv2.
    rewrite Hv1, Hv2. apply active_find; [done|done| |by subst new]. subst new. split; simpl; congruence.
  - rewrite Hvs, take_app_length', drop_app_length' by (by rewrite length_map). split; [|done].
    assert (Hall : ∀ q, q ∈ (w_db w).(model_pricing_versions) → active_version (up_OrgID params) (up_ModelID params) q = true → q = p).
    { intros q Hq [[] ?]%active_version_true. apply active_version_true in Hpa as [[] ?].
      apply (active_unique (w_db w)); try done. split; congruence. }
    clear -Hall. induction (model_pricing_versions (w_db w)) as [|q l IH]; simpl; [constructor|].
    constructor; [|apply IH; intros q' Hq'; apply Hall; by right].
    destruct (active_version _ _ q) eqn:E; [|done]. rewrite (Hall q ltac:(by left) E). done.
Qed.

(** A deployment with a provider and no models yet. *)
Definition ex_price_world : world := set_db (set_providers (λ _, [ex_provider]) emptyDB) ex_world.
Definition ex_model : CreateModelParams := mkCreateModelParams 1%N 40%N "large-1" "Large" 150 600 None.
Definition ex_update : UpdateModelPricingParams := mkUpdateModelPricingParams 1%N 1000%N 100 400.

Lemma ex_pricing_ok : pricing_ok (w_db ex_price_world).
Proof. split; intros *; simpl; set_solver. Qed.

Lemma every_model_priced_witness :
  let w := (UpdateModelPricing ex_update (CreateModel ex_model ex_price_world).2).2 in
  map Model_OutputPriceMicroUsdPer1kTokens (w_db w).(models) = [400] ∧
  ∃ p, GetActiveModelPricingVersion 1%N 1000%N w = (Ok p, w) ∧
    p.(ModelPricingVersion_OutputPriceMicroUsdPer1kTokens) = 400.
Proof.
  intros w. split; [vm_compute; reflexivity|].
  assert (Hr : rtc pricing_step ex_price_world w).
  { eapply rtc_l; [apply (step_create ex_model)|]. eapply rtc_l; [apply (step_update ex_update)|]. apply rtc_refl. }
  destruct (every_model_priced ex_price_world w ex_pricing_ok Hr) as [_ H].
  destruct (H (mkModel 1000%N 1%N 40%N "large-1" "Large" 100 400 None "active" (Day + 12 * Hour) (Day + 12 * Hour)))
    as (p & Hp & _ & Ho & _); [left; vm_compute; reflexivity|vm_compute; reflexivity|].
  exists p. split; [exact Hp|exact Ho].
Defined.

Lemma price_in_force_unique_witness :
  let d := w_db (CreateModel ex_model ex_price_world).2 in
  ∃ q, q ∈ d.(model_pricing_versions) ∧ in_force q (2 * Day).
Proof.
  intros d. destruct (price_in_force_unique d
    (mkModelPricingVersion 1001%N 1%N 1000%N 1 150 600 "active" (Day + 12 * Hour) None (Day + 12 * Hour)) (2 * Day))
    as (q & (Hq & _ & Hf) & _).
  - apply CreateModel_ok, ex_pricing_ok.
  - left.
  - vm_compute. discriminate.
  - exists q. split; [exact Hq|exact Hf].
Defined.

Lemma UpdateModelPricing_switches_witness :
  let w := (CreateModel ex_model ex_price_world).2 in
  let r := UpdateModelPricing ex_update w in
  is_ok r.1 = true ∧ length (w_db r.2).(model_pricing_versions) = 2%nat ∧
  ∃ res, r.1 = Ok res ∧ res.(ur_PricingVersion).(ModelPricingVersion_Version) =
                        res.(ur_PreviousVersion).(ModelPricingVersion_Version) + 1.
Proof.
  intros w r. split; [vm_compute; reflexivity|]. split; [vm_compute; reflexivity|].
  destruct r.1 as [res|e] eqn:E; [|exfalso; vm_compute in E; discriminate].
  exists res. split; [reflexivity|].
  apply (UpdateModelPricing_switches ex_update w r.2 res (CreateModel_ok ex_model _ ex_pricing_ok) (run_eq r _ E)).
Defined.

End Pricing.
