(* ===== verification/Metering.v ===== *)
(** * Metering: [internal/metering/service.go]

    What is written when a request ends: a success records its log, usage and
    cost and settles its reservations, in one transaction; a failure and a
    cache hit record a log only. Events and analytics follow outside the
    transaction, and their failure is ignored. *)

From S2P Require Import Prelude GoTime GoStrings Costing Store ExampleWorld.
From S2P Require Import Limits LimitsLedger LimitsReserve LimitsSpec Pricing.

Module Metering.
Import Pricing.

Definition StatusSuccess : string := "success".
Definition StatusError : string := "error".
Definition StatusRateLimited : string := "rate_limited".
Definition StatusBudgetWarned : string := "budget_warned".
Definition StatusBudgetBlocked : string := "budget_blocked".
Definition CodeBudgetExceeded : string := "budget_exceeded".
Definition EventUsageRecorded : string := "llm.usage.recorded".
Definition EventRequestBlocked : string := "llm.request.blocked".

Definition ErrInvalidMeteringInput (msg : string) : err := EWrap "invalid metering input" msg.

(** The optional collaborators: [false] is the disabled publisher or sink, or
    absent metrics. *)
Record Service := mkService { publisher : bool; analytics : bool; metrics : bool }.

Record RecordSuccessInput := mkRecordSuccessInput {
  rs_RequestID : uuid;
  rs_OrgID : uuid;
  rs_APIKeyID : uuid;
  rs_ProviderID : uuid;
  rs_ModelID : uuid;
  rs_RoutePolicyID : option uuid;
  rs_Method : string;
  rs_Path : string;
  rs_RequestModel : string;
  rs_Status : string;
  rs_StatusCode : Z;
  rs_RequestHash : string;
  rs_ResponseHash : string;
  rs_LatencyMS : Z;
  rs_ProviderLatencyMS : option Z;
  rs_Metadata : option json;
  rs_ProviderUsageJSON : option json;
  rs_PromptTokens : Z;
  rs_CompletionTokens : Z;
  rs_InputPriceMicroUSDPer1KTokens : Z;
  rs_OutputPriceMicroUSDPer1KTokens : Z;
  rs_StartedAt : Z;
  rs_CompletedAt : Z
}.

Record RecordFailureInput := mkRecordFailureInput {
  rf_RequestID : uuid;
  rf_OrgID : uuid;
  rf_APIKeyID : option uuid;
  rf_ProviderID : option uuid;
  rf_ModelID : option uuid;
  rf_RoutePolicyID : option uuid;
  rf_Method : string;
  rf_Path : string;
  rf_RequestModel : string;
  rf_Status : string;
  rf_StatusCode : Z;
  rf_ErrorCode : string;
  rf_RequestHash : string;
  rf_ResponseHash : string;
  rf_LatencyMS : Z;
  rf_ProviderLatencyMS : option Z;
  rf_Metadata : option json;
  rf_StartedAt : Z;
  rf_CompletedAt : Z
}.

Record RecordCacheHitInput := mkRecordCacheHitInput {
  ch_RequestID : uuid;
  ch_OrgID : uuid;
  ch_APIKeyID : uuid;
  ch_ProviderID : uuid;
  ch_ModelID : uuid;
  ch_RoutePolicyID : option uuid;
  ch_Method : string;
  ch_Path : string;
  ch_RequestModel : string;
  ch_Status : string;
  ch_StatusCode : Z;
  ch_RequestHash : string;
  ch_ResponseHash : string;
  ch_LatencyMS : Z;
  ch_ProviderLatencyMS : option Z;
  ch_Metadata : option json;
  ch_StartedAt : Z;
  ch_CompletedAt : Z
}.

Record RecordSuccessResult := mkRecordSuccessResult {
  res_RequestLog : RequestLog;
  res_UsageRecord : UsageRecord;
  res_CostRecord : CostRecord
}.

Definition textValue (value : string) : option string := if String.eqb value "" then None else Some value.
Definition nonZeroTime (value fallback : Z) : Z := if IsZero value then fallback else value.
Definition successStatus (status : string) : string := if String.eqb status "" then StatusSuccess else status.

(** ** Validation *)

Definition badStatusCode (code : Z) : bool := (code <? 100) || (599 <? code).

Definition validateSuccessInput (input : RecordSuccessInput) : result unit :=
  if (input.(rs_RequestID) =? Nil)%N then Err (ErrInvalidMeteringInput "request_id is required")
  else if (input.(rs_OrgID) =? Nil)%N || (input.(rs_APIKeyID) =? Nil)%N || (input.(rs_ProviderID) =? Nil)%N
          || (input.(rs_ModelID) =? Nil)%N
  then Err (ErrInvalidMeteringInput "org_id, api_key_id, provider_id and model_id are required")
  else if String.eqb input.(rs_Method) "" || String.eqb input.(rs_Path) ""
  then Err (ErrInvalidMeteringInput "method and path are required")
  else if badStatusCode input.(rs_StatusCode)
  then Err (ErrInvalidMeteringInput "status_code must be valid HTTP status")
  else if negb (String.eqb input.(rs_Status) "") && negb (String.eqb input.(rs_Status) StatusSuccess)
          && negb (String.eqb input.(rs_Status) StatusBudgetWarned)
  then Err (ErrInvalidMeteringInput "invalid success status")
  else if input.(rs_LatencyMS) <? 0 then Err (ErrInvalidMeteringInput "latency_ms must be non-negative")
  else if (input.(rs_PromptTokens) <? 0) || (input.(rs_CompletionTokens) <? 0)
  then Err (ErrInvalidMeteringInput "tokens must be non-negative")
  else if (MaxInt32 <? input.(rs_PromptTokens)) || (MaxInt32 <? input.(rs_CompletionTokens))
          || (MaxInt32 <? input.(rs_PromptTokens) +₆₄ input.(rs_CompletionTokens))
  then Err (ErrInvalidMeteringInput "tokens exceed database integer range")
  else Ok tt.

Definition validFailureStatus (status : string) : bool :=
  String.eqb status StatusError || String.eqb status StatusRateLimited
  || String.eqb status StatusBudgetWarned || String.eqb status StatusBudgetBlocked.

Definition validateFailureInput (input : RecordFailureInput) : result unit :=
  if (input.(rf_RequestID) =? Nil)%N then Err (ErrInvalidMeteringInput "request_id is required")
  else if (input.(rf_OrgID) =? Nil)%N then Err (ErrInvalidMeteringInput "org_id is required")
  else if String.eqb input.(rf_Method) "" || String.eqb input.(rf_Path) ""
  then Err (ErrInvalidMeteringInput "method and path are required")
  else if negb (validFailureStatus input.(rf_Status)) then Err (ErrInvalidMeteringInput "invalid failure status")
  else if badStatusCode input.(rf_StatusCode)
  then Err (ErrInvalidMeteringInput "status_code must be valid HTTP status")
  else if input.(rf_LatencyMS) <? 0 then Err (ErrInvalidMeteringInput "latency_ms must be non-negative")
  else Ok tt.

Definition validateCacheHitInput (input : RecordCacheHitInput) : result unit :=
  if (input.(ch_RequestID) =? Nil)%N then Err (ErrInvalidMeteringInput "request_id is required")
  else if (input.(ch_OrgID) =? Nil)%N || (input.(ch_APIKeyID) =? Nil)%N || (input.(ch_ProviderID) =? Nil)%N
          || (input.(ch_ModelID) =? Nil)%N
  then Err (ErrInvalidMeteringInput "org_id, api_key_id, provider_id and model_id are required")
  else if String.eqb input.(ch_Method) "" || String.eqb input.(ch_Path) ""
  then Err (ErrInvalidMeteringInput "method and path are required")
  else if negb (String.eqb input.(ch_Status) "") && negb (String.eqb input.(ch_Status) StatusSuccess)
          && negb (String.eqb input.(ch_Status) StatusBudgetWarned)
  then Err (ErrInvalidMeteringInput "invalid cache hit status")
  else if badStatusCode input.(ch_StatusCode)
  then Err (ErrInvalidMeteringInput "status_code must be valid HTTP status")
  else if input.(ch_LatencyMS) <? 0 then Err (ErrInvalidMeteringInput "latency_ms must be non-negative")
  else Ok tt.

(** ** Inserts, with the constraints of their tables *)

Definition request_log_check (l : RequestLog) : bool :=
  negb (String.eqb l.(RequestLog_Method) "") && negb (String.eqb l.(RequestLog_Path) "")
  && existsb (String.eqb l.(RequestLog_Status))
       ["success"; "error"; "rate_limited"; "budget_warned"; "budget_blocked"]
  && negb (badStatusCode l.(RequestLog_StatusCode))
  && (0 <=? l.(RequestLog_LatencyMs))
  && match l.(RequestLog_ProviderLatencyMs) with None => true | Some n => 0 <=? n end
  && match l.(RequestLog_ProviderID), l.(RequestLog_ModelID) with
     | None, None | Some _, Some _ => true
     | _, _ => false
     end
  && (l.(RequestLog_StartedAt) <=? l.(RequestLog_CompletedAt)).

Definition insert_request_log (l : RequestLog) (d : DB) : result (RequestLog * DB) :=
  _ ← pg_check (request_log_check l);
  _ ← pg_unique (λ q, (q.(RequestLog_ID) =? l.(RequestLog_ID))%N) d.(request_logs);
  Ok (l, set_request_logs (λ ls, ls ++ [l]) d).

Definition usage_check (u : UsageRecord) : bool :=
  (0 <=? u.(UsageRecord_PromptTokens)) && (0 <=? u.(UsageRecord_CompletionTokens))
  && (0 <=? u.(UsageRecord_TotalTokens))
  && (u.(UsageRecord_TotalTokens) =? u.(UsageRecord_PromptTokens) + u.(UsageRecord_CompletionTokens)).

Definition insert_usage_record (u : UsageRecord) (d : DB) : result (UsageRecord * DB) :=
  _ ← pg_check (usage_check u);
  _ ← pg_unique (λ q, (q.(UsageRecord_ID) =? u.(UsageRecord_ID))%N
                      || (q.(UsageRecord_RequestLogID) =? u.(UsageRecord_RequestLogID))%N) d.(usage_records);
  Ok (u, set_usage_records (λ us, us ++ [u]) d).

Definition cost_check (c : CostRecord) : bool :=
  String.eqb c.(CostRecord_Currency) "USD"
  && (0 <=? c.(CostRecord_InputCostMicro)) && (0 <=? c.(CostRecord_OutputCostMicro))
  && (0 <=? c.(CostRecord_TotalCostMicro))
  && (c.(CostRecord_TotalCostMicro) =? c.(CostRecord_InputCostMicro) + c.(CostRecord_OutputCostMicro)).

Definition insert_cost_record (c : CostRecord) (d : DB) : result (CostRecord * DB) :=
  _ ← pg_check (cost_check c);
  _ ← pg_unique (λ q, (q.(CostRecord_ID) =? c.(CostRecord_ID))%N
                      || (q.(CostRecord_UsageRecordID) =? c.(CostRecord_UsageRecordID))%N) d.(cost_records);
  Ok (c, set_cost_records (λ cs, cs ++ [c]) d).

(** ** Best-effort notifications *)

Definition notify (enabled hasMetrics : bool) (e : effect) (warning metric : string) : M unit :=
  if enabled then
    r ← try call;
    match r with
    | Ok _ => emit e
    | Err _ =>
        _ ← emit (EffWarn warning);
        if hasMetrics then emit (EffMetric metric [] 1) else mret tt
    end
  else mret tt.

Definition publishUsageEvent (s : Service) (event : effect) : M unit :=
  notify s.(publisher) s.(metrics) event "publish usage event failed" "usage_event_publish_failed".

Definition writeAnalyticsRecord (s : Service) (record : effect) : M unit :=
  notify s.(analytics) s.(metrics) record "write analytics record failed" "analytics_write_failed".

(** ** Recording *)

(** The closure [RecordSuccess] passes to [ExecTxRaw]. *)
Definition recordSuccessTx (input : RecordSuccessInput) : M RecordSuccessResult :=
  now1 ← clock;
  let startedAt := nonZeroTime input.(rs_StartedAt) now1 in
  now2 ← clock;
  let completedAt := nonZeroTime input.(rs_CompletedAt) now2 in
  requestLog ← stmt (insert_request_log
    (mkRequestLog input.(rs_RequestID) input.(rs_OrgID) (Some input.(rs_APIKeyID)) (Some input.(rs_ProviderID))
       (Some input.(rs_ModelID)) input.(rs_RoutePolicyID) input.(rs_Method) input.(rs_Path)
       (textValue input.(rs_RequestModel)) (successStatus input.(rs_Status)) input.(rs_StatusCode) None
       (textValue input.(rs_RequestHash)) (textValue input.(rs_ResponseHash)) input.(rs_LatencyMS)
       input.(rs_ProviderLatencyMS) input.(rs_Metadata) startedAt completedAt));
  usageID ← new_uuid;
  usageRecord ← stmt (insert_usage_record
    (mkUsageRecord usageID requestLog.(RequestLog_ID) input.(rs_OrgID) input.(rs_APIKeyID) input.(rs_ProviderID)
       input.(rs_ModelID) (wrap32 input.(rs_PromptTokens)) (wrap32 input.(rs_CompletionTokens))
       (wrap32 (input.(rs_PromptTokens) +₆₄ input.(rs_CompletionTokens))) input.(rs_ProviderUsageJSON) completedAt));
  pricingVersion ← query_active_version input.(rs_OrgID) input.(rs_ModelID);
  calculation ← lift (Calculate (mkCalculateInput input.(rs_PromptTokens) input.(rs_CompletionTokens)
    pricingVersion.(ModelPricingVersion_InputPriceMicroUsdPer1kTokens)
    pricingVersion.(ModelPricingVersion_OutputPriceMicroUsdPer1kTokens)));
  costID ← new_uuid;
  costRecord ← stmt (insert_cost_record
    (mkCostRecord costID usageRecord.(UsageRecord_ID) input.(rs_OrgID) input.(rs_ProviderID) input.(rs_ModelID)
       calculation.(Currency) calculation.(InputCostMicro) calculation.(OutputCostMicro)
       calculation.(TotalCostMicro) calculation.(Snapshot) completedAt (Some pricingVersion.(ModelPricingVersion_ID))));
  _ ← SettleTx input.(rs_RequestID) costRecord.(CostRecord_TotalCostMicro) completedAt;
  mret (mkRecordSuccessResult requestLog usageRecord costRecord).

Definition RecordSuccess (s : Service) (input : RecordSuccessInput) : M RecordSuccessResult :=
  _ ← lift (validateSuccessInput input);
  result ← ExecTxRaw (recordSuccessTx input);
  let log := result.(res_RequestLog) in
  let usage := result.(res_UsageRecord) in
  let cost := result.(res_CostRecord) in
  _ ← publishUsageEvent s (EffPublish EventUsageRecorded input.(rs_OrgID) log.(RequestLog_ID)
        usage.(UsageRecord_TotalTokens) cost.(CostRecord_TotalCostMicro) log.(RequestLog_Status));
  _ ← writeAnalyticsRecord s (EffAnalytics input.(rs_OrgID) log.(RequestLog_ID) log.(RequestLog_Status)
        usage.(UsageRecord_TotalTokens) cost.(CostRecord_TotalCostMicro));
  mret result.

Definition RecordFailure (s : Service) (input : RecordFailureInput) : M RequestLog :=
  _ ← lift (validateFailureInput input);
  now1 ← clock;
  now2 ← clock;
  requestLog ← stmt (insert_request_log
    (mkRequestLog input.(rf_RequestID) input.(rf_OrgID) input.(rf_APIKeyID) input.(rf_ProviderID) input.(rf_ModelID)
       input.(rf_RoutePolicyID) input.(rf_Method) input.(rf_Path) (textValue input.(rf_RequestModel))
       input.(rf_Status) input.(rf_StatusCode) (textValue input.(rf_ErrorCode)) (textValue input.(rf_RequestHash))
       (textValue input.(rf_ResponseHash)) input.(rf_LatencyMS) input.(rf_ProviderLatencyMS) input.(rf_Metadata)
       (nonZeroTime input.(rf_StartedAt) now1) (nonZeroTime input.(rf_CompletedAt) now2)));
  _ ← (if String.eqb input.(rf_Status) StatusBudgetBlocked && String.eqb input.(rf_ErrorCode) CodeBudgetExceeded
       then publishUsageEvent s (EffPublish EventRequestBlocked input.(rf_OrgID) requestLog.(RequestLog_ID) 0 0
              requestLog.(RequestLog_Status))
       else mret tt);
  _ ← writeAnalyticsRecord s (EffAnalytics input.(rf_OrgID) requestLog.(RequestLog_ID) requestLog.(RequestLog_Status) 0 0);
  mret requestLog.

Definition RecordCacheHit (s : Service) (input : RecordCacheHitInput) : M RequestLog :=
  _ ← lift (validateCacheHitInput input);
  now1 ← clock;
  now2 ← clock;
  requestLog ← stmt (insert_request_log
    (mkRequestLog input.(ch_RequestID) input.(ch_OrgID) (Some input.(ch_APIKeyID)) (Some input.(ch_ProviderID))
       (Some input.(ch_ModelID)) input.(ch_RoutePolicyID) input.(ch_Method) input.(ch_Path)
       (textValue input.(ch_RequestModel)) (successStatus input.(ch_Status)) input.(ch_StatusCode) None
       (textValue input.(ch_RequestHash)) (textValue input.(ch_ResponseHash)) input.(ch_LatencyMS)
       input.(ch_ProviderLatencyMS) input.(ch_Metadata)
       (nonZeroTime input.(ch_StartedAt) now1) (nonZeroTime input.(ch_CompletedAt) now2)));
  _ ← writeAnalyticsRecord s (EffAnalytics input.(ch_OrgID) requestLog.(RequestLog_ID) requestLog.(RequestLog_Status) 0 0);
  mret requestLog.

(** ** What a success writes *)

Lemma notify_run enabled hasMetrics e warning metric w :
  ∃ w', notify enabled hasMetrics e warning metric w = (Ok tt, w') ∧ w_db w' = w_db w.
Proof.
  unfold notify, mbind, M_bind, try, emit. destruct enabled; [|by eexists].
  pose proof (call_db w) as Hc. destruct (call w) as [[u|e'] w1]; simpl in *; [by eexists|].
  destruct hasMetrics; by eexists.
Qed.

(** The three rows of a success. *)
Definition add_records (res : RecordSuccessResult) (d : DB) : DB :=
  set_cost_records (λ l, l ++ [res.(res_CostRecord)])
    (set_usage_records (λ l, l ++ [res.(res_UsageRecord)])
      (set_request_logs (λ l, l ++ [res.(res_RequestLog)]) d)).

(** The rows say what was asked and what it cost at the active price. *)
Record success_rows (input : RecordSuccessInput) (d : DB) (res : RecordSuccessResult) : Prop := {
  sr_log : res.(res_RequestLog).(RequestLog_ID) = input.(rs_RequestID) ∧
    res.(res_RequestLog).(RequestLog_OrgID) = input.(rs_OrgID) ∧
    res.(res_RequestLog).(RequestLog_ApiKeyID) = Some input.(rs_APIKeyID) ∧
    Forall (λ l, l.(RequestLog_ID) ≠ input.(rs_RequestID)) d.(request_logs);
  sr_usage : res.(res_UsageRecord).(UsageRecord_RequestLogID) = input.(rs_RequestID) ∧
    res.(res_UsageRecord).(UsageRecord_OrgID) = input.(rs_OrgID) ∧
    res.(res_UsageRecord).(UsageRecord_ApiKeyID) = input.(rs_APIKeyID) ∧
    Forall (λ u, u.(UsageRecord_ID) ≠ res.(res_UsageRecord).(UsageRecord_ID)) d.(usage_records);
  sr_tokens : res.(res_UsageRecord).(UsageRecord_PromptTokens) = input.(rs_PromptTokens) ∧
    res.(res_UsageRecord).(UsageRecord_CompletionTokens) = input.(rs_CompletionTokens) ∧
    res.(res_UsageRecord).(UsageRecord_TotalTokens) = input.(rs_PromptTokens) + input.(rs_CompletionTokens);
  sr_cost : res.(res_CostRecord).(CostRecord_UsageRecordID) = res.(res_UsageRecord).(UsageRecord_ID) ∧
    res.(res_CostRecord).(CostRecord_OrgID) = input.(rs_OrgID) ∧
    res.(res_CostRecord).(CostRecord_CreatedAt) = res.(res_RequestLog).(RequestLog_CompletedAt);
  sr_price : ∃ pv, pg_one (active_version input.(rs_OrgID) input.(rs_ModelID)) d.(model_pricing_versions) = Ok pv ∧
    res.(res_CostRecord).(CostRecord_PricingVersionID) = Some pv.(ModelPricingVersion_ID) ∧
    res.(res_CostRecord).(CostRecord_InputCostMicro) =
      input.(rs_PromptTokens) * pv.(ModelPricingVersion_InputPriceMicroUsdPer1kTokens) / 1000 ∧
    res.(res_CostRecord).(CostRecord_OutputCostMicro) =
      input.(rs_CompletionTokens) * pv.(ModelPricingVersion_OutputPriceMicroUsdPer1kTokens) / 1000 ∧
    res.(res_CostRecord).(CostRecord_TotalCostMicro) =
      res.(res_CostRecord).(CostRecord_InputCostMicro) + res.(res_CostRecord).(CostRecord_OutputCostMicro);
  sr_sound : request_log_check res.(res_RequestLog) = true ∧
    usage_check res.(res_UsageRecord) = true ∧ res.(res_UsageRecord).(UsageRecord_TotalTokens) <= MaxInt32 ∧
    cost_check res.(res_CostRecord) = true ∧ res.(res_CostRecord).(CostRecord_TotalCostMicro) <= MaxInt64 ∧
    Forall (λ u, u.(UsageRecord_RequestLogID) ≠ input.(rs_RequestID)) d.(usage_records) ∧
    Forall (λ c, c.(CostRecord_ID) ≠ res.(res_CostRecord).(CostRecord_ID) ∧
      c.(CostRecord_UsageRecordID) ≠ res.(res_UsageRecord).(UsageRecord_ID)) d.(cost_records)
}.

Lemma validateSuccessInput_tokens input :
  validateSuccessInput input = Ok tt →
  0 <= input.(rs_PromptTokens) ∧ 0 <= input.(rs_CompletionTokens) ∧
  input.(rs_PromptTokens) + input.(rs_CompletionTokens) <= MaxInt32.
Proof.
  unfold validateSuccessInput. intros H. case_all H. bool_to_prop.
  rewrite wrap64_id in * by (unfold_ranges; lia). lia.
Qed.

Lemma insert_ok {R} (chk : bool) (clash : R → bool) (rows : list R) (x : R) (d0 d' : DB) (x' : R) :
  (_ ← pg_check chk; _ ← pg_unique clash rows; Ok (x, d0)) = Ok (x', d') →
  x' = x ∧ d' = d0 ∧ chk = true ∧ Forall (λ r, clash r = false) rows.
Proof.
  intros H. apply result_bind_ok in H as ([] & Hc & H). apply result_bind_ok in H as ([] & Hu & [= <- <-]).
  apply pg_unique_ok in Hu. unfold pg_check in Hc. destruct chk; [|done]. done.
Qed.

Lemma recordSuccessTx_rows input res w w' :
  validateSuccessInput input = Ok tt → recordSuccessTx input w = (Ok res, w') →
  success_rows input (w_db w) res ∧
  ∃ w1 now, w_db w1 = add_records res (w_db w) ∧
    SettleTx input.(rs_RequestID) res.(res_CostRecord).(CostRecord_TotalCostMicro) now w1 = (Ok tt, w').
Proof.
  intros (Hp0 & Hc0 & Hmax)%validateSuccessInput_tokens H. unfold recordSuccessTx in H.
  apply bind_ok in H as (now1 & w1 & H1 & H). apply clock_ok in H1.
  apply bind_ok in H as (now2 & w2 & H2 & H). apply clock_ok in H2.
  apply bind_ok in H as (log & w3 & H3 & H). apply stmt_ok, insert_ok in H3 as (-> & Hdb3 & Hlogc & Hlog).
  apply bind_ok in H as (uid & w4 & H4 & H). apply new_uuid_ok in H4.
  apply bind_ok in H as (usage & w5 & H5 & H). apply stmt_ok, insert_ok in H5 as (-> & Hdb5 & Husagec & Husage).
  apply bind_ok in H as (pv & w6 & H6 & H). apply query_ok in H6 as [Hpv Hdb6].
  apply bind_ok in H as (calc & w7 & H7 & H). apply lift_ok in H7 as [Hcalc <-].
  apply bind_ok in H as (cid & w8 & H8 & H). apply new_uuid_ok in H8.
  apply bind_ok in H as (cost & w9 & H9 & H). apply stmt_ok, insert_ok in H9 as (-> & Hdb9 & Hcostc & Hcost).
  apply bind_ok in H as ([] & w10 & H10 & H). apply ret_ok in H as [<- <-].
  apply Calculate_ok_iff in Hcalc as (_ & Hmaxc & ->).
  rewrite H2, H1 in *. rewrite H4, Hdb3 in *. rewrite H8, Hdb6, Hdb5 in *.
  simpl in Hpv, Hlog, Husage, Hcost, Hdb9.
  rewrite !wrap64_id, !wrap32_id in * by (unfold_ranges; lia).
  split; [|by exists w9, (nonZeroTime (rs_CompletedAt input) now2)].
  rewrite List.Forall_forall in Hlog, Husage, Hcost. split; simpl.
  - do 3 (split; [done|]). apply List.Forall_forall. intros l Hl. apply Hlog in Hl. by apply N.eqb_neq.
  - do 3 (split; [done|]). apply List.Forall_forall. intros u Hu. apply Husage in Hu.
    apply orb_false_iff in Hu as [Hu _]. by apply N.eqb_neq.
  - done.
  - done.
  - by exists pv.
  - do 5 (split; [done|]). split; apply List.Forall_forall.
    + intros u Hu. apply Husage, orb_false_iff in Hu as [_ Hu]. by apply N.eqb_neq.
    + intros c Hc. apply Hcost, orb_false_iff in Hc as [? ?]. by split; apply N.eqb_neq.
Qed.

Lemma RecordSuccess_rows s input res w w' :
  RecordSuccess s input w = (Ok res, w') →
  success_rows input (w_db w) res ∧
  ∃ w1 w2 now, w_db w1 = add_records res (w_db w) ∧ w_db w' = w_db w2 ∧
    SettleTx input.(rs_RequestID) res.(res_CostRecord).(CostRecord_TotalCostMicro) now w1 = (Ok tt, w2).
Proof.
  intros H. unfold RecordSuccess in H. apply bind_ok in H as ([] & w1 & H1 & H). apply lift_ok in H1 as [Hv <-].
  apply bind_ok in H as (res' & w2 & H2 & H). apply WithTx_ok in H2 as (w3 & w4 & Hdb3 & _ & H2 & Hdb2). simpl in Hdb2.
  apply bind_ok in H as (u1 & w5 & H5 & H). apply bind_ok in H as (u2 & w6 & H6 & H). apply ret_ok in H as [-> <-].
  edestruct notify_run as (w5' & E5 & Hdb5). unfold publishUsageEvent in H5. rewrite E5 in H5. injection H5 as _ <-.
  edestruct notify_run as (w6' & E6 & Hdb6). unfold writeAnalyticsRecord in H6. rewrite E6 in H6. injection H6 as _ <-.
  apply recordSuccessTx_rows in H2 as (Hrows & w7 & now & Hdb7 & Hs); [|done]. rewrite Hdb3 in *.
  split; [done|]. exists w7, w4, now. split; [done|]. split; [congruence|done].
Qed.

(** C25: a recorded success adds exactly one log, one usage and one cost row;
    the token counts are stored without loss, the cost is the exact price of
    the tokens at the model's active version, and every open reservation of
    the request is settled: its counters release what was held and gain the
    actual cost. No other table changes. *)
Theorem RecordSuccess_exact (s : Service) (input : RecordSuccessInput) (res : RecordSuccessResult) (w w' : world) :
  ledger_ok (w_db w) → RecordSuccess s input w = (Ok res, w') →
  success_rows input (w_db w) res ∧
  discharged input.(rs_RequestID) "settled" res.(res_CostRecord).(CostRecord_TotalCostMicro)
    (add_records res (w_db w)) (w_db w') ∧
  held_by input.(rs_RequestID) (w_db w') = [].
Proof.
  intros Hok H. apply RecordSuccess_rows in H as (Hrows & w1 & w2 & now & Hdb1 & -> & Hs).
  split; [done|]. rewrite <- Hdb1.
  apply SettleTx_discharged in Hs as [_ Hd].
  - split; [done|]. by apply (discharged_none_held _ "settled" _ _ _ ltac:(done) Hd).
  - rewrite Hdb1. by apply (ledger_ok_tables (w_db w)).
Qed.

Lemma RecordSuccess_no_trace s input w e :
  (RecordSuccess s input w).1 = Err e → w_db (RecordSuccess s input w).2 = w_db w.
Proof.
  unfold RecordSuccess, mbind, M_bind, lift. destruct (validateSuccessInput input); [|done]. intros H.
  destruct (ExecTxRaw (recordSuccessTx input) w) as [[res|e1] w1] eqn:E.
  - exfalso. revert H. unfold publishUsageEvent, writeAnalyticsRecord.
    edestruct notify_run as (w2 & -> & _). edestruct notify_run as (w3 & -> & _). done.
  - pose proof (ExecTxRaw_err (recordSuccessTx input) w e1 (f_equal fst E)) as Hdb. by rewrite E in Hdb.
Qed.

(** After a success the request holds nothing, and the ledger balances. *)
Lemma RecordSuccess_closes s input res w w' :
  ledger_ok (w_db w) → RecordSuccess s input w = (Ok res, w') →
  ledger_ok (w_db w') ∧ held_by input.(rs_RequestID) (w_db w') = [] ∧
  limits_frame (add_records res (w_db w)) (w_db w').
Proof.
  intros Hok H. apply RecordSuccess_rows in H as (_ & w1 & w2 & now & Hdb1 & -> & Hs).
  apply SettleTx_discharged in Hs as [_ Hd]; [|rewrite Hdb1; by apply (ledger_ok_tables (w_db w))].
  split; [apply Hd|]. split; [by apply (discharged_none_held _ "settled" _ _ _ ltac:(done) Hd)|].
  rewrite <- Hdb1. apply Hd.
Qed.

(** Recording is all or nothing: whatever step of [RecordSuccess] fails,
    no row is written and no reservation is touched. *)
Theorem RecordSuccess_atomic (s : Service) (input : RecordSuccessInput) (w : world) (e : err) :
  (RecordSuccess s input w).1 = Err e → w_db (RecordSuccess s input w).2 = w_db w.
Proof. apply RecordSuccess_no_trace. Qed.

(** ** The two accounts of the money spent

    A counter accumulates settlements; the budget and quota checks sum the cost
    records of the window instead. *)

Definition recorded (d : DB) (c : CostLimitCounter) : Z :=
  seed_settled d c.(CostLimitCounter_OrgID) c.(CostLimitCounter_ScopeType) c.(CostLimitCounter_ScopeID)
    c.(CostLimitCounter_WindowStart) c.(CostLimitCounter_WindowEnd).

Definition drift (d : DB) (c : CostLimitCounter) : Z := c.(CostLimitCounter_SettledMicroUsd) - recorded d c.

(** The foreign key from costs to usage. *)
Definition refs_ok (d : DB) : Prop :=
  ∀ cr, cr ∈ d.(cost_records) → is_Some (usage_of_cost d cr).

(** The counter of the caller's organisation or key. *)
Definition counts (c : CostLimitCounter) (input : RecordSuccessInput) : Prop :=
  c.(CostLimitCounter_OrgID) = input.(rs_OrgID) ∧
  (c.(CostLimitCounter_ScopeType) = ScopeTypeOrg ∨ c.(CostLimitCounter_ScopeID) = input.(rs_APIKeyID)).

Definition in_window (c : CostLimitCounter) (t : Z) : bool :=
  (c.(CostLimitCounter_WindowStart) <=? t) && (t <? c.(CostLimitCounter_WindowEnd)).

Lemma seed_row_add res d o st k s e cr :
  is_Some (usage_of_cost d cr) → seed_row (add_records res d) o st k s e cr = seed_row d o st k s e cr.
Proof.
  intros [u Hu]. unfold seed_row. replace (usage_of_cost (add_records res d) cr) with (usage_of_cost d cr); [done|].
  unfold usage_of_cost in *. simpl. by rewrite find_app, Hu.
Qed.

Lemma seed_row_new input d res c :
  success_rows input d res → counts c input →
  seed_row (add_records res d) c.(CostLimitCounter_OrgID) c.(CostLimitCounter_ScopeType) c.(CostLimitCounter_ScopeID)
    c.(CostLimitCounter_WindowStart) c.(CostLimitCounter_WindowEnd) res.(res_CostRecord) =
  in_window c res.(res_CostRecord).(CostRecord_CreatedAt).
Proof.
  intros [_ (_ & Huo & Huk & Hfresh) _ (Hcu & Hco & _) _ _] [Ho Hs]. unfold seed_row, in_window.
  rewrite Hco, Ho, N.eqb_refl. simpl.
  assert (Hu : usage_of_cost (add_records res d) (res_CostRecord res) = Some (res_UsageRecord res)).
  { unfold usage_of_cost. simpl. rewrite find_app.
    destruct (find _ (usage_records d)) as [u|] eqn:E.
    - exfalso. apply find_some in E as [Hu Hm]. rewrite List.Forall_forall in Hfresh.
      apply (Hfresh u Hu). apply andb_true_iff in Hm as [_ Hm]. apply N.eqb_eq in Hm. congruence.
    - simpl. by rewrite Huo, Hco, Hcu, !N.eqb_refl. }
  rewrite Hu, Huk. destruct Hs as [-> | ->]; [by rewrite andb_true_r|].
  by rewrite N.eqb_refl, orb_true_r, andb_true_r.
Qed.

Lemma recorded_add input d res c :
  success_rows input d res → refs_ok d → counts c input →
  recorded (add_records res d) c =
    recorded d c + if in_window c res.(res_CostRecord).(CostRecord_CreatedAt)
                   then res.(res_CostRecord).(CostRecord_TotalCostMicro) else 0.
Proof.
  intros Hr Hrefs Hc. unfold recorded, seed_settled. simpl cost_records.
  rewrite filter_app, sumZ_app. f_equal.
  - f_equal. apply filter_ext_in. intros cr Hcr. apply seed_row_add, Hrefs. by apply list_elem_of_In.
  - simpl. rewrite (seed_row_new input) by done. destruct (in_window _ _); [|done].
    rewrite sumZ_cons, sumZ_nil. lia.
Qed.

(** The two accounts of spending move together. When a success is
    recorded, the settlement counter of the caller's organisation or key drifts
    from the sum of the recorded costs by exactly the request's cost for each
    reservation it held on the counter, less once if the request completed in
    the counter's window; so a request that reserved once and completed in the
    window keeps the two equal. *)
Theorem RecordSuccess_drift (s : Service) (input : RecordSuccessInput) (res : RecordSuccessResult)
    (w w' : world) (c c' : CostLimitCounter) :
  ledger_ok (w_db w) → refs_ok (w_db w) → RecordSuccess s input w = (Ok res, w') → counts c input →
  c ∈ (w_db w).(cost_limit_counters) → c' ∈ (w_db w').(cost_limit_counters) → key_of_counter c' = key_of_counter c →
  drift (w_db w') c' = drift (w_db w) c +
    res.(res_CostRecord).(CostRecord_TotalCostMicro) *
    (hits (held_by input.(rs_RequestID) (w_db w)) (key_of_counter c)
     - if in_window c res.(res_RequestLog).(RequestLog_CompletedAt) then 1 else 0).
Proof.
  intros Hok Hrefs H Hcnt Hc Hc' Hkey.
  apply RecordSuccess_rows in H as (Hrows & w1 & w2 & now & Hdb1 & Hdb2 & Hs).
  apply SettleTx_discharged in Hs as [_ Hd]; [|rewrite Hdb1; by apply (ledger_ok_tables (w_db w))].
  rewrite Hdb1, <- Hdb2 in Hd. destruct Hd as [Hfr _ HF _ Hok'].
  assert (Hm : moved (λ k, - charged (held_by (rs_RequestID input) (add_records res (w_db w))) k)
    (λ k, CostRecord_TotalCostMicro (res_CostRecord res) * hits (held_by (rs_RequestID input) (add_records res (w_db w))) k) c c').
  { destruct (Forall2_elem_l _ _ _ _ HF Hc) as (c1 & Hc1 & Hm). pose proof Hm as [(_ & Hk & _) _].
    assert (c1 = c') as <-; [|done]. apply (NoDup_map_inj key_of_counter _ _ _ (ledger_keys _ Hok')); [done|done|congruence]. }
  destruct Hm as ((_ & _ & Hend) & _ & Hset).
  assert (Hrec : recorded (w_db w') c' = recorded (add_records res (w_db w)) c).
  { unfold recorded, seed_settled, seed_row, usage_of_cost. injection Hkey as <- <- <- _ <-. rewrite Hend.
    unfold limits_frame in Hfr. injection Hfr as _ _ _ Hu Hcr _. by rewrite <- Hu, <- Hcr. }
  destruct Hrows as [Hlog Hus Htok Hcost Hprice] eqn:Eq. clear Eq.
  unfold drift. rewrite Hrec, (recorded_add input) by done. rewrite Hset.
  destruct Hcost as (_ & _ & ->).
  change (held_by (rs_RequestID input) (add_records res (w_db w))) with (held_by (rs_RequestID input) (w_db w)).
  destruct (in_window c _); lia.
Qed.

(** ** Requests that cost nothing, and recording twice *)

Lemma RecordFailure_rows s input log w w' :
  RecordFailure s input w = (Ok log, w') →
  w_db w' = set_request_logs (λ l, l ++ [log]) (w_db w) ∧
  log.(RequestLog_ID) = input.(rf_RequestID) ∧ log.(RequestLog_Status) = input.(rf_Status) ∧
  validFailureStatus log.(RequestLog_Status) = true.
Proof.
  intros H. unfold RecordFailure in H. apply bind_ok in H as ([] & w1 & H1 & H). apply lift_ok in H1 as [Hv <-].
  apply bind_ok in H as (n1 & w2 & H2 & H). apply clock_ok in H2.
  apply bind_ok in H as (n2 & w3 & H3 & H). apply clock_ok in H3.
  apply bind_ok in H as (l & w4 & H4 & H). apply stmt_ok, insert_ok in H4 as (-> & Hdb4 & _ & _).
  apply bind_ok in H as (u1 & w5 & H5 & H). apply bind_ok in H as (u2 & w6 & H6 & H). apply ret_ok in H as [<- <-].
  assert (Hdb5 : w_db w5 = w_db w4).
  { destruct (_ && _); [|by apply ret_ok in H5 as [_ <-]]. unfold publishUsageEvent in H5.
    edestruct notify_run as (w5' & E5 & Hdb5). rewrite E5 in H5. by injection H5 as _ <-. }
  edestruct notify_run as (w6' & E6 & Hdb6). unfold writeAnalyticsRecord in H6. rewrite E6 in H6. injection H6 as _ <-.
  split; [congruence|]. simpl. split; [done|]. split; [done|].
  unfold validateFailureInput in Hv. case_all Hv. by apply negb_false_iff.
Qed.

Lemma RecordFailure_no_trace s input w e :
  (RecordFailure s input w).1 = Err e → w_db (RecordFailure s input w).2 = w_db w.
Proof.
  unfold RecordFailure, mbind, M_bind, lift, clock. destruct (validateFailureInput input); [|done].
  match goal with |- context [stmt ?f ?w0] => pose proof (call_db w0) as Hc; unfold stmt; destruct (call w0) as [[u|e0] w1] end;
    [|done]. simpl in Hc. destruct (insert_request_log _ _) as [[l d]|e0]; [|done]. intros H. exfalso. revert H.
  unfold publishUsageEvent, writeAnalyticsRecord. destruct (_ && _).
  - edestruct notify_run as (w2 & -> & _). edestruct notify_run as (w3 & -> & _). done.
  - simpl. edestruct notify_run as (w3 & -> & _). done.
Qed.

Lemma RecordCacheHit_rows s input log w w' :
  RecordCacheHit s input w = (Ok log, w') →
  w_db w' = set_request_logs (λ l, l ++ [log]) (w_db w) ∧
  log.(RequestLog_ID) = input.(ch_RequestID) ∧
  (log.(RequestLog_Status) = StatusSuccess ∨ log.(RequestLog_Status) = StatusBudgetWarned).
Proof.
  intros H. unfold RecordCacheHit in H. apply bind_ok in H as ([] & w1 & H1 & H). apply lift_ok in H1 as [Hv <-].
  apply bind_ok in H as (n1 & w2 & H2 & H). apply clock_ok in H2.
  apply bind_ok in H as (n2 & w3 & H3 & H). apply clock_ok in H3.
  apply bind_ok in H as (l & w4 & H4 & H). apply stmt_ok, insert_ok in H4 as (-> & Hdb4 & _ & _).
  apply bind_ok in H as (u2 & w6 & H6 & H). apply ret_ok in H as [<- <-].
  edestruct notify_run as (w6' & E6 & Hdb6). unfold writeAnalyticsRecord in H6. rewrite E6 in H6. injection H6 as _ <-.
  split; [congruence|]. simpl. split; [done|]. unfold successStatus.
  destruct (String.eqb_spec (ch_Status input) "") as [|Hne]; [by left|].
  unfold validateCacheHitInput in Hv. case_all Hv. rewrite !andb_false_iff, !negb_false_iff, !String.eqb_eq in *.
  naive_solver.
Qed.

Lemma RecordCacheHit_no_trace s input w e :
  (RecordCacheHit s input w).1 = Err e → w_db (RecordCacheHit s input w).2 = w_db w.
Proof.
  unfold RecordCacheHit, mbind, M_bind, lift, clock. destruct (validateCacheHitInput input); [|done].
  match goal with |- context [stmt ?f ?w0] => pose proof (call_db w0) as Hc; unfold stmt; destruct (call w0) as [[u|e0] w1] end;
    [|done]. simpl in Hc. destruct (insert_request_log _ _) as [[l d]|e0]; [|done]. intros H. exfalso. revert H.
  unfold writeAnalyticsRecord. edestruct notify_run as (w3 & -> & _). done.
Qed.

(** Failures and cache hits are free: each adds one log row with its own
    status and changes nothing else, so no usage, cost, counter or reservation
    moves. *)
Theorem uncharged_requests (s : Service) (w w' : world) (log : RequestLog) :
  (∀ input, RecordFailure s input w = (Ok log, w') →
     w_db w' = set_request_logs (λ l, l ++ [log]) (w_db w) ∧ log.(RequestLog_ID) = input.(rf_RequestID) ∧
     log.(RequestLog_Status) = input.(rf_Status) ∧ validFailureStatus log.(RequestLog_Status) = true) ∧
  (∀ input, RecordCacheHit s input w = (Ok log, w') →
     w_db w' = set_request_logs (λ l, l ++ [log]) (w_db w) ∧ log.(RequestLog_ID) = input.(ch_RequestID) ∧
     (log.(RequestLog_Status) = StatusSuccess ∨ log.(RequestLog_Status) = StatusBudgetWarned)).
Proof. split; intros input H; [by apply (RecordFailure_rows s)|by apply (RecordCacheHit_rows s)]. Qed.

(** A request is charged at most once: once any outcome of a request is
    logged, recording a success for the same request is refused and changes
    nothing. *)
Theorem charged_at_most_once (s : Service) (input : RecordSuccessInput) (w : world) (l : RequestLog) :
  l ∈ (w_db w).(request_logs) → l.(RequestLog_ID) = input.(rs_RequestID) →
  is_ok (RecordSuccess s input w).1 = false ∧ w_db (RecordSuccess s input w).2 = w_db w.
Proof.
  intros Hl Hid. destruct (RecordSuccess s input w) as [[res|e] w'] eqn:E.
  - exfalso. apply RecordSuccess_rows in E as ([(_ & _ & _ & Hfresh)] & _).
    rewrite List.Forall_forall in Hfresh. by apply (Hfresh l); [apply list_elem_of_In|].
  - split; [done|]. unfold RecordSuccess, mbind, M_bind, lift in E.
    destruct (validateSuccessInput input); [|by injection E as _ <-].
    destruct (ExecTxRaw (recordSuccessTx input) w) as [[res|e1] w1] eqn:E1.
    + exfalso. revert E. unfold publishUsageEvent, writeAnalyticsRecord.
      edestruct notify_run as (w2 & -> & _). edestruct notify_run as (w3 & -> & _). done.
    + pose proof (ExecTxRaw_err (recordSuccessTx input) w e1 (f_equal fst E1)) as Hdb. rewrite E1 in Hdb.
      injection E as _ <-. exact Hdb.
Qed.

(** ** The small deployment, one reserved request later *)

Definition ex_pricing : ModelPricingVersion := mkModelPricingVersion 50%N 1%N 41%N 1 150 600 "active" 0 None 0.
Definition ex_meter_world : world :=
  let w := (Reserve ex_input ex_world).2 in
  set_db (set_model_pricing_versions (λ _, [ex_pricing]) (w_db w)) w.
Definition ex_service : Service := mkService true true true.
Definition ex_success : RecordSuccessInput :=
  mkRecordSuccessInput 3%N 1%N 2%N 40%N 41%N None "POST" "/v1/chat/completions" "gpt" "" 200 "" "" 12 None None None
    1000 100 0 0 ZeroTime ZeroTime.

Lemma ex_meter_ok : ledger_ok (w_db ex_meter_world).
Proof.
  unfold ex_meter_world. destruct (Reserve ex_input ex_world) as [r w'] eqn:E.
  apply Reserve_ledger in E as [_ Hok]; [|apply ex_sane]. by apply (ledger_ok_tables (w_db w')).
Qed.

Lemma ex_meter_refs : refs_ok (w_db ex_meter_world).
Proof. intros cr Hcr. vm_compute in Hcr. apply list_elem_of_singleton in Hcr as ->. vm_compute. by eexists. Qed.

Lemma RecordSuccess_exact_witness :
  let r := RecordSuccess ex_service ex_success ex_meter_world in
  is_ok r.1 = true ∧ map CostLimitCounter_SettledMicroUsd (w_db r.2).(cost_limit_counters) = [410; 410] ∧
  held_by 3%N (w_db r.2) = [].
Proof.
  intros r; subst r. destruct (RecordSuccess ex_service ex_success ex_meter_world).1 as [res|e] eqn:E;
    [|exfalso; vm_compute in E; discriminate].
  split; [reflexivity|]. split; [vm_compute; reflexivity|].
  apply (RecordSuccess_exact ex_service ex_success res ex_meter_world _ ex_meter_ok (run_eq _ _ E)).
Defined.

(** A second recording of the same request, after the first. *)
Lemma RecordSuccess_atomic_witness :
  let w := (RecordSuccess ex_service ex_success ex_meter_world).2 in
  (RecordSuccess ex_service ex_success w).1 = Err pg_unique_violation ∧
  w_db (RecordSuccess ex_service ex_success w).2 = w_db w.
Proof.
  intros w; subst w.
  assert (E : (RecordSuccess ex_service ex_success (RecordSuccess ex_service ex_success ex_meter_world).2).1 = Err pg_unique_violation)
    by (vm_compute; reflexivity).
  split; [exact E|]. exact (RecordSuccess_atomic _ _ _ _ E).
Defined.

Lemma charged_at_most_once_witness :
  let w := (RecordSuccess ex_service ex_success ex_meter_world).2 in
  length (w_db w).(request_logs) = 1%nat ∧ is_ok (RecordSuccess ex_service ex_success w).1 = false.
Proof.
  intros w; subst w. split; [vm_compute; reflexivity|].
  destruct (request_logs (w_db (RecordSuccess ex_service ex_success ex_meter_world).2)) as [|l ls] eqn:E;
    [exfalso; vm_compute in E; discriminate|].
  apply (charged_at_most_once ex_service ex_success _ l).
  - rewrite E. left.
  - vm_compute in E. injection E as <- _. reflexivity.
Defined.

Lemma RecordSuccess_drift_witness :
  let r := RecordSuccess ex_service ex_success ex_meter_world in
  is_ok r.1 = true ∧
  ∃ c c', c ∈ (w_db ex_meter_world).(cost_limit_counters) ∧ c' ∈ (w_db r.2).(cost_limit_counters) ∧
    c'.(CostLimitCounter_SettledMicroUsd) = 410 ∧ drift (w_db r.2) c' = drift (w_db ex_meter_world) c.
Proof.
  intros r; subst r. destruct (RecordSuccess ex_service ex_success ex_meter_world).1 as [res|e] eqn:E;
    [|exfalso; vm_compute in E; discriminate].
  split; [reflexivity|].
  destruct (cost_limit_counters (w_db ex_meter_world)) as [|c cs] eqn:Ec; [exfalso; vm_compute in Ec; discriminate|].
  destruct (cost_limit_counters (w_db (RecordSuccess ex_service ex_success ex_meter_world).2)) as [|c' cs'] eqn:Ec';
    [exfalso; vm_compute in Ec'; discriminate|].
  exists c, c'. split; [left|]. split; [left|].
  pose proof (RecordSuccess_drift ex_service ex_success res ex_meter_world _ c c' ex_meter_ok ex_meter_refs (run_eq _ _ E)) as H.
  rewrite Ec, Ec' in H. vm_compute in Ec, Ec', E. injection Ec as <- _. injection Ec' as <- _. injection E as <-.
  split; [reflexivity|]. rewrite H; [vm_compute; reflexivity|split; [reflexivity|left; reflexivity]|left|left|reflexivity].
Defined.

(** A request reserved before midnight and completed after it is settled on
    yesterday's counter although its cost is recorded today: yesterday's
    counter ends 210 above the recorded costs of its window. *)
Example midnight_settles_yesterday :
  let late := mkRecordSuccessInput 3%N 1%N 2%N 40%N 41%N None "POST" "/v1/chat/completions" "gpt" "" 200 "" "" 12
                None None None 1000 100 0 0 (Day + 12 * Hour) (2 * Day + 1) in
  let w := (RecordSuccess ex_service late ex_meter_world).2 in
  map (drift (w_db ex_meter_world)) (w_db ex_meter_world).(cost_limit_counters) = [0; 0] ∧
  map (drift (w_db w)) (w_db w).(cost_limit_counters) = [210; 210].
Proof. vm_compute. done. Qed.

End Metering.
