(* ===== verification/RateLimit.v ===== *)
(** * Rate limiting: [internal/ratelimit/redis_limiter.go]

    Requests of a key are counted per calendar minute in Redis. The Redis
    server is a map from keys to a counter and its expiry, read with the
    server's own clock; a call may be lost before or after the script runs. *)

From S2P Require Import Prelude GoTime Costing Store QuotaService.

Module RateLimit.

Definition defaultWindowTTL : Z := 2 * Minute.

(** The key [rl:api_key:<id>:minute:<n>] is its two parameters. *)
Definition redis_key : Type := uuid * Z.
Notation redis := (gmap redis_key (Z * Z)) (only parsing).

Record Decision := mkDecision {
  dec_Allowed : bool;
  dec_Limit : Z;
  dec_Remaining : Z;
  dec_ResetAt : Z;
  dec_Key : redis_key
}.

(** [incrementWithTTLScript]: [INCR], and [EXPIRE] on the first increment of a
    key that is absent or has expired. *)
Definition incrementWithTTL (key : redis_key) (ttlSeconds serverNow : Z) (r : redis) : Z * redis :=
  match r !! key with
  | Some (n, expires) =>
      if serverNow <? expires then (n + 1, <[key := (n + 1, expires)]> r)
      else (1, <[key := (1, serverNow + ttlSeconds * Second)]> r)
  | None => (1, <[key := (1, serverNow + ttlSeconds * Second)]> r)
  end.

(** How the script's call ends. *)
Inductive outcome := Answered | LostBefore | LostAfter.

Definition unixMinute (now : Z) : Z := Z.quot (Unix now) 60.

(** [math.Ceil(windowTTL.Seconds())], or the default when that is not positive. *)
Definition ttlSeconds (windowTTL : Z) : Z :=
  let ttl := - ((- windowTTL) / Second) in
  if ttl <=? 0 then Z.quot defaultWindowTTL Second else ttl.

(** [Allow] returns a decision and an error; [client] is [false] when the
    limiter has no Redis client. *)
Definition Allow (client : bool) (windowTTL : Z) (principal : APIKeyPrincipal) (now serverNow : Z) (o : outcome) (r : redis)
    : Decision * option err * redis :=
  let minute := unixMinute now in
  let key := (principal.(APIKeyID), minute) in
  let decision := mkDecision false principal.(RPMLimit) 0 ((minute + 1) * 60 * Second) key in
  if principal.(RPMLimit) <=? 0 then (decision, Some (EMsg "rpm_limit must be greater than zero"), r)
  else if negb client then (decision, Some (EMsg "redis limiter client is nil"), r)
  else
    match o with
    | LostBefore => (decision, Some EFault, r)
    | LostAfter => (decision, Some EFault, (incrementWithTTL key (ttlSeconds windowTTL) serverNow r).2)
    | Answered =>
        let '(count, r') := incrementWithTTL key (ttlSeconds windowTTL) serverNow r in
        let remaining := principal.(RPMLimit) -₆₄ count in
        let remaining := if remaining <? 0 then 0 else remaining in
        let remaining := if MaxInt32 <? remaining then MaxInt32 else remaining in
        (mkDecision (count <=? principal.(RPMLimit)) principal.(RPMLimit) (wrap32 remaining)
           ((minute + 1) * 60 * Second) key, None, r')
    end.

(** ** Sequences of calls *)

Record request := mkrequest { q_principal : APIKeyPrincipal; q_now : Z; q_server : Z; q_outcome : outcome }.

Fixpoint decisions (r : redis) (calls : list request) : list (Decision * option err) :=
  match calls with
  | [] => []
  | c :: calls' =>
      let '(d, e, r') := Allow true defaultWindowTTL c.(q_principal) c.(q_now) c.(q_server) c.(q_outcome) r in
      (d, e) :: decisions r' calls'
  end.

(** The calls of one key in one minute. *)
Definition in_minute (key : redis_key) (d : Decision * option err) : bool := bool_decide (d.1.(dec_Key) = key).
Definition of_key (key : redis_key) (c : request) : bool :=
  bool_decide ((c.(q_principal).(APIKeyID), unixMinute c.(q_now)) = key).

Lemma in_minute_self key a l m t e : in_minute key (mkDecision a l m t key, e) = true.
Proof. by apply bool_decide_eq_true. Qed.

(** The key has one positive [int32] limit, and the server's clock is within
    thirty seconds of the gateway's. *)
Definition regular (limit : Z) (c : request) : Prop :=
  c.(q_principal).(RPMLimit) = limit ∧ 0 < limit <= MaxInt32 ∧
  0 <= c.(q_now) ∧ Z.abs (c.(q_server) - c.(q_now)) <= 30 * Second.

(** After [n] counted calls the entry of [key] holds [n] and outlives the minute. *)
Definition counted (key : redis_key) (n : Z) (r : redis) : Prop :=
  match r !! key with
  | None => n = 0
  | Some (m, expires) => m = n ∧ 0 < n ∧ (key.2 * 60 + 90) * Second <= expires
  end.

Lemma minute_bounds now : 0 <= now → unixMinute now * 60 * Second <= now < (unixMinute now + 1) * 60 * Second.
Proof.
  intros H. unfold unixMinute, Unix, Second.
  pose proof (Z.div_mod now 1000000000). pose proof (Z.mod_pos_bound now 1000000000).
  pose proof (Z.quot_rem' (now / 1000000000) 60). pose proof (Z.rem_bound_pos (now / 1000000000) 60).
  assert (0 <= now / 1000000000) by (apply Z.div_pos; lia). lia.
Qed.

Lemma increment_counted key n limit c r :
  counted key n r → of_key key c = true → regular limit c →
  (incrementWithTTL key (ttlSeconds defaultWindowTTL) c.(q_server) r).1 = n + 1 ∧
  counted key (n + 1) (incrementWithTTL key (ttlSeconds defaultWindowTTL) c.(q_server) r).2.
Proof.
  intros Hn Hk (_ & _ & Hnow & Hskew). apply bool_decide_eq_true in Hk.
  pose proof (minute_bounds _ Hnow) as Hm. replace (unixMinute (q_now c)) with key.2 in Hm by (by rewrite <- Hk).
  assert (Httl : ttlSeconds defaultWindowTTL = 120) by (vm_compute; reflexivity).
  unfold incrementWithTTL. unfold counted in *. rewrite Httl.
  destruct (r !! key) as [[m e]|] eqn:E.
  - destruct Hn as (-> & Hpos & He). rewrite (proj2 (Z.ltb_lt _ _)) by (unfold Second in *; lia). cbn [fst snd].
    rewrite lookup_insert_eq. split; [done|]. split; [done|]. split; [lia|done].
  - subst n. cbn [fst snd]. rewrite lookup_insert_eq. split; [done|]. split; [done|]. split; [lia|]. unfold Second in *. lia.
Qed.

Lemma increment_other key key' ttl s r :
  key' ≠ key → (incrementWithTTL key' ttl s r).2 !! key = r !! key.
Proof.
  intros H. unfold incrementWithTTL. destruct (r !! key') as [[m e]|]; [destruct (s <? e)|]; cbn [fst snd]; by rewrite lookup_insert_ne.
Qed.

Lemma Allow_other key c r :
  of_key key c = false →
  let '(d, e, r') := Allow true defaultWindowTTL c.(q_principal) c.(q_now) c.(q_server) c.(q_outcome) r in
  in_minute key (d, e) = false ∧ r' !! key = r !! key.
Proof.
  intros Hk. apply bool_decide_eq_false in Hk. unfold Allow, in_minute. simpl.
  destruct (_ <=? 0); [split; [by apply bool_decide_eq_false|done]|].
  destruct (q_outcome c); simpl.
  - destruct (incrementWithTTL _ _ _ r) as [n r'] eqn:E. simpl. split; [by apply bool_decide_eq_false|].
    pose proof (increment_other key _ (ttlSeconds defaultWindowTTL) (q_server c) r Hk) as H. by rewrite E in H.
  - split; [by apply bool_decide_eq_false|done].
  - split; [by apply bool_decide_eq_false|]. by apply increment_other.
Qed.

Definition allowed (d : Decision * option err) : bool := d.1.(dec_Allowed).
Arguments allowed !_ /.

Lemma decisions_counted key limit calls n r :
  counted key n r → 0 <= n → (∀ c, c ∈ calls → of_key key c = true → regular limit c) →
  let ds := List.filter (in_minute key) (decisions r calls) in
  Z.of_nat (length (List.filter allowed ds)) <= Z.max 0 (limit - n) ∧
  ((∀ c, c ∈ calls → of_key key c = true → c.(q_outcome) = Answered) →
   map allowed ds = map (λ i, n + Z.of_nat i <? limit) (seq 0 (length (List.filter (of_key key) calls)))).
Proof.
  revert n r. induction calls as [|c calls IH]; intros n r Hn Hpos Hreg; simpl; [split; [lia|done]|].
  assert (Hreg' : ∀ c', c' ∈ calls → of_key key c' = true → regular limit c') by (intros c' Hc'; apply Hreg; by right).
  destruct (of_key key c) eqn:Hk.
  - pose proof (Hreg c ltac:(by left) Hk) as Hc. destruct (increment_counted key n limit c r Hn Hk Hc) as [H1 H2].
    destruct Hc as (Hl & Hlim & _ & _). pose proof Hk as Hk'. apply bool_decide_eq_true in Hk'.
    unfold Allow. rewrite Hk', Hl. rewrite (proj2 (Z.leb_gt _ _)) by lia. simpl.
    destruct (q_outcome c) eqn:Ho.
    + destruct (incrementWithTTL _ _ _ r) as [m r'] eqn:E. simpl in H1, H2. subst m. simpl.
      rewrite !in_minute_self. simpl.
      destruct (IH (n + 1) r' H2) as [IH1 IH2]; [lia|done|]. split.
      * destruct (Z.leb_spec (n + 1) limit); simpl; lia.
      * intros Ha.
        rewrite IH2 by (intros c' Hc'; apply Ha; by right).
        f_equal; [rewrite Z.add_0_r; destruct (Z.leb_spec (n + 1) limit), (Z.ltb_spec n limit); done || lia|].
        rewrite <- seq_shift, map_map. apply map_ext. intros i. f_equal. lia.
    + simpl. rewrite !in_minute_self. simpl.
      destruct (IH n r Hn Hpos Hreg') as [IH1 _]. split; [done|]. intros Ha.
      rewrite (Ha c ltac:(by left) Hk) in Ho. discriminate.
    + simpl. rewrite !in_minute_self. simpl.
      destruct (IH (n + 1) _ H2 ltac:(lia) Hreg') as [IH1 _]. split; [lia|]. intros Ha.
      rewrite (Ha c ltac:(by left) Hk) in Ho. discriminate.
  - pose proof (Allow_other key c r Hk) as Hother. destruct (Allow _ _ _ _ _ _ r) as [[d e] r'].
    destruct Hother as [Hd Hr]. simpl. rewrite Hd.
    assert (Hn' : counted key n r') by (unfold counted in *; by rewrite Hr).
    destruct (IH n r' Hn' Hpos Hreg') as [IH1 IH2]. split; [done|]. intros Ha. apply IH2.
    intros c' Hc'. apply Ha. by right.
Qed.

(** C39: in any sequence of calls of any keys, with any calls lost, at most
    [RPMLimit] requests of a key are allowed in a calendar minute; and when
    Redis answers every call of the key, exactly its first [RPMLimit] requests
    of the minute are. The two-minute expiry is long enough for a server clock
    thirty seconds off. *)
Theorem at_most_limit_per_minute (key : redis_key) (limit : Z) (calls : list request) (r : redis) :
  r !! key = None → (∀ c, c ∈ calls → of_key key c = true → regular limit c) →
  let ds := List.filter (in_minute key) (decisions r calls) in
  (Z.of_nat (length (List.filter allowed ds)) <= Z.max 0 limit) ∧
  ((∀ c, c ∈ calls → of_key key c = true → c.(q_outcome) = Answered) →
   map allowed ds = map (λ i, Z.of_nat i <? limit) (seq 0 (length (List.filter (of_key key) calls)))).
Proof.
  intros Hr Hreg. pose proof (decisions_counted key limit calls 0 r) as H. rewrite Z.sub_0_r in H.
  apply H; [unfold counted; by rewrite Hr|lia|done].
Qed.

Fixpoint after (r : redis) (calls : list request) : redis :=
  match calls with
  | [] => r
  | c :: calls' => after (Allow true defaultWindowTTL c.(q_principal) c.(q_now) c.(q_server) c.(q_outcome) r).2 calls'
  end.

(** A call of the key that reached Redis, so that it was counted: whether or not
    its answer came back. *)
Definition reached (key : redis_key) (c : request) : bool :=
  of_key key c && match c.(q_outcome) with LostBefore => false | _ => true end.

Lemma after_counted key limit calls n r :
  counted key n r → (∀ c, c ∈ calls → of_key key c = true → regular limit c) →
  counted key (n + Z.of_nat (length (List.filter (reached key) calls))) (after r calls).
Proof.
  revert n r. induction calls as [|c calls IH]; intros n r Hn Hreg; simpl; [by rewrite Z.add_0_r|].
  assert (Hreg' : ∀ c', c' ∈ calls → of_key key c' = true → regular limit c') by (intros c' Hc'; apply Hreg; by right).
  unfold reached at 1. destruct (of_key key c) eqn:Hk; simpl.
  - pose proof (Hreg c ltac:(by left) Hk) as Hc. destruct (increment_counted key n limit c r Hn Hk Hc) as [H1 H2].
    destruct Hc as (Hl & Hlim & _ & _). pose proof Hk as Hk'. apply bool_decide_eq_true in Hk'.
    unfold Allow. rewrite Hk', Hl, (proj2 (Z.leb_gt _ _)) by lia. simpl. destruct (q_outcome c); simpl.
    + destruct (incrementWithTTL _ _ _ r) as [m r']. simpl in *. replace (n + _) with (n + 1 + Z.of_nat (length (List.filter (reached key) calls))) by lia.
      by apply IH.
    + by apply IH.
    + replace (n + _) with (n + 1 + Z.of_nat (length (List.filter (reached key) calls))) by lia. by apply IH.
  - pose proof (Allow_other key c r Hk) as Hother. destruct (Allow _ _ _ _ _ _ r) as [[d e] r']. destruct Hother as [_ Hr]. simpl.
    apply IH; [|done]. revert Hn. unfold counted. by rewrite Hr.
Qed.

(** C40: throttling ends with the minute. In whatever sequence of calls of this
    and of other keys, however many refused and however many lost before or
    after they were counted: a call of the key that Redis answers is allowed
    exactly while fewer than [RPMLimit] calls of the key have reached Redis in
    the call's own minute, and what is left to it is the limit less those and
    itself; so the first call that reaches Redis in a new minute is allowed
    again, with the whole limit less one left. The minute ends within sixty
    seconds of the call, at the instant the decision names. *)
Theorem throttling_ends (key : redis_key) (limit : Z) (calls : list request) (c : request) :
  (∀ c', c' ∈ calls → of_key key c' = true → regular limit c') → Z.of_nat (length calls) < MaxInt64 - MaxInt32 →
  of_key key c = true → regular limit c → c.(q_outcome) = Answered →
  let n := Z.of_nat (length (List.filter (reached key) calls)) in
  (Allow true defaultWindowTTL c.(q_principal) c.(q_now) c.(q_server) c.(q_outcome) (after ∅ calls)).1 =
    (mkDecision (n <? limit) limit (Z.max 0 (limit - n - 1)) ((key.2 + 1) * 60 * Second) key, None) ∧
  c.(q_now) < (key.2 + 1) * 60 * Second <= c.(q_now) + 60 * Second.
Proof.
  intros Hcalls Hlen Hk Hreg Ho n.
  assert (Hn : counted key n (after ∅ calls)) by (apply (after_counted key limit calls 0 ∅); [by unfold counted; rewrite lookup_empty|done]).
  destruct (increment_counted key n limit c _ Hn Hk Hreg) as [H1 _].
  assert (Hle : 0 <= n <= Z.of_nat (length calls)) by (pose proof (filter_length_le (reached key) calls); lia).
  destruct Hreg as (Hl & Hlim & Hnow & _). pose proof Hk as Hk'. apply bool_decide_eq_true in Hk'.
  pose proof (minute_bounds _ Hnow) as Hm. assert (Hk2 : unixMinute (q_now c) = key.2) by (by rewrite <- Hk').
  rewrite Hk2 in Hm. split; [|unfold Second in *; lia].
  unfold Allow. rewrite Hk', Hk2, Hl, Ho, (proj2 (Z.leb_gt limit 0)) by lia. simpl.
  destruct (incrementWithTTL _ _ _ _) as [m r']. simpl in *. subst m. clear Hn Hm.
  rewrite wrap64_id by (unfold_ranges; lia).
  replace (n + 1 <=? limit) with (n <? limit) by (destruct (Z.ltb_spec n limit), (Z.leb_spec (n + 1) limit); done || lia).
  destruct (Z.ltb_spec (limit - (n + 1)) 0); rewrite (proj2 (Z.ltb_ge MaxInt32 _)) by (unfold_ranges; lia);
    rewrite wrap32_id by (unfold_ranges; lia); do 3 f_equal; lia.
Qed.

Definition ex_principal : APIKeyPrincipal := mkAPIKeyPrincipal 1%N 2%N [] 2.
Definition ex_calls : list request :=
  [mkrequest ex_principal (61 * Second) (61 * Second) Answered; mkrequest ex_principal (90 * Second) (100 * Second) Answered;
   mkrequest ex_principal (119 * Second) (119 * Second) Answered; mkrequest ex_principal (120 * Second) (120 * Second) Answered].

Lemma at_most_limit_per_minute_witness :
  map allowed (decisions ∅ ex_calls) = [true; true; false; true] ∧
  map allowed (List.filter (in_minute (2%N, 1)) (decisions ∅ ex_calls)) = [true; true; false].
Proof.
  split; [vm_compute; reflexivity|].
  assert (Hall : Forall (λ c, regular 2 c ∧ c.(q_outcome) = Answered) ex_calls)
    by (repeat constructor; vm_compute; congruence).
  rewrite List.Forall_forall in Hall.
  rewrite (proj2 (at_most_limit_per_minute (2%N, 1) 2 ex_calls ∅ (lookup_empty _)
    ltac:(intros c Hc _; by apply Hall, list_elem_of_In)) ltac:(intros c Hc _; by apply Hall, list_elem_of_In)).
  vm_compute. reflexivity.
Defined.

(** The limit of 2 is exhausted by two calls, one of which was lost after it was
    counted; the next minute starts anew. *)
Definition ex_lost : list request :=
  [mkrequest ex_principal (61 * Second) (61 * Second) LostAfter; mkrequest ex_principal (90 * Second) (100 * Second) Answered].

Lemma throttling_ends_witness :
  let ask now := mkrequest ex_principal now now Answered in
  (Allow true defaultWindowTTL ex_principal (119 * Second) (119 * Second) Answered (after ∅ ex_lost)).1 =
    (mkDecision false 2 0 (120 * Second) (2%N, 1), None) ∧
  (Allow true defaultWindowTTL ex_principal (120 * Second) (120 * Second) Answered (after ∅ (ex_lost ++ [ask (119 * Second)]))).1 =
    (mkDecision true 2 1 (180 * Second) (2%N, 2), None).
Proof.
  intros ask. assert (Hreg : Forall (regular 2) (ex_lost ++ [ask (119 * Second)])) by (repeat constructor; vm_compute; congruence).
  assert (H1 : ∀ c, c ∈ ex_lost → of_key (2%N, 1) c = true → regular 2 c).
  { intros c Hc _. rewrite List.Forall_forall in Hreg. apply Hreg, list_elem_of_In, elem_of_app. by left. }
  assert (H2 : ∀ c, c ∈ ex_lost ++ [ask (119 * Second)] → of_key (2%N, 2) c = true → regular 2 c).
  { intros c Hc _. rewrite List.Forall_forall in Hreg. by apply Hreg, list_elem_of_In. }
  split.
  - refine (proj1 (throttling_ends (2%N, 1) 2 ex_lost (ask (119 * Second)) H1 _ _ _ _)); [done|done| |done].
    repeat split; vm_compute; congruence.
  - refine (proj1 (throttling_ends (2%N, 2) 2 (ex_lost ++ [ask (119 * Second)]) (ask (120 * Second)) H2 _ _ _ _)); [done|done| |done].
    repeat split; vm_compute; congruence.
Defined.

End RateLimit.
