(* ===== verification/Rbac.v ===== *)
(** * Permissions: [internal/auth/rbac.go]

    Who may call which administrative route: a user by the role of the
    membership, a service token by its scopes, an API key by an exact scope. *)

From S2P Require Import Prelude GoStrings Costing Store QuotaService.

Module Rbac.

Definition ActorServiceToken : string := "service_token".
Definition ActorUser : string := "user".
Definition RoleOwner : string := "owner".
Definition RoleAdmin : string := "admin".
Definition RoleViewer : string := "viewer".
Definition AdminScopeAll : string := "admin:*".
Definition AdminScopeMembersManage : string := "admin:members:manage".
Definition AdminScopeMembersView : string := "admin:members:view".
Definition AdminScopeTokensManage : string := "admin:tokens:manage".
Definition AdminScopeConfigurationManage : string := "admin:configuration:manage".
Definition AdminScopeView : string := "admin:view".
Definition APIKeyScopeChatCompletions : string := "chat.completions".

Record AdminTokenPrincipal := mkAdminTokenPrincipal {
  at_OrgID : uuid;
  at_AdminTokenID : uuid;
  at_ActorType : string;
  at_Role : string;
  at_UserID : option uuid;
  at_MembershipID : option uuid;
  at_SessionID : option uuid;
  at_UserEmail : string;
  at_DisplayName : string;
  at_Scopes : list string
}.

Definition ValidRole (role : string) : bool :=
  String.eqb role RoleOwner || String.eqb role RoleAdmin || String.eqb role RoleViewer.

(** One scope of the list against the required one, both trimmed. *)
Definition scopeMatches (required scope : string) : bool :=
  let scope := TrimSpace scope in
  if String.eqb scope "" then false
  else if String.eqb scope "*" || String.eqb scope required then true
  else if HasSuffix scope "*" then
    let prefix := TrimSuffix scope "*" in
    negb (String.eqb prefix "") && HasPrefix required prefix
  else false.

Definition scopesAllow (scopes : list string) (required : string) : bool :=
  let required := TrimSpace required in
  if String.eqb required "" then false else existsb (scopeMatches required) scopes.

Definition IsServiceToken (p : AdminTokenPrincipal) : bool :=
  String.eqb p.(at_ActorType) "" || String.eqb p.(at_ActorType) ActorServiceToken.
Definition IsUser (p : AdminTokenPrincipal) : bool := String.eqb p.(at_ActorType) ActorUser.
Definition HasScope (p : AdminTokenPrincipal) (scope : string) : bool := scopesAllow p.(at_Scopes) scope.
Definition hasAnyScope (p : AdminTokenPrincipal) (scopes : list string) : bool := existsb (HasScope p) scopes.

Definition CanManageMembers (p : AdminTokenPrincipal) : bool :=
  if IsServiceToken p then HasScope p AdminScopeMembersManage else String.eqb p.(at_Role) RoleOwner.
Definition CanViewMembers (p : AdminTokenPrincipal) : bool :=
  if IsServiceToken p then hasAnyScope p [AdminScopeMembersView; AdminScopeMembersManage]
  else String.eqb p.(at_Role) RoleOwner || String.eqb p.(at_Role) RoleAdmin.
Definition CanManageTokens (p : AdminTokenPrincipal) : bool :=
  if IsServiceToken p then HasScope p AdminScopeTokensManage else String.eqb p.(at_Role) RoleOwner.
Definition CanManageConfiguration (p : AdminTokenPrincipal) : bool :=
  if IsServiceToken p then HasScope p AdminScopeConfigurationManage
  else String.eqb p.(at_Role) RoleOwner || String.eqb p.(at_Role) RoleAdmin.
Definition CanView (p : AdminTokenPrincipal) : bool :=
  if IsServiceToken p then HasScope p AdminScopeView
  else String.eqb p.(at_Role) RoleOwner || String.eqb p.(at_Role) RoleAdmin || String.eqb p.(at_Role) RoleViewer.

(** [APIKeyPrincipal.HasScope]: no wildcards. *)
Definition keyHasScope (p : APIKeyPrincipal) (scope : string) : bool :=
  let required := TrimSpace scope in
  if String.eqb required "" then false
  else existsb (λ item, String.eqb (TrimSpace item) required) p.(Scopes).

(** ** The meaning of a scope *)

(** A scope grants a permission by name, by [*], or by a non-empty prefix
    followed by [*]. *)
Definition grants (scope required : string) : Prop :=
  scope = "*" ∨ scope = required ∨ ∃ prefix rest, prefix ≠ "" ∧ scope = prefix +:+ "*" ∧ required = prefix +:+ rest.

Lemma scopeMatches_spec required scope :
  required ≠ "" → scopeMatches required scope = true ↔ grants (TrimSpace scope) required.
Proof.
  intros Hr. unfold scopeMatches, grants. set (s := TrimSpace scope).
  destruct (String.eqb_spec s "") as [E|E].
  { rewrite E. split; [done|]. intros [?|[?|(p & r & _ & H & _)]]; [done|congruence|]. by destruct p. }
  destruct (String.eqb_spec s "*") as [E1|E1]; [simpl; naive_solver|].
  destruct (String.eqb_spec s required) as [E2|E2]; [simpl; naive_solver|]. simpl.
  destruct (HasSuffix s "*") eqn:Es.
  - apply HasSuffix_spec in Es as [p Hp]. rewrite Hp at 1 2. rewrite TrimSuffix_app, andb_true_iff, negb_true_iff.
    rewrite String.eqb_neq, HasPrefix_spec. split.
    + intros [Hne [r Hrest]]. right. right. by exists p, r.
    + intros [?|[?|(p' & r & Hne & Hs & Hrest)]]; [done|done|].
      assert (p' = p) as ->; [|split; [done|by exists r]].
      rewrite <- (TrimSuffix_app "*" p'), <- (TrimSuffix_app "*" p). congruence.
  - split; [done|]. intros [?|[?|(p & r & Hne & Hs & _)]]; [done|done|].
    assert (HasSuffix s "*" = true) by (apply HasSuffix_spec; by exists p). congruence.
Qed.

Lemma scopesAllow_spec scopes required :
  scopesAllow scopes required = true ↔
  TrimSpace required ≠ "" ∧ ∃ s, s ∈ scopes ∧ grants (TrimSpace s) (TrimSpace required).
Proof.
  unfold scopesAllow. destruct (String.eqb_spec (TrimSpace required) "") as [E|E]; [naive_solver|].
  rewrite existsb_exists. split.
  - intros (s & Hs & Hm). split; [done|]. exists s. split; [by apply list_elem_of_In|]. by apply scopeMatches_spec.
  - intros (_ & s & Hs & Hm). exists s. split; [by apply list_elem_of_In|]. by apply scopeMatches_spec.
Qed.

(** A service token may do exactly what one of its trimmed scopes grants,
    by name, by [*] or by a prefix ending in [*]; adding scopes never takes a
    permission away, and [admin:*] gives every administrative one. *)
Theorem service_scopes (p : AdminTokenPrincipal) (scope : string) :
  (HasScope p scope = true ↔
   TrimSpace scope ≠ "" ∧ ∃ s, s ∈ p.(at_Scopes) ∧ grants (TrimSpace s) (TrimSpace scope)) ∧
  (∀ more, scopesAllow p.(at_Scopes) scope = true → scopesAllow (p.(at_Scopes) ++ more) scope = true) ∧
  (IsServiceToken p = true → AdminScopeAll ∈ p.(at_Scopes) →
   CanManageMembers p && CanViewMembers p && CanManageTokens p && CanManageConfiguration p && CanView p = true).
Proof.
  split; [apply scopesAllow_spec|]. split.
  - intros more. rewrite !scopesAllow_spec. intros (Hr & s & Hs & Hg). split; [done|]. exists s.
    split; [apply elem_of_app; by left|done].
  - intros Hp Hall. unfold CanManageMembers, CanViewMembers, CanManageTokens, CanManageConfiguration, CanView, hasAnyScope.
    rewrite Hp. assert (Hg : ∀ rest, TrimSpace ("admin:" +:+ rest) = "admin:" +:+ rest → HasScope p ("admin:" +:+ rest) = true).
    { intros rest Ht. apply scopesAllow_spec. rewrite Ht. split; [done|]. exists AdminScopeAll. split; [done|].
      right. right. exists "admin:", rest. done. }
    simpl. change AdminScopeMembersManage with ("admin:" +:+ "members:manage").
    change AdminScopeMembersView with ("admin:" +:+ "members:view").
    change AdminScopeTokensManage with ("admin:" +:+ "tokens:manage").
    change AdminScopeConfigurationManage with ("admin:" +:+ "configuration:manage").
    change AdminScopeView with ("admin:" +:+ "view"). by rewrite !Hg.
Qed.

(** Users are ranked: a permission of a role is kept by every higher role
    and no scope changes it; only owners manage members and tokens, viewers
    only read, and an unknown role may do nothing. *)
Theorem user_roles (p : AdminTokenPrincipal) :
  IsServiceToken p = false →
  (CanManageMembers p = CanManageTokens p) ∧
  (CanManageMembers p = true ↔ p.(at_Role) = RoleOwner) ∧
  (CanManageConfiguration p = CanViewMembers p) ∧
  (CanManageConfiguration p = true ↔ p.(at_Role) = RoleOwner ∨ p.(at_Role) = RoleAdmin) ∧
  (CanView p = true ↔ ValidRole p.(at_Role) = true).
Proof.
  intros Hp. unfold CanManageMembers, CanManageTokens, CanManageConfiguration, CanViewMembers, CanView, ValidRole.
  rewrite Hp. split; [done|]. split; [apply String.eqb_eq|]. split; [done|]. split; [|done].
  by rewrite orb_true_iff, !String.eqb_eq.
Qed.

Lemma user_roles_witness :
  let p := mkAdminTokenPrincipal 1%N 2%N "user" "admin" (Some 3%N) None None "a@b.c" "A" ["*"] in
  CanManageConfiguration p = true ∧ CanManageMembers p = false.
Proof.
  intros p. destruct (user_roles p eq_refl) as (_ & Hm & _ & Hc & _). split; [apply Hc; right; reflexivity|].
  destruct (CanManageMembers p) eqn:E; [|reflexivity]. pose proof (proj1 Hm eq_refl) as H. vm_compute in H. discriminate.
Defined.

Lemma service_scopes_witness :
  let p := mkAdminTokenPrincipal 1%N 2%N "" "" None None None "" "" [" admin:tokens:* "] in
  CanManageTokens p = true ∧ CanView p = false.
Proof.
  intros p. split; [|vm_compute; reflexivity].
  apply (proj2 (proj1 (service_scopes p AdminScopeTokensManage))). split; [vm_compute; discriminate|].
  exists " admin:tokens:* ". split; [left|]. right. right. exists "admin:tokens:", "manage".
  split; [discriminate|split; vm_compute; reflexivity].
Defined.

End Rbac.
