(* ===== verification/Encodings.v ===== *)
(** * Text encodings: [encoding/hex], [encoding/base64], decimal integers

    The parts of the Go library that the program's tokens, hashes and sealed
    secrets are written with: [hex.EncodeToString], [base64.StdEncoding] (with
    padding, line breaks ignored on input), [base64.RawURLEncoding], [%d] and
    [strconv.ParseInt(s, 10, 32)]. *)

From Stdlib Require Import Ascii String.
From S2P Require Import Prelude GoStrings.

(** ** Hexadecimal *)

Definition hexDigit (n : N) : ascii :=
  if (n <? 10)%N then ascii_of_N (48 + n) else ascii_of_N (87 + n).

Fixpoint hexEncode (s : string) : string :=
  match s with
  | EmptyString => EmptyString
  | String c s' => String (hexDigit (byte_of c / 16)) (String (hexDigit (byte_of c mod 16)) (hexEncode s'))
  end.

(** ** Base64 *)

(** The digits of an alphabet, the last two of which vary. *)
Definition b64digit (c62 c63 : ascii) (n : N) : ascii :=
  if (n <? 26)%N then ascii_of_N (65 + n)
  else if (n <? 52)%N then ascii_of_N (71 + n)
  else if (n <? 62)%N then ascii_of_N (n - 4)
  else if (n =? 62)%N then c62 else c63.

Definition stdDigit : N → ascii := b64digit "+" "/".
Definition urlDigit : N → ascii := b64digit "-" "_".

Definition stdValue (c : ascii) : option N :=
  let n := byte_of c in
  if in_bytes 65 90 c then Some (n - 65)%N
  else if in_bytes 97 122 c then Some (n - 71)%N
  else if in_bytes 48 57 c then Some (n + 4)%N
  else if is_byte 43 c then Some 62%N
  else if is_byte 47 c then Some 63%N
  else None.

(** Three bytes at a time; [tail1] and [tail2] end a last group of one or two. *)
Fixpoint b64encode (digit : N → ascii) (tail1 tail2 : string) (s : string) : string :=
  match s with
  | EmptyString => EmptyString
  | String x EmptyString =>
      let x := byte_of x in
      String (digit (x / 4)) (String (digit (x mod 4 * 16)) tail1)
  | String x (String y EmptyString) =>
      let x := byte_of x in let y := byte_of y in
      String (digit (x / 4)) (String (digit (x mod 4 * 16 + y / 16)) (String (digit (y mod 16 * 4)) tail2))
  | String x (String y (String z s')) =>
      let x := byte_of x in let y := byte_of y in let z := byte_of z in
      String (digit (x / 4)) (String (digit (x mod 4 * 16 + y / 16))
        (String (digit (y mod 16 * 4 + z / 64)) (String (digit (z mod 64)) (b64encode digit tail1 tail2 s'))))
  end%N.

Definition StdEncode (s : string) : string := b64encode stdDigit "==" "=" s.
Definition RawURLEncode (s : string) : string := b64encode urlDigit "" "" s.

Fixpoint dropLineBreaks (s : string) : string :=
  match s with
  | EmptyString => EmptyString
  | String c s' => if is_byte 10 c || is_byte 13 c then dropLineBreaks s' else String c (dropLineBreaks s')
  end.

Fixpoint stdDecodeGroups (s : string) : option string :=
  match s with
  | EmptyString => Some EmptyString
  | String a (String b (String c (String d s'))) =>
      a' ← stdValue a;
      b' ← stdValue b;
      let first := ascii_of_N (a' * 4 + b' / 16) in
      if is_byte 61 d then
        match s' with
        | EmptyString =>
            if is_byte 61 c then Some (String first "")
            else c' ← stdValue c; Some (String first (String (ascii_of_N (b' mod 16 * 16 + c' / 4)) ""))
        | _ => None
        end
      else
        c' ← stdValue c;
        d' ← stdValue d;
        rest ← stdDecodeGroups s';
        Some (String first (String (ascii_of_N (b' mod 16 * 16 + c' / 4))
                (String (ascii_of_N (c' mod 4 * 64 + d')) rest)))
  | _ => None
  end%N.

Definition StdDecode (s : string) : option string := stdDecodeGroups (dropLineBreaks s).

(** ** Decimal integers *)

Definition decChar (d : Z) : ascii := ascii_of_N (48 + Z.to_N d).

(** The digits of [n] before [acc]; [fuel] bounds their number. *)
Fixpoint formatDigits (fuel : nat) (n : Z) (acc : string) : string :=
  match fuel with
  | O => acc
  | S fuel' =>
      let acc' := String (decChar (n mod 10)) acc in
      if n <? 10 then acc' else formatDigits fuel' (n / 10) acc'
  end.

(** [%d] of an [int32] or [int64]: at most 19 digits. *)
Definition formatInt (n : Z) : string :=
  if n <? 0 then String "-" (formatDigits 19 (- n) "") else formatDigits 19 n "".

Definition decDigit (c : ascii) : option Z :=
  if in_bytes 48 57 c then Some (Z.of_N (byte_of c) - 48) else None.

Fixpoint parseDigits (acc : Z) (s : string) : option Z :=
  match s with
  | EmptyString => Some acc
  | String c s' => d ← decDigit c; parseDigits (acc * 10 + d) s'
  end.

(** [strconv.ParseInt(s, 10, 32)]: an optional sign, digits, in range. *)
Definition ParseInt32 (s : string) : option Z :=
  let '(sign, digits) := match s with
                         | String "-" s' => (-1, s')
                         | String "+" s' => (1, s')
                         | _ => (1, s)
                         end in
  match digits with
  | EmptyString => None
  | _ =>
      n ← parseDigits 0 digits;
      let v := sign * n in
      if (MinInt32 <=? v) && (v <=? MaxInt32) then Some v else None
  end.

Example std_encode_hello : StdEncode "hello" = "aGVsbG8=" ∧ StdDecode "aGVs
bG8=" = Some "hello".
Proof. vm_compute. done. Qed.
Example parse_int : ParseInt32 "-12" = Some (-12) ∧ ParseInt32 "2147483648" = None ∧ formatInt 120 = "120".
Proof. vm_compute. done. Qed.

(** ** Laws *)

(** [all_bytes p s]: every byte of [s] satisfies [p]. *)
Fixpoint all_bytes (p : ascii → bool) (s : string) : bool :=
  match s with
  | EmptyString => true
  | String c s' => p c && all_bytes p s'
  end.

Lemma all_bytes_impl (p q : ascii → bool) s :
  (∀ c, p c = true → q c = true) → all_bytes p s = true → all_bytes q s = true.
Proof. intros H. induction s as [|c s IH]; simpl; [done|]. rewrite !andb_true_iff. naive_solver. Qed.

Lemma all_bytes_app p a b : all_bytes p (a +:+ b) = all_bytes p a && all_bytes p b.
Proof. induction a as [|c a IH]; [done|]. rewrite string_app_cons. cbn [all_bytes]. by rewrite IH, andb_assoc. Qed.

Lemma all_bytes_rev p s : all_bytes p (revString s) = all_bytes p s.
Proof.
  induction s as [|c s IH]; [done|]. rewrite revString_cons, all_bytes_app, IH. simpl.
  by rewrite andb_true_r, andb_comm.
Qed.

(** Visible ASCII. *)
Definition printable (c : ascii) : bool := in_bytes 33 126 c.

Lemma printable_not_space c : printable c = true → ascii_space c = false.
Proof.
  unfold printable, ascii_space, in_bytes, is_byte. intros [H1 H2]%andb_true_iff.
  apply N.leb_le in H1, H2. rewrite orb_false_iff, andb_false_iff, N.leb_gt, N.leb_gt, N.eqb_neq. lia.
Qed.

Lemma printable_not_space2 a b : printable a = true → space2 a b = false ∧ space2 b a = false.
Proof.
  unfold printable, space2, in_bytes, is_byte. intros [H1 H2]%andb_true_iff. apply N.leb_le in H1, H2.
  split; rewrite andb_false_iff, ?orb_false_iff, !N.eqb_neq; lia.
Qed.

Lemma printable_not_space3 a b c :
  printable a = true → printable c = true → space3 a b c = false ∧ space3 c b a = false.
Proof.
  unfold printable, space3, in_bytes, is_byte. rewrite !andb_true_iff, !N.leb_le. intros Ha Hc.
  rewrite !(proj2 (N.eqb_neq (byte_of a) _)) by lia.
  by rewrite !(proj2 (N.eqb_neq (byte_of c) _)) by lia.
Qed.

Lemma trimSpaceLeft_printable s : all_bytes printable s = true → trimSpaceLeft s = s.
Proof.
  destruct s as [|a s]; [done|]. cbn [all_bytes trimSpaceLeft]. intros [Ha H]%andb_true_iff.
  rewrite printable_not_space by done. destruct s as [|b s]; [done|].
  rewrite (proj1 (printable_not_space2 a b Ha)). destruct s as [|c s]; [done|].
  cbn in H. rewrite !andb_true_iff in H. by rewrite (proj1 (printable_not_space3 a b c Ha ltac:(tauto))).
Qed.

Lemma trimSpaceLeft_rev_printable s : all_bytes printable s = true → trimSpaceLeft_rev s = s.
Proof.
  destruct s as [|a s]; [done|]. cbn [all_bytes trimSpaceLeft_rev]. intros [Ha H]%andb_true_iff.
  rewrite printable_not_space by done. destruct s as [|b s]; [done|].
  rewrite (proj2 (printable_not_space2 a b Ha)). destruct s as [|c s]; [done|].
  cbn in H. rewrite !andb_true_iff in H. by rewrite (proj2 (printable_not_space3 a b c Ha ltac:(tauto))).
Qed.

Lemma TrimSpace_printable s : all_bytes printable s = true → TrimSpace s = s.
Proof.
  intros H. unfold TrimSpace, trimSpaceRight. rewrite trimSpaceLeft_printable by done.
  rewrite trimSpaceLeft_rev_printable by by rewrite all_bytes_rev. apply revString_involutive.
Qed.

Lemma byte_lt c : (byte_of c < 256)%N.
Proof. apply N_ascii_bounded. Qed.

Lemma byte_of_ascii n : (n < 256)%N → byte_of (ascii_of_N n) = n.
Proof. apply N_ascii_embedding. Qed.

Lemma ascii_of_byte c : ascii_of_N (byte_of c) = c.
Proof. apply ascii_N_embedding. Qed.

(** A fact about the numbers below [k], checked on each of them. *)
Definition below (k : N) (p : N → bool) : bool := forallb p (map N.of_nat (seq 0 (N.to_nat k))).

Lemma below_spec k p n : below k p = true → (n < k)%N → p n = true.
Proof.
  intros H Hn. unfold below in H. rewrite forallb_forall in H. apply H, in_map_iff.
  exists (N.to_nat n). split; [lia|]. apply in_seq. lia.
Qed.

Lemma hexDigit_printable n : (n < 16)%N → printable (hexDigit n) = true.
Proof. apply (below_spec 16 (λ n, printable (hexDigit n))). by vm_compute. Qed.

Lemma hexDigit_inj m n : (m < 16)%N → (n < 16)%N → hexDigit m = hexDigit n → m = n.
Proof.
  intros Hm Hn. assert (H : below 16 (λ m, below 16 (λ n, negb (Ascii.eqb (hexDigit m) (hexDigit n)) || (m =? n)%N)) = true)
    by by vm_compute.
  pose proof (below_spec _ _ _ (below_spec _ _ _ H Hm) Hn) as H'. cbn beta in H'. intros He.
  rewrite He, Ascii.eqb_refl in H'. by apply N.eqb_eq.
Qed.

Lemma nibbles c : (byte_of c / 16 < 16 ∧ byte_of c mod 16 < 16)%N.
Proof. pose proof (byte_lt c). split; [apply N.Div0.div_lt_upper_bound; lia|apply N.mod_lt; lia]. Qed.

Lemma hexEncode_inj a b : hexEncode a = hexEncode b → a = b.
Proof.
  revert b. induction a as [|c a IH]; intros [|d b]; try done. cbn. intros [= H1 H2 H].
  apply hexDigit_inj in H1; [|apply nibbles..]. apply hexDigit_inj in H2; [|apply nibbles..].
  f_equal; [|by apply IH]. rewrite <- (ascii_of_byte c), <- (ascii_of_byte d). f_equal.
  rewrite (N.div_mod (byte_of c) 16), (N.div_mod (byte_of d) 16) by done. congruence.
Qed.

Lemma hexEncode_printable s : all_bytes printable (hexEncode s) = true.
Proof.
  induction s as [|c s IH]; [done|]. cbn. rewrite IH.
  by rewrite !hexDigit_printable by apply nibbles.
Qed.

Lemma hexDigit_colon n : (n < 16)%N → negb (is_byte 58 (hexDigit n)) = true.
Proof. apply (below_spec 16 (λ n, negb (is_byte 58 (hexDigit n)))). by vm_compute. Qed.

Lemma hexEncode_colon s : all_bytes (λ c, negb (is_byte 58 c)) (hexEncode s) = true.
Proof. induction s as [|c s IH]; [done|]. cbn. rewrite IH. by rewrite !hexDigit_colon by apply nibbles. Qed.

(** The bytes of a token or of a base64 text: visible, and no colon. *)
Definition tokenByte (c : ascii) : bool := printable c && negb (is_byte 58 c).

Lemma tokenByte_printable s : all_bytes tokenByte s = true → all_bytes printable s = true.
Proof. apply all_bytes_impl. unfold tokenByte. intros c. by rewrite andb_true_iff; intros []. Qed.

(** Quotient and remainder of [a * k + r]. *)
Lemma div_mod_add (k a r : N) : (r < k → (a * k + r) / k = a ∧ (a * k + r) mod k = r)%N.
Proof.
  intros H. split; symmetry; [apply (N.div_unique _ _ _ r)|apply (N.mod_unique _ _ a)]; lia.
Qed.

Lemma div_mod_byte (k x : N) : (k ≠ 0 → ∃ q r, x / k = q ∧ x mod k = r ∧ x = q * k + r ∧ r < k)%N.
Proof.
  intros H. exists (x / k)%N, (x mod k)%N. split_and!; [done..| |by apply N.mod_lt].
  rewrite N.mul_comm. by apply N.div_mod.
Qed.

Ltac split_byte k x :=
  let q := fresh "q" in let r := fresh "r" in let E1 := fresh in let E2 := fresh in
  destruct (div_mod_byte k x) as (q & r & E1 & E2 & ? & ?); [done|]; rewrite ?E1, ?E2; clear E1 E2.
Ltac split_bytes x y z := split_byte 4%N x; split_byte 16%N y; split_byte 64%N z.

(** The digits of a group, as arithmetic on its bytes. *)
Lemma b64_digits x y z : (x < 256 → y < 256 → z < 256 →
  x / 4 < 64 ∧ x mod 4 * 16 < 64 ∧ x mod 4 * 16 + y / 16 < 64 ∧ y mod 16 * 4 < 64 ∧
  y mod 16 * 4 + z / 64 < 64 ∧ z mod 64 < 64)%N.
Proof.
  intros. split_bytes x y z. split_and!; lia.
Qed.

Lemma b64_bytes x y z : (x < 256 → y < 256 → z < 256 →
  let b := x mod 4 * 16 + y / 16 in let c := y mod 16 * 4 + z / 64 in
  x / 4 * 4 + b / 16 = x ∧ x / 4 * 4 + x mod 4 * 16 / 16 = x ∧
  b mod 16 * 16 + c / 4 = y ∧ b mod 16 * 16 + y mod 16 * 4 / 4 = y ∧ c mod 4 * 64 + z mod 64 = z)%N.
Proof.
  intros. subst b c. split_bytes x y z.
  repeat match goal with
  | |- context [((?a * ?k + ?r) / ?k)%N] => rewrite (proj1 (div_mod_add k a r ltac:(lia)))
  | |- context [((?a * ?k + ?r) mod ?k)%N] => rewrite (proj2 (div_mod_add k a r ltac:(lia)))
  end.
  rewrite !N.div_mul by done. split_and!; lia.
Qed.

Section b64.
Context (digit : N → ascii) (tail1 tail2 : string) (p : ascii → bool).
Hypothesis Hdigit : below 64 (λ n, p (digit n)) = true.
Hypothesis Htail1 : all_bytes p tail1 = true.
Hypothesis Htail2 : all_bytes p tail2 = true.

Lemma b64encode_bytes s : all_bytes p (b64encode digit tail1 tail2 s) = true.
Proof.
  assert (Hd : ∀ n, (n < 64)%N → p (digit n) = true) by (intros n; by apply (below_spec 64 (λ n, p (digit n)))).
  induction s as [s IH] using string_len_ind.
  destruct s as [|x [|y [|z s]]]; [done|..]; cbn [b64encode all_bytes].
  - destruct (b64_digits (byte_of x) 0 0) as (? & ? & ?); [apply byte_lt|lia..|]. by rewrite !Hd, Htail1 by tauto.
  - destruct (b64_digits (byte_of x) (byte_of y) 0) as (? & ? & ? & ? & ?); [apply byte_lt..|lia|].
    by rewrite !Hd, Htail2 by tauto.
  - destruct (b64_digits (byte_of x) (byte_of y) (byte_of z)) as (? & ? & ? & ? & ? & ?); [apply byte_lt..|].
    rewrite !Hd by tauto. apply IH. simpl. lia.
Qed.
End b64.

Lemma StdEncode_bytes s : all_bytes tokenByte (StdEncode s) = true.
Proof. apply b64encode_bytes; by vm_compute. Qed.

Lemma RawURLEncode_bytes s : all_bytes tokenByte (RawURLEncode s) = true.
Proof. apply b64encode_bytes; by vm_compute. Qed.

Lemma stdValue_digit n : (n < 64)%N → stdValue (stdDigit n) = Some n.
Proof.
  intros Hn. assert (H : below 64 (λ n, bool_decide (stdValue (stdDigit n) = Some n)) = true) by by vm_compute.
  by apply (below_spec _ _ _ H), bool_decide_eq_true in Hn.
Qed.

Lemma stdDigit_plain n : (n < 64)%N → is_byte 61 (stdDigit n) = false.
Proof.
  intros Hn. assert (H : below 64 (λ n, negb (is_byte 61 (stdDigit n))) = true) by by vm_compute.
  by apply (below_spec _ _ _ H), negb_true_iff in Hn.
Qed.

Lemma stdDecodeGroups_encode s : stdDecodeGroups (StdEncode s) = Some s.
Proof.
  unfold StdEncode. induction s as [s IH] using string_len_ind.
  destruct s as [|x [|y [|z s]]]; [done|..]; cbn [b64encode stdDecodeGroups].
  - destruct (b64_digits (byte_of x) 0 0) as (? & ? & ?); [apply byte_lt|lia..|].
    destruct (b64_bytes (byte_of x) 0 0) as (? & E & ?); [apply byte_lt|lia..|].
    rewrite !stdValue_digit by done. simpl. by rewrite E, ascii_of_byte.
  - destruct (b64_digits (byte_of x) (byte_of y) 0) as (? & ? & ? & ? & ?); [apply byte_lt..|lia|].
    destruct (b64_bytes (byte_of x) (byte_of y) 0) as (E1 & _ & _ & E2 & _); [apply byte_lt..|lia|].
    rewrite !stdValue_digit by done. simpl. rewrite stdDigit_plain by done. by rewrite E1, E2, !ascii_of_byte.
  - destruct (b64_digits (byte_of x) (byte_of y) (byte_of z)) as (? & ? & ? & ? & ? & ?); [apply byte_lt..|].
    destruct (b64_bytes (byte_of x) (byte_of y) (byte_of z)) as (E1 & _ & E2 & _ & E3); [apply byte_lt..|].
    rewrite !stdValue_digit by done. simpl. rewrite stdDigit_plain by done.
    rewrite IH by (simpl; lia). simpl. by rewrite E1, E2, E3, !ascii_of_byte.
Qed.

Lemma dropLineBreaks_printable s : all_bytes printable s = true → dropLineBreaks s = s.
Proof.
  induction s as [|c s IH]; [done|]. cbn [all_bytes dropLineBreaks]. intros [Hc H]%andb_true_iff.
  rewrite IH by done. unfold printable, in_bytes in Hc. rewrite andb_true_iff, !N.leb_le in Hc.
  unfold is_byte. by rewrite !(proj2 (N.eqb_neq _ _)) by lia.
Qed.

(** Decoding undoes encoding. *)
Lemma StdDecode_encode s : StdDecode (StdEncode s) = Some s.
Proof.
  unfold StdDecode. rewrite dropLineBreaks_printable by apply tokenByte_printable, StdEncode_bytes.
  apply stdDecodeGroups_encode.
Qed.

Lemma StdEncode_nonempty s : s ≠ "" → StdEncode s ≠ "".
Proof. intros Hs He. pose proof (StdDecode_encode s) as H. rewrite He in H. by injection H as <-. Qed.

Lemma decDigit_char d : 0 <= d < 10 → decDigit (decChar d) = Some d.
Proof.
  intros H. unfold decDigit, decChar, in_bytes. rewrite byte_of_ascii by lia.
  rewrite !(proj2 (N.leb_le _ _)) by lia. simpl. f_equal. lia.
Qed.

Lemma parseDigits_format fuel n acc :
  0 <= n < 10 ^ Z.of_nat fuel → parseDigits 0 (formatDigits fuel n acc) = parseDigits n acc.
Proof.
  revert n acc. induction fuel as [|fuel IH]; intros n acc H.
  { simpl in *. by replace n with 0 by lia. }
  rewrite Nat2Z.inj_succ, Z.pow_succ_r in H by lia. cbn [formatDigits].
  assert (Hm : 0 <= n mod 10 < 10) by (apply Z.mod_pos_bound; lia).
  assert (Hs : ∀ k, parseDigits k (String (decChar (n mod 10)) acc) = parseDigits (k * 10 + n mod 10) acc)
    by (intros k; simpl; by rewrite decDigit_char).
  destruct (Z.ltb_spec n 10).
  - rewrite Hs. f_equal. rewrite Z.mod_small; lia.
  - rewrite IH, Hs by (split; [apply Z.div_pos; lia|apply Z.div_lt_upper_bound; lia]).
    f_equal. pose proof (Z.div_mod n 10). lia.
Qed.

Lemma formatDigits_digits (p : ascii → bool) fuel n acc :
  (∀ d, 0 <= d < 10 → p (decChar d) = true) → all_bytes p acc = true →
  all_bytes p (formatDigits fuel n acc) = true.
Proof.
  intros Hp. revert n acc. induction fuel as [|fuel IH]; intros n acc Ha; [done|]. cbn [formatDigits].
  assert (Hd : all_bytes p (String (decChar (n mod 10)) acc) = true).
  { simpl. rewrite Hp; [done|]. apply Z.mod_pos_bound. lia. }
  destruct (n <? 10); [done|by apply IH].
Qed.
