(* ===== verification/Tokens.v ===== *)
(** * Tokens: [internal/auth/token_hash.go] and the helpers of [admin_token_service.go]

    How a bearer token is drawn, shown, hashed under a key ring and looked up
    again. [crypto/hmac], [crypto/rand] and the iteration order of a Go map are
    the class [Runtime]; no law constrains them beyond the length of what is
    drawn and that a [range] visits every key once. *)

From Stdlib Require Import Ascii.
From S2P Require Import Prelude GoStrings Encodings Costing Store.

Class Runtime := {
  hmac_sha256 : string → string → string;      (** key and message *)
  random_bytes : nat → nat → string;           (** the n-th draw, and its length *)
  random_bytes_length k n : String.length (random_bytes k n) = n;
  map_order : nat → list Z → list Z;           (** the order of the n-th iteration *)
  map_order_perm k l : map_order k l ≡ₚ l;
  unicode_lower : string → string;             (** [strings.ToLower] outside ASCII *)
  pg_lower : string → string;                  (** PostgreSQL's [lower] outside ASCII *)
  url_set_query : string → string → string → string  (** a URL with one query parameter set, by [net/url] *)
}.

(** The idealisation of a collision-free keyed hash. *)
Class PerfectHMAC `{Runtime} : Prop :=
  hmac_inj k m k' m' : hmac_sha256 k m = hmac_sha256 k' m' → k = k' ∧ m = m'.

Definition asciiLower (c : ascii) : ascii := if in_bytes 65 90 c then ascii_of_N (byte_of c + 32) else c.

Fixpoint mapBytes (f : ascii → ascii) (s : string) : string :=
  match s with EmptyString => EmptyString | String c s' => String (f c) (mapBytes f s') end.

Definition is_ascii (s : string) : bool := all_bytes (in_bytes 0 127) s.

Section runtime.
Context `{Runtime}.

(** [strings.ToLower] and PostgreSQL's [lower]. *)
Definition ToLower (s : string) : string := if is_ascii s then mapBytes asciiLower s else unicode_lower s.
Definition sql_lower (s : string) : string := if is_ascii s then mapBytes asciiLower s else pg_lower s.

(** The number of the next draw. *)
Definition draw : M nat := λ w, (Ok w.(w_fresh), set_fresh (S w.(w_fresh)) w).

(** [rand.Read]: may fail; otherwise the next bytes. *)
Definition rand_Read (n : nat) : M string :=
  _ ← call;
  k ← draw;
  mret (random_bytes k n).

(** The entries of [m] whose keys are listed. *)
Definition rows {A} (m : gmap Z A) (l : list Z) : list (Z * A) := omap (λ v, pair v <$> m !! v) l.

(** [for k, v := range m]. *)
Definition range {A} (m : gmap Z A) : M (list (Z * A)) :=
  k ← draw;
  mret (rows m (map_order k (map fst (map_to_list m)))).

(** ** The key ring *)

Record TokenHasher := mkTokenHasher { secret : string }.

Definition hash (h : TokenHasher) (token : string) : string := hexEncode (hmac_sha256 h.(secret) token).

Record TokenHashKeyRing := mkTokenHashKeyRing {
  activeVersion : Z;
  hashers : gmap Z TokenHasher
}.

Definition NewTokenHashKeyRing (version : Z) (secrets : gmap Z string) : M TokenHashKeyRing :=
  if version <=? 0 then fail (EMsg "active token hash secret version must be greater than 0")
  else if (size secrets =? 0)%nat then fail (EMsg "token hash keyring must contain at least one secret")
  else
    items ← range secrets;
    hs ← forM items ∅ (λ (hs : gmap Z TokenHasher) '(v, s),
      if v <=? 0 then fail (EMsg "token hash secret version must be greater than 0")
      else if String.eqb s "" then fail (EMsg "token hash secret version is empty")
      else mret (<[v := mkTokenHasher s]> hs));
    match hs !! version with
    | None => fail (EMsg "active token hash secret version is not present in keyring")
    | Some _ => mret (mkTokenHashKeyRing version hs)
    end.

Definition NewSingleTokenHashKeyRing (s : string) : M TokenHashKeyRing :=
  NewTokenHashKeyRing 1 {[1 := s]}.

(** A version that is not in the map reads as the zero [TokenHasher]. *)
Definition activeHasher (r : TokenHashKeyRing) : TokenHasher :=
  default (mkTokenHasher "") (r.(hashers) !! r.(activeVersion)).

Definition Hash (r : TokenHashKeyRing) (token : string) : string := hash (activeHasher r) token.

Definition CandidateHashes (r : TokenHashKeyRing) (token : string) : M (list string) :=
  items ← range r.(hashers);
  mret (map (λ '(_, h), hash h token) items).

Definition Matches (r : TokenHashKeyRing) (token storedHash : string) : M bool :=
  candidates ← CandidateHashes r token;
  mret (existsb (λ c, String.eqb c storedHash) candidates).

(** ** Tokens *)

Definition tokenRandomBytes : nat := 32.
Definition tokenPrefixSuffixLen : nat := 8.

Definition generateToken (prefix : string) : M string :=
  random ← rand_Read tokenRandomBytes;
  mret (prefix +:+ RawURLEncode random).

Definition visibleCredentialPrefix (token plainPrefix : string) : string :=
  let maxLen := (String.length plainPrefix + tokenPrefixSuffixLen)%nat in
  if (String.length token <=? maxLen)%nat then token else String.substring 0 maxLen token.

(** The loop of every [Authenticate] over the candidate hashes. *)
Fixpoint firstByHash {R} (get : string → M R) (hashes : list string) : M (option R) :=
  match hashes with
  | [] => mret None
  | h :: rest =>
      r ← try (get h);
      match r with
      | Ok item => mret (Some item)
      | Err ENoRows => firstByHash get rest
      | Err e => fail e
      end
  end.

(** ** Scopes *)

(** The loop over the requested scopes: trimmed, known, each kept once. *)
Fixpoint dedupScopes (allowed : list string) (unsupported : err) (scopes : list string)
    (seen : gset string) : result (list string) :=
  match scopes with
  | [] => Ok []
  | scope :: rest =>
      let scope := TrimSpace scope in
      if negb (existsb (String.eqb scope) allowed) then Err unsupported
      else if bool_decide (scope ∈ seen) then dedupScopes allowed unsupported rest seen
      else
        normalized ← dedupScopes allowed unsupported rest ({[scope]} ∪ seen);
        Ok (scope :: normalized)
  end.

(** ** Laws *)

Lemma rows_all {A} (m : gmap Z A) : rows m (map fst (map_to_list m)) = map_to_list m.
Proof.
  unfold rows. assert (Hall : ∀ p, p ∈ map_to_list m → m !! p.1 = Some p.2)
    by (intros [k v]; apply elem_of_map_to_list).
  induction (map_to_list m) as [|[k v] l IH]; [done|]. simpl.
  pose proof (Hall (k, v) ltac:(by left)) as Hk. simpl in Hk. rewrite Hk. simpl. f_equal.
  apply IH. intros p Hp. apply Hall. by right.
Qed.

Lemma omap_perm {A B} (f : A → option B) l l' : l ≡ₚ l' → omap f l ≡ₚ omap f l'.
Proof. intros H'. by rewrite H'. Qed.

(** An iteration never fails, moves only the supply of draws, and visits every
    entry once. *)
Lemma range_run {A} (m : gmap Z A) w :
  ∃ l, range m w = (Ok l, set_fresh (S w.(w_fresh)) w) ∧ l ≡ₚ map_to_list m.
Proof.
  eexists. split; [reflexivity|]. etrans; [apply omap_perm, map_order_perm|].
  by rewrite <- (rows_all m) at 2.
Qed.

Lemma CandidateHashes_run r token w :
  ∃ l, CandidateHashes r token w = (Ok l, set_fresh (S w.(w_fresh)) w) ∧
    ∀ h, h ∈ l ↔ ∃ v k, r.(hashers) !! v = Some k ∧ h = hash k token.
Proof.
  destruct (range_run r.(hashers) w) as (l & Hr & Hl). eexists. split.
  { unfold CandidateHashes, mbind, M_bind. by rewrite Hr. }
  intros h. rewrite list_elem_of_In, in_map_iff. setoid_rewrite <- list_elem_of_In. split.
  - intros ([v k] & <- & Hin). rewrite Hl in Hin. apply elem_of_map_to_list in Hin. eauto.
  - intros (v & k & Hv & ->). exists (v, k). split; [done|]. rewrite Hl. by apply elem_of_map_to_list.
Qed.

(** [secrets_of r] are the secrets a ring accepts. *)
Definition accepts (r : TokenHashKeyRing) (s : string) : Prop :=
  ∃ v, r.(hashers) !! v = Some (mkTokenHasher s).

#[export] Instance TokenHasher_eq_dec : EqDecision TokenHasher.
Proof. solve_decision. Defined.

Definition acceptsb (r : TokenHashKeyRing) (s : string) : bool :=
  existsb (λ '(_, h), String.eqb h.(secret) s) (map_to_list r.(hashers)).

Lemma acceptsb_spec r s : acceptsb r s = true ↔ accepts r s.
Proof.
  unfold acceptsb, accepts. rewrite existsb_exists. setoid_rewrite <- list_elem_of_In. split.
  - intros ([v h] & Hin & He). apply elem_of_map_to_list in Hin. apply String.eqb_eq in He.
    exists v. rewrite Hin. by destruct h; simpl in *; subst.
  - intros (v & Hv). exists (v, mkTokenHasher s). split; [by apply elem_of_map_to_list|]. apply String.eqb_refl.
Qed.

(** With a collision-free hash, a stored hash is a candidate exactly when it
    was made from this token under a secret of the ring. *)
Lemma candidate_iff `{!PerfectHMAC} r token s t :
  (∃ v k, r.(hashers) !! v = Some k ∧ hash (mkTokenHasher s) t = hash k token) ↔ accepts r s ∧ t = token.
Proof.
  split.
  - intros (v & k & Hv & He). apply hexEncode_inj, hmac_inj in He as [Hs Ht]. simpl in Hs.
    split; [|done]. exists v. by rewrite Hv; destruct k; simpl in *; subst.
  - intros [[v Hv] ->]. eauto.
Qed.

(** The tokens themselves. *)
Lemma rand_Read_ok n w s w' :
  rand_Read n w = (Ok s, w') → w_db w' = w_db w ∧ String.length s = n ∧ w_now w' = w_now w ∧ w_clock w' = w_clock w.
Proof.
  unfold rand_Read. intros (u & w1 & Hc & (k & w2 & [= <- <-] & [<- <-]%ret_ok)%bind_ok)%bind_ok.
  pose proof (call_db w) as H1. pose proof (call_now w) as H2. pose proof (call_clock w) as H3.
  rewrite Hc in H1, H2, H3. split_and!; [done|apply random_bytes_length|done..].
Qed.

Lemma generateToken_ok prefix w token w' :
  generateToken prefix w = (Ok token, w') →
  w_db w' = w_db w ∧ w_now w' = w_now w ∧ w_clock w' = w_clock w ∧
  ∃ s, token = prefix +:+ RawURLEncode s ∧ String.length s = tokenRandomBytes.
Proof.
  unfold generateToken. intros (s & w1 & Hr & H')%bind_ok. apply ret_ok in H' as [<- <-].
  apply rand_Read_ok in Hr as (? & ? & ? & ?). eauto 10.
Qed.

(** A drawn token is its own trimming: what is printed once is accepted as is. *)
Lemma generateToken_trim prefix w token w' :
  generateToken prefix w = (Ok token, w') → all_bytes printable prefix = true → TrimSpace token = token.
Proof.
  intros (_ & _ & _ & s & -> & _)%generateToken_ok Hp. apply TrimSpace_printable.
  by rewrite all_bytes_app, Hp, tokenByte_printable by apply RawURLEncode_bytes.
Qed.

(** A draw, an iteration, a hash lookup change neither the database nor what
    the clock says next; [quiet m] is that. *)
Definition quiet {A} (m : M A) : Prop :=
  ∀ w, w_db (m w).2 = w_db w ∧ w_now (m w).2 = w_now w ∧ w_clock (m w).2 = w_clock w.

Lemma quiet_ok {A} (m : M A) w r w' :
  quiet m → m w = (r, w') → w_db w' = w_db w ∧ w_now w' = w_now w ∧ w_clock w' = w_clock w.
Proof. intros Hq He. specialize (Hq w). by rewrite He in Hq. Qed.

Lemma quiet_preserves {A} (I : DB → Prop) (m : M A) : quiet m → preserves I m.
Proof. intros Hq w Hw. by destruct (Hq w) as (-> & _). Qed.

Lemma quiet_ret {A} (a : A) : quiet (mret (M := M) a).
Proof. by intros w. Qed.
Lemma quiet_fail {A} e : quiet (fail (A := A) e).
Proof. by intros w. Qed.
Lemma quiet_lift {A} (r : result A) : quiet (lift r).
Proof. by intros w. Qed.
Lemma quiet_draw : quiet draw.
Proof. by intros w. Qed.
Lemma quiet_new_uuid : quiet new_uuid.
Proof. by intros w. Qed.

Lemma quiet_emit e : quiet (emit e).
Proof. by intros w. Qed.

Lemma quiet_bind {A B} (m : M A) (f : A → M B) : quiet m → (∀ a, quiet (f a)) → quiet (m ≫= f).
Proof.
  intros Hm Hf w. specialize (Hm w). unfold mbind, M_bind. destruct (m w) as [[a|e] w1]; simpl in *; [|done].
  destruct (Hf a w1) as (-> & -> & ->). done.
Qed.

Lemma quiet_try {A} (m : M A) : quiet m → quiet (try m).
Proof. intros Hm w. specialize (Hm w). unfold try. by destruct (m w). Qed.

Lemma quiet_call : quiet call.
Proof. intros w. rewrite call_db, call_now, call_clock. done. Qed.

Lemma quiet_query {A} (f : DB → result A) : quiet (query f).
Proof.
  intros w. unfold query, stmt. destruct (quiet_call w) as (E1 & E2 & E3).
  destruct (call w) as [[[]|e] w1]; simpl in *; [|done].
  destruct (f (w_db w1)); simpl; [|done]. split_and!; [done|by rewrite <- E2|done].
Qed.

Lemma quiet_forM {S A} (l : list A) (body : S → A → M S) : (∀ acc x, quiet (body acc x)) → ∀ acc, quiet (forM l acc body).
Proof. intros Hb. induction l as [|x l IH]; intros acc; [apply quiet_ret|]. by apply quiet_bind. Qed.

Lemma quiet_rand_Read n : quiet (rand_Read n).
Proof. apply quiet_bind; [apply quiet_call|]. intros _. apply quiet_bind; [apply quiet_draw|]. intros; apply quiet_ret. Qed.

Lemma quiet_range {A} (m : gmap Z A) : quiet (range m).
Proof. apply quiet_bind; [apply quiet_draw|]. intros. apply quiet_ret. Qed.

Lemma quiet_orNoRows {A} (m : M A) e : quiet m → quiet (orNoRows m e).
Proof.
  intros Hm. apply quiet_bind; [by apply quiet_try|]. intros [a|[]]; first [apply quiet_ret|apply quiet_fail].
Qed.

Lemma quiet_CandidateHashes r token : quiet (CandidateHashes r token).
Proof. apply quiet_bind; [apply quiet_range|]. intros. apply quiet_ret. Qed.

Lemma quiet_generateToken prefix : quiet (generateToken prefix).
Proof.
  apply quiet_bind; [apply quiet_rand_Read|]. intros; apply quiet_ret.
Qed.

Lemma quiet_firstByHash {R} (get : string → M R) hs : (∀ h, quiet (get h)) → quiet (firstByHash get hs).
Proof.
  intros Hg. induction hs as [|h hs IH]; [apply quiet_ret|]. apply quiet_bind; [by apply quiet_try|].
  intros [x|[]]; first [apply quiet_ret|apply quiet_fail|done].
Qed.

(** The loop over the candidates, when each look is one statement: it stops at
    the first that finds a row, and none has changed anything before. *)
Lemma firstByHash_stmt {R} (f : string → DB → result (R * DB)) hs w o w' :
  firstByHash (λ h, stmt (f h)) hs w = (Ok o, w') →
  match o with
  | Some x => ∃ h, h ∈ hs ∧ f h (w_db w) = Ok (x, w_db w')
  | None => w_db w' = w_db w ∧ ∀ h, h ∈ hs → f h (w_db w) = Err ENoRows
  end.
Proof.
  revert w. induction hs as [|h hs IH]; intros w H'; cbn [firstByHash] in H'.
  { apply ret_ok in H' as [<- <-]. split; [done|]. intros h []%not_elem_of_nil. }
  apply bind_ok in H' as (r & w1 & H1 & H'). apply try_ok, stmt_cases in H1.
  destruct r as [x|e].
  - apply ret_ok in H' as [<- <-]. exists h. split; [by left|done].
  - destruct e; try by apply fail_ok in H'. destruct H1 as [Hdb [[=]|Hh]]. apply IH in H'. rewrite Hdb in H'.
    destruct o as [x|].
    + destruct H' as (h' & Hin & Hx). exists h'. split; [by right|done].
    + destruct H' as [-> H']. split; [done|]. intros h' [->|Hin]%elem_of_cons; auto.
Qed.

(** When each look is a query of the database. *)
Lemma firstByHash_ok {R} (f : string → DB → result R) hs w o w' :
  firstByHash (λ h, query (f h)) hs w = (Ok o, w') →
  match o with
  | Some x => ∃ h, h ∈ hs ∧ f h (w_db w) = Ok x
  | None => ∀ h, h ∈ hs → f h (w_db w) = Err ENoRows
  end.
Proof.
  unfold query. intros H'. apply firstByHash_stmt in H'. destruct o as [x|].
  - destruct H' as (h & Hh & Hx). exists h. split; [done|]. by apply result_bind_ok in Hx as (y & Hy & [= -> _]).
  - destruct H' as [_ H']. intros h Hh. apply H' in Hh. destruct (f h (w_db w)); simpl in Hh; congruence.
Qed.

Lemma firstByHash_run {R} (f : string → DB → result R) hs w :
  w.(w_faults) = [] → (∀ h, h ∈ hs → (∃ x, f h (w_db w) = Ok x) ∨ f h (w_db w) = Err ENoRows) →
  ∃ o, firstByHash (λ h, query (f h)) hs w = (Ok o, w).
Proof.
  intros Hw. induction hs as [|h hs IH]; intros Hf; [by eexists|]. cbn [firstByHash].
  unfold mbind, M_bind, try. rewrite query_run by done.
  destruct (Hf h ltac:(by left)) as [[x ->]| ->]; [by eexists|]. apply IH. intros; apply Hf. by right.
Qed.
End runtime.

(** ** Credential tables

    A table of rows that keep the hash of a token, against the list of the
    tokens issued: the loop of an [Authenticate] finds the row of the issued
    token that was presented, whatever the ring's iteration order. *)

Section credentials.
Context `{Runtime, !PerfectHMAC} {E R : Type}.
Context (tokenOf secretOf : E → string) (tbl : DB → list R) (hashOf : R → string) (link : E → R → Prop).
Context (link_hash : ∀ e r, link e r → hashOf r = hash (mkTokenHasher (secretOf e)) (tokenOf e)).

Definition row_by_hash (h : string) (d : DB) : result R := pg_one (λ r, String.eqb (hashOf r) h) (tbl d).

Lemma row_by_hash_total h d : (∃ r, row_by_hash h d = Ok r) ∨ row_by_hash h d = Err ENoRows.
Proof. unfold row_by_hash. rewrite pg_one_find. case_match; eauto. Qed.

(** The entry answers to a token under a ring. *)
Definition answers (ring : TokenHashKeyRing) (token : string) (e : E) : bool :=
  String.eqb (tokenOf e) token && acceptsb ring (secretOf e).

Lemma answers_spec ring token e : answers ring token e = true ↔ tokenOf e = token ∧ accepts ring (secretOf e).
Proof. unfold answers. by rewrite andb_true_iff, String.eqb_eq, acceptsb_spec. Qed.

Lemma row_answers ring token e r :
  link e r →
  (∃ v h, ring.(hashers) !! v = Some h ∧ hashOf r = hash h token) ↔ answers ring token e = true.
Proof. intros Hh%link_hash. rewrite answers_spec, Hh, (candidate_iff ring token). naive_solver. Qed.

Lemma find_answers ring token T e :
  NoDup (map tokenOf T) → e ∈ T → answers ring token e = true → find (answers ring token) T = Some e.
Proof.
  intros Hnd He Ha. destruct (find _ T) as [e'|] eqn:Ef.
  - apply find_some in Ef as [Hin Ha']. apply list_elem_of_In in Hin.
    apply answers_spec in Ha as [Hk _], Ha' as [Hk' _].
    f_equal. apply (NoDup_map_inj tokenOf T); [done..|congruence].
  - apply list_elem_of_In in He. by rewrite (find_none _ _ Ef _ He) in Ha.
Qed.

Lemma lookup_row ring token T w hs o w' :
  NoDup (map tokenOf T) → Forall2 link T (tbl (w_db w)) →
  (∀ h, h ∈ hs ↔ ∃ v k, ring.(hashers) !! v = Some k ∧ h = hash k token) →
  firstByHash (λ h, query (row_by_hash h)) hs w = (Ok o, w') →
  match o with
  | Some r => ∃ e, link e r ∧ find (answers ring token) T = Some e
  | None => find (answers ring token) T = None
  end.
Proof.
  intros Hnd HT Hhs H'. apply firstByHash_ok in H'. destruct o as [r|].
  - destruct H' as (h & Hh & Hr). apply pg_one_ok in Hr as [Hr Heq]. apply String.eqb_eq in Heq.
    destruct (Forall2_elem_r _ _ _ _ HT Hr) as (e & He & Hrow). exists e. split; [done|].
    apply find_answers; [done..|]. apply (row_answers ring token e r Hrow). apply Hhs in Hh. naive_solver.
  - destruct (find _ T) as [e|] eqn:Ef; [|done]. apply find_some in Ef as [Hin Ha].
    apply list_elem_of_In in Hin. destruct (Forall2_elem_l _ _ _ _ HT Hin) as (r & Hr & Hrow).
    apply (row_answers ring token e r Hrow) in Ha. rewrite <- Hhs in Ha.
    apply H' in Ha. unfold row_by_hash in Ha. rewrite pg_one_find in Ha.
    destruct (find _ (tbl _)) eqn:Ef; [done|]. apply list_elem_of_In in Hr.
    pose proof (find_none _ _ Ef _ Hr) as Hne. simpl in Hne. by rewrite String.eqb_refl in Hne.
Qed.

Lemma lookup_run hs w : w_faults w = [] → ∃ o, firstByHash (λ h, query (row_by_hash h)) hs w = (Ok o, w).
Proof. intros Hw. apply firstByHash_run; [done|]. intros h _. apply row_by_hash_total. Qed.
End credentials.

(** ** A concrete runtime

    A pairing for the keyed hash, draws that repeat one byte, and iterations
    that alternate between the two orders of the keys. *)

Fixpoint ex_pairing (k m : string) : string :=
  match k with
  | EmptyString => String "0" m
  | String c k' => String "1" (String c (ex_pairing k' m))
  end.

Fixpoint ex_bytes (c : ascii) (n : nat) : string :=
  match n with O => EmptyString | S n' => String c (ex_bytes c n') end.

Lemma ex_bytes_length c n : String.length (ex_bytes c n) = n.
Proof. induction n; simpl; congruence. Qed.

Definition ex_order (n : nat) (l : list Z) : list Z := if Nat.even n then l else rev l.

Lemma ex_order_perm n l : ex_order n l ≡ₚ l.
Proof. unfold ex_order. destruct (Nat.even n); [done|]. symmetry. apply Permutation_rev. Qed.

Definition ex_runtime : Runtime := {|
  hmac_sha256 := ex_pairing;
  random_bytes n := ex_bytes (ascii_of_nat n);
  random_bytes_length n := ex_bytes_length _;
  map_order := ex_order;
  map_order_perm := ex_order_perm;
  unicode_lower s := s;
  pg_lower s := s;
  url_set_query base name value := base +:+ "?" +:+ name +:+ "=" +:+ value
|}.

Lemma ex_perfect : @PerfectHMAC ex_runtime.
Proof.
  intros k. simpl. induction k as [|c k IH]; intros m [|c' k'] m'; simpl; try done; [by intros [= ->]|].
  intros [= -> H]. by apply IH in H as [-> ->].
Qed.

(** Two generations of a ring of hash secrets. *)
Definition ex_ring : TokenHashKeyRing := mkTokenHashKeyRing 1 {[1 := mkTokenHasher "first"]}.
Definition ex_ring' : TokenHashKeyRing :=
  mkTokenHashKeyRing 2 {[1 := mkTokenHasher "first"; 2 := mkTokenHasher "second"]}.

Create HintDb quiet discriminated.
#[export] Hint Resolve quiet_ret quiet_fail quiet_lift quiet_draw quiet_emit quiet_new_uuid quiet_bind quiet_try quiet_call
  quiet_query quiet_range quiet_rand_Read quiet_forM quiet_orNoRows quiet_CandidateHashes quiet_generateToken quiet_firstByHash : quiet.

(** One step of a method's run: a quiet call, a reading of the clock, a new
    identifier. A failing step ends the run in a database that has not changed. *)
Ltac quiet_facts Hm :=
  let Hq := fresh in pose proof Hm as Hq; eapply quiet_ok in Hq; [|solve [eauto with quiet]];
  let Hd := fresh "Hdb" in let Hn := fresh "Hnow" in let Hc := fresh "Hclk" in destruct Hq as (Hd & Hn & Hc).

Ltac quiet_step H a :=
  let w := fresh "w" in let Hm := fresh "Hm" in
  apply bind_cases in H as [(a & w & Hm & H)|(? & Hm & ->)]; quiet_facts Hm;
  [|try (simpl; congruence)].

Ltac clock_step H now :=
  let w := fresh "w" in let Hm := fresh "Hm" in let Hd := fresh "Hdb" in let Hc := fresh "Hclk" in
  let E := fresh "Enow" in let Hf := fresh "Hflt" in
  apply bind_cases in H as [(now & w & Hm & H)|(? & Hm & _)]; [|done];
  pose proof (clock_faults _ _ _ Hm) as Hf; apply clock_reading in Hm as (E & Hc & Hd).
