(* ===== verification/ApiKeys.v ===== *)
(** * API keys: [internal/auth/api_key_service.go]

    Issuing, listing, revoking and authenticating the keys that gateway
    requests carry. A key is shown once; the table keeps its keyed hash. The
    specification is the list of issued keys with the secret each was hashed
    under; [authenticates] says, from that list alone, whom a token speaks for. *)

From S2P Require Import Prelude GoTime GoStrings Encodings Costing Store ExampleWorld QuotaService Rbac Tokens.

Module APIKeys.
Import APIKeyQuota Rbac.

Definition APIKeyPlainPrefix : string := "llmgw_live_".
Definition ErrInvalidAPIKey : err := EMsg "invalid api key".
Definition ErrAPIKeyNotFound : err := EMsg "api key not found".

Record CreateAPIKeyParams := mkCreateAPIKeyParams {
  ck_OrgID : uuid;
  ck_Name : string;
  ck_Scopes : list string;
  ck_RPMLimit : Z;
  ck_DailyCostLimitMicroUSD : option Z;
  ck_MonthlyCostLimitMicroUSD : option Z;
  ck_QuotaAction : string;
  ck_ExpiresAt : option Z
}.

Record CreateAPIKeyResult := mkCreateAPIKeyResult {
  cr_APIKey : ApiKey;
  cr_Key : string
}.

(** ** Queries *)

(** The [CHECK] constraints and the unique keys of [api_keys]. *)
Definition api_key_check (k : ApiKey) : bool :=
  negb (String.eqb k.(ApiKey_Name) "") && negb (String.eqb k.(ApiKey_KeyPrefix) "")
  && negb (String.eqb k.(ApiKey_KeyHash) "")
  && (String.eqb k.(ApiKey_Status) "active" || String.eqb k.(ApiKey_Status) "revoked")
  && (0 <? k.(ApiKey_RpmLimit))
  && match k.(ApiKey_DailyCostLimitMicroUsd) with None => true | Some n => 0 <=? n end
  && match k.(ApiKey_MonthlyCostLimitMicroUsd) with None => true | Some n => 0 <=? n end
  && (String.eqb k.(ApiKey_QuotaAction) "warn" || String.eqb k.(ApiKey_QuotaAction) "block").

Definition api_key_clash (k q : ApiKey) : bool :=
  (q.(ApiKey_ID) =? k.(ApiKey_ID))%N || String.eqb q.(ApiKey_KeyHash) k.(ApiKey_KeyHash).

Definition insert_api_key (k : ApiKey) (d : DB) : result (ApiKey * DB) :=
  _ ← pg_check (api_key_check k);
  _ ← pg_unique (api_key_clash k) d.(api_keys);
  Ok (k, set_api_keys (λ ks, ks ++ [k]) d).

Definition is_key (orgID id : uuid) (k : ApiKey) : bool :=
  (k.(ApiKey_OrgID) =? orgID)%N && (k.(ApiKey_ID) =? id)%N.

Definition GetAPIKeyByHash (keyHash : string) : M ApiKey := query (row_by_hash api_keys ApiKey_KeyHash keyHash).

(** [ORDER BY created_at DESC, id DESC]. *)
Definition newest_key_first (a b : ApiKey) : bool :=
  (b.(ApiKey_CreatedAt) <? a.(ApiKey_CreatedAt))
  || ((b.(ApiKey_CreatedAt) =? a.(ApiKey_CreatedAt)) && (b.(ApiKey_ID) <=? a.(ApiKey_ID))%N).

Definition revoked (now : Z) (k : ApiKey) : ApiKey :=
  mkApiKey k.(ApiKey_ID) k.(ApiKey_OrgID) k.(ApiKey_Name) k.(ApiKey_KeyPrefix) k.(ApiKey_KeyHash) k.(ApiKey_Scopes)
    "revoked" k.(ApiKey_RpmLimit) k.(ApiKey_ExpiresAt) k.(ApiKey_LastUsedAt) k.(ApiKey_CreatedAt) (Some now)
    k.(ApiKey_DailyCostLimitMicroUsd) k.(ApiKey_MonthlyCostLimitMicroUsd) k.(ApiKey_QuotaAction).

Definition touched (now : Z) (k : ApiKey) : ApiKey :=
  mkApiKey k.(ApiKey_ID) k.(ApiKey_OrgID) k.(ApiKey_Name) k.(ApiKey_KeyPrefix) k.(ApiKey_KeyHash) k.(ApiKey_Scopes)
    k.(ApiKey_Status) k.(ApiKey_RpmLimit) k.(ApiKey_ExpiresAt) (Some now) k.(ApiKey_CreatedAt) k.(ApiKey_RevokedAt)
    k.(ApiKey_DailyCostLimitMicroUsd) k.(ApiKey_MonthlyCostLimitMicroUsd) k.(ApiKey_QuotaAction).

(** No constraint concerns the columns the two updates set. *)
Definition update_key (orgID id : uuid) (f : ApiKey → ApiKey) (ks : list ApiKey) : list ApiKey :=
  map (λ k, if is_key orgID id k then f k else k) ks.

(** [UPDATE ... RETURNING] read through [QueryRow]. *)
Definition revoke_key (orgID id : uuid) (now : Z) (d : DB) : result (ApiKey * DB) :=
  k ← pg_one (is_key orgID id) d.(api_keys);
  Ok (revoked now k, set_api_keys (update_key orgID id (revoked now)) d).

Definition touch_key (orgID id : uuid) (now : Z) (d : DB) : result (unit * DB) :=
  Ok (tt, set_api_keys (update_key orgID id (touched now)) d).

(** ** The service *)

Definition normalizeAPIKeyScopes (scopes : list string) : result (list string) :=
  match scopes with
  | [] => Ok [APIKeyScopeChatCompletions]
  | _ => dedupScopes [APIKeyScopeChatCompletions] (EMsg "unsupported api key scope") scopes ∅
  end.

Section service.
Context `{Runtime}.

Definition CreateAPIKey (ring : TokenHashKeyRing) (params : CreateAPIKeyParams) : M CreateAPIKeyResult :=
  let name := TrimSpace params.(ck_Name) in
  if String.eqb name "" then fail (EMsg "api key name is required")
  else if (params.(ck_OrgID) =? Nil)%N then fail (EMsg "org_id is required")
  else if params.(ck_RPMLimit) <=? 0 then fail (EMsg "rpm_limit must be greater than zero")
  else
    _ ← lift (validateQuotaLimit "daily_cost_limit_micro_usd" params.(ck_DailyCostLimitMicroUSD));
    _ ← lift (validateQuotaLimit "monthly_cost_limit_micro_usd" params.(ck_MonthlyCostLimitMicroUSD));
    quotaAction ← lift (validateQuotaAction params.(ck_QuotaAction));
    scopes ← lift (normalizeAPIKeyScopes params.(ck_Scopes));
    key ← generateToken APIKeyPlainPrefix;
    now ← clock;
    id ← new_uuid;
    apiKey ← stmt (insert_api_key
      (mkApiKey id params.(ck_OrgID) name (visibleCredentialPrefix key APIKeyPlainPrefix) (Hash ring key) scopes
         "active" params.(ck_RPMLimit) params.(ck_ExpiresAt) None now None
         params.(ck_DailyCostLimitMicroUSD) params.(ck_MonthlyCostLimitMicroUSD) quotaAction));
    mret (mkCreateAPIKeyResult apiKey key).

Definition ListAPIKeys (orgID : uuid) : M (list ApiKey) :=
  query (λ d, Ok (sort_by newest_key_first (List.filter (λ k, (k.(ApiKey_OrgID) =? orgID)%N) d.(api_keys)))).

Definition RevokeAPIKey (orgID apiKeyID : uuid) : M ApiKey :=
  now ← clock;
  orNoRows (stmt (revoke_key orgID apiKeyID now)) ErrAPIKeyNotFound.

Definition expired (expiresAt : option Z) (now : Z) : bool :=
  match expiresAt with Some t => t <=? now | None => false end.

Definition Authenticate (ring : TokenHashKeyRing) (key : string) : M APIKeyPrincipal :=
  let key := TrimSpace key in
  if String.eqb key "" then fail ErrInvalidAPIKey
  else
    hashes ← CandidateHashes ring key;
    found ← firstByHash GetAPIKeyByHash hashes;
    match found with
    | None => fail ErrInvalidAPIKey
    | Some apiKey =>
        if negb (String.eqb apiKey.(ApiKey_Status) "active") then fail ErrInvalidAPIKey
        else
          now ← clock;
          if expired apiKey.(ApiKey_ExpiresAt) now then fail ErrInvalidAPIKey
          else
            _ ← stmt (touch_key apiKey.(ApiKey_OrgID) apiKey.(ApiKey_ID) now);
            mret (mkAPIKeyPrincipal apiKey.(ApiKey_OrgID) apiKey.(ApiKey_ID) apiKey.(ApiKey_Scopes) apiKey.(ApiKey_RpmLimit))
    end.

(** ** Specification: the keys that were issued *)

Record issued := mkissued {
  is_Key : string;
  is_Secret : string;
  is_Principal : APIKeyPrincipal;
  is_Expires : option Z;
  is_Revoked : bool
}.

Definition issue (ring : TokenHashKeyRing) (r : result CreateAPIKeyResult) (T : list issued) : list issued :=
  match r with
  | Ok res =>
      let k := res.(cr_APIKey) in
      T ++ [mkissued res.(cr_Key) (activeHasher ring).(secret)
              (mkAPIKeyPrincipal k.(ApiKey_OrgID) k.(ApiKey_ID) k.(ApiKey_Scopes) k.(ApiKey_RpmLimit))
              k.(ApiKey_ExpiresAt) false]
  | Err _ => T
  end.

Definition owned (orgID id : uuid) (e : issued) : bool :=
  (e.(is_Principal).(OrgID) =? orgID)%N && (e.(is_Principal).(APIKeyID) =? id)%N.

Definition cancel (orgID id : uuid) (r : result ApiKey) (T : list issued) : list issued :=
  match r with
  | Ok _ => map (λ e, if owned orgID id e
                      then mkissued e.(is_Key) e.(is_Secret) e.(is_Principal) e.(is_Expires) true else e) T
  | Err _ => T
  end.

(** What the service has done to its table: any calls in any order, failed
    ones included, anything else happening in between, each call under the key
    ring of its time. *)
Inductive history : list issued → list ApiKey → Prop :=
| h_start : history [] []
| h_create T ring params w r w' :
    history T (w_db w).(api_keys) → CreateAPIKey ring params w = (r, w') → history (issue ring r T) (w_db w').(api_keys)
| h_revoke T orgID id w r w' :
    history T (w_db w).(api_keys) → RevokeAPIKey orgID id w = (r, w') → history (cancel orgID id r T) (w_db w').(api_keys)
| h_authenticate T ring key w r w' :
    history T (w_db w).(api_keys) → Authenticate ring key w = (r, w') → history T (w_db w').(api_keys).

(** Whom a token speaks for, from the issued keys alone. *)
Definition authenticates (ring : TokenHashKeyRing) (token : string) (now : Z) (T : list issued) : result APIKeyPrincipal :=
  match find (answers is_Key is_Secret ring (TrimSpace token)) T with
  | Some e => if e.(is_Revoked) || expired e.(is_Expires) now then Err ErrInvalidAPIKey else Ok e.(is_Principal)
  | None => Err ErrInvalidAPIKey
  end.

(** ** Proofs *)

Definition issued_row (e : issued) (k : ApiKey) : Prop :=
  k.(ApiKey_KeyHash) = hash (mkTokenHasher e.(is_Secret)) e.(is_Key) ∧
  e.(is_Principal) = mkAPIKeyPrincipal k.(ApiKey_OrgID) k.(ApiKey_ID) k.(ApiKey_Scopes) k.(ApiKey_RpmLimit) ∧
  k.(ApiKey_ExpiresAt) = e.(is_Expires) ∧
  k.(ApiKey_Status) = (if e.(is_Revoked) then "revoked" else "active") ∧ e.(is_Key) ≠ "".

Lemma CreateAPIKey_cases ring params w r w' :
  CreateAPIKey ring params w = (r, w') →
  match r with
  | Ok res => (w_db w').(api_keys) = (w_db w).(api_keys) ++ [res.(cr_APIKey)] ∧
      res.(cr_APIKey).(ApiKey_KeyHash) = Hash ring res.(cr_Key) ∧ res.(cr_APIKey).(ApiKey_Status) = "active" ∧
      res.(cr_Key) ≠ "" ∧ TrimSpace res.(cr_Key) = res.(cr_Key)
  | Err _ => w_db w' = w_db w
  end.
Proof.
  unfold CreateAPIKey. intros H'.
  do 3 (case_match; [by injection H' as <- <-|]).
  do 4 (let a := fresh "v" in quiet_step H' a).
  quiet_step H' key. pose proof (generateToken_trim _ _ _ _ Hm3 ltac:(done)) as Htrim.
  apply generateToken_ok in Hm3 as (_ & _ & _ & s & Hkey & _).
  clock_step H' now. quiet_step H' newID.
  apply bind_cases in H' as [(k & w7 & Hs & H')|(e & Hs & ->)]; apply stmt_cases in Hs.
  - injection H' as <- <-. unfold insert_api_key in Hs.
    apply result_bind_ok in Hs as (_ & _ & Hs). apply result_bind_ok in Hs as (_ & _ & [= <- Hw7]).
    simpl. split_and!; [|done|done|by rewrite Hkey|done].
    rewrite <- Hw7. simpl. congruence.
  - destruct Hs as [Hs _]. simpl. congruence.
Qed.

Lemma RevokeAPIKey_cases orgID id w r w' :
  RevokeAPIKey orgID id w = (r, w') →
  match r with
  | Ok _ => (w_db w').(api_keys) = update_key orgID id (revoked (w_now w)) (w_db w).(api_keys)
  | Err _ => w_db w' = w_db w
  end.
Proof.
  unfold RevokeAPIKey. intros H'. clock_step H' now. unfold orNoRows in H'.
  apply bind_cases in H' as [(x & w1 & Hs & H')|(e & Hs & ->)]; [|by apply try_never in Hs].
  apply try_ok, stmt_cases in Hs. destruct x as [k|e].
  - injection H' as <- <-. unfold revoke_key in Hs. apply result_bind_ok in Hs as (k' & _ & [= _ Hd]).
    rewrite <- Hd, Hdb, Enow. done.
  - destruct e; injection H' as <- <-; destruct Hs as [Hs _]; congruence.
Qed.

Lemma Authenticate_cases ring key w r w' :
  Authenticate ring key w = (r, w') →
  (w_db w').(api_keys) = (w_db w).(api_keys) ∨
  ∃ orgID id now, (w_db w').(api_keys) = update_key orgID id (touched now) (w_db w).(api_keys).
Proof.
  unfold Authenticate. intros H'. case_match; [injection H' as <- <-; by left|].
  quiet_step H' hashes; [|left; congruence].
  quiet_step H' found; [|left; congruence].
  destruct found as [k|]; [|injection H' as <- <-; left; congruence].
  case_match; [injection H' as <- <-; left; congruence|]. clock_step H' now.
  case_match; [injection H' as <- <-; left; congruence|].
  apply bind_cases in H' as [(x & w3 & Hs & H')|(e & Hs & ->)]; apply stmt_cases in Hs.
  - injection H' as <- <-. injection Hs as _ Hs. right. eexists _, _, now. rewrite <- Hs. simpl.
    by rewrite Hdb1, Hdb0, Hdb.
  - left. destruct Hs as [Hs _]. congruence.
Qed.


Lemma issued_row_touch orgID id now T ks :
  Forall2 issued_row T ks → Forall2 issued_row T (update_key orgID id (touched now) ks).
Proof. induction 1; constructor; [|done]. by destruct (is_key _ _ _). Qed.

Lemma issued_row_revoke orgID id now r T ks :
  Forall2 issued_row T ks →
  Forall2 issued_row (cancel orgID id (Ok r) T) (update_key orgID id (revoked now) ks).
Proof.
  induction 1 as [|e k T ks (Hh & Hp & He & Hs & Hk) HT IH]; [constructor|]. simpl. constructor; [|done].
  assert (owned orgID id e = is_key orgID id k) as -> by (unfold owned; by rewrite Hp).
  by destruct (is_key orgID id k).
Qed.

(** The table holds the issued keys, in order. *)
Lemma history_rows T ks : history T ks → Forall2 issued_row T ks.
Proof.
  induction 1 as [|T ring params w r w' HT IH Hr|T o i w r w' HT IH Hr|T ring key w r w' HT IH Hr].
  - constructor.
  - apply CreateAPIKey_cases in Hr. destruct r as [res|e]; simpl; [|by rewrite Hr].
    destruct Hr as (-> & Hh & Hs & Hk & _). apply Forall2_app; [done|]. apply Forall2_cons; [|constructor].
    unfold issued_row, Hash in *. simpl. by split_and!.
  - apply RevokeAPIKey_cases in Hr. destruct r as [res|e]; simpl; [|by rewrite Hr].
    rewrite Hr. by apply (issued_row_revoke o i (w_now w) res).
  - apply Authenticate_cases in Hr as [-> |(o & i & now & ->)]; [done|by apply issued_row_touch].
Qed.

Lemma issued_hash e k : issued_row e k → k.(ApiKey_KeyHash) = hash (mkTokenHasher e.(is_Secret)) e.(is_Key).
Proof. by intros []. Qed.

Lemma Authenticate_result `{!PerfectHMAC} T ring token w r w' :
  history T (w_db w).(api_keys) → NoDup (map is_Key T) → Authenticate ring token w = (r, w') →
  r = authenticates ring token (w_now w) T ∨ (w_faults w ≠ [] ∧ ∃ e, r = Err e).
Proof.
  intros HT%history_rows Hnd. unfold authenticates. intros H'. unfold Authenticate in H'.
  destruct (String.eqb_spec (TrimSpace token) "") as [E|E].
  { injection H' as <- <-. left. destruct (find _ T) as [e|] eqn:Ef; [|done].
    apply find_some in Ef as [Hin Ha]. apply list_elem_of_In in Hin. apply answers_spec in Ha as [Hk _].
    destruct (Forall2_elem_l _ _ _ _ HT Hin) as (k & _ & (_ & _ & _ & _ & Hne)). congruence. }
  destruct (CandidateHashes_run ring (TrimSpace token) w) as (hs & Hc & Hhs).
  set (w1 := set_fresh _ w) in Hc. rewrite (bind_run _ _ _ _ _ Hc) in H'.
  apply bind_cases in H' as [(found & w2 & Hf & H')|(e & Hf & ->)].
  - pose proof (lookup_row _ _ _ _ _ issued_hash _ _ T w1 hs found w2 Hnd HT Hhs Hf) as Hrow.
    quiet_facts Hf. destruct found as [k|]; [|injection H' as <- <-; left; by rewrite Hrow].
    destruct Hrow as (e & (Hh & Hp & He & Hs & _) & ->). rewrite Hs in H'.
    destruct (is_Revoked e); simpl in *; [injection H' as <- <-; by left|].
    assert (Hnf : w_faults w = [] → w_faults w2 = []).
    { intros Hw. destruct (lookup_run api_keys ApiKey_KeyHash hs w1 Hw) as [o Ho]. unfold GetAPIKeyByHash in Hf. rewrite Ho in Hf. injection Hf as _ <-. exact Hw. }
    clock_step H' now. change (w_now w2 = w_now w) in Hnow.
    rewrite He, Enow, Hnow in H'. destruct (expired _ _); [injection H' as <- <-; by left|].
    apply bind_cases in H' as [(u & w4 & Hs4 & H')|(e' & Hs4 & ->)].
    + injection H' as <- <-. left. by rewrite Hp.
    + right. split; [|by eexists]. intros Hw. rewrite stmt_run in Hs4 by by rewrite Hflt; apply Hnf. done.
  - right. split; [|by eexists]. intros Hw. destruct (lookup_run api_keys ApiKey_KeyHash hs w1 Hw) as [o Ho]. unfold GetAPIKeyByHash in Hf. by rewrite Ho in Hf.
Qed.

(** C14: authentication refines the list of issued keys. Whatever calls were made
    before, in whatever order and with whatever failures, under however many
    successive key rings: a token authenticates only as the principal of an
    issued key with exactly that text (spaces trimmed), hashed under a secret
    the ring still holds, neither revoked nor expired; and when no call fails
    every such token does authenticate and every other one is refused as
    [ErrInvalidAPIKey]. Neither the order in which the ring is iterated nor
    failing calls can change whom a token speaks for. *)
Theorem Authenticate_refines `{!PerfectHMAC} (T : list issued) (ring : TokenHashKeyRing) (token : string) (w : world) :
  history T (w_db w).(api_keys) → NoDup (map is_Key T) →
  (∀ p w', Authenticate ring token w = (Ok p, w') → authenticates ring token (w_now w) T = Ok p) ∧
  (w_faults w = [] → (Authenticate ring token w).1 = authenticates ring token (w_now w) T).
Proof.
  intros HT Hnd. split.
  - intros p w' H'. destruct (Authenticate_result _ _ _ _ _ _ HT Hnd H') as [<-|(_ & e & [=])]; done.
  - intros Hw. destruct (Authenticate ring token w) as [r w'] eqn:E.
    destruct (Authenticate_result _ _ _ _ _ _ HT Hnd E) as [->|[? _]]; done.
Qed.
End service.

(** ** An example *)

#[local] Existing Instance ex_runtime.
#[local] Existing Instance ex_perfect.

Definition ex_new_world : world := set_db emptyDB ex_world.
Definition ex_params : CreateAPIKeyParams :=
  mkCreateAPIKeyParams 1%N " ci key " [" chat.completions"] 60 None (Some 5000) "" (Some (3 * Day)).

(** A key issued under the first ring is presented, with spaces around it,
    after the active secret has changed. *)
Lemma Authenticate_refines_witness :
  let (r, w) := CreateAPIKey ex_ring ex_params ex_new_world in
  let T := issue ex_ring r [] in
  history T (w_db w).(api_keys) ∧ NoDup (map is_Key T) ∧ w_faults w = [] ∧
  ∃ e, T = [e] ∧ (Authenticate ex_ring' (" " +:+ e.(is_Key) +:+ " ") w).1 = Ok e.(is_Principal).
Proof.
  destruct (CreateAPIKey ex_ring ex_params ex_new_world) as [r w] eqn:E.
  assert (HT : history (issue ex_ring r []) (w_db w).(api_keys)).
  { eapply (h_create _ _ _ ex_new_world); [|exact E]. apply h_start. }
  vm_compute in E. injection E as <- <-.
  split; [exact HT|]. split; [apply NoDup_singleton|]. split; [done|]. eexists. split; [reflexivity|].
  rewrite (proj2 (Authenticate_refines _ ex_ring' _ _ HT ltac:(apply NoDup_singleton)) ltac:(done)).
  by vm_compute.
Defined.
End APIKeys.
