(* ===== verification/AdminTokens.v ===== *)
(** * Service tokens: [internal/auth/admin_token_service.go]

    Tokens of the administrative API that speak for a service. Issued by the
    platform for an organisation, never revoked by the program, checked like
    API keys. *)

From S2P Require Import Prelude GoTime GoStrings Encodings Costing Store ExampleWorld QuotaService Rbac Tokens.

(** [GetOrganization], which several services ask first. *)
Definition GetOrganization (orgID : uuid) : M Organization :=
  query (λ d, pg_one (λ o, (o.(Organization_ID) =? orgID)%N) d.(organizations)).
Definition ErrOrganizationNotFound : err := EMsg "organization not found".

(** The constraints of [organizations]. *)
Definition organization_check (o : Organization) : bool :=
  negb (String.eqb o.(Organization_Name) "") && negb (String.eqb o.(Organization_Slug) "")
  && (String.eqb o.(Organization_Status) "active" || String.eqb o.(Organization_Status) "disabled").

Definition insert_organization (o : Organization) (d : DB) : result (Organization * DB) :=
  _ ← pg_check (organization_check o);
  _ ← pg_unique (λ q, (q.(Organization_ID) =? o.(Organization_ID))%N || String.eqb q.(Organization_Slug) o.(Organization_Slug))
        d.(organizations);
  Ok (o, set_organizations (λ os, os ++ [o]) d).

Lemma quiet_GetOrganization o : quiet (GetOrganization o).
Proof. apply quiet_query. Qed.
#[export] Hint Resolve quiet_GetOrganization : quiet.

Module AdminTokens.
Import Rbac.

Definition AdminTokenPlainPrefix : string := "llmgw_admin_".
Definition ErrInvalidToken : err := EMsg "invalid admin token".

Record CreateAdminTokenParams := mkCreateAdminTokenParams {
  ca_OrgID : uuid;
  ca_Name : string;
  ca_Scopes : list string;
  ca_ExpiresAt : option Z
}.

Record CreateAdminTokenResult := mkCreateAdminTokenResult {
  ar_AdminToken : AdminToken;
  ar_Token : string
}.

(** ** Queries *)

Definition admin_token_check (t : AdminToken) : bool :=
  negb (String.eqb t.(AdminToken_Name) "") && negb (String.eqb t.(AdminToken_TokenPrefix) "")
  && negb (String.eqb t.(AdminToken_TokenHash) "")
  && (String.eqb t.(AdminToken_Status) "active" || String.eqb t.(AdminToken_Status) "revoked").

Definition admin_token_clash (t q : AdminToken) : bool :=
  (q.(AdminToken_ID) =? t.(AdminToken_ID))%N || String.eqb q.(AdminToken_TokenHash) t.(AdminToken_TokenHash).

Definition insert_admin_token (t : AdminToken) (d : DB) : result (AdminToken * DB) :=
  _ ← pg_check (admin_token_check t);
  _ ← pg_unique (admin_token_clash t) d.(admin_tokens);
  Ok (t, set_admin_tokens (λ ts, ts ++ [t]) d).

Definition GetAdminTokenByHash (tokenHash : string) `{Runtime} : M AdminToken :=
  query (row_by_hash admin_tokens AdminToken_TokenHash tokenHash).

Definition GetAdminToken (orgID id : uuid) : M AdminToken :=
  query (λ d, pg_one (λ t, (t.(AdminToken_OrgID) =? orgID)%N && (t.(AdminToken_ID) =? id)%N) d.(admin_tokens)).

Definition touched (now : Z) (t : AdminToken) : AdminToken :=
  mkAdminToken t.(AdminToken_ID) t.(AdminToken_OrgID) t.(AdminToken_Name) t.(AdminToken_TokenPrefix)
    t.(AdminToken_TokenHash) t.(AdminToken_Scopes) t.(AdminToken_Status) t.(AdminToken_ExpiresAt) (Some now)
    t.(AdminToken_CreatedAt) t.(AdminToken_RevokedAt).

Definition touch_admin_token (orgID id : uuid) (now : Z) (d : DB) : result (unit * DB) :=
  Ok (tt, set_admin_tokens (map (λ t,
    if (t.(AdminToken_OrgID) =? orgID)%N && (t.(AdminToken_ID) =? id)%N then touched now t else t)) d).

(** ** The service *)

Definition allowedScopes : list string :=
  [AdminScopeAll; AdminScopeMembersManage; AdminScopeMembersView; AdminScopeTokensManage;
   AdminScopeConfigurationManage; AdminScopeView].

Definition normalizeAdminTokenScopes (scopes : list string) : result (list string) :=
  match scopes with
  | [] => Ok [AdminScopeAll]
  | _ => dedupScopes allowedScopes (EMsg "unsupported admin token scope") scopes ∅
  end.

Section service.
Context `{Runtime}.

Definition CreateAdminToken (ring : TokenHashKeyRing) (params : CreateAdminTokenParams) : M CreateAdminTokenResult :=
  let name := TrimSpace params.(ca_Name) in
  if String.eqb name "" then fail (EMsg "admin token name is required")
  else if (params.(ca_OrgID) =? Nil)%N then fail ErrOrganizationNotFound
  else
    _ ← orNoRows (GetOrganization params.(ca_OrgID)) ErrOrganizationNotFound;
    scopes ← lift (normalizeAdminTokenScopes params.(ca_Scopes));
    token ← generateToken AdminTokenPlainPrefix;
    now ← clock;
    id ← new_uuid;
    adminToken ← stmt (insert_admin_token
      (mkAdminToken id params.(ca_OrgID) name (visibleCredentialPrefix token AdminTokenPlainPrefix) (Hash ring token)
         scopes "active" params.(ca_ExpiresAt) None now None));
    mret (mkCreateAdminTokenResult adminToken token).

Definition servicePrincipal (t : AdminToken) : AdminTokenPrincipal :=
  mkAdminTokenPrincipal t.(AdminToken_OrgID) t.(AdminToken_ID) ActorServiceToken RoleOwner None None None "" ""
    t.(AdminToken_Scopes).

Definition Authenticate (ring : TokenHashKeyRing) (token : string) : M AdminTokenPrincipal :=
  let token := TrimSpace token in
  if String.eqb token "" then fail ErrInvalidToken
  else
    hashes ← CandidateHashes ring token;
    found ← firstByHash (λ h, GetAdminTokenByHash h) hashes;
    match found with
    | None => fail ErrInvalidToken
    | Some adminToken =>
        if negb (String.eqb adminToken.(AdminToken_Status) "active") then fail ErrInvalidToken
        else
          now ← clock;
          if match adminToken.(AdminToken_ExpiresAt) with Some t => t <=? now | None => false end
          then fail ErrInvalidToken
          else
            _ ← stmt (touch_admin_token adminToken.(AdminToken_OrgID) adminToken.(AdminToken_ID) now);
            mret (servicePrincipal adminToken)
    end.

(** ** Specification *)

(** A row that was written for a token under a secret. *)
Record minted := mkminted { mi_Token : string; mi_Secret : string; mi_Row : AdminToken }.

Definition minted_row (e : minted) (t : AdminToken) : Prop :=
  t.(AdminToken_TokenHash) = hash (mkTokenHasher e.(mi_Secret)) e.(mi_Token) ∧ t = e.(mi_Row).

Lemma minted_hash e t : minted_row e t → t.(AdminToken_TokenHash) = hash (mkTokenHasher e.(mi_Secret)) e.(mi_Token).
Proof. by intros []. Qed.

Definition speaksFor (ring : TokenHashKeyRing) (token : string) (now : Z) (T : list minted) : result AdminTokenPrincipal :=
  match find (answers mi_Token mi_Secret ring (TrimSpace token)) T with
  | Some e =>
      if String.eqb e.(mi_Row).(AdminToken_Status) "active"
         && negb match e.(mi_Row).(AdminToken_ExpiresAt) with Some t => t <=? now | None => false end
      then Ok (servicePrincipal e.(mi_Row)) else Err ErrInvalidToken
  | None => Err ErrInvalidToken
  end.

(** On a table whose rows were written for distinct tokens, a token
    authenticates exactly as [speaksFor] says. *)
Lemma Authenticate_speaksFor `{!PerfectHMAC} (T : list minted) ring token w :
  Forall2 minted_row T (w_db w).(admin_tokens) → NoDup (map mi_Token T) → (∀ e, e ∈ T → e.(mi_Token) ≠ "") →
  (∀ p w', Authenticate ring token w = (Ok p, w') → speaksFor ring token (w_now w) T = Ok p) ∧
  (w_faults w = [] → (Authenticate ring token w).1 = speaksFor ring token (w_now w) T).
Proof.
  intros HT Hnd Hne.
  assert (Hmain : ∀ r w', Authenticate ring token w = (r, w') →
    r = speaksFor ring token (w_now w) T ∨ (w_faults w ≠ [] ∧ ∃ e, r = Err e)).
  { unfold speaksFor. intros r w' H'. unfold Authenticate in H'.
    destruct (String.eqb_spec (TrimSpace token) "") as [E|E].
    { injection H' as <- <-. left. destruct (find _ T) as [e|] eqn:Ef; [|done].
      apply find_some in Ef as [Hin Ha]. apply list_elem_of_In in Hin. apply answers_spec in Ha as [Hk _].
      apply Hne in Hin. congruence. }
    destruct (CandidateHashes_run ring (TrimSpace token) w) as (hs & Hc & Hhs).
    set (w1 := set_fresh _ w) in Hc. rewrite (bind_run _ _ _ _ _ Hc) in H'.
    unfold GetAdminTokenByHash in H'.
    apply bind_cases in H' as [(found & w2 & Hf & H')|(e & Hf & ->)].
    - pose proof (lookup_row _ _ _ _ _ minted_hash _ _ T w1 hs found w2 Hnd HT Hhs Hf) as Hrow.
      quiet_facts Hf. destruct found as [t|]; [|injection H' as <- <-; left; by rewrite Hrow].
      destruct Hrow as (e & (Hh & ->) & ->).
      destruct (String.eqb _ _); simpl in *; [|injection H' as <- <-; by left].
      assert (Hnf : w_faults w = [] → w_faults w2 = []).
      { intros Hw. destruct (lookup_run admin_tokens AdminToken_TokenHash hs w1 Hw) as [o Ho].
        rewrite Ho in Hf. injection Hf as _ <-. exact Hw. }
      clock_step H' now. change (w_now w2 = w_now w) in Hnow. rewrite Enow, Hnow in H'.
      destruct (match _ with Some _ => _ | None => _ end); simpl; [injection H' as <- <-; by left|].
      apply bind_cases in H' as [(u & w4 & Hs4 & H')|(e' & Hs4 & ->)]; [injection H' as <- <-; by left|].
      right. split; [|by eexists]. intros Hw. rewrite stmt_run in Hs4 by by rewrite Hflt; apply Hnf. done.
    - right. split; [|by eexists]. intros Hw.
      destruct (lookup_run admin_tokens AdminToken_TokenHash hs w1 Hw) as [o Ho]. by rewrite Ho in Hf. }
  split.
  - intros p w' H'. destruct (Hmain _ _ H') as [<-|(_ & e & [=])]; done.
  - intros Hw. destruct (Authenticate ring token w) as [r w'] eqn:E.
    destruct (Hmain _ _ eq_refl) as [->|[? _]]; done.
Qed.
End service.
End AdminTokens.
