(* ===== verification/Sessions.v ===== *)
(** * Members and sessions: [internal/auth/session_service.go]

    Membership of an organisation, logging in without a password, and the
    session tokens that speak for a user. A session is answered through its
    membership and its user, both of which must still be active. *)

From S2P Require Import Prelude GoTime GoStrings Encodings Costing Store ExampleWorld QuotaService Rbac Tokens AdminTokens.

Module Sessions.
Import Rbac.

Definition SessionPlainPrefix : string := "llmgw_session_".
Definition defaultSessionTTL : Z := 24 * Hour.
Definition ErrInvalidSession : err := EMsg "invalid user session".
Definition ErrMembershipNotFound : err := EMsg "membership not found".

Record UpsertMemberParams := mkUpsertMemberParams {
  um_OrgID : uuid;
  um_Email : string;
  um_DisplayName : string;
  um_Role : string
}.

Record UpsertMemberResult := mkUpsertMemberResult {
  ur_User : User;
  ur_Membership : OrgMembership
}.

Record PasswordlessMockLoginResult := mkPasswordlessMockLoginResult {
  lr_Token : string;
  lr_Session : UserSession;
  lr_OrgID : uuid;
  lr_OrgSlug : string;
  lr_UserID : uuid;
  lr_Email : string;
  lr_DisplayName : string;
  lr_MembershipID : uuid;
  lr_Role : string
}.

(** ** Queries *)

(** Rows of joins. *)
Record MemberRow := mkMemberRow { mr_Org : Organization; mr_User : User; mr_Membership : OrgMembership }.
Record SessionRow := mkSessionRow { sr_Session : UserSession; sr_Member : OrgMembership; sr_User : User }.

(** [a JOIN b ON on]. *)
Definition join {A B} (on : A → B → bool) (l : list A) (l' : list B) : list (A * B) :=
  flat_map (λ a, map (pair a) (List.filter (on a) l')) l.

Definition user_of (m : OrgMembership) (u : User) : bool := (u.(User_ID) =? m.(OrgMembership_UserID))%N.

(** [organizations JOIN org_memberships JOIN users]. *)
Definition member_rows (d : DB) : list MemberRow :=
  map (λ '((o, m), u), mkMemberRow o u m)
    (join (λ '(_, m) u, user_of m u)
       (join (λ o m, (m.(OrgMembership_OrgID) =? o.(Organization_ID))%N) d.(organizations) d.(org_memberships))
       d.(users)).

(** [user_sessions JOIN org_memberships JOIN users]. *)
Definition session_rows (d : DB) : list SessionRow :=
  map (λ '((s, m), u), mkSessionRow s m u)
    (join (λ '(s, _) u, (u.(User_ID) =? s.(UserSession_UserID))%N)
       (join (λ s m, (m.(OrgMembership_OrgID) =? s.(UserSession_OrgID))%N
                     && (m.(OrgMembership_UserID) =? s.(UserSession_UserID))%N) d.(user_sessions) d.(org_memberships))
       d.(users)).

Definition active (status : string) : bool := String.eqb status "active".

Definition member_active (r : MemberRow) : bool :=
  active r.(mr_Org).(Organization_Status) && active r.(mr_User).(User_Status)
  && active r.(mr_Membership).(OrgMembership_Status).

Definition session_hash (r : SessionRow) : string := r.(sr_Session).(UserSession_TokenHash).

Definition user_session_check (s : UserSession) : bool :=
  negb (String.eqb s.(UserSession_TokenPrefix) "") && negb (String.eqb s.(UserSession_TokenHash) "")
  && (active s.(UserSession_Status) || String.eqb s.(UserSession_Status) "revoked").

Definition user_session_clash (s q : UserSession) : bool :=
  (q.(UserSession_ID) =? s.(UserSession_ID))%N || String.eqb q.(UserSession_TokenHash) s.(UserSession_TokenHash).

Definition insert_user_session (s : UserSession) (d : DB) : result (UserSession * DB) :=
  _ ← pg_check (user_session_check s);
  _ ← pg_unique (user_session_clash s) d.(user_sessions);
  Ok (s, set_user_sessions (λ ss, ss ++ [s]) d).

Definition is_session (orgID id : uuid) (s : UserSession) : bool :=
  (s.(UserSession_OrgID) =? orgID)%N && (s.(UserSession_ID) =? id)%N.

Definition touched (now : Z) (s : UserSession) : UserSession :=
  mkUserSession s.(UserSession_ID) s.(UserSession_OrgID) s.(UserSession_UserID) s.(UserSession_TokenPrefix)
    s.(UserSession_TokenHash) s.(UserSession_Status) s.(UserSession_ExpiresAt) (Some now) s.(UserSession_CreatedAt)
    s.(UserSession_RevokedAt).
Definition revoked (now : Z) (s : UserSession) : UserSession :=
  mkUserSession s.(UserSession_ID) s.(UserSession_OrgID) s.(UserSession_UserID) s.(UserSession_TokenPrefix)
    s.(UserSession_TokenHash) "revoked" s.(UserSession_ExpiresAt) s.(UserSession_LastUsedAt) s.(UserSession_CreatedAt)
    (Some now).

Definition update_session (orgID id : uuid) (f : UserSession → UserSession) (ss : list UserSession) : list UserSession :=
  map (λ s, if is_session orgID id s then f s else s) ss.

Definition touch_user_session (orgID id : uuid) (now : Z) (d : DB) : result (unit * DB) :=
  Ok (tt, set_user_sessions (update_session orgID id (touched now)) d).

Definition revoke_user_session (orgID id : uuid) (now : Z) (d : DB) : result (UserSession * DB) :=
  s ← pg_one (is_session orgID id) d.(user_sessions);
  Ok (revoked now s, set_user_sessions (update_session orgID id (revoked now)) d).

Definition user_check (u : User) : bool :=
  negb (String.eqb u.(User_Email) "") && negb (String.eqb u.(User_DisplayName) "")
  && (active u.(User_Status) || String.eqb u.(User_Status) "disabled").

Definition renamed (displayName : string) (now : Z) (u : User) : User :=
  mkUser u.(User_ID) u.(User_Email) displayName u.(User_Status) u.(User_CreatedAt) now.

(** [INSERT ... ON CONFLICT (email) DO UPDATE]: the status of an existing user
    is not touched. *)
Definition upsert_user (u : User) (d : DB) : result (User * DB) :=
  _ ← pg_check (user_check u);
  match find (λ v, String.eqb v.(User_Email) u.(User_Email)) d.(users) with
  | Some v =>
      let v' := renamed u.(User_DisplayName) u.(User_UpdatedAt) v in
      Ok (v', set_users (map (λ x, if String.eqb x.(User_Email) u.(User_Email)
                                   then renamed u.(User_DisplayName) u.(User_UpdatedAt) x else x)) d)
  | None =>
      _ ← pg_unique (λ v, (v.(User_ID) =? u.(User_ID))%N) d.(users);
      Ok (u, set_users (λ us, us ++ [u]) d)
  end.

Definition membership_check (m : OrgMembership) : bool :=
  ValidRole m.(OrgMembership_Role)
  && (active m.(OrgMembership_Status) || String.eqb m.(OrgMembership_Status) "disabled").

Definition same_member (m q : OrgMembership) : bool :=
  (q.(OrgMembership_OrgID) =? m.(OrgMembership_OrgID))%N && (q.(OrgMembership_UserID) =? m.(OrgMembership_UserID))%N.

Definition reassigned (m q : OrgMembership) : OrgMembership :=
  mkOrgMembership q.(OrgMembership_ID) q.(OrgMembership_OrgID) q.(OrgMembership_UserID) m.(OrgMembership_Role)
    m.(OrgMembership_Status) q.(OrgMembership_CreatedAt) m.(OrgMembership_UpdatedAt).

(** [INSERT ... ON CONFLICT (org_id, user_id) DO UPDATE]. *)
Definition upsert_membership (m : OrgMembership) (d : DB) : result (OrgMembership * DB) :=
  _ ← pg_check (membership_check m);
  match find (same_member m) d.(org_memberships) with
  | Some q => Ok (reassigned m q, set_org_memberships (map (λ x, if same_member m x then reassigned m x else x)) d)
  | None =>
      _ ← pg_unique (λ q, (q.(OrgMembership_ID) =? m.(OrgMembership_ID))%N) d.(org_memberships);
      Ok (m, set_org_memberships (λ ms, ms ++ [m]) d)
  end.

Definition newest_member_first (a b : OrgMembership * User) : bool :=
  (b.1.(OrgMembership_CreatedAt) <? a.1.(OrgMembership_CreatedAt))
  || ((b.1.(OrgMembership_CreatedAt) =? a.1.(OrgMembership_CreatedAt))
      && (b.1.(OrgMembership_ID) <=? a.1.(OrgMembership_ID))%N).

Definition list_members (orgID : uuid) (d : DB) : list (OrgMembership * User) :=
  sort_by newest_member_first
    (List.filter (λ '(m, _), (m.(OrgMembership_OrgID) =? orgID)%N) (join user_of d.(org_memberships) d.(users))).

(** ** The service *)

Section service.
Context `{Runtime}.

Definition normalizeEmail (email : string) : string := ToLower (TrimSpace email).

Definition GetActiveMembershipByOrgSlugAndEmail (orgSlug email : string) : M MemberRow :=
  query (λ d, pg_one (λ r, String.eqb r.(mr_Org).(Organization_Slug) orgSlug
                            && String.eqb (sql_lower r.(mr_User).(User_Email)) (sql_lower email)
                            && member_active r) (member_rows d)).

Definition GetUserSessionByHash (tokenHash : string) : M SessionRow :=
  query (row_by_hash session_rows session_hash tokenHash).

Definition upsertMemberWithQueries (orgID : uuid) (email displayName role : string) (now : Z) : M UpsertMemberResult :=
  userID ← new_uuid;
  user ← stmt (upsert_user (mkUser userID email displayName "active" now now));
  memberID ← new_uuid;
  membership ← stmt (upsert_membership (mkOrgMembership memberID orgID user.(User_ID) role "active" now now));
  mret (mkUpsertMemberResult user membership).

(** [store] says whether the service was given one ([WithSessionStore]). *)
Definition UpsertMember (store : bool) (params : UpsertMemberParams) : M UpsertMemberResult :=
  if (params.(um_OrgID) =? Nil)%N then fail ErrOrganizationNotFound
  else
    let email := normalizeEmail params.(um_Email) in
    if String.eqb email "" then fail (EMsg "email is required")
    else
      let displayName := TrimSpace params.(um_DisplayName) in
      let displayName := if String.eqb displayName "" then email else displayName in
      let role := TrimSpace params.(um_Role) in
      if negb (ValidRole role) then fail (EMsg "invalid role")
      else
        _ ← orNoRows (GetOrganization params.(um_OrgID)) ErrOrganizationNotFound;
        now ← clock;
        let body := upsertMemberWithQueries params.(um_OrgID) email displayName role now in
        if store then ExecTx body else body.

Definition ListMembers (orgID : uuid) : M (list (OrgMembership * User)) :=
  if (orgID =? Nil)%N then fail ErrOrganizationNotFound
  else query (λ d, Ok (list_members orgID d)).

(** The session both ways of logging in open. *)
Definition openSession (ring : TokenHashKeyRing) (orgID userID : uuid) (token : string) (expiresAt now : Z) : M UserSession :=
  id ← new_uuid;
  stmt (insert_user_session
    (mkUserSession id orgID userID (visibleCredentialPrefix token SessionPlainPrefix) (Hash ring token) "active"
       expiresAt None now None)).

Definition PasswordlessMockLogin (ring : TokenHashKeyRing) (ttl : Z) (orgSlug email : string)
    : M PasswordlessMockLoginResult :=
  let orgSlug := TrimSpace orgSlug in
  let email := normalizeEmail email in
  if String.eqb orgSlug "" || String.eqb email "" then fail ErrMembershipNotFound
  else
    r ← orNoRows (GetActiveMembershipByOrgSlugAndEmail orgSlug email) ErrMembershipNotFound;
    token ← generateToken SessionPlainPrefix;
    now ← clock;
    session ← openSession ring r.(mr_Org).(Organization_ID) r.(mr_User).(User_ID) token (now + ttl) now;
    mret (mkPasswordlessMockLoginResult token session r.(mr_Org).(Organization_ID) r.(mr_Org).(Organization_Slug)
            r.(mr_User).(User_ID) r.(mr_User).(User_Email) r.(mr_User).(User_DisplayName)
            r.(mr_Membership).(OrgMembership_ID) r.(mr_Membership).(OrgMembership_Role)).

Definition userPrincipal (r : SessionRow) : AdminTokenPrincipal :=
  mkAdminTokenPrincipal r.(sr_Session).(UserSession_OrgID) Nil ActorUser r.(sr_Member).(OrgMembership_Role)
    (Some r.(sr_Session).(UserSession_UserID)) (Some r.(sr_Member).(OrgMembership_ID))
    (Some r.(sr_Session).(UserSession_ID)) r.(sr_User).(User_Email) r.(sr_User).(User_DisplayName) [].

Definition usable (r : SessionRow) : bool :=
  active r.(sr_Session).(UserSession_Status) && active r.(sr_Member).(OrgMembership_Status)
  && active r.(sr_User).(User_Status).

Definition Authenticate (ring : TokenHashKeyRing) (token : string) : M AdminTokenPrincipal :=
  let token := TrimSpace token in
  if String.eqb token "" then fail ErrInvalidSession
  else
    hashes ← CandidateHashes ring token;
    found ← firstByHash GetUserSessionByHash hashes;
    match found with
    | None => fail ErrInvalidSession
    | Some session =>
        if negb (usable session) then fail ErrInvalidSession
        else
          now ← clock;
          if session.(sr_Session).(UserSession_ExpiresAt) <=? now then fail ErrInvalidSession
          else
            _ ← stmt (touch_user_session session.(sr_Session).(UserSession_OrgID) session.(sr_Session).(UserSession_ID) now);
            mret (userPrincipal session)
    end.

(** [pgx.ErrNoRows] is returned as it is. *)
Definition Revoke (orgID sessionID : uuid) : M UserSession :=
  now ← clock;
  stmt (revoke_user_session orgID sessionID now).

(** ** Specification *)

(** A joined session is the one a token names, under a secret of the ring. *)
Definition names (ring : TokenHashKeyRing) (token : string) (r : SessionRow) : Prop :=
  ∃ v k, ring.(hashers) !! v = Some k ∧ session_hash r = hash k token.

(** The same session as when it was opened: what using and revoking it leave alone. *)
Definition same_session (s s' : UserSession) : Prop :=
  s'.(UserSession_ID) = s.(UserSession_ID) ∧ s'.(UserSession_OrgID) = s.(UserSession_OrgID) ∧
  s'.(UserSession_UserID) = s.(UserSession_UserID) ∧ s'.(UserSession_TokenHash) = s.(UserSession_TokenHash) ∧
  s'.(UserSession_ExpiresAt) = s.(UserSession_ExpiresAt).

(** ** Proofs *)

Lemma quiet_GetUserSessionByHash h : quiet (GetUserSessionByHash h).
Proof. apply quiet_query. Qed.
Lemma quiet_GetActiveMembership slug email : quiet (GetActiveMembershipByOrgSlugAndEmail slug email).
Proof. apply quiet_query. Qed.
#[local] Hint Resolve quiet_GetUserSessionByHash quiet_GetActiveMembership : quiet.

Lemma elem_of_join {A B} (on : A → B → bool) l l' a b :
  (a, b) ∈ join on l l' ↔ a ∈ l ∧ b ∈ l' ∧ on a b = true.
Proof.
  unfold join. rewrite list_elem_of_In, in_flat_map. setoid_rewrite in_map_iff. setoid_rewrite filter_In.
  setoid_rewrite <- list_elem_of_In. naive_solver.
Qed.

Lemma elem_of_session_rows d s m u :
  mkSessionRow s m u ∈ session_rows d ↔
  s ∈ d.(user_sessions) ∧ m ∈ d.(org_memberships) ∧ u ∈ d.(users) ∧
  m.(OrgMembership_OrgID) = s.(UserSession_OrgID) ∧ m.(OrgMembership_UserID) = s.(UserSession_UserID) ∧
  u.(User_ID) = s.(UserSession_UserID).
Proof.
  unfold session_rows. rewrite list_elem_of_In, in_map_iff. split.
  - intros ([[s' m'] u'] & [= -> -> ->] & Hin). apply list_elem_of_In, elem_of_join in Hin as (Hsm & Hu & E).
    apply elem_of_join in Hsm as (Hs & Hm & E'). rewrite andb_true_iff, !N.eqb_eq in *. naive_solver.
  - intros (Hs & Hm & Hu & E1 & E2 & E3). exists ((s, m), u). split; [done|].
    apply list_elem_of_In, elem_of_join. rewrite elem_of_join, andb_true_iff, !N.eqb_eq. done.
Qed.

(** A session as it is opened. *)
Definition opened (ring : TokenHashKeyRing) (orgID userID : uuid) (token : string) (expiresAt now : Z) (s : UserSession) : Prop :=
  s.(UserSession_OrgID) = orgID ∧ s.(UserSession_UserID) = userID ∧ s.(UserSession_TokenHash) = Hash ring token ∧
  s.(UserSession_Status) = "active" ∧ s.(UserSession_ExpiresAt) = expiresAt ∧ s.(UserSession_CreatedAt) = now.

Lemma openSession_cases ring orgID userID token expiresAt now w r w' :
  openSession ring orgID userID token expiresAt now w = (r, w') →
  match r with
  | Ok s => w_db w' = set_user_sessions (λ ss, ss ++ [s]) (w_db w) ∧ opened ring orgID userID token expiresAt now s
  | Err _ => w_db w' = w_db w
  end.
Proof.
  unfold openSession. intros H'. quiet_step H' newID. apply stmt_cases in H'. destruct r as [s|e].
  - apply result_bind_ok in H' as (_ & _ & H'). apply result_bind_ok in H' as (_ & _ & [= <- <-]).
    rewrite Hdb. done.
  - destruct H'. congruence.
Qed.

(** What [Authenticate] does, whole. *)
Lemma Authenticate_run (ring : TokenHashKeyRing) (token : string) (w : world) :
  TrimSpace token ≠ "" →
  (∀ p w', Authenticate ring token w = (Ok p, w') →
     ∃ r, r ∈ session_rows (w_db w) ∧ names ring (TrimSpace token) r ∧ usable r = true ∧
          w_now w < r.(sr_Session).(UserSession_ExpiresAt) ∧ p = userPrincipal r) ∧
  (w_faults w = [] →
     (∀ r, r ∈ session_rows (w_db w) → names ring (TrimSpace token) r →
        (∀ r', r' ∈ session_rows (w_db w) → names ring (TrimSpace token) r' → r' = r) →
        (Authenticate ring token w).1 =
          if usable r && (w_now w <? r.(sr_Session).(UserSession_ExpiresAt)) then Ok (userPrincipal r)
          else Err ErrInvalidSession) ∧
     ((∀ r, r ∈ session_rows (w_db w) → ¬ names ring (TrimSpace token) r) →
      (Authenticate ring token w).1 = Err ErrInvalidSession)).
Proof.
  intros Hne. unfold Authenticate.
  rewrite (proj2 (String.eqb_neq _ _) Hne).
  destruct (CandidateHashes_run ring (TrimSpace token) w) as (hs & Hc & Hhs).
  set (w1 := set_fresh _ w) in Hc. rewrite (bind_run _ _ _ _ _ Hc).
  assert (Hfound : ∀ r w2, firstByHash GetUserSessionByHash hs w1 = (Ok (Some r), w2) →
    r ∈ session_rows (w_db w) ∧ names ring (TrimSpace token) r).
  { intros r w2 H'. apply firstByHash_ok in H' as (h & Hh & Hr). apply pg_one_ok in Hr as [Hr E].
    split; [exact Hr|]. apply String.eqb_eq in E. apply Hhs in Hh as (v & k & ? & ->). by exists v, k. }
  split.
  - intros p w' H'. apply bind_ok in H' as (found & w2 & Hf & H'). quiet_facts Hf.
    destruct found as [r|]; [|by apply fail_ok in H']. destruct (Hfound _ _ Hf) as [Hr Hn].
    destruct (usable r) eqn:Eu; [|by apply fail_ok in H']. simpl in H'.
    clock_step H' now. destruct (Z.leb_spec (UserSession_ExpiresAt (sr_Session r)) now); [by apply fail_ok in H'|].
    apply bind_ok in H' as (u & w4 & Hs & H'). apply ret_ok in H' as [<- <-].
    change (w_now w2 = w_now w) in Hnow. exists r. split_and!; try done. congruence.
  - intros Hw. destruct (lookup_run session_rows session_hash hs w1 Hw) as [o Ho].
    change (λ h, query (row_by_hash session_rows session_hash h)) with GetUserSessionByHash in Ho.
    rewrite (bind_run _ _ _ _ _ Ho). split.
    + intros r Hr Hn Huniq. destruct o as [r'|].
      * destruct (Hfound _ _ Ho) as [Hr' Hn']. rewrite (Huniq r' Hr' Hn'). clear r' Ho Hr' Hn'.
        destruct (usable r); [|done]. simpl. unfold mbind, M_bind, clock. simpl.
        change (w_clock w (w_tick w)) with (w_now w).
        destruct (Z.leb_spec (UserSession_ExpiresAt (sr_Session r)) (w_now w)), (Z.ltb_spec (w_now w) (UserSession_ExpiresAt (sr_Session r)));
          try lia; [done|]. rewrite stmt_run by done. done.
      * apply firstByHash_ok in Ho. destruct Hn as (v & k & Hv & E). exfalso.
        assert (Hin : session_hash r ∈ hs) by (apply Hhs; eauto). apply Ho in Hin. unfold row_by_hash in Hin.
        rewrite pg_one_find in Hin. destruct (find _ _) eqn:Ef; [done|]. apply list_elem_of_In in Hr.
        pose proof (find_none _ _ Ef _ Hr) as Hb. simpl in Hb. by rewrite String.eqb_refl in Hb.
    + intros Hnone. destruct o as [r'|]; [|done]. destruct (Hfound _ _ Ho) as [Hr' Hn']. by destruct (Hnone r').
Qed.

(** A session token speaks for the member the session was opened for, as
    that member is now. Any success names a stored session that is active and
    unexpired and whose user and membership are active, and carries the role of
    the membership at this moment. When no call fails and only one session
    answers to the token, the session decides the outcome: disabling the user
    or the membership, revoking the session or reaching its expiry turns the
    very next request away, and nothing else does. *)
Theorem Authenticate_session (ring : TokenHashKeyRing) (token : string) (w : world) :
  TrimSpace token ≠ "" →
  (∀ p w', Authenticate ring token w = (Ok p, w') →
     ∃ r, r ∈ session_rows (w_db w) ∧ names ring (TrimSpace token) r ∧ usable r = true ∧
          w_now w < r.(sr_Session).(UserSession_ExpiresAt) ∧ p = userPrincipal r) ∧
  (w_faults w = [] →
     (∀ r, r ∈ session_rows (w_db w) → names ring (TrimSpace token) r →
        (∀ r', r' ∈ session_rows (w_db w) → names ring (TrimSpace token) r' → r' = r) →
        (Authenticate ring token w).1 =
          if usable r && (w_now w <? r.(sr_Session).(UserSession_ExpiresAt)) then Ok (userPrincipal r)
          else Err ErrInvalidSession) ∧
     ((∀ r, r ∈ session_rows (w_db w) → ¬ names ring (TrimSpace token) r) →
      (Authenticate ring token w).1 = Err ErrInvalidSession)).
Proof. apply Authenticate_run. Qed.

Lemma PasswordlessMockLogin_ok ring ttl orgSlug email w res w1 :
  PasswordlessMockLogin ring ttl orgSlug email w = (Ok res, w1) →
  ∃ r, r ∈ member_rows (w_db w) ∧ member_active r = true ∧
    r.(mr_Org).(Organization_Slug) = TrimSpace orgSlug ∧
    sql_lower r.(mr_User).(User_Email) = sql_lower (normalizeEmail email) ∧
    res.(lr_OrgID) = r.(mr_Org).(Organization_ID) ∧ res.(lr_UserID) = r.(mr_User).(User_ID) ∧
    res.(lr_Role) = r.(mr_Membership).(OrgMembership_Role) ∧
    w_db w1 = set_user_sessions (λ ss, ss ++ [res.(lr_Session)]) (w_db w) ∧
    opened ring res.(lr_OrgID) res.(lr_UserID) res.(lr_Token) (w_now w + ttl) (w_now w) res.(lr_Session) ∧
    TrimSpace res.(lr_Token) = res.(lr_Token) ∧ res.(lr_Token) ≠ "".
Proof.
  unfold PasswordlessMockLogin. intros H'. case_match; [done|].
  apply bind_ok in H' as (r & w2 & Hr & H'). apply orNoRows_ok in Hr. quiet_facts Hr.
  apply query_ok in Hr as [Hr _]. apply pg_one_ok in Hr as [Hin Hr].
  rewrite !andb_true_iff, !String.eqb_eq in Hr. destruct Hr as [[Hslug Hmail] Hact].
  apply bind_ok in H' as (token & w3 & Hk & H').
  pose proof (generateToken_trim _ _ _ _ Hk ltac:(done)) as Htrim.
  apply generateToken_ok in Hk as (Hdb3 & Hnow3 & _ & bs & Htok & _).
  clock_step H' now. apply bind_ok in H' as (s & w5 & Hs & H'). apply ret_ok in H' as [<- <-].
  apply openSession_cases in Hs as [Hs Ho]. simpl. exists r.
  assert (Hdb5 : w_db w0 = w_db w) by congruence. assert (Hn5 : now = w_now w) by congruence.
  rewrite Hdb5 in Hs. rewrite Hn5 in Ho. split_and!; try done. by rewrite Htok.
Qed.

(** Logging in gives a token that works. The token [PasswordlessMockLogin]
    returns authenticates, under any later ring that still holds the secret it
    was hashed with and at any later state of the members, exactly while the
    session is active, unexpired ([ttl] after the login) and its membership and
    user are active; it then speaks for that user with the membership's role of
    that moment. *)
Theorem login_authenticates (ring ring2 : TokenHashKeyRing) (ttl : Z) (orgSlug email : string) (w w1 w2 : world)
    (res : PasswordlessMockLoginResult) (s : UserSession) (m : OrgMembership) (u : User) :
  PasswordlessMockLogin ring ttl orgSlug email w = (Ok res, w1) →
  accepts ring2 (activeHasher ring).(secret) → w_faults w2 = [] →
  s ∈ (w_db w2).(user_sessions) → same_session res.(lr_Session) s →
  m ∈ (w_db w2).(org_memberships) → m.(OrgMembership_OrgID) = res.(lr_OrgID) → m.(OrgMembership_UserID) = res.(lr_UserID) →
  u ∈ (w_db w2).(users) → u.(User_ID) = res.(lr_UserID) →
  (∀ r, r ∈ session_rows (w_db w2) → names ring2 res.(lr_Token) r → r = mkSessionRow s m u) →
  (Authenticate ring2 res.(lr_Token) w2).1 =
    if active s.(UserSession_Status) && active m.(OrgMembership_Status) && active u.(User_Status)
       && (w_now w2 <? w_now w + ttl)
    then Ok (mkAdminTokenPrincipal res.(lr_OrgID) Nil ActorUser m.(OrgMembership_Role) (Some res.(lr_UserID))
               (Some m.(OrgMembership_ID)) (Some res.(lr_Session).(UserSession_ID)) u.(User_Email) u.(User_DisplayName) [])
    else Err ErrInvalidSession.
Proof.
  intros Hl [v Hv] Hw Hs (Hid & Ho & Hu & Hh & Hx) Hm Hmo Hmu Hu0 Huid Huniq.
  apply PasswordlessMockLogin_ok in Hl as (r & _ & _ & _ & _ & _ & _ & _ & _ & Hopen & Htrim & Hne).
  destruct Hopen as (Eo & Eu & Eh & _ & Ex & _).
  pose proof (Authenticate_run ring2 res.(lr_Token) w2) as [_ Ha]; [by rewrite Htrim|].
  destruct (Ha Hw) as [Hdec _]. rewrite Htrim in Hdec.
  rewrite (Hdec (mkSessionRow s m u)).
  - unfold usable, userPrincipal. simpl. by rewrite Hx, Ex, Ho, Hu, Hid, Eo, Eu.
  - apply elem_of_session_rows. split_and!; congruence.
  - exists v, (activeHasher ring). split; [by rewrite Hv; destruct (activeHasher ring)|].
    unfold session_hash. simpl. by rewrite Hh, Eh.
  - done.
Qed.
End service.

(** ** An example: Ann, an administrator of Acme *)

#[local] Existing Instance ex_runtime.

Definition ex_members : DB :=
  set_organizations (λ _, [mkOrganization 1%N "Acme" "acme" "active" 0 0])
  (set_users (λ _, [mkUser 5%N "ann@example.com" "Ann" "active" 0 0])
  (set_org_memberships (λ _, [mkOrgMembership 6%N 1%N 5%N "admin" "active" 0 0]) emptyDB)).
Definition ex_members_world : world := set_db ex_members ex_world.
Definition ex_login := PasswordlessMockLogin ex_ring defaultSessionTTL " acme" "Ann@Example.com" ex_members_world.

Definition ex_session : UserSession :=
  match ex_login.1 with
  | Ok res => res.(lr_Session)
  | Err _ => mkUserSession Nil Nil Nil "" "" "" 0 None 0 None
  end.
Definition ex_row : SessionRow :=
  mkSessionRow ex_session (mkOrgMembership 6%N 1%N 5%N "admin" "active" 0 0) (mkUser 5%N "ann@example.com" "Ann" "active" 0 0).

Lemma ex_session_rows : session_rows (w_db ex_login.2) = [ex_row].
Proof. by vm_compute. Qed.

Lemma login_authenticates_witness :
  ∃ res, ex_login.1 = Ok res ∧
    ∃ p, (Authenticate ex_ring' res.(lr_Token) ex_login.2).1 = Ok p ∧ p.(at_Role) = "admin".
Proof.
  destruct ex_login as [r w1] eqn:E. assert (Hrows := ex_session_rows). rewrite E in Hrows. simpl in Hrows.
  destruct r as [res|e]; [|by vm_compute in E]. exists res. split; [done|]. simpl.
  rewrite (login_authenticates ex_ring ex_ring' defaultSessionTTL " acme" "Ann@Example.com" ex_members_world w1 w1 res
             ex_session ex_row.(sr_Member) ex_row.(sr_User) E).
  2-11: vm_compute in E; injection E as <- <-.
  - vm_compute in E. injection E as <- <-. eexists. split; [vm_compute; reflexivity|done].
  - exists 1. by vm_compute.
  - done.
  - vm_compute. by left.
  - done.
  - vm_compute. by left.
  - done.
  - done.
  - vm_compute. by left.
  - done.
  - intros r Hr _. rewrite Hrows in Hr. by apply list_elem_of_singleton in Hr.
Defined.

Lemma Authenticate_session_witness :
  ∃ token, TrimSpace token ≠ "" ∧ (Authenticate ex_ring token ex_members_world).1 = Err ErrInvalidSession.
Proof.
  exists "llmgw_session_unknown". split; [by vm_compute|].
  destruct (Authenticate_session ex_ring "llmgw_session_unknown" ex_members_world ltac:(by vm_compute)) as [_ H].
  destruct (H eq_refl) as [_ Hnone]. apply Hnone. intros r Hr. vm_compute in Hr. inversion Hr.
Defined.
End Sessions.
