(* ===== verification/MagicLinks.v ===== *)
(** * Magic links: [internal/auth/magic_link_service.go]

    Logging in through a link sent by e-mail: requested for a member at most
    three times an hour, consumed once, before it expires, in the transaction
    that opens the session. *)

From S2P Require Import Prelude GoTime GoStrings Encodings Costing Store ExampleWorld QuotaService Rbac Tokens AdminTokens Sessions.

Module MagicLinks.
Import Rbac Sessions.

Definition MagicLinkPlainPrefix : string := "llmgw_magic_".
Definition defaultMagicLinkTTL : Z := 15 * Minute.
Definition defaultMagicLinkRateLimitPerHour : Z := 3.
Definition ErrInvalidMagicLink : err := EMsg "invalid magic link".

(** [MagicLinkService]: its configuration, and whether it has a store and a sender. *)
Record MagicLinkService := mkMagicLinkService {
  sv_configured : bool;
  sv_BaseURL : string;
  sv_ttl : Z
}.

(** The lifetime [NewMagicLinkService] settles on. *)
Definition linkTTL (configured : Z) : Z := if configured <=? 0 then defaultMagicLinkTTL else configured.

(** ** Queries *)

Definition magic_link_check (l : MagicLinkToken) : bool :=
  negb (String.eqb l.(MagicLinkToken_Email) "") && negb (String.eqb l.(MagicLinkToken_TokenPrefix) "")
  && negb (String.eqb l.(MagicLinkToken_TokenHash) "")
  && (active l.(MagicLinkToken_Status) || String.eqb l.(MagicLinkToken_Status) "consumed")
  && Bool.eqb (String.eqb l.(MagicLinkToken_Status) "consumed") (bool_decide (l.(MagicLinkToken_ConsumedAt) ≠ None)).

Definition magic_link_clash (l q : MagicLinkToken) : bool :=
  (q.(MagicLinkToken_ID) =? l.(MagicLinkToken_ID))%N || String.eqb q.(MagicLinkToken_TokenHash) l.(MagicLinkToken_TokenHash).

Definition insert_magic_link (l : MagicLinkToken) (d : DB) : result (MagicLinkToken * DB) :=
  _ ← pg_check (magic_link_check l);
  _ ← pg_unique (magic_link_clash l) d.(magic_link_tokens);
  Ok (l, set_magic_link_tokens (λ ls, ls ++ [l]) d).

Definition consumed (now : Z) (l : MagicLinkToken) : MagicLinkToken :=
  mkMagicLinkToken l.(MagicLinkToken_ID) l.(MagicLinkToken_OrgID) l.(MagicLinkToken_UserID) l.(MagicLinkToken_Email)
    l.(MagicLinkToken_TokenPrefix) l.(MagicLinkToken_TokenHash) "consumed" l.(MagicLinkToken_ExpiresAt) (Some now)
    l.(MagicLinkToken_CreatedAt).

(** The member a link is for, while organisation, user and membership are active. *)
Definition link_member (d : DB) (l : MagicLinkToken) : option MemberRow :=
  find (λ r, (r.(mr_Membership).(OrgMembership_OrgID) =? l.(MagicLinkToken_OrgID))%N
             && (r.(mr_Membership).(OrgMembership_UserID) =? l.(MagicLinkToken_UserID))%N
             && member_active r) (member_rows d).

Definition consumable (d : DB) (tokenHash : string) (now : Z) (l : MagicLinkToken) : bool :=
  String.eqb l.(MagicLinkToken_TokenHash) tokenHash && active l.(MagicLinkToken_Status)
  && bool_decide (l.(MagicLinkToken_ConsumedAt) = None) && (now <? l.(MagicLinkToken_ExpiresAt))
  && match link_member d l with Some _ => true | None => false end.

(** [UPDATE ... FROM ... RETURNING] read through [QueryRow]. *)
Definition consume_link (tokenHash : string) (now : Z) (d : DB) : result ((MagicLinkToken * MemberRow) * DB) :=
  l ← pg_one (consumable d tokenHash now) d.(magic_link_tokens);
  match link_member d l with
  | Some r => Ok ((consumed now l, r),
                  set_magic_link_tokens (map (λ x, if consumable d tokenHash now x then consumed now x else x)) d)
  | None => Err ENoRows
  end.

Section service.
Context `{Runtime}.

(** The links a rate limit counts: those of one member and address since an instant. *)
Definition recent (orgID userID : uuid) (email : string) (since : Z) (l : MagicLinkToken) : bool :=
  (l.(MagicLinkToken_OrgID) =? orgID)%N && (l.(MagicLinkToken_UserID) =? userID)%N
  && String.eqb (sql_lower l.(MagicLinkToken_Email)) (sql_lower email) && (since <=? l.(MagicLinkToken_CreatedAt)).

Definition recentRequestLimitExceeded (orgID userID : uuid) (email : string) (since : Z) : M bool :=
  count ← query (λ d, Ok (Z.of_nat (length (List.filter (recent orgID userID email since) d.(magic_link_tokens)))));
  mret (defaultMagicLinkRateLimitPerHour <=? count).

Definition magicLinkURL (s : MagicLinkService) (token : string) : string :=
  url_set_query s.(sv_BaseURL) "magic_token" token.

Definition Request (s : MagicLinkService) (ring : TokenHashKeyRing) (orgSlug email : string) : M unit :=
  if negb s.(sv_configured) then fail (EMsg "magic link service is not configured")
  else
    let orgSlug := TrimSpace orgSlug in
    let userEmail := normalizeEmail email in
    if String.eqb orgSlug "" || String.eqb userEmail "" then mret tt
    else
      found ← try (GetActiveMembershipByOrgSlugAndEmail orgSlug userEmail);
      match found with
      | Err ENoRows => mret tt
      | Err e => fail e
      | Ok r =>
          now ← clock;
          limited ← recentRequestLimitExceeded r.(mr_Org).(Organization_ID) r.(mr_User).(User_ID)
                      r.(mr_User).(User_Email) (now - Hour);
          if (limited : bool) then mret tt
          else
            token ← generateToken MagicLinkPlainPrefix;
            id ← new_uuid;
            _ ← stmt (insert_magic_link
              (mkMagicLinkToken id r.(mr_Org).(Organization_ID) r.(mr_User).(User_ID) r.(mr_User).(User_Email)
                 (visibleCredentialPrefix token MagicLinkPlainPrefix) (Hash ring token) "active" (now + s.(sv_ttl)) None now));
            _ ← call;
            emit (EffEmail r.(mr_User).(User_Email) (magicLinkURL s token) (now + s.(sv_ttl)))
      end.

(** The closure [Consume] passes to [ExecTx]. *)
Definition consumeTx (ring : TokenHashKeyRing) (token sessionToken : string) (now : Z) : M PasswordlessMockLoginResult :=
  hashes ← CandidateHashes ring token;
  found ← firstByHash (λ h, stmt (consume_link h now)) hashes;
  match found with
  | None => fail ErrInvalidMagicLink
  | Some (l, r) =>
      session ← openSession ring l.(MagicLinkToken_OrgID) l.(MagicLinkToken_UserID) sessionToken (now + defaultSessionTTL) now;
      mret (mkPasswordlessMockLoginResult sessionToken session l.(MagicLinkToken_OrgID) r.(mr_Org).(Organization_Slug)
              l.(MagicLinkToken_UserID) r.(mr_User).(User_Email) r.(mr_User).(User_DisplayName)
              r.(mr_Membership).(OrgMembership_ID) r.(mr_Membership).(OrgMembership_Role))
  end.

Definition Consume (ring : TokenHashKeyRing) (token : string) : M PasswordlessMockLoginResult :=
  let token := TrimSpace token in
  if String.eqb token "" then fail ErrInvalidMagicLink
  else
    sessionToken ← generateToken SessionPlainPrefix;
    now ← clock;
    ExecTx (consumeTx ring token sessionToken now).

(** ** Specification *)

(** A stored link is the one a token names, under a secret of the ring. *)
Definition names (ring : TokenHashKeyRing) (token : string) (l : MagicLinkToken) : Prop :=
  ∃ v k, ring.(hashers) !! v = Some k ∧ l.(MagicLinkToken_TokenHash) = hash k token.

(** How the table of links changes: by the service, whatever its calls return,
    and not otherwise. *)
Inductive step : DB → DB → Prop :=
| step_request s ring orgSlug email w r w' : Request s ring orgSlug email w = (r, w') → step (w_db w) (w_db w')
| step_consume ring token w r w' : Consume ring token w = (r, w') → step (w_db w) (w_db w')
| step_other d d' : d'.(magic_link_tokens) = d.(magic_link_tokens) → step d d'.

Definition evolves : DB → DB → Prop := rtc step.

Definition links_keyed (d : DB) : Prop := NoDup (map MagicLinkToken_ID d.(magic_link_tokens)).

(** A link made for a member and address within the hour that ends at [t]. *)
Definition within_hour (orgID userID : uuid) (email : string) (t : Z) (l : MagicLinkToken) : bool :=
  recent orgID userID email (t - Hour) l && (l.(MagicLinkToken_CreatedAt) <=? t).

(** At most three links of a member and address in any hour. *)
Definition hourly_limit (d : DB) : Prop :=
  ∀ orgID userID email t,
    (length (List.filter (within_hour orgID userID email t) d.(magic_link_tokens)) <= 3)%nat.

(** ** Proofs *)

Lemma Request_cases s ring orgSlug email w r w' :
  Request s ring orgSlug email w = (r, w') →
  (w_db w').(magic_link_tokens) = (w_db w).(magic_link_tokens) ∨
  ∃ l, (w_db w').(magic_link_tokens) = (w_db w).(magic_link_tokens) ++ [l] ∧
    Forall (λ q, magic_link_clash l q = false) (w_db w).(magic_link_tokens) ∧
    l.(MagicLinkToken_Status) = "active" ∧
    (length (List.filter (recent l.(MagicLinkToken_OrgID) l.(MagicLinkToken_UserID) l.(MagicLinkToken_Email)
       (l.(MagicLinkToken_CreatedAt) - Hour)) (w_db w).(magic_link_tokens)) < 3)%nat.
Proof.
  unfold Request. intros H'. case_match; [injection H' as <- <-; by left|].
  case_match; [injection H' as <- <-; by left|].
  apply bind_cases in H' as [(found & w1 & Hf & H')|(e & Hf & ->)]; [|by apply try_never in Hf].
  apply try_ok in Hf. quiet_facts Hf.
  destruct found as [r0|e]; [|left; destruct e; injection H' as <- <-; congruence].
  clock_step H' now. apply bind_cases in H' as [(limited & w3 & Hl & H')|(e & Hl & ->)].
  2: { unfold recentRequestLimitExceeded in Hl. quiet_facts Hl. left. congruence. }
  unfold recentRequestLimitExceeded in Hl. apply bind_ok in Hl as (count & w4 & Hq & Hl).
  apply query_ok in Hq as [Hq Hdb4]. injection Hq as <-. apply ret_ok in Hl as [<- <-].
  destruct (_ <=? _) eqn:Elim; [injection H' as <- <-; left; congruence|]. apply Z.leb_gt in Elim.
  unfold defaultMagicLinkRateLimitPerHour in Elim.
  quiet_step H' token; [|left; congruence]. quiet_step H' newID; [|left; congruence].
  apply bind_cases in H' as [(l & w6 & Hs & H')|(e & Hs & ->)]; apply stmt_cases in Hs; [|left; destruct Hs; congruence].
  right. apply result_bind_ok in Hs as (_ & _ & Hs). apply result_bind_ok in Hs as ([] & Hu & [= <- Hw6]).
  assert (Hdb3 : w_db w3 = w_db w) by congruence. rewrite Hdb3 in Hu, Hw6.
  eexists. split; [|split; [apply pg_unique_ok, Hu|split; [done|]]].
  - assert (w_db w' = w_db w6) as ->; [|by rewrite <- Hw6].
    apply bind_cases in H' as [(u & w7 & Hc & H')|(e & Hc & ->)]; quiet_facts Hc; [|done].
    injection H' as <- <-. simpl. congruence.
  - simpl. rewrite Hdb0 in Elim. rewrite Hdb in Elim. lia.
Qed.

(** What [Consume] has done when it returns, on every path. *)
Lemma Consume_cases ring token w r w' :
  Consume ring token w = (r, w') →
  match r with
  | Ok res => ∃ h l m, h = l.(MagicLinkToken_TokenHash) ∧ names ring (TrimSpace token) l ∧
      l ∈ (w_db w).(magic_link_tokens) ∧ consumable (w_db w) h (w_now w) l = true ∧ link_member (w_db w) l = Some m ∧
      (w_db w').(magic_link_tokens) =
        map (λ x, if consumable (w_db w) h (w_now w) x then consumed (w_now w) x else x) (w_db w).(magic_link_tokens) ∧
      (w_db w').(user_sessions) = (w_db w).(user_sessions) ++ [res.(lr_Session)] ∧
      opened ring l.(MagicLinkToken_OrgID) l.(MagicLinkToken_UserID) res.(lr_Token)
        (w_now w + defaultSessionTTL) (w_now w) res.(lr_Session) ∧
      res.(lr_OrgID) = l.(MagicLinkToken_OrgID) ∧ res.(lr_UserID) = l.(MagicLinkToken_UserID) ∧
      res.(lr_MembershipID) = m.(mr_Membership).(OrgMembership_ID) ∧ res.(lr_Role) = m.(mr_Membership).(OrgMembership_Role)
  | Err _ => w_db w' = w_db w
  end.
Proof.
  unfold Consume. intros H'. case_match; [by injection H' as <- <-|].
  quiet_step H' stoken. clock_step H' now. rewrite Enow, Hnow in *.
  destruct r as [res|e]; [|pose proof (ExecTxRaw_err (consumeTx ring (TrimSpace token) stoken (w_now w)) w1 e) as He;
    unfold ExecTx in H'; rewrite H' in He; simpl in He; rewrite He by done; congruence].
  apply WithTx_ok in H' as (w2 & w3 & Hdb2 & _ & H' & Hw'). simpl in Hw'.
  unfold consumeTx in H'. destruct (CandidateHashes_run ring (TrimSpace token) w2) as (hs & Hc & Hhs).
  rewrite (bind_run _ _ _ _ _ Hc) in H'. apply bind_ok in H' as (found & w4 & Hf & H').
  apply firstByHash_stmt in Hf. destruct found as [[l m]|]; [|by apply fail_ok in H'].
  destruct Hf as (h & Hh & Hl). change (w_db (set_fresh _ w2)) with (w_db w2) in Hl.
  rewrite Hdb2, Hdb0, Hdb in Hl. unfold consume_link in Hl.
  apply result_bind_ok in Hl as (l0 & Hl0 & Hl). apply pg_one_ok in Hl0 as [Hin Hcons].
  destruct (link_member (w_db w) l0) as [m0|] eqn:Em; [|done]. injection Hl as <- -> Hw4.
  apply bind_ok in H' as (s & w5 & Hs & H'). apply ret_ok in H' as [<- <-].
  apply openSession_cases in Hs as [Hs1 Hs2].
  assert (h = l0.(MagicLinkToken_TokenHash)) as Heq.
  { unfold consumable in Hcons. rewrite !andb_true_iff, String.eqb_eq in Hcons. naive_solver. }
  exists h, l0, m. rewrite Hw', Hs1, <- Hw4. simpl. split_and!; try done.
  unfold names. rewrite <- Heq. by apply Hhs.
Qed.

(** Sessions, members and users are not links. *)
Lemma consumed_id d h now ls :
  map MagicLinkToken_ID (map (λ x, if consumable d h now x then consumed now x else x) ls) = map MagicLinkToken_ID ls.
Proof. rewrite map_map. apply map_ext. intros l. by destruct (consumable _ _ _ _). Qed.

Lemma clash_ids l ls :
  Forall (λ q, magic_link_clash l q = false) ls → ∀ q, q ∈ ls → q.(MagicLinkToken_ID) ≠ l.(MagicLinkToken_ID).
Proof.
  rewrite List.Forall_forall. intros H' q Hq. specialize (H' q (proj1 (list_elem_of_In _ _) Hq)). unfold magic_link_clash in H'.
  apply orb_false_iff in H' as [H' _]. by apply N.eqb_neq in H'.
Qed.

(** A step adds one fresh link, or marks some as consumed, or neither. *)
Lemma step_links d d' :
  step d d' →
  d'.(magic_link_tokens) = d.(magic_link_tokens) ∨
  (∃ l, d'.(magic_link_tokens) = d.(magic_link_tokens) ++ [l] ∧
     (∀ q, q ∈ d.(magic_link_tokens) → q.(MagicLinkToken_ID) ≠ l.(MagicLinkToken_ID)) ∧
     (length (List.filter (recent l.(MagicLinkToken_OrgID) l.(MagicLinkToken_UserID) l.(MagicLinkToken_Email)
        (l.(MagicLinkToken_CreatedAt) - Hour)) d.(magic_link_tokens)) < 3)%nat) ∨
  (∃ h now, d'.(magic_link_tokens) =
     map (λ x, if consumable d h now x then consumed now x else x) d.(magic_link_tokens)).
Proof.
  intros [s ring orgSlug email w r w' H'|ring token w r w' H'|d1 d2 H']; [| |by left].
  - apply Request_cases in H' as [H'|(l & H' & Hc & _ & Hn)]; [by left|]. right. left. exists l.
    split; [done|]. split; [by apply clash_ids|done].
  - apply Consume_cases in H'. destruct r as [res|e]; [|left; by rewrite H'].
    destruct H' as (h & l & m & _ & _ & _ & _ & _ & H' & _). right. right. eauto.
Qed.

Lemma step_keyed d d' : step d d' → links_keyed d → links_keyed d'.
Proof.
  intros [H'|[(l & H' & Hl & _)|(h & now & H')]]%step_links Hk; unfold links_keyed; rewrite H'; [done| |].
  - by apply NoDup_map_snoc.
  - by rewrite consumed_id.
Qed.

(** Once consumed, the link with an identifier stays consumed. *)
Definition spent (linkID : uuid) (d : DB) : Prop :=
  (∃ l, l ∈ d.(magic_link_tokens) ∧ l.(MagicLinkToken_ID) = linkID) ∧
  ∀ l, l ∈ d.(magic_link_tokens) → l.(MagicLinkToken_ID) = linkID → l.(MagicLinkToken_Status) = "consumed".

Lemma step_spent i d d' : step d d' → spent i d → spent i d'.
Proof.
  intros [H'|[(l & H' & Hl & _)|(h & now & H')]]%step_links [(l0 & Hin & Hid) Hs]; unfold spent; rewrite H'; [naive_solver| |].
  - split; [exists l0; split; [apply elem_of_app; by left|done]|].
    intros q [Hq|Hq]%elem_of_app He; [auto|]. apply list_elem_of_singleton in Hq as ->.
    exfalso. apply (Hl l0); [done|congruence].
  - split.
    + exists (if consumable d h now l0 then consumed now l0 else l0). split; [|by destruct (consumable _ _ _ _)].
      apply list_elem_of_In, in_map_iff. exists l0. split; [done|by apply list_elem_of_In].
    + intros q (x & <- & Hx)%list_elem_of_In%in_map_iff. apply list_elem_of_In in Hx.
      destruct (consumable d h now x); simpl; auto.
Qed.

Lemma evolves_spent i d d' : evolves d d' → spent i d → spent i d'.
Proof. induction 1; eauto using step_spent. Qed.

(** C15: a magic link logs in once. When [Consume] returns a session, the token
    named a stored link that was active, unexpired and for a member who is
    active in an active organisation; the link is marked, and exactly one
    session is opened, for the link's user and organisation, with the role the
    membership has now. However the service goes on, with whatever failures and
    key rings, no later [Consume] of a token that names this link succeeds. On
    every other path the database is as it was. *)
Theorem Consume_once (ring : TokenHashKeyRing) (token : string) (w : world) (r : result PasswordlessMockLoginResult) (w1 : world) :
  links_keyed (w_db w) → Consume ring token w = (r, w1) →
  match r with
  | Err _ => w_db w1 = w_db w
  | Ok res => ∃ l m,
      l ∈ (w_db w).(magic_link_tokens) ∧ names ring (TrimSpace token) l ∧
      l.(MagicLinkToken_Status) = "active" ∧ w_now w < l.(MagicLinkToken_ExpiresAt) ∧
      m ∈ member_rows (w_db w) ∧ member_active m = true ∧
      res.(lr_OrgID) = l.(MagicLinkToken_OrgID) ∧ res.(lr_UserID) = l.(MagicLinkToken_UserID) ∧
      m.(mr_Membership).(OrgMembership_OrgID) = res.(lr_OrgID) ∧ m.(mr_Membership).(OrgMembership_UserID) = res.(lr_UserID) ∧
      res.(lr_Role) = m.(mr_Membership).(OrgMembership_Role) ∧
      (w_db w1).(user_sessions) = (w_db w).(user_sessions) ++ [res.(lr_Session)] ∧
      opened ring res.(lr_OrgID) res.(lr_UserID) res.(lr_Token) (w_now w + defaultSessionTTL) (w_now w) res.(lr_Session) ∧
      ∀ w2 ring2 token2 res2 w3,
        evolves (w_db w1) (w_db w2) →
        (∀ l', l' ∈ (w_db w2).(magic_link_tokens) → names ring2 (TrimSpace token2) l' →
               l'.(MagicLinkToken_ID) = l.(MagicLinkToken_ID)) →
        Consume ring2 token2 w2 ≠ (Ok res2, w3)
  end.
Proof.
  intros Hk H'. apply Consume_cases in H'. destruct r as [res|e]; [|done].
  destruct H' as (h & l & m & -> & Hn & Hin & Hc & Hm & Hl & Hs & Ho & Hro & Hru & _ & Hrr).
  assert (Hmem := Hm). unfold link_member in Hmem. apply find_some in Hmem as [Hmin Hma].
  rewrite !andb_true_iff, !N.eqb_eq in Hma. destruct Hma as [[Hmo Hmu] Hma].
  assert (Hcd := Hc). unfold consumable in Hcd. rewrite !andb_true_iff in Hcd.
  destruct Hcd as [[[[_ Hact] _] Hexp] _].
  exists l, m. rewrite <- Hro, <- Hru in Ho. rewrite Hro, Hru.
  split_and!; try done; [by apply String.eqb_eq|by apply Z.ltb_lt|by apply list_elem_of_In|by rewrite <- Hro, <- Hru|].
  assert (Hspent : spent l.(MagicLinkToken_ID) (w_db w1)).
  { unfold spent. rewrite Hl. split.
    - exists (consumed (w_now w) l). split; [|done]. apply list_elem_of_In, in_map_iff. exists l.
      rewrite Hc. split; [done|by apply list_elem_of_In].
    - intros q (x & <- & Hx)%list_elem_of_In%in_map_iff Hid. apply list_elem_of_In in Hx.
      assert (x = l) as ->; [|by rewrite Hc].
      apply (NoDup_map_inj MagicLinkToken_ID (w_db w).(magic_link_tokens)); [done..|].
      by destruct (consumable _ _ _ x). }
  intros w2 ring2 token2 res2 w3 He Huniq H2. destruct (evolves_spent _ _ _ He Hspent) as [_ Hspent2].
  apply Consume_cases in H2. destruct H2 as (h & l' & m' & -> & Hn' & Hin' & Hc' & _).
  specialize (Hspent2 l' Hin' (Huniq l' Hin' Hn')).
  unfold consumable in Hc'. rewrite !andb_true_iff in Hc'. destruct Hc' as [[[[_ Ha] _] _] _].
  apply String.eqb_eq in Ha. congruence.
Qed.

Lemma filter_map_same {A} (p : A → bool) (f : A → A) l :
  (∀ x, p (f x) = p x) → length (List.filter p (map f l)) = length (List.filter p l).
Proof. intros H'. induction l as [|x l IH]; simpl; [done|]. rewrite H'. destruct (p x); simpl; congruence. Qed.

Lemma filter_length_mono {A} (p q : A → bool) l :
  (∀ x, x ∈ l → p x = true → q x = true) → (length (List.filter p l) <= length (List.filter q l))%nat.
Proof.
  intros H'. induction l as [|x l IH]; simpl; [done|].
  assert (IH' := IH ltac:(intros; apply H'; [by right|done])).
  destruct (p x) eqn:E; [rewrite (H' x) by (by left || done); simpl; lia|]. destruct (q x); simpl; lia.
Qed.

(** C31: links are rate limited. Along any run of the service no member and
    address ever has more than three links made within one hour, whichever hour
    one looks at and whatever the clock does. *)
Theorem at_most_three_links_an_hour (d d' : DB) : hourly_limit d → evolves d d' → hourly_limit d'.
Proof.
  intros H0 He. induction He as [|d d1 d' Hs _ IH]; [done|]. apply IH. clear IH d'.
  apply step_links in Hs as [H'|[(l & H' & _ & Hn)|(h & now & H')]]; unfold hourly_limit in *;
    intros orgID userID email t; rewrite H'; [apply H0| |].
  - rewrite List.filter_app, length_app. simpl. destruct (within_hour orgID userID email t l) eqn:Ew.
    2: { simpl. specialize (H0 orgID userID email t). lia. }
    simpl. cut (length (List.filter (within_hour orgID userID email t) d.(magic_link_tokens)) < 3)%nat; [lia|].
    eapply Nat.le_lt_trans; [|exact Hn]. apply filter_length_mono. intros x _ Hx.
    unfold within_hour, recent in *. rewrite !andb_true_iff, !N.eqb_eq, !String.eqb_eq, !Z.leb_le in *.
    destruct Ew as [[[[-> ->] Ee] ?] ?], Hx as [[[[-> ->] Ex] ?] ?]. split_and!; [done..|congruence|lia].
  - rewrite filter_map_same; [apply H0|]. intros x. by destruct (consumable _ _ _ x).
Qed.
End service.

(** ** An example *)

#[local] Existing Instance ex_runtime.

Definition ex_service : MagicLinkService := mkMagicLinkService true "https://gateway.example/login" (linkTTL 0).
Notation ex_requested := (Request ex_service ex_ring "acme" "ann@example.com" ex_members_world).

(** What the link in the mail carries. *)
Definition ex_mailed : string :=
  match ex_requested.2.(w_trace) with
  | [EffEmail _ link _] => TrimPrefix link "https://gateway.example/login?magic_token="
  | _ => ""
  end.

Notation ex_consumed := (Consume ex_ring' ex_mailed ex_requested.2).

Lemma ex_consumed_facts :
  match ex_consumed.1 with Ok res => res.(lr_UserID) = 5%N | Err _ => False end ∧
  map MagicLinkToken_ID (w_db ex_requested.2).(magic_link_tokens) = [1001%N] ∧
  map MagicLinkToken_ID (w_db ex_consumed.2).(magic_link_tokens) = [1001%N].
Proof. vm_compute. done. Qed.

(** The mailed token opens a session, once. *)
Lemma Consume_once_witness :
  ∃ res, ex_consumed.1 = Ok res ∧ res.(lr_UserID) = 5%N ∧
    ∀ res2 w3, Consume ex_ring' ex_mailed ex_consumed.2 ≠ (Ok res2, w3).
Proof.
  destruct ex_consumed_facts as (Hu & H1 & H2).
  destruct ex_consumed as [r w1] eqn:E. simpl fst in *. simpl snd in *.
  assert (Hk : links_keyed (w_db ex_requested.2)) by (unfold links_keyed; rewrite H1; apply NoDup_singleton).
  pose proof (Consume_once ex_ring' ex_mailed ex_requested.2 r w1 Hk E) as H.
  destruct r as [res|e]; [|done]. exists res. split; [done|]. split; [exact Hu|].
  destruct H as (l & m & Hl & _ & _ & _ & _ & _ & _ & _ & _ & _ & _ & _ & _ & Honce).
  assert (Hids : ∀ ls x, map MagicLinkToken_ID ls = [1001%N] → x ∈ ls → MagicLinkToken_ID x = 1001%N).
  { intros ls x Hls Hx. apply list_elem_of_In, (in_map MagicLinkToken_ID) in Hx. rewrite Hls in Hx. by destruct Hx. }
  intros res2 w3. apply (Honce w1); [constructor|]. intros l' Hl' _. by rewrite (Hids _ _ H1 Hl), (Hids _ _ H2 Hl').
Defined.

Lemma at_most_three_links_an_hour_witness :
  hourly_limit ex_members ∧ evolves ex_members (w_db ex_requested.2) ∧ hourly_limit (w_db ex_requested.2).
Proof.
  assert (H0 : hourly_limit ex_members) by (intros o u e t; simpl; lia).
  assert (He : evolves ex_members (w_db ex_requested.2)).
  { apply rtc_once. eapply (step_request ex_service ex_ring "acme" "ann@example.com" ex_members_world). apply surjective_pairing. }
  split; [exact H0|]. split; [exact He|]. by apply (at_most_three_links_an_hour _ _ H0 He).
Defined.
End MagicLinks.
