(* ===== verification/Secrets.v ===== *)
(** * Sealed secrets: [internal/crypto] and the envelope of [internal/budget/alert_service.go]

    Provider API keys and webhook secrets are kept encrypted under a ring of
    AES-256-GCM keys. The cipher is the class [AEAD], whose one law is that
    opening undoes sealing; the encodings around it are those of [Encodings]. *)

From S2P Require Import Prelude GoStrings Encodings Costing Store ExampleWorld Tokens.

Class AEAD := {
  gcm_seal : string → string → string → string;            (** key, nonce, plaintext *)
  gcm_open : string → string → string → option string;     (** key, nonce, ciphertext *)
  gcm_open_seal k n p : gcm_open k n (gcm_seal k n p) = Some p;
  gcm_seal_tag k n p : gcm_seal k n p ≠ ""                 (** it ends in a 16 byte tag *)
}.

Module Secrets.

Definition aes256KeyLength : nat := 32.
Definition nonceSize : nat := 12.

Record SecretBox := mkSecretBox { box_key : string }.

Record SealedSecret := mkSealedSecret {
  ss_Encrypted : string;
  ss_Nonce : string;
  ss_KeyVersion : Z
}.

Record SecretKeyRing := mkSecretKeyRing {
  kr_activeVersion : Z;
  kr_boxes : gmap Z SecretBox
}.

Definition NewSecretBox (key : string) : result SecretBox :=
  if (String.length key =? aes256KeyLength)%nat then Ok (mkSecretBox key)
  else Err (EMsg "secret encryption key must be 32 bytes").

Section crypto.
Context `{Runtime, AEAD}.

Definition box_Seal (b : SecretBox) (plaintext : string) : M SealedSecret :=
  nonce ← rand_Read nonceSize;
  mret (mkSealedSecret (StdEncode (gcm_seal b.(box_key) nonce plaintext)) (StdEncode nonce) 0).

(** [cipher.AEAD.Open] panics on a nonce of the wrong length. *)
Definition box_Open (b : SecretBox) (encrypted nonce : string) : result string :=
  match StdDecode encrypted with
  | None => Err (EMsg "illegal base64 data")
  | Some ciphertext =>
      match StdDecode nonce with
      | None => Err (EMsg "illegal base64 data")
      | Some nonceBytes =>
          if negb (String.length nonceBytes =? nonceSize)%nat then Err EPanic
          else match gcm_open b.(box_key) nonceBytes ciphertext with
               | None => Err (EMsg "cipher: message authentication failed")
               | Some plaintext => Ok plaintext
               end
      end
  end.

Definition NewSecretKeyRing (version : Z) (keys : gmap Z string) : M SecretKeyRing :=
  if version <=? 0 then fail (EMsg "active key version must be greater than 0")
  else if (size keys =? 0)%nat then fail (EMsg "secret keyring must contain at least one key")
  else
    items ← range keys;
    boxes ← forM items ∅ (λ (bs : gmap Z SecretBox) '(v, k),
      if v <=? 0 then fail (EMsg "key version must be greater than 0")
      else b ← lift (NewSecretBox k); mret (<[v := b]> bs));
    match boxes !! version with
    | None => fail (EMsg "active key version is not present in keyring")
    | Some _ => mret (mkSecretKeyRing version boxes)
    end.

Definition NewSingleKeyRing (key : string) : M SecretKeyRing := NewSecretKeyRing 1 {[1 := key]}.

Definition ActiveVersion (r : SecretKeyRing) : Z := r.(kr_activeVersion).

(** The box of the active version is [nil] when the map lacks it. *)
Definition Seal (r : SecretKeyRing) (plaintext : string) : M SealedSecret :=
  match r.(kr_boxes) !! r.(kr_activeVersion) with
  | None => fail EPanic
  | Some box =>
      sealed ← box_Seal box plaintext;
      mret (mkSealedSecret sealed.(ss_Encrypted) sealed.(ss_Nonce) r.(kr_activeVersion))
  end.

Definition Open (r : SecretKeyRing) (encrypted nonce : string) (keyVersion : Z) : result string :=
  match r.(kr_boxes) !! keyVersion with
  | None => Err (EMsg "key version is not present in keyring")
  | Some box => box_Open box encrypted nonce
  end.

(** ** Webhook secrets *)

Definition encryptedWebhookSecretPrefix : string := "llmgw_secret:v1:".

(** The text before the first colon, and after it. *)
Fixpoint cutColon (s : string) : option (string * string) :=
  match s with
  | EmptyString => None
  | String c s' =>
      if is_byte 58 c then Some (EmptyString, s')
      else match cutColon s' with Some (a, b) => Some (String c a, b) | None => None end
  end.

(** [strings.SplitN(s, ":", 3)] of at least three parts. *)
Definition splitN3 (s : string) : option (string * string * string) :=
  '(a, rest) ← cutColon s;
  '(b, c) ← cutColon rest;
  Some (a, b, c).

Definition parseWebhookSecretEnvelope (value : string) : result (Z * string * string) :=
  match splitN3 (TrimPrefix value encryptedWebhookSecretPrefix) with
  | None => Err (EMsg "webhook secret envelope is invalid")
  | Some (v, nonce, encrypted) =>
      match ParseInt32 v with
      | Some version =>
          if version <=? 0 then Err (EMsg "webhook secret key version is invalid") else Ok (version, nonce, encrypted)
      | None => Err (EMsg "webhook secret key version is invalid")
      end
  end.

Definition envelope (s : SealedSecret) : string :=
  encryptedWebhookSecretPrefix +:+ formatInt s.(ss_KeyVersion) +:+ ":" +:+ s.(ss_Nonce) +:+ ":" +:+ s.(ss_Encrypted).

(** [pgtype.Text] is an option; the key ring may be [nil]. *)
Definition SealWebhookSecret (keyRing : option SecretKeyRing) (value : string) : M (option string) :=
  let value := TrimSpace value in
  if String.eqb value "" then mret None
  else match keyRing with
       | None => mret (Some value)
       | Some ring => sealed ← Seal ring value; mret (Some (envelope sealed))
       end.

Definition OpenWebhookSecret (keyRing : option SecretKeyRing) (stored : option string) : result string :=
  match stored with
  | None => Ok ""
  | Some s =>
      let value := TrimSpace s in
      if String.eqb value "" then Ok ""
      else if negb (HasPrefix value encryptedWebhookSecretPrefix) then Ok value
      else match keyRing with
           | None => Err (EMsg "webhook secret keyring is invalid")
           | Some ring =>
               '(version, nonce, encrypted) ← parseWebhookSecretEnvelope value;
               Open ring encrypted nonce version
           end
  end.

(** The version, and whether the secret is encrypted. *)
Definition WebhookSecretKeyVersion (stored : option string) : result (Z * bool) :=
  match stored with
  | None => Ok (0, false)
  | Some s =>
      let value := TrimSpace s in
      if String.eqb value "" || negb (HasPrefix value encryptedWebhookSecretPrefix) then Ok (0, false)
      else '(version, _, _) ← parseWebhookSecretEnvelope value; Ok (version, true)
  end.

(** ** Laws *)

Definition holds_box (r : SecretKeyRing) (v : Z) (b : SecretBox) : Prop := r.(kr_boxes) !! v = Some b.

(** What [Seal] returns names the active version and opens, under any ring
    that has that version's key, to what was sealed. *)
Lemma Seal_ok r plaintext w s w' :
  Seal r plaintext w = (Ok s, w') →
  w_db w' = w_db w ∧ s.(ss_KeyVersion) = r.(kr_activeVersion) ∧
  (∃ n, s.(ss_Nonce) = StdEncode n) ∧ (∃ c, s.(ss_Encrypted) = StdEncode c) ∧
  ∀ r', r'.(kr_boxes) !! s.(ss_KeyVersion) = r.(kr_boxes) !! r.(kr_activeVersion) →
    Open r' s.(ss_Encrypted) s.(ss_Nonce) s.(ss_KeyVersion) = Ok plaintext.
Proof.
  unfold Seal. destruct (_ !! _) as [b|] eqn:Eb; [|by intros ?%fail_ok].
  intros (sealed & w1 & Hs & [<- <-]%ret_ok)%bind_ok. unfold box_Seal in Hs.
  apply bind_ok in Hs as (nonce & w2 & (Hdb & Hlen & _)%rand_Read_ok & [<- <-]%ret_ok). simpl.
  split_and!; [done..|by eexists|by eexists|]. intros r' Hr. unfold Open. rewrite Hr.
  unfold box_Open. rewrite !StdDecode_encode, Hlen. simpl. by rewrite gcm_open_seal.
Qed.

Lemma quiet_Seal r p : quiet (Seal r p).
Proof.
  unfold Seal. destruct (_ !! _); [|apply quiet_fail]. unfold box_Seal. eauto with quiet.
Qed.

Lemma quiet_SealWebhookSecret r v : quiet (SealWebhookSecret r v).
Proof.
  unfold SealWebhookSecret. destruct (String.eqb _ _); [apply quiet_ret|]. destruct r; [|apply quiet_ret].
  apply quiet_bind; [apply quiet_Seal|]. intros; apply quiet_ret.
Qed.

Lemma cutColon_app a b : all_bytes (λ c, negb (is_byte 58 c)) a = true → cutColon (a +:+ ":" +:+ b) = Some (a, b).
Proof.
  induction a as [|c a IH]; [done|]. rewrite string_app_cons. cbn [all_bytes cutColon].
  intros [Hc Ha]%andb_true_iff. apply negb_true_iff in Hc. rewrite Hc. by rewrite IH.
Qed.

Lemma formatInt_bytes n : all_bytes tokenByte (formatInt n) = true.
Proof.
  assert (Hd : ∀ d, 0 <= d < 10 → tokenByte (decChar d) = true).
  { intros d Hd. unfold tokenByte, printable, decChar, in_bytes, is_byte. rewrite byte_of_ascii by lia.
    rewrite !(proj2 (N.leb_le _ _)) by lia. rewrite (proj2 (N.eqb_neq _ _)) by lia. done. }
  unfold formatInt. destruct (n <? 0); cbn [all_bytes]; by rewrite formatDigits_digits.
Qed.

Lemma tokenByte_no_colon s : all_bytes tokenByte s = true → all_bytes (λ c, negb (is_byte 58 c)) s = true.
Proof. apply all_bytes_impl. intros c. unfold tokenByte. by rewrite andb_true_iff; intros []. Qed.

Lemma ParseInt32_format n : 0 <= n <= MaxInt32 → ParseInt32 (formatInt n) = Some n.
Proof.
  intros Hn. unfold formatInt. rewrite (proj2 (Z.ltb_ge _ _)) by lia.
  assert (Hp : parseDigits 0 (formatDigits 19 n "") = Some n)
    by (rewrite parseDigits_format; [done|unfold_ranges; lia]).
  assert (Hb : all_bytes (λ c, in_bytes 48 57 c) (formatDigits 19 n "") = true).
  { apply formatDigits_digits; [|done]. intros d Hd. unfold decChar, in_bytes. rewrite byte_of_ascii by lia.
    by rewrite !(proj2 (N.leb_le _ _)) by lia. }
  assert (Hne : formatDigits 19 n "" ≠ "").
  { intros E. rewrite E in Hp. injection Hp as <-. by vm_compute in E. }
  destruct (formatDigits 19 n "") as [|c s] eqn:E; [done|]. cbn [all_bytes] in Hb.
  apply andb_true_iff in Hb as [Hc _]. unfold ParseInt32.
  assert (Hsign : ∀ c', in_bytes 48 57 c' = false → c ≠ c') by (intros c' Hc' ->; congruence).
  assert (Hgo : (n0 ← parseDigits 0 (String c s); let v := 1 * n0 in
     if (MinInt32 <=? v) && (v <=? MaxInt32) then Some v else None) = Some n).
  { rewrite Hp. simpl. rewrite !(proj2 (Z.leb_le _ _)) by (unfold_ranges; lia). simpl. f_equal. lia. }
  destruct c as [[] [] [] [] [] [] [] []]; try exact Hgo; vm_compute in Hc; done.
Qed.

Lemma envelope_printable s n c :
  s.(ss_Nonce) = StdEncode n → s.(ss_Encrypted) = StdEncode c → all_bytes printable (envelope s) = true.
Proof.
  intros En Ec. unfold envelope. rewrite En, Ec, !all_bytes_app.
  rewrite !(tokenByte_printable _ (StdEncode_bytes _)), (tokenByte_printable _ (formatInt_bytes _)). done.
Qed.

(** Parsing an envelope gives back its parts. *)
Lemma parse_envelope s n c :
  s.(ss_Nonce) = StdEncode n → s.(ss_Encrypted) = StdEncode c → 1 <= s.(ss_KeyVersion) <= MaxInt32 →
  parseWebhookSecretEnvelope (envelope s) = Ok (s.(ss_KeyVersion), s.(ss_Nonce), s.(ss_Encrypted)).
Proof.
  intros En Ec Hv. unfold parseWebhookSecretEnvelope, envelope. rewrite TrimPrefix_app. unfold splitN3.
  rewrite cutColon_app by apply tokenByte_no_colon, formatInt_bytes. simpl.
  rewrite cutColon_app by (rewrite En; apply tokenByte_no_colon, StdEncode_bytes). simpl.
  rewrite ParseInt32_format by lia. by rewrite (proj2 (Z.leb_gt _ _)) by lia.
Qed.

Lemma envelope_prefixed s : HasPrefix (envelope s) encryptedWebhookSecretPrefix = true.
Proof. apply HasPrefix_spec. by eexists. Qed.

(** A ring that can be used: its active key is there, under an [int32] version. *)
Definition ring_ok (r : SecretKeyRing) : Prop :=
  1 <= r.(kr_activeVersion) <= MaxInt32 ∧ ∃ b, r.(kr_boxes) !! r.(kr_activeVersion) = Some b.

(** Opening a stored webhook secret, as [(ring, stored, plaintext)]. *)
Lemma SealWebhookSecret_ok r value w stored w' :
  SealWebhookSecret (Some r) value w = (Ok stored, w') → ring_ok r →
  w_db w' = w_db w ∧
  WebhookSecretKeyVersion stored =
    Ok (if String.eqb (TrimSpace value) "" then (0, false) else (r.(kr_activeVersion), true)) ∧
  (TrimSpace value = "" ↔ stored = None) ∧
  ∀ r', r'.(kr_boxes) !! r.(kr_activeVersion) = r.(kr_boxes) !! r.(kr_activeVersion) →
    OpenWebhookSecret (Some r') stored = Ok (TrimSpace value).
Proof.
  intros H' [Hv [b Hb]]. unfold SealWebhookSecret in H'.
  destruct (String.eqb_spec (TrimSpace value) "") as [E|E].
  { apply ret_ok in H' as [<- <-]. split_and!; [done..|]. intros r' _. by rewrite E. }
  apply bind_ok in H' as (s & w1 & Hs & H'). apply ret_ok in H' as [<- <-].
  apply Seal_ok in Hs as (Hdb & Hver & [n Hn] & [c Hc] & Hopen).
  unfold WebhookSecretKeyVersion, OpenWebhookSecret.
  rewrite (TrimSpace_printable _ (envelope_printable s n c Hn Hc)), envelope_prefixed.
  rewrite (proj2 (String.eqb_neq _ _)) by (unfold envelope; done). simpl.
  rewrite (parse_envelope s n c) by (congruence || (rewrite Hver; lia)). simpl.
  split_and!; [done|by rewrite Hver|done|]. intros r' Hr. apply Hopen. by rewrite Hver.
Qed.

(** A webhook secret survives storage. What [SealWebhookSecret] stores
    under a ring, the envelope [llmgw_secret:v1:version:nonce:ciphertext] with
    its encodings, is read back by [OpenWebhookSecret], under any ring that
    holds that key version, as the trimmed secret; the version that is read
    from the envelope is the active one; a blank secret stores nothing. *)
Theorem webhook_secret_roundtrip (r r' : SecretKeyRing) (value : string) (w w' : world) (stored : option string) :
  ring_ok r → r'.(kr_boxes) !! r.(kr_activeVersion) = r.(kr_boxes) !! r.(kr_activeVersion) →
  SealWebhookSecret (Some r) value w = (Ok stored, w') →
  OpenWebhookSecret (Some r') stored = Ok (TrimSpace value) ∧
  WebhookSecretKeyVersion stored =
    Ok (if String.eqb (TrimSpace value) "" then (0, false) else (r.(kr_activeVersion), true)) ∧
  (TrimSpace value = "" ↔ stored = None).
Proof.
  intros Hok Hr H'. pose proof (SealWebhookSecret_ok _ _ _ _ _ H' Hok) as (_ & Hv & He & Ho).
  split; [by apply Ho|]. by split.
Qed.

(** Without a ring, a secret that looks like an envelope is stored as it is and
    cannot be read back. *)
Lemma webhook_secret_without_ring (rest : string) (w : world) :
  all_bytes printable rest = true →
  ∃ stored, SealWebhookSecret None (encryptedWebhookSecretPrefix +:+ rest) w = (Ok stored, w) ∧
    OpenWebhookSecret None stored = Err (EMsg "webhook secret keyring is invalid").
Proof.
  intros Hp. assert (Hall : all_bytes printable (encryptedWebhookSecretPrefix +:+ rest) = true)
    by by rewrite all_bytes_app, Hp.
  unfold SealWebhookSecret. rewrite (TrimSpace_printable _ Hall). eexists. split; [reflexivity|].
  unfold OpenWebhookSecret. rewrite (TrimSpace_printable _ Hall).
  rewrite (proj2 (HasPrefix_spec _ _)) by by eexists. done.
Qed.
End crypto.

(** ** A concrete cipher: a tag, the key, the nonce and the plaintext side by side *)

Definition ex_seal (k n p : string) : string := ("#" +:+ k +:+ n) +:+ p.
Definition ex_open (k n c : string) : option string := cutPrefix ("#" +:+ k +:+ n) c.

Lemma ex_open_seal k n p : ex_open k n (ex_seal k n p) = Some p.
Proof. by apply cutPrefix_spec. Qed.

Lemma ex_seal_tag k n p : ex_seal k n p ≠ "".
Proof. done. Qed.

Definition ex_aead : AEAD := {|
  gcm_seal := ex_seal;
  gcm_open := ex_open;
  gcm_open_seal := ex_open_seal;
  gcm_seal_tag := ex_seal_tag
|}.

Definition ex_key1 : string := "0123456789abcdef0123456789abcdef".
Definition ex_key2 : string := "fedcba9876543210fedcba9876543210".
Definition ex_keys1 : SecretKeyRing := mkSecretKeyRing 1 {[1 := mkSecretBox ex_key1]}.
Definition ex_keys2 : SecretKeyRing := mkSecretKeyRing 2 {[1 := mkSecretBox ex_key1; 2 := mkSecretBox ex_key2]}.

#[local] Existing Instance ex_runtime.
#[local] Existing Instance ex_aead.

Lemma ring_ok_ex : ring_ok ex_keys1 ∧ ring_ok ex_keys2.
Proof. split; (split; [vm_compute; done|eexists; vm_compute; reflexivity]). Qed.

Lemma webhook_secret_roundtrip_witness :
  ∃ stored w', SealWebhookSecret (Some ex_keys1) " s3cret " ex_world = (Ok stored, w') ∧
    OpenWebhookSecret (Some ex_keys2) stored = Ok "s3cret" ∧ WebhookSecretKeyVersion stored = Ok (1, true).
Proof.
  destruct (SealWebhookSecret (Some ex_keys1) " s3cret " ex_world) as [[stored|e] w'] eqn:E; [|by vm_compute in E].
  exists stored, w'. split; [done|].
  destruct (webhook_secret_roundtrip ex_keys1 ex_keys2 " s3cret " ex_world w' stored (proj1 ring_ok_ex) ltac:(by vm_compute) E)
    as (H1 & H2 & _). split; [exact H1|exact H2].
Defined.
#[export] Hint Resolve quiet_Seal quiet_SealWebhookSecret : quiet.
End Secrets.
