(* ===== verification/Outbound.v ===== *)
(** * Outbound requests: [internal/netutil/outbound.go]

    Which URLs the gateway may call on behalf of a configuration, and which
    addresses a public-only client connects to. Parsing a URL or an address and
    resolving a name are the class [Net]; the address tests of [net.IP] are
    modelled bit by bit. *)

From S2P Require Import Prelude GoTime GoStrings Encodings Costing Store Tokens.

(** [net.IP]: the bytes of an address, 4 or 16 of them (or none, [nil]). *)
Definition IP : Type := list Z.

(** The parts of a [url.URL] the checks look at. *)
Record URL := mkURL {
  url_Scheme : string;
  url_Host : string;
  url_Hostname : string;
  url_HasUser : bool
}.

Class Net := {
  url_Parse : string → option URL;
  ParseIP : string → option IP;
  LookupIPAddr : string → result (list IP)
}.

Module Outbound.

(** ** [net.IP] *)

Definition byteAt (ip : IP) (i : nat) : Z := nth i ip 0.

(** [To4]: an IPv4 address, possibly mapped into IPv6. *)
Definition To4 (ip : IP) : option IP :=
  if (length ip =? 4)%nat then Some ip
  else if (length ip =? 16)%nat && forallb (λ b, b =? 0) (take 10 ip) && (byteAt ip 10 =? 255) && (byteAt ip 11 =? 255)
  then Some (drop 12 ip)
  else None.

Definition is16 (ip : IP) : bool := (length ip =? 16)%nat.

Definition IsUnspecified (ip : IP) : bool :=
  match To4 ip with
  | Some ip4 => forallb (λ b, b =? 0) ip4
  | None => is16 ip && forallb (λ b, b =? 0) ip
  end.
Definition IsLoopback (ip : IP) : bool :=
  match To4 ip with
  | Some ip4 => byteAt ip4 0 =? 127
  | None => is16 ip && forallb (λ b, b =? 0) (take 15 ip) && (byteAt ip 15 =? 1)
  end.
Definition IsPrivate (ip : IP) : bool :=
  match To4 ip with
  | Some ip4 =>
      (byteAt ip4 0 =? 10) || ((byteAt ip4 0 =? 172) && (Z.land (byteAt ip4 1) 240 =? 16))
      || ((byteAt ip4 0 =? 192) && (byteAt ip4 1 =? 168))
  | None => is16 ip && (Z.land (byteAt ip 0) 254 =? 252)
  end.
Definition IsMulticast (ip : IP) : bool :=
  match To4 ip with
  | Some ip4 => Z.land (byteAt ip4 0) 240 =? 224
  | None => is16 ip && (byteAt ip 0 =? 255)
  end.
Definition IsLinkLocalMulticast (ip : IP) : bool :=
  match To4 ip with
  | Some ip4 => (byteAt ip4 0 =? 224) && (byteAt ip4 1 =? 0) && (byteAt ip4 2 =? 0)
  | None => is16 ip && (byteAt ip 0 =? 255) && (Z.land (byteAt ip 1) 15 =? 2)
  end.
Definition IsLinkLocalUnicast (ip : IP) : bool :=
  match To4 ip with
  | Some ip4 => (byteAt ip4 0 =? 169) && (byteAt ip4 1 =? 254)
  | None => is16 ip && (byteAt ip 0 =? 254) && (Z.land (byteAt ip 1) 192 =? 128)
  end.

Definition IsPublicIP (ip : IP) : bool :=
  if (length ip =? 0)%nat then false
  else negb (IsLoopback ip || IsPrivate ip || IsUnspecified ip || IsLinkLocalUnicast ip
             || IsLinkLocalMulticast ip || IsMulticast ip).

(** ** The checks *)

Section net.
Context `{Runtime, Net}.

Definition unsafeHostname (host : string) : bool :=
  let host := TrimSpace (ToLower (TrimSuffix host ".")) in
  if String.eqb host "" then true
  else match ParseIP host with
       | Some ip => negb (IsPublicIP ip)
       | None =>
           if String.eqb host "localhost" || HasSuffix host ".localhost" || HasSuffix host ".local" then true
           else String.eqb host "metadata.google.internal"
       end.

Definition ValidateOutboundHTTPURL (rawURL field : string) (publicOnly : bool) : result unit :=
  match url_Parse (TrimSpace rawURL) with
  | None => Err (EMsg (field +:+ " must be a valid URL"))
  | Some parsed =>
      if negb (String.eqb parsed.(url_Scheme) "http") && negb (String.eqb parsed.(url_Scheme) "https")
      then Err (EMsg (field +:+ " must use http or https"))
      else if String.eqb parsed.(url_Host) "" then Err (EMsg (field +:+ " must include host"))
      else if parsed.(url_HasUser) then Err (EMsg (field +:+ " must not include user info"))
      else if publicOnly && negb (String.eqb parsed.(url_Scheme) "https")
      then Err (EMsg (field +:+ " must use https"))
      else if publicOnly && unsafeHostname parsed.(url_Hostname)
      then Err (EMsg (field +:+ " must use a public host"))
      else Ok tt
  end.

(** The [DialContext] of [PublicOnlyHTTPClient]: the address it connects to. The
    split of [host:port] before it and the dial of that address and port after
    it are left out. *)
Definition publicDial (host : string) : result IP :=
  ips ← LookupIPAddr host;
  match find IsPublicIP ips with
  | Some ip => Ok ip
  | None => Err (EMsg "blocked outbound connection to non-public host")
  end.

(** Its [CheckRedirect], after [via] requests. *)
Definition checkRedirect (target : string) (via : nat) : result unit :=
  if (10 <=? via)%nat then Err (EMsg "stopped after 10 redirects")
  else ValidateOutboundHTTPURL target "redirect_url" true.

(** The hosts one request through the client may try to reach: the first URL,
    then each redirect the policy lets through. *)
Fixpoint followed (urls : list string) (via : nat) : list string :=
  match urls with
  | [] => []
  | u :: rest => match checkRedirect u via with Ok _ => u :: followed rest (S via) | Err _ => [] end
  end.

Definition requestHops (first : string) (redirects : list string) : list string := first :: followed redirects 1.

(** ** Specification *)

(** The 32-bit value of an IPv4 address, and a block of them. *)
Definition ipv4 (a b c d : Z) : Z := ((a * 256 + b) * 256 + c) * 256 + d.
Definition in_block (ip base bits : Z) : Prop := base <= ip < base + 2 ^ (32 - bits).

(** What a host calls itself and its network by: the unspecified address, and
    the loopback, private (RFC 1918) and link-local blocks; and multicast. *)
Definition internal4 (ip : Z) : Prop :=
  ip = 0 ∨ in_block ip (ipv4 10 0 0 0) 8 ∨ in_block ip (ipv4 127 0 0 0) 8 ∨ in_block ip (ipv4 169 254 0 0) 16 ∨
  in_block ip (ipv4 172 16 0 0) 12 ∨ in_block ip (ipv4 192 168 0 0) 16 ∨ in_block ip (ipv4 224 0 0 0) 4.

(** The same for IPv6: the 128-bit value of sixteen bytes, and the addresses
    [::] and [::1] and the blocks [fc00::/7], [fe80::/10] and [ff00::/8]. *)
Definition ipv6 (ip : IP) : Z := fold_left (λ v b, v * 256 + b) ip 0.
Definition in_block6 (ip base bits : Z) : Prop := base <= ip < base + 2 ^ (128 - bits).
Definition internal6 (ip : Z) : Prop :=
  ip = 0 ∨ ip = 1 ∨ in_block6 ip (Z.shiftl 0xfc 120) 7 ∨ in_block6 ip (Z.shiftl 0xfe80 112) 10 ∨
  in_block6 ip (Z.shiftl 0xff 120) 8.

Definition is_byte_value (b : Z) : Prop := 0 <= b < 256.

Definition mapped (ip : IP) : IP := repeat 0 10 ++ [255; 255] ++ ip.

(** ** Proofs *)

(** Masks of a byte. *)
Definition belowZ (k : Z) (p : Z → bool) : bool := forallb p (map Z.of_nat (seq 0 (Z.to_nat k))).

Lemma belowZ_spec k p n : belowZ k p = true → 0 <= n < k → p n = true.
Proof.
  intros H' Hn. unfold belowZ in H'. rewrite forallb_forall in H'. apply H', in_map_iff.
  exists (Z.to_nat n). split; [lia|]. apply in_seq. lia.
Qed.

Lemma land_240 b v : 0 <= b < 256 → v = 16 ∨ v = 224 → (Z.land b 240 =? v) = (v <=? b) && (b <? v + 16).
Proof.
  intros Hb Hv. apply eqb_true_iff.
  assert (Hall : belowZ 256 (λ b, Bool.eqb (Z.land b 240 =? 16) ((16 <=? b) && (b <? 16 + 16))
                               && Bool.eqb (Z.land b 240 =? 224) ((224 <=? b) && (b <? 224 + 16))) = true)
    by by vm_compute.
  apply (belowZ_spec _ _ _ Hall) in Hb. apply andb_true_iff in Hb as [H1 H2]. by destruct Hv as [-> | ->].
Qed.

Lemma IsPublicIP_4 a b c d :
  is_byte_value a → is_byte_value b → is_byte_value c → is_byte_value d →
  IsPublicIP [a; b; c; d] = true ↔ ¬ internal4 (ipv4 a b c d).
Proof.
  unfold is_byte_value. intros Ha Hb Hc Hd. unfold IsPublicIP. simpl length. cbn [Nat.eqb].
  unfold IsLoopback, IsPrivate, IsUnspecified, IsLinkLocalUnicast, IsLinkLocalMulticast, IsMulticast, To4, byteAt. simpl.
  rewrite !land_240 by auto. unfold internal4, in_block, ipv4. rewrite negb_true_iff, !orb_false_iff, !andb_false_iff.
  change (2 ^ (32 - 8)) with 16777216. change (2 ^ (32 - 16)) with 65536. change (2 ^ (32 - 12)) with 1048576.
  change (2 ^ (32 - 4)) with 268435456.
  rewrite ?Z.eqb_neq, ?Z.leb_gt, ?Z.ltb_ge. lia.
Qed.

Lemma IsPublicIP_mapped a b c d : IsPublicIP (mapped [a; b; c; d]) = IsPublicIP [a; b; c; d].
Proof. done. Qed.

(** A number in base 256 is led by its first digits. *)
Lemma ipv6_from ip v : Forall is_byte_value ip → 0 <= v →
  v * 256 ^ Z.of_nat (length ip) <= fold_left (λ v b, v * 256 + b) ip v < (v + 1) * 256 ^ Z.of_nat (length ip).
Proof.
  intros Hip. revert v. induction Hip as [|b ip Hb Hip IH]; intros v Hv; simpl fold_left; simpl length; [lia|].
  unfold is_byte_value in Hb. specialize (IH (v * 256 + b) ltac:(lia)). rewrite Nat2Z.inj_succ, Z.pow_succ_r by lia. nia.
Qed.

Lemma ipv6_zeros ip v : Forall is_byte_value ip → 0 <= v → forallb (λ b, b =? 0) ip = false →
  v * 256 ^ Z.of_nat (length ip) < fold_left (λ v b, v * 256 + b) ip v.
Proof.
  intros Hip. revert v. induction Hip as [|b ip Hb Hip IH]; intros v Hv Hz; [done|]. simpl fold_left; simpl length.
  unfold is_byte_value in Hb. rewrite Nat2Z.inj_succ, Z.pow_succ_r by lia. simpl in Hz.
  pose proof (ipv6_from ip (v * 256 + b) Hip ltac:(lia)). destruct (Z.eqb_spec b 0) as [->|Hne].
  - specialize (IH (v * 256 + 0) ltac:(lia) Hz). nia.
  - assert (0 < 256 ^ Z.of_nat (length ip)) by (apply Z.pow_pos_nonneg; lia). nia.
Qed.

Lemma land_254 b : 0 <= b < 256 → (Z.land b 254 =? 252) = (252 <=? b) && (b <? 254).
Proof.
  intros Hb. apply eqb_true_iff.
  by refine (belowZ_spec 256 (λ b, Bool.eqb (Z.land b 254 =? 252) ((252 <=? b) && (b <? 254))) b _ Hb); vm_compute.
Qed.
Lemma land_192 b : 0 <= b < 256 → (Z.land b 192 =? 128) = (128 <=? b) && (b <? 192).
Proof.
  intros Hb. apply eqb_true_iff.
  by refine (belowZ_spec 256 (λ b, Bool.eqb (Z.land b 192 =? 128) ((128 <=? b) && (b <? 192))) b _ Hb); vm_compute.
Qed.

(** Only fifteen zeros and a one have the value one. *)
Lemma ipv6_one ip : length ip = 16%nat → Forall is_byte_value ip → ipv6 ip = 1 →
  forallb (λ b, b =? 0) (take 15 ip) && (byteAt ip 15 =? 1) = true.
Proof.
  intros Hlen Hip. assert (Hcut : ip = take 15 ip ++ [byteAt ip 15]).
  { do 16 (destruct ip as [|? ip]; [done|]). by destruct ip. }
  unfold ipv6. rewrite Hcut at 1. rewrite fold_left_app. cbn [fold_left].
  pose proof (Forall_take _ 15 _ Hip) as Ht. rewrite Hcut in Hip. apply Forall_app in Hip as [_ Hb].
  rewrite Forall_singleton in Hb. unfold is_byte_value in Hb. intros Hv.
  pose proof (ipv6_from _ 0 Ht ltac:(lia)) as Hlow. destruct (forallb _ (take 15 ip)) eqn:E; [apply Z.eqb_eq|];
    [|exfalso; pose proof (ipv6_zeros _ 0 Ht ltac:(lia) E)]; lia.
Qed.

Lemma IsPublicIP_6 ip : length ip = 16%nat → Forall is_byte_value ip → To4 ip = None → IsPublicIP ip = true →
  ¬ internal6 (ipv6 ip).
Proof.
  intros Hlen Hip H4. unfold IsPublicIP, IsLoopback, IsPrivate, IsUnspecified, IsLinkLocalUnicast, IsLinkLocalMulticast, IsMulticast, is16.
  rewrite H4, Hlen. rewrite Nat.eqb_refl. cbn [Nat.eqb andb]. rewrite negb_true_iff, !orb_false_iff.
  intros (((((Hlo & Hpr) & Hun) & Hll) & _) & Hmu).
  assert (Hone : ipv6 ip ≠ 1) by (intros Hv; apply ipv6_one in Hv; [congruence|done..]).
  assert (Hz : 0 < ipv6 ip) by (pose proof (ipv6_zeros ip 0 Hip ltac:(lia) Hun); unfold ipv6; lia).
  destruct ip as [|b0 [|b1 rest]]; [done..|]. cbn [byteAt nth] in *. unfold byteAt in *. cbn [nth] in *.
  rewrite !Forall_cons_iff in Hip. destruct Hip as (Hb0 & Hb1 & Hrest). injection Hlen as Hlen.
  rewrite land_254 in Hpr by done. rewrite land_192 in Hll by done. unfold is_byte_value in Hb0, Hb1.
  pose proof (ipv6_from rest (b0 * 256 + b1) Hrest ltac:(lia)) as H2. rewrite Hlen in H2.
  change (fold_left _ rest _) with (ipv6 (b0 :: b1 :: rest)) in H2. change (256 ^ Z.of_nat 14) with (2 ^ 112) in H2.
  rewrite ?andb_false_iff, ?Z.eqb_neq, ?Z.leb_gt, ?Z.ltb_ge in *.
  unfold internal6, in_block6. change (Z.shiftl 252 120) with (252 * 256 * 2 ^ 112). change (Z.shiftl 65152 112) with (65152 * 2 ^ 112).
  change (Z.shiftl 255 120) with (255 * 256 * 2 ^ 112). change (2 ^ (128 - 7)) with (512 * 2 ^ 112).
  change (2 ^ (128 - 10)) with (64 * 2 ^ 112). change (2 ^ (128 - 8)) with (256 * 2 ^ 112).
  generalize dependent (ipv6 (b0 :: b1 :: rest)). change (2 ^ 112) with 5192296858534827628530496329220096. intros v Hv1 Hv2 Hv3. lia.
Qed.

Lemma To4_not_mapped ip : length ip = 16%nat → (∀ ip4, ip ≠ mapped ip4) → To4 ip = None.
Proof.
  intros Hlen Hmap. unfold To4. rewrite Hlen. cbn [Nat.eqb andb].
  do 16 (destruct ip as [|? ip]; [done|]). destruct ip; [|done]. unfold byteAt. simpl.
  destruct (_ && _) eqn:E; [|done]. rewrite !andb_true_iff, !Z.eqb_eq in E. exfalso. eapply Hmap.
  destruct_and!. subst. reflexivity.
Qed.

Lemma followed_valid urls via u :
  u ∈ followed urls via → ValidateOutboundHTTPURL u "redirect_url" true = Ok tt.
Proof.
  revert via. induction urls as [|x urls IH]; intros via Hin; simpl in Hin; [by apply elem_of_nil in Hin|].
  destruct (checkRedirect x via) as [[]|] eqn:E; [|by apply elem_of_nil in Hin].
  apply elem_of_cons in Hin as [->|Hin]; [|by eapply IH].
  unfold checkRedirect in E. by destruct (_ <=? _)%nat.
Qed.

Lemma validated_public u field :
  ValidateOutboundHTTPURL u field true = Ok tt →
  ∃ p, url_Parse (TrimSpace u) = Some p ∧ p.(url_Scheme) = "https" ∧ unsafeHostname p.(url_Hostname) = false.
Proof.
  unfold ValidateOutboundHTTPURL. destruct (url_Parse _) as [p|]; [|done]. intros H'.
  repeat (case_match; [done|]). exists p. split; [done|]. simpl in *. split; [|done].
  by apply negb_false_iff, String.eqb_eq in H4.
Qed.

Lemma followed_length urls via : (length (followed urls via) <= 10 - via)%nat.
Proof.
  revert via. induction urls as [|x urls IH]; intros via; simpl; [lia|].
  destruct (checkRedirect x via) eqn:E; [|simpl; lia]. unfold checkRedirect in E.
  destruct (Nat.leb_spec 10 via); [done|]. simpl. specialize (IH (S via)). lia.
Qed.

(** What a validated URL names: [https], and neither a local name nor an address
    of the refused blocks. *)
Definition public_url (u : string) : Prop :=
  ∃ p, url_Parse (TrimSpace u) = Some p ∧ p.(url_Scheme) = "https" ∧ unsafeHostname p.(url_Hostname) = false ∧
    ∀ ip, ParseIP (TrimSpace (ToLower (TrimSuffix p.(url_Hostname) "."))) = Some ip → IsPublicIP ip = true.

Lemma validated_url u field : ValidateOutboundHTTPURL u field true = Ok tt → public_url u.
Proof.
  intros (p & Hp & Hs & Hh)%validated_public. exists p. split_and!; try done. intros ip Hip.
  unfold unsafeHostname in Hh. rewrite Hip in Hh. destruct (String.eqb _ _); [done|]. by apply negb_false_iff in Hh.
Qed.

(** The blocks the tests do not know: an address of "this network", of a
    carrier's shared space, of the protocol assignments, of the benchmarking
    networks and of the reserved class E are all public to them, and so is the
    IPv6 address that translates to 10.0.0.1 (NAT64). *)
Example special_blocks_are_public :
  forallb IsPublicIP [[0; 1; 2; 3]; [100; 64; 0; 1]; [192; 0; 0; 8]; [198; 18; 0; 1]; [240; 0; 0; 1];
                      [0; 100; 255; 155; 0; 0; 0; 0; 0; 0; 0; 0; 10; 0; 0; 1]] = true.
Proof. vm_compute. reflexivity. Qed.

(** C32: a public-only client stays off the internal network. Whatever a name
    resolves to, the address it connects to is not the unspecified one and lies
    outside the loopback, private (unique local), link-local and multicast
    blocks of its family: IPv4, also when written as an IPv6 address, and IPv6.
    Other special blocks, and IPv6 addresses that hold an IPv4 one in another
    way, are not refused ([special_blocks_are_public]). Following redirects, it makes at most ten
    hops; every hop after the first is to an [https] URL whose host is neither
    a local name nor an address of those blocks, and so is the first one when
    its URL was checked before the call, as the client itself does not. *)
Theorem public_only (host first : string) (redirects : list string) :
  (∀ ip, publicDial host = Ok ip → IsPublicIP ip = true ∧
     (∀ a b c d, is_byte_value a → is_byte_value b → is_byte_value c → is_byte_value d →
       ip = [a; b; c; d] ∨ ip = mapped [a; b; c; d] → ¬ internal4 (ipv4 a b c d)) ∧
     (length ip = 16%nat → Forall is_byte_value ip → (∀ ip4, ip ≠ mapped ip4) → ¬ internal6 (ipv6 ip))) ∧
  (length (requestHops first redirects) <= 10)%nat ∧
  Forall public_url (tail (requestHops first redirects)) ∧
  ∀ field, ValidateOutboundHTTPURL first field true = Ok tt → Forall public_url (requestHops first redirects).
Proof.
  assert (Htail : Forall public_url (followed redirects 1)).
  { apply Forall_forall. intros u Hu%list_elem_of_In%followed_valid. by eapply validated_url. }
  split; [|split_and!; [|done|intros field Hf; constructor; [by eapply validated_url|done]]].
  - intros ip Hd. apply result_bind_ok in Hd as (ips & _ & Hd). destruct (find IsPublicIP ips) as [x|] eqn:E; [|done].
    injection Hd as ->. apply find_some in E as [_ E]. split_and!; [done| |].
    + intros a b c d Ha Hb Hc Hdd Hip. apply IsPublicIP_4; [done..|].
      destruct Hip as [->| ->]; [done|]. by rewrite IsPublicIP_mapped in E.
    + intros Hlen Hbytes Hmap. apply IsPublicIP_6; [done..| |done]. by apply To4_not_mapped.
  - unfold requestHops. simpl. pose proof (followed_length redirects 1). lia.
Qed.
End net.
End Outbound.

(** A network in which every URL is public. *)
Definition ex_net : Net := {|
  url_Parse _ := Some (mkURL "https" "host.example" "host.example" false);
  ParseIP _ := None;
  LookupIPAddr _ := Ok [[93; 184; 216; 34]]
|}.
