(* ===== verification/HttpClient.v ===== *)
(** * Outgoing HTTP requests

    What the services use of [net/http]: a request that may not be buildable,
    and an answer, a time-out or another failure for the n-th request sent. A
    [Do] is one exchange: the redirects that the client follows inside it, and
    that it may repeat the request for, are part of what [roundTrip] answers.
    Which of them a public-only client follows is in [Outbound]. *)

From Stdlib Require Import Ascii.
From S2P Require Import Prelude GoStrings Store Tokens.

Record HttpRequest := mkHttpRequest {
  hr_Method : string;
  hr_URL : string;
  hr_Headers : list (string * string);
  hr_Body : string
}.

(** How reading a body ends: with its end, with an error, or with an error
    because the request's context is over. *)
Inductive bodyEnd := EndOfBody | ReadFailed | ContextOver.

Record HttpResponse := mkHttpResponse {
  hp_StatusCode : Z;
  hp_Body : string;
  hp_End : bodyEnd
}.

(** What [client.Do] fails with, as [isTimeoutError] tells the errors apart. *)
Inductive transportError := TransportTimeout | TransportFailed.

Class Transport := {
  newRequest : string → string → bool;    (** [http.NewRequestWithContext] accepts method and URL *)
  roundTrip : nat → HttpRequest → HttpResponse + transportError
}.

Section client.
Context `{Transport}.

(** [client.Do], with whatever redirects it follows. *)
Definition Do (r : HttpRequest) : M (HttpResponse + transportError) :=
  k ← draw;
  _ ← emit (EffHTTP r.(hr_Method) r.(hr_URL) r.(hr_Headers) r.(hr_Body));
  mret (roundTrip k r).

Lemma quiet_Do r : quiet (Do r).
Proof. unfold Do. eauto with quiet. Qed.

(** [Do] has no failure of its own. *)
Lemma Do_run r w :
  ∃ w', Do r w = (Ok (roundTrip (w_fresh w) r), w') ∧ w_db w' = w_db w ∧ w_faults w' = w_faults w ∧
    w_clock w' = w_clock w ∧ w_tick w' = w_tick w ∧
    w_trace w' = w_trace w ++ [EffHTTP r.(hr_Method) r.(hr_URL) r.(hr_Headers) r.(hr_Body)].
Proof. unfold Do, draw, emit. simpl. eexists. by split_and!. Qed.
End client.

#[export] Hint Resolve quiet_Do : quiet.

(** [strings.TrimRight] for a set of ASCII characters. *)
Fixpoint trimLeftBytes (cut : ascii → bool) (s : string) : string :=
  match s with
  | EmptyString => EmptyString
  | String c s' => if cut c then trimLeftBytes cut s' else s
  end.

Definition TrimRight (cut : ascii → bool) (s : string) : string := revString (trimLeftBytes cut (revString s)).

Definition success (status : Z) : bool := (200 <=? status) && (status <? 300).

(** A transport on which every request succeeds. *)
Definition ex_transport : Transport := {|
  newRequest _ _ := true;
  roundTrip _ _ := inl (mkHttpResponse 200 "{}" EndOfBody)
|}.
