(* ===== verification/SecretRotation.v ===== *)
(** * Secret rotation: [internal/admin/secret_rotation_service.go]

    Re-encrypting the stored provider keys and webhook secrets under the active
    version of the key ring, one row at a time, each by its own statement. *)

From S2P Require Import Prelude GoStrings Encodings Costing Store ExampleWorld Tokens Secrets.

Module SecretRotation.
Import Secrets.

Record ReencryptResult := mkReencryptResult {
  rr_DryRun : bool;
  rr_Scanned : Z;
  rr_Rotated : Z;
  rr_Skipped : Z
}.

(** ** Queries *)

Definition in_scope (orgID : option uuid) (org : uuid) : bool :=
  match orgID with None => true | Some o => (org =? o)%N end.

(** [ORDER BY org_id, provider_id], and [ORDER BY org_id, id]. *)
Definition secret_le (a b : ProviderSecret) : bool :=
  (a.(ProviderSecret_OrgID) <? b.(ProviderSecret_OrgID))%N
  || ((a.(ProviderSecret_OrgID) =? b.(ProviderSecret_OrgID))%N
      && (a.(ProviderSecret_ProviderID) <=? b.(ProviderSecret_ProviderID))%N).
Definition alert_le (a b : BudgetAlert) : bool :=
  (a.(BudgetAlert_OrgID) <? b.(BudgetAlert_OrgID))%N
  || ((a.(BudgetAlert_OrgID) =? b.(BudgetAlert_OrgID))%N && (a.(BudgetAlert_ID) <=? b.(BudgetAlert_ID))%N).

Definition secrets_for_rotation (orgID : option uuid) (d : DB) : list ProviderSecret :=
  sort_by secret_le (List.filter (λ s, in_scope orgID s.(ProviderSecret_OrgID)) d.(provider_secrets)).

Definition has_secret (a : BudgetAlert) : bool :=
  match a.(BudgetAlert_WebhookSecret) with Some _ => true | None => false end.
Definition alerts_for_rotation (orgID : option uuid) (d : DB) : list BudgetAlert :=
  sort_by alert_le (List.filter (λ a, has_secret a && in_scope orgID a.(BudgetAlert_OrgID)) d.(budget_alerts)).

Definition resealed (s : SealedSecret) (now : Z) (p : ProviderSecret) : ProviderSecret :=
  mkProviderSecret p.(ProviderSecret_ID) p.(ProviderSecret_OrgID) p.(ProviderSecret_ProviderID) s.(ss_Encrypted)
    s.(ss_Nonce) s.(ss_KeyVersion) p.(ProviderSecret_CreatedAt) now.

Definition provider_secret_check (p : ProviderSecret) : bool :=
  negb (String.eqb p.(ProviderSecret_EncryptedApiKey) "") && negb (String.eqb p.(ProviderSecret_Nonce) "")
  && (0 <? p.(ProviderSecret_KeyVersion)).

Definition is_secret (q p : ProviderSecret) : bool :=
  (p.(ProviderSecret_OrgID) =? q.(ProviderSecret_OrgID))%N
  && (p.(ProviderSecret_ProviderID) =? q.(ProviderSecret_ProviderID))%N
  && (p.(ProviderSecret_ID) =? q.(ProviderSecret_ID))%N.

(** [UPDATE ... RETURNING] read through [QueryRow]. *)
Definition update_ciphertext (q : ProviderSecret) (s : SealedSecret) (now : Z) (d : DB) : result (ProviderSecret * DB) :=
  ps ← pg_update (is_secret q) (λ p, _ ← pg_check (provider_secret_check (resealed s now p)); Ok (resealed s now p))
         d.(provider_secrets);
  p ← pg_one (is_secret q) d.(provider_secrets);
  Ok (resealed s now p, set_provider_secrets (λ _, ps) d).

Definition rekeyed (secret : option string) (now : Z) (a : BudgetAlert) : BudgetAlert :=
  mkBudgetAlert a.(BudgetAlert_ID) a.(BudgetAlert_OrgID) a.(BudgetAlert_BudgetID) a.(BudgetAlert_WebhookUrl) secret
    a.(BudgetAlert_Status) a.(BudgetAlert_CreatedAt) now.

Definition is_alert (q a : BudgetAlert) : bool :=
  (a.(BudgetAlert_OrgID) =? q.(BudgetAlert_OrgID))%N && (a.(BudgetAlert_ID) =? q.(BudgetAlert_ID))%N.

(** [webhook_secret] and [updated_at] carry no constraint. *)
Definition update_webhook_secret (q : BudgetAlert) (secret : option string) (now : Z) (d : DB) : result (unit * DB) :=
  Ok (tt, set_budget_alerts (map (λ a, if is_alert q a then rekeyed secret now a else a)) d).

(** ** The service *)

Section service.
Context `{Runtime, AEAD}.

Definition rotated (res : ReencryptResult) : ReencryptResult :=
  mkReencryptResult res.(rr_DryRun) res.(rr_Scanned) (res.(rr_Rotated) + 1) res.(rr_Skipped).
Definition skipped (res : ReencryptResult) : ReencryptResult :=
  mkReencryptResult res.(rr_DryRun) res.(rr_Scanned) res.(rr_Rotated) (res.(rr_Skipped) + 1).
Definition scanned (n : Z) (res : ReencryptResult) : ReencryptResult :=
  mkReencryptResult res.(rr_DryRun) (res.(rr_Scanned) + n) res.(rr_Rotated) res.(rr_Skipped).

(** The body of the loop of [ReencryptProviderSecrets]. *)
Definition reencryptSecret (ring : SecretKeyRing) (dryRun : bool) (res : ReencryptResult) (secret : ProviderSecret)
    : M ReencryptResult :=
  if secret.(ProviderSecret_KeyVersion) =? ActiveVersion ring then mret (skipped res)
  else
    plaintext ← lift (Open ring secret.(ProviderSecret_EncryptedApiKey) secret.(ProviderSecret_Nonce)
                        secret.(ProviderSecret_KeyVersion));
    if dryRun then mret (rotated res)
    else
      sealed ← Seal ring plaintext;
      now ← clock;
      _ ← stmt (update_ciphertext secret sealed now);
      mret (rotated res).

Definition ReencryptProviderSecrets (ring : SecretKeyRing) (orgID : option uuid) (dryRun : bool) : M ReencryptResult :=
  secrets ← query (λ d, Ok (secrets_for_rotation orgID d));
  forM secrets (mkReencryptResult dryRun (Z.of_nat (length secrets)) 0 0) (reencryptSecret ring dryRun).

(** The secret to store, and whether it differs from the one there is. *)
Definition reencryptWebhookSecretValue (ring : SecretKeyRing) (stored : option string) : M (option string * bool) :=
  if match stored with None => true | Some s => String.eqb (TrimSpace s) "" end then mret (stored, false)
  else
    '(version, encrypted) ← lift (WebhookSecretKeyVersion stored);
    if (encrypted : bool) && (version =? ActiveVersion ring) then mret (stored, false)
    else
      plaintext ← lift (OpenWebhookSecret (Some ring) stored);
      stored' ← SealWebhookSecret (Some ring) plaintext;
      mret (stored', true).

(** The body of the loop of [ReencryptWebhookSecrets]. *)
Definition reencryptAlert (ring : SecretKeyRing) (dryRun : bool) (res : ReencryptResult) (alert : BudgetAlert)
    : M ReencryptResult :=
  let res := scanned 1 res in
  '(stored, changed) ← reencryptWebhookSecretValue ring alert.(BudgetAlert_WebhookSecret);
  if negb changed then mret (skipped res)
  else if dryRun then mret (rotated res)
  else
    now ← clock;
    _ ← stmt (update_webhook_secret alert stored now);
    mret (rotated res).

Definition ReencryptWebhookSecrets (ring : SecretKeyRing) (orgID : option uuid) (dryRun : bool) : M ReencryptResult :=
  alerts ← query (λ d, Ok (alerts_for_rotation orgID d));
  forM alerts (mkReencryptResult dryRun 0 0 0) (reencryptAlert ring dryRun).

(** The order in which [cmd/secret-rotate] runs them. *)
Definition rotate (ring : SecretKeyRing) (orgID : option uuid) (dryRun : bool) : M (ReencryptResult * ReencryptResult) :=
  providerResult ← ReencryptProviderSecrets ring orgID dryRun;
  webhookResult ← ReencryptWebhookSecrets ring orgID dryRun;
  mret (providerResult, webhookResult).

(** ** Specification *)

Definition opens (ring : SecretKeyRing) (s : ProviderSecret) (plaintext : string) : Prop :=
  Open ring s.(ProviderSecret_EncryptedApiKey) s.(ProviderSecret_Nonce) s.(ProviderSecret_KeyVersion) = Ok plaintext.

(** A row and what has become of it: the same secret of the same provider. *)
Definition secret_kept (ring : SecretKeyRing) (s s' : ProviderSecret) : Prop :=
  s'.(ProviderSecret_ID) = s.(ProviderSecret_ID) ∧ s'.(ProviderSecret_OrgID) = s.(ProviderSecret_OrgID) ∧
  s'.(ProviderSecret_ProviderID) = s.(ProviderSecret_ProviderID) ∧
  s'.(ProviderSecret_CreatedAt) = s.(ProviderSecret_CreatedAt) ∧
  ∀ plaintext, opens ring s plaintext → opens ring s' plaintext.

(** A webhook secret is compared with its spaces trimmed, as it was when set. *)
Definition alert_kept (ring : SecretKeyRing) (a a' : BudgetAlert) : Prop :=
  a' = rekeyed a'.(BudgetAlert_WebhookSecret) a'.(BudgetAlert_UpdatedAt) a ∧
  ∀ plaintext, OpenWebhookSecret (Some ring) a.(BudgetAlert_WebhookSecret) = Ok plaintext →
    ∃ plaintext', OpenWebhookSecret (Some ring) a'.(BudgetAlert_WebhookSecret) = Ok plaintext' ∧
      TrimSpace plaintext' = TrimSpace plaintext.

(** A webhook secret that needs no rotation: none, blank, or under the active version. *)
Definition current (ring : SecretKeyRing) (a : BudgetAlert) : Prop :=
  match a.(BudgetAlert_WebhookSecret) with
  | None => True
  | Some s => TrimSpace s = "" ∨ WebhookSecretKeyVersion (Some s) = Ok (ring.(kr_activeVersion), true)
  end.

(** ** Proofs *)

(** Where the rows stand once the secrets [done] have been looked at. *)
Definition secrets_at (ring : SecretKeyRing) (orig : list ProviderSecret) (done : list ProviderSecret) (w : world) : Prop :=
  Forall2 (λ s s', secret_kept ring s s' ∧
             (s'.(ProviderSecret_KeyVersion) = ring.(kr_activeVersion) ∨ s' = s) ∧
             (s ∈ done → s'.(ProviderSecret_KeyVersion) = ring.(kr_activeVersion)))
    orig (w_db w).(provider_secrets).

Lemma secret_kept_refl ring s : secret_kept ring s s.
Proof. by split_and!. Qed.

Lemma secrets_at_start ring w : secrets_at ring (w_db w).(provider_secrets) [] w.
Proof.
  apply Forall2_refl_in. intros s. split; [apply secret_kept_refl|]. split; [by right|]. by intros ?%elem_of_nil.
Qed.

Lemma secrets_at_db ring orig done w w' : w_db w' = w_db w → secrets_at ring orig done w → secrets_at ring orig done w'.
Proof. unfold secrets_at. by intros ->. Qed.

Lemma is_secret_true q p :
  is_secret q p = true ↔ p.(ProviderSecret_OrgID) = q.(ProviderSecret_OrgID) ∧
    p.(ProviderSecret_ProviderID) = q.(ProviderSecret_ProviderID) ∧ p.(ProviderSecret_ID) = q.(ProviderSecret_ID).
Proof. unfold is_secret. rewrite !andb_true_iff, !N.eqb_eq. tauto. Qed.

Lemma secrets_at_skip ring orig done s w :
  s.(ProviderSecret_KeyVersion) = ring.(kr_activeVersion) →
  secrets_at ring orig done w → secrets_at ring orig (done ++ [s]) w.
Proof.
  intros Hs H'. eapply Forall2_impl_in; [exact H'|]. intros x y _ (Hk & Hv & Hd). split; [done|]. split; [done|].
  intros [Hx|Hx]%elem_of_app; [auto|]. apply list_elem_of_singleton in Hx as ->. by destruct Hv as [? | ->].
Qed.

Lemma secrets_at_update ring orig done s sealed plaintext now w w' :
  NoDup (map ProviderSecret_ID orig) → s ∈ orig → opens ring s plaintext →
  sealed.(ss_KeyVersion) = ring.(kr_activeVersion) →
  Open ring sealed.(ss_Encrypted) sealed.(ss_Nonce) sealed.(ss_KeyVersion) = Ok plaintext →
  (w_db w').(provider_secrets) = map (λ p, if is_secret s p then resealed sealed now p else p) (w_db w).(provider_secrets) →
  secrets_at ring orig done w → secrets_at ring orig (done ++ [s]) w'.
Proof.
  intros Hnd Hs Hop Hver Hnew Hrows H'. unfold secrets_at. rewrite Hrows.
  eapply Forall2_map_r; [exact H'|]. intros x y Hx (Hk & Hv & Hd). destruct Hk as (Hi & Ho & Hp & Hc & Hpl).
  destruct (is_secret s y) eqn:E.
  - apply is_secret_true in E as (_ & _ & E). assert (x = s) as ->.
    { apply (NoDup_map_inj ProviderSecret_ID orig); [done..|congruence]. }
    split; [|split; [by left|done]]. split_and!; [done..|]. intros p. unfold opens in *. simpl. congruence.
  - split; [by split_and!|]. split; [done|]. intros [Hin|Hin]%elem_of_app; [auto|].
    apply list_elem_of_singleton in Hin as ->. exfalso.
    assert (is_secret s y = true) by by apply is_secret_true. congruence.
Qed.

(** One turn of the loop, whatever it returns. *)
Lemma reencryptSecret_turn ring orig done acc s w r w' :
  ring_ok ring → NoDup (map ProviderSecret_ID orig) → s ∈ orig → secrets_at ring orig done w →
  reencryptSecret ring false acc s w = (r, w') →
  match r with Ok _ => secrets_at ring orig (done ++ [s]) w' | Err _ => secrets_at ring orig done w' end.
Proof.
  intros Hring Hnd Hs Hat H'. unfold reencryptSecret in H'.
  destruct (Z.eqb_spec s.(ProviderSecret_KeyVersion) (ActiveVersion ring)) as [E|E].
  { injection H' as <- <-. by apply secrets_at_skip. }
  apply bind_cases in H' as [(p & w1 & [Hp <-]%lift_ok & H')|(e & He & ->)].
  2: { injection He as _ <-. done. }
  apply bind_cases in H' as [(sealed & w1 & Hseal & H')|(e & Hseal & ->)].
  2: { quiet_facts Hseal. by eapply secrets_at_db. }
  apply Seal_ok in Hseal as (Hdb & Hver & _ & _ & Hopen). clock_step H' now.
  apply bind_cases in H' as [(q & w3 & Hst & H')|(e & Hst & ->)]; apply stmt_cases in Hst.
  - injection H' as <- <-. apply result_bind_ok in Hst as (ps & Hps & Hst).
    apply result_bind_ok in Hst as (p0 & _ & [= _ Hw3]).
    apply (pg_update_rows _ _ (resealed sealed now)) in Hps.
    + apply (secrets_at_update ring orig done s sealed p now w w3); try done; [|rewrite <- Hw3; simpl; congruence].
      apply Hopen. by rewrite Hver.
    + intros x x' Hx. by apply result_bind_ok in Hx as (_ & _ & [= <-]).
  - destruct Hst as [Hst _]. eapply secrets_at_db; [|exact Hat]. congruence.
Qed.

Lemma ReencryptProviderSecrets_kept ring orgID w r w' :
  ring_ok ring → NoDup (map ProviderSecret_ID (w_db w).(provider_secrets)) →
  ReencryptProviderSecrets ring orgID false w = (r, w') →
  match r with
  | Ok _ => secrets_at ring (w_db w).(provider_secrets) (secrets_for_rotation orgID (w_db w)) w'
  | Err _ => ∃ done, secrets_at ring (w_db w).(provider_secrets) done w'
  end.
Proof.
  intros Hring Hnd H'. unfold ReencryptProviderSecrets in H'.
  apply bind_cases in H' as [(l & w1 & Hq & H')|(e & Hq & ->)].
  2: { quiet_facts Hq. exists []. eapply secrets_at_db; [exact Hdb|apply secrets_at_start]. }
  apply query_ok in Hq as [[= <-] Hdb].
  eapply (forM_inv (secrets_at ring (w_db w).(provider_secrets))); [| |exact H'].
  - intros done acc x w2 r2 w2' Hx Hat Hr. eapply reencryptSecret_turn; try done.
    apply elem_of_sort_by in Hx. apply list_elem_of_In, filter_In in Hx as [Hx _]. by apply list_elem_of_In.
  - eapply secrets_at_db; [exact Hdb|apply secrets_at_start].
Qed.

(** *** Webhook secrets *)

Definition alerts_at (ring : SecretKeyRing) (orig : list BudgetAlert) (done : list BudgetAlert) (w : world) : Prop :=
  Forall2 (λ a a', alert_kept ring a a' ∧ (current ring a' ∨ a' = a) ∧ (a ∈ done → current ring a'))
    orig (w_db w).(budget_alerts).

Lemma alert_kept_refl ring a : alert_kept ring a a.
Proof. split; [by destruct a|]. intros p Hp. by exists p. Qed.

Lemma alerts_at_start ring w : alerts_at ring (w_db w).(budget_alerts) [] w.
Proof.
  apply Forall2_refl_in. intros s. split; [apply alert_kept_refl|]. split; [by right|]. by intros ?%elem_of_nil.
Qed.

Lemma alerts_at_db ring orig done w w' :
  (w_db w').(budget_alerts) = (w_db w).(budget_alerts) → alerts_at ring orig done w → alerts_at ring orig done w'.
Proof. unfold alerts_at. by intros ->. Qed.

Lemma alerts_at_skip ring orig done a w :
  current ring a → alerts_at ring orig done w → alerts_at ring orig (done ++ [a]) w.
Proof.
  intros Ha H'. eapply Forall2_impl_in; [exact H'|]. intros x y _ (Hk & Hv & Hd). split; [done|]. split; [done|].
  intros [Hx|Hx]%elem_of_app; [auto|]. apply list_elem_of_singleton in Hx as ->. by destruct Hv as [? | ->].
Qed.

(** What the value becomes, and what is left alone. *)
Lemma reencryptWebhookSecretValue_ok ring stored w stored' changed w' :
  ring_ok ring → reencryptWebhookSecretValue ring stored w = (Ok (stored', changed), w') →
  w_db w' = w_db w ∧
  (if (changed : bool)
   then ∃ p, OpenWebhookSecret (Some ring) stored = Ok p ∧ OpenWebhookSecret (Some ring) stored' = Ok (TrimSpace p) ∧
        ∀ a, a.(BudgetAlert_WebhookSecret) = stored' → current ring a
   else stored' = stored ∧ ∀ a, a.(BudgetAlert_WebhookSecret) = stored → current ring a).
Proof.
  intros Hring H'. unfold reencryptWebhookSecretValue in H'.
  destruct stored as [s|]; [|injection H' as <- <- <-; split_and!; [done..|intros a Ha; unfold current; by rewrite Ha]].
  destruct (String.eqb_spec (TrimSpace s) "") as [E|E].
  { injection H' as <- <- <-. split_and!; [done..|]. intros a Ha. unfold current. rewrite Ha. by left. }
  apply bind_ok in H' as ([v enc] & w1 & [Hv <-]%lift_ok & H').
  destruct (enc && (v =? ActiveVersion ring)) eqn:Ev.
  { injection H' as <- <- <-. split_and!; [done..|]. intros a Ha. unfold current. rewrite Ha. right.
    apply andb_true_iff in Ev as [-> Ev%Z.eqb_eq]. rewrite Hv. unfold ActiveVersion in Ev. congruence. }
  apply bind_ok in H' as (p & w1 & [Hp <-]%lift_ok & H').
  apply bind_ok in H' as (st & w1 & Hst & [[= <- <-] <-]%ret_ok).
  apply SealWebhookSecret_ok in Hst as (Hdb & Hver & Hnone & Hop); [|done]. split; [done|].
  exists p. split; [done|]. split; [by apply Hop|]. intros a Ha. unfold current. rewrite Ha.
  destruct st as [s'|]; [|done]. right. rewrite Hver.
  destruct (String.eqb_spec (TrimSpace p) "") as [Ep|_]; [|done]. by apply Hnone in Ep.
Qed.

Lemma is_alert_true q a :
  is_alert q a = true ↔ a.(BudgetAlert_OrgID) = q.(BudgetAlert_OrgID) ∧ a.(BudgetAlert_ID) = q.(BudgetAlert_ID).
Proof. unfold is_alert. by rewrite andb_true_iff, !N.eqb_eq. Qed.

Lemma reencryptAlert_turn ring orig done acc a w r w' :
  ring_ok ring → NoDup (map BudgetAlert_ID orig) → a ∈ orig → alerts_at ring orig done w →
  reencryptAlert ring false acc a w = (r, w') →
  match r with Ok _ => alerts_at ring orig (done ++ [a]) w' | Err _ => alerts_at ring orig done w' end.
Proof.
  intros Hring Hnd Ha Hat H'. unfold reencryptAlert in H'.
  apply bind_cases in H' as [([st ch] & w1 & Hval & H')|(e & Hval & ->)].
  2: { assert (Hq : quiet (reencryptWebhookSecretValue ring a.(BudgetAlert_WebhookSecret))).
       { unfold reencryptWebhookSecretValue. case_match; [apply quiet_ret|]. apply quiet_bind; [apply quiet_lift|].
         intros [v enc]. destruct (_ && _); eauto with quiet. }
       destruct (quiet_ok _ _ _ _ Hq Hval) as (Hdb & _). eapply alerts_at_db; [|exact Hat]. by rewrite Hdb. }
  apply reencryptWebhookSecretValue_ok in Hval as [Hdb Hval]; [|done]. destruct ch; simpl in H'.
  2: { injection H' as <- <-. destruct Hval as [_ Hc]. apply alerts_at_skip; [by apply Hc|].
       eapply alerts_at_db; [|exact Hat]. by rewrite Hdb. }
  destruct Hval as (p & Hop & Hnew & Hcur). clock_step H' now.
  apply bind_cases in H' as [(q & w3 & Hst & H')|(e & Hst & ->)]; apply stmt_cases in Hst.
  2: { destruct Hst as [Hst _]. eapply alerts_at_db; [|exact Hat]. by rewrite Hst, Hdb0, Hdb. }
  injection H' as <- <-. injection Hst as _ Hw3. unfold alerts_at. rewrite <- Hw3. simpl. rewrite Hdb0, Hdb.
  eapply Forall2_map_r; [exact Hat|]. intros x y Hx ([Hid Hpl] & Hv & Hd).
  destruct (is_alert a y) eqn:E.
  - apply is_alert_true in E as [_ E]. rewrite Hid in E. simpl in E. assert (x = a) as ->.
    { by apply (NoDup_map_inj BudgetAlert_ID orig). }
    split; [|split; [left|intros _]; by apply Hcur]. split; [by rewrite Hid|]. intros p' Hp'.
    exists (TrimSpace p). split; [exact Hnew|]. rewrite TrimSpace_idem. congruence.
  - split; [done|]. split; [done|]. intros [Hin|Hin]%elem_of_app; [auto|].
    apply list_elem_of_singleton in Hin as ->. exfalso.
    assert (is_alert a y = true) by (apply is_alert_true; by rewrite Hid). congruence.
Qed.

Lemma ReencryptWebhookSecrets_kept ring orgID w r w' :
  ring_ok ring → NoDup (map BudgetAlert_ID (w_db w).(budget_alerts)) →
  ReencryptWebhookSecrets ring orgID false w = (r, w') →
  match r with
  | Ok _ => alerts_at ring (w_db w).(budget_alerts) (alerts_for_rotation orgID (w_db w)) w'
  | Err _ => ∃ done, alerts_at ring (w_db w).(budget_alerts) done w'
  end.
Proof.
  intros Hring Hnd H'. unfold ReencryptWebhookSecrets in H'.
  apply bind_cases in H' as [(l & w1 & Hq & H')|(e & Hq & ->)].
  2: { quiet_facts Hq. exists []. eapply alerts_at_db; [by rewrite Hdb|apply alerts_at_start]. }
  apply query_ok in Hq as [[= <-] Hdb].
  eapply (forM_inv (alerts_at ring (w_db w).(budget_alerts))); [| |exact H'].
  - intros done acc x w2 r2 w2' Hx Hat Hr. eapply reencryptAlert_turn; try done.
    apply elem_of_sort_by in Hx. apply list_elem_of_In, filter_In in Hx as [Hx _]. by apply list_elem_of_In.
  - eapply alerts_at_db; [by rewrite Hdb|apply alerts_at_start].
Qed.

(** *** The whole rotation *)

Lemma quiet_reencryptWebhookSecretValue ring stored : quiet (reencryptWebhookSecretValue ring stored).
Proof.
  unfold reencryptWebhookSecretValue. case_match; [apply quiet_ret|]. apply quiet_bind; [apply quiet_lift|].
  intros [v enc]. destruct (_ && _); eauto with quiet.
Qed.

(** A dry run only reads. *)
Lemma rotate_dry ring orgID : quiet (rotate ring orgID true).
Proof.
  unfold rotate, ReencryptProviderSecrets, ReencryptWebhookSecrets.
  assert (∀ res s, quiet (reencryptSecret ring true res s)).
  { intros. unfold reencryptSecret. destruct (_ =? _); eauto with quiet. }
  assert (∀ res a, quiet (reencryptAlert ring true res a)).
  { intros. unfold reencryptAlert. apply quiet_bind; [apply quiet_reencryptWebhookSecretValue|].
    intros [st []]; apply quiet_ret. }
  repeat (apply quiet_bind; [|intros]); eauto with quiet.
Qed.

(** Neither half touches the rows of the other. *)
Lemma providers_spare_alerts ring orgID l :
  preserves (λ d, d.(budget_alerts) = l) (ReencryptProviderSecrets ring orgID false).
Proof.
  apply preserves_bind; [apply preserves_query|]. intros secrets. apply preserves_forM. intros res s.
  unfold reencryptSecret. destruct (_ =? _); [apply preserves_ret|].
  apply preserves_bind; [apply preserves_lift|]. intros p.
  apply preserves_bind; [apply quiet_preserves, quiet_Seal|]. intros sealed.
  apply preserves_bind; [apply preserves_clock|]. intros now.
  apply preserves_bind; [|intros; apply preserves_ret]. apply preserves_stmt. intros d q d' Hd Hst.
  apply result_bind_ok in Hst as (ps & _ & Hst). by apply result_bind_ok in Hst as (p0 & _ & [= _ <-]).
Qed.

Lemma alerts_spare_providers ring orgID l :
  preserves (λ d, d.(provider_secrets) = l) (ReencryptWebhookSecrets ring orgID false).
Proof.
  apply preserves_bind; [apply preserves_query|]. intros alerts. apply preserves_forM. intros res a.
  apply preserves_bind; [apply quiet_preserves, quiet_reencryptWebhookSecretValue|]. intros [st ch].
  destruct (negb ch); [apply preserves_ret|].
  apply preserves_bind; [apply preserves_clock|]. intros now.
  apply preserves_bind; [|intros; apply preserves_ret]. apply preserves_stmt. by intros d q d' Hd [= _ <-].
Qed.

Lemma secrets_at_kept ring orig done w :
  secrets_at ring orig done w → Forall2 (secret_kept ring) orig (w_db w).(provider_secrets).
Proof. intros H'. eapply Forall2_impl_in; [exact H'|]. by intros ? ? _ (? & _). Qed.

Lemma alerts_at_kept ring orig done w :
  alerts_at ring orig done w → Forall2 (alert_kept ring) orig (w_db w).(budget_alerts).
Proof. intros H'. eapply Forall2_impl_in; [exact H'|]. by intros ? ? _ (? & _). Qed.

(** Rotation never loses a secret. Wherever a run of the rotation stops,
    for whatever error, every provider key and every webhook secret that could
    be opened before still opens to the same text (a webhook secret up to
    surrounding spaces), and nothing else of its row but the time of the update
    has changed. A run that reaches its end has brought every secret in its
    scope to the active version. A dry run changes nothing. *)
Theorem rotation_keeps_secrets (ring : SecretKeyRing) (orgID : option uuid) (dryRun : bool) (w w' : world)
    (r : result (ReencryptResult * ReencryptResult)) :
  ring_ok ring →
  NoDup (map ProviderSecret_ID (w_db w).(provider_secrets)) → NoDup (map BudgetAlert_ID (w_db w).(budget_alerts)) →
  rotate ring orgID dryRun w = (r, w') →
  Forall2 (secret_kept ring) (w_db w).(provider_secrets) (w_db w').(provider_secrets) ∧
  Forall2 (alert_kept ring) (w_db w).(budget_alerts) (w_db w').(budget_alerts) ∧
  (dryRun = true → w_db w' = w_db w) ∧
  (dryRun = false → is_ok r = true →
     Forall2 (λ s s', in_scope orgID s.(ProviderSecret_OrgID) = true →
                s'.(ProviderSecret_KeyVersion) = ring.(kr_activeVersion))
       (w_db w).(provider_secrets) (w_db w').(provider_secrets) ∧
     Forall2 (λ a a', in_scope orgID a.(BudgetAlert_OrgID) = true → current ring a')
       (w_db w).(budget_alerts) (w_db w').(budget_alerts)).
Proof.
  intros Hring Hs Ha H'. destruct dryRun.
  { destruct (quiet_ok _ _ _ _ (rotate_dry ring orgID) H') as (-> & _).
    split_and!; [apply Forall2_refl_in, secret_kept_refl|apply Forall2_refl_in, alert_kept_refl|done|done]. }
  unfold rotate in H'. apply bind_cases in H' as [(r1 & w1 & H1 & H')|(e & H1 & ->)].
  2: { pose proof (providers_spare_alerts ring orgID _ w eq_refl) as Hal. rewrite H1 in Hal. simpl in Hal.
       apply ReencryptProviderSecrets_kept in H1 as [seen H1]; [|done..]. rewrite Hal.
       split_and!; [by eapply secrets_at_kept|apply Forall2_refl_in, alert_kept_refl|done|done]. }
  pose proof (providers_spare_alerts ring orgID _ w eq_refl) as Hal. rewrite H1 in Hal. simpl in Hal.
  apply ReencryptProviderSecrets_kept in H1; [|done..].
  assert (∃ r2, ReencryptWebhookSecrets ring orgID false w1 = (r2, w') ∧ (is_ok r = true → is_ok r2 = true)) as (r2 & H2 & Hr2).
  { apply bind_cases in H' as [(r2 & w2 & H2 & H')|(e & H2 & ->)]; [injection H' as <- <-; by eexists|by eexists]. }
  pose proof (alerts_spare_providers ring orgID _ w1 eq_refl) as Hsec. rewrite H2 in Hsec. simpl in Hsec.
  apply ReencryptWebhookSecrets_kept in H2; [|done|by rewrite Hal]. rewrite Hal in H2. rewrite Hsec.
  split; [by eapply secrets_at_kept|]. split; [destruct r2; [|destruct H2 as [seen H2]]; by eapply alerts_at_kept|].
  split; [done|]. intros _ Hr. specialize (Hr2 Hr). destruct r2 as [res2|]; [|done]. split.
  - eapply Forall2_impl_in; [exact H1|]. intros x y Hx (_ & _ & Hd) Hsc. apply Hd, elem_of_sort_by.
    apply list_elem_of_In, filter_In. split; [by apply list_elem_of_In|done].
  - eapply Forall2_impl_in; [exact H2|]. intros x y Hx (Hk & Hv & Hd) Hsc.
    destruct (has_secret x) eqn:Ehs.
    + apply Hd, elem_of_sort_by. unfold alerts_for_rotation. rewrite Hal.
      apply list_elem_of_In, filter_In. split; [by apply list_elem_of_In|]. by rewrite Ehs.
    + destruct Hv as [?| ->]; [done|]. unfold has_secret, current in *. by destruct (BudgetAlert_WebhookSecret x).
Qed.
End service.

(** ** An example: one provider key and one webhook secret under version 1 *)

#[local] Existing Instance ex_runtime.
#[local] Existing Instance ex_aead.

Definition ex_sealed (plaintext : string) : SealedSecret :=
  mkSealedSecret (StdEncode (gcm_seal ex_key1 "nonce-of-12-" plaintext)) (StdEncode "nonce-of-12-") 1.

Definition ex_secrets_world : world := set_db
  (set_provider_secrets (λ _, [mkProviderSecret 80%N 1%N 40%N (ex_sealed "sk-live").(ss_Encrypted)
                                 (ex_sealed "sk-live").(ss_Nonce) 1 0 0])
  (set_budget_alerts (λ _, [mkBudgetAlert 81%N 1%N 20%N "https://hooks.example" (Some (envelope (ex_sealed "whsec"))) "active" 0 0;
                            mkBudgetAlert 82%N 1%N 21%N "https://hooks.example" (Some " clear ") "active" 0 0]) ex_db)) ex_world.

Notation ex_rotated := (rotate ex_keys2 None false ex_secrets_world).

Lemma ex_rotated_facts :
  is_ok ex_rotated.1 = true ∧ opens ex_keys2 (mkProviderSecret 80%N 1%N 40%N (ex_sealed "sk-live").(ss_Encrypted)
                                 (ex_sealed "sk-live").(ss_Nonce) 1 0 0) "sk-live".
Proof. vm_compute. done. Qed.

(** After the rotation the provider key opens under version 2. *)
Lemma rotation_keeps_secrets_witness :
  ∃ s', (w_db ex_rotated.2).(provider_secrets) = [s'] ∧ s'.(ProviderSecret_KeyVersion) = 2 ∧ opens ex_keys2 s' "sk-live".
Proof.
  destruct ex_rotated_facts as [Hok Hop]. destruct ex_rotated as [r w'] eqn:E. simpl in *.
  destruct (rotation_keeps_secrets ex_keys2 None false ex_secrets_world w' r (proj2 ring_ok_ex)
    ltac:(apply NoDup_singleton) ltac:(repeat constructor; set_solver) E) as (Hk & _ & _ & Hfin).
  destruct (Hfin eq_refl Hok) as [Hv _]. simpl in Hk, Hv.
  apply Forall2_cons_inv_l in Hk as (s' & l & Hs & Hnil & Hrows). apply Forall2_nil_inv_l in Hnil as ->.
  rewrite Hrows in Hv. apply Forall2_cons_1 in Hv as [Hv _]. exists s'. split; [done|]. split; [by apply Hv|].
  destruct Hs as (_ & _ & _ & _ & Hs). by apply Hs.
Defined.
End SecretRotation.
