(* ===== verification/BudgetAlerts.v ===== *)
(** * Budget alerts: [internal/budget/alert_service.go]

    Webhooks that announce that 80, 90 or 100 percent of a budget are used, and
    the record of what was delivered for which window. *)

From S2P Require Import Prelude GoTime GoStrings Encodings Costing Store ExampleWorld BudgetService Tokens Secrets Outbound HttpClient.

(** What a webhook says ([webhookPayload]). *)
Record webhookPayload := mkwebhookPayload {
  wp_OrgID : uuid;
  wp_BudgetID : uuid;
  wp_Threshold : Z;
  wp_UsedMicroUSD : Z;
  wp_LimitMicroUSD : Z;
  wp_Period : string;
  wp_Timestamp : Z
}.

(** How [encoding/json] writes a payload. *)
Class Webhooks := { marshalPayload : webhookPayload → string }.

Module BudgetAlerts.
Import BudgetService Secrets Outbound.

Definition AlertDeliverySuccess : string := "success".
Definition AlertDeliveryFailed : string := "failed".
Definition alertThresholds : list Z := [80; 90; 100].

Record CreateAlertParams := mkCreateAlertParams {
  al_OrgID : uuid;
  al_BudgetID : uuid;
  al_WebhookURL : string;
  al_WebhookSecret : string;
  al_Status : string
}.

(** [AlertService]: its key ring, and whether only public receivers are allowed. *)
Record AlertService := mkAlertService {
  as_publicOutboundOnly : bool;
  as_secretKeyRing : option SecretKeyRing
}.

(** ** Queries *)

Definition alert_check (a : BudgetAlert) : bool :=
  negb (String.eqb a.(BudgetAlert_WebhookUrl) "")
  && (String.eqb a.(BudgetAlert_Status) "active" || String.eqb a.(BudgetAlert_Status) "disabled").

Definition alert_clash (a q : BudgetAlert) : bool :=
  (q.(BudgetAlert_ID) =? a.(BudgetAlert_ID))%N
  || ((q.(BudgetAlert_OrgID) =? a.(BudgetAlert_OrgID))%N && (q.(BudgetAlert_BudgetID) =? a.(BudgetAlert_BudgetID))%N).

Definition insert_alert (a : BudgetAlert) (d : DB) : result (BudgetAlert * DB) :=
  _ ← pg_check (alert_check a);
  _ ← pg_unique (alert_clash a) d.(budget_alerts);
  Ok (a, set_budget_alerts (λ l, l ++ [a]) d).

Definition newest_alert_first (a b : BudgetAlert) : bool :=
  (b.(BudgetAlert_CreatedAt) <? a.(BudgetAlert_CreatedAt))
  || ((b.(BudgetAlert_CreatedAt) =? a.(BudgetAlert_CreatedAt)) && (b.(BudgetAlert_ID) <=? a.(BudgetAlert_ID))%N).
Definition oldest_alert_first (a b : BudgetAlert) : bool := newest_alert_first b a.

Definition list_alerts (orgID : uuid) (d : DB) : list BudgetAlert :=
  sort_by newest_alert_first (List.filter (λ a, (a.(BudgetAlert_OrgID) =? orgID)%N) d.(budget_alerts)).

Definition active_alerts (orgID : uuid) (d : DB) : list BudgetAlert :=
  sort_by oldest_alert_first
    (List.filter (λ a, (a.(BudgetAlert_OrgID) =? orgID)%N && String.eqb a.(BudgetAlert_Status) "active") d.(budget_alerts)).

Definition newest_delivery_first (a b : BudgetAlertDelivery) : bool :=
  (b.(BudgetAlertDelivery_CreatedAt) <? a.(BudgetAlertDelivery_CreatedAt))
  || ((b.(BudgetAlertDelivery_CreatedAt) =? a.(BudgetAlertDelivery_CreatedAt))
      && (b.(BudgetAlertDelivery_ID) <=? a.(BudgetAlertDelivery_ID))%N).

Definition list_deliveries (orgID : uuid) (limit : Z) (d : DB) : list BudgetAlertDelivery :=
  take (Z.to_nat limit)
    (sort_by newest_delivery_first (List.filter (λ x, (x.(BudgetAlertDelivery_OrgID) =? orgID)%N) d.(budget_alert_deliveries))).

(** The deliveries of a budget's window. *)
Definition of_window (orgID budgetID : uuid) (start : Z) (x : BudgetAlertDelivery) : bool :=
  (x.(BudgetAlertDelivery_OrgID) =? orgID)%N && (x.(BudgetAlertDelivery_BudgetID) =? budgetID)%N
  && (x.(BudgetAlertDelivery_PeriodWindowStart) =? start).

Definition window_deliveries (orgID budgetID : uuid) (start : Z) (d : DB) : list BudgetAlertDelivery :=
  sort_by (λ a b, a.(BudgetAlertDelivery_Threshold) <=? b.(BudgetAlertDelivery_Threshold))
    (List.filter (of_window orgID budgetID start) d.(budget_alert_deliveries)).

Definition delivery_check (x : BudgetAlertDelivery) : bool :=
  existsb (Z.eqb x.(BudgetAlertDelivery_Threshold)) [80; 90; 100]
  && (String.eqb x.(BudgetAlertDelivery_Period) "daily" || String.eqb x.(BudgetAlertDelivery_Period) "monthly")
  && (0 <=? x.(BudgetAlertDelivery_UsedMicroUsd)) && (0 <=? x.(BudgetAlertDelivery_LimitMicroUsd))
  && negb (String.eqb x.(BudgetAlertDelivery_WebhookUrl) "")
  && (String.eqb x.(BudgetAlertDelivery_Status) "success" || String.eqb x.(BudgetAlertDelivery_Status) "failed")
  && match x.(BudgetAlertDelivery_HttpStatus) with None => true | Some s => (100 <=? s) && (s <=? 599) end
  && (x.(BudgetAlertDelivery_PeriodWindowStart) <? x.(BudgetAlertDelivery_PeriodWindowEnd)).

Definition delivery_clash (x q : BudgetAlertDelivery) : bool :=
  (q.(BudgetAlertDelivery_ID) =? x.(BudgetAlertDelivery_ID))%N
  || (of_window x.(BudgetAlertDelivery_OrgID) x.(BudgetAlertDelivery_BudgetID) x.(BudgetAlertDelivery_PeriodWindowStart) q
      && (q.(BudgetAlertDelivery_Threshold) =? x.(BudgetAlertDelivery_Threshold))).

Definition insert_delivery (x : BudgetAlertDelivery) (d : DB) : result (BudgetAlertDelivery * DB) :=
  _ ← pg_check (delivery_check x);
  _ ← pg_unique (delivery_clash x) d.(budget_alert_deliveries);
  Ok (x, set_budget_alert_deliveries (λ l, l ++ [x]) d).

Definition GetBudget (orgID id : uuid) : M Budget :=
  query (λ d, pg_one (λ b, (b.(Budget_OrgID) =? orgID)%N && (b.(Budget_ID) =? id)%N) d.(budgets)).

(** ** The service *)

Definition thresholdReached (used limit threshold : Z) : bool := limit *₆₄ threshold <=? used *₆₄ 100.

Definition nullableText (value : string) : option string :=
  if String.eqb (TrimSpace value) "" then None else Some (TrimSpace value).

Section service.
Context `{Runtime, AEAD, Net, Transport, Webhooks}.

Definition validateWebhookURL (value : string) (publicOutboundOnly : bool) : result unit :=
  if String.eqb (TrimSpace value) "" then Err (EMsg "webhook_url is required")
  else ValidateOutboundHTTPURL value "webhook_url" publicOutboundOnly.

Definition signWebhook (secret body : string) : string := hexEncode (hmac_sha256 secret body).

Definition CreateAlert (s : AlertService) (params : CreateAlertParams) : M BudgetAlert :=
  if (params.(al_OrgID) =? Nil)%N then fail (EMsg "org_id is required")
  else if (params.(al_BudgetID) =? Nil)%N then fail (EMsg "budget_id is required")
  else
    let webhookURL := TrimSpace params.(al_WebhookURL) in
    _ ← lift (validateWebhookURL webhookURL s.(as_publicOutboundOnly));
    let status := if String.eqb params.(al_Status) "" then StatusActive else params.(al_Status) in
    if negb (String.eqb status StatusActive) && negb (String.eqb status StatusDisabled)
    then fail (EMsg "status must be active or disabled")
    else
      webhookSecret ← SealWebhookSecret s.(as_secretKeyRing) params.(al_WebhookSecret);
      now ← clock;
      id ← new_uuid;
      stmt (insert_alert (mkBudgetAlert id params.(al_OrgID) params.(al_BudgetID) webhookURL webhookSecret status now now)).

Definition ListAlerts (orgID : uuid) : M (list BudgetAlert) := query (λ d, Ok (list_alerts orgID d)).

Definition ListDeliveries (orgID : uuid) (limit : Z) : M (list BudgetAlertDelivery) :=
  let limit := if (limit <=? 0) || (200 <? limit) then 100 else limit in
  query (λ d, Ok (list_deliveries orgID limit d)).

(** The request itself: the delivery's status, the receiver's, and what went wrong. *)
Definition outcome : Type := string * option Z * string.
Definition failedWith (errorMessage : string) : outcome := (AlertDeliveryFailed, None, errorMessage).

Definition post (url body : string) (signature : option string) : M outcome :=
  answer ← Do (mkHttpRequest "POST" url
                 (("Content-Type", "application/json") ::
                  match signature with None => [] | Some v => [("X-LLMGW-Signature", v)] end) body);
  mret (match answer with
        | inr _ => failedWith "webhook request failed"
        | inl resp =>
            let code := resp.(hp_StatusCode) in
            if (code <? 200) || (300 <=? code)
            then (AlertDeliveryFailed, Some (wrap32 code), "webhook returned status " +:+ formatInt code)
            else (AlertDeliverySuccess, Some (wrap32 code), "")
        end).

Definition send (s : AlertService) (alert : BudgetAlert) (body : string) : M outcome :=
  match validateWebhookURL alert.(BudgetAlert_WebhookUrl) s.(as_publicOutboundOnly) with
  | Err _ => mret (failedWith "webhook URL is not allowed")
  | Ok _ =>
      if negb (newRequest "POST" alert.(BudgetAlert_WebhookUrl)) then mret (failedWith "build webhook request failed")
      else match alert.(BudgetAlert_WebhookSecret) with
           | None => post alert.(BudgetAlert_WebhookUrl) body None
           | Some stored =>
               match OpenWebhookSecret s.(as_secretKeyRing) (Some stored) with
               | Err EPanic => fail EPanic
               | Err _ => mret (failedWith "webhook secret decrypt failed")
               | Ok secret => post alert.(BudgetAlert_WebhookUrl) body (Some (signWebhook secret body))
               end
           end
  end.

Definition deliver (s : AlertService) (alert : BudgetAlert) (status : Status) (threshold : Z) : M BudgetAlertDelivery :=
  timestamp ← clock;
  let b := status.(st_Budget) in
  let body := marshalPayload (mkwebhookPayload alert.(BudgetAlert_OrgID) alert.(BudgetAlert_BudgetID) threshold
                status.(st_UsedMicroUSD) b.(Budget_LimitMicroUsd) b.(Budget_Period) timestamp) in
  '(deliveryStatus, httpStatus, errorMessage) ← send s alert body;
  now ← clock;
  id ← new_uuid;
  stmt (insert_delivery
    (mkBudgetAlertDelivery id alert.(BudgetAlert_OrgID) alert.(BudgetAlert_ID) alert.(BudgetAlert_BudgetID) threshold
       b.(Budget_Period) status.(st_WindowStart) status.(st_WindowEnd) status.(st_UsedMicroUSD) b.(Budget_LimitMicroUsd)
       alert.(BudgetAlert_WebhookUrl) deliveryStatus httpStatus (nullableText errorMessage) now)).

(** The loop over the thresholds. *)
Definition deliverThreshold (s : AlertService) (alert : BudgetAlert) (status : Status) (delivered : list Z)
    (acc : list BudgetAlertDelivery) (threshold : Z) : M (list BudgetAlertDelivery) :=
  if existsb (Z.eqb threshold) delivered then mret acc
  else if negb (thresholdReached status.(st_UsedMicroUSD) status.(st_Budget).(Budget_LimitMicroUsd) threshold) then mret acc
  else delivery ← deliver s alert status threshold; mret (acc ++ [delivery]).

(** The loop over the alerts. *)
Definition checkAlert (s : AlertService) (acc : list BudgetAlertDelivery) (alert : BudgetAlert) : M (list BudgetAlertDelivery) :=
  budgetItem ← GetBudget alert.(BudgetAlert_OrgID) alert.(BudgetAlert_BudgetID);
  if negb (String.eqb budgetItem.(Budget_Status) StatusActive) || (budgetItem.(Budget_LimitMicroUsd) <? 0) then mret acc
  else
    status ← statusForBudget budgetItem;
    delivered ← query (λ d, Ok (window_deliveries alert.(BudgetAlert_OrgID) alert.(BudgetAlert_BudgetID)
                                  status.(st_WindowStart) d));
    forM alertThresholds acc (deliverThreshold s alert status (map BudgetAlertDelivery_Threshold delivered)).

Definition CheckAndDeliver (s : AlertService) (orgID : uuid) : M (list BudgetAlertDelivery) :=
  alerts ← query (λ d, Ok (active_alerts orgID d));
  forM alerts [] (checkAlert s).

(** ** Specification *)

(** A use is at least so many percent of a limit; and the amounts whose
    hundredfold fits 64 bits (up to 9.2e16 micro-dollars). *)
Definition percent_reached (used limit percent : Z) : Prop := limit * percent <= used * 100.
Definition measurable (used limit : Z) : Prop := Z.abs used <= MaxInt64 / 100 ∧ 0 <= limit <= MaxInt64 / 100.

(** The budget an alert watches, while both let it be announced. *)
Definition watches (d : DB) (a : BudgetAlert) (b : Budget) : Prop :=
  pg_one (λ b, (b.(Budget_OrgID) =? a.(BudgetAlert_OrgID))%N && (b.(Budget_ID) =? a.(BudgetAlert_BudgetID))%N) d.(budgets) = Ok b ∧
  b.(Budget_Status) = StatusActive ∧ 0 <= b.(Budget_LimitMicroUsd).

(** A delivery that was due since [w]: for the active alert [a], of a threshold
    its budget had reached in the window of some later reading of the clock. *)
Definition due (w : world) (orgID : uuid) (a : BudgetAlert) (x : BudgetAlertDelivery) : Prop :=
  ∃ b n, a ∈ active_alerts orgID (w_db w) ∧ watches (w_db w) a b ∧ (w_tick w <= n)%nat ∧
    x.(BudgetAlertDelivery_OrgID) = a.(BudgetAlert_OrgID) ∧ x.(BudgetAlertDelivery_BudgetAlertID) = a.(BudgetAlert_ID) ∧
    x.(BudgetAlertDelivery_BudgetID) = a.(BudgetAlert_BudgetID) ∧ x.(BudgetAlertDelivery_WebhookUrl) = a.(BudgetAlert_WebhookUrl) ∧
    window_at (w_clock w n) b.(Budget_Period) =
      Ok (x.(BudgetAlertDelivery_PeriodWindowStart), x.(BudgetAlertDelivery_PeriodWindowEnd)) ∧
    x.(BudgetAlertDelivery_Period) = b.(Budget_Period) ∧
    x.(BudgetAlertDelivery_UsedMicroUsd) =
      used_amount b.(Budget_OrgID) x.(BudgetAlertDelivery_PeriodWindowStart) x.(BudgetAlertDelivery_PeriodWindowEnd) (w_db w) ∧
    x.(BudgetAlertDelivery_LimitMicroUsd) = b.(Budget_LimitMicroUsd) ∧
    x.(BudgetAlertDelivery_Threshold) ∈ [80; 90; 100] ∧
    (measurable x.(BudgetAlertDelivery_UsedMicroUsd) x.(BudgetAlertDelivery_LimitMicroUsd) →
     percent_reached x.(BudgetAlertDelivery_UsedMicroUsd) x.(BudgetAlertDelivery_LimitMicroUsd) x.(BudgetAlertDelivery_Threshold)).

(** The webhook of a delivery: its body, the headers with the signature of an
    alert that has a secret, and whether it can be sent at all. *)
Definition webhook_body (x : BudgetAlertDelivery) (timestamp : Z) : string :=
  marshalPayload (mkwebhookPayload x.(BudgetAlertDelivery_OrgID) x.(BudgetAlertDelivery_BudgetID) x.(BudgetAlertDelivery_Threshold)
    x.(BudgetAlertDelivery_UsedMicroUsd) x.(BudgetAlertDelivery_LimitMicroUsd) x.(BudgetAlertDelivery_Period) timestamp).
Definition signed_headers (s : AlertService) (a : BudgetAlert) (body : string) (headers : list (string * string)) : Prop :=
  match a.(BudgetAlert_WebhookSecret) with
  | None => headers = [("Content-Type", "application/json")]
  | Some stored => ∃ secret, OpenWebhookSecret s.(as_secretKeyRing) (Some stored) = Ok secret ∧
      headers = [("Content-Type", "application/json"); ("X-LLMGW-Signature", hexEncode (hmac_sha256 secret body))]
  end.
Definition postable (s : AlertService) (a : BudgetAlert) (body : string) (headers : list (string * string)) : Prop :=
  TrimSpace a.(BudgetAlert_WebhookUrl) ≠ "" ∧
  ValidateOutboundHTTPURL a.(BudgetAlert_WebhookUrl) "webhook_url" s.(as_publicOutboundOnly) = Ok tt ∧
  newRequest "POST" a.(BudgetAlert_WebhookUrl) = true ∧ signed_headers s a body headers.

(** What is recorded of the receiver's answer. *)
Definition recorded (status : string) (http : option Z) (answer : HttpResponse + transportError) : Prop :=
  match answer with
  | inl resp => http = Some (wrap32 resp.(hp_StatusCode)) ∧
      status = (if decide (200 <= resp.(hp_StatusCode) < 300) then "success" else "failed")
  | inr _ => http = None ∧ status = "failed"
  end.

(** What a delivery sends: its webhook, if it can be sent, answered by the
    receiver; otherwise nothing. *)
Inductive exchanged (s : AlertService) (a : BudgetAlert) (body : string) (k : nat) (status : string) (http : option Z) :
    list effect → Prop :=
| ex_posted headers :
    postable s a body headers →
    recorded status http (roundTrip k (mkHttpRequest "POST" a.(BudgetAlert_WebhookUrl) headers body)) →
    exchanged s a body k status http [EffHTTP "POST" a.(BudgetAlert_WebhookUrl) headers body]
| ex_unsent :
    (∀ headers, ¬ postable s a body headers) → status = "failed" → http = None → exchanged s a body k status http [].

Definition told (s : AlertService) (w : world) (a : BudgetAlert) (x : BudgetAlertDelivery) (effects : list effect) : Prop :=
  ∃ n k, (w_tick w <= n)%nat ∧ (w_fresh w <= k)%nat ∧
    exchanged s a (webhook_body x (w_clock w n)) k x.(BudgetAlertDelivery_Status) x.(BudgetAlertDelivery_HttpStatus) effects.

Definition due_and_told (s : AlertService) (orgID : uuid) (w : world) (x : BudgetAlertDelivery) (effects : list effect) : Prop :=
  ∃ a, due w orgID a x ∧ told s w a x effects.

Definition delivery_key (x : BudgetAlertDelivery) : uuid * uuid * Z * Z :=
  (x.(BudgetAlertDelivery_OrgID), x.(BudgetAlertDelivery_BudgetID), x.(BudgetAlertDelivery_PeriodWindowStart),
   x.(BudgetAlertDelivery_Threshold)).

(** One delivery per budget, window and threshold. *)
Definition recorded_once (d : DB) : Prop := NoDup (map delivery_key d.(budget_alert_deliveries)).

(** Every threshold the alert's budget had reached has its delivery. *)
Definition all_recorded (w : world) (d : DB) (a : BudgetAlert) : Prop :=
  ∀ b, watches (w_db w) a b →
    ∃ n start stop, (w_tick w <= n)%nat ∧ window_at (w_clock w n) b.(Budget_Period) = Ok (start, stop) ∧
      ∀ t, let used := used_amount b.(Budget_OrgID) start stop (w_db w) in
        t ∈ [80; 90; 100] → measurable used b.(Budget_LimitMicroUsd) → percent_reached used b.(Budget_LimitMicroUsd) t →
        ∃ x, x ∈ d.(budget_alert_deliveries) ∧ delivery_key x = (a.(BudgetAlert_OrgID), a.(BudgetAlert_BudgetID), start, t).

(** ** Proofs *)

Lemma thresholdReached_percent used limit t : measurable used limit → t ∈ alertThresholds →
  thresholdReached used limit t = true ↔ percent_reached used limit t.
Proof.
  unfold measurable, alertThresholds, percent_reached, thresholdReached. unfold MaxInt64.
  change (9223372036854775807 / 100) with 92233720368547758. rewrite !elem_of_cons.
  intros [Hu Hl] [->|[->|[->|H']]]; [..|by apply not_elem_of_nil in H'];
    rewrite !wrap64_id by (unfold_ranges; lia); apply Z.leb_le.
Qed.

(** The clock and the random draws only go on. *)
Definition onward (w w' : world) : Prop :=
  w_clock w' = w_clock w ∧ (w_tick w <= w_tick w')%nat ∧ (w_fresh w <= w_fresh w')%nat.

Lemma onward_refl w : onward w w.
Proof. by split_and!. Qed.
Lemma onward_trans w w1 w2 : onward w w1 → onward w1 w2 → onward w w2.
Proof. unfold onward. intros (E1 & ? & ?) (E2 & ? & ?). split_and!; [congruence|lia..]. Qed.

(** A step that sends nothing. *)
Definition mute {A} (m : M A) : Prop := ∀ w r w', m w = (r, w') → w_trace w' = w_trace w ∧ onward w w'.

Lemma mute_bind {A B} (m : M A) (f : A → M B) : mute m → (∀ a, mute (f a)) → mute (m ≫= f).
Proof.
  intros Hm Hf w r w' [(a & w1 & Hq1 & Hq2)|(e & Hq1 & ->)]%bind_cases; [|by eapply Hm].
  apply Hm in Hq1 as [E1 O1]. apply Hf in Hq2 as [E2 O2]. split; [congruence|by eapply onward_trans].
Qed.
Lemma mute_stmt {A} (f : DB → result (A * DB)) : mute (stmt f).
Proof.
  intros w r w'. unfold stmt, call. destruct (w_faults w) as [|[] l]; simpl; try destruct (f _) as [[]|];
    intros [= <- <-]; by split.
Qed.
Lemma mute_clock : mute clock.
Proof. intros w r w' [= <- <-]. split; [done|]. unfold onward. simpl. split_and!; [done|lia..]. Qed.
Lemma mute_new_uuid : mute new_uuid.
Proof. intros w r w' [= <- <-]. split; [done|]. unfold onward. simpl. split_and!; [done|lia..]. Qed.
Lemma mute_lift {A} (r : result A) : mute (lift r).
Proof. intros w r' w' [= <- <-]. by split. Qed.
Lemma mute_ret {A} (a : A) : mute (mret (M := M) a).
Proof. apply (mute_lift (Ok a)). Qed.

Lemma mute_statusForBudget b : mute (statusForBudget b).
Proof.
  unfold statusForBudget, statusForBudgetWithCache, usageForPeriod. cbv zeta.
  repeat first [ apply mute_stmt | apply mute_bind; [|intros; simpl] | apply mute_clock | apply mute_lift | apply mute_ret
               | progress case_match ].
Qed.

(** The exchange with the receiver. *)
Lemma post_cases url body signature w r w' :
  post url body signature w = (r, w') →
  let headers := ("Content-Type", "application/json") :: match signature with None => [] | Some v => [("X-LLMGW-Signature", v)] end in
  w_db w' = w_db w ∧ onward w w' ∧ w_trace w' = w_trace w ++ [EffHTTP "POST" url headers body] ∧
  ∃ status http message, r = Ok (status, http, message) ∧ recorded status http (roundTrip (w_fresh w) (mkHttpRequest "POST" url headers body)).
Proof.
  intros H'. unfold post, Do in H'. injection H' as <- <-. simpl.
  split; [done|]. split; [unfold onward; simpl; split_and!; [done|lia..]|]. split; [done|]. unfold recorded.
  destruct (roundTrip _ _) as [resp|]; [|by eexists _, _, _]. destruct (_ || _) eqn:E; eexists _, _, _; (split; [done|]);
    case_decide; try done; lia.
Qed.

(** A step that tries to send a webhook. *)
Definition tries (s : AlertService) (a : BudgetAlert) (body : string) (w : world) (r : result outcome) (w' : world) : Prop :=
  w_db w' = w_db w ∧ onward w w' ∧
  match r with
  | Ok (status, http, _) => ∃ effects, w_trace w' = w_trace w ++ effects ∧ exchanged s a body (w_fresh w) status http effects
  | Err _ => w_trace w' = w_trace w
  end.

Lemma tries_unsent s a body w message : (∀ headers, ¬ postable s a body headers) → tries s a body w (Ok (failedWith message)) w.
Proof. intros Hno. split; [done|]. split; [apply onward_refl|]. exists []. rewrite app_nil_r. split; [done|by apply ex_unsent]. Qed.

Lemma tries_post s a body signature w r w' :
  let headers := ("Content-Type", "application/json") :: match signature with None => [] | Some v => [("X-LLMGW-Signature", v)] end in
  postable s a body headers → post (BudgetAlert_WebhookUrl a) body signature w = (r, w') → tries s a body w r w'.
Proof.
  intros headers Hp (Hdb & Hon & Htr & status & http & message & -> & Hrec)%post_cases. split; [done|]. split; [done|].
  eexists. split; [exact Htr|]. by apply ex_posted.
Qed.

Lemma send_cases s a body w r w' : send s a body w = (r, w') → tries s a body w r w'.
Proof.
  unfold send, validateWebhookURL. destruct (String.eqb_spec (TrimSpace (BudgetAlert_WebhookUrl a)) "") as [Eu|Eu].
  { intros [= <- <-]. apply tries_unsent. by intros headers (Hu & _). }
  destruct (ValidateOutboundHTTPURL _ _ _) as [[]|] eqn:Ev.
  2: { intros [= <- <-]. apply tries_unsent. intros headers (_ & Hu & _). congruence. }
  destruct (newRequest _ _) eqn:En; cbn [negb].
  2: { intros [= <- <-]. apply tries_unsent. intros headers (_ & _ & Hu & _). congruence. }
  destruct (BudgetAlert_WebhookSecret a) as [stored|] eqn:Es.
  2: { apply tries_post. split_and!; [done..|]. unfold signed_headers. by rewrite Es. }
  destruct (OpenWebhookSecret (as_secretKeyRing s) (Some stored)) as [secret|e] eqn:Eo.
  { apply tries_post. split_and!; [done..|]. unfold signed_headers. rewrite Es. by exists secret. }
  assert (Hno : ∀ headers, ¬ postable s a body headers).
  { intros headers (_ & _ & _ & Hs). unfold signed_headers in Hs. rewrite Es in Hs. destruct Hs as (secret & Hs & _). congruence. }
  destruct e; try (intros [= <- <-]; by apply tries_unsent). intros [= <- <-]. split; [done|]. by split; [apply onward_refl|].
Qed.

Definition with_deliveries (new : list BudgetAlertDelivery) (d : DB) : DB :=
  set_budget_alert_deliveries (λ l, l ++ new) d.

Lemma with_deliveries_nil d : with_deliveries [] d = d.
Proof. unfold with_deliveries, set_budget_alert_deliveries. rewrite app_nil_r. by destruct d. Qed.

Lemma with_deliveries_snoc new x d : set_budget_alert_deliveries (λ l, l ++ [x]) (with_deliveries new d) = with_deliveries (new ++ [x]) d.
Proof. unfold with_deliveries, set_budget_alert_deliveries. simpl. by rewrite <- app_assoc. Qed.

Lemma of_window_true o b s x :
  of_window o b s x = true ↔ x.(BudgetAlertDelivery_OrgID) = o ∧ x.(BudgetAlertDelivery_BudgetID) = b ∧
    x.(BudgetAlertDelivery_PeriodWindowStart) = s.
Proof. unfold of_window. rewrite !andb_true_iff, !N.eqb_eq, Z.eqb_eq. tauto. Qed.

(** The record of a delivery for the threshold [t] of a budget's status. *)
Definition delivery_of (a : BudgetAlert) (st : Status) (t : Z) (x : BudgetAlertDelivery) : Prop :=
  ∃ id status http message now, x = mkBudgetAlertDelivery id a.(BudgetAlert_OrgID) a.(BudgetAlert_ID) a.(BudgetAlert_BudgetID) t
    st.(st_Budget).(Budget_Period) st.(st_WindowStart) st.(st_WindowEnd) st.(st_UsedMicroUSD) st.(st_Budget).(Budget_LimitMicroUsd)
    a.(BudgetAlert_WebhookUrl) status http message now.

(** Its webhook was told, or the run was stopped before that. *)
Lemma deliver_cases s a st t w r w' :
  deliver s a st t w = (r, w') →
  onward w w' ∧
  match r with
  | Ok x => w_db w' = set_budget_alert_deliveries (λ l, l ++ [x]) (w_db w) ∧
      (∀ y, y ∈ (w_db w).(budget_alert_deliveries) → delivery_key y ≠ delivery_key x) ∧
      delivery_of a st t x ∧ ∃ effects, w_trace w' = w_trace w ++ effects ∧ told s w a x effects
  | Err _ => w_db w' = w_db w ∧
      (w_trace w' = w_trace w ∨ ∃ x effects, delivery_of a st t x ∧ w_trace w' = w_trace w ++ effects ∧ told s w a x effects)
  end.
Proof.
  unfold deliver. intros [(ts & w1 & [= <- Hw1] & H')|(e & Hc & _)]%bind_cases; [|done].
  assert (Hdb1 : w_db w1 = w_db w) by by rewrite <- Hw1. assert (Htr1 : w_trace w1 = w_trace w) by by rewrite <- Hw1.
  assert (Hf1 : w_fresh w1 = w_fresh w) by by rewrite <- Hw1.
  assert (Hon1 : onward w w1) by (rewrite <- Hw1; unfold onward; simpl; split_and!; [done|lia..]). clear Hw1.
  apply bind_cases in H' as [([[status http] message] & w2 & Hs & H')|(e & Hs & ->)]; apply send_cases in Hs as (Hdb2 & Hon2 & Hs).
  2: { split; [by eapply onward_trans|]. split; [congruence|]. left. congruence. }
  destruct Hs as (effects & Htr2 & Hex).
  apply bind_cases in H' as [(now & w3 & [= <- Hw3] & H')|(e & Hc & _)]; [|done].
  apply bind_cases in H' as [(id & w4 & [= <- Hw4] & H')|(e & Hc & _)]; [|done].
  assert (Hdb4 : w_db w4 = w_db w) by (subst w3 w4; simpl; congruence).
  pose proof (mute_stmt _ _ _ _ H') as [Htr5 Hon5]. apply stmt_cases in H'.
  assert (Htr : w_trace w' = w_trace w ++ effects) by (rewrite Htr5; subst w3 w4; simpl; congruence).
  assert (Hon : onward w w').
  { apply (onward_trans _ w2); [by eapply onward_trans|]. subst w3 w4. unfold onward in *. simpl in *. destruct Hon5 as (-> & ? & ?).
    split_and!; [done|lia..]. }
  assert (Htold : ∀ x, (∃ id now, x = mkBudgetAlertDelivery id a.(BudgetAlert_OrgID) a.(BudgetAlert_ID) a.(BudgetAlert_BudgetID) t
    st.(st_Budget).(Budget_Period) st.(st_WindowStart) st.(st_WindowEnd) st.(st_UsedMicroUSD) st.(st_Budget).(Budget_LimitMicroUsd)
    a.(BudgetAlert_WebhookUrl) status http (nullableText message) now) → delivery_of a st t x ∧ told s w a x effects).
  { intros x (i & n & ->). split; [by eexists _, _, _, _, _|]. exists (w_tick w), (w_fresh w1). split; [done|]. split; [lia|exact Hex]. }
  split; [done|]. destruct r as [x|e].
  2: { destruct H' as [H' _]. split; [congruence|]. right.
       destruct (Htold _ (ex_intro _ Nil (ex_intro _ 0 eq_refl))) as [Hd Hw]. by exists (mkBudgetAlertDelivery Nil a.(BudgetAlert_OrgID)
         a.(BudgetAlert_ID) a.(BudgetAlert_BudgetID) t st.(st_Budget).(Budget_Period) st.(st_WindowStart) st.(st_WindowEnd)
         st.(st_UsedMicroUSD) st.(st_Budget).(Budget_LimitMicroUsd) a.(BudgetAlert_WebhookUrl) status http (nullableText message) 0), effects. }
  apply result_bind_ok in H' as (_ & _ & H'). apply result_bind_ok in H' as ([] & Hu & [= <- Hdb5]).
  rewrite Hdb4 in *. split; [done|]. edestruct Htold as [Hd Hw]; [by eexists _, _|].
  split; [|split; [exact Hd|by exists effects]]. intros y Hy He.
  apply pg_unique_ok in Hu. rewrite List.Forall_forall in Hu. specialize (Hu y (proj1 (list_elem_of_In _ _) Hy)).
  unfold delivery_clash in Hu. apply orb_false_iff in Hu as [_ Hu]. unfold delivery_key in He. simpl in *.
  injection He as E1 E2 E3 E4. rewrite E4, Z.eqb_refl, andb_true_r in Hu.
  rewrite (proj2 (of_window_true _ _ _ _)) in Hu; [done|by split_and!].
Qed.

Lemma statusForBudget_ok b w st w' :
  statusForBudget b w = (Ok st, w') →
  w_db w' = w_db w ∧ w_clock w' = w_clock w ∧ st.(st_Budget) = b ∧
  window_at (w_now w) b.(Budget_Period) = Ok (st.(st_WindowStart), st.(st_WindowEnd)) ∧
  st.(st_UsedMicroUSD) = used_amount b.(Budget_OrgID) st.(st_WindowStart) st.(st_WindowEnd) (w_db w).
Proof.
  unfold statusForBudget, statusForBudgetWithCache, usageForPeriod. intros H'. simpl in H'.
  apply bind_ok in H' as ([st' c] & w1 & Hq1 & [<- <-]%ret_ok).
  apply bind_ok in Hq1 as ([u c'] & w2 & Hq2 & [[= <- <-] <-]%ret_ok).
  apply bind_ok in Hq2 as ([s e] & w3 & Hq3 & Hq2). apply bind_ok in Hq3 as (now & w4 & Hc & [Hw <-]%lift_ok).
  apply clock_reading in Hc as (-> & Hck & Hdb). apply bind_ok in Hq2 as (used & w5 & Hq & [[= <- <-] <-]%ret_ok).
  pose proof (stmt_clock _ _ _ _ Hq) as Hck5. apply query_ok in Hq as [Hu Hdb5].
  apply pg_bigint_ok in Hu as [-> _]. simpl. rewrite Hdb5, Hck5, Hdb. split_and!; done.
Qed.

Lemma preserves_db_statusForBudget b w e w' :
  statusForBudget b w = (Err e, w') → w_db w' = w_db w ∧ w_clock w' = w_clock w.
Proof.
  unfold statusForBudget, statusForBudgetWithCache, usageForPeriod. intros H'. simpl in H'.
  apply bind_cases in H' as [(x & w1 & _ & Hq1)|(e1 & Hq1 & _)]; [by destruct x|].
  apply bind_cases in Hq1 as [(x & w2 & _ & Hq2)|(e2 & Hq2 & _)]; [by destruct x|].
  apply bind_cases in Hq2 as [([s1 s2] & w3 & Hq3 & Hq2)|(e3 & Hq3 & _)].
  - apply bind_ok in Hq3 as (now & w4 & Hc & [_ <-]%lift_ok). apply clock_reading in Hc as (_ & Hck & Hdb).
    apply bind_cases in Hq2 as [(x & w5 & _ & Hq2)|(e4 & Hq2 & _)]; [done|].
    destruct (quiet_ok _ _ _ _ (quiet_query _) Hq2) as (-> & _ & ->). done.
  - apply bind_cases in Hq3 as [(now & w4 & Hc & Hq3)|(e4 & Hq3 & _)]; [|done].
    apply clock_reading in Hc as (_ & Hck & Hdb). by injection Hq3 as _ <-.
Qed.
Section run.
Variables (s : AlertService) (orgID : uuid) (w0 : world).
Notation d0 := (w_db w0).

(** What a run has done so far: recorded the deliveries [new] and nothing else,
    each of them due and told, none of them twice; and sent the requests of
    those deliveries, and then [extra]. *)
Definition sent (new : list BudgetAlertDelivery) (extra : list effect) (w : world) : Prop :=
  w_db w = with_deliveries new d0 ∧ onward w0 w ∧
  (∃ sends, w_trace w = w_trace w0 ++ concat sends ++ extra ∧ Forall2 (due_and_told s orgID w0) new sends) ∧
  (recorded_once d0 → recorded_once (with_deliveries new d0)).

(** A run that was stopped: at most one delivery that was due and told is not
    recorded. *)
Definition stopped (w : world) : Prop :=
  ∃ new extra, sent new extra w ∧ (extra = [] ∨ ∃ x, due_and_told s orgID w0 x extra).

Definition has_delivery (d : DB) (a : BudgetAlert) (start t : Z) : Prop :=
  ∃ x, x ∈ d.(budget_alert_deliveries) ∧ delivery_key x = (a.(BudgetAlert_OrgID), a.(BudgetAlert_BudgetID), start, t).

Lemma has_delivery_mono new new' a start t :
  new `prefix_of` new' → has_delivery (with_deliveries new d0) a start t → has_delivery (with_deliveries new' d0) a start t.
Proof.
  intros [more ->] (x & Hx & Hk). exists x. split; [|done].
  simpl in *. rewrite !elem_of_app in *. tauto.
Qed.

Lemma sent_same new extra w w' : sent new extra w → w_db w' = w_db w → w_trace w' = w_trace w → onward w w' → sent new extra w'.
Proof. unfold sent. intros (? & ? & ? & ?) -> -> ?. split_and!; try done. by eapply onward_trans. Qed.

Lemma sent_stopped new w : sent new [] w → stopped w.
Proof. intros Hs. exists new, []. split; [done|by left]. Qed.

Lemma told_since w a x effects : onward w0 w → told s w a x effects → told s w0 a x effects.
Proof.
  intros (Hc & Ht & Hf) (n & k & Hn & Hk & Hex). rewrite Hc in Hex. exists n, k. split_and!; [lia..|done].
Qed.

(** What the loop over the thresholds knows of the alert it works for. *)
Definition in_window (a : BudgetAlert) (b : Budget) (n : nat) (st : Status) : Prop :=
  a ∈ active_alerts orgID d0 ∧ watches d0 a b ∧ (w_tick w0 <= n)%nat ∧ st.(st_Budget) = b ∧
  window_at (w_clock w0 n) b.(Budget_Period) = Ok (st.(st_WindowStart), st.(st_WindowEnd)) ∧
  st.(st_UsedMicroUSD) = used_amount b.(Budget_OrgID) st.(st_WindowStart) st.(st_WindowEnd) d0.

Lemma delivery_due a b n st t x : in_window a b n st → t ∈ alertThresholds →
  thresholdReached st.(st_UsedMicroUSD) b.(Budget_LimitMicroUsd) t = true → delivery_of a st t x → due w0 orgID a x.
Proof.
  intros (Ha & Hw & Hn & Hb & Hwin & Hused) Ht Hre (id & status & http & message & now & ->). exists b, n. rewrite Hb. simpl.
  split_and!; try done. intros Hm. by apply thresholdReached_percent.
Qed.

Lemma deliver_sent a b n st t new w r w' :
  in_window a b n st → t ∈ alertThresholds → thresholdReached st.(st_UsedMicroUSD) b.(Budget_LimitMicroUsd) t = true →
  sent new [] w → deliver s a st t w = (r, w') →
  match r with
  | Ok x => sent (new ++ [x]) [] w' ∧ delivery_key x = (a.(BudgetAlert_OrgID), a.(BudgetAlert_BudgetID), st.(st_WindowStart), t)
  | Err _ => stopped w'
  end.
Proof.
  intros Hin Ht Hre (Hdb & Hon & (sends & Htr & Hall) & Honce) [Hon' H']%deliver_cases.
  rewrite app_nil_r in Htr. pose proof (onward_trans _ _ _ Hon Hon') as Hon2. destruct r as [x|e].
  2: { destruct H' as [Hdb' [Htr'|(x & effects & Hx & Htr' & Htold)]]; [exists new, []|exists new, effects].
       - split; [|by left]. split; [congruence|]. split; [done|]. split; [|done]. exists sends. by rewrite app_nil_r, Htr', Htr.
       - split; [|right; exists x, a; split; [by eapply delivery_due|by apply (told_since w)]].
         split; [congruence|]. split; [done|]. split; [|done]. exists sends. split; [|done]. by rewrite Htr', Htr, <- app_assoc. }
  destruct H' as (Hdb' & Hnew & Hx & effects & Htr' & Htold). pose proof (delivery_due _ _ _ _ _ _ Hin Ht Hre Hx) as Hdue.
  split; [|by destruct Hx as (? & ? & ? & ? & ? & ->)].
  split; [by rewrite Hdb', Hdb, with_deliveries_snoc|]. split; [done|]. split.
  - exists (sends ++ [effects]). split; [by rewrite Htr', Htr, concat_app, app_nil_r; simpl; rewrite app_nil_r, <- app_assoc|].
    apply Forall2_app; [done|]. constructor; [|constructor]. exists a. split; [done|by apply (told_since w)].
  - intros Hd. unfold recorded_once in *. rewrite <- with_deliveries_snoc. simpl.
    rewrite map_app. apply list.NoDup_app. split; [by apply Honce|]. split; [|apply NoDup_singleton].
    intros k Hk ->%list_elem_of_singleton. apply list_elem_of_fmap in Hk as (y & Hk & Hy). apply (Hnew y); [by rewrite Hdb|done].
Qed.

Lemma thresholds_sent a b n st new w r w' :
  in_window a b n st → sent new [] w →
  forM alertThresholds new
    (deliverThreshold s a st (map BudgetAlertDelivery_Threshold
       (window_deliveries a.(BudgetAlert_OrgID) a.(BudgetAlert_BudgetID) st.(st_WindowStart) (w_db w)))) w = (r, w') →
  match r with
  | Ok new' => sent new' [] w' ∧ new `prefix_of` new' ∧
      ∀ t, t ∈ alertThresholds → thresholdReached st.(st_UsedMicroUSD) b.(Budget_LimitMicroUsd) t = true →
        has_delivery (w_db w') a st.(st_WindowStart) t
  | Err _ => stopped w'
  end.
Proof.
  intros Hin Hs. set (delivered := map _ _).
  assert (Hb : st.(st_Budget) = b) by (destruct Hin as (_ & _ & _ & Hb & _); exact Hb).
  assert (Hdel : ∀ t, existsb (Z.eqb t) delivered = true → has_delivery (with_deliveries new d0) a st.(st_WindowStart) t).
  { intros t Ht. apply existsb_exists in Ht as (t' & Hx & <-%Z.eqb_eq). apply in_map_iff in Hx as (x & <- & Hx).
    unfold window_deliveries in Hx. rewrite <- list_elem_of_In, elem_of_sort_by, list_elem_of_In, filter_In in Hx.
    destruct Hx as [Hx (E1 & E2 & E3)%of_window_true]. exists x. destruct Hs as (<- & _).
    split; [by apply list_elem_of_In|]. unfold delivery_key. congruence. }
  apply (forM_rule (λ seen acc w, sent acc [] w ∧ new `prefix_of` acc ∧
    ∀ t, t ∈ seen → thresholdReached st.(st_UsedMicroUSD) b.(Budget_LimitMicroUsd) t = true →
      has_delivery (w_db w) a st.(st_WindowStart) t) stopped);
    [|split; [done|]; split; [done|]; intros t Ht; by apply not_elem_of_nil in Ht].
  intros seen acc t w1 r1 w1' Ht (Hs1 & Hpre & Hseen) H'. assert (Hdb1 : w_db w1 = with_deliveries acc d0) by apply Hs1.
  unfold deliverThreshold in H'. rewrite Hb in H'. destruct (existsb _ _) eqn:Ed; [|destruct (thresholdReached _ _ t) eqn:En]; cbn [negb] in H'.
  - injection H' as <- <-. split; [done|]. split; [done|]. intros t' [Ht'| ->%list_elem_of_singleton]%elem_of_app Hr; [by apply Hseen|].
    rewrite Hdb1. eapply has_delivery_mono; [done|by apply Hdel].
  - apply bind_cases in H' as [(x & w2 & H1' & [= <- <-])|(e & H1' & ->)];
      apply (deliver_sent a b n st t acc w1 _ _ Hin Ht En Hs1) in H1'; [|done].
    destruct H1' as [Hs2 Hk]. split; [done|]. split; [by apply prefix_app_r|].
    destruct Hs2 as (Hdb2 & _). rewrite Hdb2. intros t' [Ht'| ->%list_elem_of_singleton]%elem_of_app Hr.
    + apply (has_delivery_mono acc); [by apply prefix_app_r|]. rewrite <- Hdb1. by apply Hseen.
    + exists x. split; [|done]. simpl. rewrite !elem_of_app, list_elem_of_singleton. auto.
  - injection H' as <- <-. split; [done|]. split; [done|].
    intros t' [Ht'| ->%list_elem_of_singleton]%elem_of_app Hr; [by apply Hseen|congruence].
Qed.

(** One alert: nothing for a budget that is not active, and otherwise a
    delivery for every threshold that is reached and not yet recorded. *)
Lemma checkAlert_sent a new w r w' :
  a ∈ active_alerts orgID d0 → sent new [] w → checkAlert s new a w = (r, w') →
  match r with
  | Ok new' => sent new' [] w' ∧ new `prefix_of` new' ∧ all_recorded w0 (w_db w') a
  | Err _ => stopped w'
  end.
Proof.
  intros Ha Hs H'. assert (Hdb : w_db w = with_deliveries new d0) by apply Hs. unfold checkAlert in H'.
  apply bind_cases in H' as [(b & w1 & Hb & H')|(e & Hb & ->)]; pose proof (mute_stmt _ _ _ _ Hb) as [Htr1 Hon1];
    destruct (quiet_ok _ _ _ _ (quiet_query _) Hb) as (Hdb1 & _ & _);
    pose proof (sent_same _ _ _ _ Hs Hdb1 Htr1 Hon1) as Hs1; [|by eapply sent_stopped].
  apply query_ok in Hb as [Hb _]. rewrite Hdb in Hb.
  destruct (_ || _) eqn:Eg.
  { injection H' as <- <-. split; [done|]. split; [done|]. intros b' (Hb' & Hst & Hlim).
    change (budgets (with_deliveries new d0)) with (budgets d0) in Hb. rewrite Hb in Hb'. injection Hb' as <-.
    apply orb_true_iff in Eg as [Eg|Eg]; [|lia]. by rewrite Hst, String.eqb_refl in Eg. }
  apply orb_false_iff in Eg as [Est%negb_false_iff%String.eqb_eq Elim%Z.ltb_ge].
  apply bind_cases in H' as [(st & w2 & Hst & H')|(e & Hst & ->)]; pose proof (mute_statusForBudget _ _ _ _ Hst) as [Htr2 Hon2].
  2: { apply preserves_db_statusForBudget in Hst as [Hd _]. eapply sent_stopped. by apply (sent_same _ _ w1). }
  apply statusForBudget_ok in Hst as (Hdb2 & _ & Hb2 & Hwin & Hused).
  pose proof (sent_same _ _ _ _ Hs1 Hdb2 Htr2 Hon2) as Hs2.
  assert (Hin : in_window a b (w_tick w1) st).
  { destruct Hs1 as (_ & (Hc & Ht & _) & _). unfold w_now in Hwin. rewrite Hc in Hwin. split_and!; try done. by rewrite Hused, Hdb1, Hdb. }
  apply bind_cases in H' as [(del & w3 & Hd & H')|(e & Hd & ->)]; pose proof (mute_stmt _ _ _ _ Hd) as [Htr3 Hon3];
    destruct (quiet_ok _ _ _ _ (quiet_query _) Hd) as (Hdb3 & _ & _);
    pose proof (sent_same _ _ _ _ Hs2 Hdb3 Htr3 Hon3) as Hs3; [|by eapply sent_stopped].
  apply query_ok in Hd as [[= <-] _]. rewrite <- Hdb3 in H'.
  apply (thresholds_sent a b (w_tick w1) st new w3) in H'; [|done..]. destruct r as [new'|e]; [|done].
  destruct H' as (Hs' & Hpre & Hall). split; [done|]. split; [done|].
  intros b' Hb'. destruct Hin as (_ & [Hw _] & Hn & _ & Hwin' & Hu'). destruct Hb' as [Hb' _]. rewrite Hw in Hb'. injection Hb' as <-.
  exists (w_tick w1), st.(st_WindowStart), st.(st_WindowEnd). split; [done|]. split; [done|]. intros t used Ht Hm Hr.
  apply Hall; [done|]. rewrite Hu'. by apply thresholdReached_percent.
Qed.
End run.

(** C30: a run of the budget alerts adds to the deliveries exactly those it
    answers with. Each is for an active alert and for 80, 90 or 100 percent of a
    budget's limit that its recorded use has reached in the window of the moment
    (for amounts up to 9.2e16 micro-dollars, whose hundredfold fits 64 bits;
    beyond, the code's products wrap), and for each in turn the alert's webhook is
    posted once, with those amounts and, for an alert with a secret, their
    signature, and the delivery recorded as the receiver answered: a success for
    a 2xx status and failed for anything else. Nothing is posted, and the
    delivery recorded as failed, where the URL is not allowed, the request cannot
    be built or the secret does not open. In a table that records every
    threshold of a window at most once it is still recorded at most once, so a
    failed delivery is not tried again. A run that succeeds sends nothing else,
    and leaves no reached threshold of an active alert unrecorded; one that stops
    with an error has told one more due delivery at most, and not recorded it. *)
Theorem CheckAndDeliver_exact (s : AlertService) (orgID : uuid) (w : world) r w' :
  CheckAndDeliver s orgID w = (r, w') →
  ∃ new sends extra, w_db w' = with_deliveries new (w_db w) ∧
    w_trace w' = w_trace w ++ concat sends ++ extra ∧ Forall2 (due_and_told s orgID w) new sends ∧
    (recorded_once (w_db w) → recorded_once (w_db w')) ∧
    match r with
    | Ok deliveries => deliveries = new ∧ extra = [] ∧
        ∀ a, a ∈ active_alerts orgID (w_db w) → all_recorded w (w_db w') a
    | Err _ => extra = [] ∨ ∃ x, due_and_told s orgID w x extra
    end.
Proof.
  unfold CheckAndDeliver. intros H'. assert (Hrun : match r with
    | Ok new => sent s orgID w new [] w' ∧ ∀ a, a ∈ active_alerts orgID (w_db w) → all_recorded w (w_db w') a
    | Err _ => stopped s orgID w w' end).
  { assert (Hnil : sent s orgID w [] [] w).
    { split; [by rewrite with_deliveries_nil|]. split; [apply onward_refl|]. split; [exists []; by rewrite app_nil_r|].
      by rewrite with_deliveries_nil. }
    apply bind_cases in H' as [(alerts & w1 & Hq & H')|(e & Hq & ->)]; pose proof (mute_stmt _ _ _ _ Hq) as [Htr1 Hon1];
      destruct (quiet_ok _ _ _ _ (quiet_query _) Hq) as (Hdb1 & _ & _);
      pose proof (sent_same _ _ _ _ _ _ _ Hnil Hdb1 Htr1 Hon1) as Hs1; [|by eapply sent_stopped].
    apply query_ok in Hq as [[= <-] _]. revert H'.
    apply (forM_rule (λ seen acc w1, sent s orgID w acc [] w1 ∧
      ∀ a, a ∈ seen → all_recorded w (w_db w1) a) (stopped s orgID w));
      [|split; [done|]; intros a Ha; by apply not_elem_of_nil in Ha].
    intros seen acc a w2 r2 w2' Ha [Hs2 Hseen] H'. assert (Hdb2 : w_db w2 = with_deliveries acc (w_db w)) by apply Hs2.
    eapply checkAlert_sent in H'; [|done..]. destruct r2 as [acc'|]; [|done]. destruct H' as (Hs' & Hpre & Hann).
    split; [done|]. intros a' [Ha'| ->%list_elem_of_singleton]%elem_of_app; [|done].
    intros b Hb. destruct (Hseen a' Ha' b Hb) as (n & st & sp & Hn & Hwin & Hall). exists n, st, sp. split; [done|]. split; [done|].
    intros t used Ht Hm Hr. destruct Hs' as (-> & _). apply (has_delivery_mono w acc); [done|]. rewrite <- Hdb2. by apply Hall. }
  destruct r as [new|e].
  - destruct Hrun as [(Hdb & _ & (sends & Htr & Hall) & Honce) Hann]. exists new, sends, []. rewrite Hdb. split_and!; try done. by rewrite <- Hdb.
  - destruct Hrun as (new & extra & (Hdb & _ & (sends & Htr & Hall) & Honce) & Hshort). exists new, sends, extra. rewrite Hdb. by split_and!.
Qed.
End service.

(** For uses and limits up to a hundredth of the 64-bit range (9.2e16
    micro-dollars) a threshold counts as reached exactly when the use is at
    least that percentage of the limit; at a limit of 2^60 micro-dollars the
    64-bit product wraps, and 80 percent count as reached with nothing used. *)
Theorem thresholdReached_exact :
  (∀ used limit threshold, 0 <= used <= MaxInt64 / 100 → 0 <= limit <= MaxInt64 / 100 → 0 <= threshold <= 100 →
     thresholdReached used limit threshold = (limit * threshold <=? used * 100)) ∧
  thresholdReached 0 (2 ^ 60) 80 = true.
Proof.
  split; [|done]. unfold MaxInt64. intros used limit threshold Hu Hl Ht.
  assert (limit * threshold <= limit * 100) by (apply Z.mul_le_mono_nonneg_l; lia).
  assert (0 <= limit * threshold) by (apply Z.mul_nonneg_nonneg; lia).
  unfold thresholdReached. change (9223372036854775807 / 100) with 92233720368547758 in *.
  rewrite !wrap64_id; [done|unfold_ranges; lia..].
Qed.

(** ** An example: a daily budget of 250 of which 200 are used *)

Definition ex_webhooks : Webhooks := {|
  marshalPayload p := "used " +:+ formatInt p.(wp_UsedMicroUSD)
|}.

#[local] Existing Instances ex_transport ex_runtime ex_aead ex_net ex_webhooks.

Definition ex_alert : BudgetAlert :=
  mkBudgetAlert 81%N 1%N 20%N "https://hooks.example" None "active" 0 0.

Definition ex_alert_world : world := set_db
  (set_budget_alerts (λ _, [ex_alert])
  (set_budgets (λ _, [mkBudget 20%N 1%N "daily cap" "org" None "daily" 250 "block" "active" 0 0]) ex_db)) ex_world.

Definition ex_service : AlertService := mkAlertService false None.

Notation ex_checked := (CheckAndDeliver ex_service 1%N ex_alert_world).
Notation ex_checked_again := (CheckAndDeliver ex_service 1%N (snd ex_checked)).

Lemma ex_checked_facts :
  is_ok ex_checked.1 = true ∧
  map (λ x, (x.(BudgetAlertDelivery_UsedMicroUsd), x.(BudgetAlertDelivery_LimitMicroUsd), x.(BudgetAlertDelivery_Threshold)))
    (w_db ex_checked.2).(budget_alert_deliveries) = [(200, 250, 80)] ∧
  w_trace ex_checked.2 = [EffHTTP "POST" "https://hooks.example" [("Content-Type", "application/json")] "used 200"].
Proof. vm_compute. done. Qed.

(** A second run finds the 80 percent recorded and sends nothing more. *)
Example ex_checked_again_silent : ex_checked_again.1 = Ok [].
Proof. vm_compute. done. Qed.

(** The delivery of the example is due, and its webhook was posted and taken. *)
Lemma CheckAndDeliver_exact_witness :
  ∃ x headers body, Forall2 (due_and_told ex_service 1%N ex_alert_world) [x] [[EffHTTP "POST" "https://hooks.example" headers body]] ∧
    x.(BudgetAlertDelivery_Threshold) = 80 ∧ percent_reached x.(BudgetAlertDelivery_UsedMicroUsd) x.(BudgetAlertDelivery_LimitMicroUsd) 80.
Proof.
  destruct ex_checked_facts as (Hok & Hrows & Htrace). destruct ex_checked as [r w'] eqn:E. simpl in *.
  destruct (CheckAndDeliver_exact ex_service 1%N ex_alert_world r w' E) as (new & sends & extra & Hdb & Htr & Hall & _ & Hr).
  destruct r as [deliveries|e]; [|discriminate Hok]. destruct Hr as (_ & -> & _).
  rewrite Hdb in Hrows. rewrite Htr in Htrace. destruct new as [|x [|y new]]; try discriminate Hrows.
  inversion Hall as [|x' effects l sends' Hx Hnil]; subst. inversion Hnil; subst. simpl in Htrace. rewrite !app_nil_r in Htrace.
  injection Hrows as Hu Hl Ht. exists x, [("Content-Type", "application/json")], "used 200".
  rewrite <- Htrace. split; [exact Hall|]. split; [exact Ht|]. rewrite Hu, Hl. vm_compute. discriminate.
Defined.
End BudgetAlerts.
