(* ===== verification/Float64.v ===== *)
(** * IEEE 754 double precision

    [float64] is the Standard Library's [spec_float] at 53 bits of precision,
    with its arithmetic: every operation rounds to nearest even, as Go's does
    where it does not fuse a product and a sum. *)

From Stdlib Require Import Floats.SpecFloat.
From S2P Require Import Prelude.

Notation float64 := spec_float.

Definition prec : Z := 53.
Definition emax : Z := 1024.

Definition f64_zero : float64 := S754_zero false.
Definition f64_of_Z (n : Z) : float64 := binary_normalize prec emax n 0 false.
Definition f64_one : float64 := f64_of_Z 1.
Definition f64_add : float64 → float64 → float64 := SFadd prec emax.
Definition f64_mul : float64 → float64 → float64 := SFmul prec emax.
Definition f64_div : float64 → float64 → float64 := SFdiv prec emax.
Definition f64_sqrt : float64 → float64 := SFsqrt prec emax.
Definition f64_lt : float64 → float64 → bool := SFltb.
Definition f64_le : float64 → float64 → bool := SFleb.
Definition f64_eq : float64 → float64 → bool := SFeqb.

(** ** The order

    Away from NaN the comparison is that of three integers, lexicographically. *)

Definition key (x : float64) : option (Z * Z * Z) :=
  match x with
  | S754_nan => None
  | S754_zero _ => Some (0, 0, 0)
  | S754_infinity s => Some (if s then -2 else 2, 0, 0)
  | S754_finite s m e => Some (if s then (-1, -e, - Zpos m) else (1, e, Zpos m))
  end.

Definition lex_lt (a b : Z * Z * Z) : Prop :=
  a.1.1 < b.1.1 ∨ (a.1.1 = b.1.1 ∧ (a.1.2 < b.1.2 ∨ (a.1.2 = b.1.2 ∧ a.2 < b.2))).

Lemma f64_lt_spec x y : f64_lt x y = true ↔ ∃ a b, key x = Some a ∧ key y = Some b ∧ lex_lt a b.
Proof.
  unfold f64_lt, SFltb, lex_lt. split.
  - intros H. destruct x as [s|s| |s m e], y as [s'|s'| |s' m' e']; try destruct s; try destruct s'; simpl in *; try done;
      eexists _, _; (split; [done|]); (split; [done|]); simpl; try lia;
      change (Pos.compare_cont Eq m m') with (m ?= m')%positive in H;
      destruct (Z.compare_spec e e'); try done; try lia; destruct (Pos.compare_spec m m'); try done; lia.
  - intros (a & b & Ha & Hb & H).
    destruct x as [s|s| |s m e], y as [s'|s'| |s' m' e']; try destruct s; try destruct s'; simpl in *; simplify_eq; simpl in *;
      try done; try lia; change (Pos.compare_cont Eq m m') with (m ?= m')%positive;
      destruct (Z.compare_spec e e'); try done; try lia; destruct (Pos.compare_spec m m'); try done; lia.
Qed.

(** A number above [b] is above whatever [b] is not below. *)
Lemma f64_lt_mono b s x : f64_lt b s = true → f64_lt b x = false → f64_lt s x = false.
Proof.
  intros (kb & ks & Hb & Hs & Hlt)%f64_lt_spec Hx. destruct (f64_lt s x) eqn:E; [|done].
  apply f64_lt_spec in E as (ks' & kx & Hs' & Hkx & Hlt'). rewrite <- Hx. symmetry. apply f64_lt_spec.
  exists kb, kx. split; [done|]. split; [done|]. unfold lex_lt in *. simplify_eq. lia.
Qed.

Lemma f64_lt_irrefl x : f64_lt x x = false.
Proof.
  destruct (f64_lt x x) eqn:E; [|done]. apply f64_lt_spec in E as (a & b & Ha & Hb & H). simplify_eq. unfold lex_lt in H. lia.
Qed.

Lemma f64_lt_trans x y z : f64_lt x y = true → f64_lt y z = true → f64_lt x z = true.
Proof.
  intros (a & b & Ha & Hb & Hab)%f64_lt_spec (b' & c & Hb' & Hc & Hbc)%f64_lt_spec. apply f64_lt_spec.
  exists a, c. split; [done|]. split; [done|]. unfold lex_lt in *. simplify_eq. lia.
Qed.
