(* ===== verification/GatewayBase.v ===== *)
(** * The gateway's data and pure functions

    [internal/gateway/retry_policy.go], the helpers of [chat_service.go] and
    [chat_stream_service.go], and the errors of [internal/provider/contract]:
    token and cost estimates, the classification of provider errors, and the
    metadata written to the request log. *)

From Stdlib Require Import QArith Ascii.
From stdpp Require Import pretty.
From S2P Require Import Prelude GoTime GoStrings Costing Store ExampleWorld Float64.
From S2P Require Import BudgetService QuotaService AnomalyService Routing ContentPolicy.
#[local] Open Scope Z_scope.

Module GatewayBase.

Definition CodeInvalidRequest : string := "invalid_request".
Definition CodeStreamNotSupported : string := "stream_not_supported".
Definition CodeRouteNotFound : string := "route_not_found".
Definition CodeBudgetExceeded : string := "budget_exceeded".
Definition CodeAPIKeyQuotaExceeded : string := "api_key_quota_exceeded".
Definition CodeContentPolicyBlocked : string := "content_policy_blocked".
Definition CodeCostAnomalyBlocked : string := "cost_anomaly_blocked".
Definition CodeProviderError : string := "provider_error".
Definition CodeProviderUnavailable : string := "provider_unavailable".
Definition CodeProviderTimeout : string := "provider_timeout".
Definition CodeUsageMissing : string := "usage_missing".

(** ** Data *)

Record ChatMessage := mkChatMessage { msg_Role : string; msg_Content : string }.

Record ChatCompletionRequest := mkChatCompletionRequest {
  req_Model : string;
  req_Messages : list ChatMessage;
  req_Temperature : option float64;
  req_MaxTokens : option Z;
  req_Stream : bool
}.

Definition set_model (m : string) (r : ChatCompletionRequest) : ChatCompletionRequest :=
  mkChatCompletionRequest m r.(req_Messages) r.(req_Temperature) r.(req_MaxTokens) r.(req_Stream).
Definition set_messages (l : list ChatMessage) (r : ChatCompletionRequest) : ChatCompletionRequest :=
  mkChatCompletionRequest r.(req_Model) l r.(req_Temperature) r.(req_MaxTokens) r.(req_Stream).

Record ChatInput := mkChatInput {
  in_RequestID : uuid;
  in_Principal : APIKeyPrincipal;
  in_Method : string;
  in_Path : string;
  in_RawBody : string
}.

Record ProviderConfig := mkProviderConfig {
  pc_ID : uuid;
  pc_Name : string;
  pc_Type : string;
  pc_BaseURL : string;
  pc_APIKey : string;
  pc_TimeoutMS : Z
}.

Record ModelConfig := mkModelConfig { mc_ID : uuid; mc_ProviderModelName : string; mc_DisplayName : string }.

Record ChatRequest := mkChatRequest {
  cq_RequestID : uuid;
  cq_OrgID : uuid;
  cq_Provider : ProviderConfig;
  cq_Model : ModelConfig;
  cq_Messages : list ChatMessage;
  cq_Temperature : option float64;
  cq_MaxTokens : option Z;
  cq_Stream : bool
}.

Record Usage := mkUsage { us_PromptTokens : Z; us_CompletionTokens : Z; us_TotalTokens : Z; us_Raw : option json }.

Record ChatResponse := mkChatResponse {
  rp_Content : string;
  rp_Role : string;
  rp_FinishReason : string;
  rp_Usage : Usage;
  rp_LatencyMS : Z
}.

Record ProviderAttempt := mkProviderAttempt {
  pa_ProviderID : uuid;
  pa_ModelID : uuid;
  pa_Priority : Z;
  pa_Result : string;
  pa_ErrorCode : string;
  pa_Retryable : bool;
  pa_Attempts : Z
}.

Record contentPolicyDecision := mkcontentPolicyDecision {
  cd_Action : string;
  cd_Hit : bool;
  cd_Blocked : bool;
  cd_Types : list string
}.

(** The response: who answered, the choice, the usage and the cost. *)
Record ChatCompletionResponse := mkChatCompletionResponse {
  out_RequestID : uuid;
  out_Created : Z;
  out_Model : string;
  out_ProviderID : uuid;
  out_ProviderName : string;
  out_ProviderModel : string;
  out_Role : string;
  out_Content : string;
  out_FinishReason : string;
  out_PromptTokens : Z;
  out_CompletionTokens : Z;
  out_TotalTokens : Z;
  out_Currency : string;
  out_TotalCostMicro : Z
}.

Record PromptKey := mkPromptKey { pk_RedisKey : string; pk_CacheKeyHash : string; pk_MessagesHash : string }.
Definition noPromptKey : PromptKey := mkPromptKey "" "" "".

Record CachedChatResponse := mkCachedChatResponse {
  ca_ProviderID : uuid;
  ca_ModelID : uuid;
  ca_ProviderName : string;
  ca_ProviderModel : string;
  ca_Role : string;
  ca_Content : string;
  ca_FinishReason : string;
  ca_CachedAt : Z
}.

(** ** Errors of providers: [contract.ErrorCode], [Retryable], [errors.Is(err, context.Canceled)] *)

Definition ErrorCode (e : err) : string := match e with EProvider code _ _ _ _ => code | _ => "" end.
Definition Retryable (e : err) : bool := match e with EProvider _ _ _ r _ => r | _ => false end.
Fixpoint isCanceled (e : err) : bool :=
  match e with
  | ECanceled => true
  | EProvider _ _ _ _ (Some cause) => isCanceled cause
  | _ => false
  end.

Definition timeoutOrUnavailable (e : err) : bool :=
  String.eqb (ErrorCode e) CodeProviderTimeout || String.eqb (ErrorCode e) CodeProviderUnavailable.

Definition fallbackRetryable (e : option err) : bool :=
  match e with
  | None => false
  | Some e => if Retryable e then true else timeoutOrUnavailable e
  end.

Definition providerErrorStatus (e : err) : Z * string :=
  if String.eqb (ErrorCode e) CodeProviderTimeout then (504, CodeProviderTimeout)
  else if String.eqb (ErrorCode e) CodeProviderUnavailable then (503, CodeProviderUnavailable)
  else if String.eqb (ErrorCode e) CodeUsageMissing then (502, CodeUsageMissing)
  else (502, CodeProviderError).

(** ** Retries *)

Definition defaultMaxRetries : Z := 1.
Definition defaultRetryBackoffMS : Z := 100.
Definition Millisecond : Z := 1000000.

Record RetryPolicy := mkRetryPolicy { MaxRetries : Z; Backoff : Z }.

Definition Normalize (p : RetryPolicy) : RetryPolicy :=
  mkRetryPolicy (if p.(MaxRetries) <? 0 then defaultMaxRetries else p.(MaxRetries))
                (if p.(Backoff) <=? 0 then defaultRetryBackoffMS * Millisecond else p.(Backoff)).

Definition NewRetryPolicy (maxRetries retryBackoffMS : Z) : RetryPolicy :=
  Normalize (mkRetryPolicy maxRetries (retryBackoffMS *₆₄ Millisecond)).

Definition ShouldRetry (e : err) : bool :=
  if isCanceled e then false else if Retryable e then true else timeoutOrUnavailable e.

(** [policy.MaxRetries + 1] attempts, at least one. *)
Definition maxAttempts (p : RetryPolicy) : Z :=
  let n := (Normalize p).(MaxRetries) +₆₄ 1 in if n <? 1 then 1 else n.

Definition shouldTryNextFallbackTarget (fallbackPolicy retryable : bool) (index targetCount : Z) : bool :=
  fallbackPolicy && retryable && (index <? targetCount - 1).

Definition appendProviderAttempt (attempts : list ProviderAttempt) (target : Routing.ResolvedTarget)
    (result errorCode : string) (retryable : bool) (attemptCount : Z) : list ProviderAttempt :=
  attempts ++ [mkProviderAttempt target.(Routing.rt_Provider).(Provider_ID) target.(Routing.rt_Model).(Model_ID)
                 target.(Routing.rt_RouteTarget).(RouteTarget_Priority) result errorCode retryable
                 (if attemptCount <? 1 then 1 else attemptCount)].

Definition hasRetriedTarget (attempts : list ProviderAttempt) : bool := existsb (λ a, 1 <? a.(pa_Attempts)) attempts.

(** ** Text *)

Definition byteIn (lo hi : N) (c : Ascii.ascii) : bool := in_bytes lo hi c.
Definition isCont (c : Ascii.ascii) : bool := in_bytes 128 191 c.

(** [utf8.RuneCountInString]: a byte that does not start a valid encoding counts as one. *)
Fixpoint runeCount (s : string) : Z :=
  match s with
  | EmptyString => 0
  | String a r =>
      1 + match r with
          | String b r2 =>
              if in_bytes 194 223 a && isCont b then runeCount r2
              else if (is_byte 224 a && in_bytes 160 191 b || is_byte 237 a && in_bytes 128 159 b
                       || (in_bytes 225 236 a || in_bytes 238 239 a) && isCont b)
              then match r2 with
                   | String c r3 => if isCont c then runeCount r3 else runeCount r
                   | EmptyString => runeCount r
                   end
              else if (is_byte 240 a && in_bytes 144 191 b || in_bytes 241 243 a && isCont b
                       || is_byte 244 a && in_bytes 128 143 b)
              then match r2 with
                   | String c (String d r4) => if isCont c && isCont d then runeCount r4 else runeCount r
                   | _ => runeCount r
                   end
              else runeCount r
          | EmptyString => 0
          end
  end.

(** [strings.ToLower] as far as ASCII markers can tell: the ASCII letters, the
    Kelvin sign and the dotted capital I are the only characters whose lower
    case is an ASCII letter. *)
Fixpoint toLower (s : string) : string :=
  match s with
  | EmptyString => ""
  | String a r =>
      if in_bytes 65 90 a then String (ascii_of_N (byte_of a + 32)) (toLower r)
      else match r with
           | String b r2 =>
               if is_byte 196 a && is_byte 176 b then String "i" (toLower r2)
               else match r2 with
                    | String c r3 =>
                        if is_byte 226 a && is_byte 132 b && is_byte 170 c then String "k" (toLower r3)
                        else String a (toLower r)
                    | EmptyString => String a (toLower r)
                    end
           | EmptyString => String a (toLower r)
           end
  end.

Definition Contains (s sub : string) : bool :=
  match String.index 0 sub s with Some _ => true | None => false end.

Fixpoint messagesTextFrom (acc : string) (messages : list ChatMessage) : string :=
  match messages with
  | [] => acc
  | m :: rest =>
      let acc := if String.eqb acc "" then acc else (acc ++ String "010" "")%string in
      messagesTextFrom (acc ++ m.(msg_Role) ++ ":" ++ m.(msg_Content))%string rest
  end.

Definition messagesText (messages : list ChatMessage) : string := messagesTextFrom "" messages.

Definition highRiskMessages (messages : list ChatMessage) : bool :=
  let text := toLower (messagesText messages) in
  existsb (Contains text) ["password"; "api key"; "secret"; "credit card"; "ssn"].

(** ** Estimates *)

Definition defaultReservationCompletionTokens : Z := 4096.

Definition estimatePromptTokens (messages : list ChatMessage) : Z :=
  let totalRunes := sumZ (λ m, runeCount m.(msg_Content)) messages in
  let some := match messages with [] => false | _ => true end in
  if (totalRunes =? 0) && some then 1
  else
    let tokens := Z.quot (totalRunes + 3) 4 in
    if (tokens <? 1) && some then 1 else tokens.

Definition estimateMaxTokens (maxTokens : option Z) : Z :=
  match maxTokens with Some n => if n <=? 0 then 0 else n | None => 0 end.

Definition estimateReservationCompletionTokens (maxTokens : option Z) (promptTokens : Z) (model : Model) : Z :=
  let byContext :=
    match model.(Model_ContextWindow) with
    | None => defaultReservationCompletionTokens
    | Some window => let remaining := window -₆₄ promptTokens in if remaining <? 0 then 0 else remaining
    end in
  match maxTokens with Some n => if 0 <? n then n else byContext | None => byContext end.

Fixpoint maxCalculated (request : ChatCompletionRequest) (promptTokens maxCost : Z) (models : list Model) : result Z :=
  match models with
  | [] => Ok maxCost
  | model :: rest =>
      calculation ← Calculate (mkCalculateInput promptTokens
        (estimateReservationCompletionTokens request.(req_MaxTokens) promptTokens model)
        model.(Model_InputPriceMicroUsdPer1kTokens) model.(Model_OutputPriceMicroUsdPer1kTokens));
      maxCalculated request promptTokens
        (if maxCost <? calculation.(TotalCostMicro) then calculation.(TotalCostMicro) else maxCost) rest
  end.

Definition estimateReservationCost (request : ChatCompletionRequest) (models : list Model) : result Z :=
  maxCalculated request (estimatePromptTokens request.(req_Messages)) 0 models.

Definition modelsFromResolvedTargets (targets : list Routing.ResolvedTarget) : list Model :=
  map Routing.rt_Model targets.

(** [Time.Sub] saturates; [Milliseconds] truncates; the columns are [int32]. *)
Definition Sub (t u : Z) : Z := Z.max MinInt64 (Z.min MaxInt64 (t - u)).
Definition latencyMS (t u : Z) : Z := wrap32 (Z.quot (Sub t u) Millisecond).

(** ** JSON metadata

    [json.Marshal] writes a map's keys in increasing order, a struct's in the
    order of its fields; [json.Unmarshal] into [map[string]any] reads numbers
    as [float64] and forgets the order. *)

Fixpoint jset (k : string) (v : json) (body : list (string * json)) : list (string * json) :=
  match body with
  | [] => [(k, v)]
  | (k', v') :: rest =>
      if String.eqb k k' then (k, v) :: rest
      else if String.ltb k k' then (k, v) :: body
      else (k', v') :: jset k v rest
  end.

Definition jmap (fields : list (string * json)) : list (string * json) :=
  foldr (λ kv, jset kv.1 kv.2) [] fields.

(** The multiple of [unit] nearest to [n], ties to even. *)
Definition nearest (unit n : Z) : Z :=
  let q := n / unit in
  let r := n mod unit in
  (if (2 * r <? unit) || ((2 * r =? unit) && Z.even q) then q else q + 1) * unit.

(** A non-negative integer as a [float64], and the shortest decimal that reads back as it. *)
Definition float64Of (n : Z) : Z :=
  let e := Z.log2 n in if e <? 53 then n else nearest (2 ^ (e - 52)) n.
Fixpoint shortestDecimal (p : nat) (f : Z) : Z :=
  match p with
  | O => f
  | S p' => let c := nearest (10 ^ Z.of_nat p) f in if float64Of c =? f then c else shortestDecimal p' f
  end.
Definition refloat (n : Z) : Z := Z.sgn n * shortestDecimal 19 (float64Of (Z.abs n)).

(** [json.Marshal] after [json.Unmarshal]. *)
Fixpoint reload (j : json) : json :=
  match j with
  | JNum n => JNum (refloat n)
  | JArr items => JArr (map reload items)
  | JObj fields => JObj (jmap (map (λ kv, (kv.1, reload kv.2)) fields))
  | _ => j
  end.

Definition unmarshalBody (existing : option json) : list (string * json) :=
  match existing with
  | Some j => match reload j with JObj body => body | _ => [] end
  | None => []
  end.

(** [uuid.UUID.String] and [time.Time.MarshalJSON] (years 0 to 9999, UTC). *)
Definition hexDigit (n : N) : string :=
  String (ascii_of_N (if (n <? 10)%N then 48 + n else 87 + n)) "".
Fixpoint hexN (digits : nat) (n : N) : string :=
  match digits with
  | O => ""
  | S d => (hexN d (n / 16) ++ hexDigit (n mod 16))%string
  end.
Definition uuidString (u : uuid) : string :=
  (hexN 8 (u / 2 ^ 96) ++ "-" ++ hexN 4 (u / 2 ^ 80 mod 2 ^ 16) ++ "-" ++ hexN 4 (u / 2 ^ 64 mod 2 ^ 16) ++ "-"
   ++ hexN 4 (u / 2 ^ 48 mod 2 ^ 16) ++ "-" ++ hexN 12 (u mod 2 ^ 48))%string.

Lemma hexN_length digits n : String.length (hexN digits n) = digits.
Proof.
  revert n. induction digits as [|d IH]; intros n; [done|]. simpl.
  rewrite string_length_app, IH. simpl. lia.
Qed.

Lemma uuidString_length u : String.length (uuidString u) = 36%nat.
Proof. unfold uuidString. by rewrite !string_length_app, !hexN_length. Qed.

Fixpoint decN (digits : nat) (n : Z) : string :=
  match digits with
  | O => ""
  | S d => (decN d (n / 10) ++ String (ascii_of_N (48 + Z.to_N (n mod 10))) "")%string
  end.
Fixpoint dropZeros (digits : nat) (n : Z) : string :=
  match digits with
  | O => ""
  | S d => if n mod 10 =? 0 then dropZeros d (n / 10) else ("." ++ decN digits n)%string
  end.
Definition timeJSON (t : Z) : string :=
  let '(y, m, d) := civil_from_days (day_of t) in
  let s := (t mod Day) / Second in
  (decN 4 y ++ "-" ++ decN 2 m ++ "-" ++ decN 2 d ++ "T" ++ decN 2 (s / 3600) ++ ":" ++ decN 2 (s / 60 mod 60) ++ ":"
   ++ decN 2 (s mod 60) ++ dropZeros 9 (t mod Second) ++ "Z")%string.

Definition jUUID (u : uuid) : json := JStr (uuidString u).
Definition jTime (t : Z) : json := JStr (timeJSON t).

Definition budgetMetadataBody (result : BudgetService.CheckResult) : option json :=
  match result.(BudgetService.cr_Status) with
  | None => None
  | Some st => Some (JObj (jmap
      [("id", jUUID st.(BudgetService.st_Budget).(Budget_ID));
       ("action", JStr result.(BudgetService.cr_Action));
       ("used_micro_usd", JNum st.(BudgetService.st_UsedMicroUSD));
       ("limit_micro_usd", JNum st.(BudgetService.st_Budget).(Budget_LimitMicroUsd));
       ("remaining_micro_usd", JNum st.(BudgetService.st_RemainingMicroUSD));
       ("exceeded", JBool st.(BudgetService.st_Exceeded));
       ("period", JStr st.(BudgetService.st_Budget).(Budget_Period));
       ("window_start", jTime st.(BudgetService.st_WindowStart));
       ("window_end", jTime st.(BudgetService.st_WindowEnd));
       ("pre_check_only", JBool true);
       ("projected_cost_known", JBool false)]))
  end.

Definition apiKeyQuotaMetadataBody (result : APIKeyQuota.APIKeyQuotaCheckResult) : option json :=
  match result.(APIKeyQuota.qr_Status) with
  | None => None
  | Some st => Some (JObj (jmap
      [("id", jUUID st.(APIKeyQuota.qs_APIKey).(ApiKey_ID));
       ("action", JStr result.(APIKeyQuota.qr_Action));
       ("used_micro_usd", JNum st.(APIKeyQuota.qs_UsedMicroUSD));
       ("limit_micro_usd", JNum st.(APIKeyQuota.qs_LimitMicroUSD));
       ("remaining_micro_usd", JNum st.(APIKeyQuota.qs_RemainingMicroUSD));
       ("exceeded", JBool st.(APIKeyQuota.qs_Exceeded));
       ("period", JStr st.(APIKeyQuota.qs_Period));
       ("window_start", jTime st.(APIKeyQuota.qs_WindowStart));
       ("window_end", jTime st.(APIKeyQuota.qs_WindowEnd));
       ("pre_check_only", JBool true);
       ("projected_cost_known", JBool false)]))
  end.

Definition jsetSome (k : string) (v : option json) (body : list (string * json)) : list (string * json) :=
  match v with Some v => jset k v body | None => body end.

Definition budgetMetadata (result : BudgetService.CheckResult) : option json :=
  body ← budgetMetadataBody result; Some (JObj [("budget", body)]).

Definition apiKeyQuotaMetadata (result : APIKeyQuota.APIKeyQuotaCheckResult) : option json :=
  body ← apiKeyQuotaMetadataBody result; Some (JObj [("api_key_quota", body)]).

Definition attemptJSON (a : ProviderAttempt) : json :=
  JObj ([("provider_id", jUUID a.(pa_ProviderID)); ("model_id", jUUID a.(pa_ModelID));
         ("priority", JNum a.(pa_Priority)); ("result", JStr a.(pa_Result))]
        ++ (if String.eqb a.(pa_ErrorCode) "" then [] else [("error_code", JStr a.(pa_ErrorCode))])
        ++ (if a.(pa_Retryable) then [("retryable", JBool true)] else [])
        ++ [("attempts", JNum a.(pa_Attempts))]).

(** A slice nothing was appended to is [nil], and [null] in JSON. *)
Definition attemptsJSON (attempts : list ProviderAttempt) : json :=
  match attempts with [] => JNull | _ => JArr (map attemptJSON attempts) end.

Definition chatMetadata (result : BudgetService.CheckResult) (quotaResult : APIKeyQuota.APIKeyQuotaCheckResult)
    (attempts : list ProviderAttempt) (includeFallback includeAttempts : bool) : option json :=
  let body := jsetSome "budget" (budgetMetadataBody result) [] in
  let body := jsetSome "api_key_quota" (apiKeyQuotaMetadataBody quotaResult) body in
  let fallbackCount := Z.of_nat (length attempts) - 1 in
  let body := if includeFallback then jset "fallback_count" (JNum (if fallbackCount <? 0 then 0 else fallbackCount)) body
              else body in
  let body := if includeAttempts then jset "attempted_targets" (attemptsJSON attempts) body else body in
  match body with [] => None | _ => Some (JObj body) end.

Definition streamMetadata (result : BudgetService.CheckResult) (quotaResult : APIKeyQuota.APIKeyQuotaCheckResult)
    (usageMissing : bool) : option json :=
  let body := jset "stream" (JBool true) [] in
  let body := if usageMissing then jset "usage_missing" (JBool true) body else body in
  let body := jsetSome "budget" (budgetMetadataBody result) body in
  let body := jsetSome "api_key_quota" (apiKeyQuotaMetadataBody quotaResult) body in
  Some (JObj body).

Definition withCacheMetadata (existing : option json) (status cacheKeyHash : string) : option json :=
  Some (JObj (jset "cache" (JObj (jmap [("status", JStr status); ("cache_key_hash", JStr cacheKeyHash)]))
                (unmarshalBody existing))).

(** [similarity] is the number as [json.Marshal] prints it. *)
Definition withSemanticCacheMetadata (existing : option json) (status cacheKeyHash similarity : string) : option json :=
  Some (JObj (jset "cache" (JObj (jmap [("status", JStr status); ("cache_key_hash", JStr cacheKeyHash);
                                        ("similarity", JFloat similarity)])) (unmarshalBody existing))).

(** [Decision.MetadataBody]. *)
Definition MetadataBody (d : Anomaly.Decision) : option json :=
  match d.(Anomaly.dn_Triggered), d.(Anomaly.dn_Policy) with
  | true, Some policy =>
      let body := jmap
        [("policy_id", jUUID policy.(CostAnomalyPolicy_ID)); ("policy_name", JStr policy.(CostAnomalyPolicy_Name));
         ("rule_type", JStr policy.(CostAnomalyPolicy_RuleType)); ("action", JStr d.(Anomaly.dn_Action));
         ("reason", JStr d.(Anomaly.dn_Reason)); ("original_model", JStr d.(Anomaly.dn_OriginalModel))] in
      Some (JObj (if String.eqb d.(Anomaly.dn_Action) Anomaly.ActionDowngrade
                  then jset "fallback_model" (JStr d.(Anomaly.dn_EffectiveModel)) body else body))
  | _, _ => None
  end.

Definition withAnomalyMetadata (existing : option json) (decision : Anomaly.Decision) : option json :=
  match MetadataBody decision with
  | None => existing
  | Some part => Some (JObj (jset "cost_anomaly" part (unmarshalBody existing)))
  end.

Definition withContentPolicyMetadata (existing : option json) (decision : contentPolicyDecision) : option json :=
  if negb decision.(cd_Hit) then existing
  else Some (JObj (jset "content_policy"
         (JObj (jmap [("policy_hit", JBool true); ("action", JStr decision.(cd_Action));
                      ("types", JArr (map JStr decision.(cd_Types)))])) (unmarshalBody existing))).

Definition contentPolicyMetadata (decision : contentPolicyDecision) : option json :=
  withContentPolicyMetadata None decision.

Example refloat_loses_precision :
  map refloat [42; 9007199254740993; 9223372036854775807] = [42; 9007199254740992; 9223372036854775807 + 193].
Proof. vm_compute. done. Qed.

Example timeJSON_window : timeJSON (Day + 12 * Hour + 1500000) = "1970-01-02T12:00:00.0015Z".
Proof. vm_compute. done. Qed.

End GatewayBase.
