(* ===== verification/Providers.v ===== *)
(** * Providers: [internal/provider/provider_service.go], [registry.go], [health_service.go]

    Upstream services, their encrypted keys, the adapters that speak to them
    and the check whether they answer. *)

From Stdlib Require Import Ascii.
From S2P Require Import Prelude GoTime GoStrings Encodings Costing Store ExampleWorld.
From S2P Require Import BudgetService QuotaService AnomalyService Routing ContentPolicy Pricing Tokens Secrets Outbound HttpClient SecretRotation GatewayBase.

Module Providers.
Import Secrets Outbound SecretRotation GatewayBase.

Definition TypeMock : string := "mock".
Definition TypeOpenAICompatible : string := "openai_compatible".
Definition HealthStatusHealthy : string := "healthy".
Definition HealthStatusUnhealthy : string := "unhealthy".
Definition ErrProviderNotFound : err := Pricing.ErrProviderNotFound.

Record CreateProviderParams := mkCreateProviderParams {
  cp_OrgID : uuid;
  cp_Name : string;
  cp_Type : string;
  cp_BaseURL : option string;
  cp_APIKey : option string;
  cp_TimeoutMS : Z
}.

Record Service := mkService {
  sv_secretKeyRing : option SecretKeyRing;
  sv_publicOutboundOnly : bool
}.

(** ** Queries *)

Definition provider_check (p : Provider) : bool :=
  negb (String.eqb p.(Provider_Name) "") && existsb (String.eqb p.(Provider_Type)) ["mock"; "openai_compatible"]
  && (0 <? p.(Provider_TimeoutMs)) && existsb (String.eqb p.(Provider_Status)) ["active"; "disabled"]
  && (String.eqb p.(Provider_Type) "mock" || match p.(Provider_BaseUrl) with Some _ => true | None => false end)
  && match p.(Provider_LastHealthStatus) with None => true | Some s => existsb (String.eqb s) ["healthy"; "unhealthy"] end.

Definition provider_clash (p q : Provider) : bool :=
  (q.(Provider_ID) =? p.(Provider_ID))%N
  || ((q.(Provider_OrgID) =? p.(Provider_OrgID))%N && String.eqb q.(Provider_Name) p.(Provider_Name)).

Definition insert_provider (p : Provider) (d : DB) : result (Provider * DB) :=
  _ ← pg_check (provider_check p);
  _ ← pg_unique (provider_clash p) d.(providers);
  Ok (p, set_providers (λ ps, ps ++ [p]) d).

Definition newest_provider_first (a b : Provider) : bool :=
  (b.(Provider_CreatedAt) <? a.(Provider_CreatedAt))
  || ((b.(Provider_CreatedAt) =? a.(Provider_CreatedAt)) && (b.(Provider_ID) <=? a.(Provider_ID))%N).

Definition list_providers (orgID : uuid) (d : DB) : list Provider :=
  sort_by newest_provider_first (List.filter (λ p, (p.(Provider_OrgID) =? orgID)%N) d.(providers)).

Definition newest_model_first (a b : Model) : bool :=
  (b.(Model_CreatedAt) <? a.(Model_CreatedAt))
  || ((b.(Model_CreatedAt) =? a.(Model_CreatedAt)) && (b.(Model_ID) <=? a.(Model_ID))%N).

Definition list_models (orgID : uuid) (d : DB) : list Model :=
  sort_by newest_model_first (List.filter (λ m, (m.(Model_OrgID) =? orgID)%N) d.(models)).

Definition is_provider (orgID id : uuid) (p : Provider) : bool :=
  (p.(Provider_OrgID) =? orgID)%N && (p.(Provider_ID) =? id)%N.

Definition checked (status : string) (now : Z) (code message : option string) (p : Provider) : Provider :=
  mkProvider p.(Provider_ID) p.(Provider_OrgID) p.(Provider_Name) p.(Provider_Type) p.(Provider_BaseUrl) p.(Provider_TimeoutMs)
    p.(Provider_Status) p.(Provider_CreatedAt) now (Some status) (Some now) code message.

(** [UPDATE ... RETURNING] read through [QueryRow]. *)
Definition update_provider_health (orgID id : uuid) (status : string) (now : Z) (code message : option string) (d : DB)
    : result (Provider * DB) :=
  ps ← pg_update (is_provider orgID id)
         (λ p, _ ← pg_check (provider_check (checked status now code message p)); Ok (checked status now code message p))
         d.(providers);
  p ← pg_one (is_provider orgID id) d.(providers);
  Ok (checked status now code message p, set_providers (λ _, ps) d).

Definition secret_of (orgID providerID : uuid) (s : ProviderSecret) : bool :=
  (s.(ProviderSecret_OrgID) =? orgID)%N && (s.(ProviderSecret_ProviderID) =? providerID)%N.

Definition GetProviderSecret (orgID providerID : uuid) : M ProviderSecret :=
  query (λ d, pg_one (secret_of orgID providerID) d.(provider_secrets)).

(** [INSERT ... ON CONFLICT (org_id, provider_id) DO UPDATE]. *)
Definition replaced (s q : ProviderSecret) : ProviderSecret :=
  mkProviderSecret q.(ProviderSecret_ID) q.(ProviderSecret_OrgID) q.(ProviderSecret_ProviderID)
    s.(ProviderSecret_EncryptedApiKey) s.(ProviderSecret_Nonce) s.(ProviderSecret_KeyVersion)
    q.(ProviderSecret_CreatedAt) s.(ProviderSecret_UpdatedAt).

Definition upsert_provider_secret (s : ProviderSecret) (d : DB) : result (ProviderSecret * DB) :=
  _ ← pg_check (provider_secret_check s);
  let same := secret_of s.(ProviderSecret_OrgID) s.(ProviderSecret_ProviderID) in
  match find same d.(provider_secrets) with
  | Some q => Ok (replaced s q, set_provider_secrets (map (λ x, if same x then replaced s x else x)) d)
  | None =>
      _ ← pg_unique (λ q, (q.(ProviderSecret_ID) =? s.(ProviderSecret_ID))%N) d.(provider_secrets);
      Ok (s, set_provider_secrets (λ l, l ++ [s]) d)
  end.

(** ** The registry *)

Inductive Adapter := MockAdapter | OpenAIAdapter (publicOnly : bool).

Definition AdapterFor (publicOutboundOnly : bool) (providerType : string) : result Adapter :=
  if String.eqb providerType TypeMock then Ok MockAdapter
  else if String.eqb providerType TypeOpenAICompatible then Ok (OpenAIAdapter publicOutboundOnly)
  else Err (EProvider CodeProviderUnavailable "provider adapter unavailable" 0 false None).

(** ** The provider service *)

Definition newPgText (value : option string) : option string :=
  match value with
  | None => None
  | Some v => if String.eqb (TrimSpace v) "" then None else Some (TrimSpace v)
  end.

Definition blank (value : option string) : bool := String.eqb (TrimSpace (default "" value)) "".

Section service.
Context `{Runtime, AEAD, Net, Transport}.

Definition validateProviderParams (params : CreateProviderParams) (publicOutboundOnly : bool) : result unit :=
  if (params.(cp_OrgID) =? Nil)%N then Err (Pricing.validationError "org_id is required")
  else if String.eqb (TrimSpace params.(cp_Name)) "" then Err (Pricing.validationError "name is required")
  else if params.(cp_TimeoutMS) <=? 0 then Err (Pricing.validationError "timeout_ms must be greater than zero")
  else if String.eqb params.(cp_Type) TypeMock then Ok tt
  else if String.eqb params.(cp_Type) TypeOpenAICompatible then
    if blank params.(cp_BaseURL) then Err (Pricing.validationError "base_url is required")
    else
      match ValidateOutboundHTTPURL (default "" params.(cp_BaseURL)) "base_url" publicOutboundOnly with
      | Err (EMsg message) => Err (Pricing.validationError message)
      | Err e => Err e
      | Ok _ => if blank params.(cp_APIKey) then Err (Pricing.validationError "api_key is required") else Ok tt
      end
  else Err (Pricing.validationError "provider type must be mock or openai_compatible").

(** [NewService] and [NewHealthService] start from a ring of the single
    encryption key; an error leaves them without one. *)
Definition NewService (secretEncryptionKey : string) (keyRing : option SecretKeyRing) (publicOutboundOnly : bool) : M Service :=
  single ← try (NewSingleKeyRing secretEncryptionKey);
  mret (mkService (match keyRing, single with
                   | Some ring, _ => Some ring
                   | None, Ok ring => Some ring
                   | None, Err _ => None
                   end) publicOutboundOnly).

(** The closure [CreateProvider] passes to [ExecTx]. *)
Definition createProviderTx (s : Service) (params : CreateProviderParams) (now : Z) : M Provider :=
  id ← new_uuid;
  provider ← stmt (insert_provider
    (mkProvider id params.(cp_OrgID) (TrimSpace params.(cp_Name)) params.(cp_Type) (newPgText params.(cp_BaseURL))
       params.(cp_TimeoutMS) "active" now now None None None None));
  if negb (String.eqb params.(cp_Type) TypeOpenAICompatible) then mret provider
  else
    match s.(sv_secretKeyRing) with
    | None => fail (EMsg "provider secret keyring is invalid")
    | Some ring =>
        sealed ← Seal ring (TrimSpace (default "" params.(cp_APIKey)));
        secretID ← new_uuid;
        _ ← stmt (upsert_provider_secret
               (mkProviderSecret secretID params.(cp_OrgID) provider.(Provider_ID) sealed.(ss_Encrypted) sealed.(ss_Nonce)
                  sealed.(ss_KeyVersion) now now));
        mret provider
    end.

Definition CreateProvider (s : Service) (params : CreateProviderParams) : M Provider :=
  _ ← lift (validateProviderParams params s.(sv_publicOutboundOnly));
  now ← clock;
  ExecTx (createProviderTx s params now).

Definition ListProviders (orgID : uuid) : M (list Provider) := query (λ d, Ok (list_providers orgID d)).
Definition ListModels (orgID : uuid) : M (list Model) := query (λ d, Ok (list_models orgID d)).

(** ** The health service *)

Definition providerModelsURL (baseURL : string) : string := TrimRight (Ascii.eqb "/") baseURL +:+ "/models".

Definition nullableText (value : string) : option string :=
  if String.eqb (TrimSpace value) "" then None else Some value.

(** The answer of the provider, as an error code and message; blank is healthy. *)
Definition healthOf (answer : HttpResponse + transportError) : string * string :=
  match answer with
  | inr TransportTimeout => (CodeProviderTimeout, "provider health check timed out")
  | inr TransportFailed => (CodeProviderUnavailable, "provider health check failed")
  | inl resp =>
      let status := resp.(hp_StatusCode) in
      if (status <? 200) || (300 <=? status)
      then (if 500 <=? status then CodeProviderUnavailable else CodeProviderError,
            "provider health check returned status " +:+ formatInt status)
      else ("", "")
  end.

Definition healthRequest (baseURL apiKey : string) : HttpRequest :=
  mkHttpRequest "GET" (providerModelsURL baseURL)
    [("Authorization", "Bearer " +:+ apiKey); ("Accept", "application/json")] "".

Definition checkOpenAICompatible (s : Service) (item : Provider) : M (string * string) :=
  match item.(Provider_BaseUrl) with
  | None => mret (CodeProviderError, "provider base_url is required")
  | Some baseURL =>
      if String.eqb (TrimSpace baseURL) "" then mret (CodeProviderError, "provider base_url is required")
      else
        match ValidateOutboundHTTPURL baseURL "provider base_url" s.(sv_publicOutboundOnly) with
        | Err (EMsg message) => mret (CodeProviderError, message)
        | Err e => fail e
        | Ok _ =>
            secret ← try (GetProviderSecret item.(Provider_OrgID) item.(Provider_ID));
            match secret, s.(sv_secretKeyRing) with
            | Err _, _ => mret (CodeProviderError, "provider api key is required")
            | Ok _, None => mret (CodeProviderError, "provider secret configuration is invalid")
            | Ok stored, Some ring =>
                match Open ring stored.(ProviderSecret_EncryptedApiKey) stored.(ProviderSecret_Nonce)
                        stored.(ProviderSecret_KeyVersion) with
                | Err EPanic => fail EPanic
                | Err _ => mret (CodeProviderError, "provider api key decrypt failed")
                | Ok apiKey =>
                    if negb (newRequest "GET" (providerModelsURL baseURL))
                    then mret (CodeProviderError, "build provider health request failed")
                    else answer ← Do (healthRequest baseURL apiKey); mret (healthOf answer)
                end
            end
        end
  end.

Definition Check (s : Service) (orgID providerID : uuid) : M Provider :=
  item ← orNoRows (GetProvider orgID providerID) ErrProviderNotFound;
  '(code, message) ← (if String.eqb item.(Provider_Type) TypeOpenAICompatible then checkOpenAICompatible s item
                      else mret ("", ""));
  let status := if String.eqb code "" then HealthStatusHealthy else HealthStatusUnhealthy in
  now ← clock;
  stmt (update_provider_health orgID providerID status now (nullableText code) (nullableText message)).
(** ** Specification *)

(** The ring reads the provider's stored key as [key]. *)
Definition holds_key (ring : SecretKeyRing) (p : Provider) (key : string) (d : DB) : Prop :=
  ∃ stored, pg_one (secret_of p.(Provider_OrgID) p.(Provider_ID)) d.(provider_secrets) = Ok stored ∧
    Open ring stored.(ProviderSecret_EncryptedApiKey) stored.(ProviderSecret_Nonce) stored.(ProviderSecret_KeyVersion) = Ok key.

(** The row [CreateProvider] writes for its parameters. *)
Definition created_as (params : CreateProviderParams) (p : Provider) : Prop :=
  p.(Provider_OrgID) = params.(cp_OrgID) ∧ p.(Provider_Name) = TrimSpace params.(cp_Name) ∧
  p.(Provider_Type) = params.(cp_Type) ∧ p.(Provider_BaseUrl) = newPgText params.(cp_BaseURL) ∧
  p.(Provider_TimeoutMs) = params.(cp_TimeoutMS) ∧ p.(Provider_Status) = "active" ∧ p.(Provider_LastHealthStatus) = None.

(** The provider satisfies its table's checks, and no other row has its key. *)
Definition stored_once (p : Provider) (d : DB) : Prop :=
  provider_check p = true ∧ p ∈ d.(providers) ∧
  ∀ q, q ∈ d.(providers) → is_provider p.(Provider_OrgID) p.(Provider_ID) q = true → q = p.

(** ** Proofs *)

Lemma quiet_GetProviderSecret org p : quiet (GetProviderSecret org p).
Proof. apply quiet_query. Qed.

Lemma quiet_checkOpenAICompatible s item : quiet (checkOpenAICompatible s item).
Proof.
  unfold checkOpenAICompatible. destruct (Provider_BaseUrl item) as [b|]; [|apply quiet_ret].
  destruct (String.eqb _ _); [apply quiet_ret|]. destruct (ValidateOutboundHTTPURL _ _ _) as [|[]]; eauto with quiet.
  apply quiet_bind; [apply quiet_try, quiet_GetProviderSecret|]. intros [stored|e]; [|apply quiet_ret].
  destruct (sv_secretKeyRing s); [|apply quiet_ret].
  destruct (Open _ _ _ _) as [|[]]; eauto with quiet. destruct (negb _); eauto with quiet.
Qed.

Lemma upsert_provider_secret_ok x d x' d' :
  upsert_provider_secret x d = Ok (x', d') →
  ∃ stored, pg_one (secret_of x.(ProviderSecret_OrgID) x.(ProviderSecret_ProviderID)) d'.(provider_secrets) = Ok stored ∧
    stored.(ProviderSecret_EncryptedApiKey) = x.(ProviderSecret_EncryptedApiKey) ∧
    stored.(ProviderSecret_Nonce) = x.(ProviderSecret_Nonce) ∧
    stored.(ProviderSecret_KeyVersion) = x.(ProviderSecret_KeyVersion) ∧
    d'.(providers) = d.(providers).
Proof.
  unfold upsert_provider_secret. set (same := secret_of _ _). intros (_ & _ & H')%result_bind_ok.
  assert (Hsame : ∀ q, same q = true → same (replaced x q) = true) by done.
  destruct (find same _) as [q|] eqn:E.
  - injection H' as <- <-. simpl. rewrite pg_one_find. revert E. induction (provider_secrets d) as [|y l IH]; [done|].
    simpl. destruct (same y) eqn:Ey.
    + intros [= ->]. rewrite (Hsame _ Ey). exists (replaced x q). by split_and!.
    + intros E. rewrite Ey. by apply IH.
  - apply result_bind_ok in H' as (_ & _ & [= <- <-]). exists x. simpl. split_and!; [|done..].
    rewrite pg_one_find, find_app. rewrite E. simpl. unfold same, secret_of. by rewrite !N.eqb_refl.
Qed.

Lemma insert_provider_ok p d p' d' :
  insert_provider p d = Ok (p', d') →
  p' = p ∧ d' = set_providers (λ ps, ps ++ [p]) d ∧ stored_once p d'.
Proof.
  intros ([] & Hc & ([] & Hu & [= <- <-])%result_bind_ok)%result_bind_ok. split; [done|]. split; [done|].
  apply pg_unique_ok in Hu. rewrite List.Forall_forall in Hu. split_and!; simpl.
  - unfold pg_check in Hc. by destruct (provider_check p).
  - apply elem_of_app. right. by left.
  - intros q [Hq%list_elem_of_In| ->%list_elem_of_singleton]%elem_of_app Hp; [|done].
    specialize (Hu q Hq). unfold provider_clash in Hu. apply orb_false_iff in Hu as [Hu _]. unfold is_provider in Hp.
    by rewrite Hu, andb_false_r in Hp.
Qed.

Lemma is_provider_self p : is_provider p.(Provider_OrgID) p.(Provider_ID) p = true.
Proof. unfold is_provider. by rewrite !N.eqb_refl. Qed.

Lemma stored_once_found p d :
  stored_once p d → pg_one (is_provider p.(Provider_OrgID) p.(Provider_ID)) d.(providers) = Ok p.
Proof.
  intros (_ & Hp & Hone). rewrite pg_one_find. destruct (find _ _) as [q|] eqn:E.
  - apply find_some in E as [Hq E]. f_equal. apply Hone; [by apply list_elem_of_In|done].
  - apply list_elem_of_In in Hp. pose proof (find_none _ _ E _ Hp) as Hn. by rewrite is_provider_self in Hn.
Qed.

(** A health status is written on exactly this provider. *)
Lemma update_provider_health_run p status now code message d :
  stored_once p d → status = HealthStatusHealthy ∨ status = HealthStatusUnhealthy →
  ∃ d', update_provider_health p.(Provider_OrgID) p.(Provider_ID) status now code message d =
    Ok (checked status now code message p, d').
Proof.
  intros Hp Hs. unfold update_provider_health.
  destruct (pg_update_total (is_provider p.(Provider_OrgID) p.(Provider_ID))
    (λ p, _ ← pg_check (provider_check (checked status now code message p)); Ok (checked status now code message p))
    d.(providers)) as [ps Hps].
  { intros q Hq E. destruct Hp as (Hc & _ & Hone). rewrite (Hone q Hq E).
    assert (provider_check (checked status now code message p) = true) as ->; [|by eexists].
    unfold provider_check in *. apply andb_true_iff in Hc as [Hc _]. apply andb_true_iff.
    split; [exact Hc|]. simpl. by destruct Hs as [-> | ->]. }
  rewrite Hps. simpl. rewrite (stored_once_found _ _ Hp). simpl. by eexists.
Qed.

Lemma ValidateOutboundHTTPURL_trim url field field' publicOnly u :
  ValidateOutboundHTTPURL url field publicOnly = Ok u → ValidateOutboundHTTPURL (TrimSpace url) field' publicOnly = Ok u.
Proof.
  unfold ValidateOutboundHTTPURL. rewrite TrimSpace_idem. intros H'. repeat case_match; congruence.
Qed.

Lemma createProviderTx_ok s params now w p w' :
  createProviderTx s params now w = (Ok p, w') →
  created_as params p ∧ stored_once p (w_db w') ∧
  (w_db w').(providers) = (w_db w).(providers) ++ [p] ∧
  if String.eqb params.(cp_Type) TypeOpenAICompatible
  then ∃ ring, s.(sv_secretKeyRing) = Some ring ∧
    ∀ ring', ring'.(kr_boxes) !! ring.(kr_activeVersion) = ring.(kr_boxes) !! ring.(kr_activeVersion) →
      holds_key ring' p (TrimSpace (default "" params.(cp_APIKey))) (w_db w')
  else (w_db w').(provider_secrets) = (w_db w).(provider_secrets).
Proof.
  unfold createProviderTx. intros (newID & w1 & Hid & H')%bind_ok. injection Hid as _ <-.
  apply bind_ok in H' as (p1 & w2 & Hins & H'). apply stmt_ok in Hins.
  apply insert_provider_ok in Hins as (-> & Hdb & Hone). simpl in Hone.
  set (p0 := mkProvider _ _ _ _ _ _ _ _ _ _ _ _ _) in *.
  destruct (String.eqb (cp_Type params) _) eqn:Et; simpl in H'.
  2: { apply ret_ok in H' as [<- <-]. split; [by split_and!|]. split; [done|]. by rewrite Hdb. }
  destruct (sv_secretKeyRing s) as [ring|] eqn:Er; [|by apply fail_ok in H'].
  apply bind_ok in H' as (sealed & w3 & Hs & H'). apply Seal_ok in Hs as (Hdb3 & Hver & _ & _ & Hopen).
  apply bind_ok in H' as (sid & w4 & Hid & H'). injection Hid as _ <-.
  apply bind_ok in H' as (x & w5 & Hup & [<- <-]%ret_ok). apply stmt_ok in Hup.
  apply upsert_provider_secret_ok in Hup as (stored & Hstored & He & Hn & Hv & Hps). simpl in *.
  split; [by split_and!|]. split; [by unfold stored_once; rewrite Hps, Hdb3|].
  split; [by rewrite Hps, Hdb3, Hdb|]. exists ring. split; [done|].
  intros ring' Hr. exists stored. split; [done|]. rewrite He, Hn, Hv. apply Hopen. by rewrite Hver.
Qed.
Lemma query_now_run {A} (f : DB → result A) a w : w_faults w = [] → f (w_db w) = Ok a → query f w = (Ok a, w).
Proof. intros Hf E. by rewrite (query_run f w Hf), E. Qed.

(** Whom a health check may ask: a provider with a validated address and a key
    that the ring reads. *)
Section reachable.
Variables (h : Service) (ring : SecretKeyRing) (p : Provider) (base key : string) (w : world).
Hypothesis (Hkey : holds_key ring p key (w_db w)) (Hbase : p.(Provider_BaseUrl) = Some base) (Hne : TrimSpace base ≠ "")
  (Hval : ValidateOutboundHTTPURL base "provider base_url" h.(sv_publicOutboundOnly) = Ok tt)
  (Hring : h.(sv_secretKeyRing) = Some ring) (Hf : w_faults w = [])
  (Hreq : newRequest "GET" (providerModelsURL base) = true).

Lemma checkOpenAICompatible_run :
  ∃ w', checkOpenAICompatible h p w = (Ok (healthOf (roundTrip (w_fresh w) (healthRequest base key))), w') ∧
    w_db w' = w_db w ∧ w_faults w' = [] ∧
    w_trace w' = w_trace w ++ [EffHTTP "GET" (providerModelsURL base) (hr_Headers (healthRequest base key)) ""].
Proof.
  destruct Hkey as (stored & Hsec & Hopen). unfold checkOpenAICompatible.
  rewrite Hbase, (proj2 (String.eqb_neq _ _) Hne), Hval, Hring.
  rewrite (bind_run _ _ w (Ok stored) w) by (unfold try, GetProviderSecret; by rewrite (query_now_run _ stored)).
  rewrite Hopen, Hreq. simpl. destruct (Do_run (healthRequest base key) w) as (w' & Hdo & Hdb & Hfl & _ & _ & Htr).
  rewrite (bind_run _ _ _ _ _ Hdo). exists w'. by rewrite Hfl.
Qed.

(** The check then records what the provider answered. *)
Lemma Check_run :
  stored_once p (w_db w) → p.(Provider_Type) = TypeOpenAICompatible →
  ∃ p' w', Check h p.(Provider_OrgID) p.(Provider_ID) w = (Ok p', w') ∧
    w_trace w' = w_trace w ++ [EffHTTP "GET" (providerModelsURL base) (hr_Headers (healthRequest base key)) ""] ∧
    p'.(Provider_LastHealthStatus) = Some (if String.eqb (healthOf (roundTrip (w_fresh w) (healthRequest base key))).1 ""
                                           then HealthStatusHealthy else HealthStatusUnhealthy).
Proof.
  intros Hp Ht. destruct checkOpenAICompatible_run as (w1 & Hrun & Hdb1 & Hf1 & Htr1). unfold Check.
  rewrite (bind_run _ _ w p w).
  2: { unfold orNoRows. rewrite (bind_run _ _ w (Ok p) w); [done|]. unfold try, GetProvider.
       by rewrite (query_now_run _ p) by (done || apply stored_once_found, Hp). }
  rewrite Ht. simpl. rewrite (bind_run _ _ _ _ _ Hrun). destruct (healthOf _) as [code message]. simpl.
  unfold clock. set (w2 := set_tick (S (w_tick w1)) w1). rewrite (bind_run _ _ w1 (w_clock w1 (w_tick w1)) w2) by done.
  rewrite (stmt_run _ w2) by exact Hf1.
  destruct (update_provider_health_run p (if String.eqb code "" then HealthStatusHealthy else HealthStatusUnhealthy)
    (w_clock w1 (w_tick w1)) (nullableText code) (nullableText message) (w_db w2)) as [d' Hu];
    [simpl; by rewrite Hdb1|case_match; auto|].
  rewrite Hu. by eexists _, _.
Qed.
End reachable.

Lemma validated_openai params publicOnly :
  validateProviderParams params publicOnly = Ok tt → params.(cp_Type) = TypeOpenAICompatible →
  ∃ base, newPgText params.(cp_BaseURL) = Some (TrimSpace base) ∧ params.(cp_BaseURL) = Some base ∧ TrimSpace base ≠ "" ∧
    ValidateOutboundHTTPURL (TrimSpace base) "provider base_url" publicOnly = Ok tt.
Proof.
  unfold validateProviderParams, blank, newPgText. intros H' Ht. rewrite Ht in H'.
  destruct (_ =? Nil)%N; [done|]. destruct (String.eqb (TrimSpace (cp_Name params)) ""); [done|].
  destruct (_ <=? 0); [done|]. simpl in H'. destruct (cp_BaseURL params) as [base|]; [|done]. simpl in H'.
  destruct (String.eqb_spec (TrimSpace base) "") as [|Hne]; [done|].
  destruct (ValidateOutboundHTTPURL base _ _) as [[]|] eqn:E; [|by case_match].
  exists base. split_and!; [done..|]. by eapply ValidateOutboundHTTPURL_trim.
Qed.

(** C22: providers are created whole and then answer to their own key. Creating
    one either fails and leaves the database alone, or adds one active row with
    the trimmed name and address, and, for an OpenAI-compatible one, the key
    encrypted; from then on a health check, under any ring that still holds the
    key version, sends one request, to the [/models] of that address with that
    key as the bearer token, and records healthy exactly when the answer is a
    2xx status. *)
Theorem created_provider_reached (s : Service) (params : CreateProviderParams) (w : world) r w1 :
  CreateProvider s params w = (r, w1) →
  match r with
  | Err _ => w_db w1 = w_db w
  | Ok p =>
      created_as params p ∧ (w_db w1).(providers) = (w_db w).(providers) ++ [p] ∧
      if String.eqb params.(cp_Type) TypeOpenAICompatible then
        ∃ ring base, s.(sv_secretKeyRing) = Some ring ∧ params.(cp_BaseURL) = Some base ∧
          let key := TrimSpace (default "" params.(cp_APIKey)) in
          let request := healthRequest (TrimSpace base) key in
          ∀ ring' w2, ring'.(kr_boxes) !! ring.(kr_activeVersion) = ring.(kr_boxes) !! ring.(kr_activeVersion) →
            w_db w2 = w_db w1 → w_faults w2 = [] → newRequest "GET" request.(hr_URL) = true →
            ∃ p' w3, Check (mkService (Some ring') s.(sv_publicOutboundOnly)) p.(Provider_OrgID) p.(Provider_ID) w2 = (Ok p', w3) ∧
              w_trace w3 = w_trace w2 ++ [EffHTTP "GET" request.(hr_URL) request.(hr_Headers) ""] ∧
              p'.(Provider_LastHealthStatus) =
                Some (match roundTrip (w_fresh w2) request with
                      | inl resp => if success resp.(hp_StatusCode) then HealthStatusHealthy else HealthStatusUnhealthy
                      | inr _ => HealthStatusUnhealthy
                      end)
      else (w_db w1).(provider_secrets) = (w_db w).(provider_secrets)
  end.
Proof.
  unfold CreateProvider. intros H'. apply bind_cases in H' as [([] & w2 & Hv & H')|(e & Hv & ->)].
  2: { unfold lift in Hv. by injection Hv as _ <-. }
  apply lift_ok in Hv as [Hv <-]. apply bind_cases in H' as [(now & w3 & Hc & H')|(e & Hc & ->)]; [|done].
  apply clock_reading in Hc as (_ & _ & Hdb). destruct r as [p|e].
  2: { pose proof (ExecTxRaw_err (createProviderTx s params now) w3 e) as He. unfold ExecTx in H'. rewrite H' in He.
       simpl in He. rewrite <- Hdb. by apply He. }
  apply WithTx_ok in H' as (w4 & w5 & Hdb4 & _ & Htx & Hdb1). simpl in Hdb1.
  apply createProviderTx_ok in Htx as (Has & Hst & Hps & Hkey). rewrite Hdb1, <- Hdb, <- Hdb4.
  split; [done|]. split; [done|]. destruct (String.eqb_spec (cp_Type params) TypeOpenAICompatible) as [Et|]; [|done].
  destruct Hkey as (ring & Hring & Hkey). destruct (validated_openai _ _ Hv Et) as (base & Hpg & Hbase & Hne & Hval).
  exists ring, base. split; [done|]. split; [done|].
  set (key := TrimSpace (default "" _)). set (request := healthRequest _ _). intros ring' w6 Hr Hdb6 Hf Hreq.
  destruct Has as (_ & _ & Hty & Hbu & _).
  destruct (Check_run (mkService (Some ring') (sv_publicOutboundOnly s)) ring' p (TrimSpace base) key w6)
    as (p' & w7 & Hrun & Htr & Hh); [rewrite Hdb6; by apply Hkey|by rewrite Hbu|by rewrite TrimSpace_idem|done..|
      by rewrite Hdb6|congruence|].
  exists p', w7. split; [done|]. split; [done|]. rewrite Hh. fold request. f_equal.
  unfold healthOf, success. destruct (roundTrip _ _) as [resp|[]]; try done.
  rewrite (Z.leb_antisym _ 200), (Z.ltb_antisym 300). set (code := hp_StatusCode resp).
  by destruct (code <? 200), (300 <=? code), (500 <=? code).
Qed.
End service.

(** ** An example *)

#[local] Existing Instances ex_runtime ex_aead ex_net ex_transport.

Definition ex_provider_service : Service := mkService (Some ex_keys1) true.
Definition ex_provider_params : CreateProviderParams :=
  mkCreateProviderParams 1%N " upstream " TypeOpenAICompatible (Some " https://api.example/v1/ ") (Some " sk-live ") 5000.

Notation ex_provider_created := (CreateProvider ex_provider_service ex_provider_params ex_world).

Lemma ex_provider_facts : is_ok ex_provider_created.1 = true ∧ w_faults ex_provider_created.2 = [].
Proof. vm_compute. done. Qed.

(** The new provider, checked after the key ring was rotated, is asked with its key. *)
Lemma created_provider_reached_witness :
  ∃ p p' w3, ex_provider_created.1 = Ok p ∧
    Check (mkService (Some ex_keys2) true) p.(Provider_OrgID) p.(Provider_ID) ex_provider_created.2 = (Ok p', w3) ∧
    w_trace w3 = w_trace ex_provider_created.2 ++
      [EffHTTP "GET" "https://api.example/v1/models" [("Authorization", "Bearer sk-live"); ("Accept", "application/json")] ""] ∧
    p'.(Provider_LastHealthStatus) = Some "healthy".
Proof.
  destruct ex_provider_facts as [Hok Hf]. destruct ex_provider_created as [[p|e] w1] eqn:E; [|done]. simpl in *.
  destruct (created_provider_reached _ _ _ _ _ E) as (_ & _ & H'). simpl in H'.
  destruct H' as (ring & base & [= <-] & [= <-] & H').
  destruct (H' ex_keys2 w1) as (p' & w3 & Hc & Ht & Hh); [done..|]. exists p, p', w3. by split_and!.
Defined.
End Providers.
