(* ===== verification/Redis.v ===== *)
(** * The cache server

    What the caches use of Redis: strings that are set for a time and deleted,
    and sets of strings. Every write command that reaches the server is an
    effect of the run, and a read answers from the commands so far. A key may be
    gone at any read, expired or evicted; a call may fail before or after the
    server has seen it. *)

From S2P Require Import Prelude GoStrings Store Tokens.

Class Redis := {
  redis_gone : nat → string → bool;                     (** the key is gone at the n-th read *)
  members_order : nat → list string → list string;      (** the order in which the n-th [SMEMBERS] answers *)
  members_order_perm n l : members_order n l ≡ₚ l
}.

(** The value of a key after a run of commands. *)
Definition apply_value (key : string) (acc : option string) (e : effect) : option string :=
  match e with
  | EffRedis (SET k v _) => if String.eqb k key then Some v else acc
  | EffRedis (DEL k) => if String.eqb k key then None else acc
  | _ => acc
  end.
Definition value_of (key : string) (trace : list effect) : option string := fold_left (apply_value key) trace None.

(** The members of a set after a run of commands. *)
Definition apply_members (key : string) (acc : list string) (e : effect) : list string :=
  match e with
  | EffRedis (SADD k v) => if String.eqb k key && negb (existsb (String.eqb v) acc) then acc ++ [v] else acc
  | EffRedis (SREM k v) => if String.eqb k key then List.filter (λ x, negb (String.eqb x v)) acc else acc
  | _ => acc
  end.
Definition members_of (key : string) (trace : list effect) : list string := fold_left (apply_members key) trace [].

(** A write: it may be lost, and its answer may be. *)
Definition redis_write (command : redis_command) : M unit :=
  _ ← call;
  _ ← emit (EffRedis command);
  call.

Definition trace_of : M (list effect) := λ w, (Ok w.(w_trace), w).

Section redis.
Context `{Redis}.

(** [GET]; [None] is [redis.Nil]. *)
Definition redis_GET (key : string) : M (option string) :=
  _ ← call;
  n ← draw;
  trace ← trace_of;
  mret (if redis_gone n key then None else value_of key trace).

(** [SMEMBERS]; a set that is gone is empty. *)
Definition redis_SMEMBERS (key : string) : M (list string) :=
  _ ← call;
  n ← draw;
  trace ← trace_of;
  mret (if redis_gone n key then [] else members_order n (members_of key trace)).

Lemma quiet_trace_of : quiet trace_of.
Proof. done. Qed.

Lemma quiet_GET key : quiet (redis_GET key).
Proof. pose proof quiet_trace_of. unfold redis_GET. eauto with quiet. Qed.
Lemma quiet_SMEMBERS key : quiet (redis_SMEMBERS key).
Proof. pose proof quiet_trace_of. unfold redis_SMEMBERS. eauto with quiet. Qed.
End redis.

Lemma quiet_redis_write command : quiet (redis_write command).
Proof. unfold redis_write. eauto with quiet. Qed.

#[export] Hint Resolve quiet_trace_of quiet_GET quiet_SMEMBERS quiet_redis_write : quiet.

(** ** What the server holds was put there *)

(** Some [SET] of the run gave the key this value. *)
Definition was_set (key value : string) (trace : list effect) : Prop := ∃ ttl, EffRedis (SET key value ttl) ∈ trace.

Lemma value_of_snoc key trace e : value_of key (trace ++ [e]) = apply_value key (value_of key trace) e.
Proof. unfold value_of. by rewrite fold_left_app. Qed.

Lemma members_of_snoc key trace e : members_of key (trace ++ [e]) = apply_members key (members_of key trace) e.
Proof. unfold members_of. by rewrite fold_left_app. Qed.

Lemma value_was_set key trace v : value_of key trace = Some v → was_set key v trace.
Proof.
  induction trace as [|e trace IH] using rev_ind; [done|]. rewrite value_of_snoc. intros Hv.
  assert (Hkeep : value_of key trace = Some v → was_set key v (trace ++ [e])).
  { intros [ttl Ht]%IH. exists ttl. apply elem_of_app. by left. }
  unfold apply_value in Hv. repeat case_match; simplify_eq; try by apply Hkeep.
  match goal with E : String.eqb _ _ = true |- _ => apply String.eqb_eq in E as -> end.
  eexists. apply elem_of_app. right. by left.
Qed.

Lemma member_was_added key trace v : v ∈ members_of key trace → EffRedis (SADD key v) ∈ trace.
Proof.
  induction trace as [|e trace IH] using rev_ind; [by intros ?%elem_of_nil|]. rewrite members_of_snoc. intros Hv.
  assert (Hkeep : v ∈ members_of key trace → EffRedis (SADD key v) ∈ trace ++ [e]).
  { intros ?%IH. apply elem_of_app. by left. }
  unfold apply_members in Hv. repeat case_match; try by apply Hkeep.
  - match goal with E : _ && _ = true |- _ => apply andb_true_iff in E as [->%String.eqb_eq _] end.
    apply elem_of_app in Hv as [Hv| ->%list_elem_of_singleton]; [by apply Hkeep|]. apply elem_of_app. right. by left.
  - apply Hkeep. apply list_elem_of_In, filter_In in Hv as [Hv _]. by apply list_elem_of_In.
Qed.

(** ** What a run adds to the trace *)

(** Every effect of the run, successful or not, satisfies [P]. *)
Definition adds (P : effect → Prop) {A} (m : M A) : Prop :=
  ∀ w r w', m w = (r, w') → ∃ more, w_trace w' = w_trace w ++ more ∧ Forall P more.

Section adds.
Context (P : effect → Prop).

Lemma adds_nothing {A} (m : M A) : (∀ w, w_trace (m w).2 = w_trace w) → adds P m.
Proof. intros Hm w r w' H. exists []. rewrite app_nil_r. specialize (Hm w). by rewrite H in Hm. Qed.

Lemma adds_bind {A B} (m : M A) (f : A → M B) : adds P m → (∀ a, adds P (f a)) → adds P (m ≫= f).
Proof.
  intros Hm Hf w r w' [(a & w1 & H1 & H2)|(e & H1 & ->)]%bind_cases; [|by apply (Hm _ _ _ H1)].
  apply Hm in H1 as (m1 & E1 & HP1). apply Hf in H2 as (m2 & E2 & HP2).
  exists (m1 ++ m2). rewrite E2, E1, app_assoc. split; [done|]. by apply Forall_app.
Qed.

Lemma adds_try {A} (m : M A) : adds P m → adds P (try m).
Proof. intros Hm w r w' H. unfold try in H. destruct (m w) as [r1 w1] eqn:E. injection H as _ <-. by apply (Hm _ _ _ E). Qed.

Lemma adds_call : adds P call.
Proof. apply adds_nothing. intros w. unfold call. by destruct (w_faults w) as [|[]]. Qed.

Lemma adds_stmt {A} (f : DB → result (A * DB)) : adds P (stmt f).
Proof.
  apply adds_nothing. intros w. unfold stmt, call. destruct (w_faults w) as [|[] l]; simpl; [|done|];
    by destruct (f _) as [[]|].
Qed.

Lemma adds_emit e : P e → adds P (emit e).
Proof. intros HP w r w' [= <- <-]. exists [e]. split; [done|by constructor]. Qed.

Lemma adds_forM {S A} (l : list A) (acc : S) (body : S → A → M S) :
  (∀ acc x, adds P (body acc x)) → adds P (forM l acc body).
Proof.
  intros Hb. revert acc. induction l as [|x l IH]; intros acc; simpl; [by apply adds_nothing|].
  apply adds_bind; auto.
Qed.
End adds.

Lemma adds_mono (P Q : effect → Prop) {A} (m : M A) : (∀ e, P e → Q e) → adds P m → adds Q m.
Proof. intros HPQ Hm w r w' (more & ? & ?)%Hm. exists more. split; [done|]. by eapply Forall_impl. Qed.

Lemma adds_write P command : P (EffRedis command) → adds P (redis_write command).
Proof. intros HP. unfold redis_write. apply adds_bind; [apply adds_call|intros _]. apply adds_bind; [by apply adds_emit|]. intros _. apply adds_call. Qed.

Create HintDb adds discriminated.
#[export] Hint Resolve adds_bind adds_try adds_call adds_stmt adds_emit adds_forM adds_write : adds.
#[export] Hint Extern 2 (adds _ (mret _)) => (apply adds_nothing; done) : adds.
#[export] Hint Extern 2 (adds _ (fail _)) => (apply adds_nothing; done) : adds.
#[export] Hint Extern 2 (adds _ (lift _)) => (apply adds_nothing; done) : adds.
#[export] Hint Extern 2 (adds _ clock) => (apply adds_nothing; done) : adds.
#[export] Hint Extern 2 (adds _ draw) => (apply adds_nothing; done) : adds.
#[export] Hint Extern 2 (adds _ new_uuid) => (apply adds_nothing; done) : adds.
#[export] Hint Extern 2 (adds _ trace_of) => (apply adds_nothing; done) : adds.

Section reads.
Context (P : effect → Prop) `{Redis}.

Lemma adds_GET key : adds P (redis_GET key).
Proof. unfold redis_GET. eauto 8 with adds. Qed.
Lemma adds_SMEMBERS key : adds P (redis_SMEMBERS key).
Proof. unfold redis_SMEMBERS. eauto 8 with adds. Qed.
End reads.

#[export] Hint Resolve adds_GET adds_SMEMBERS : adds.

Lemma redis_GET_cases `{Redis} key w v w' :
  redis_GET key w = (Ok v, w') →
  w_trace w' = w_trace w ∧ ∃ n, v = if redis_gone n key then None else value_of key (w_trace w).
Proof.
  unfold redis_GET. intros ([] & w1 & Hc & H')%bind_ok.
  assert (Ht : w_trace w1 = w_trace w).
  { unfold call in Hc. destruct (w_faults w) as [|[] l]; by inversion Hc. }
  injection H' as <- <-. simpl. split; [done|]. rewrite <- Ht. by eexists.
Qed.

Lemma redis_GET_run `{Redis} key w :
  w_faults w = [] → redis_gone (w_fresh w) key = false → ∃ w', redis_GET key w = (Ok (value_of key (w_trace w)), w').
Proof. intros Hf Hg. unfold redis_GET, call, draw, trace_of, mbind, M_bind. rewrite Hf. simpl. rewrite Hg. by eexists. Qed.

(** A write whose answer came back is the last command of the trace. *)
Lemma redis_write_ok command w u w' :
  redis_write command w = (Ok u, w') → ∃ trace, w_trace w' = trace ++ [EffRedis command].
Proof.
  unfold redis_write. intros ([] & w1 & _ & ([] & w2 & He & Hc)%bind_ok)%bind_ok. injection He as <-.
  exists (w_trace w1). unfold call in Hc. destruct (w_faults _) as [|[] l]; by inversion Hc.
Qed.

Lemma redis_SMEMBERS_cases `{Redis} key w l w' :
  redis_SMEMBERS key w = (Ok l, w') → w_trace w' = w_trace w ∧ (l = [] ∨ l ≡ₚ members_of key (w_trace w)).
Proof.
  unfold redis_SMEMBERS. intros ([] & w1 & Hc & H')%bind_ok.
  assert (Ht : w_trace w1 = w_trace w).
  { unfold call in Hc. destruct (w_faults w) as [|[] l']; by inversion Hc. }
  injection H' as <- <-. simpl. split; [done|]. rewrite <- Ht. case_match; [by left|right; apply members_order_perm].
Qed.

Lemma members_of_NoDup key trace : NoDup (members_of key trace).
Proof.
  induction trace as [|e trace IH] using rev_ind; [constructor|]. rewrite members_of_snoc. unfold apply_members.
  repeat case_match; try done.
  - match goal with E : _ && _ = true |- _ => apply andb_true_iff in E as [_ En%negb_true_iff] end.
    apply list.NoDup_app. split; [done|]. split; [|apply list.NoDup_singleton]. intros x Hx ->%list_elem_of_singleton.
    apply not_true_iff_false in En. apply En, existsb_exists. eexists. split; [by apply list_elem_of_In|apply String.eqb_refl].
  - clear -IH. induction IH as [|x l Hx _ IH]; simpl; [constructor|]. destruct (negb _); [|done].
    constructor; [|done]. intros Hin. apply Hx. apply list_elem_of_In, filter_In in Hin as [Hin _]. by apply list_elem_of_In.
Qed.
