(* ===== verification/Caches.v ===== *)
(** * Response caches: [internal/cache], [internal/embedding]

    Answers of the providers, encrypted, under the digest of the prompt that
    they answer (the exact cache) or next to an embedding of it (the semantic
    cache). *)

From Stdlib Require Import QArith Ascii Floats.SpecFloat.
From stdpp Require Import pretty.
From S2P Require Import Prelude GoTime GoStrings Encodings Costing Store ExampleWorld Tokens Secrets Redis Float64.
From S2P Require Import BudgetService QuotaService AnomalyService Routing ContentPolicy GatewayBase.
#[local] Open Scope Z_scope.

(** What the caches use of [encoding/json], [crypto/sha256], [strconv] and [unicode]. *)
Class Digests := {
  marshal : json → string;
  sha256_sum : string → string;
  formatFloat : float64 → string;         (** strconv.FormatFloat(v, 'g', -1, 64) *)
  jsonFloat : float64 → string;           (** as a JSON number *)
  unicode_fields : string → list string   (** the letter and digit runs of a text that is not ASCII *)
}.

Module Caches.
Import Secrets GatewayBase.

Definition ErrCacheMiss : err := EWrap "prompt cache miss" "".
Definition ErrSemanticCacheMiss : err := EWrap "semantic cache miss" "".
Definition redisKeyPrefix : string := "prompt_exact".
Definition semanticRedisKeyPrefix : string := "semantic_cache".
Definition encryptedCachedChatResponseVersion : Z := 1.
Definition mockDimension : nat := 64.

Record PromptKeyInput := mkPromptKeyInput {
  pi_OrgID : uuid;
  pi_RequestedModel : string;
  pi_Messages : list ChatMessage;
  pi_Temperature : option float64;
  pi_MaxTokens : option Z
}.

Record encryptedCachedChatResponse := mkencryptedCachedChatResponse {
  ec_Version : Z;
  ec_Encrypted : string;
  ec_Nonce : string
}.

Record SemanticStoreInput := mkSemanticStoreInput {
  ss_OrgID : uuid;
  ss_RequestedModel : string;
  ss_MessagesHash : string;
  ss_Embedding : list float64;
  ss_Response : CachedChatResponse
}.

Record SemanticLookupInput := mkSemanticLookupInput {
  sl_OrgID : uuid;
  sl_RequestedModel : string;
  sl_Embedding : list float64;
  sl_Threshold : float64
}.

Record SemanticMatch := mkSemanticMatch {
  sm_CacheKeyHash : string;
  sm_MessagesHash : string;
  sm_Similarity : float64;
  sm_Response : CachedChatResponse
}.

Record semanticItem := mksemanticItem {
  si_CacheKeyHash : string;
  si_MessagesHash : string;
  si_RequestedModel : string;
  si_Embedding : list float64;
  si_Response : encryptedCachedChatResponse;
  si_CreatedAt : Z
}.

Record responseCodec := mkresponseCodec { rc_box : option SecretBox }.

Record PromptCache := mkPromptCache { pc_ttl : Z; pc_responses : responseCodec }.
Record SemanticCache := mkSemanticCache { sc_ttl : Z; sc_responses : responseCodec }.

(** How [encoding/json] writes and reads the cached values; a vector that is not
    finite cannot be written. *)
Class CacheJSON := {
  marshalResponse : CachedChatResponse → string;
  unmarshalResponse : string → result CachedChatResponse;
  marshalSealed : encryptedCachedChatResponse → string;
  unmarshalSealed : string → result encryptedCachedChatResponse;
  marshalItem : semanticItem → result string;
  unmarshalItem : string → result semanticItem
}.

(** The idealisation of an encoding that loses nothing (valid UTF-8, times in UTC). *)
Class FaithfulJSON `{CacheJSON} : Prop := {
  json_response r : unmarshalResponse (marshalResponse r) = Ok r;
  json_sealed s : unmarshalSealed (marshalSealed s) = Ok s;
  json_item i body : marshalItem i = Ok body → unmarshalItem body = Ok i
}.

Definition newResponseCodec (secretEncryptionKey : string) : result responseCodec :=
  box ← NewSecretBox secretEncryptionKey;
  Ok (mkresponseCodec (Some box)).

Definition NewPromptCache (ttl : Z) (secretEncryptionKey : string) : result PromptCache :=
  responses ← newResponseCodec secretEncryptionKey;
  Ok (mkPromptCache ttl responses).

Definition NewSemanticCache (ttl : Z) (secretEncryptionKey : string) : result SemanticCache :=
  responses ← newResponseCodec secretEncryptionKey;
  Ok (mkSemanticCache ttl responses).

Definition set_cachedAt (t : Z) (r : CachedChatResponse) : CachedChatResponse :=
  mkCachedChatResponse r.(ca_ProviderID) r.(ca_ModelID) r.(ca_ProviderName) r.(ca_ProviderModel) r.(ca_Role)
    r.(ca_Content) r.(ca_FinishReason) t.

(** ** Keys *)

Section keys.
Context `{Digests}.

Definition sha256Hex (value : string) : string := hexEncode (sha256_sum value).

Definition messageJSON (m : ChatMessage) : json := JObj [("role", JStr m.(msg_Role)); ("content", JStr m.(msg_Content))].
Definition floatPtrKey (value : option float64) : string := match value with None => "null" | Some q => formatFloat q end.
Definition intPtrKey (value : option Z) : string := match value with None => "null" | Some n => formatInt n end.

Definition promptKeyPayload (input : PromptKeyInput) (messagesHash : string) : json :=
  JObj [("org_id", jUUID input.(pi_OrgID)); ("requested_model", JStr (TrimSpace input.(pi_RequestedModel)));
        ("messages_hash", JStr messagesHash); ("temperature", JStr (floatPtrKey input.(pi_Temperature)));
        ("max_tokens", JStr (intPtrKey input.(pi_MaxTokens)))].

Definition BuildPromptKey (input : PromptKeyInput) : result PromptKey :=
  if (input.(pi_OrgID) =? Nil)%N then Err (EWrap "invalid prompt cache key" "org_id is required")
  else if String.eqb (TrimSpace input.(pi_RequestedModel)) "" then
    Err (EWrap "invalid prompt cache key" "requested_model is required")
  else
    match input.(pi_Messages) with
    | [] => Err (EWrap "invalid prompt cache key" "messages are required")
    | messages =>
        let messagesHash := sha256Hex (marshal (JArr (map messageJSON messages))) in
        let cacheKeyHash := sha256Hex (marshal (promptKeyPayload input messagesHash)) in
        Ok (mkPromptKey (redisKeyPrefix +:+ ":" +:+ uuidString input.(pi_OrgID) +:+ ":" +:+ cacheKeyHash) cacheKeyHash
              messagesHash)
    end.

Definition semanticIndexKey (orgID : uuid) (requestedModel : string) : string :=
  semanticRedisKeyPrefix +:+ ":index:" +:+ uuidString orgID +:+ ":" +:+ sha256Hex (TrimSpace requestedModel).

Definition semanticItemKey (orgID : uuid) (requestedModel cacheKeyHash : string) : string :=
  semanticRedisKeyPrefix +:+ ":item:" +:+ uuidString orgID +:+ ":" +:+ sha256Hex (TrimSpace requestedModel) +:+ ":"
  +:+ cacheKeyHash.

Definition semanticCacheKeyHash (orgID : uuid) (requestedModel messagesHash : string) : string :=
  sha256Hex (uuidString orgID +:+ ":" +:+ TrimSpace requestedModel +:+ ":" +:+ messagesHash).

(** The idealisation of a digest without collisions, and of an encoding that
    tells apart what the cache hashes. *)
Class PerfectDigest : Prop := {
  digest_text a b : sha256_sum a = sha256_sum b → a = b;
  marshal_messages l l' : marshal (JArr (map messageJSON l)) = marshal (JArr (map messageJSON l')) → l = l';
  marshal_payload a b h h' : marshal (promptKeyPayload a h) = marshal (promptKeyPayload b h') →
    uuidString a.(pi_OrgID) = uuidString b.(pi_OrgID) ∧ TrimSpace a.(pi_RequestedModel) = TrimSpace b.(pi_RequestedModel) ∧
    h = h' ∧ floatPtrKey a.(pi_Temperature) = floatPtrKey b.(pi_Temperature) ∧
    intPtrKey a.(pi_MaxTokens) = intPtrKey b.(pi_MaxTokens)
}.
End keys.

(** ** Similarity *)

Fixpoint sums (a b : list float64) (dot normA normB : float64) : float64 * float64 * float64 :=
  match a, b with
  | x :: a', y :: b' =>
      sums a' b' (f64_add dot (f64_mul x y)) (f64_add normA (f64_mul x x)) (f64_add normB (f64_mul y y))
  | _, _ => (dot, normA, normB)
  end.

Definition CosineSimilarity (a b : list float64) : float64 :=
  if (length a =? 0)%nat || negb (length a =? length b)%nat then f64_zero
  else
    let '(dot, normA, normB) := sums a b f64_zero f64_zero f64_zero in
    if f64_eq normA f64_zero || f64_eq normB f64_zero then f64_zero
    else f64_div dot (f64_mul (f64_sqrt normA) (f64_sqrt normB)).

(** ** The encryption of responses *)

Section service.
Context `{Runtime, AEAD, Digests, CacheJSON, Redis}.

Definition codec_Seal (c : responseCodec) (response : CachedChatResponse) : M encryptedCachedChatResponse :=
  match c.(rc_box) with
  | None => fail (EMsg "cache response encryption is not configured")
  | Some box =>
      sealed ← box_Seal box (marshalResponse response);
      mret (mkencryptedCachedChatResponse encryptedCachedChatResponseVersion sealed.(Secrets.ss_Encrypted)
              sealed.(Secrets.ss_Nonce))
  end.

Definition codec_Open (c : responseCodec) (sealed : encryptedCachedChatResponse) : result CachedChatResponse :=
  match c.(rc_box) with
  | None => Err (EMsg "cache response encryption is not configured")
  | Some box =>
      if negb (sealed.(ec_Version) =? encryptedCachedChatResponseVersion) || String.eqb sealed.(ec_Encrypted) ""
         || String.eqb sealed.(ec_Nonce) ""
      then Err (EMsg "invalid encrypted cached response")
      else plaintext ← box_Open box sealed.(ec_Encrypted) sealed.(ec_Nonce); unmarshalResponse plaintext
  end.

(** ** The exact cache; without a client it is [None] *)

Definition PromptCache_Get (cache : option PromptCache) (key : PromptKey) : M CachedChatResponse :=
  match cache with
  | None => fail ErrCacheMiss
  | Some c =>
      raw ← redis_GET key.(pk_RedisKey);
      match raw with
      | None => fail ErrCacheMiss
      | Some raw =>
          sealed ← lift (unmarshalSealed raw);
          match codec_Open c.(pc_responses) sealed with
          | Err EPanic => fail EPanic
          | Err _ => _ ← try (redis_write (DEL key.(pk_RedisKey))); fail ErrCacheMiss
          | Ok item => mret item
          end
      end
  end.

Definition dated (item : CachedChatResponse) : M CachedChatResponse :=
  if IsZero item.(ca_CachedAt) then now ← clock; mret (set_cachedAt now item) else mret item.

Definition PromptCache_Set (cache : option PromptCache) (key : PromptKey) (item : CachedChatResponse) : M unit :=
  match cache with
  | None => mret tt
  | Some c =>
      if c.(pc_ttl) <=? 0 then fail (EMsg "prompt cache ttl must be greater than zero")
      else
        item ← dated item;
        sealed ← codec_Seal c.(pc_responses) item;
        redis_write (SET key.(pk_RedisKey) (marshalSealed sealed) c.(pc_ttl))
  end.

(** ** The semantic cache *)

Definition validateSemanticStoreInput (input : SemanticStoreInput) : result unit :=
  if (input.(ss_OrgID) =? Nil)%N || String.eqb (TrimSpace input.(ss_RequestedModel)) "" || String.eqb input.(ss_MessagesHash) ""
     || (length input.(ss_Embedding) =? 0)%nat
  then Err (EMsg "invalid semantic cache store input") else Ok tt.

Definition validateSemanticLookupInput (input : SemanticLookupInput) : result unit :=
  if (input.(sl_OrgID) =? Nil)%N || String.eqb (TrimSpace input.(sl_RequestedModel)) ""
     || (length input.(sl_Embedding) =? 0)%nat
  then Err (EMsg "invalid semantic cache lookup input")
  else if f64_le input.(sl_Threshold) f64_zero || f64_lt f64_one input.(sl_Threshold)
  then Err (EMsg "semantic cache threshold must be greater than 0 and less than or equal to 1") else Ok tt.

Definition noMatch : SemanticMatch :=
  mkSemanticMatch "" "" f64_zero (mkCachedChatResponse Nil Nil "" "" "" "" "" ZeroTime).

Definition SemanticCache_Store (cache : option SemanticCache) (input : SemanticStoreInput) : M SemanticMatch :=
  match cache with
  | None => mret noMatch
  | Some c =>
      _ ← lift (validateSemanticStoreInput input);
      if c.(sc_ttl) <=? 0 then fail (EMsg "semantic cache ttl must be greater than zero")
      else
        let cacheKeyHash := semanticCacheKeyHash input.(ss_OrgID) input.(ss_RequestedModel) input.(ss_MessagesHash) in
        createdAt ← clock;
        let response := if IsZero input.(ss_Response).(ca_CachedAt) then set_cachedAt createdAt input.(ss_Response)
                        else input.(ss_Response) in
        sealedResponse ← codec_Seal c.(sc_responses) response;
        body ← lift (marshalItem (mksemanticItem cacheKeyHash input.(ss_MessagesHash) (TrimSpace input.(ss_RequestedModel))
                                    input.(ss_Embedding) sealedResponse createdAt));
        let itemKey := semanticItemKey input.(ss_OrgID) input.(ss_RequestedModel) cacheKeyHash in
        _ ← redis_write (SET itemKey body c.(sc_ttl));
        _ ← redis_write (SADD (semanticIndexKey input.(ss_OrgID) input.(ss_RequestedModel)) itemKey);
        mret (mkSemanticMatch cacheKeyHash input.(ss_MessagesHash) f64_one response)
  end.

(** One turn of the loop over the index: [best] is the best match so far. *)
Definition consider (c : SemanticCache) (input : SemanticLookupInput) (best : SemanticMatch) (key : string) : M SemanticMatch :=
  let index := semanticIndexKey input.(sl_OrgID) input.(sl_RequestedModel) in
  raw ← redis_GET key;
  match raw with
  | None => _ ← try (redis_write (SREM index key)); mret best
  | Some raw =>
      match unmarshalItem raw with
      | Err _ => mret best
      | Ok item =>
          let score := CosineSimilarity input.(sl_Embedding) item.(si_Embedding) in
          if f64_lt best.(sm_Similarity) score then
            match codec_Open c.(sc_responses) item.(si_Response) with
            | Err EPanic => fail EPanic
            | Err _ => _ ← try (redis_write (DEL key)); _ ← try (redis_write (SREM index key)); mret best
            | Ok response => mret (mkSemanticMatch item.(si_CacheKeyHash) item.(si_MessagesHash) score response)
            end
          else mret best
      end
  end.

Definition SemanticCache_Lookup (cache : option SemanticCache) (input : SemanticLookupInput) : M SemanticMatch :=
  match cache with
  | None => fail ErrSemanticCacheMiss
  | Some c =>
      _ ← lift (validateSemanticLookupInput input);
      keys ← redis_SMEMBERS (semanticIndexKey input.(sl_OrgID) input.(sl_RequestedModel));
      best ← forM keys noMatch (consider c input);
      if String.eqb best.(sm_CacheKeyHash) "" || f64_lt best.(sm_Similarity) input.(sl_Threshold)
      then fail ErrSemanticCacheMiss else mret best
  end.

(** ** The mock embedding *)

Definition alphanumeric (c : ascii) : bool := in_bytes 48 57 c || in_bytes 65 90 c || in_bytes 97 122 c.

(** [strings.FieldsFunc] on ASCII text. *)
Fixpoint fields (s word : string) : list string :=
  let flush := if String.eqb word "" then [] else [revString word] in
  match s with
  | EmptyString => flush
  | String c s' => if alphanumeric c then fields s' (String c word) else flush ++ fields s' ""
  end.

Definition tokenize (value : string) : list string :=
  let lower := ToLower value in
  if is_ascii lower then fields lower "" else unicode_fields lower.

(** [binary.BigEndian.Uint64(sum[:8]) % mockDimension]. *)
Fixpoint bigEndian (bytes : nat) (s : string) (acc : N) : N :=
  match bytes, s with
  | S n, String c s' => bigEndian n s' (acc * 256 + byte_of c)
  | _, _ => acc
  end.
Definition slot (token : string) : nat := N.to_nat (bigEndian 8 (sha256_sum token) 0 mod N.of_nat mockDimension).

Definition counted (vector : list float64) (token : string) : list float64 :=
  alter (λ v, f64_add v f64_one) (slot token) vector.

Definition normalize (vector : list float64) : list float64 :=
  let sum := fold_left (λ acc v, f64_add acc (f64_mul v v)) vector f64_zero in
  if f64_eq sum f64_zero then vector else map (λ v, f64_div v (f64_sqrt sum)) vector.

Definition Embed (text : string) : list float64 :=
  normalize (fold_left counted (tokenize text) (repeat f64_zero mockDimension)).
(** ** Proofs: the exact cache *)

Lemma adds_codec_Seal P c r : adds P (codec_Seal c r).
Proof. unfold codec_Seal, box_Seal, rand_Read. destruct (rc_box c); eauto 9 with adds. Qed.

Lemma codec_Seal_ok c r w sealed w' :
  codec_Seal c r w = (Ok sealed, w') →
  w_trace w' = w_trace w ∧ codec_Open c sealed = unmarshalResponse (marshalResponse r).
Proof.
  intros H'. pose proof (adds_codec_Seal (λ _, False) c r _ _ _ H') as (more & Ht & Hn).
  assert (more = []) as -> by (by destruct Hn). rewrite app_nil_r in Ht. split; [done|].
  unfold codec_Seal in H'. unfold codec_Open. destruct (rc_box c) as [box|]; [|by apply fail_ok in H'].
  apply bind_ok in H' as (s & w1 & Hs & [<- <-]%ret_ok). unfold box_Seal in Hs.
  apply bind_ok in Hs as (nonce & w2 & (_ & Hlen & _)%rand_Read_ok & [<- <-]%ret_ok). simpl.
  unfold box_Open. rewrite !StdDecode_encode, Hlen, gcm_open_seal. simpl.
  rewrite (proj2 (String.eqb_neq _ _)) by apply StdEncode_nonempty, gcm_seal_tag.
  rewrite (proj2 (String.eqb_neq _ _)); [done|]. apply StdEncode_nonempty. by intros ->.
Qed.

(** An answer as it is stored: with the time it was stored at. *)
Definition stored_as (item stored : CachedChatResponse) : Prop :=
  stored = item ∨ (IsZero item.(ca_CachedAt) = true ∧ ∃ now, stored = set_cachedAt now item).

Lemma dated_ok item w item' w' :
  dated item w = (Ok item', w') → w_trace w' = w_trace w ∧ stored_as item item'.
Proof.
  unfold dated. destruct (IsZero _) eqn:E.
  - intros (now & w1 & Hc & [<- <-]%ret_ok)%bind_ok. injection Hc as _ <-. split; [done|]. right. eauto.
  - intros [<- <-]%ret_ok. split; [done|]. by left.
Qed.

(** What a [PromptCache_Set] may send to the server. *)
Definition sets_item (c : PromptCache) (key : PromptKey) (item : CachedChatResponse) (e : effect) : Prop :=
  ∃ sealed stored ttl, e = EffRedis (SET key.(pk_RedisKey) (marshalSealed sealed) ttl) ∧ stored_as item stored ∧
    codec_Open c.(pc_responses) sealed = unmarshalResponse (marshalResponse stored).

Lemma adds_Set c key item : adds (sets_item c key item) (PromptCache_Set (Some c) key item).
Proof.
  intros w r w' H'. unfold PromptCache_Set in H'. destruct (_ <=? 0).
  { injection H' as _ <-. exists []. by rewrite app_nil_r. }
  apply bind_cases in H' as [(stored & w1 & Hd & H')|(e & Hd & ->)].
  2: { unfold dated in Hd. by destruct (IsZero _). }
  apply dated_ok in Hd as [Ht1 Hst]. apply bind_cases in H' as [(sealed & w2 & Hs & H')|(e & Hs & ->)].
  2: { apply adds_codec_Seal with (P := sets_item c key item) in Hs. by rewrite Ht1 in Hs. }
  apply codec_Seal_ok in Hs as [Ht2 Hopen]. rewrite <- Ht1, <- Ht2.
  eapply adds_write; [|exact H']. by exists sealed, stored, (pc_ttl c).
Qed.

Lemma adds_Get c key : adds (λ e, e = EffRedis (DEL key.(pk_RedisKey))) (PromptCache_Get c key).
Proof.
  unfold PromptCache_Get. destruct c as [c|]; [|eauto with adds]. apply adds_bind; [eauto with adds|].
  intros [raw|]; [|eauto with adds]. apply adds_bind; [eauto with adds|]. intros sealed.
  destruct (codec_Open _ _) as [|[]]; eauto 6 with adds.
Qed.

Lemma Get_ok c key w item w' :
  PromptCache_Get (Some c) key w = (Ok item, w') →
  ∃ raw sealed, was_set key.(pk_RedisKey) raw (w_trace w) ∧ unmarshalSealed raw = Ok sealed ∧
    codec_Open c.(pc_responses) sealed = Ok item.
Proof.
  unfold PromptCache_Get. intros (raw & w1 & Hg & H')%bind_ok. apply redis_GET_cases in Hg as [_ Hv].
  destruct raw as [raw|]; [|by apply fail_ok in H']. destruct Hv as [n Hv]. destruct (redis_gone n _); [done|].
  apply bind_ok in H' as (sealed & w2 & [Hs <-]%lift_ok & H'). exists raw, sealed.
  split; [by apply value_was_set|]. split; [done|].
  destruct (codec_Open _ _) as [item'|[]] eqn:E; try (by apply fail_ok in H');
    try (apply bind_ok in H' as (? & ? & _ & H'); by apply fail_ok in H'). by apply ret_ok in H' as [-> _].
Qed.

(** ** Which prompts share a key *)

(** Two requests the exact cache does not tell apart. *)
Definition same_prompt (a b : PromptKeyInput) : Prop :=
  uuidString a.(pi_OrgID) = uuidString b.(pi_OrgID) ∧ TrimSpace a.(pi_RequestedModel) = TrimSpace b.(pi_RequestedModel) ∧
  a.(pi_Messages) = b.(pi_Messages) ∧ floatPtrKey a.(pi_Temperature) = floatPtrKey b.(pi_Temperature) ∧
  intPtrKey a.(pi_MaxTokens) = intPtrKey b.(pi_MaxTokens).

Lemma BuildPromptKey_ok input key :
  BuildPromptKey input = Ok key →
  let messagesHash := sha256Hex (marshal (JArr (map messageJSON input.(pi_Messages)))) in
  key.(pk_CacheKeyHash) = sha256Hex (marshal (promptKeyPayload input messagesHash)) ∧
  key.(pk_RedisKey) = redisKeyPrefix +:+ ":" +:+ uuidString input.(pi_OrgID) +:+ ":" +:+ key.(pk_CacheKeyHash).
Proof.
  unfold BuildPromptKey. destruct (_ =? Nil)%N; [done|]. destruct (String.eqb _ ""); [done|].
  destruct (pi_Messages input) as [|m l]; [done|]. by intros [= <-].
Qed.

(** Keys agree exactly for such requests. *)
Lemma RedisKey_same `{!PerfectDigest} a b ka kb :
  BuildPromptKey a = Ok ka → BuildPromptKey b = Ok kb → ka.(pk_RedisKey) = kb.(pk_RedisKey) ↔ same_prompt a b.
Proof.
  intros [Ha Ra]%BuildPromptKey_ok [Hb Rb]%BuildPromptKey_ok. rewrite Ra, Rb. split.
  - intros He%string_app_cancel%string_app_cancel.
    apply (string_app_inj (uuidString _) (uuidString _)) in He as (Ho & He%string_app_cancel);
      [|by rewrite !uuidString_length]. rewrite Ha, Hb in He.
    apply hexEncode_inj, digest_text, marshal_payload in He as (_ & Hm & Hh & Ht & Hx).
    apply hexEncode_inj, digest_text, marshal_messages in Hh. unfold same_prompt. tauto.
  - intros (Ho & Hm & Hl & Ht & Hx). rewrite Ha, Hb. unfold promptKeyPayload, jUUID. by rewrite Ho, Hm, Hl, Ht, Hx.
Qed.

(** ** The exact cache answers what was stored for the same prompt *)

(** An effect that writes no key of a cache. *)
Definition spares (prefix : string) (e : effect) : Prop :=
  match e with EffRedis (SET k _ _) | EffRedis (SADD k _) => ∀ rest, k ≠ prefix +:+ rest | _ => True end.
Definition promptPrefix : string := redisKeyPrefix +:+ ":".

(** A text somebody wrote who does not have the cache's key: if it is an entry at
    all, its ciphertext does not authenticate under that key. *)
Definition forged (c : PromptCache) (raw : string) : Prop :=
  ∀ sealed box nonce ciphertext, unmarshalSealed raw = Ok sealed → c.(pc_responses).(rc_box) = Some box →
    StdDecode sealed.(ec_Nonce) = Some nonce → StdDecode sealed.(ec_Encrypted) = Some ciphertext →
    gcm_open box.(box_key) nonce ciphertext = None.

(** A trace in which the cache stored the listed answers, whatever calls failed.
    Others may write forged texts under the cache's keys, or anything at all
    under other keys; with [copies], they may also copy an entry as it is from
    one key to another. *)
Inductive prompt_history (c : PromptCache) (copies : bool) : list (PromptKeyInput * CachedChatResponse) → list effect → Prop :=
| ph_start : prompt_history c copies [] []
| ph_other T trace e : prompt_history c copies T trace → spares promptPrefix e → prompt_history c copies T (trace ++ [e])
| ph_foreign T trace key raw ttl :
    prompt_history c copies T trace →
    forged c raw ∨ (copies = true ∧ ∃ from, was_set (promptPrefix +:+ from) raw trace) →
    prompt_history c copies T (trace ++ [EffRedis (SET key raw ttl)])
| ph_set T input key item w r w' :
    prompt_history c copies T (w_trace w) → BuildPromptKey input = Ok key → PromptCache_Set (Some c) key item w = (r, w') →
    prompt_history c copies ((input, item) :: T) (w_trace w').

Lemma prompt_history_others c copies T trace more :
  prompt_history c copies T trace → Forall (spares promptPrefix) more → prompt_history c copies T (trace ++ more).
Proof.
  intros Hh Hm. revert trace Hh. induction Hm as [|e more He _ IH]; intros trace Hh; [by rewrite app_nil_r|].
  replace (trace ++ e :: more) with ((trace ++ [e]) ++ more) by by rewrite <- app_assoc.
  apply IH. by constructor.
Qed.

(** What opens is not forged. *)
Lemma Open_not_forged c raw sealed answer :
  unmarshalSealed raw = Ok sealed → codec_Open c.(pc_responses) sealed = Ok answer → ¬ forged c raw.
Proof.
  intros Hun Hopen Hf. unfold codec_Open in Hopen. destruct (rc_box _) as [box|] eqn:Eb; [|done].
  destruct (_ || _); [done|]. apply result_bind_ok in Hopen as (text & Hb & _). unfold box_Open in Hb.
  destruct (StdDecode (ec_Encrypted sealed)) as [ct|] eqn:Ec; [|done]. destruct (StdDecode (ec_Nonce sealed)) as [n|] eqn:En; [|done].
  destruct (negb _); [done|]. by rewrite (Hf _ _ _ _ Hun Eb En Ec) in Hb.
Qed.

Lemma prompt_history_set c copies T trace key raw :
  prompt_history c copies T trace → was_set (promptPrefix +:+ key) raw trace → ¬ forged c raw →
  ∃ input item, (input, item) ∈ T ∧
    (copies = false → ∃ k, BuildPromptKey input = Ok k ∧ promptPrefix +:+ key = k.(pk_RedisKey)) ∧
    ∃ sealed stored, raw = marshalSealed sealed ∧ stored_as item stored ∧
      codec_Open c.(pc_responses) sealed = unmarshalResponse (marshalResponse stored).
Proof.
  intros Hh. revert key raw. induction Hh as [|T trace e Hh IH He|T trace k' raw' ttl' Hh IH He|T input k item w r w' Hh IH Hk Hset];
    intros key raw [ttl Hin] Hnf.
  - by apply elem_of_nil in Hin.
  - apply elem_of_app in Hin as [Hin| <-%list_elem_of_singleton]; [by apply (IH key); [exists ttl|]|].
    by destruct (He key).
  - apply elem_of_app in Hin as [Hin|Hin%list_elem_of_singleton]; [by apply (IH key); [exists ttl|]|].
    injection Hin as <- <- <-. destruct He as [|[-> [from Hfrom]]]; [done|].
    destruct (IH from raw Hfrom Hnf) as (i & it & HT & _ & H'). by exists i, it.
  - apply adds_Set in Hset as (more & Ht & Hmore). rewrite Ht in Hin. apply elem_of_app in Hin as [Hin|Hin].
    + destruct (IH key raw) as (i & it & HT & H'); [by exists ttl|done|]. exists i, it. split; [by right|done].
    + rewrite List.Forall_forall in Hmore. apply list_elem_of_In in Hin.
      destruct (Hmore _ Hin) as (sealed & stored & ttl' & [= Hkey Hraw _] & Hst & Hopen).
      exists input, item. split; [by left|]. split; [intros _; by exists k|]. by exists sealed, stored.
Qed.

Lemma BuildPromptKey_prefixed input key : BuildPromptKey input = Ok key → ∃ rest, key.(pk_RedisKey) = promptPrefix +:+ rest.
Proof. intros [_ ->]%BuildPromptKey_ok. by eexists. Qed.

(** C20: the exact cache never mixes prompts up. However its writes fail and
    whatever expires, and whatever texts that do not authenticate under its key
    others write into its entries, an answer it gives for a request was stored
    for a request of the same organisation, model, messages, temperature and
    token limit, and is that answer, unchanged but for the time it was stored
    at. Somebody who copies whole entries from key to key can make it answer one
    prompt with the answer to another ([sealed_entry_moves]), but then too only
    with an answer it has stored. *)
Theorem prompt_cache_sound `{!PerfectDigest, !FaithfulJSON} (c : PromptCache) copies T input key (w w' : world) r :
  prompt_history c copies T (w_trace w) → BuildPromptKey input = Ok key → PromptCache_Get (Some c) key w = (r, w') →
  prompt_history c copies T (w_trace w') ∧
  match r with
  | Ok answer => ∃ input' item, (input', item) ∈ T ∧ stored_as item answer ∧ (copies = false → same_prompt input' input)
  | Err _ => True
  end.
Proof.
  intros Hh Hk H'. split.
  { destruct (adds_Get _ _ _ _ _ H') as (more & -> & Hm). apply prompt_history_others; [done|].
    eapply Forall_impl; [|exact Hm]. by intros e ->. }
  destruct r as [answer|]; [|done]. apply Get_ok in H' as (raw & sealed & Hset & Hun & Hopen).
  destruct (BuildPromptKey_prefixed _ _ Hk) as [rest Hrest]. rewrite Hrest in Hset.
  destruct (prompt_history_set _ _ _ _ _ _ Hh Hset (Open_not_forged _ _ _ _ Hun Hopen))
    as (input' & item & HT & Hsame & s' & stored & -> & Hst & Ho).
  rewrite json_sealed in Hun. injection Hun as <-. rewrite Ho, json_response in Hopen. injection Hopen as ->.
  exists input', item. split_and!; [done..|]. intros Hc. destruct (Hsame Hc) as (k & Hk' & Hkey).
  apply (RedisKey_same _ _ _ _ Hk' Hk). congruence.
Qed.

(** What a stored entry is, and that it reads back under any key it stands at. *)
Lemma Set_stored `{!FaithfulJSON} (c : PromptCache) (key : PromptKey) (item : CachedChatResponse) (w w1 : world) :
  PromptCache_Set (Some c) key item w = (Ok tt, w1) →
  ∃ trace raw, w_trace w1 = trace ++ [EffRedis (SET key.(pk_RedisKey) raw c.(pc_ttl))] ∧
    ∃ answer, stored_as item answer ∧ ∀ (key' : PromptKey) w2,
      value_of key'.(pk_RedisKey) (w_trace w2) = Some raw → w_faults w2 = [] → redis_gone (w_fresh w2) key'.(pk_RedisKey) = false →
      ∃ w3, PromptCache_Get (Some c) key' w2 = (Ok answer, w3).
Proof.
  unfold PromptCache_Set. intros Hset. destruct (_ <=? 0); [by apply fail_ok in Hset|].
  apply bind_ok in Hset as (stored & w2 & [_ Hst]%dated_ok & H').
  apply bind_ok in H' as (sealed & w3 & [_ Hopen]%codec_Seal_ok & H'). apply redis_write_ok in H' as (trace & Ht).
  exists trace, (marshalSealed sealed). split; [done|]. exists stored. split; [done|]. intros key' w4 Hv Hf Hg.
  unfold PromptCache_Get. destruct (redis_GET_run key'.(pk_RedisKey) w4 Hf Hg) as (w5 & Hget).
  rewrite (bind_run _ _ _ _ _ Hget), Hv. simpl.
  rewrite json_sealed. unfold lift. rewrite (bind_run _ _ w5 sealed w5) by done. rewrite Hopen, json_response. by eexists.
Qed.

(** The ciphertext is not bound to the key it stands under: copied to the key of
    any other prompt, of another organisation even, the entry is answered there. *)
Theorem sealed_entry_moves `{!FaithfulJSON} (c : PromptCache) (key key' : PromptKey) (item : CachedChatResponse) (w w1 : world) :
  PromptCache_Set (Some c) key item w = (Ok tt, w1) →
  ∃ raw, was_set key.(pk_RedisKey) raw (w_trace w1) ∧ ∀ w2 ttl,
    w_trace w2 = w_trace w1 ++ [EffRedis (SET key'.(pk_RedisKey) raw ttl)] → w_faults w2 = [] →
    redis_gone (w_fresh w2) key'.(pk_RedisKey) = false →
    ∃ answer w3, PromptCache_Get (Some c) key' w2 = (Ok answer, w3) ∧ stored_as item answer.
Proof.
  intros (trace & raw & Ht & answer & Hst & Hget)%Set_stored. exists raw.
  split; [rewrite Ht; exists c.(pc_ttl); apply elem_of_app; right; by apply list_elem_of_singleton|].
  intros w2 ttl Hw Hf Hg. destruct (Hget key' w2) as (w3 & H'); [|done..|by eexists _, w3].
  rewrite Hw, value_of_snoc. simpl. by rewrite String.eqb_refl.
Qed.

(** What the exact cache has just stored it gives back: when no call fails
    and the key has not gone, the lookup that follows answers the stored item,
    with the time it was stored at if it had none. *)
Theorem prompt_cache_roundtrip `{!FaithfulJSON} (c : PromptCache) (key : PromptKey) (item : CachedChatResponse) (w w1 : world) :
  PromptCache_Set (Some c) key item w = (Ok tt, w1) → w_faults w1 = [] →
  redis_gone (w_fresh w1) key.(pk_RedisKey) = false →
  ∃ answer w2, PromptCache_Get (Some c) key w1 = (Ok answer, w2) ∧ stored_as item answer.
Proof.
  intros (trace & raw & Ht & answer & Hst & Hget)%Set_stored Hf Hg. destruct (Hget key w1) as (w2 & H'); [|done..|by eexists _, w2].
  rewrite Ht, value_of_snoc. simpl. by rewrite String.eqb_refl.
Qed.

(** ** Proofs: the semantic cache *)

(** A stored item that the cache can read, and what it would answer with it. *)
Definition readable (c : SemanticCache) (raw : string) (item : semanticItem) (answer : CachedChatResponse) : Prop :=
  unmarshalItem raw = Ok item ∧ codec_Open c.(sc_responses) item.(si_Response) = Ok answer.

(** A match that the loop has found under a key of the index. *)
Definition found (c : SemanticCache) (input : SemanticLookupInput) (trace : list effect) (best : SemanticMatch) : Prop :=
  ∃ key raw item, EffRedis (SADD (semanticIndexKey input.(sl_OrgID) input.(sl_RequestedModel)) key) ∈ trace ∧
    was_set key raw trace ∧ readable c raw item best.(sm_Response) ∧
    best.(sm_CacheKeyHash) = item.(si_CacheKeyHash) ∧ best.(sm_MessagesHash) = item.(si_MessagesHash) ∧
    best.(sm_Similarity) = CosineSimilarity input.(sl_Embedding) item.(si_Embedding) ∧
    f64_lt f64_zero best.(sm_Similarity) = true.

(** The stored items of the index are no better than [best]. *)
Definition beaten (c : SemanticCache) (input : SemanticLookupInput) (trace : list effect) (best : SemanticMatch) (key : string) : Prop :=
  ∀ raw item answer, (∀ n, redis_gone n key = false) → value_of key trace = Some raw → readable c raw item answer →
    f64_lt best.(sm_Similarity) (CosineSimilarity input.(sl_Embedding) item.(si_Embedding)) = false.

(** Cleaning up a key touches no other. *)
Definition cleans (index key : string) (e : effect) : Prop := e = EffRedis (DEL key) ∨ e = EffRedis (SREM index key).
Definition cleaned (index : string) (keys : list string) (e : effect) : Prop := ∃ key, key ∈ keys ∧ cleans index key e.

Lemma value_of_others index keys k trace more :
  k ∉ keys → Forall (cleaned index keys) more → value_of k (trace ++ more) = value_of k trace.
Proof.
  intros Hk Hm. induction more as [|e more IH] using rev_ind; [by rewrite app_nil_r|].
  apply Forall_app in Hm as [Hm He]. rewrite Forall_singleton in He. rewrite app_assoc, value_of_snoc, IH by done.
  destruct He as (key & Hin & [-> | ->]); simpl; [|done]. rewrite (proj2 (String.eqb_neq _ _)); [done|]. by intros ->.
Qed.

Lemma cleaned_no_set index keys more k v trace :
  Forall (cleaned index keys) more → was_set k v (trace ++ more) → was_set k v trace.
Proof.
  intros Hm [ttl Hin]. apply elem_of_app in Hin as [Hin|Hin]; [by exists ttl|]. rewrite List.Forall_forall in Hm.
  apply list_elem_of_In, Hm in Hin as (key & _ & [?|?]); done.
Qed.

Lemma adds_consider c input best key :
  adds (cleans (semanticIndexKey input.(sl_OrgID) input.(sl_RequestedModel)) key) (consider c input best key).
Proof.
  unfold consider. apply adds_bind; [eauto with adds|]. intros [raw|].
  2: { apply adds_bind; [apply adds_try, adds_write; by right|eauto with adds]. }
  destruct (unmarshalItem raw); [|eauto with adds]. case_match; [|eauto with adds].
  destruct (codec_Open _ _) as [|[]]; try (eauto with adds);
    (apply adds_bind; [apply adds_try, adds_write; by left|intros _]; apply adds_bind;
      [apply adds_try, adds_write; by right|eauto with adds]).
Qed.

Lemma consider_ok c input best key w best' w' :
  consider c input best key w = (Ok best', w') →
  (best' = best ∨ ∃ raw item, was_set key raw (w_trace w) ∧ readable c raw item best'.(sm_Response) ∧
    best'.(sm_CacheKeyHash) = item.(si_CacheKeyHash) ∧ best'.(sm_MessagesHash) = item.(si_MessagesHash) ∧
    best'.(sm_Similarity) = CosineSimilarity input.(sl_Embedding) item.(si_Embedding) ∧
    f64_lt best.(sm_Similarity) best'.(sm_Similarity) = true) ∧
  beaten c input (w_trace w) best' key.
Proof.
  unfold consider. intros (raw & w1 & Hg & H')%bind_ok. apply redis_GET_cases in Hg as (_ & n & Hv).
  destruct raw as [raw|].
  2: { apply bind_ok in H' as (? & ? & _ & [<- _]%ret_ok). split; [by left|]. intros raw item answer Hng Hval _.
       by rewrite Hng, Hval in Hv. }
  destruct (redis_gone n key); [done|]. symmetry in Hv. pose proof (value_was_set _ _ _ Hv) as Hset.
  assert (Hbeat : ∀ b : SemanticMatch, (∀ item answer, readable c raw item answer →
    f64_lt b.(sm_Similarity) (CosineSimilarity input.(sl_Embedding) item.(si_Embedding)) = false) →
    beaten c input (w_trace w) b key).
  { intros b Hb raw' item answer _ Hval Hread. rewrite Hv in Hval. injection Hval as <-. by eapply Hb. }
  destruct (unmarshalItem raw) as [item|] eqn:Hun.
  2: { apply ret_ok in H' as [<- _]. split; [by left|]. apply Hbeat. intros item answer [Hu _]. congruence. }
  destruct (f64_lt _ _) eqn:Hlt.
  2: { apply ret_ok in H' as [<- _]. split; [by left|]. apply Hbeat. intros item' answer [Hu _]. congruence. }
  destruct (codec_Open _ _) as [answer|e] eqn:Hop.
  - apply ret_ok in H' as [<- _]. split.
    + right. exists raw, item. by split_and!.
    + apply Hbeat. intros item' a [Hu _]. rewrite Hun in Hu. injection Hu as <-. apply f64_lt_irrefl.
  - assert (best' = best) as ->.
    { destruct e; try (by apply fail_ok in H');
        apply bind_ok in H' as (? & ? & _ & H'); apply bind_ok in H' as (? & ? & _ & [-> _]%ret_ok); done. }
    split; [by left|]. apply Hbeat. intros item' a [Hu Ho]. rewrite Hun in Hu. injection Hu as <-. congruence.
Qed.

(** The loop over the keys of the index. *)
Lemma considered c input trace keys w r w' :
  w_trace w = trace → NoDup keys →
  (∀ k, k ∈ keys → EffRedis (SADD (semanticIndexKey input.(sl_OrgID) input.(sl_RequestedModel)) k) ∈ trace) →
  forM keys noMatch (consider c input) w = (r, w') →
  match r with
  | Ok best => (best = noMatch ∨ found c input trace best) ∧ ∀ k, k ∈ keys → beaten c input trace best k
  | Err _ => True
  end.
Proof.
  intros Htr Hnd Hidx H'. set (index := semanticIndexKey _ _) in *.
  assert (Hgen : match r with
    | Ok best => (∃ more, w_trace w' = trace ++ more ∧ Forall (cleaned index keys) more) ∧
        (best = noMatch ∨ found c input trace best) ∧ ∀ k, k ∈ keys → beaten c input trace best k
    | Err _ => True end); [|by destruct r; [apply Hgen|]].
  revert H'. apply (forM_split (λ seen best w1,
    (∃ more, w_trace w1 = trace ++ more ∧ Forall (cleaned index seen) more) ∧
    (best = noMatch ∨ found c input trace best) ∧ ∀ k, k ∈ seen → beaten c input trace best k) (λ _, True)).
  2: { split; [exists []; by rewrite app_nil_r|]. split; [by left|]. by intros k ?%elem_of_nil. }
  intros seen key rest best w1 r1 w2 Hkeys ((more & Ht1 & Hm1) & Hbest & Hseen) H'.
  destruct r1 as [best'|]; [|done].
  assert (Hnew : key ∉ seen).
  { rewrite Hkeys in Hnd. apply list.NoDup_app in Hnd as (_ & Hnd & _). intros Hk. apply (Hnd key Hk). by left. }
  pose proof (adds_consider _ _ _ _ _ _ _ H') as (more2 & Ht2 & Hm2).
  apply consider_ok in H' as [Hc Hbeat]. rewrite Ht1 in Hc, Hbeat. split; [|split].
  - exists (more ++ more2). rewrite Ht2, Ht1, app_assoc. split; [done|]. apply Forall_app. split.
    + eapply Forall_impl; [|exact Hm1]. intros e (k & Hk & He). exists k. split; [|done]. apply elem_of_app. by left.
    + eapply Forall_impl; [|exact Hm2]. intros e He. exists key. split; [|done]. apply elem_of_app. right. by left.
  - destruct Hc as [->|(raw & item & Hset & Hread & E1 & E2 & E3 & Hlt)]; [done|]. right.
    exists key, raw, item. split; [apply Hidx; rewrite Hkeys; apply elem_of_app; right; by left|].
    split; [by eapply cleaned_no_set|]. split_and!; try done.
    destruct Hbest as [->|Hf]; [done|]. destruct Hf as (_ & _ & _ & _ & _ & _ & _ & _ & _ & Hpos).
    by eapply f64_lt_trans.
  - intros k [Hk| ->%list_elem_of_singleton]%elem_of_app.
    + intros raw item answer Hng Hval Hread. specialize (Hseen k Hk raw item answer Hng Hval Hread).
      destruct Hc as [->|(_ & _ & _ & _ & _ & _ & _ & Hlt)]; [done|]. by eapply f64_lt_mono.
    + intros raw item answer Hng Hval. apply Hbeat; [done|]. by rewrite (value_of_others index seen).
Qed.

(** ** The semantic cache answers for the same organisation and model *)

(** What [SemanticCache_Store] may send to the server. *)
Definition stores_item (c : SemanticCache) (input : SemanticStoreInput) (e : effect) : Prop :=
  let itemKey := semanticItemKey input.(ss_OrgID) input.(ss_RequestedModel)
                   (semanticCacheKeyHash input.(ss_OrgID) input.(ss_RequestedModel) input.(ss_MessagesHash)) in
  e = EffRedis (SADD (semanticIndexKey input.(ss_OrgID) input.(ss_RequestedModel)) itemKey) ∨
  ∃ item body ttl stored, e = EffRedis (SET itemKey body ttl) ∧ marshalItem item = Ok body ∧
    item.(si_MessagesHash) = input.(ss_MessagesHash) ∧ item.(si_Embedding) = input.(ss_Embedding) ∧
    stored_as input.(ss_Response) stored ∧
    codec_Open c.(sc_responses) item.(si_Response) = unmarshalResponse (marshalResponse stored).

Lemma adds_Store c input : adds (stores_item c input) (SemanticCache_Store (Some c) input).
Proof.
  intros w r w' H'. unfold SemanticCache_Store in H'.
  assert (Hnone : ∀ w1 w2, w_trace w2 = w_trace w1 → ∃ more, w_trace w2 = w_trace w1 ++ more ∧ Forall (stores_item c input) more).
  { intros w1 w2 ->. exists []. by rewrite app_nil_r. }
  apply bind_cases in H' as [([] & w1 & [_ <-]%lift_ok & H')|(e & [= _ <-] & _)]; [|by apply Hnone].
  destruct (_ <=? 0); [injection H' as _ <-; by apply Hnone|].
  apply bind_cases in H' as [(now & w1 & Hc & H')|(e & Hc & _)]; [|done]. injection Hc as Hnow <-.
  set (stored := if IsZero _ then _ else _) in H'.
  assert (Hst : stored_as input.(ss_Response) stored).
  { unfold stored, stored_as. destruct (IsZero _); [right; eauto|by left]. }
  apply bind_cases in H' as [(sealed & w2 & Hs & H')|(e & Hs & _)].
  2: { by apply adds_codec_Seal with (P := stores_item c input) in Hs. }
  apply codec_Seal_ok in Hs as [Ht2 Hopen]. simpl in Ht2.
  apply bind_cases in H' as [(body & w3 & [Hb <-]%lift_ok & H')|(e & [= _ <-] & _)]; [|by apply Hnone].
  rewrite <- Ht2. eapply adds_bind; [| |exact H'].
  - apply adds_write. right. by eexists _, body, _, stored.
  - intros ?. apply adds_bind; [|intros ?; by apply adds_nothing]. apply adds_write. by left.
Qed.

Definition semanticPrefix : string := semanticRedisKeyPrefix +:+ ":".

(** A trace in which the cache was asked to store the listed answers and nobody
    else wrote its keys. *)
Inductive semantic_history (c : SemanticCache) : list SemanticStoreInput → list effect → Prop :=
| sh_start : semantic_history c [] []
| sh_other T trace e : semantic_history c T trace → spares semanticPrefix e → semantic_history c T (trace ++ [e])
| sh_store T input w r w' :
    semantic_history c T (w_trace w) → SemanticCache_Store (Some c) input w = (r, w') →
    semantic_history c (input :: T) (w_trace w').

(** Every write of the cache's keys is of one of the stored inputs. *)
Lemma semantic_history_writes c T trace e :
  semantic_history c T trace → e ∈ trace → spares semanticPrefix e ∨ ∃ input, input ∈ T ∧ stores_item c input e.
Proof.
  induction 1 as [|T trace e' Hh IH He'|T input w r w' Hh IH Hst].
  - by intros ?%elem_of_nil.
  - intros [Hin|He%list_elem_of_singleton]%elem_of_app; [auto|left; by rewrite He].
  - apply adds_Store in Hst as (more & -> & Hm). intros [Hin|Hin]%elem_of_app.
    + destruct (IH Hin) as [?|(i & Hi & Hs)]; [by left|]. right. exists i. split; [by right|done].
    + right. exists input. split; [by left|]. rewrite List.Forall_forall in Hm. by apply Hm, list_elem_of_In.
Qed.

Definition same_index (org : uuid) (model : string) (input : SemanticStoreInput) : Prop :=
  uuidString input.(ss_OrgID) = uuidString org ∧ TrimSpace input.(ss_RequestedModel) = TrimSpace model.

Lemma semanticItemKey_inj `{!PerfectDigest} o m h o' m' h' :
  semanticItemKey o m h = semanticItemKey o' m' h' → uuidString o = uuidString o' ∧ TrimSpace m = TrimSpace m'.
Proof.
  intros He%string_app_cancel%string_app_cancel.
  apply (string_app_inj (uuidString _) (uuidString _)) in He as (Ho & He%string_app_cancel);
    [|by rewrite !uuidString_length].
  apply (f_equal cutColon) in He. rewrite !cutColon_app in He by apply hexEncode_colon.
  injection He as He _. by apply hexEncode_inj, digest_text in He.
Qed.

Lemma semanticIndexKey_inj `{!PerfectDigest} o m o' m' :
  semanticIndexKey o m = semanticIndexKey o' m' → uuidString o = uuidString o' ∧ TrimSpace m = TrimSpace m'.
Proof.
  intros He%string_app_cancel%string_app_cancel.
  apply (string_app_inj (uuidString _) (uuidString _)) in He as (Ho & He%string_app_cancel);
    [|by rewrite !uuidString_length]. by apply hexEncode_inj, digest_text in He.
Qed.

Lemma SET_inj k v t k' v' t' : EffRedis (SET k v t) = EffRedis (SET k' v' t') → k = k' ∧ v = v'.
Proof. by intros [= -> -> _]. Qed.
Lemma SADD_inj k v k' v' : EffRedis (SADD k v) = EffRedis (SADD k' v') → k = k' ∧ v = v'.
Proof. by intros [= -> ->]. Qed.

Lemma semantic_index_key `{!PerfectDigest} c T trace org model key :
  semantic_history c T trace → EffRedis (SADD (semanticIndexKey org model) key) ∈ trace →
  ∃ input, input ∈ T ∧ same_index org model input ∧
    key = semanticItemKey input.(ss_OrgID) input.(ss_RequestedModel)
            (semanticCacheKeyHash input.(ss_OrgID) input.(ss_RequestedModel) input.(ss_MessagesHash)).
Proof.
  intros Hh [Hsp|(input & HT & [He|(it & b & t & st & He & _)])]%(semantic_history_writes _ _ _ _ Hh); [|  |done].
  - by destruct (Hsp ("index:" +:+ uuidString org +:+ ":" +:+ sha256Hex (TrimSpace model))).
  - apply SADD_inj in He as [Hi Hk]. apply semanticIndexKey_inj in Hi as [Ho Hm]. by exists input.
Qed.

Lemma semantic_item_set `{!PerfectDigest} c T trace org model h raw :
  semantic_history c T trace → was_set (semanticItemKey org model h) raw trace →
  ∃ input item stored, input ∈ T ∧ same_index org model input ∧ marshalItem item = Ok raw ∧
    item.(si_MessagesHash) = input.(ss_MessagesHash) ∧ item.(si_Embedding) = input.(ss_Embedding) ∧
    stored_as input.(ss_Response) stored ∧
    codec_Open c.(sc_responses) item.(si_Response) = unmarshalResponse (marshalResponse stored).
Proof.
  intros Hh [ttl Hin]. apply (semantic_history_writes _ _ _ _ Hh) in Hin as [Hsp|(input & HT & [He|Hs])].
  - by destruct (Hsp ("item:" +:+ uuidString org +:+ ":" +:+ sha256Hex (TrimSpace model) +:+ ":" +:+ h)).
  - done.
  - destruct Hs as (item & body & t & stored & He & Hm & H1' & H2' & H3' & H4'). apply SET_inj in He as [Hk Hr].
    apply semanticItemKey_inj in Hk as [Ho Hmod]. exists input, item, stored. rewrite Hr.
    split; [done|]. split; [by split|]. by split_and!.
Qed.

(** The semantic cache answers with the best of what was stored for the
    organisation and model that ask. Whatever calls fail and whatever expires,
    a match was stored for the same organisation and model, carries that
    answer unchanged but for its time, has the cosine similarity of the two
    embeddings, positive and not below the threshold, and nothing the index
    still holds and the cache can read is more similar. *)
Theorem semantic_lookup_best `{!PerfectDigest, !FaithfulJSON} (c : SemanticCache) T input (w w' : world) (m : SemanticMatch) :
  semantic_history c T (w_trace w) → SemanticCache_Lookup (Some c) input w = (Ok m, w') →
  ∃ stored, stored ∈ T ∧ same_index input.(sl_OrgID) input.(sl_RequestedModel) stored ∧
    stored_as stored.(ss_Response) m.(sm_Response) ∧ m.(sm_MessagesHash) = stored.(ss_MessagesHash) ∧
    m.(sm_Similarity) = CosineSimilarity input.(sl_Embedding) stored.(ss_Embedding) ∧
    f64_lt f64_zero m.(sm_Similarity) = true ∧ f64_lt m.(sm_Similarity) input.(sl_Threshold) = false ∧
    ∀ key, key ∈ members_of (semanticIndexKey input.(sl_OrgID) input.(sl_RequestedModel)) (w_trace w) →
      beaten c input (w_trace w) m key.
Proof.
  intros Hh H'. unfold SemanticCache_Lookup in H'. apply bind_ok in H' as ([] & w1 & [_ <-]%lift_ok & H').
  apply bind_ok in H' as (keys & w2 & Hk & H'). apply redis_SMEMBERS_cases in Hk as [Ht2 Hkeys].
  apply bind_ok in H' as (best & w3 & Hf & H'). destruct (_ || _) eqn:Eg; [by apply fail_ok in H'|].
  apply ret_ok in H' as [<- <-]. apply orb_false_iff in Eg as [Ehash Ethr].
  set (index := semanticIndexKey _ _) in *.
  destruct Hkeys as [->|Hp]; [simpl in Hf; by apply ret_ok in Hf as [<- _]|].
  apply (considered c input (w_trace w)) in Hf as [Hbest Hall]; [|done| |].
  2: { rewrite Hp. apply members_of_NoDup. }
  2: { intros k Hin. apply member_was_added. fold index. by rewrite <- Hp. }
  destruct Hbest as [->|(key & raw & item & Hadd & Hset & [Hun Hop] & E1 & E2 & E3 & Hpos)]; [done|].
  destruct (semantic_index_key _ _ _ _ _ _ Hh Hadd) as (i0 & _ & [Ho Hm] & ->).
  destruct (semantic_item_set _ _ _ _ _ _ _ Hh Hset) as (i & item' & stored & HT & [Ho' Hm'] & Hmar & F1 & F2 & Hst & Hcod).
  apply json_item in Hmar. rewrite Hun in Hmar. apply Ok_inj in Hmar as <-.
  rewrite Hcod, json_response in Hop. apply Ok_inj in Hop as Hans.
  exists i. split; [done|]. split; [split; congruence|]. split; [by rewrite <- Hans|]. split_and!; try congruence.
  intros k Hin. apply Hall. by rewrite Hp.
Qed.

End service.

(** ** An example: a digest that is the text, an encoding by numbers *)

(** A text that ends where it says. *)
Fixpoint mark (s : string) : string :=
  match s with EmptyString => "0" | String c s' => String "1" (String c (mark s')) end.

Lemma mark_inj a b r r' : mark a +:+ r = mark b +:+ r' → a = b ∧ r = r'.
Proof.
  revert b. induction a as [|x a IH]; intros [|y b] E; injection E; try done.
  intros E' ->. by destruct (IH _ E') as [-> ->].
Qed.

(** Only what the cache hashes is written faithfully. *)
Definition ex_field (j : json) : string := match j with JStr s => mark s | _ => "" end.
Definition ex_marshal (j : json) : string :=
  match j with
  | JArr l => foldr (λ j acc, match j with JObj [(_, a); (_, b)] => "1" +:+ ex_field a +:+ ex_field b +:+ acc | _ => acc end) "" l
  | JObj l => foldr (λ f acc, ex_field f.2 +:+ acc) "" l
  | _ => ""
  end.

Definition ex_digests : Digests := {|
  marshal := ex_marshal;
  sha256_sum s := s;
  formatFloat _ := "0.5";
  jsonFloat _ := "0.5";
  unicode_fields _ := []
|}.

Lemma ex_marshal_fields (k1 k2 k3 k4 k5 a b c d e a' b' c' d' e' : string) :
  ex_marshal (JObj [(k1, JStr a); (k2, JStr b); (k3, JStr c); (k4, JStr d); (k5, JStr e)]) =
  ex_marshal (JObj [(k1, JStr a'); (k2, JStr b'); (k3, JStr c'); (k4, JStr d'); (k5, JStr e')]) →
  a = a' ∧ b = b' ∧ c = c' ∧ d = d' ∧ e = e'.
Proof.
  simpl. intros [-> [-> [-> [-> [-> _]%mark_inj]%mark_inj]%mark_inj]%mark_inj]%mark_inj. done.
Qed.

Lemma ex_perfect_digest : @PerfectDigest ex_digests.
Proof.
  split.
  - done.
  - intros l. induction l as [|[r c] l IH]; intros [|[r' c'] l']; simpl; try done.
    intros [= E]. apply mark_inj in E as [-> E]. apply mark_inj in E as [-> E]. f_equal. by apply IH.
  - intros a b h h' E. apply ex_marshal_fields in E. exact E.
Qed.

(** Records as numbers, and numbers as binary texts. *)
Fixpoint binary (p : positive) : string :=
  match p with xH => "" | xO p => String "0" (binary p) | xI p => String "1" (binary p) end.
Fixpoint unbinary (s : string) : positive :=
  match s with EmptyString => xH | String c s' => if Ascii.eqb c "0" then xO (unbinary s') else xI (unbinary s') end.

Lemma unbinary_binary p : unbinary (binary p) = p.
Proof. induction p; simpl; congruence. Qed.

Definition write `{Countable A} (a : A) : string := binary (encode a).
Definition read `{Countable A} (s : string) : result A :=
  match decode (unbinary s) with Some a => Ok a | None => Err (EMsg "unmarshal") end.

Lemma read_write `{Countable A} (a : A) : read (write a) = Ok a.
Proof. unfold read, write. by rewrite unbinary_binary, decode_encode. Qed.

#[local] Instance response_eq : EqDecision CachedChatResponse.
Proof. solve_decision. Defined.
#[local] Instance response_countable : Countable CachedChatResponse.
Proof.
  refine (inj_countable'
    (λ r, (r.(ca_ProviderID), r.(ca_ModelID), r.(ca_ProviderName), r.(ca_ProviderModel), r.(ca_Role), r.(ca_Content),
           r.(ca_FinishReason), r.(ca_CachedAt)))
    (λ '(a, b, c, d, e, f, g, h), mkCachedChatResponse a b c d e f g h) _). by intros [].
Defined.
#[local] Instance sealed_eq : EqDecision encryptedCachedChatResponse.
Proof. solve_decision. Defined.
#[local] Instance sealed_countable : Countable encryptedCachedChatResponse.
Proof.
  refine (inj_countable' (λ r, (r.(ec_Version), r.(ec_Encrypted), r.(ec_Nonce)))
    (λ '(a, b, c), mkencryptedCachedChatResponse a b c) _). by intros [].
Defined.
#[local] Instance float64_eq : EqDecision float64.
Proof. solve_decision. Defined.
#[local] Instance float64_countable : Countable float64.
Proof.
  refine (inj_countable'
    (λ x : float64, match x with
                    | S754_zero s => inl (inl s) | S754_infinity s => inl (inr s)
                    | S754_nan => inr (inl tt) | S754_finite s m e => inr (inr (s, m, e)) end)
    (λ x, match x with
          | inl (inl s) => S754_zero s | inl (inr s) => S754_infinity s
          | inr (inl _) => S754_nan | inr (inr (s, m, e)) => S754_finite s m e end) _). by intros [].
Defined.
#[local] Instance item_eq : EqDecision semanticItem.
Proof. solve_decision. Defined.
#[local] Instance item_countable : Countable semanticItem.
Proof.
  refine (inj_countable'
    (λ i, (i.(si_CacheKeyHash), i.(si_MessagesHash), i.(si_RequestedModel), i.(si_Embedding), i.(si_Response), i.(si_CreatedAt)))
    (λ '(a, b, c, d, e, f), mksemanticItem a b c d e f) _). by intros [].
Defined.

Definition ex_json : CacheJSON := {|
  marshalResponse := write;
  unmarshalResponse := read;
  marshalSealed := write;
  unmarshalSealed := read;
  marshalItem i := Ok (write i);
  unmarshalItem := read
|}.

Lemma ex_faithful : @FaithfulJSON ex_json.
Proof. split; simpl; intros; try apply read_write. match goal with E : _ = Ok _ |- _ => injection E as <- end. apply read_write. Qed.

Definition ex_redis : Redis := {|
  redis_gone _ _ := false;
  members_order _ l := l;
  members_order_perm _ _ := Permutation_refl _
|}.

#[local] Existing Instances ex_runtime ex_aead ex_digests ex_json ex_redis ex_perfect_digest ex_faithful.

Definition ex_prompt : PromptKeyInput :=
  mkPromptKeyInput 1%N " gpt " [mkChatMessage "user" "hello"] (Some f64_one%Q) (Some 100).
Definition ex_item : CachedChatResponse := mkCachedChatResponse 40%N 41%N "p" "m" "assistant" "hi" "stop" ZeroTime.
Definition ex_prompt_cache : PromptCache := mkPromptCache Minute (mkresponseCodec (Some (mkSecretBox ex_key1))).
Definition ex_prompt_key : PromptKey := match BuildPromptKey ex_prompt with Ok key => key | Err _ => noPromptKey end.

Notation ex_set := (PromptCache_Set (Some ex_prompt_cache) ex_prompt_key ex_item ex_world).
Notation ex_get := (PromptCache_Get (Some ex_prompt_cache) ex_prompt_key (snd ex_set)).

Lemma ex_prompt_facts :
  BuildPromptKey ex_prompt = Ok ex_prompt_key ∧ ex_set.1 = Ok tt ∧ w_faults ex_set.2 = [] ∧ is_ok ex_get.1 = true.
Proof. vm_compute. done. Qed.

(** Somebody without the key writes an entry under the prompt's key before. *)
Definition ex_forged : string := marshalSealed (mkencryptedCachedChatResponse 1 (StdEncode "forged") (StdEncode "twelve bytes")).
Definition ex_attacked : world := add_effect (EffRedis (SET ex_prompt_key.(pk_RedisKey) ex_forged Minute)) ex_world.
Notation ex_set_after := (PromptCache_Set (Some ex_prompt_cache) ex_prompt_key ex_item ex_attacked).
Notation ex_get_after := (PromptCache_Get (Some ex_prompt_cache) ex_prompt_key (snd ex_set_after)).

Lemma ex_forgery : forged ex_prompt_cache ex_forged.
Proof.
  intros sealed box nonce ct Hs [= <-] Hn Hc. unfold ex_forged in Hs. rewrite json_sealed in Hs. injection Hs as <-.
  vm_compute in Hn, Hc. injection Hn as <-. injection Hc as <-. vm_compute. reflexivity.
Qed.

Lemma ex_prompt_history : prompt_history ex_prompt_cache false [(ex_prompt, ex_item)] (w_trace ex_set_after.2).
Proof.
  destruct ex_prompt_facts as (Hk & _). destruct ex_set_after as [r w1] eqn:E.
  apply (ph_set _ _ [] ex_prompt ex_prompt_key ex_item ex_attacked r w1); [|exact Hk|exact E].
  apply (ph_foreign _ _ [] []); [apply ph_start|left; exact ex_forgery].
Qed.

Lemma ex_forgery_refused :
  (PromptCache_Get (Some ex_prompt_cache) ex_prompt_key ex_attacked).1 = Err ErrCacheMiss ∧ is_ok ex_get_after.1 = true.
Proof. vm_compute. done. Qed.

Lemma prompt_cache_sound_witness : ∃ answer w', ex_get_after = (Ok answer, w') ∧ stored_as ex_item answer ∧ same_prompt ex_prompt ex_prompt.
Proof.
  destruct ex_prompt_facts as (Hk & _). destruct ex_forgery_refused as [_ Hok]. pose proof ex_prompt_history as Hh.
  destruct ex_get_after as [r w'] eqn:E. destruct r as [answer|]; [|discriminate Hok].
  destruct (prompt_cache_sound ex_prompt_cache false _ _ _ _ _ _ Hh Hk E) as [_ (i & item & Hin & Hst & Hsame)].
  apply list_elem_of_singleton in Hin. injection Hin as -> ->.
  exists answer, w'. split; [reflexivity|]. split; [exact Hst|exact (Hsame eq_refl)].
Defined.

Lemma sealed_entry_moves_witness (key' : PromptKey) :
  ∃ raw, was_set ex_prompt_key.(pk_RedisKey) raw (w_trace ex_set.2) ∧
    ∃ answer w3, PromptCache_Get (Some ex_prompt_cache) key' (add_effect (EffRedis (SET key'.(pk_RedisKey) raw Minute)) ex_set.2)
      = (Ok answer, w3) ∧ stored_as ex_item answer.
Proof.
  destruct ex_prompt_facts as (_ & Hs & Hf & _). destruct ex_set as [r w1] eqn:E. simpl in *. subst r.
  destruct (sealed_entry_moves ex_prompt_cache ex_prompt_key key' ex_item ex_world w1 E) as (raw & Hin & Hmove).
  exists raw. split; [exact Hin|]. exact (Hmove (add_effect (EffRedis (SET key'.(pk_RedisKey) raw Minute)) w1) Minute eq_refl Hf eq_refl).
Defined.

Lemma prompt_cache_roundtrip_witness : ∃ answer w', ex_get = (Ok answer, w') ∧ stored_as ex_item answer.
Proof.
  destruct ex_prompt_facts as (_ & Hs & Hf & _). destruct ex_set as [r w1] eqn:E. simpl in *. subst r.
  exact (prompt_cache_roundtrip ex_prompt_cache ex_prompt_key ex_item ex_world w1 E Hf eq_refl).
Defined.

(** Two stored answers, and a question close to the second. *)
Definition ex_vector (l : list Z) : list float64 := map f64_of_Z l.
Definition ex_semantic_cache : SemanticCache := mkSemanticCache Minute (mkresponseCodec (Some (mkSecretBox ex_key1))).
Definition ex_input (hash : string) (l : list Z) : SemanticStoreInput := mkSemanticStoreInput 1%N "gpt" hash (ex_vector l) ex_item.

Notation ex_store1 := (SemanticCache_Store (Some ex_semantic_cache) (ex_input "a" [1; 0]) ex_world).
Notation ex_store2 := (SemanticCache_Store (Some ex_semantic_cache) (ex_input "b" [3; 4]) (snd ex_store1)).
Definition ex_lookup : SemanticLookupInput := mkSemanticLookupInput 1%N " gpt" (ex_vector [6; 8]) f64_one.
Notation ex_found := (SemanticCache_Lookup (Some ex_semantic_cache) ex_lookup (snd ex_store2)).

Lemma ex_found_facts : match ex_found.1 with Ok m => String.eqb m.(sm_MessagesHash) "b" | Err _ => false end = true.
Proof. vm_compute. done. Qed.

Lemma semantic_lookup_best_witness :
  ∃ m w' stored, ex_found = (Ok m, w') ∧ stored ∈ [ex_input "b" [3; 4]; ex_input "a" [1; 0]] ∧
    m.(sm_MessagesHash) = stored.(ss_MessagesHash) ∧ f64_lt m.(sm_Similarity) f64_one = false.
Proof.
  assert (Hh : semantic_history ex_semantic_cache [ex_input "b" [3; 4]; ex_input "a" [1; 0]] (w_trace ex_store2.2)).
  { destruct ex_store1 as [r1 w1] eqn:E1. destruct (SemanticCache_Store _ _ (snd (r1, w1))) as [r2 w2] eqn:E2.
    apply (sh_store _ _ _ w1 r2 w2); [|exact E2]. apply (sh_store _ _ _ ex_world r1 w1); [apply sh_start|exact E1]. }
  pose proof ex_found_facts as Hok. destruct ex_found as [r w'] eqn:E. destruct r as [m|]; [|discriminate Hok].
  destruct (semantic_lookup_best ex_semantic_cache _ _ _ _ _ Hh E) as (stored & HT & _ & _ & Hm & _ & _ & Hthr & _).
  exists m, w', stored. split; [reflexivity|]. split; [exact HT|]. split; [exact Hm|exact Hthr].
Defined.
End Caches.
