(* ===== verification/Adapters.v ===== *)
(** * Provider adapters: [internal/provider/openai_compatible], [internal/provider/mock]

    What is sent upstream for a chat request, how the answer is read, and the
    events of a streamed answer. *)

From Stdlib Require Import QArith Ascii.
From S2P Require Import Prelude GoTime GoStrings Encodings Costing Store ExampleWorld Tokens HttpClient.
From S2P Require Import BudgetService QuotaService AnomalyService Routing ContentPolicy GatewayBase Secrets Outbound Float64 Redis Caches Providers.
#[local] Open Scope Z_scope.

Module Adapters.
Import GatewayBase Providers.

Record upstreamRequest := mkupstreamRequest {
  ur_Model : string;
  ur_Messages : list ChatMessage;
  ur_Temperature : option float64;
  ur_MaxTokens : option Z;
  ur_Stream : bool;
  ur_IncludeUsage : option bool    (** [stream_options] *)
}.

Record upstreamUsage := mkupstreamUsage {
  uu_PromptTokens : option Z;
  uu_CompletionTokens : option Z;
  uu_TotalTokens : option Z
}.

Record upstreamChoice := mkupstreamChoice { uc_Role : string; uc_Content : string; uc_FinishReason : string }.

Record upstreamResponse := mkupstreamResponse {
  up_ID : string;
  up_Choices : list upstreamChoice;
  up_Usage : option upstreamUsage
}.

Record StreamEvent := mkStreamEvent { ev_Data : string; ev_Usage : option Usage; ev_Done : bool }.

(** A [contract.ChatStream] read to its end: its events, and what [Err] says then. *)
Record ChatStream := mkChatStream { cs_Events : list StreamEvent; cs_Err : option err }.

(** [encoding/json] on the upstream formats: [decodeUsage] reads the [usage]
    member of an event. *)
Class UpstreamJSON := {
  marshalUpstream : upstreamRequest → result string;
  decodeUpstream : string → bodyEnd → result upstreamResponse;
  decodeUsage : string → option upstreamUsage
}.

Definition NewError (code message : string) (cause : option err) : err := EProvider code message 0 false cause.
Definition NewStatusError (code message : string) (status : Z) (retryable : bool) : err :=
  EProvider code message status retryable None.

Definition newUpstreamRequest (req : ChatRequest) : upstreamRequest :=
  mkupstreamRequest req.(cq_Model).(mc_ProviderModelName) req.(cq_Messages) req.(cq_Temperature) req.(cq_MaxTokens) false None.

Definition newStreamingUpstreamRequest (req : ChatRequest) : upstreamRequest :=
  mkupstreamRequest req.(cq_Model).(mc_ProviderModelName) req.(cq_Messages) req.(cq_Temperature) req.(cq_MaxTokens) true
    (Some true).

Definition upstreamChatCompletionsURL (baseURL : string) : string :=
  TrimRight (Ascii.eqb "/") baseURL +:+ "/chat/completions".

Definition upstreamStatusError (status : Z) : err :=
  NewStatusError (if 500 <=? status then CodeProviderUnavailable else CodeProviderError)
    ("provider returned status " +:+ formatInt status) status ((status =? 429) || (500 <=? status)).

Definition rawUsage (prompt completion total : Z) : json :=
  JObj (jmap [("prompt_tokens", JNum prompt); ("completion_tokens", JNum completion); ("total_tokens", JNum total)]).

(** A usage of which every part is there. *)
Definition completeUsage (u : upstreamUsage) : option Usage :=
  match u.(uu_PromptTokens), u.(uu_CompletionTokens), u.(uu_TotalTokens) with
  | Some p, Some c, Some t => Some (mkUsage p c t (Some (rawUsage p c t)))
  | _, _, _ => None
  end.

(** ** Server-sent events *)

Definition is_newline (c : ascii) : bool := is_byte 10 c.
Definition is_line_end (c : ascii) : bool := is_byte 13 c || is_byte 10 c.

(** [appendDataLine]. *)
Definition appendDataLine (lines : list string) (line : string) : list string :=
  if HasPrefix line "data:" then lines ++ [TrimSpace (TrimPrefix line "data:")] else lines.

(** [strings.Join(lines, "\n")]. *)
Definition joinLines (lines : list string) : string :=
  match lines with [] => "" | l :: rest => fold_left (λ acc x, acc +:+ String (ascii_of_nat 10) x) rest l end.

Section stream.
Context `{UpstreamJSON}.

Definition parseStreamUsage (data : string) : option Usage :=
  if String.eqb data "" || String.eqb data "[DONE]" then None
  else match decodeUsage data with None => None | Some u => completeUsage u end.

Definition eventOf (data : string) : StreamEvent := mkStreamEvent data (parseStreamUsage data) (String.eqb data "[DONE]").

(** The loop of [read] over the rest [s] of the body: [line] holds, reversed,
    what was read of the current line, [dataLines] the data of the current
    event. The second component tells whether the loop saw the end of the body. *)
Fixpoint readEvents (s line : string) (dataLines : list string) : list StreamEvent * bool :=
  match s with
  | EmptyString =>
      let dataLines := if String.eqb line "" then dataLines else appendDataLine dataLines (revString line) in
      (match dataLines with [] => [] | _ => [eventOf (joinLines dataLines)] end, true)
  | String c s' =>
      if is_newline c then
        let trimmed := TrimRight is_line_end (revString line) in
        if String.eqb trimmed "" then
          match dataLines with
          | [] => readEvents s' "" []
          | _ =>
              let event := eventOf (joinLines dataLines) in
              if event.(ev_Done) then ([event], false)
              else let '(rest, ended) := readEvents s' "" [] in (event :: rest, ended)
          end
        else readEvents s' "" (appendDataLine dataLines trimmed)
      else readEvents s' (String c line) dataLines
  end.

(** [openAIStream.read]. *)
Definition read (resp : HttpResponse) : ChatStream :=
  let '(events, ended) := readEvents resp.(hp_Body) "" [] in
  mkChatStream events
    (if ended then
       match resp.(hp_End) with
       | ReadFailed => Some (NewError CodeProviderError "read provider stream" (Some EFault))
       | _ => None
       end
     else None).

(** ** Proofs *)

Definition newline : string := String (ascii_of_nat 10) "".

(** How a server writes one event. *)
Definition writeEvent (data : string) : string := "data: " +:+ data +:+ newline +:+ newline.
Definition writeEvents (events : list string) : string := foldr (λ data rest, writeEvent data +:+ rest) "" events.

(** Data of one line, as the loop keeps it. *)
Definition one_line (data : string) : Prop :=
  TrimSpace data = data ∧ all_bytes (λ c, negb (is_line_end c)) data = true.

Lemma readEvents_line l s line dataLines :
  all_bytes (λ c, negb (is_line_end c)) l = true →
  readEvents (l +:+ s) line dataLines = readEvents s (revString l +:+ line) dataLines.
Proof.
  revert line. induction l as [|c l IH]; intros line H'; [done|]. rewrite string_app_cons. cbn [all_bytes readEvents] in *.
  apply andb_true_iff in H' as [Hc Hl]. unfold is_newline. unfold is_line_end in Hc.
  apply negb_true_iff, orb_false_iff in Hc as [_ ->]. rewrite IH by done. by rewrite revString_cons, <- string_app_assoc.
Qed.

Lemma TrimRight_none cut s : all_bytes (λ c, negb (cut c)) s = true → TrimRight cut s = s.
Proof.
  intros H'. unfold TrimRight. rewrite <- all_bytes_rev in H'.
  assert (trimLeftBytes cut (revString s) = revString s) as ->; [|apply revString_involutive].
  destruct (revString s) as [|c r]; [done|]. cbn in *. apply andb_true_iff in H' as [->%negb_true_iff _]. done.
Qed.

Lemma readEvents_event data s :
  one_line data →
  readEvents (writeEvent data +:+ s) "" [] =
    if String.eqb data "[DONE]" then ([eventOf data], false)
    else let '(rest, ended) := readEvents s "" [] in (eventOf data :: rest, ended).
Proof.
  intros [Htrim Hline]. unfold writeEvent. rewrite <- !string_app_assoc.
  assert (Hl : all_bytes (λ c, negb (is_line_end c)) ("data: " +:+ data) = true) by by rewrite all_bytes_app, Hline.
  rewrite (string_app_assoc "data: " data).
  assert (Hne : String.eqb ("data: " +:+ data) "" = false) by done.
  assert (Happ : appendDataLine [] ("data: " +:+ data) = [data]).
  { unfold appendDataLine. change ("data: " +:+ data) with ("data:" +:+ (" " +:+ data)).
    rewrite (proj2 (HasPrefix_spec _ "data:")) by (by eexists). rewrite TrimPrefix_app.
    change (TrimSpace (" " +:+ data)) with (TrimSpace data). by rewrite Htrim. }
  set (l := "data: " +:+ data) in *. clearbody l. rewrite readEvents_line by done.
  unfold newline. rewrite !string_app_cons. cbn [readEvents]. change (is_newline (ascii_of_nat 10)) with true. cbv iota.
  rewrite string_app_nil_r, revString_involutive, (TrimRight_none _ _ Hl), Hne, Happ.
  change ("" +:+ String (ascii_of_nat 10) ("" +:+ s)) with (String (ascii_of_nat 10) s).
  cbn [readEvents]. change (is_newline (ascii_of_nat 10)) with true. cbv iota.
  change (TrimRight is_line_end (revString "")) with "". simpl. by destruct (String.eqb data "[DONE]").
Qed.

(** C23: the stream reader and the event format fit: what a server writes as
    events of one line each, up to [DONE], is read back as exactly those
    events, with the usage that each carries, whatever follows [DONE] and
    however the connection ends; without a [DONE] the events are still read,
    and a broken connection is reported. *)
Theorem stream_roundtrip (events : list string) (rest : string) (status : Z) (ending : bodyEnd) :
  Forall (λ data, one_line data ∧ data ≠ "[DONE]") events →
  read (mkHttpResponse status (writeEvents events +:+ writeEvent "[DONE]" +:+ rest) ending) =
    mkChatStream (map eventOf events ++ [mkStreamEvent "[DONE]" None true]) None ∧
  read (mkHttpResponse status (writeEvents events) ending) =
    mkChatStream (map eventOf events)
      (if ending is ReadFailed then Some (NewError CodeProviderError "read provider stream" (Some EFault)) else None).
Proof.
  intros Hev. assert (Hread : ∀ tail, readEvents (writeEvents events +:+ tail) "" [] =
    (map eventOf events ++ (readEvents tail "" []).1, (readEvents tail "" []).2)).
  { intros tail. induction Hev as [|data events [Hd Hn] _ IH]; cbn [writeEvents foldr map app].
    { change ("" +:+ tail) with tail. by destruct (readEvents tail "" []). }
    rewrite <- string_app_assoc, readEvents_event by done. rewrite (proj2 (String.eqb_neq _ _) Hn).
    fold (writeEvents events). by rewrite IH. }
  unfold read. cbn [hp_Body hp_End]. rewrite Hread. split.
  - rewrite readEvents_event by done. done.
  - specialize (Hread ""). rewrite string_app_nil_r in Hread. rewrite Hread. cbn. rewrite app_nil_r. by destruct ending.
Qed.
End stream.

(** ** The OpenAI-compatible adapter *)

Section openai.
Context `{Transport, UpstreamJSON, Digests}.

Definition validateUpstream (req : ChatRequest) : result unit :=
  if String.eqb (TrimSpace req.(cq_Provider).(pc_BaseURL)) "" then Err (NewError CodeProviderError "provider base_url is required" None)
  else if String.eqb (TrimSpace req.(cq_Provider).(pc_APIKey)) "" then Err (NewError CodeProviderError "provider api key is required" None)
  else Ok tt.

Definition encodeUpstream (upstream : upstreamRequest) : result string :=
  match marshalUpstream upstream with
  | Ok body => Ok body
  | Err cause => Err (NewError CodeProviderError "encode upstream request" (Some cause))
  end.

Definition upstreamHTTPRequest (req : ChatRequest) (body accept : string) : HttpRequest :=
  mkHttpRequest "POST" (upstreamChatCompletionsURL req.(cq_Provider).(pc_BaseURL))
    [("Authorization", "Bearer " +:+ req.(cq_Provider).(pc_APIKey)); ("Content-Type", "application/json"); ("Accept", accept)] body.

(** The request, sent: a response with a 2xx status. *)
Definition exchange (request : HttpRequest) : M HttpResponse :=
  if negb (newRequest "POST" request.(hr_URL)) then fail (NewError CodeProviderError "build upstream request" (Some EFault))
  else
    answer ← Do request;
    match answer with
    | inr TransportTimeout => fail (NewError CodeProviderTimeout "provider request timed out" (Some EDeadline))
    | inr TransportFailed => fail (NewError CodeProviderUnavailable "provider request failed" (Some EFault))
    | inl resp =>
        if (resp.(hp_StatusCode) <? 200) || (300 <=? resp.(hp_StatusCode)) then fail (upstreamStatusError resp.(hp_StatusCode))
        else mret resp
    end.

Definition readResponse (resp : HttpResponse) : result (upstreamChoice * Usage) :=
  match decodeUpstream resp.(hp_Body) resp.(hp_End) with
  | Err cause => Err (NewError CodeProviderError "decode upstream response" (Some cause))
  | Ok upstream =>
      match u ← upstream.(up_Usage); completeUsage u with
      | None => Err (NewError CodeUsageMissing "provider response missing usage" None)
      | Some usage =>
          match upstream.(up_Choices) with
          | [] => Err (NewError CodeProviderError "provider response missing choices" None)
          | choice :: _ => Ok (choice, usage)
          end
      end
  end.

Definition Milliseconds (d : Z) : Z := Z.quot d Millisecond.

Definition openai_Chat (req : ChatRequest) : M (option ChatResponse) :=
  if req.(cq_Stream) then fail (NewError CodeStreamNotSupported "stream is not supported in v0.1" None)
  else
    _ ← lift (validateUpstream req);
    startedAt ← clock;
    body ← lift (encodeUpstream (newUpstreamRequest req));
    resp ← exchange (upstreamHTTPRequest req body "application/json");
    '(choice, usage) ← lift (readResponse resp);
    now ← clock;
    mret (Some (mkChatResponse choice.(uc_Content) choice.(uc_Role) choice.(uc_FinishReason) usage
                  (Milliseconds (Sub now startedAt)))).

Definition openai_StreamChat (req : ChatRequest) : M ChatStream :=
  _ ← lift (validateUpstream req);
  body ← lift (encodeUpstream (newStreamingUpstreamRequest req));
  resp ← exchange (upstreamHTTPRequest req body "text/event-stream");
  mret (read resp).

(** ** The mock adapter, as the registry makes it *)

Definition mockPromptTokens : Z := 20.
Definition mockCompletionTokens : Z := 30.
Definition mockUsage : Usage :=
  mkUsage mockPromptTokens mockCompletionTokens (mockPromptTokens + mockCompletionTokens)
    (Some (rawUsage mockPromptTokens mockCompletionTokens (mockPromptTokens + mockCompletionTokens))).

Definition mock_Chat (req : ChatRequest) : M (option ChatResponse) :=
  if req.(cq_Stream) then fail (NewError CodeStreamNotSupported "stream is not supported in v0.1" None)
  else
    startedAt ← clock;
    now ← clock;
    mret (Some (mkChatResponse "Mock response" "assistant" "stop" mockUsage (Milliseconds (Sub now startedAt)))).

Definition mock_StreamChat (req : ChatRequest) : M ChatStream :=
  let id := JStr ("mock_" +:+ uuidString req.(cq_RequestID)) in
  mret (mkChatStream
    [mkStreamEvent (marshal (JObj (jmap
        [("id", id);
         ("choices", JArr [JObj (jmap [("index", JNum 0);
            ("delta", JObj (jmap [("role", JStr "assistant"); ("content", JStr "Mock response")]))])])]))) None false;
     mkStreamEvent (marshal (JObj (jmap [("id", id); ("choices", JArr []); ("usage", default JNull mockUsage.(us_Raw))])))
       (Some mockUsage) false;
     mkStreamEvent "[DONE]" None true] None).

Definition adapterChat (a : Adapter) : ChatRequest → M (option ChatResponse) :=
  match a with MockAdapter => mock_Chat | OpenAIAdapter _ => openai_Chat end.
Definition adapterStreamChat (a : Adapter) : ChatRequest → M ChatStream :=
  match a with MockAdapter => mock_StreamChat | OpenAIAdapter _ => openai_StreamChat end.

Lemma quiet_exchange request : quiet (exchange request).
Proof.
  unfold exchange. destruct (negb _); [apply quiet_fail|]. apply quiet_bind; [apply quiet_Do|].
  intros [resp|[]]; eauto with quiet. destruct (_ || _); eauto with quiet.
Qed.

(** ** Specification of a chat call *)

(** The call can be sent, with this body: it is not for a stream, the provider
    has an address and a key, and the request can be written and built. *)
Definition sendable (req : ChatRequest) (url body : string) : Prop :=
  req.(cq_Stream) = false ∧ TrimSpace req.(cq_Provider).(pc_BaseURL) ≠ "" ∧ TrimSpace req.(cq_Provider).(pc_APIKey) ≠ "" ∧
  url = TrimRight (Ascii.eqb "/") req.(cq_Provider).(pc_BaseURL) +:+ "/chat/completions" ∧ newRequest "POST" url = true ∧
  marshalUpstream (mkupstreamRequest req.(cq_Model).(mc_ProviderModelName) req.(cq_Messages) req.(cq_Temperature)
                     req.(cq_MaxTokens) false None) = Ok body.

Definition chat_headers (req : ChatRequest) : list (string * string) :=
  [("Authorization", "Bearer " +:+ req.(cq_Provider).(pc_APIKey)); ("Content-Type", "application/json");
   ("Accept", "application/json")].

(** A provider error, with its code, the status of the answer (0 without one)
    and whether the call may be tried again. *)
Definition provider_error (e : err) (code : string) (status : Z) (retryable : bool) : Prop :=
  ∃ message cause, e = EProvider code message status retryable cause.

(** What the call answers for what came back, in so many milliseconds. *)
Inductive answered (elapsed : Z) : HttpResponse + transportError → result (option ChatResponse) → Prop :=
| an_ok resp up p c t choice rest :
    200 <= resp.(hp_StatusCode) < 300 → decodeUpstream resp.(hp_Body) resp.(hp_End) = Ok up →
    up.(up_Usage) = Some (mkupstreamUsage (Some p) (Some c) (Some t)) → up.(up_Choices) = choice :: rest →
    answered elapsed (inl resp) (Ok (Some (mkChatResponse choice.(uc_Content) choice.(uc_Role) choice.(uc_FinishReason)
      (mkUsage p c t (Some (rawUsage p c t))) elapsed)))
| an_status resp e retryable :
    ¬ 200 <= resp.(hp_StatusCode) < 300 → (retryable = true ↔ resp.(hp_StatusCode) = 429 ∨ 500 <= resp.(hp_StatusCode)) →
    provider_error e (if decide (500 <= resp.(hp_StatusCode)) then CodeProviderUnavailable else CodeProviderError)
      resp.(hp_StatusCode) retryable →
    answered elapsed (inl resp) (Err e)
| an_unreadable resp e :
    200 <= resp.(hp_StatusCode) < 300 → (∀ up, decodeUpstream resp.(hp_Body) resp.(hp_End) ≠ Ok up) →
    provider_error e CodeProviderError 0 false → answered elapsed (inl resp) (Err e)
| an_no_usage resp up e :
    200 <= resp.(hp_StatusCode) < 300 → decodeUpstream resp.(hp_Body) resp.(hp_End) = Ok up →
    (∀ p c t, up.(up_Usage) ≠ Some (mkupstreamUsage (Some p) (Some c) (Some t))) →
    provider_error e CodeUsageMissing 0 false → answered elapsed (inl resp) (Err e)
| an_no_choice resp up e :
    200 <= resp.(hp_StatusCode) < 300 → decodeUpstream resp.(hp_Body) resp.(hp_End) = Ok up → up.(up_Choices) = [] →
    provider_error e CodeProviderError 0 false → answered elapsed (inl resp) (Err e)
| an_timeout e : provider_error e CodeProviderTimeout 0 false → answered elapsed (inr TransportTimeout) (Err e)
| an_failed e : provider_error e CodeProviderUnavailable 0 false → answered elapsed (inr TransportFailed) (Err e).

(** ** Proofs *)

Lemma new_error code message cause : provider_error (NewError code message cause) code 0 false.
Proof. by exists message, cause. Qed.

Lemma lift_bind_cases {A B} (x : result A) (f : A → M B) w r w' :
  (lift x ≫= f) w = (r, w') → (∃ a, x = Ok a ∧ f a w = (r, w')) ∨ (∃ e, x = Err e ∧ r = Err e ∧ w = w').
Proof. destruct x as [a|e]; [left; by exists a|]. intros [= <- <-]. right. by exists e. Qed.

Lemma completeUsage_some uu usage : completeUsage uu = Some usage →
  ∃ p c t, uu = mkupstreamUsage (Some p) (Some c) (Some t) ∧ usage = mkUsage p c t (Some (rawUsage p c t)).
Proof. unfold completeUsage. destruct uu as [[p|] [c|] [t|]]; try done. intros [= <-]. by exists p, c, t. Qed.

(** What [readResponse] makes of an answer with a 2xx status. *)
Lemma readResponse_cases elapsed resp : 200 <= resp.(hp_StatusCode) < 300 →
  match readResponse resp with
  | Ok (choice, usage) => answered elapsed (inl resp) (Ok (Some (mkChatResponse choice.(uc_Content) choice.(uc_Role)
      choice.(uc_FinishReason) usage elapsed)))
  | Err e => answered elapsed (inl resp) (Err e)
  end.
Proof.
  intros Hs. unfold readResponse. destruct (decodeUpstream _ _) as [up|cause] eqn:Ed;
    [|apply an_unreadable; [done|by rewrite Ed|apply new_error]].
  destruct (up_Usage up ≫= completeUsage) as [usage|] eqn:Eu.
  - apply bind_Some in Eu as (uu & Eu & (p & c & t & -> & ->)%completeUsage_some).
    destruct (up_Choices up) as [|choice rest] eqn:Ec; [eapply an_no_choice; [done..|apply new_error]|by eapply an_ok].
  - eapply an_no_usage; [done..| |apply new_error]. intros p c t Hu. by rewrite Hu in Eu.
Qed.

(** The exchange sends the request it could build, once. *)
Lemma exchange_cases request w r w' :
  newRequest "POST" request.(hr_URL) = true → exchange request w = (r, w') →
  w_db w' = w_db w ∧ w_clock w' = w_clock w ∧ w_tick w' = w_tick w ∧
  w_trace w' = w_trace w ++ [EffHTTP request.(hr_Method) request.(hr_URL) request.(hr_Headers) request.(hr_Body)] ∧
  match r with
  | Ok resp => 200 <= resp.(hp_StatusCode) < 300 ∧ roundTrip (w_fresh w) request = inl resp
  | Err e => ∀ elapsed, answered elapsed (roundTrip (w_fresh w) request) (Err e)
  end.
Proof.
  unfold exchange. intros -> H'. simpl in H'.
  destruct (Do_run request w) as (w1 & Hdo & Hdb & _ & Hck & Htk & Htr). rewrite (bind_run _ _ _ _ _ Hdo) in H'.
  destruct (roundTrip _ _) as [resp|[]].
  - destruct (_ || _) eqn:Es; injection H' as <- <-; do 4 (split; [done|]).
    + intros elapsed. eapply an_status; [lia| |]; [|eexists _, _; unfold upstreamStatusError, NewStatusError; f_equal].
      * rewrite orb_true_iff, Z.eqb_eq, Z.leb_le. done.
      * destruct (Z.leb_spec 500 (hp_StatusCode resp)); case_decide; lia || done.
    + apply orb_false_iff in Es as [Es1 Es2]. split; [lia|done].
  - injection H' as <- <-. split_and!; [done..|]. intros elapsed. apply an_timeout, new_error.
  - injection H' as <- <-. split_and!; [done..|]. intros elapsed. apply an_failed, new_error.
Qed.

(** Nothing is sent. *)
Definition unsent (req : ChatRequest) (w : world) (r : result (option ChatResponse)) (w' : world) : Prop :=
  w_trace w' = w_trace w ∧ (∀ url body, ¬ sendable req url body) ∧
  ∃ e, r = Err e ∧ provider_error e (if req.(cq_Stream) then CodeStreamNotSupported else CodeProviderError) 0 false.

(** One request is sent, the one of this address and body; the answer is what the
    provider answers to it. *)
Definition sent_once (req : ChatRequest) (w : world) (r : result (option ChatResponse)) (w' : world) : Prop :=
  ∃ url body, sendable req url body ∧ w_trace w' = w_trace w ++ [EffHTTP "POST" url (chat_headers req) body] ∧
    answered (Z.quot (Sub (w_clock w (S (w_tick w))) (w_clock w (w_tick w))) Millisecond)
      (roundTrip (w_fresh w) (mkHttpRequest "POST" url (chat_headers req) body)) r.

Lemma unsent_new req w w' code message cause :
  code = (if req.(cq_Stream) then CodeStreamNotSupported else CodeProviderError) → (∀ url body, ¬ sendable req url body) →
  w_trace w' = w_trace w → unsent req w (Err (NewError code message cause)) w'.
Proof. intros -> Hno Ht. split_and!; [exact Ht|exact Hno|]. eexists. split; [done|apply new_error]. Qed.

Lemma validateUpstream_ok req : validateUpstream req = Ok tt →
  TrimSpace req.(cq_Provider).(pc_BaseURL) ≠ "" ∧ TrimSpace req.(cq_Provider).(pc_APIKey) ≠ "".
Proof.
  unfold validateUpstream. intros Hv. split; intros E; rewrite E in Hv; [done|]. by destruct (String.eqb _ _).
Qed.

Lemma validateUpstream_err req e : validateUpstream req = Err e →
  ∃ message, e = NewError CodeProviderError message None ∧ ∀ url body, ¬ sendable req url body.
Proof.
  unfold validateUpstream, sendable. intros Hv.
  destruct (String.eqb_spec (TrimSpace (pc_BaseURL (cq_Provider req))) ""); [injection Hv as <-; eexists; split; [done|naive_solver]|].
  destruct (String.eqb_spec (TrimSpace (pc_APIKey (cq_Provider req))) ""); [injection Hv as <-; eexists; split; [done|naive_solver]|done].
Qed.

(** The rest of a call whose request can be built, and was begun at [startedAt]. *)
Lemma read_exchange req body startedAt w r w' :
  let request := upstreamHTTPRequest req body "application/json" in
  newRequest "POST" request.(hr_URL) = true →
  (resp ← exchange request;
   '(choice, usage) ← lift (readResponse resp);
   now ← clock;
   mret (Some (mkChatResponse choice.(uc_Content) choice.(uc_Role) choice.(uc_FinishReason) usage
                 (Milliseconds (Sub now startedAt))))) w = (r, w') →
  w_db w' = w_db w ∧ w_trace w' = w_trace w ++ [EffHTTP request.(hr_Method) request.(hr_URL) request.(hr_Headers) request.(hr_Body)] ∧
  answered (Z.quot (Sub (w_clock w (w_tick w)) startedAt) Millisecond) (roundTrip (w_fresh w) request) r.
Proof.
  intros request Hn H'. apply bind_cases in H' as [(resp & w2 & Hx & H')|(e & Hx & ->)];
    apply exchange_cases in Hx as (Hdb & Hck & Htk & Htr & Hx); try done.
  destruct Hx as [Hs ->]. pose proof (readResponse_cases (Z.quot (Sub (w_clock w (w_tick w)) startedAt) Millisecond) resp Hs) as Hr.
  apply lift_bind_cases in H' as [([choice usage] & Hrd & H')|(e & Hrd & -> & <-)]; rewrite Hrd in Hr; [|by split_and!].
  injection H' as <- <-. split_and!; [exact Hdb|exact Htr|]. unfold Milliseconds. rewrite Hck, Htk. exact Hr.
Qed.

(** C21: a chat call to an OpenAI-compatible provider, on every path. It leaves
    the database alone. A call that cannot be sent (it is for a stream, the
    provider has no address or key, or the request cannot be written or built)
    sends nothing and fails with a provider error that is not to be retried.
    Any other call sends exactly one request, to the provider's chat endpoint
    with its key and the model's name and messages, and its outcome is decided
    by what the provider answers to that request: it succeeds exactly on a 2xx
    answer that can be read and carries a complete usage and a choice, with that
    usage, the first choice and the time it took; an answer of another status
    fails with that status, retryable exactly for 429 and from 500 on; every
    other failure (a time-out, no answer, an answer that cannot be read or lacks
    its usage or choices) has its own code and is not retryable. *)
Theorem openai_Chat_outcome (req : ChatRequest) (w : world) r w' :
  openai_Chat req w = (r, w') →
  w_db w' = w_db w ∧ (unsent req w r w' ∨ sent_once req w r w').
Proof.
  unfold openai_Chat. intros H'. destruct (cq_Stream req) eqn:Es.
  { injection H' as <- <-. split; [done|]. left. apply unsent_new; [by rewrite Es| |done]. intros url body [Hs _]. congruence. }
  assert (Hcode : CodeProviderError = if req.(cq_Stream) then CodeStreamNotSupported else CodeProviderError) by by rewrite Es.
  apply lift_bind_cases in H' as [([] & Hv & H')|(e & Hv & -> & <-)].
  2: { destruct (validateUpstream_err _ _ Hv) as (message & -> & Hno). split; [done|]. left. by apply unsent_new. }
  apply bind_cases in H' as [(startedAt & w0 & Hc & H')|(e & Hc & ->)]; [|done]. injection Hc as <- <-.
  apply lift_bind_cases in H' as [(body & Hb & H')|(e & Hb & -> & <-)]; unfold encodeUpstream in Hb;
    destruct (marshalUpstream _) as [body'|cause] eqn:Em; simplify_eq.
  2: { split; [done|]. left. apply unsent_new; [done| |done]. unfold newUpstreamRequest in Em. intros url b (_ & _ & _ & _ & _ & Hm). congruence. }
  destruct (newRequest "POST" (upstreamChatCompletionsURL req.(cq_Provider).(pc_BaseURL))) eqn:En.
  2: { unfold exchange in H'. simpl in H'. rewrite En in H'. injection H' as <- <-. split; [done|]. left. apply unsent_new; [done| |done].
       intros url b (_ & _ & _ & -> & Hn & _). unfold upstreamChatCompletionsURL in En. congruence. }
  destruct (validateUpstream_ok _ Hv). destruct (read_exchange _ _ _ _ _ _ En H') as (Hdb & Htr & Ha).
  split; [exact Hdb|]. right. exists (upstreamChatCompletionsURL req.(cq_Provider).(pc_BaseURL)), body.
  split; [by split_and!|]. by split.
Qed.
End openai.

(** ** Concrete instances *)

Definition ex_upstream_json : UpstreamJSON := {|
  marshalUpstream u := Ok u.(ur_Model);
  decodeUpstream body _ :=
    if String.eqb body "answer" then
      Ok (mkupstreamResponse "1" [mkupstreamChoice "assistant" "hi" "stop"] (Some (mkupstreamUsage (Some 3) (Some 4) (Some 7))))
    else Err EFault;
  decodeUsage data := if String.eqb data "usage" then Some (mkupstreamUsage (Some 3) (Some 4) (Some 7)) else None
|}.

Definition ex_upstream : Transport := {|
  roundTrip n r := inl (mkHttpResponse 200 "answer" EndOfBody);
  newRequest _ _ := true
|}.

#[local] Existing Instances ex_upstream_json ex_upstream.

Definition ex_chat_request : ChatRequest :=
  mkChatRequest 1%N 1%N (mkProviderConfig 40%N "p" "openai" "https://api.example/" "key" 1000) (mkModelConfig 41%N "gpt" "GPT")
    [mkChatMessage "user" "hello"] None None false.

Lemma stream_roundtrip_witness :
  read (mkHttpResponse 200 (writeEvents ["a b"; "usage"] +:+ writeEvent "[DONE]" +:+ "more") ReadFailed) =
    mkChatStream [mkStreamEvent "a b" None false;
                  mkStreamEvent "usage" (Some (mkUsage 3 4 7 (Some (rawUsage 3 4 7)))) false;
                  mkStreamEvent "[DONE]" None true] None.
Proof.
  assert (Hev : Forall (λ data, one_line data ∧ data ≠ "[DONE]") ["a b"; "usage"]).
  { repeat constructor; vm_compute; congruence. }
  destruct (stream_roundtrip ["a b"; "usage"] "more" 200 ReadFailed Hev) as [E _]. exact E.
Defined.

Notation ex_call := (openai_Chat ex_chat_request ex_world).

Lemma ex_call_facts : is_ok ex_call.1 = true.
Proof. vm_compute. done. Qed.

(** The example call sends its request and answers what the provider said. *)
Lemma openai_Chat_outcome_witness :
  w_db ex_call.2 = w_db ex_world ∧ length (w_trace ex_call.2) = S (length (w_trace ex_world)) ∧
  answered 0 (inl (mkHttpResponse 200 "answer" EndOfBody)) ex_call.1.
Proof.
  pose proof ex_call_facts as Hok. destruct ex_call as [r w'] eqn:E.
  destruct (openai_Chat_outcome ex_chat_request ex_world r w' E) as [Hdb [(_ & _ & e & -> & _)|(url & body & _ & Htr & Ha)]];
    [discriminate Hok|].
  split; [exact Hdb|]. split; [simpl; rewrite Htr, length_app; simpl; lia|exact Ha].
Defined.
End Adapters.
