(* ===== verification/Gateway.v ===== *)
(** * The gateway: [internal/gateway/chat_service.go], [chat_stream_service.go]

    A chat request from its raw body to the response: content policy, budget,
    quota and anomaly checks, routing, caches, the reservation of the worst
    cost, the providers in turn, metering, and the release of whatever was
    reserved when the request fails. *)

From Stdlib Require Import QArith.
From S2P Require Import Prelude GoTime GoStrings Costing Store ExampleWorld Tokens Secrets Outbound HttpClient.
From S2P Require Import Limits BudgetService QuotaService AnomalyService Routing ContentPolicy Metering BudgetAlerts.
From S2P Require Import Float64 Redis GatewayBase Providers Caches Adapters.
#[local] Open Scope Z_scope.

Module Gateway.
Import GatewayBase Secrets.

(** What a request meets outside the program: [encoding/json] on its body,
    PostgreSQL's [percentile_cont], and whether the request's context ends
    during a wait that starts after the n-th reading of the clock. *)
Class Surroundings := {
  unmarshalRequest : string → result ChatCompletionRequest;
  percentile_cont : Q → list Z → Q;
  interrupted : nat → Z → option err
}.

(** [ChatService], less the services that have no state of their own. *)
Record ChatService := mkChatService {
  metering : Metering.Service;
  alerts : BudgetAlerts.AlertService;
  retryPolicy : RetryPolicy;
  hasMetrics : bool;
  promptCache : option Caches.PromptCache;
  semanticCache : option Caches.SemanticCache;
  embedding : option (string → result (list float64));   (** an [embedding.Adapter] *)
  semanticThreshold : float64;
  semanticMaxTemp : float64;
  secretKeyRing : option SecretKeyRing;
  publicOutboundOnly : bool
}.

(** [NewChatService] and its options, as the router passes them: the ring is
    the given one, or that of the single key. *)
Definition NewChatService `{Runtime} (ms : Metering.Service) (secretEncryptionKey : string) (withMetrics : bool)
    (policy : RetryPolicy) (prompts : option Caches.PromptCache)
    (semantic : option (option Caches.SemanticCache * option (string → result (list float64)) * float64 * float64))
    (publicOnly : bool) (keyRing : option SecretKeyRing) : M ChatService :=
  single ← try (NewSingleKeyRing secretEncryptionKey);
  let ring := match keyRing, single with
              | Some ring, _ => Some ring
              | None, Ok ring => Some ring
              | None, Err _ => None
              end in
  let '(cache, adapter, threshold, maxTemp) :=
    default (None, None, f64_div (f64_of_Z 92) (f64_of_Z 100), f64_div (f64_of_Z 3) (f64_of_Z 10)) semantic in
  mret (mkChatService ms (BudgetAlerts.mkAlertService publicOnly ring) (Normalize policy) withMetrics prompts cache adapter
          threshold maxTemp ring publicOnly).

(** What the checks before routing decided about a request. *)
Record Admission := mkAdmission {
  ad_request : ChatCompletionRequest;
  ad_budget : BudgetService.CheckResult;
  ad_quota : APIKeyQuota.APIKeyQuotaCheckResult;
  ad_anomaly : Anomaly.Decision;
  ad_content : contentPolicyDecision;
  ad_startedAt : Z
}.

Record semanticCandidate := mksemanticCandidate {
  sc_enabled : bool;
  sc_skipReason : string;
  sc_cacheKeyHash : string;
  sc_messagesHash : string;
  sc_embedding : list float64
}.
Definition noCandidate : semanticCandidate := mksemanticCandidate false "" "" "" [].

(** The variables of the provider loop. *)
Record loopState := mkloopState {
  ls_attempts : list ProviderAttempt;
  ls_selected : option Routing.ResolvedTarget;
  ls_providerStarted : Z;
  ls_providerResponse : option ChatResponse;
  ls_lastErr : option err;
  ls_lastStatus : Z;
  ls_lastCode : string
}.
Definition loopStart : loopState := mkloopState [] None ZeroTime None None 0 "".

Definition sentinel (name : string) (e : err) : bool :=
  match e with EWrap n _ => String.eqb n name | _ => false end.
Definition isRouteNotFound : err → bool := sentinel "route not found".
Definition isCacheMiss : err → bool := sentinel "prompt cache miss".
Definition isSemanticCacheMiss : err → bool := sentinel "semantic cache miss".

Definition cache_event_check (c : CacheEvent) : bool :=
  existsb (String.eqb c.(CacheEvent_EventType))
    ["hit"; "miss"; "store"; "skip"; "read_error"; "write_error"; "semantic_hit"; "semantic_miss";
     "semantic_skip"; "semantic_store"; "semantic_read_error"; "semantic_write_error"].

Definition insert_cache_event (c : CacheEvent) (d : DB) : result (CacheEvent * DB) :=
  _ ← pg_check (cache_event_check c);
  _ ← pg_unique (λ q, (q.(CacheEvent_ID) =? c.(CacheEvent_ID))%N) d.(cache_events);
  Ok (c, set_cache_events (λ cs, cs ++ [c]) d).

Definition isNone {A} (o : option A) : bool := match o with None => true | Some _ => false end.

(** Every hit of a request's messages, and the messages with theirs redacted. *)
Fixpoint scanMessages (action : string) (messages : list ChatMessage) : result (list PII.PIIHit * list ChatMessage) :=
  match messages with
  | [] => Ok ([], [])
  | message :: rest =>
      let hits := PII.Detect message.(msg_Content) in
      message' ← (match hits with
                  | [] => Ok message
                  | _ => if String.eqb action PolicyService.ActionRedact
                         then content ← PII.Redact message.(msg_Content) hits; Ok (mkChatMessage message.(msg_Role) content)
                         else Ok message
                  end);
      r ← scanMessages action rest;
      Ok (hits ++ r.1, message' :: r.2)
  end.

Definition applyContentPolicy (orgID : uuid) (request : ChatCompletionRequest)
    : M (ChatCompletionRequest * contentPolicyDecision) :=
  action ← PolicyService.ActivePIIAction orgID;
  r ← lift (scanMessages action request.(req_Messages));
  let hit := match r.1 with [] => false | _ => true end in
  let decision := mkcontentPolicyDecision action hit (hit && String.eqb action PolicyService.ActionBlock)
                    (PII.HitTypes r.1) in
  mret (if hit && String.eqb action PolicyService.ActionRedact then set_messages r.2 request else request, decision).

Section Service.
Context `{Surroundings, Runtime, AEAD, Net, Transport, Webhooks, Digests, Caches.CacheJSON, Redis, Adapters.UpstreamJSON} (s : ChatService).

Definition hashBytes (body : string) : string :=
  if String.eqb body "" then "" else "sha256:" +:+ Caches.sha256Hex body.

Definition metric (name : string) (labels : list string) (amount : Z) : M unit :=
  if s.(hasMetrics) then emit (EffMetric name labels amount) else mret tt.
Definition observeGatewayRequest (status provider model : string) (duration : Z) : M unit :=
  metric "gateway_request" [status; provider; model] duration.
Definition observeProviderRequest (provider model status code : string) : M unit :=
  metric "provider_request" [provider; model; status; code] 1.

Definition recordFailure (input : ChatInput) (requestModel status : string) (statusCode : Z)
    (errorCode responseHash : string) (target : option (uuid * uuid)) (metadata : option json) (startedAt : Z)
    : M RequestLog :=
  now1 ← clock;
  now2 ← clock;
  Metering.RecordFailure s.(metering)
    (Metering.mkRecordFailureInput input.(in_RequestID) input.(in_Principal).(OrgID)
       (Some input.(in_Principal).(APIKeyID)) (fst <$> target) (snd <$> target) None input.(in_Method) input.(in_Path)
       requestModel status (wrap32 statusCode) errorCode (hashBytes input.(in_RawBody)) responseHash
       (latencyMS now1 startedAt) None metadata startedAt now2).

(** A refused request: [_ = s.recordFailure(...)], the metrics, the error. *)
Definition reject {A} (input : ChatInput) (requestModel status : string) (statusCode : Z) (errorCode : string)
    (metadata : option json) (startedAt : Z) (counted : M unit) (label message : string) : M A :=
  _ ← try (recordFailure input requestModel status statusCode errorCode "" None metadata startedAt);
  _ ← counted;
  now ← clock;
  _ ← observeGatewayRequest label "" requestModel (Sub now startedAt);
  fail (EDomain statusCode errorCode message).

Definition rejectBudget {A} (input : ChatInput) (requestModel : string) (check : BudgetService.CheckResult)
    (content : contentPolicyDecision) (startedAt : Z) : M A :=
  reject input requestModel Metering.StatusBudgetBlocked 402 CodeBudgetExceeded
    (withContentPolicyMetadata (budgetMetadata check) content) startedAt
    (metric "budget_blocked" [] 1) "budget_blocked" "budget exceeded".

Definition rejectQuota {A} (input : ChatInput) (requestModel : string) (check : APIKeyQuota.APIKeyQuotaCheckResult)
    (content : contentPolicyDecision) (startedAt : Z) : M A :=
  reject input requestModel Metering.StatusBudgetBlocked 402 CodeAPIKeyQuotaExceeded
    (withContentPolicyMetadata (apiKeyQuotaMetadata check) content) startedAt
    (mret tt) "api_key_quota_blocked" "api key quota exceeded".

(** ** Cache events *)

Definition insertCacheEvent (orgID : uuid) (requestLogID : option uuid)
    (eventType requestedModel cacheKeyHash messagesHash reason warning : string) : M unit :=
  id ← new_uuid;
  now ← clock;
  r ← try (stmt (insert_cache_event (mkCacheEvent id orgID requestLogID eventType requestedModel cacheKeyHash
                   messagesHash (Metering.textValue reason) now)));
  match r with Ok _ => mret tt | Err _ => emit (EffWarn warning) end.

Definition recordCacheEvent (orgID : uuid) (requestLogID : option uuid) (eventType requestedModel : string)
    (key : PromptKey) (reason : string) : M unit :=
  if (orgID =? Nil)%N || String.eqb key.(pk_CacheKeyHash) "" || String.eqb requestedModel "" then mret tt
  else insertCacheEvent orgID requestLogID eventType requestedModel key.(pk_CacheKeyHash) key.(pk_MessagesHash) reason
         "record cache event failed".

Definition recordSemanticCacheEvent (orgID : uuid) (requestLogID : option uuid)
    (eventType requestedModel cacheKeyHash messagesHash reason : string) : M unit :=
  if (orgID =? Nil)%N || String.eqb cacheKeyHash "" || String.eqb messagesHash "" || String.eqb requestedModel ""
  then mret tt
  else insertCacheEvent orgID requestLogID eventType requestedModel cacheKeyHash messagesHash reason
         "record semantic cache event failed".

Definition promptKeyInput (request : ChatCompletionRequest) (orgID : uuid) : Caches.PromptKeyInput :=
  Caches.mkPromptKeyInput orgID request.(req_Model) request.(req_Messages) request.(req_Temperature) request.(req_MaxTokens).

Definition promptCacheKey (request : ChatCompletionRequest) (orgID : uuid) : option PromptKey :=
  if isNone s.(promptCache) || request.(req_Stream) then None
  else match Caches.BuildPromptKey (promptKeyInput request orgID) with Ok key => Some key | Err _ => None end.

Definition recordPromptCacheSkip (input : ChatInput) (request : ChatCompletionRequest) (reason : string) : M unit :=
  if isNone s.(promptCache) then mret tt
  else
    match Caches.BuildPromptKey (promptKeyInput request input.(in_Principal).(OrgID)) with
    | Err _ => mret tt
    | Ok key => recordCacheEvent input.(in_Principal).(OrgID) None "skip" request.(req_Model) key reason
    end.

(** ** Checks before routing *)

Definition admitContent (input : ChatInput) (request : ChatCompletionRequest) (startedAt : Z)
    : M (ChatCompletionRequest * contentPolicyDecision) :=
  r ← applyContentPolicy input.(in_Principal).(OrgID) request;
  if r.2.(cd_Blocked) then
    reject input r.1.(req_Model) Metering.StatusError 400 CodeContentPolicyBlocked (contentPolicyMetadata r.2) startedAt
      (mret tt) "error" "content policy blocked"
  else mret r.

Definition admitBudget (input : ChatInput) (request : ChatCompletionRequest) (content : contentPolicyDecision)
    (startedAt : Z) : M BudgetService.CheckResult :=
  check ← BudgetService.Check input.(in_Principal).(OrgID);
  if check.(BudgetService.cr_Allowed) then mret check
  else rejectBudget input request.(req_Model) check content startedAt.

Definition admitQuota (input : ChatInput) (request : ChatCompletionRequest) (content : contentPolicyDecision)
    (startedAt : Z) : M APIKeyQuota.APIKeyQuotaCheckResult :=
  check ← APIKeyQuota.Check input.(in_Principal);
  if check.(APIKeyQuota.qr_Allowed) then mret check
  else rejectQuota input request.(req_Model) check content startedAt.

(** [metadata] is what a blocked request logs: it differs between the two entry points. *)
Definition admitAnomaly (input : ChatInput) (request : ChatCompletionRequest) (content : contentPolicyDecision)
    (metadata : option json) (startedAt : Z) : M (ChatCompletionRequest * Anomaly.Decision) :=
  decision ← Anomaly.Evaluate (Anomaly.mkEvaluateParams input.(in_Principal).(OrgID) input.(in_Principal).(APIKeyID)
                                 request.(req_Model));
  if decision.(Anomaly.dn_Triggered) && String.eqb decision.(Anomaly.dn_Action) Anomaly.ActionBlock then
    reject input request.(req_Model) Metering.StatusError 429 CodeCostAnomalyBlocked
      (withContentPolicyMetadata (withAnomalyMetadata metadata decision) content) startedAt
      (mret tt) "cost_anomaly_blocked" "cost anomaly blocked"
  else
    mret (if decision.(Anomaly.dn_Triggered) && String.eqb decision.(Anomaly.dn_Action) Anomaly.ActionDowngrade
          then set_model decision.(Anomaly.dn_EffectiveModel) request else request, decision).

(** The checks in their order; [skipped] is what [StreamChat] records after the content policy. *)
Definition admission (input : ChatInput) (request : ChatCompletionRequest) (startedAt : Z)
    (skipped : ChatCompletionRequest → M unit)
    (metadata : BudgetService.CheckResult → APIKeyQuota.APIKeyQuotaCheckResult → option json) : M Admission :=
  rc ← admitContent input request startedAt;
  _ ← skipped rc.1;
  budget ← admitBudget input rc.1 rc.2 startedAt;
  quota ← admitQuota input rc.1 rc.2 startedAt;
  ra ← admitAnomaly input rc.1 rc.2 (metadata budget quota) startedAt;
  mret (mkAdmission ra.1 budget quota ra.2 rc.2 startedAt).

Definition resolveParams (input : ChatInput) (request : ChatCompletionRequest) : Routing.ResolveParams :=
  Routing.mkResolveParams input.(in_Principal).(OrgID) request.(req_Model)
    (estimatePromptTokens request.(req_Messages)) (estimateMaxTokens request.(req_MaxTokens)).

Definition orRouteNotFound {A} (input : ChatInput) (ad : Admission) (m : M A) : M A :=
  r ← try m;
  match r with
  | Ok a => mret a
  | Err e =>
      if isRouteNotFound e then
        reject input ad.(ad_request).(req_Model) Metering.StatusError 404 CodeRouteNotFound
          (contentPolicyMetadata ad.(ad_content)) ad.(ad_startedAt) (mret tt) "error" "route not found"
      else fail e
  end.

(** ** Reservation *)

Definition reserveProviderCost (input : ChatInput) (ad : Admission) (models : list Model) : M bool :=
  estimatedCost ← lift (estimateReservationCost ad.(ad_request) models);
  if estimatedCost <=? 0 then mret false
  else
    result ← Reserve (mkReserveInput input.(in_RequestID) input.(in_Principal).(OrgID) input.(in_Principal).(APIKeyID)
                        estimatedCost);
    if result.(rr_Allowed) then mret true
    else if String.eqb result.(rr_BlockedScope) ScopeTypeAPIKey
    then rejectQuota input ad.(ad_request).(req_Model) ad.(ad_quota) ad.(ad_content) ad.(ad_startedAt)
    else rejectBudget input ad.(ad_request).(req_Model) ad.(ad_budget) ad.(ad_content) ad.(ad_startedAt).

(** The deferred release: when the rest of the request fails, its reservations
    are released, and the error of the release is ignored. *)
Definition withRelease {A} (active : bool) (requestID : uuid) (rest : M A) : M A :=
  r ← try rest;
  match r with
  | Ok a => mret a
  | Err e =>
      _ ← (if active then _ ← try (Release requestID); mret tt else mret tt);
      fail e
  end.

(** ** Providers *)

Definition providerConfig (item : Provider) : M ProviderConfig :=
  let cfg := mkProviderConfig item.(Provider_ID) item.(Provider_Name) item.(Provider_Type)
               (default "" item.(Provider_BaseUrl)) "" item.(Provider_TimeoutMs) in
  if negb (String.eqb item.(Provider_Type) Providers.TypeOpenAICompatible) then mret cfg
  else
    _ ← lift (Outbound.ValidateOutboundHTTPURL cfg.(pc_BaseURL) "provider base_url" s.(publicOutboundOnly));
    secret ← Providers.GetProviderSecret item.(Provider_OrgID) item.(Provider_ID);
    match s.(secretKeyRing) with
    | None => fail (EMsg "provider secret keyring is invalid")
    | Some ring =>
        apiKey ← lift (Open ring secret.(ProviderSecret_EncryptedApiKey) secret.(ProviderSecret_Nonce)
                         secret.(ProviderSecret_KeyVersion));
        mret (mkProviderConfig cfg.(pc_ID) cfg.(pc_Name) cfg.(pc_Type) cfg.(pc_BaseURL) apiKey cfg.(pc_TimeoutMS))
    end.

(** The [select] between the timer and the end of the context. *)
Definition wait (backoff : Z) : M unit := λ w,
  match interrupted w.(w_tick) backoff with
  | Some e => (Err e, set_tick (S w.(w_tick)) w)
  | None => (Ok tt, set_tick (S w.(w_tick)) w)
  end.

(** The loop of [chatProviderWithRetry], from attempt number [attempt]; [fuel] is what is left. *)
Fixpoint chatAttempts (fuel : nat) (attempt : Z) (chat : M (option ChatResponse)) : M (result (option ChatResponse) * Z) :=
  let policy := Normalize s.(retryPolicy) in
  let last := maxAttempts s.(retryPolicy) in
  match fuel with
  | O => mret (Ok None, last)
  | S fuel' =>
      r ← try chat;
      match r with
      | Ok response => mret (Ok response, attempt)
      | Err e =>
          if (attempt =? last) || negb (ShouldRetry e) then mret (Err e, attempt)
          else
            slept ← try (wait policy.(Backoff));
            match slept with
            | Err e' => mret (Err e', attempt)
            | Ok _ => chatAttempts fuel' (attempt + 1) chat
            end
      end
  end.

Definition chatProviderWithRetry (chat : M (option ChatResponse)) : M (result (option ChatResponse) * Z) :=
  chatAttempts (Z.to_nat (maxAttempts s.(retryPolicy))) 1 chat.

Definition chatRequest (input : ChatInput) (request : ChatCompletionRequest) (cfg : ProviderConfig) (m : Model)
    (stream : bool) : ChatRequest :=
  mkChatRequest input.(in_RequestID) input.(in_Principal).(OrgID) cfg
    (mkModelConfig m.(Model_ID) m.(Model_ProviderModelName) m.(Model_DisplayName))
    request.(req_Messages) request.(req_Temperature) request.(req_MaxTokens) stream.

(** [AdapterFor] then [providerConfig]: either error makes the provider unavailable. *)
Definition prepareProvider (p : Provider) : M (Providers.Adapter * ProviderConfig) :=
  adapter ← lift (Providers.AdapterFor s.(publicOutboundOnly) p.(Provider_Type));
  cfg ← providerConfig p;
  mret (adapter, cfg).

Fixpoint tryTargets (input : ChatInput) (request : ChatCompletionRequest) (fallback : bool) (count index : Z)
    (targets : list Routing.ResolvedTarget) (st : loopState) : M loopState :=
  match targets with
  | [] => mret st
  | target :: rest =>
      let provider := target.(Routing.rt_Provider) in
      prepared ← catch (prepareProvider provider);
      match prepared with
      | Err e =>
          let st' := mkloopState
            (appendProviderAttempt st.(ls_attempts) target "error" CodeProviderUnavailable true 1) (Some target)
            st.(ls_providerStarted) st.(ls_providerResponse) (Some e) 503 CodeProviderUnavailable in
          if shouldTryNextFallbackTarget fallback true index count then
            _ ← observeProviderRequest provider.(Provider_Name) request.(req_Model) "error" CodeProviderUnavailable;
            tryTargets input request fallback count (index + 1) rest st'
          else mret st'
      | Ok (adapter, cfg) =>
          started ← clock;
          ra ← chatProviderWithRetry
                 (Adapters.adapterChat adapter (chatRequest input request cfg target.(Routing.rt_Model) false));
          match ra.1 with
          | Ok response =>
              mret (mkloopState (appendProviderAttempt st.(ls_attempts) target "success" "" false ra.2) (Some target)
                      started response st.(ls_lastErr) st.(ls_lastStatus) st.(ls_lastCode))
          | Err e =>
              let '(status, code) := providerErrorStatus e in
              let retryable := fallbackRetryable (Some e) in
              let st' := mkloopState
                (appendProviderAttempt st.(ls_attempts) target "error" code retryable ra.2) (Some target)
                started None (Some e) status code in
              _ ← observeProviderRequest provider.(Provider_Name) request.(req_Model) "error" code;
              if shouldTryNextFallbackTarget fallback retryable index count
              then tryTargets input request fallback count (index + 1) rest st'
              else mret st'
          end
      end
  end.

(** ** Recording the outcome *)

Definition recordedStatus (budget : BudgetService.CheckResult) : string :=
  if budget.(BudgetService.cr_Warning) then Metering.StatusBudgetWarned else Metering.StatusSuccess.
Definition statusLabel (budget : BudgetService.CheckResult) : string :=
  if budget.(BudgetService.cr_Warning) then Metering.StatusBudgetWarned else "success".

Definition attemptsMetadata (ad : Admission) (fallback : bool) (attempts : list ProviderAttempt) : option json :=
  withContentPolicyMetadata
    (withAnomalyMetadata
       (chatMetadata ad.(ad_budget) ad.(ad_quota) attempts fallback (fallback || hasRetriedTarget attempts))
       ad.(ad_anomaly)) ad.(ad_content).

(** No provider answered. *)
Definition providersFailed (input : ChatInput) (ad : Admission) (fallback : bool) (count : Z) (st : loopState)
    : M (Metering.RecordSuccessResult * Routing.ResolvedTarget * ChatResponse) :=
  let unavailable := isNone st.(ls_lastErr)
    || (fallback && fallbackRetryable st.(ls_lastErr) && (Z.of_nat (length st.(ls_attempts)) =? count)) in
  let status := if unavailable then 503 else st.(ls_lastStatus) in
  let code := if unavailable then CodeProviderUnavailable else st.(ls_lastCode) in
  let ids := match st.(ls_selected) with
             | Some t => (t.(Routing.rt_Provider).(Provider_ID), t.(Routing.rt_Model).(Model_ID))
             | None => (Nil, Nil)
             end in
  let name := match st.(ls_selected) with Some t => t.(Routing.rt_Provider).(Provider_Name) | None => "" end in
  _ ← try (recordFailure input ad.(ad_request).(req_Model) Metering.StatusError status code "" (Some ids)
             (attemptsMetadata ad fallback st.(ls_attempts)) ad.(ad_startedAt));
  now ← clock;
  _ ← observeGatewayRequest "error" name ad.(ad_request).(req_Model) (Sub now ad.(ad_startedAt));
  fail (EDomain status code "provider request failed").

(** The provider loop and, when one answered, the success record: everything
    the deferred release guards. *)
Definition callProviders (input : ChatInput) (ad : Admission) (resolved : Routing.ResolveTargetsResult)
    : M (Metering.RecordSuccessResult * Routing.ResolvedTarget * ChatResponse) :=
  let fallback := String.eqb resolved.(Routing.rr_RoutePolicy).(RoutePolicy_Strategy) Routing.StrategyFallback in
  let count := Z.of_nat (length resolved.(Routing.rr_Targets)) in
  let request := ad.(ad_request) in
  st ← tryTargets input request fallback count 0 resolved.(Routing.rr_Targets) loopStart;
  match st.(ls_providerResponse), st.(ls_selected) with
  | Some response, Some selected =>
      _ ← observeProviderRequest selected.(Routing.rt_Provider).(Provider_Name) request.(req_Model) "success" "";
      providerLatencyMS ← (let reported := wrap32 response.(rp_LatencyMS) in
                           if reported =? 0 then now ← clock; mret (latencyMS now st.(ls_providerStarted))
                           else mret reported);
      now1 ← clock;
      now2 ← clock;
      metered ← Metering.RecordSuccess s.(metering)
        (Metering.mkRecordSuccessInput input.(in_RequestID) input.(in_Principal).(OrgID) input.(in_Principal).(APIKeyID)
           selected.(Routing.rt_Provider).(Provider_ID) selected.(Routing.rt_Model).(Model_ID)
           (Some resolved.(Routing.rr_RoutePolicy).(RoutePolicy_ID)) input.(in_Method) input.(in_Path)
           request.(req_Model) (recordedStatus ad.(ad_budget)) 200 (hashBytes input.(in_RawBody))
           (hashBytes response.(rp_Content)) (latencyMS now1 ad.(ad_startedAt)) (Some providerLatencyMS)
           (attemptsMetadata ad fallback st.(ls_attempts)) (Some (default JNull response.(rp_Usage).(us_Raw)))
           response.(rp_Usage).(us_PromptTokens) response.(rp_Usage).(us_CompletionTokens)
           selected.(Routing.rt_Model).(Model_InputPriceMicroUsdPer1kTokens)
           selected.(Routing.rt_Model).(Model_OutputPriceMicroUsdPer1kTokens) ad.(ad_startedAt) now2);
      mret (metered, selected, response)
  | _, _ => providersFailed input ad fallback count st
  end.

(** ** Caches *)

Definition cachedChatResponse (requestID : uuid) (requestedModel : string) (target : Routing.ResolvedTarget)
    (cached : CachedChatResponse) (now : Z) : ChatCompletionResponse :=
  mkChatCompletionResponse requestID (Unix now) requestedModel target.(Routing.rt_Provider).(Provider_ID)
    target.(Routing.rt_Provider).(Provider_Name) target.(Routing.rt_Model).(Model_ProviderModelName)
    cached.(ca_Role) cached.(ca_Content) cached.(ca_FinishReason) 0 0 0 "USD" 0.

(** The body [respondFromPromptCache] and [respondFromSemanticCache] share;
    [event] records the hit. Without a target, [resolved.Targets[0]] panics. *)
Definition respondFromCache (input : ChatInput) (ad : Admission) (resolved : Routing.ResolveTargetsResult)
    (cached : CachedChatResponse) (metadata : option json) (event : uuid → M unit) : M ChatCompletionResponse :=
  match resolved.(Routing.rr_Targets) with
  | [] => fail EPanic
  | target :: _ =>
      now1 ← clock;
      now2 ← clock;
      requestLog ← Metering.RecordCacheHit s.(metering)
        (Metering.mkRecordCacheHitInput input.(in_RequestID) input.(in_Principal).(OrgID) input.(in_Principal).(APIKeyID)
           target.(Routing.rt_Provider).(Provider_ID) target.(Routing.rt_Model).(Model_ID)
           (Some resolved.(Routing.rr_RoutePolicy).(RoutePolicy_ID)) input.(in_Method) input.(in_Path)
           ad.(ad_request).(req_Model) (recordedStatus ad.(ad_budget)) 200 (hashBytes input.(in_RawBody))
           (hashBytes cached.(ca_Content)) (latencyMS now1 ad.(ad_startedAt)) None metadata ad.(ad_startedAt) now2);
      _ ← event requestLog.(RequestLog_ID);
      now3 ← clock;
      _ ← observeGatewayRequest (statusLabel ad.(ad_budget)) target.(Routing.rt_Provider).(Provider_Name)
            ad.(ad_request).(req_Model) (Sub now3 ad.(ad_startedAt));
      now4 ← clock;
      mret (cachedChatResponse input.(in_RequestID) ad.(ad_request).(req_Model) target cached now4)
  end.

Definition cacheMetadata (ad : Admission) (body : option json → option json) : option json :=
  withContentPolicyMetadata
    (withAnomalyMetadata (body (chatMetadata ad.(ad_budget) ad.(ad_quota) [] false false)) ad.(ad_anomaly)) ad.(ad_content).

Definition respondFromPromptCache (input : ChatInput) (ad : Admission) (resolved : Routing.ResolveTargetsResult)
    (cached : CachedChatResponse) (key : PromptKey) : M ChatCompletionResponse :=
  respondFromCache input ad resolved cached
    (cacheMetadata ad (λ m, withCacheMetadata m "hit" key.(pk_CacheKeyHash)))
    (λ id, recordCacheEvent input.(in_Principal).(OrgID) (Some id) "hit" ad.(ad_request).(req_Model) key "").

Definition respondFromSemanticCache (input : ChatInput) (ad : Admission) (resolved : Routing.ResolveTargetsResult)
    (m : Caches.SemanticMatch) : M ChatCompletionResponse :=
  respondFromCache input ad resolved m.(Caches.sm_Response)
    (cacheMetadata ad (λ b, withSemanticCacheMetadata b "semantic_hit" m.(Caches.sm_CacheKeyHash) (jsonFloat m.(Caches.sm_Similarity))))
    (λ id, recordSemanticCacheEvent input.(in_Principal).(OrgID) (Some id) "semantic_hit" ad.(ad_request).(req_Model)
             m.(Caches.sm_CacheKeyHash) m.(Caches.sm_MessagesHash) "").

(** The exact lookup: the cached response, or nothing after recording why. *)
Definition lookupPromptCache (input : ChatInput) (request : ChatCompletionRequest) (cacheKey : option PromptKey)
    : M (option CachedChatResponse) :=
  match cacheKey with
  | None => mret None
  | Some key =>
      r ← catch (Caches.PromptCache_Get s.(promptCache) key);
      match r with
      | Ok cached => mret (Some cached)
      | Err e =>
          if isCacheMiss e then
            _ ← recordCacheEvent input.(in_Principal).(OrgID) None "miss" request.(req_Model) key "";
            mret None
          else
            _ ← recordCacheEvent input.(in_Principal).(OrgID) None "read_error" request.(req_Model) key "redis_error";
            _ ← emit (EffWarn "prompt cache read failed");
            mret None
      end
  end.

Definition semanticCacheCandidate (input : ChatInput) (request : ChatCompletionRequest) (promptKey : option PromptKey)
    : M semanticCandidate :=
  match s.(semanticCache), s.(embedding), request.(req_Stream) with
  | Some _, Some Embed, false =>
    let given := default noPromptKey promptKey in
    match (if String.eqb given.(pk_CacheKeyHash) ""
           then Caches.BuildPromptKey (promptKeyInput request input.(in_Principal).(OrgID)) else Ok given) with
    | Err _ => mret noCandidate
    | Ok key =>
        let skip reason := mksemanticCandidate false reason key.(pk_CacheKeyHash) key.(pk_MessagesHash) [] in
        if match request.(req_Temperature) with Some t => f64_lt s.(semanticMaxTemp) t | None => false end
        then mret (skip "high_temperature")
        else if highRiskMessages request.(req_Messages) then mret (skip "high_risk")
        else
          match Embed (messagesText request.(req_Messages)) with
          | Err _ => mret (skip "embedding_error")
          | Ok vector => mret (mksemanticCandidate true "" key.(pk_CacheKeyHash) key.(pk_MessagesHash) vector)
          end
    end
  | _, _, _ => mret noCandidate
  end.

Definition lookupSemanticCache (input : ChatInput) (request : ChatCompletionRequest) (candidate : semanticCandidate)
    : M (option Caches.SemanticMatch) :=
  let record eventType reason :=
    recordSemanticCacheEvent input.(in_Principal).(OrgID) None eventType request.(req_Model)
      candidate.(sc_cacheKeyHash) candidate.(sc_messagesHash) reason in
  if candidate.(sc_enabled) then
    r ← catch (Caches.SemanticCache_Lookup s.(semanticCache) (Caches.mkSemanticLookupInput input.(in_Principal).(OrgID) request.(req_Model)
                                    candidate.(sc_embedding) s.(semanticThreshold)));
    match r with
    | Ok m => mret (Some m)
    | Err e =>
        if isSemanticCacheMiss e then _ ← record "semantic_miss" ""; mret None
        else
          _ ← record "semantic_read_error" "redis_error";
          _ ← emit (EffWarn "semantic cache read failed");
          mret None
    end
  else if negb (String.eqb candidate.(sc_skipReason) "") then
    _ ← record "semantic_skip" candidate.(sc_skipReason); mret None
  else mret None.

Definition storeInCaches (input : ChatInput) (request : ChatCompletionRequest) (cacheKey : option PromptKey)
    (candidate : semanticCandidate) (logID : uuid) (selected : Routing.ResolvedTarget) (response : ChatResponse) : M unit :=
  let cached := mkCachedChatResponse selected.(Routing.rt_Provider).(Provider_ID) selected.(Routing.rt_Model).(Model_ID)
    selected.(Routing.rt_Provider).(Provider_Name) selected.(Routing.rt_Model).(Model_ProviderModelName)
    response.(rp_Role) response.(rp_Content) response.(rp_FinishReason) ZeroTime in
  let org := input.(in_Principal).(OrgID) in
  _ ← (match cacheKey with
       | None => mret tt
       | Some key =>
           r ← try (Caches.PromptCache_Set s.(promptCache) key cached);
           match r with
           | Err _ =>
               _ ← recordCacheEvent org (Some logID) "write_error" request.(req_Model) key "redis_error";
               emit (EffWarn "prompt cache write failed")
           | Ok _ => recordCacheEvent org (Some logID) "store" request.(req_Model) key ""
           end
       end);
  if candidate.(sc_enabled) then
    r ← try (Caches.SemanticCache_Store s.(semanticCache) (Caches.mkSemanticStoreInput org request.(req_Model) candidate.(sc_messagesHash)
                                   candidate.(sc_embedding) cached));
    match r with
    | Err _ =>
        _ ← recordSemanticCacheEvent org (Some logID) "semantic_write_error" request.(req_Model)
              candidate.(sc_cacheKeyHash) candidate.(sc_messagesHash) "redis_error";
        emit (EffWarn "semantic cache write failed")
    | Ok m =>
        recordSemanticCacheEvent org (Some logID) "semantic_store" request.(req_Model) m.(Caches.sm_CacheKeyHash)
          m.(Caches.sm_MessagesHash) ""
    end
  else mret tt.

(** ** Chat *)

(** What follows a recorded success: caches, alerts, metrics, the response. *)
Definition respond (input : ChatInput) (ad : Admission) (cacheKey : option PromptKey) (candidate : semanticCandidate)
    (metered : Metering.RecordSuccessResult) (selected : Routing.ResolvedTarget) (response : ChatResponse)
    : M ChatCompletionResponse :=
  let request := ad.(ad_request) in
  let usage := metered.(Metering.res_UsageRecord) in
  let cost := metered.(Metering.res_CostRecord) in
  _ ← storeInCaches input request cacheKey candidate metered.(Metering.res_RequestLog).(RequestLog_ID) selected response;
  _ ← catch (BudgetAlerts.CheckAndDeliver s.(alerts) input.(in_Principal).(OrgID));
  now ← clock;
  _ ← observeGatewayRequest (statusLabel ad.(ad_budget)) selected.(Routing.rt_Provider).(Provider_Name)
        request.(req_Model) (Sub now ad.(ad_startedAt));
  _ ← metric "prompt_tokens" [request.(req_Model)] response.(rp_Usage).(us_PromptTokens);
  _ ← metric "completion_tokens" [request.(req_Model)] response.(rp_Usage).(us_CompletionTokens);
  _ ← metric "cost_micro_usd" [request.(req_Model)] cost.(CostRecord_TotalCostMicro);
  now' ← clock;
  mret (mkChatCompletionResponse input.(in_RequestID) (Unix now') request.(req_Model)
          selected.(Routing.rt_Provider).(Provider_ID) selected.(Routing.rt_Provider).(Provider_Name)
          selected.(Routing.rt_Model).(Model_ProviderModelName) response.(rp_Role) response.(rp_Content)
          response.(rp_FinishReason) usage.(UsageRecord_PromptTokens) usage.(UsageRecord_CompletionTokens)
          usage.(UsageRecord_TotalTokens) cost.(CostRecord_Currency) cost.(CostRecord_TotalCostMicro)).

(** The caches missed: reserve, call the providers, record, respond. *)
Definition serve (input : ChatInput) (ad : Admission) (resolved : Routing.ResolveTargetsResult)
    (cacheKey : option PromptKey) (candidate : semanticCandidate) : M ChatCompletionResponse :=
  active ← reserveProviderCost input ad (modelsFromResolvedTargets resolved.(Routing.rr_Targets));
  r ← withRelease active input.(in_RequestID) (callProviders input ad resolved);
  respond input ad cacheKey candidate r.1.1 r.1.2 r.2.

Definition emptyRequest (request : ChatCompletionRequest) : bool :=
  String.eqb request.(req_Model) "" || match request.(req_Messages) with [] => true | _ => false end.

Definition rejectRequest {A} (input : ChatInput) (request : ChatCompletionRequest) (startedAt : Z) (code message : string) : M A :=
  reject input request.(req_Model) Metering.StatusError 400 code None startedAt (mret tt) "error" message.

Definition Chat (input : ChatInput) : M ChatCompletionResponse :=
  startedAt ← clock;
  match unmarshalRequest input.(in_RawBody) with
  | Err _ => fail (EDomain 400 CodeInvalidRequest "invalid JSON body")
  | Ok request =>
      if request.(req_Stream) then rejectRequest input request startedAt CodeStreamNotSupported "stream is not supported"
      else if emptyRequest request
      then rejectRequest input request startedAt CodeInvalidRequest "model and messages are required"
      else
        ad ← admission input request startedAt (λ _, mret tt) (λ b q, chatMetadata b q [] false false);
        resolved ← orRouteNotFound input ad (Routing.ResolveTargets percentile_cont (resolveParams input ad.(ad_request)));
        let cacheKey := promptCacheKey ad.(ad_request) input.(in_Principal).(OrgID) in
        cached ← lookupPromptCache input ad.(ad_request) cacheKey;
        match cached, cacheKey with
        | Some cached, Some key => respondFromPromptCache input ad resolved cached key
        | _, _ =>
            candidate ← semanticCacheCandidate input ad.(ad_request) cacheKey;
            found ← lookupSemanticCache input ad.(ad_request) candidate;
            match found with
            | Some m => respondFromSemanticCache input ad resolved m
            | None => serve input ad resolved cacheKey candidate
            end
        end
  end.

(** ** Streaming *)

Record ChatStreamResult := mkChatStreamResult {
  sr_Stream : Adapters.ChatStream;
  sr_reservationActive : bool;
  sr_input : ChatInput;
  sr_admission : Admission;
  sr_policy : RoutePolicy;
  sr_provider : Provider;
  sr_model : Model;
  sr_providerStartedAt : Z
}.

(** A provider error of a stream, logged against the provider. *)
Definition streamFailed (input : ChatInput) (ad : Admission) (p : Provider) (m : Model) (status : Z) (code message : string)
    (counted : M unit) : M ChatStreamResult :=
  _ ← try (recordFailure input ad.(ad_request).(req_Model) Metering.StatusError status code ""
             (Some (p.(Provider_ID), m.(Model_ID)))
             (withContentPolicyMetadata (withAnomalyMetadata (streamMetadata ad.(ad_budget) ad.(ad_quota) false)
                ad.(ad_anomaly)) ad.(ad_content)) ad.(ad_startedAt));
  _ ← counted;
  now ← clock;
  _ ← observeGatewayRequest "error" p.(Provider_Name) ad.(ad_request).(req_Model) (Sub now ad.(ad_startedAt));
  fail (EDomain status code message).

Definition openStream (input : ChatInput) (ad : Admission) (active : bool) (policy : RoutePolicy) (p : Provider) (m : Model)
    : M ChatStreamResult :=
  prepared ← catch (prepareProvider p);
  match prepared with
  | Err _ => streamFailed input ad p m 503 CodeProviderUnavailable "provider unavailable" (mret tt)
  | Ok (adapter, cfg) =>
      providerStartedAt ← clock;
      r ← try (Adapters.adapterStreamChat adapter (chatRequest input ad.(ad_request) cfg m true));
      match r with
      | Err e =>
          let '(status, code) := providerErrorStatus e in
          streamFailed input ad p m status code "provider request failed"
            (observeProviderRequest p.(Provider_Name) ad.(ad_request).(req_Model) "error" code)
      | Ok stream => mret (mkChatStreamResult stream active input ad policy p m providerStartedAt)
      end
  end.

Definition StreamChat (input : ChatInput) : M ChatStreamResult :=
  startedAt ← clock;
  match unmarshalRequest input.(in_RawBody) with
  | Err _ => fail (EDomain 400 CodeInvalidRequest "invalid JSON body")
  | Ok request =>
      if emptyRequest request
      then rejectRequest input request startedAt CodeInvalidRequest "model and messages are required"
      else
        ad ← admission input request startedAt (λ request', recordPromptCacheSkip input request' "stream")
               (λ b q, streamMetadata b q false);
        resolved ← orRouteNotFound input ad (Routing.Resolve percentile_cont (resolveParams input ad.(ad_request)));
        let '(policy, p, m) := resolved in
        active ← reserveProviderCost input ad [m];
        withRelease active input.(in_RequestID) (openStream input ad active policy p m)
  end.

Definition releaseStream (result : ChatStreamResult) : M unit :=
  if result.(sr_reservationActive) then _ ← try (Release result.(sr_input).(in_RequestID)); mret tt else mret tt.

(** [return err] after the bookkeeping [m] of a call whose error is returned. *)
Definition thenReturn {A} (r : result A) (m : M unit) : M unit :=
  _ ← m; match r with Ok _ => mret tt | Err e => fail e end.

Definition streamEndMetadata (ad : Admission) (usage : option Usage) : option json :=
  withContentPolicyMetadata (withAnomalyMetadata (streamMetadata ad.(ad_budget) ad.(ad_quota) (isNone usage))
    ad.(ad_anomaly)) ad.(ad_content).

Definition FinalizeStream (result : ChatStreamResult) (usage : option Usage) (streamErr : option err) : M unit :=
  let input := result.(sr_input) in
  let ad := result.(sr_admission) in
  let model := ad.(ad_request).(req_Model) in
  let p := result.(sr_provider) in
  now ← clock;
  let providerLatencyMS := latencyMS now result.(sr_providerStartedAt) in
  completedAt ← clock;
  match streamErr, usage with
  | Some e, _ =>
      let '(status, code) := providerErrorStatus e in
      r ← try (recordFailure input model Metering.StatusError status code ""
                 (Some (p.(Provider_ID), result.(sr_model).(Model_ID))) (streamEndMetadata ad usage) ad.(ad_startedAt));
      thenReturn r
        (_ ← releaseStream result;
         _ ← observeProviderRequest p.(Provider_Name) model "error" code;
         now' ← clock;
         observeGatewayRequest "error" p.(Provider_Name) model (Sub now' ad.(ad_startedAt)))
  | None, None =>
      r ← try (Metering.RecordFailure s.(metering)
        (Metering.mkRecordFailureInput input.(in_RequestID) input.(in_Principal).(OrgID)
           (Some input.(in_Principal).(APIKeyID)) (Some p.(Provider_ID)) (Some result.(sr_model).(Model_ID))
           (Some result.(sr_policy).(RoutePolicy_ID)) input.(in_Method) input.(in_Path) model Metering.StatusError 200
           CodeUsageMissing (hashBytes input.(in_RawBody)) "" (latencyMS completedAt ad.(ad_startedAt))
           (Some providerLatencyMS) (streamEndMetadata ad usage) ad.(ad_startedAt) completedAt));
      thenReturn r
        (_ ← releaseStream result;
         observeGatewayRequest "error" p.(Provider_Name) model (Sub completedAt ad.(ad_startedAt)))
  | None, Some u =>
      r ← try (Metering.RecordSuccess s.(metering)
        (Metering.mkRecordSuccessInput input.(in_RequestID) input.(in_Principal).(OrgID) input.(in_Principal).(APIKeyID)
           p.(Provider_ID) result.(sr_model).(Model_ID) (Some result.(sr_policy).(RoutePolicy_ID)) input.(in_Method)
           input.(in_Path) model (recordedStatus ad.(ad_budget)) 200 (hashBytes input.(in_RawBody)) ""
           (latencyMS completedAt ad.(ad_startedAt)) (Some providerLatencyMS) (streamEndMetadata ad usage)
           (Some (default JNull u.(us_Raw))) u.(us_PromptTokens) u.(us_CompletionTokens)
           result.(sr_model).(Model_InputPriceMicroUsdPer1kTokens)
           result.(sr_model).(Model_OutputPriceMicroUsdPer1kTokens) ad.(ad_startedAt) completedAt));
      match r with
      | Err e => _ ← releaseStream result; fail e
      | Ok metered =>
          _ ← observeProviderRequest p.(Provider_Name) model "success" "";
          _ ← observeGatewayRequest (statusLabel ad.(ad_budget)) p.(Provider_Name) model (Sub completedAt ad.(ad_startedAt));
          _ ← metric "prompt_tokens" [model] u.(us_PromptTokens);
          _ ← metric "completion_tokens" [model] u.(us_CompletionTokens);
          metric "cost_micro_usd" [model] metered.(Metering.res_CostRecord).(CostRecord_TotalCostMicro)
      end
  end.

End Service.
End Gateway.
