(* ===== verification/Sql.v ===== *)
(** * Relational operators of the reports

    Left joins and groupings as list functions, and how sums pass through them. *)

From S2P Require Import Prelude GoTime Store.
#[local] Open Scope Z_scope.

Module Sql.

(** [a LEFT JOIN b ON on]: a row that joins nothing is kept, with nulls. *)
Definition left_join {A B} (on : A → B → bool) (l : list A) (l' : list B) : list (A * option B) :=
  flat_map (λ a, match List.filter (on a) l' with [] => [(a, None)] | bs => map (λ b, (a, Some b)) bs end) l.

(** [GROUP BY key]: the groups in the order their keys first occur. *)
Definition group_by {K A} `{EqDecision K} (key : A → K) (l : list A) : list (K * list A) :=
  map (λ k, (k, List.filter (λ a, bool_decide (key a = k)) l)) (remove_dups (map key l)).

(** An aggregate skips nulls: [COALESCE(sum(column), 0)]. *)
Definition sum_opt {A} (f : A → Z) (o : option A) : Z := match o with Some a => f a | None => 0 end.

Lemma sumZ_perm {A} (f : A → Z) l l' : l ≡ₚ l' → sumZ f l = sumZ f l'.
Proof. induction 1; rewrite ?sumZ_cons; lia. Qed.

Lemma sumZ_filter_bool {A} (f : A → Z) (p : A → bool) l :
  sumZ f (List.filter p l) = sumZ (λ a, if p a then f a else 0) l.
Proof. induction l as [|a l IH]; [done|]. simpl List.filter. rewrite (sumZ_cons _ a l). destruct (p a); rewrite ?sumZ_cons; lia. Qed.

Lemma sumZ_const {A} (l : list A) : sumZ (λ _, 1) l = Z.of_nat (length l).
Proof. induction l as [|a l IH]; [done|]. rewrite sumZ_cons. simpl length. lia. Qed.

Lemma sumZ_scale {A} (f : A → Z) k l : sumZ (λ a, f a * k) l = sumZ f l * k.
Proof. induction l as [|a l IH]; [done|]. rewrite !sumZ_cons. lia. Qed.

(** The order of summation is immaterial. *)
Lemma sumZ_swap {A B} (f : A → B → Z) l l' : sumZ (λ a, sumZ (f a) l') l = sumZ (λ b, sumZ (λ a, f a b) l) l'.
Proof.
  induction l as [|a l IH]; [symmetry; by apply sumZ_zero|]. rewrite sumZ_cons, IH, <- sumZ_add.
  apply sumZ_ext. intros b _. by rewrite sumZ_cons.
Qed.

(** Among elements told apart by [k], the sum over those with a given [k] is
    the one of the element found. *)
Lemma sumZ_find {A} (k : A → uuid) (f : A → Z) l i :
  NoDup (map k l) → sumZ (λ a, if (k a =? i)%N then f a else 0) l = sum_opt f (find (λ a, (k a =? i)%N) l).
Proof.
  induction l as [|a l IH]; intros Hk; [done|]. simpl in Hk. apply list.NoDup_cons in Hk as [Ha Hk].
  rewrite sumZ_cons. simpl. destruct (N.eqb_spec (k a) i) as [<-|Hne]; simpl; [|rewrite IH by done; lia].
  rewrite sumZ_zero; [lia|]. intros b Hb. destruct (N.eqb_spec (k b) (k a)) as [E|]; [|done].
  destruct Ha. rewrite <- E. by apply list_elem_of_In, in_map, list_elem_of_In.
Qed.

(** A sum over a left join: a row counts once for each it joins, or once. *)
Lemma sumZ_left_join {A B} (on : A → B → bool) (f : A * option B → Z) l l' :
  sumZ f (left_join on l l') =
  sumZ (λ a, match List.filter (on a) l' with [] => f (a, None) | bs => sumZ (λ b, f (a, Some b)) bs end) l.
Proof.
  unfold left_join. rewrite sumZ_flat_map. apply sumZ_ext. intros a _.
  destruct (List.filter (on a) l') as [|b bs]; [simpl; lia|]. by rewrite sumZ_map.
Qed.

(** Values of the right side only: those of the rows joined. *)
Lemma sumZ_left_join_right {A B} (on : A → B → bool) (f : B → Z) l l' :
  sumZ (λ r, sum_opt f r.2) (left_join on l l') = sumZ (λ a, sumZ (λ b, if on a b then f b else 0) l') l.
Proof.
  rewrite sumZ_left_join. apply sumZ_ext. intros a _. rewrite <- sumZ_filter_bool. by destruct (List.filter (on a) l').
Qed.

(** When at most one row of the right side joins, the left side is kept as it is. *)
Lemma left_join_fst {A B} (on : A → B → bool) (l : list A) (l' : list B) :
  (∀ a, (length (List.filter (on a) l') <= 1)%nat) → map fst (left_join on l l') = l.
Proof.
  intros H. unfold left_join. induction l as [|a l IH]; [done|]. cbn [flat_map]. rewrite map_app, IH.
  specialize (H a). destruct (List.filter (on a) l') as [|b [|]]; [done..|]. simpl in H. lia.
Qed.

Lemma filter_unique {A} (k : A → uuid) (p : A → bool) (i : uuid) l :
  NoDup (map k l) → (∀ a, p a = true → k a = i) → (length (List.filter p l) <= 1)%nat.
Proof.
  intros Hk Hp. induction l as [|a l IH]; simpl in *; [lia|]. apply list.NoDup_cons in Hk as [Ha Hk].
  destruct (p a) eqn:E; [|by apply IH]. rewrite filter_none_bool; [done|]. intros b Hb.
  destruct (p b) eqn:Eb; [|done]. destruct Ha. rewrite (Hp _ E), <- (Hp _ Eb).
  by apply list_elem_of_In, in_map, list_elem_of_In.
Qed.

(** What is kept of the left side is kept of the join. *)
Lemma left_join_filter {A B} (on : A → B → bool) (p : A → bool) l l' :
  List.filter (λ r, p r.1) (left_join on l l') = left_join on (List.filter p l) l'.
Proof.
  unfold left_join. induction l as [|a l IH]; [done|]. cbn [flat_map List.filter]. rewrite List.filter_app, IH.
  destruct (p a) eqn:E; cbn [flat_map].
  - f_equal. apply filter_all_bool. intros r Hr. destruct (List.filter (on a) l') as [|b bs].
    + by apply list_elem_of_singleton in Hr as ->.
    + apply list_elem_of_In, in_map_iff in Hr as (b' & <- & _). done.
  - rewrite filter_none_bool; [done|]. intros r Hr. destruct (List.filter (on a) l') as [|b bs].
    + by apply list_elem_of_singleton in Hr as ->.
    + apply list_elem_of_In, in_map_iff in Hr as (b' & <- & _). done.
Qed.

Lemma filter_filter_bool {A} (p q : A → bool) l : List.filter p (List.filter q l) = List.filter (λ a, q a && p a) l.
Proof. induction l as [|a l IH]; [done|]. simpl. destruct (q a); simpl; rewrite ?IH; by destruct (p a). Qed.

Lemma filter_ext_in {A} (p q : A → bool) l : (∀ a, a ∈ l → p a = q a) → List.filter p l = List.filter q l.
Proof. intros H. apply List.filter_ext_in. intros a Ha. by apply H, list_elem_of_In. Qed.

Lemma filter_map_bool {A B} (f : A → B) (p : B → bool) l : map f (List.filter (λ a, p (f a)) l) = List.filter p (map f l).
Proof. induction l as [|a l IH]; [done|]. simpl. destruct (p (f a)); simpl; by rewrite IH. Qed.

(** Values read off one list are those read off the other. *)
Lemma Forall2_map_keys {A B C} (R : A → B → Prop) (f : A → C) (g : B → C) l l' :
  Forall2 R l l' → (∀ a b, a ∈ l → R a b → g b = f a) → map g l' = map f l.
Proof.
  intros HR. induction HR as [|a b l l' H HR IH]; intros Hf; [done|]. simpl. rewrite (Hf a b), IH; [done| |by left|done].
  intros a' b' Ha. apply Hf. by right.
Qed.

Lemma sumZ_as_map {A} (f : A → Z) l : sumZ f l = sumZ id (map f l).
Proof. by rewrite sumZ_map. Qed.

Lemma Forall2_sumZ {A B} (R : A → B → Prop) (f : A → Z) (g : B → Z) l l' :
  Forall2 R l l' → (∀ a b, a ∈ l → R a b → g b = f a) → sumZ g l' = sumZ f l.
Proof. intros HR Hf. rewrite (sumZ_as_map g), (sumZ_as_map f). f_equal. by apply (Forall2_map_keys R). Qed.

Lemma map_sort_by {A B} (le : B → B → bool) (f : A → B) l : map f (sort_by (λ a b, le (f a) (f b)) l) = sort_by le (map f l).
Proof.
  induction l as [|a l IH]; [done|]. simpl. rewrite <- IH. generalize (sort_by (λ a b, le (f a) (f b)) l) as l'. intros l'.
  induction l' as [|b l' IH']; [done|]. simpl. destruct (le (f a) (f b)); simpl; [done|]. by rewrite IH'.
Qed.

Lemma mapM_ok {A B} (f : A → result B) l bs : mapM f l = Ok bs → Forall2 (λ a b, f a = Ok b) l bs.
Proof.
  revert bs. induction l as [|a l IH]; intros bs; simpl; [intros [= <-]; constructor|].
  intros (b & Hb & (bs' & Hbs & [= <-])%result_bind_ok)%result_bind_ok. constructor; auto.
Qed.

Section groups.
Context {K A : Type} `{EqDecision K} (key : A → K).

Lemma group_keys (l : list A) : map fst (group_by key l) = remove_dups (map key l).
Proof. unfold group_by. rewrite map_map. apply map_id. Qed.

Lemma group_keys_NoDup (l : list A) : NoDup (map fst (group_by key l)).
Proof. rewrite group_keys. apply NoDup_remove_dups. Qed.

Lemma elem_of_group_keys (l : list A) k : k ∈ map fst (group_by key l) ↔ ∃ a, a ∈ l ∧ key a = k.
Proof.
  rewrite group_keys, elem_of_remove_dups. split.
  - intros H. apply list_elem_of_In, in_map_iff in H as (a & Ha & Hin). exists a. by rewrite list_elem_of_In.
  - intros (a & Ha & <-). apply list_elem_of_In, in_map. by apply list_elem_of_In.
Qed.

Lemma elem_of_group (l : list A) k g : (k, g) ∈ group_by key l → g = List.filter (λ a, bool_decide (key a = k)) l.
Proof. intros H. apply list_elem_of_In, in_map_iff in H as (k' & [= -> <-] & _). done. Qed.

(** The groups partition the rows. *)
Lemma sumZ_groups (f : A → Z) l : sumZ (λ g, sumZ f g.2) (group_by key l) = sumZ f l.
Proof.
  unfold group_by. rewrite sumZ_map. simpl.
  rewrite (sumZ_ext _ (λ k, sumZ (λ a, if bool_decide (key a = k) then f a else 0) l)).
  2: { intros k _. apply sumZ_filter_bool. }
  rewrite sumZ_swap. apply sumZ_ext. intros a Ha.
  assert (Hin : key a ∈ remove_dups (map key l)).
  { apply elem_of_remove_dups, list_elem_of_In, in_map. by apply list_elem_of_In. }
  revert Hin. generalize (NoDup_remove_dups (map key l)). generalize (remove_dups (map key l)) as ks. clear Ha.
  induction ks as [|k ks IH]; intros Hnd Hin; [by apply not_elem_of_nil in Hin|].
  apply list.NoDup_cons in Hnd as [Hk Hnd]. rewrite sumZ_cons.
  apply elem_of_cons in Hin as [<-|Hin].
  - rewrite bool_decide_true by done. rewrite sumZ_zero; [lia|]. intros k Hk'. rewrite bool_decide_false; [done|]. by intros <-.
  - rewrite bool_decide_false; [rewrite IH by done; lia|]. by intros <-.
Qed.
End groups.
End Sql.
