(* ===== verification/HttpServer.v ===== *)
(** * The HTTP server: [internal/http], [internal/http/middleware]

    Requests, replies and the middlewares, each a function from handlers to
    handlers, composed the way the router composes them. A handler that returns
    no reply has panicked. Headers of replies and the access log are not
    modelled. *)

From S2P Require Import Prelude GoTime GoStrings Encodings Costing Store ExampleWorld QuotaService Tokens ApiKeys.
From S2P Require Import Rbac RateLimit Metering GatewayBase Caches.
#[local] Open Scope Z_scope.

(** A request, and how its client behaves: whether the body breaks off, how
    many writes of a streamed reply succeed before the client is gone ([None]:
    all), and whether the end of the upstream was seen by then. *)
Record Request := mkRequest {
  rq_Method : string;
  rq_Path : string;
  rq_Header : string → string;     (** [GetHeader]: empty when absent *)
  rq_GetQuery : string → option string;
  rq_Param : string → string;      (** the parameters of the path, as [Param] *)
  rq_Body : string;
  rq_BodyBreaks : bool;
  rq_Writes : option nat;
  rq_SeesEnd : bool
}.

Inductive body :=
| NoBody
| BodyError (code message requestID : string)
| BodyChat (response : GatewayBase.ChatCompletionResponse)
| BodyEvents (data : list string)            (** what was written of an event stream *)
| BodyJSON (value : json).

(** What a handler leaves in the context for [AdminAudit]. *)
Record auditInfo := mkauditInfo { au_ResourceType : string; au_ResourceID : option uuid; au_Action : option string }.

Record Reply := mkReply { re_Status : Z; re_Body : body; re_Audit : option auditInfo }.

(** What the server uses of third-party packages: [uuid.Parse], and
    [encoding/json] on the fields looked at before the request is decoded. *)
Class RequestParsing := {
  uuidParse : string → option uuid;
  probeStream : string → result bool;
  probeModel : string → string
}.

Module Http.
Import GatewayBase.

(** ** Errors *)

Definition CodeUnauthorized : string := "unauthorized".
Definition CodeForbidden : string := "forbidden".
Definition CodeNotFound : string := "not_found".
Definition CodeConflict : string := "conflict".
Definition CodeRateLimitExceeded : string := "rate_limit_exceeded".
Definition CodeInternalError : string := "internal_error".

Definition InvalidRequest (message : string) : err := EDomain 400 CodeInvalidRequest message.
Definition Unauthorized (message : string) : err := EDomain 401 CodeUnauthorized message.
Definition RequestTooLarge (message : string) : err := EDomain 413 CodeInvalidRequest message.
Definition NotFound (message : string) : err := EDomain 404 CodeNotFound message.
Definition Conflict (message : string) : err := EDomain 409 CodeConflict message.
Definition InternalError (message : string) : err := EDomain 500 CodeInternalError message.

(** ** The context of a request *)

Record Context := mkContext {
  cx_Request : Request;
  cx_RequestID : string;
  cx_Key : option APIKeyPrincipal;
  cx_Admin : option Rbac.AdminTokenPrincipal;
  cx_BodyLimit : Z
}.

Definition newContext (rq : Request) : Context := mkContext rq "" None None 0.

Definition Handler : Type := Context → M Reply.

Definition normalizeError (e : err) : Z * string * string :=
  match e with
  | EDomain status code message => (status, code, message)
  | _ => (500, CodeInternalError, "internal server error")
  end.

Definition errorReply (cx : Context) (status : Z) (code message : string) : Reply :=
  mkReply status (BodyError code message cx.(cx_RequestID)) None.

Definition RespondError (cx : Context) (e : err) : M Reply :=
  let '(status, code, message) := normalizeError e in mret (errorReply cx status code message).

Definition abortWithError (cx : Context) (status : Z) (code message : string) : M Reply :=
  mret (errorReply cx status code message).
Definition abortUnauthorized (cx : Context) : M Reply := abortWithError cx 401 CodeUnauthorized "unauthorized".

(** ** Tokens *)

Definition bearerToken (header : string) : option string :=
  if negb (HasPrefix header "Bearer ") then None
  else let token := TrimSpace (TrimPrefix header "Bearer ") in if String.eqb token "" then None else Some token.

(** ** Middlewares *)

Definition RequestIDHeader : string := "X-Request-Id".

Definition RequestID (next : Handler) : Handler := λ cx,
  let given := cx.(cx_Request).(rq_Header) RequestIDHeader in
  requestID ← (if String.eqb given "" then fresh ← new_uuid; mret (uuidString fresh) else mret given);
  next (mkContext cx.(cx_Request) requestID cx.(cx_Key) cx.(cx_Admin) cx.(cx_BodyLimit)).

Definition RequestBodyLimit (maxBytes : Z) (next : Handler) : Handler := λ cx,
  next (mkContext cx.(cx_Request) cx.(cx_RequestID) cx.(cx_Key) cx.(cx_Admin)
          (if 0 <? maxBytes then maxBytes else cx.(cx_BodyLimit))).

(** [gin.Recovery]. *)
Definition Recovery (next : Handler) : Handler := λ cx w,
  match next cx w with
  | (Err _, w') => (Ok (mkReply 500 NoBody None), w')
  | (Ok reply, w') => (Ok reply, w')
  end.

(** [io.ReadAll] of a body behind [http.MaxBytesReader]. *)
Inductive bodyError := BodyTooLarge | BodyBroken.
Definition ReadAll (cx : Context) : string + bodyError :=
  let rq := cx.(cx_Request) in
  if (0 <? cx.(cx_BodyLimit)) && (cx.(cx_BodyLimit) <? Z.of_nat (String.length rq.(rq_Body))) then inr BodyTooLarge
  else if rq.(rq_BodyBreaks) then inr BodyBroken
  else inl rq.(rq_Body).

(** A [RateLimiter], by the outcome of its n-th call. *)
Definition Limiter : Type := nat → APIKeyPrincipal → RateLimit.Decision * option err.
Definition LimiterAllow (limiter : Limiter) (principal : APIKeyPrincipal) : M (RateLimit.Decision * option err) :=
  n ← draw; mret (limiter n principal).

Section middleware.
Context `{Runtime, Digests, RequestParsing}.

Definition GatewayAPIKeyAuth (ring : TokenHashKeyRing) (next : Handler) : Handler := λ cx,
  match bearerToken (cx.(cx_Request).(rq_Header) "Authorization") with
  | None => abortUnauthorized cx
  | Some token =>
      r ← try (APIKeys.Authenticate ring token);
      match r with
      | Err _ => abortUnauthorized cx
      | Ok principal => next (mkContext cx.(cx_Request) cx.(cx_RequestID) (Some principal) cx.(cx_Admin) cx.(cx_BodyLimit))
      end
  end.

Definition RequireAPIKeyScope (scope : string) (next : Handler) : Handler := λ cx,
  match cx.(cx_Key) with
  | None => abortUnauthorized cx
  | Some principal =>
      if negb (Rbac.keyHasScope principal scope) then abortWithError cx 403 CodeForbidden "forbidden" else next cx
  end.

(** [uuid.Parse] of the request's id, or a new one. *)
Definition requestUUID (cx : Context) : M uuid :=
  match uuidParse cx.(cx_RequestID) with Some parsed => mret parsed | None => new_uuid end.

Definition requestHashAndModel (cx : Context) : string * string :=
  match ReadAll cx with
  | inr _ => ("", "")
  | inl body => if String.eqb body "" then ("", "") else ("sha256:" +:+ Caches.sha256Hex body, probeModel body)
  end.

Definition recordRateLimitFailure (recorder : option Metering.Service) (cx : Context) (principal : APIKeyPrincipal)
    (status : string) (statusCode : Z) (errorCode : string) (startedAt : Z) : M unit :=
  match recorder with
  | None => mret tt
  | Some ms =>
      requestID ← requestUUID cx;
      let '(requestHash, requestModel) := requestHashAndModel cx in
      now ← clock;
      completedAt ← clock;
      _ ← try (Metering.RecordFailure ms
        (Metering.mkRecordFailureInput requestID principal.(OrgID) (Some principal.(APIKeyID)) None None None
           cx.(cx_Request).(rq_Method) cx.(cx_Request).(rq_Path) requestModel status (wrap32 statusCode) errorCode requestHash ""
           (latencyMS now startedAt) None None startedAt completedAt));
      mret tt
  end.

Definition RateLimited (limiter : option Limiter) (recorder : option Metering.Service) (hasMetrics : bool) (next : Handler)
    : Handler := λ cx,
  startedAt ← clock;
  match cx.(cx_Key) with
  | None => abortUnauthorized cx
  | Some principal =>
      match limiter with
      | None => abortWithError cx 503 CodeProviderUnavailable "rate limit service unavailable"
      | Some limiter =>
          answer ← LimiterAllow limiter principal;
          match answer with
          | (_, Some _) =>
              _ ← recordRateLimitFailure recorder cx principal Metering.StatusError 503 CodeProviderUnavailable startedAt;
              abortWithError cx 503 CodeProviderUnavailable "rate limit service unavailable"
          | (decision, None) =>
              if negb decision.(RateLimit.dec_Allowed) then
                _ ← recordRateLimitFailure recorder cx principal Metering.StatusRateLimited 429 CodeRateLimitExceeded startedAt;
                _ ← (if hasMetrics then emit (EffMetric "rate_limited" [] 1) else mret tt);
                abortWithError cx 429 CodeRateLimitExceeded "rate limit exceeded"
              else next cx
          end
      end
  end.

(** What every route is behind. *)
Definition defaultMaxRequestBodyBytes : Z := Z.shiftl 8 20.
Definition served (route : Handler) (rq : Request) : M Reply :=
  RequestID (RequestBodyLimit defaultMaxRequestBodyBytes (Recovery route)) (newContext rq).
End middleware.
End Http.
