(* ===== verification/RequestLogs.v ===== *)
(** * The request log as the administrators read it

    [internal/http/handlers/admin/request_log_handler.go] and the query
    [ListRequestLogs]: pages of a window of the log, newest first, linked by
    cursors. *)

From Stdlib Require Import Ascii String QArith.
From S2P Require Import Prelude GoTime GoStrings Encodings Costing Store ExampleWorld QuotaService Tokens.
From S2P Require Import Rbac RateLimit Metering Float64 GatewayBase Caches HttpServer.
#[local] Open Scope Z_scope.

(** What the handlers use of [time] and [encoding/json] on texts: RFC 3339
    instants, and the cursor's object. *)
Class ReportText := {
  parseRFC3339 : string → option Z;
  jsonTime : Z → string;
  jsonDouble : Q → string;         (** the number a double is written as *)
  marshalCursor : Z → uuid → string;
  unmarshalCursor : string → option (Z * uuid)
}.

(** [json.Unmarshal] reads what [json.Marshal] wrote. *)
Class FaithfulCursor `{ReportText} : Prop := {
  cursor_faithful t id : unmarshalCursor (marshalCursor t id) = Some (t, id)
}.

Module RequestLogs.
Import GatewayBase Http.

(** ** [base64.RawURLEncoding.DecodeString] *)

Definition urlValue (c : ascii) : option N :=
  let n := byte_of c in
  if in_bytes 65 90 c then Some (n - 65)%N
  else if in_bytes 97 122 c then Some (n - 71)%N
  else if in_bytes 48 57 c then Some (n + 4)%N
  else if is_byte 45 c then Some 62%N
  else if is_byte 95 c then Some 63%N
  else None.

(** No padding; the bits that are left over in a short last group are dropped. *)
Fixpoint rawDecodeGroups (s : string) : option string :=
  match s with
  | EmptyString => Some EmptyString
  | String a EmptyString => None
  | String a (String b EmptyString) =>
      a' ← urlValue a; b' ← urlValue b; Some (String (ascii_of_N (a' * 4 + b' / 16)) "")
  | String a (String b (String c EmptyString)) =>
      a' ← urlValue a; b' ← urlValue b; c' ← urlValue c;
      Some (String (ascii_of_N (a' * 4 + b' / 16)) (String (ascii_of_N (b' mod 16 * 16 + c' / 4)) ""))
  | String a (String b (String c (String d s'))) =>
      a' ← urlValue a; b' ← urlValue b; c' ← urlValue c; d' ← urlValue d;
      rest ← rawDecodeGroups s';
      Some (String (ascii_of_N (a' * 4 + b' / 16)) (String (ascii_of_N (b' mod 16 * 16 + c' / 4))
              (String (ascii_of_N (c' mod 4 * 64 + d')) rest)))
  end%N.

Definition RawURLDecode (s : string) : option string := rawDecodeGroups (dropLineBreaks s).

(** ** Parameters of a request *)

Definition defaultListLimit : Z := 50.
Definition maxListLimit : Z := 200.
Definition defaultWindow : Z := 24 * Hour.

Section text.
Context {TX : ReportText} {RP : RequestParsing}.

Definition Query (cx : Context) (name : string) : string := default "" (cx.(cx_Request).(rq_GetQuery) name).

Definition parseInstant (value : string) (fallback : Z) (name : string) : result Z :=
  if String.eqb value "" then Ok fallback
  else match parseRFC3339 value with Some t => Ok t | None => Err (InvalidRequest ("invalid " +:+ name)) end.

Definition parseWindow (cx : Context) : M (result (Z * Z)) :=
  now ← clock;
  mret (from ← parseInstant (Query cx "from") (now - defaultWindow) "from";
        to ← parseInstant (Query cx "to") now "to";
        if from <? to then Ok (from, to) else Err (InvalidRequest "from must be before to")).

Definition parseBoundedInt32 (cx : Context) (name : string) (fallback max : Z) : result Z :=
  let value := Query cx name in
  if String.eqb value "" then Ok fallback
  else match ParseInt32 value with
       | Some parsed =>
           if (parsed <? 0) || (max <? parsed) then Err (InvalidRequest (name +:+ " is invalid")) else Ok parsed
       | None => Err (InvalidRequest (name +:+ " is invalid"))
       end.

Definition parseOptionalUUID (cx : Context) (name : string) : result (option uuid) :=
  let value := Query cx name in
  if String.eqb value "" then Ok None
  else match uuidParse value with Some id => Ok (Some id) | None => Err (InvalidRequest ("invalid " +:+ name)) end.

Definition pgText (value : string) : option string := if String.eqb value "" then None else Some value.

(** ** The query *)

Record ListRequestLogsParams := mkListRequestLogsParams {
  lp_OrgID : uuid;
  lp_FromAt : Z;
  lp_ToAt : Z;
  lp_Status : option string;
  lp_ErrorCode : option string;
  lp_RequestModel : option string;
  lp_ApiKeyID : option uuid;
  lp_ProviderID : option uuid;
  lp_ModelID : option uuid
}.
Definition requestLogCursor : Type := Z * uuid.

(** [$n IS NULL OR column = $n]: a null column equals nothing. *)
Definition null_or_eq {A} (eqb : A → A → bool) (param column : option A) : bool :=
  match param with
  | None => true
  | Some v => match column with Some c => eqb c v | None => false end
  end.

Definition matches (p : ListRequestLogsParams) (l : RequestLog) : bool :=
  (l.(RequestLog_OrgID) =? p.(lp_OrgID))%N
  && (p.(lp_FromAt) <=? l.(RequestLog_StartedAt)) && (l.(RequestLog_StartedAt) <? p.(lp_ToAt))
  && null_or_eq String.eqb p.(lp_Status) (Some l.(RequestLog_Status))
  && null_or_eq String.eqb p.(lp_ErrorCode) l.(RequestLog_ErrorCode)
  && null_or_eq String.eqb p.(lp_RequestModel) l.(RequestLog_RequestModel)
  && null_or_eq N.eqb p.(lp_ApiKeyID) l.(RequestLog_ApiKeyID)
  && null_or_eq N.eqb p.(lp_ProviderID) l.(RequestLog_ProviderID)
  && null_or_eq N.eqb p.(lp_ModelID) l.(RequestLog_ModelID).

Definition cursor_of (l : RequestLog) : requestLogCursor := (l.(RequestLog_StartedAt), l.(RequestLog_ID)).

(** [(started_at, id) < ($10, $11)]. *)
Definition before (c c' : requestLogCursor) : bool := (c.1 <? c'.1) || ((c.1 =? c'.1) && (c.2 <? c'.2)%N).
Definition past (cursor : option requestLogCursor) (l : RequestLog) : bool :=
  match cursor with None => true | Some c => before (cursor_of l) c end.

(** [ORDER BY started_at DESC, id DESC]. *)
Definition newest_first (a b : RequestLog) : bool := negb (before (cursor_of a) (cursor_of b)).

Definition ListRequestLogs (p : ListRequestLogsParams) (cursor : option requestLogCursor) (limit : Z) (d : DB)
    : result (list RequestLog) :=
  Ok (take (Z.to_nat limit) (sort_by newest_first (List.filter (λ l, matches p l && past cursor l) d.(request_logs)))).

(** ** The cursor *)

Definition encodeRequestLogCursor (cursor : requestLogCursor) : string := RawURLEncode (marshalCursor cursor.1 cursor.2).

Definition decodeRequestLogCursor (value : string) : option requestLogCursor :=
  body ← RawURLDecode value;
  '(startedAt, id) ← unmarshalCursor body;
  if IsZero startedAt || (id =? Nil)%N then None else Some (startedAt, id).

(** ** The handler *)

Definition optional (name : string) (value : option json) : list (string * json) :=
  match value with Some v => [(name, v)] | None => [] end.
Definition orNull (value : option json) : json := default JNull value.
Definition jsonUUID (id : uuid) : json := JStr (uuidString id).

Definition newRequestLogResponse (l : RequestLog) : json :=
  JObj ([("id", jsonUUID l.(RequestLog_ID)); ("request_model", orNull (JStr <$> l.(RequestLog_RequestModel)));
         ("status", JStr l.(RequestLog_Status)); ("status_code", JNum l.(RequestLog_StatusCode));
         ("error_code", orNull (JStr <$> l.(RequestLog_ErrorCode))); ("latency_ms", JNum l.(RequestLog_LatencyMs));
         ("provider_latency_ms", orNull (JNum <$> l.(RequestLog_ProviderLatencyMs)));
         ("started_at", JStr (jsonTime l.(RequestLog_StartedAt))); ("completed_at", JStr (jsonTime l.(RequestLog_CompletedAt)))] ++
        optional "api_key_id" (jsonUUID <$> l.(RequestLog_ApiKeyID)) ++
        optional "provider_id" (jsonUUID <$> l.(RequestLog_ProviderID)) ++
        optional "model_id" (jsonUUID <$> l.(RequestLog_ModelID))).

(** The rows of a page and the cursor of the next: one row more than the page
    holds is asked for. [logs[len(logs)-1]] panics when the page holds none. *)
Definition nextPage (limit : Z) (logs : list RequestLog) : result (list RequestLog * option requestLogCursor) :=
  if limit <? Z.of_nat (length logs) then
    let logs := take (Z.to_nat limit) logs in
    match list.last logs with
    | Some l => Ok (logs, Some (cursor_of l))
    | None => Err EPanic
    end
  else Ok (logs, None).

(** The parameters of a request, in the order they are checked. *)
Definition listParams (cx : Context) (orgID : uuid) (window : Z * Z)
    : result (ListRequestLogsParams * option requestLogCursor * Z) :=
  limit ← parseBoundedInt32 cx "limit" defaultListLimit maxListLimit;
  apiKeyID ← parseOptionalUUID cx "api_key_id";
  providerID ← parseOptionalUUID cx "provider_id";
  modelID ← parseOptionalUUID cx "model_id";
  cursor ← (let value := Query cx "cursor" in
            if String.eqb value "" then Ok None
            else match decodeRequestLogCursor value with
                 | Some cursor => Ok (Some cursor)
                 | None => Err (InvalidRequest "invalid cursor")
                 end);
  Ok (mkListRequestLogsParams orgID window.1 window.2 (pgText (Query cx "status")) (pgText (Query cx "error_code"))
        (pgText (Query cx "request_model")) apiKeyID providerID modelID, cursor, limit).

Definition List : Handler := λ cx,
  match cx.(cx_Admin) with
  | None => RespondError cx (Unauthorized "unauthorized")
  | Some principal =>
      window ← parseWindow cx;
      match window ≫= listParams cx principal.(Rbac.at_OrgID) with
      | Err e => RespondError cx e
      | Ok (params, cursor, limit) =>
          r ← try (query (ListRequestLogs params cursor (limit + 1)));
          match r with
          | Err _ => RespondError cx (InternalError "internal server error")
          | Ok logs =>
              '(items, next) ← lift (nextPage limit logs);
              mret (mkReply 200 (BodyJSON (JObj
                [("items", JArr (map newRequestLogResponse items));
                 ("next_cursor", orNull ((λ c, JStr (encodeRequestLogCursor c)) <$> next))])) None)
          end
      end
  end.

(** Following the cursors from the first page, as a client does: the cursor
    goes through its text. *)
Fixpoint walk (fuel : nat) (p : ListRequestLogsParams) (limit : Z) (cursor : option requestLogCursor) (d : DB)
    : result (list (list RequestLog)) :=
  match fuel with
  | O => Ok []
  | S fuel =>
      logs ← ListRequestLogs p cursor (limit + 1) d;
      '(items, next) ← nextPage limit logs;
      match next with
      | None => Ok [items]
      | Some c =>
          match decodeRequestLogCursor (encodeRequestLogCursor c) with
          | None => Err (InvalidRequest "invalid cursor")
          | Some c' => rest ← walk fuel p limit (Some c') d; Ok (items :: rest)
          end
      end
  end.
End text.

(** ** Proofs *)

Lemma urlValue_digit n : (n < 64)%N → urlValue (urlDigit n) = Some n.
Proof.
  intros Hn. assert (H : below 64 (λ n, bool_decide (urlValue (urlDigit n) = Some n)) = true) by by vm_compute.
  by apply (below_spec _ _ _ H), bool_decide_eq_true in Hn.
Qed.

Lemma RawURLDecode_encode s : RawURLDecode (RawURLEncode s) = Some s.
Proof.
  unfold RawURLDecode. rewrite dropLineBreaks_printable by apply tokenByte_printable, RawURLEncode_bytes.
  unfold RawURLEncode. induction s as [s IH] using string_len_ind.
  destruct s as [|x [|y [|z s]]]; [done|..]; cbn [b64encode rawDecodeGroups].
  - destruct (b64_digits (byte_of x) 0 0) as (? & ? & ?); [apply byte_lt|lia..|].
    destruct (b64_bytes (byte_of x) 0 0) as (? & E & ?); [apply byte_lt|lia..|].
    rewrite !urlValue_digit by done. simpl. by rewrite E, ascii_of_byte.
  - destruct (b64_digits (byte_of x) (byte_of y) 0) as (? & ? & ? & ? & ?); [apply byte_lt..|lia|].
    destruct (b64_bytes (byte_of x) (byte_of y) 0) as (E1 & _ & _ & E2 & _); [apply byte_lt..|lia|].
    rewrite !urlValue_digit by done. simpl. by rewrite E1, E2, !ascii_of_byte.
  - destruct (b64_digits (byte_of x) (byte_of y) (byte_of z)) as (? & ? & ? & ? & ? & ?); [apply byte_lt..|].
    destruct (b64_bytes (byte_of x) (byte_of y) (byte_of z)) as (E1 & _ & E2 & _ & E3); [apply byte_lt..|].
    rewrite !urlValue_digit by done. simpl.
    rewrite IH by (simpl; lia). simpl. by rewrite E1, E2, E3, !ascii_of_byte.
Qed.

(** The order of the log. *)
Lemma before_irrefl c : before c c = false.
Proof. unfold before. by rewrite Z.ltb_irrefl, N.ltb_irrefl, andb_false_r. Qed.

Lemma before_iff c c' : before c c' = true ↔ c.1 < c'.1 ∨ (c.1 = c'.1 ∧ (c.2 < c'.2)%N).
Proof. unfold before. rewrite orb_true_iff, andb_true_iff, Z.ltb_lt, Z.eqb_eq, N.ltb_lt. done. Qed.

Lemma before_trans a b c : before a b = true → before b c = true → before a c = true.
Proof. rewrite !before_iff. lia. Qed.

Lemma before_asym a b : before a b = true → before b a = false.
Proof. intros H. apply not_true_iff_false. rewrite before_iff in *. lia. Qed.

Lemma before_total a b : a ≠ b → before a b = false → before b a = true.
Proof.
  destruct a as [t i], b as [t' i']. intros Hne H. apply not_true_iff_false in H. rewrite before_iff in *. simpl in *.
  destruct (decide (t = t')) as [->|]; [|lia]. destruct (decide (i = i')) as [->|]; [done|lia].
Qed.

(** Newer than: strictly. *)
Definition newer (a b : RequestLog) : Prop := before (cursor_of b) (cursor_of a) = true.

#[export] Instance newer_antisymm : AntiSymm (=) newer.
Proof. intros a b H1 H2. unfold newer in *. apply before_asym in H1. congruence. Qed.

Definition keyed (logs : list RequestLog) : Prop := NoDup (map RequestLog_ID logs).

Lemma keyed_inj logs a b : keyed logs → a ∈ logs → b ∈ logs → RequestLog_ID a = RequestLog_ID b → a = b.
Proof.
  unfold keyed. induction logs as [|x logs IH]; simpl; intros Hk Ha Hb E; [by apply not_elem_of_nil in Ha|].
  apply list.NoDup_cons in Hk as [Hx Hk].
  assert (Hmem : ∀ y, y ∈ logs → RequestLog_ID y ∈ map RequestLog_ID logs).
  { intros y Hy. apply list_elem_of_In, in_map. by apply list_elem_of_In. }
  apply elem_of_cons in Ha as [->|Ha]; apply elem_of_cons in Hb as [->|Hb]; [done| | |by apply IH].
  - destruct Hx. rewrite E. by apply Hmem.
  - destruct Hx. rewrite <- E. by apply Hmem.
Qed.

Lemma sort_newer logs : keyed logs → StronglySorted newer (sort_by newest_first logs).
Proof.
  intros Hk. assert (Hs : StronglySorted (λ a b, newest_first a b = true) (sort_by newest_first logs)).
  { apply sort_by_sorted; unfold newest_first.
    - intros a b. rewrite negb_false_iff, negb_true_iff. apply before_asym.
    - intros a b c. rewrite !negb_true_iff, <- !not_true_iff_false, !before_iff. lia. }
  assert (Hnd : NoDup (sort_by newest_first logs)).
  { rewrite sort_by_perm. unfold keyed in Hk. apply base.NoDup_ListNoDup in Hk. apply base.NoDup_ListNoDup.
    by eapply NoDup_map_inv. }
  assert (Hin : ∀ x, x ∈ sort_by newest_first logs → x ∈ logs) by (intros x; by rewrite sort_by_perm).
  induction Hs as [|a l Hs IH Ha]; constructor.
  - apply list.NoDup_cons in Hnd as [_ Hnd]. apply IH; [done|]. intros x Hx. apply Hin. by right.
  - apply list.NoDup_cons in Hnd as [Hnot _]. rewrite List.Forall_forall in Ha |- *. intros b Hb.
    pose proof (Ha b Hb) as Hab. unfold newest_first in Hab. apply negb_true_iff in Hab.
    apply list_elem_of_In in Hb. unfold newer. apply before_total; [|done]. intros E. apply Hnot.
    replace a with b; [done|]. apply (keyed_inj logs); [done|apply Hin; by right|apply Hin; by left|].
    unfold cursor_of in E. by injection E.
Qed.

Lemma sort_filter (q : RequestLog → bool) logs :
  keyed logs → sort_by newest_first (List.filter q logs) = List.filter q (sort_by newest_first logs).
Proof.
  intros Hk. apply (StronglySorted_unique newer).
  - apply sort_newer. unfold keyed in *. apply base.NoDup_ListNoDup. apply base.NoDup_ListNoDup in Hk.
    induction logs as [|x logs IH]; simpl in *; [done|]. inversion Hk as [|? ? Hx Hk']; subst.
    destruct (q x); simpl; [|auto]. constructor; [|auto]. intros Hin. apply Hx.
    apply in_map_iff in Hin as (y & Hy & Hin). apply filter_In in Hin as [Hin _]. apply in_map_iff. by exists y.
  - by apply StronglySorted_filter_bool, sort_newer.
  - rewrite sort_by_perm. symmetry. by apply Permutation_filter_bool, sort_by_perm.
Qed.

(** What is past the last row of a prefix is the rest. *)
Definition cursor_at (pre : list RequestLog) : option requestLogCursor := cursor_of <$> list.last pre.

Lemma past_rest pre rest : StronglySorted newer (pre ++ rest) → List.filter (past (cursor_at pre)) (pre ++ rest) = rest.
Proof.
  unfold cursor_at. destruct (list.last pre) as [x|] eqn:E; simpl.
  2: { apply last_None in E as ->. intros _. by apply filter_all_bool. }
  apply last_Some in E as [pre' ->]. intros Hs. rewrite List.filter_app.
  assert (Hx : ∀ y, y ∈ pre' ++ [x] → past (Some (cursor_of x)) y = false).
  { rewrite <- app_assoc in Hs. intros y [Hy|Hy]%elem_of_app; simpl; [|by apply list_elem_of_singleton in Hy as ->; apply before_irrefl].
    apply before_asym. induction pre' as [|z pre' IH]; [by apply not_elem_of_nil in Hy|].
    simpl in Hs. apply StronglySorted_cons_elem in Hs as [Hz Hs].
    apply elem_of_cons in Hy as [->|Hy]; [|by apply IH]. apply Hz. apply elem_of_app. right. by left. }
  rewrite (filter_none_bool _ _ Hx). simpl. apply filter_all_bool. intros y Hy.
  rewrite <- app_assoc in Hs. clear Hx. induction pre' as [|z pre' IH]; simpl in *.
  - apply StronglySorted_cons_elem in Hs as [Hz _]. by apply Hz.
  - apply StronglySorted_cons_elem in Hs as [_ Hs]. by apply IH.
Qed.

Lemma list_page p pre rest limit d :
  keyed d.(request_logs) → sort_by newest_first (List.filter (matches p) d.(request_logs)) = pre ++ rest →
  ListRequestLogs p (cursor_at pre) limit d = Ok (take (Z.to_nat limit) rest).
Proof.
  intros Hk E. unfold ListRequestLogs. do 2 f_equal. rewrite sort_filter by done. rewrite sort_filter in E by done.
  assert (Hand : ∀ (f g : RequestLog → bool) l, List.filter (λ x, f x && g x) l = List.filter g (List.filter f l)).
  { intros f g l. induction l as [|x l IH]; simpl; [done|]. destruct (f x); simpl; rewrite IH; by destruct (g x). }
  rewrite Hand, E. apply past_rest. rewrite <- E. by apply StronglySorted_filter_bool, sort_newer.
Qed.

Section pages.
Context {TX : ReportText} {FC : FaithfulCursor}.

Lemma cursor_text c : IsZero c.1 = false → c.2 ≠ Nil → decodeRequestLogCursor (encodeRequestLogCursor c) = Some c.
Proof.
  intros Ht Hi. unfold decodeRequestLogCursor, encodeRequestLogCursor. rewrite RawURLDecode_encode. simpl.
  rewrite cursor_faithful. simpl. rewrite Ht, (proj2 (N.eqb_neq _ _) Hi). by destruct c.
Qed.

Lemma walk_from fuel p limit pre rest d :
  keyed d.(request_logs) → Forall (λ l, IsZero l.(RequestLog_StartedAt) = false ∧ l.(RequestLog_ID) ≠ Nil) d.(request_logs) →
  1 <= limit → sort_by newest_first (List.filter (matches p) d.(request_logs)) = pre ++ rest → (length rest < fuel)%nat →
  ∃ pages, walk fuel p limit (cursor_at pre) d = Ok pages ∧ concat pages = rest ∧
    Forall (λ page, Z.of_nat (length page) <= limit) pages.
Proof.
  intros Hk Hnz Hl. revert pre rest. induction fuel as [|fuel IH]; intros pre rest E Hfuel; [lia|]. cbn [walk].
  rewrite (list_page _ _ _ _ _ Hk E). cbn [mbind result_bind]. unfold nextPage.
  rewrite length_take. destruct (Z.ltb_spec limit (Z.of_nat (Nat.min (Z.to_nat (limit + 1)) (length rest)))) as [Hlt|Hge].
  - rewrite take_take. replace (Nat.min (Z.to_nat limit) (Z.to_nat (limit + 1))) with (Z.to_nat limit) by lia.
    set (page := take (Z.to_nat limit) rest). assert (Hlen : length page = Z.to_nat limit) by (unfold page; rewrite length_take; lia).
    destruct (list.last page) as [x|] eqn:Ex; [|apply last_None in Ex; rewrite Ex in Hlen; simpl in Hlen; lia].
    cbn [mbind result_bind].
    assert (Hx : x ∈ d.(request_logs)).
    { apply last_Some in Ex as [page' Hp]. assert (Hin : x ∈ pre ++ rest).
      { apply elem_of_app. right. rewrite <- (take_drop (Z.to_nat limit) rest). apply elem_of_app. left.
        change (take (Z.to_nat limit) rest) with page. rewrite Hp. apply elem_of_app. right. by left. }
      rewrite <- E, sort_by_perm in Hin. apply list_elem_of_In, filter_In in Hin as [Hin _]. by apply list_elem_of_In. }
    rewrite List.Forall_forall in Hnz. apply list_elem_of_In in Hx. destruct (Hnz x Hx) as [Ht Hi].
    rewrite cursor_text by done.
    destruct (IH (pre ++ page) (drop (Z.to_nat limit) rest)) as (pages & Hw & Hc & Hf).
    { rewrite <- app_assoc. unfold page. by rewrite take_drop. }
    { rewrite length_drop. lia. }
    replace (cursor_at (pre ++ page)) with (Some (cursor_of x)) in Hw.
    2: { unfold cursor_at. by rewrite last_app, Ex. }
    rewrite Hw. simpl. exists (page :: pages). split; [done|]. split; [simpl; rewrite Hc; apply take_drop|].
    constructor; [lia|done].
  - cbn [mbind result_bind]. exists [take (Z.to_nat (limit + 1)) rest]. split; [done|]. simpl. rewrite app_nil_r.
    rewrite take_ge by lia. split; [done|]. constructor; [lia|done].
Qed.

(** C17: the pages of the request log are complete. For any filters and any
    positive page size, a client that follows the cursors from the first page
    gets to a last page, no page is longer than asked for, and together the
    pages are exactly the rows that match, each once, newest first; the text of
    every cursor on the way is accepted and leads on from where it was given. *)
Theorem pages_complete (p : ListRequestLogsParams) (limit : Z) (d : DB) :
  keyed d.(request_logs) → Forall (λ l, IsZero l.(RequestLog_StartedAt) = false ∧ l.(RequestLog_ID) ≠ Nil) d.(request_logs) →
  1 <= limit →
  let rows := List.filter (matches p) d.(request_logs) in
  ∃ pages, walk (S (length rows)) p limit None d = Ok pages ∧ Forall (λ page, Z.of_nat (length page) <= limit) pages ∧
    concat pages ≡ₚ rows ∧ StronglySorted newer (concat pages).
Proof.
  intros Hk Hnz Hl rows. destruct (walk_from (S (length rows)) p limit [] (sort_by newest_first rows) d) as (pages & Hw & Hc & Hf);
    [done..| |].
  { rewrite sort_by_perm. lia. }
  exists pages. rewrite Hc. split; [exact Hw|]. split; [done|]. split; [apply sort_by_perm|].
  unfold rows. rewrite sort_filter by done. by apply StronglySorted_filter_bool, sort_newer.
Qed.
End pages.

Section page.
Context {TX : ReportText} {RP : RequestParsing}.

Lemma listParams_limit cx orgID window params cursor limit :
  listParams cx orgID window = Ok (params, cursor, limit) → 0 <= limit <= maxListLimit.
Proof.
  unfold listParams. intros (l & Hl & H)%result_bind_ok.
  repeat apply result_bind_ok in H as (? & _ & H). injection H as _ _ ->.
  unfold parseBoundedInt32, defaultListLimit, maxListLimit in *. case_all Hl; eqb_to_prop; lia.
Qed.

Lemma parseWindow_world cx w : ∃ r, parseWindow cx w = (Ok r, set_tick (S (w_tick w)) w).
Proof. by eexists. Qed.

Lemma nextPage_panics limit logs :
  0 <= limit → nextPage limit logs = Err EPanic ↔ limit = 0 ∧ logs ≠ [].
Proof.
  intros Hl. unfold nextPage. destruct (Z.ltb_spec limit (Z.of_nat (length logs))) as [Hlt|Hge].
  - destruct (list.last (take (Z.to_nat limit) logs)) eqn:E.
    + split; [done|]. intros [-> _]. done.
    + apply last_None, (f_equal length) in E. rewrite length_take in E. simpl in E.
      split; [|done]. intros _. split; [lia|]. intros ->; simpl in *; lia.
  - split; [done|]. intros [-> Hne]. destruct logs; simpl in *; [done|lia].
Qed.

Lemma ListRequestLogs_none p cursor limit d logs :
  ListRequestLogs p cursor limit d = Ok logs → 1 <= limit →
  logs ≠ [] ↔ ∃ l, l ∈ d.(request_logs) ∧ matches p l = true ∧ past cursor l = true.
Proof.
  intros [= <-] Hl. split.
  - set (rows := sort_by _ _). destruct rows as [|l rows'] eqn:E; [by rewrite take_nil|]. intros _. exists l.
    assert (Hin : l ∈ rows) by (rewrite E; by left). unfold rows in Hin. rewrite sort_by_perm in Hin.
    apply list_elem_of_In, filter_In in Hin as [Hin Hp]. apply andb_true_iff in Hp as [? ?].
    split; [by apply list_elem_of_In|done].
  - intros (l & Hin & Hm & Hp) E. apply take_nil_inv in E as [E|E]; [lia|].
    assert (Hs : l ∈ sort_by newest_first (List.filter (λ l, matches p l && past cursor l) d.(request_logs))).
    { rewrite sort_by_perm. apply list_elem_of_In, filter_In. split; [by apply list_elem_of_In|by rewrite Hm]. }
    rewrite E in Hs. by apply not_elem_of_nil in Hs.
Qed.

(** The handler of the request log crashes on a page size of zero, and only
    there. With valid parameters and a working database it panics exactly when
    [limit=0] was asked for and some row matches: zero is accepted, one row is
    read, the page is cut to nothing and its last element is taken. *)
Theorem limit_zero_panics (cx : Context) (principal : Rbac.AdminTokenPrincipal) (window : Z * Z)
    (params : ListRequestLogsParams) (cursor : option requestLogCursor) (limit : Z) (w : world) :
  cx.(cx_Admin) = Some principal → w_faults w = [] → (parseWindow cx w).1 = Ok (Ok window) →
  listParams cx principal.(Rbac.at_OrgID) window = Ok (params, cursor, limit) →
  (List cx w).1 = Err EPanic ↔
  limit = 0 ∧ ∃ l, l ∈ (w_db w).(request_logs) ∧ matches params l = true ∧ past cursor l = true.
Proof.
  intros Ha Hf Hw Hp. pose proof (listParams_limit _ _ _ _ _ _ Hp) as Hl.
  rewrite <- (ListRequestLogs_none params cursor (limit + 1) (w_db w) _ eq_refl) by lia.
  rewrite <- nextPage_panics by lia. unfold List. rewrite Ha. unfold mbind at 1, M_bind at 1.
  destruct (parseWindow_world cx w) as [r Er]. rewrite Er in *. injection Hw as ->. cbn. rewrite Hp.
  unfold mbind at 1, M_bind at 1, try, query, stmt, call. simpl. rewrite Hf. cbn.
  set (page := nextPage _ _). destruct page as [[items next]|e]; simpl; [done|]. split; congruence.
Qed.
End page.
End RequestLogs.
