(* ===== verification/AdminAudit.v ===== *)
(** * Who may use the administrative API, and what it leaves in the audit log

    [internal/audit/admin_audit_service.go] and the middlewares of
    [internal/http/middleware] that the administrative and the platform routes
    are behind. *)

From S2P Require Import Prelude GoTime GoStrings Encodings Costing Store ExampleWorld QuotaService Tokens ApiKeys.
From S2P Require Import Rbac AdminTokens Sessions RateLimit Metering GatewayBase Caches HttpServer.
#[local] Open Scope Z_scope.

Module AdminAudit.
Import GatewayBase Http.

(** ** The service *)

Record RecordInput := mkRecordInput {
  ri_OrgID : uuid;
  ri_ActorAdminTokenID : option uuid;
  ri_ActorUserID : option uuid;
  ri_Action : string;
  ri_ResourceType : string;
  ri_ResourceID : option uuid;
  ri_RequestID : string
}.

(** The constraints of [admin_audit_logs]. *)
Definition audit_check (l : AdminAuditLog) : bool :=
  negb (String.eqb l.(AdminAuditLog_Action) "") && negb (String.eqb l.(AdminAuditLog_ResourceType) "")
  && negb (String.eqb l.(AdminAuditLog_RequestID) "")
  && match l.(AdminAuditLog_ActorAdminTokenID), l.(AdminAuditLog_ActorUserID) with
     | Some _, None | None, Some _ => true
     | _, _ => false
     end.

Definition insert_audit_log (l : AdminAuditLog) (d : DB) : result (AdminAuditLog * DB) :=
  _ ← pg_check (audit_check l);
  _ ← pg_unique (λ q, (q.(AdminAuditLog_ID) =? l.(AdminAuditLog_ID))%N) d.(admin_audit_logs);
  Ok (l, set_admin_audit_logs (λ ls, ls ++ [l]) d).

(** [ORDER BY created_at DESC, id DESC]. *)
Definition newest_entry_first (a b : AdminAuditLog) : bool :=
  (b.(AdminAuditLog_CreatedAt) <? a.(AdminAuditLog_CreatedAt))
  || ((b.(AdminAuditLog_CreatedAt) =? a.(AdminAuditLog_CreatedAt)) && (b.(AdminAuditLog_ID) <=? a.(AdminAuditLog_ID))%N).

Definition list_audit_logs (orgID : uuid) (limit offset : Z) (d : DB) : list AdminAuditLog :=
  take (Z.to_nat limit) (drop (Z.to_nat offset)
    (sort_by newest_entry_first (List.filter (λ l, (l.(AdminAuditLog_OrgID) =? orgID)%N) d.(admin_audit_logs)))).

Definition no_id (id : option uuid) : bool := match id with None => true | Some id => (id =? Nil)%N end.
Definition given (id : option uuid) : bool := match id with None => false | Some _ => true end.

Definition Record_ (input : RecordInput) : M AdminAuditLog :=
  if (input.(ri_OrgID) =? Nil)%N then fail (EMsg "org_id is required")
  else if no_id input.(ri_ActorAdminTokenID) && no_id input.(ri_ActorUserID) then fail (EMsg "actor is required")
  else if given input.(ri_ActorAdminTokenID) && given input.(ri_ActorUserID) then fail (EMsg "only one actor is allowed")
  else if String.eqb input.(ri_Action) "" then fail (EMsg "action is required")
  else if String.eqb input.(ri_ResourceType) "" then fail (EMsg "resource_type is required")
  else
    requestID ← (if String.eqb input.(ri_RequestID) "" then fresh ← new_uuid; mret (uuidString fresh)
                 else mret input.(ri_RequestID));
    id ← new_uuid;
    now ← clock;
    stmt (insert_audit_log (mkAdminAuditLog id input.(ri_OrgID) input.(ri_ActorAdminTokenID) input.(ri_Action)
                              input.(ri_ResourceType) input.(ri_ResourceID) requestID now input.(ri_ActorUserID))).

Definition List (orgID : uuid) (limit offset : Z) : M (list AdminAuditLog) :=
  query (λ d, Ok (list_audit_logs orgID limit offset d)).

(** ** The middlewares *)

Definition isAdminMutation (method : string) : bool :=
  String.eqb method "POST" || String.eqb method "PATCH" || String.eqb method "PUT" || String.eqb method "DELETE".

Definition defaultAuditAction (method resourceType : string) : string :=
  if String.eqb method "POST" then "create_" +:+ resourceType
  else if String.eqb method "PATCH" || String.eqb method "PUT" then "update_" +:+ resourceType
  else if String.eqb method "DELETE" then "delete_" +:+ resourceType
  else resourceType.

(** What the handler left in the context, if the resource's type is there. *)
Definition auditResource (reply : Reply) : option auditInfo :=
  match reply.(re_Audit) with
  | Some info => if String.eqb info.(au_ResourceType) "" then None else Some info
  | None => None
  end.

Definition auditAction (method : string) (info : auditInfo) : string :=
  match info.(au_Action) with
  | Some action => if String.eqb action "" then defaultAuditAction method info.(au_ResourceType) else action
  | None => defaultAuditAction method info.(au_ResourceType)
  end.

Definition auditEntry (cx : Context) (principal : Rbac.AdminTokenPrincipal) (info : auditInfo) : RecordInput :=
  let byUser := Rbac.IsUser principal && given principal.(Rbac.at_UserID) in
  mkRecordInput principal.(Rbac.at_OrgID) (if byUser then None else Some principal.(Rbac.at_AdminTokenID))
    (if byUser then principal.(Rbac.at_UserID) else None) (auditAction cx.(cx_Request).(rq_Method) info)
    info.(au_ResourceType) info.(au_ResourceID) cx.(cx_RequestID).

(** The error of the record is dropped. *)
Definition Audited (next : Handler) : Handler := λ cx,
  reply ← next cx;
  if negb (isAdminMutation cx.(cx_Request).(rq_Method)) || (400 <=? reply.(re_Status)) then mret reply
  else
    match cx.(cx_Admin), auditResource reply with
    | Some principal, Some info => _ ← try (Record_ (auditEntry cx principal info)); mret reply
    | _, _ => mret reply
    end.

Section middleware.
Context `{Runtime}.

(** The prefix of the token says which of the two kinds it is. *)
Definition AdminAuthenticate (ring : TokenHashKeyRing) (token : string) : M Rbac.AdminTokenPrincipal :=
  if HasPrefix token AdminTokens.AdminTokenPlainPrefix then AdminTokens.Authenticate ring token
  else if HasPrefix token Sessions.SessionPlainPrefix then Sessions.Authenticate ring token
  else
    r ← try (AdminTokens.Authenticate ring token);
    match r with
    | Ok principal => mret principal
    | Err _ => Sessions.Authenticate ring token
    end.

Definition AdminAuth (ring : TokenHashKeyRing) (next : Handler) : Handler := λ cx,
  match bearerToken (cx.(cx_Request).(rq_Header) "Authorization") with
  | None => abortUnauthorized cx
  | Some token =>
      r ← try (AdminAuthenticate ring token);
      match r with
      | Err _ => abortUnauthorized cx
      | Ok principal => next (mkContext cx.(cx_Request) cx.(cx_RequestID) cx.(cx_Key) (Some principal) cx.(cx_BodyLimit))
      end
  end.

(** [hmac.Equal]: equality, in constant time. *)
Definition constantTimeEqual (a b : string) : bool := String.eqb a b.

Definition PlatformAuth (expectedToken : string) (next : Handler) : Handler := λ cx,
  match bearerToken (cx.(cx_Request).(rq_Header) "Authorization") with
  | None => abortUnauthorized cx
  | Some token => if constantTimeEqual token expectedToken then next cx else abortUnauthorized cx
  end.

Definition AdminPermission : Type := Rbac.AdminTokenPrincipal → bool.

Definition RequireAdminPermission (allowed : option AdminPermission) (next : Handler) : Handler := λ cx,
  match cx.(cx_Admin) with
  | None => abortUnauthorized cx
  | Some principal =>
      match allowed with
      | Some allowed => if allowed principal then next cx else abortWithError cx 403 CodeForbidden "forbidden"
      | None => abortWithError cx 403 CodeForbidden "forbidden"
      end
  end.
End middleware.
End AdminAudit.
