(* ===== verification/AdminHandlers.v ===== *)
(** * Handlers of the administrative API: configuration

    [internal/http/handlers/admin]: providers, models and their prices, route
    policies, budgets and their alerts, anomaly and content policies. The
    decoding of each request's JSON is a parameter, from the bytes of the body
    that can be read. *)

From Stdlib Require Import QArith.
From S2P Require Import Prelude GoTime GoStrings Encodings Costing Store ExampleWorld QuotaService Tokens ApiKeys.
From S2P Require Import Secrets Outbound HttpClient Limits BudgetService AnomalyService Routing ContentPolicy Pricing Metering BudgetAlerts.
From S2P Require Import Rbac RateLimit Float64 GatewayBase Providers Caches HttpServer RequestLogs AdminAudit.
#[local] Open Scope Z_scope.

Record createProviderRequest := mkcreateProviderRequest {
  pr_Name : string; pr_Type : string; pr_BaseURL : option string; pr_APIKey : option string; pr_TimeoutMS : Z
}.

Record createModelRequest := mkcreateModelRequest {
  mo_ProviderID : uuid; mo_ProviderModelName : string; mo_DisplayName : string;
  mo_InputPrice : Z; mo_OutputPrice : Z; mo_ContextWindow : option Z
}.

Record updateModelPricingRequest := mkupdateModelPricingRequest { mp_InputPrice : Z; mp_OutputPrice : Z }.

Record createRouteTargetRequest := mkcreateRouteTargetRequest {
  rt_ProviderID : uuid; rt_ModelID : uuid; rt_Priority : Z; rt_Weight : Z
}.

Record createRoutePolicyRequest := mkcreateRoutePolicyRequest {
  rp_Name : string; rp_MatchModel : string; rp_Strategy : string; rp_Config : Routing.RawMessage;
  rp_Targets : list createRouteTargetRequest
}.

Record createBudgetRequest := mkcreateBudgetRequest {
  bu_Name : string; bu_ScopeType : string; bu_ScopeID : option uuid; bu_Period : string; bu_LimitMicroUSD : Z; bu_Action : string
}.

Record createBudgetAlertRequest := mkcreateBudgetAlertRequest {
  ba_BudgetID : uuid; ba_WebhookURL : string; ba_WebhookSecret : string; ba_Status : string
}.

Record createAnomalyPolicyRequest := mkcreateAnomalyPolicyRequest {
  ap_Name : string; ap_RuleType : string; ap_ScopeType : string; ap_ScopeID : option uuid; ap_ModelAlias : string;
  ap_ThresholdMicroUSD : option Z; ap_ThresholdBPS : option Z; ap_SpikeMultiplierBPS : Z; ap_CurrentWindowMinutes : Z;
  ap_BaselineWindowMinutes : Z; ap_MinRequests : Z; ap_Action : string; ap_FallbackModel : string
}.

Record createContentPolicyRequest := mkcreateContentPolicyRequest { po_Name : string; po_PIIAction : string }.

(** [json.Decoder.Decode] into each request: from what can be read of the
    body, and whether the reader then fails; and the text of an error. *)
Class AdminBodies := {
  errorText : err → string;
  decodeProvider : string → bool → option createProviderRequest;
  decodeModel : string → bool → option createModelRequest;
  decodePricing : string → bool → option updateModelPricingRequest;
  decodeRoutePolicy : string → bool → option createRoutePolicyRequest;
  decodeBudget : string → bool → option createBudgetRequest;
  decodeBudgetAlert : string → bool → option createBudgetAlertRequest;
  decodeAnomalyPolicy : string → bool → option createAnomalyPolicyRequest;
  decodeContentPolicy : string → bool → option createContentPolicyRequest
}.

Module AdminHandlers.
Import GatewayBase Http RequestLogs.

(** [errors.Is] with a package's sentinel. *)
Definition Is (e sentinel : err) : bool :=
  match e, sentinel with
  | EMsg a, EMsg b => String.eqb a b
  | EWrap a _, EWrap b _ => String.eqb a b
  | _, _ => false
  end.

(** [err.Error()]. *)
Definition errorMessage {AB : AdminBodies} (e : err) : string :=
  match e with EMsg message => message | EDomain _ _ message => message | _ => errorText e end.

(** What the body's reader gives before it ends or fails. *)
Definition readable (cx : Context) : string * bool :=
  let rq := cx.(cx_Request) in
  if (0 <? cx.(cx_BodyLimit)) && (cx.(cx_BodyLimit) <? Z.of_nat (String.length rq.(rq_Body)))
  then (String.substring 0 (Z.to_nat cx.(cx_BodyLimit)) rq.(rq_Body), true)
  else (rq.(rq_Body), rq.(rq_BodyBreaks)).

Definition ShouldBindJSON {A} (decode : string → bool → option A) (cx : Context) : option A :=
  decode (readable cx).1 (readable cx).2.

Definition reply (status : Z) (value : json) : M Reply := mret (mkReply status (BodyJSON value) None).
Definition replyAudited (status : Z) (value : json) (info : auditInfo) : M Reply :=
  mret (mkReply status (BodyJSON value) (Some info)).
Definition itemsReply (items : list json) : M Reply := reply 200 (JObj [("items", JArr items)]).

(** The principal [AdminAuth] left in the context. *)
Definition asAdmin (handler : Rbac.AdminTokenPrincipal → Handler) : Handler := λ cx,
  match cx.(cx_Admin) with
  | None => RespondError cx (Unauthorized "unauthorized")
  | Some principal => handler principal cx
  end.

Definition binding {A} (decode : string → bool → option A) (handler : A → Handler) : Handler := λ cx,
  match ShouldBindJSON decode cx with
  | None => RespondError cx (InvalidRequest "invalid JSON body")
  | Some request => handler request cx
  end.

(** A parameter of the path that is an id. *)
Definition pathID {RP : RequestParsing} (name : string) (handler : uuid → Handler) : Handler := λ cx,
  match uuidParse (cx.(cx_Request).(rq_Param) name) with
  | None => RespondError cx (InvalidRequest ("invalid " +:+ name))
  | Some id => handler id cx
  end.

(** A page of what the tenant has. *)
Definition listing {A} (fetch : uuid → M (list A)) (item : A → json) : Handler := asAdmin (λ principal cx,
  r ← catch (fetch principal.(Rbac.at_OrgID));
  match r with
  | Err _ => RespondError cx (InternalError "internal server error")
  | Ok rows => itemsReply (map item rows)
  end).

Section handlers.
Context `{Runtime, AEAD, Net, Transport, Webhooks, Digests}.
Context {TX : ReportText} {RP : RequestParsing} {AB : AdminBodies}.

Definition jsonMoment (t : Z) : json := JStr (jsonTime t).

(** ** Providers *)

Definition newProviderResponse (p : Provider) : json := JObj
  [("id", jsonUUID p.(Provider_ID)); ("name", JStr p.(Provider_Name)); ("type", JStr p.(Provider_Type));
   ("base_url", orNull (JStr <$> p.(Provider_BaseUrl))); ("status", JStr p.(Provider_Status));
   ("timeout_ms", JNum p.(Provider_TimeoutMs)); ("last_health_status", orNull (JStr <$> p.(Provider_LastHealthStatus)));
   ("last_health_checked_at", orNull (jsonMoment <$> p.(Provider_LastHealthCheckedAt)));
   ("last_error_code", orNull (JStr <$> p.(Provider_LastErrorCode)));
   ("last_error_message", orNull (JStr <$> p.(Provider_LastErrorMessage))); ("created_at", jsonMoment p.(Provider_CreatedAt))].

Definition respondProviderServiceError (cx : Context) (e : err) : M Reply :=
  if Is e (Pricing.validationError "") then
    RespondError cx (InvalidRequest (match e with EWrap _ message => message | _ => "" end))
  else if Is e Providers.ErrProviderNotFound then RespondError cx (NotFound "provider not found")
  else if Routing.IsUniqueViolation e then RespondError cx (Conflict "resource already exists")
  else RespondError cx (InternalError "internal server error").

Definition createProvider (service : Providers.Service) : Handler := asAdmin (λ principal, binding decodeProvider (λ request cx,
  r ← catch (Providers.CreateProvider service
    (Providers.mkCreateProviderParams principal.(Rbac.at_OrgID) request.(pr_Name) request.(pr_Type) request.(pr_BaseURL)
       request.(pr_APIKey) request.(pr_TimeoutMS)));
  match r with
  | Err e => respondProviderServiceError cx e
  | Ok created => replyAudited 201 (newProviderResponse created)
                    (mkauditInfo "provider" (Some created.(Provider_ID)) (Some "create_provider"))
  end)).

Definition listProviders : Handler := listing Providers.ListProviders newProviderResponse.

(** The health service lists the providers too. *)
Definition listProviderHealth : Handler := listing Providers.ListProviders newProviderResponse.

Definition checkProviderHealth (service : Providers.Service) : Handler := asAdmin (λ principal, pathID "provider_id" (λ providerID cx,
  r ← catch (Providers.Check service principal.(Rbac.at_OrgID) providerID);
  match r with
  | Err e => respondProviderServiceError cx e
  | Ok checked => reply 200 (newProviderResponse checked)
  end)).

(** ** Models *)

Definition newModelResponse (m : Model) : json := JObj
  [("id", jsonUUID m.(Model_ID)); ("provider_id", jsonUUID m.(Model_ProviderID));
   ("provider_model_name", JStr m.(Model_ProviderModelName)); ("display_name", JStr m.(Model_DisplayName));
   ("input_price_micro_usd_per_1k_tokens", JNum m.(Model_InputPriceMicroUsdPer1kTokens));
   ("output_price_micro_usd_per_1k_tokens", JNum m.(Model_OutputPriceMicroUsdPer1kTokens));
   ("context_window", orNull (JNum <$> m.(Model_ContextWindow))); ("status", JStr m.(Model_Status));
   ("created_at", jsonMoment m.(Model_CreatedAt))].

Definition newModelPricingVersionResponse (v : ModelPricingVersion) : json := JObj
  [("id", jsonUUID v.(ModelPricingVersion_ID)); ("model_id", jsonUUID v.(ModelPricingVersion_ModelID));
   ("version", JNum v.(ModelPricingVersion_Version));
   ("input_price_micro_usd_per_1k_tokens", JNum v.(ModelPricingVersion_InputPriceMicroUsdPer1kTokens));
   ("output_price_micro_usd_per_1k_tokens", JNum v.(ModelPricingVersion_OutputPriceMicroUsdPer1kTokens));
   ("status", JStr v.(ModelPricingVersion_Status)); ("effective_from", jsonMoment v.(ModelPricingVersion_EffectiveFrom));
   ("effective_to", orNull (jsonMoment <$> v.(ModelPricingVersion_EffectiveTo)));
   ("created_at", jsonMoment v.(ModelPricingVersion_CreatedAt))].

Definition respondPricingServiceError (cx : Context) (e : err) : M Reply :=
  if Is e Pricing.ErrModelPricingNotFound then RespondError cx (NotFound "model not found")
  else if Is e (ErrInvalidCostInput "") then RespondError cx (InvalidRequest (errorMessage e))
  else RespondError cx (InternalError "internal server error").

Definition createModel : Handler := asAdmin (λ principal, binding decodeModel (λ request cx,
  r ← catch (Pricing.CreateModel
    (Pricing.mkCreateModelParams principal.(Rbac.at_OrgID) request.(mo_ProviderID) request.(mo_ProviderModelName)
       request.(mo_DisplayName) request.(mo_InputPrice) request.(mo_OutputPrice) request.(mo_ContextWindow)));
  match r with
  | Err e => respondProviderServiceError cx e
  | Ok created => reply 201 (newModelResponse created)
  end)).

Definition listModels : Handler := listing Providers.ListModels newModelResponse.

Definition updatePricing : Handler := asAdmin (λ principal, pathID "model_id" (λ modelID, binding decodePricing (λ request cx,
  r ← catch (Pricing.UpdateModelPricing
    (Pricing.mkUpdateModelPricingParams principal.(Rbac.at_OrgID) modelID request.(mp_InputPrice) request.(mp_OutputPrice)));
  match r with
  | Err e => respondPricingServiceError cx e
  | Ok result => reply 200 (JObj
      [("model", newModelResponse result.(Pricing.ur_Model));
       ("previous_version", newModelPricingVersionResponse result.(Pricing.ur_PreviousVersion));
       ("pricing_version", newModelPricingVersionResponse result.(Pricing.ur_PricingVersion))])
  end))).

Definition listPricingVersions : Handler := asAdmin (λ principal, pathID "model_id" (λ modelID cx,
  r ← catch (Pricing.ListModelPricingVersions principal.(Rbac.at_OrgID) modelID);
  match r with
  | Err e => respondPricingServiceError cx e
  | Ok versions => itemsReply (map newModelPricingVersionResponse versions)
  end)).

(** ** Route policies *)

Definition newRoutePolicyResponse (p : RoutePolicy) : json := JObj
  [("id", jsonUUID p.(RoutePolicy_ID)); ("name", JStr p.(RoutePolicy_Name)); ("match_model", JStr p.(RoutePolicy_MatchModel));
   ("strategy", JStr p.(RoutePolicy_Strategy)); ("config", orNull p.(RoutePolicy_Config)); ("status", JStr p.(RoutePolicy_Status));
   ("created_at", jsonMoment p.(RoutePolicy_CreatedAt))].

Definition respondRoutingServiceError (cx : Context) (e : err) : M Reply :=
  if Is e (Routing.validationError "") then
    RespondError cx (InvalidRequest (match e with EWrap _ message => message | _ => "" end))
  else if Is e Routing.ErrRouteTargetNotFound then RespondError cx (NotFound "route target not found")
  else if Routing.IsUniqueViolation e then RespondError cx (Conflict "resource already exists")
  else RespondError cx (InternalError "internal server error").

Definition createRoutePolicy : Handler := asAdmin (λ principal, binding decodeRoutePolicy (λ request cx,
  let targets := map (λ t, Routing.mkTargetParams t.(rt_ProviderID) t.(rt_ModelID) t.(rt_Priority) t.(rt_Weight)) request.(rp_Targets) in
  r ← catch (Routing.CreateRoutePolicy
    (Routing.mkCreateRoutePolicyParams principal.(Rbac.at_OrgID) request.(rp_Name) request.(rp_MatchModel) request.(rp_Strategy)
       request.(rp_Config) targets));
  match r with
  | Err e => respondRoutingServiceError cx e
  | Ok created => reply 201 (newRoutePolicyResponse created)
  end)).

Definition listRoutePolicies : Handler := listing Routing.ListRoutePolicies newRoutePolicyResponse.

(** ** Budgets *)

Definition newBudgetResponse (b : Budget) : json := JObj
  [("id", jsonUUID b.(Budget_ID)); ("name", JStr b.(Budget_Name)); ("scope_type", JStr b.(Budget_ScopeType));
   ("period", JStr b.(Budget_Period)); ("limit_micro_usd", JNum b.(Budget_LimitMicroUsd)); ("action", JStr b.(Budget_Action));
   ("status", JStr b.(Budget_Status))].

Definition budgetStatusResponse (s : BudgetService.Status) : json := JObj
  [("budget_id", jsonUUID s.(BudgetService.st_Budget).(Budget_ID)); ("name", JStr s.(BudgetService.st_Budget).(Budget_Name));
   ("period", JStr s.(BudgetService.st_Budget).(Budget_Period));
   ("limit_micro_usd", JNum s.(BudgetService.st_Budget).(Budget_LimitMicroUsd));
   ("used_micro_usd", JNum s.(BudgetService.st_UsedMicroUSD)); ("remaining_micro_usd", JNum s.(BudgetService.st_RemainingMicroUSD));
   ("exceeded", JBool s.(BudgetService.st_Exceeded)); ("action", JStr s.(BudgetService.st_Budget).(Budget_Action))].

Definition validateCreateBudgetRequest (request : createBudgetRequest) : result unit :=
  if String.eqb (TrimSpace request.(bu_Name)) "" then Err (InvalidRequest "name is required")
  else if negb (String.eqb request.(bu_ScopeType) BudgetService.ScopeTypeOrg) then Err (InvalidRequest "scope_type must be org")
  else if match request.(bu_ScopeID) with Some _ => true | None => false end
  then Err (InvalidRequest "scope_id must be null for org budgets")
  else if negb (String.eqb request.(bu_Period) BudgetService.PeriodDaily) && negb (String.eqb request.(bu_Period) BudgetService.PeriodMonthly)
  then Err (InvalidRequest "period must be daily or monthly")
  else if request.(bu_LimitMicroUSD) <? 0 then Err (InvalidRequest "limit_micro_usd must be non-negative")
  else if negb (String.eqb request.(bu_Action) BudgetService.ActionWarn) && negb (String.eqb request.(bu_Action) BudgetService.ActionBlock)
  then Err (InvalidRequest "action must be warn or block")
  else Ok tt.

Definition createBudget : Handler := asAdmin (λ principal, binding decodeBudget (λ request cx,
  match validateCreateBudgetRequest request with
  | Err e => RespondError cx (InvalidRequest (errorMessage e))
  | Ok _ =>
      r ← catch (BudgetService.CreateBudget
        (BudgetService.mkCreateBudgetParams principal.(Rbac.at_OrgID) request.(bu_Name) request.(bu_ScopeType) request.(bu_Period)
           request.(bu_LimitMicroUSD) request.(bu_Action)));
      match r with
      | Err e => RespondError cx (InvalidRequest (errorMessage e))
      | Ok created => replyAudited 201 (newBudgetResponse created)
                        (mkauditInfo "budget" (Some created.(Budget_ID)) (Some "create_budget"))
      end
  end)).

Definition listBudgets : Handler := listing BudgetService.ListBudgets newBudgetResponse.
Definition budgetStatus : Handler := listing BudgetService.GetStatus budgetStatusResponse.

(** ** Budget alerts *)

Definition newBudgetAlertResponse (a : BudgetAlert) : json := JObj
  [("id", jsonUUID a.(BudgetAlert_ID)); ("budget_id", jsonUUID a.(BudgetAlert_BudgetID));
   ("webhook_url", JStr a.(BudgetAlert_WebhookUrl)); ("status", JStr a.(BudgetAlert_Status));
   ("created_at", jsonMoment a.(BudgetAlert_CreatedAt))].

Definition newBudgetAlertDeliveryResponse (x : BudgetAlertDelivery) : json := JObj
  [("id", jsonUUID x.(BudgetAlertDelivery_ID)); ("budget_alert_id", jsonUUID x.(BudgetAlertDelivery_BudgetAlertID));
   ("budget_id", jsonUUID x.(BudgetAlertDelivery_BudgetID)); ("threshold", JNum x.(BudgetAlertDelivery_Threshold));
   ("period", JStr x.(BudgetAlertDelivery_Period)); ("period_window_start", jsonMoment x.(BudgetAlertDelivery_PeriodWindowStart));
   ("period_window_end", jsonMoment x.(BudgetAlertDelivery_PeriodWindowEnd)); ("used_micro_usd", JNum x.(BudgetAlertDelivery_UsedMicroUsd));
   ("limit_micro_usd", JNum x.(BudgetAlertDelivery_LimitMicroUsd)); ("webhook_url", JStr x.(BudgetAlertDelivery_WebhookUrl));
   ("status", JStr x.(BudgetAlertDelivery_Status)); ("http_status", orNull (JNum <$> x.(BudgetAlertDelivery_HttpStatus)));
   ("error_message", orNull (JStr <$> x.(BudgetAlertDelivery_ErrorMessage))); ("created_at", jsonMoment x.(BudgetAlertDelivery_CreatedAt))].

Definition createBudgetAlert (service : BudgetAlerts.AlertService) : Handler := asAdmin (λ principal, binding decodeBudgetAlert (λ request cx,
  if (request.(ba_BudgetID) =? Nil)%N then RespondError cx (InvalidRequest "budget_id is required")
  else if String.eqb (TrimSpace request.(ba_WebhookURL)) "" then RespondError cx (InvalidRequest "webhook_url is required")
  else
    r ← catch (BudgetAlerts.CreateAlert service
      (BudgetAlerts.mkCreateAlertParams principal.(Rbac.at_OrgID) request.(ba_BudgetID) request.(ba_WebhookURL)
         request.(ba_WebhookSecret) request.(ba_Status)));
    match r with
    | Err e => RespondError cx (InvalidRequest (errorMessage e))
    | Ok created => reply 201 (newBudgetAlertResponse created)
    end)).

Definition listBudgetAlerts : Handler := listing BudgetAlerts.ListAlerts newBudgetAlertResponse.

(** [strconv.Atoi]: the numbers accepted fit 32 bits. *)
Definition deliveriesLimit (cx : Context) : option Z :=
  let rawLimit := Query cx "limit" in
  if String.eqb rawLimit "" then Some 100
  else match ParseInt32 rawLimit with
       | Some parsed => if (parsed <=? 0) || (200 <? parsed) then None else Some parsed
       | None => None
       end.

Definition listBudgetAlertDeliveries : Handler := asAdmin (λ principal cx,
  match deliveriesLimit cx with
  | None => RespondError cx (InvalidRequest "limit must be between 1 and 200")
  | Some limit => listing (λ orgID, BudgetAlerts.ListDeliveries orgID limit) newBudgetAlertDeliveryResponse cx
  end).

(** ** Anomaly policies *)

Definition anomalyTextPtr (value : option string) : option string :=
  match value with Some v => if String.eqb (TrimSpace v) "" then None else Some v | None => None end.

Definition newAnomalyPolicyResponse (p : CostAnomalyPolicy) : json := JObj
  [("id", jsonUUID p.(CostAnomalyPolicy_ID)); ("name", JStr p.(CostAnomalyPolicy_Name));
   ("rule_type", JStr p.(CostAnomalyPolicy_RuleType)); ("scope_type", JStr p.(CostAnomalyPolicy_ScopeType));
   ("scope_id", orNull (jsonUUID <$> p.(CostAnomalyPolicy_ScopeID)));
   ("model_alias", orNull (JStr <$> anomalyTextPtr p.(CostAnomalyPolicy_ModelAlias)));
   ("threshold_micro_usd", orNull (JNum <$> p.(CostAnomalyPolicy_ThresholdMicroUsd)));
   ("threshold_bps", orNull (JNum <$> p.(CostAnomalyPolicy_ThresholdBps)));
   ("spike_multiplier_bps", JNum p.(CostAnomalyPolicy_SpikeMultiplierBps));
   ("current_window_minutes", JNum p.(CostAnomalyPolicy_CurrentWindowMinutes));
   ("baseline_window_minutes", JNum p.(CostAnomalyPolicy_BaselineWindowMinutes));
   ("min_requests", JNum p.(CostAnomalyPolicy_MinRequests)); ("action", JStr p.(CostAnomalyPolicy_Action));
   ("fallback_model", orNull (JStr <$> anomalyTextPtr p.(CostAnomalyPolicy_FallbackModel)));
   ("status", JStr p.(CostAnomalyPolicy_Status)); ("created_at", jsonMoment p.(CostAnomalyPolicy_CreatedAt));
   ("updated_at", jsonMoment p.(CostAnomalyPolicy_UpdatedAt))].

Definition createAnomalyPolicy : Handler := asAdmin (λ principal, binding decodeAnomalyPolicy (λ request cx,
  r ← catch (Anomaly.CreatePolicy
    (Anomaly.mkCreatePolicyParams principal.(Rbac.at_OrgID) request.(ap_Name) request.(ap_RuleType) request.(ap_ScopeType)
       request.(ap_ScopeID) request.(ap_ModelAlias) request.(ap_ThresholdMicroUSD) request.(ap_ThresholdBPS)
       request.(ap_SpikeMultiplierBPS) request.(ap_CurrentWindowMinutes) request.(ap_BaselineWindowMinutes)
       request.(ap_MinRequests) request.(ap_Action) request.(ap_FallbackModel)));
  match r with
  | Err e => RespondError cx (InvalidRequest (errorMessage e))
  | Ok created => replyAudited 201 (newAnomalyPolicyResponse created)
                    (mkauditInfo "anomaly_policy" (Some created.(CostAnomalyPolicy_ID)) (Some "create_anomaly_policy"))
  end)).

Definition listAnomalyPolicies : Handler := listing Anomaly.ListPolicies newAnomalyPolicyResponse.

(** ** Content policies *)

Definition newContentPolicyResponse (p : ContentPolicy) : json := JObj
  [("id", jsonUUID p.(ContentPolicy_ID)); ("name", JStr p.(ContentPolicy_Name)); ("pii_action", JStr p.(ContentPolicy_PiiAction));
   ("status", JStr p.(ContentPolicy_Status)); ("created_at", jsonMoment p.(ContentPolicy_CreatedAt))].

Definition createContentPolicy : Handler := asAdmin (λ principal, binding decodeContentPolicy (λ request cx,
  if String.eqb (TrimSpace request.(po_Name)) "" then RespondError cx (InvalidRequest "name is required")
  else
    r ← catch (PolicyService.CreateContentPolicy
      (PolicyService.mkCreateContentPolicyParams principal.(Rbac.at_OrgID) request.(po_Name) request.(po_PIIAction)));
    match r with
    | Err e => RespondError cx (InvalidRequest (errorMessage e))
    | Ok created => replyAudited 201 (newContentPolicyResponse created)
                      (mkauditInfo "content_policy" (Some created.(ContentPolicy_ID)) (Some "create_content_policy"))
    end)).

Definition listContentPolicies : Handler := listing PolicyService.ListContentPolicies newContentPolicyResponse.
End handlers.
End AdminHandlers.
