(* ===== verification/AccessHandlers.v ===== *)
(** * Handlers of the administrative API: access

    [internal/http/handlers/admin]: API keys, members, logging in, who am I, the
    audit log and the cache events; [internal/http/handlers/platform]:
    organisations and their service tokens. *)

From Stdlib Require Import QArith.
From S2P Require Import Prelude GoTime GoStrings Encodings Costing Store ExampleWorld QuotaService Tokens ApiKeys.
From S2P Require Import Rbac AdminTokens Sessions MagicLinks.
From S2P Require Import Secrets Outbound HttpClient Limits BudgetService AnomalyService Routing ContentPolicy Pricing Metering BudgetAlerts.
From S2P Require Import RateLimit Float64 GatewayBase Providers Caches HttpServer RequestLogs AdminAudit AdminHandlers.
#[local] Open Scope Z_scope.

Record createAPIKeyRequest := mkcreateAPIKeyRequest {
  ak_Name : string; ak_Scopes : list string; ak_RPMLimit : Z; ak_DailyCostLimitMicroUSD : option Z;
  ak_MonthlyCostLimitMicroUSD : option Z; ak_QuotaAction : string; ak_ExpiresAt : option Z
}.

Record upsertMemberRequest := mkupsertMemberRequest { me_Email : string; me_DisplayName : string; me_Role : string }.

(** Of both [passwordlessMockLoginRequest] and [passwordlessRequestMagicLinkRequest]. *)
Record loginRequest := mkloginRequest { lo_OrgSlug : string; lo_Email : string }.

Record createAdminTokenRequest := mkcreateAdminTokenRequest { to_Name : string; to_Scopes : list string; to_ExpiresAt : option Z }.
Record createOrgRequest := mkcreateOrgRequest { or_Name : string; or_Slug : string }.

Class AccessBodies := {
  decodeAPIKey : string → bool → option createAPIKeyRequest;
  decodeMember : string → bool → option upsertMemberRequest;
  decodeLogin : string → bool → option loginRequest;
  decodeVerify : string → bool → option string;
  decodeAdminToken : string → bool → option createAdminTokenRequest;
  decodeOrg : string → bool → option createOrgRequest
}.

Module AccessHandlers.
Import GatewayBase Http RequestLogs AdminHandlers.

Section handlers.
Context `{Runtime, AEAD, Net, Transport, Webhooks, Digests}.
Context {TX : ReportText} {RP : RequestParsing} {AB : AdminBodies} {CB : AccessBodies}.

(** ** API keys *)

Definition newAPIKeyResponse (k : ApiKey) : json := JObj
  [("id", jsonUUID k.(ApiKey_ID)); ("name", JStr k.(ApiKey_Name)); ("key_prefix", JStr k.(ApiKey_KeyPrefix));
   ("status", JStr k.(ApiKey_Status)); ("rpm_limit", JNum k.(ApiKey_RpmLimit));
   ("daily_cost_limit_micro_usd", orNull (JNum <$> k.(ApiKey_DailyCostLimitMicroUsd)));
   ("monthly_cost_limit_micro_usd", orNull (JNum <$> k.(ApiKey_MonthlyCostLimitMicroUsd)));
   ("quota_action", JStr k.(ApiKey_QuotaAction)); ("expires_at", orNull (jsonMoment <$> k.(ApiKey_ExpiresAt)));
   ("last_used_at", orNull (jsonMoment <$> k.(ApiKey_LastUsedAt))); ("created_at", jsonMoment k.(ApiKey_CreatedAt))].

Definition createAPIKeyResponse (created : APIKeys.CreateAPIKeyResult) : json :=
  let k := created.(APIKeys.cr_APIKey) in JObj
  [("id", jsonUUID k.(ApiKey_ID)); ("name", JStr k.(ApiKey_Name)); ("key", JStr created.(APIKeys.cr_Key));
   ("key_prefix", JStr k.(ApiKey_KeyPrefix)); ("status", JStr k.(ApiKey_Status)); ("rpm_limit", JNum k.(ApiKey_RpmLimit));
   ("daily_cost_limit_micro_usd", orNull (JNum <$> k.(ApiKey_DailyCostLimitMicroUsd)));
   ("monthly_cost_limit_micro_usd", orNull (JNum <$> k.(ApiKey_MonthlyCostLimitMicroUsd)));
   ("quota_action", JStr k.(ApiKey_QuotaAction)); ("created_at", jsonMoment k.(ApiKey_CreatedAt))].

Definition negative (limit : option Z) : bool := match limit with Some n => n <? 0 | None => false end.

Definition validateAPIKeyRequest (request : createAPIKeyRequest) : result unit :=
  if String.eqb (TrimSpace request.(ak_Name)) "" then Err (InvalidRequest "name is required")
  else if request.(ak_RPMLimit) <=? 0 then Err (InvalidRequest "rpm_limit must be greater than zero")
  else if negative request.(ak_DailyCostLimitMicroUSD) then Err (InvalidRequest "daily_cost_limit_micro_usd must be non-negative")
  else if negative request.(ak_MonthlyCostLimitMicroUSD) then Err (InvalidRequest "monthly_cost_limit_micro_usd must be non-negative")
  else if negb (String.eqb request.(ak_QuotaAction) "") && negb (String.eqb request.(ak_QuotaAction) "warn")
          && negb (String.eqb request.(ak_QuotaAction) "block")
  then Err (InvalidRequest "quota_action must be warn or block")
  else Ok tt.

Definition createAPIKey (ring : TokenHashKeyRing) : Handler := asAdmin (λ principal, binding decodeAPIKey (λ request cx,
  match validateAPIKeyRequest request with
  | Err e => RespondError cx e
  | Ok _ =>
      r ← catch (APIKeys.CreateAPIKey ring
        (APIKeys.mkCreateAPIKeyParams principal.(Rbac.at_OrgID) request.(ak_Name) request.(ak_Scopes) request.(ak_RPMLimit)
           request.(ak_DailyCostLimitMicroUSD) request.(ak_MonthlyCostLimitMicroUSD) request.(ak_QuotaAction) request.(ak_ExpiresAt)));
      match r with
      | Err _ => RespondError cx (InternalError "internal server error")
      | Ok created => reply 201 (createAPIKeyResponse created)
      end
  end)).

Definition listAPIKeys : Handler := listing APIKeys.ListAPIKeys newAPIKeyResponse.

Definition revokeAPIKey : Handler := asAdmin (λ principal, pathID "api_key_id" (λ apiKeyID cx,
  r ← catch (APIKeys.RevokeAPIKey principal.(Rbac.at_OrgID) apiKeyID);
  match r with
  | Err e => if Is e APIKeys.ErrAPIKeyNotFound then RespondError cx (NotFound "api key not found")
             else RespondError cx (InternalError "internal server error")
  | Ok apiKey => reply 200 (newAPIKeyResponse apiKey)
  end)).

(** ** Members *)

Definition newMemberResponse (member : OrgMembership * User) : json :=
  let '(m, u) := member in JObj
  [("membership_id", jsonUUID m.(OrgMembership_ID)); ("org_id", jsonUUID m.(OrgMembership_OrgID)); ("user_id", jsonUUID u.(User_ID));
   ("email", JStr u.(User_Email)); ("display_name", JStr u.(User_DisplayName)); ("role", JStr m.(OrgMembership_Role));
   ("status", JStr m.(OrgMembership_Status)); ("created_at", jsonMoment m.(OrgMembership_CreatedAt));
   ("updated_at", jsonMoment m.(OrgMembership_UpdatedAt))].

(** The router gives the session service the store. *)
Definition createMember : Handler := asAdmin (λ principal, binding decodeMember (λ request cx,
  if String.eqb (TrimSpace request.(me_Email)) "" then RespondError cx (InvalidRequest "email is required")
  else if negb (Rbac.ValidRole request.(me_Role)) then RespondError cx (InvalidRequest "role must be owner, admin, or viewer")
  else
    r ← catch (Sessions.UpsertMember true
      (Sessions.mkUpsertMemberParams principal.(Rbac.at_OrgID) request.(me_Email) request.(me_DisplayName) request.(me_Role)));
    match r with
    | Err e => if Is e ErrOrganizationNotFound then RespondError cx (NotFound "organization not found")
               else RespondError cx (InternalError "internal server error")
    | Ok result => reply 201 (newMemberResponse (result.(Sessions.ur_Membership), result.(Sessions.ur_User)))
    end)).

Definition listMembers : Handler := listing Sessions.ListMembers newMemberResponse.

(** ** Logging in *)

Definition loginResponse (r : Sessions.PasswordlessMockLoginResult) : json := JObj
  [("token", JStr r.(Sessions.lr_Token)); ("token_type", JStr "session");
   ("expires_at", jsonMoment r.(Sessions.lr_Session).(UserSession_ExpiresAt)); ("org_id", jsonUUID r.(Sessions.lr_OrgID));
   ("org_slug", JStr r.(Sessions.lr_OrgSlug)); ("user_id", jsonUUID r.(Sessions.lr_UserID)); ("email", JStr r.(Sessions.lr_Email));
   ("display_name", JStr r.(Sessions.lr_DisplayName)); ("membership_id", jsonUUID r.(Sessions.lr_MembershipID));
   ("role", JStr r.(Sessions.lr_Role))].

Definition validateLogin (request : loginRequest) : result unit :=
  if String.eqb (TrimSpace request.(lo_OrgSlug)) "" then Err (InvalidRequest "org_slug is required")
  else if String.eqb (TrimSpace request.(lo_Email)) "" then Err (InvalidRequest "email is required")
  else Ok tt.

Definition passwordlessMockLogin (ring : TokenHashKeyRing) : Handler := binding decodeLogin (λ request cx,
  match validateLogin request with
  | Err e => RespondError cx e
  | Ok _ =>
      r ← catch (Sessions.PasswordlessMockLogin ring Sessions.defaultSessionTTL request.(lo_OrgSlug) request.(lo_Email));
      match r with
      | Err e => if Is e Sessions.ErrMembershipNotFound then RespondError cx (Unauthorized "membership not found")
                 else RespondError cx (InternalError "internal server error")
      | Ok result => reply 200 (loginResponse result)
      end
  end).

(** Without a magic link service its routes answer that they are not there. *)
Definition withMagicLinks (service : option MagicLinks.MagicLinkService) (handler : MagicLinks.MagicLinkService → Handler) : Handler := λ cx,
  match service with
  | None => RespondError cx (NotFound "magic link login is not enabled")
  | Some service => handler service cx
  end.

Definition requestMagicLink (service : option MagicLinks.MagicLinkService) (ring : TokenHashKeyRing) : Handler :=
  withMagicLinks service (λ service, binding decodeLogin (λ request cx,
    match validateLogin request with
    | Err e => RespondError cx e
    | Ok _ =>
        r ← catch (MagicLinks.Request service ring request.(lo_OrgSlug) request.(lo_Email));
        match r with
        | Err _ => RespondError cx (InternalError "internal server error")
        | Ok _ => reply 202 (JObj [("status", JStr "accepted")])
        end
    end)).

Definition verifyMagicLink (service : option MagicLinks.MagicLinkService) (ring : TokenHashKeyRing) : Handler :=
  withMagicLinks service (λ service, binding decodeVerify (λ token cx,
    if String.eqb (TrimSpace token) "" then RespondError cx (InvalidRequest "token is required")
    else
      r ← catch (MagicLinks.Consume ring token);
      match r with
      | Err e => if Is e MagicLinks.ErrInvalidMagicLink then RespondError cx (Unauthorized "invalid magic link")
                 else RespondError cx (InternalError "internal server error")
      | Ok result => reply 200 (loginResponse result)
      end)).

(** ** Who am I *)

Definition respondAdminReadError (cx : Context) (e : err) : M Reply :=
  match e with
  | ENoRows => RespondError cx (NotFound "resource not found")
  | _ => RespondError cx (InternalError "internal server error")
  end.

Definition meReply (org : Organization) (principal : Rbac.AdminTokenPrincipal) (actor : list (string * json)) : M Reply :=
  let actorType := if String.eqb principal.(Rbac.at_ActorType) "" then Rbac.ActorServiceToken else principal.(Rbac.at_ActorType) in
  reply 200 (JObj
    ([("org", JObj [("id", jsonUUID org.(Organization_ID)); ("name", JStr org.(Organization_Name)); ("slug", JStr org.(Organization_Slug))]);
      ("actor_type", JStr actorType); ("role", JStr principal.(Rbac.at_Role))] ++ actor)).

Definition getMe : Handler := asAdmin (λ principal cx,
  r ← try (GetOrganization principal.(Rbac.at_OrgID));
  match r with
  | Err e => respondAdminReadError cx e
  | Ok org =>
      if Rbac.IsServiceToken principal then
        r ← try (AdminTokens.GetAdminToken principal.(Rbac.at_OrgID) principal.(Rbac.at_AdminTokenID));
        match r with
        | Err e => respondAdminReadError cx e
        | Ok t => meReply org principal
            [("admin_token", JObj [("id", jsonUUID t.(AdminToken_ID)); ("name", JStr t.(AdminToken_Name));
                                   ("scopes", JArr (map JStr t.(AdminToken_Scopes)))])]
        end
      else meReply org principal
        [("user", JObj ([("id", jsonUUID (default Nil principal.(Rbac.at_UserID))); ("email", JStr principal.(Rbac.at_UserEmail));
                         ("display_name", JStr principal.(Rbac.at_DisplayName))] ++
                        optional "membership_id" (jsonUUID <$> principal.(Rbac.at_MembershipID)) ++
                        optional "session_id" (jsonUUID <$> principal.(Rbac.at_SessionID))))]
  end).

(** ** The audit log and the cache events *)

Definition newAuditLogResponse (l : AdminAuditLog) : json := JObj
  [("id", jsonUUID l.(AdminAuditLog_ID)); ("actor_admin_token_id", orNull (jsonUUID <$> l.(AdminAuditLog_ActorAdminTokenID)));
   ("actor_user_id", orNull (jsonUUID <$> l.(AdminAuditLog_ActorUserID))); ("action", JStr l.(AdminAuditLog_Action));
   ("resource_type", JStr l.(AdminAuditLog_ResourceType)); ("resource_id", orNull (jsonUUID <$> l.(AdminAuditLog_ResourceID)));
   ("request_id", JStr l.(AdminAuditLog_RequestID)); ("created_at", jsonMoment l.(AdminAuditLog_CreatedAt))].

Definition listAuditLogs : Handler := asAdmin (λ principal cx,
  match parseBoundedInt32 cx "limit" defaultListLimit maxListLimit with
  | Err e => RespondError cx e
  | Ok limit =>
      match parseBoundedInt32 cx "offset" 0 1000000 with
      | Err e => RespondError cx e
      | Ok offset => listing (λ orgID, AdminAudit.List orgID limit offset) newAuditLogResponse cx
      end
  end).

Definition newCacheEventResponse (e : CacheEvent) : json := JObj
  [("id", jsonUUID e.(CacheEvent_ID)); ("request_log_id", orNull (jsonUUID <$> e.(CacheEvent_RequestLogID)));
   ("event_type", JStr e.(CacheEvent_EventType)); ("requested_model", JStr e.(CacheEvent_RequestedModel));
   ("cache_key_hash", JStr e.(CacheEvent_CacheKeyHash)); ("messages_hash", JStr e.(CacheEvent_MessagesHash));
   ("reason", orNull (JStr <$> e.(CacheEvent_Reason))); ("created_at", jsonMoment e.(CacheEvent_CreatedAt))].

(** [ORDER BY created_at DESC, id DESC]. *)
Definition newest_event_first (a b : CacheEvent) : bool :=
  (b.(CacheEvent_CreatedAt) <? a.(CacheEvent_CreatedAt))
  || ((b.(CacheEvent_CreatedAt) =? a.(CacheEvent_CreatedAt)) && (b.(CacheEvent_ID) <=? a.(CacheEvent_ID))%N).

Definition cache_event_matches (orgID : uuid) (window : Z * Z) (eventType requestedModel : option string) (e : CacheEvent) : bool :=
  (e.(CacheEvent_OrgID) =? orgID)%N && (window.1 <=? e.(CacheEvent_CreatedAt)) && (e.(CacheEvent_CreatedAt) <? window.2)
  && null_or_eq String.eqb eventType (Some e.(CacheEvent_EventType))
  && null_or_eq String.eqb requestedModel (Some e.(CacheEvent_RequestedModel)).

Definition ListCacheEvents (orgID : uuid) (window : Z * Z) (eventType requestedModel : option string) (limit : Z) : M (list CacheEvent) :=
  query (λ d, Ok (take (Z.to_nat limit) (sort_by newest_event_first
    (List.filter (cache_event_matches orgID window eventType requestedModel) d.(cache_events))))).

Definition listCacheEvents : Handler := asAdmin (λ principal cx,
  window ← parseWindow cx;
  match window with
  | Err e => RespondError cx e
  | Ok window =>
      match parseBoundedInt32 cx "limit" defaultListLimit maxListLimit with
      | Err e => RespondError cx e
      | Ok limit =>
          listing (λ orgID, ListCacheEvents orgID window (pgText (Query cx "event_type")) (pgText (Query cx "requested_model")) limit)
            newCacheEventResponse cx
      end
  end).

(** ** The platform *)

Definition orgResponse (o : Organization) : json := JObj
  [("id", jsonUUID o.(Organization_ID)); ("name", JStr o.(Organization_Name)); ("slug", JStr o.(Organization_Slug));
   ("status", JStr o.(Organization_Status)); ("created_at", jsonMoment o.(Organization_CreatedAt))].

Definition respondPlatformDBError (cx : Context) (e : err) : M Reply :=
  if Routing.IsUniqueViolation e then RespondError cx (Conflict "resource already exists")
  else RespondError cx (InternalError "internal server error").

Definition createOrg : Handler := binding decodeOrg (λ request cx,
  let name := TrimSpace request.(or_Name) in
  let slug := TrimSpace request.(or_Slug) in
  if String.eqb name "" || String.eqb slug "" then RespondError cx (InvalidRequest "name and slug are required")
  else
    now ← clock;
    id ← new_uuid;
    r ← try (stmt (insert_organization (mkOrganization id name slug "active" now now)));
    match r with
    | Err e => respondPlatformDBError cx e
    | Ok org => reply 201 (orgResponse org)
    end).

Definition createAdminTokenResponse (created : AdminTokens.CreateAdminTokenResult) : json :=
  let t := created.(AdminTokens.ar_AdminToken) in JObj
  [("id", jsonUUID t.(AdminToken_ID)); ("name", JStr t.(AdminToken_Name)); ("token", JStr created.(AdminTokens.ar_Token));
   ("token_prefix", JStr t.(AdminToken_TokenPrefix)); ("status", JStr t.(AdminToken_Status)); ("created_at", jsonMoment t.(AdminToken_CreatedAt))].

Definition createAdminToken (ring : TokenHashKeyRing) : Handler := pathID "org_id" (λ orgID, binding decodeAdminToken (λ request cx,
  if String.eqb (TrimSpace request.(to_Name)) "" then RespondError cx (InvalidRequest "name is required")
  else
    r ← catch (AdminTokens.CreateAdminToken ring
      (AdminTokens.mkCreateAdminTokenParams orgID request.(to_Name) request.(to_Scopes) request.(to_ExpiresAt)));
    match r with
    | Err e => if Is e ErrOrganizationNotFound then RespondError cx (NotFound "organization not found")
               else RespondError cx (InternalError "internal server error")
    | Ok created => reply 201 (createAdminTokenResponse created)
    end)).
End handlers.
End AccessHandlers.
