(* ===== verification/ChatHandler.v ===== *)
(** * The chat completions route: [internal/http/handlers/gateway/chat_completions_handler.go]

    The handler of [POST /v1/chat/completions], answering at once or relaying
    the provider's events, behind the middlewares of [registerGatewayRoutes]. *)

From S2P Require Import Prelude GoTime GoStrings Encodings Costing Store ExampleWorld QuotaService Tokens ApiKeys.
From S2P Require Import Secrets Outbound HttpClient BudgetAlerts Redis Rbac RateLimit Metering.
From S2P Require Import GatewayBase Providers Caches Adapters Gateway HttpServer.
#[local] Open Scope Z_scope.

Module ChatHandler.
Import GatewayBase Gateway Http.

(** The loop of [createStream] over the events: the last usage, what was
    written, and the events left when a write failed. *)
Fixpoint relay (writes : option nat) (events : list Adapters.StreamEvent) (usage : option Usage)
    : option Usage * list string * option (list Adapters.StreamEvent) :=
  match events with
  | [] => (usage, [], None)
  | event :: rest =>
      let usage := match event.(Adapters.ev_Usage) with Some u => Some u | None => usage end in
      match writes with
      | Some O => (usage, [], Some rest)
      | _ =>
          let '(lastUsage, written, unread) := relay (pred <$> writes) rest usage in
          (lastUsage, event.(Adapters.ev_Data) :: written, unread)
      end
  end.

(** [result.Stream.Err()] after the loop: the reader of a stream that was not
    read to its end has set no error, except that after the last event it may
    have seen the end already. *)
Definition streamErr (rq : Request) (stream : Adapters.ChatStream) (unread : option (list Adapters.StreamEvent)) : option err :=
  match unread with
  | None => stream.(Adapters.cs_Err)
  | Some [] => if rq.(rq_SeesEnd) then stream.(Adapters.cs_Err) else None
  | Some (_ :: _) => None
  end.

Section handler.
Context {SU : Surroundings} {RT : Runtime} {AE : AEAD} {NE : Net} {TR : Transport} {WH : Webhooks} {DG : Digests}.
Context {CJ : Caches.CacheJSON} {RD : Redis} {UJ : Adapters.UpstreamJSON} {RP : RequestParsing}.
Context (s : ChatService).

(** Gin's writer is always an [http.Flusher]. The error of [FinalizeStream] is
    dropped; a panic would not be. *)
Definition createStream (cx : Context) (input : ChatInput) : M Reply :=
  r ← catch (StreamChat s input);
  match r with
  | Err e => RespondError cx e
  | Ok result =>
      let '(usage, written, unread) := relay cx.(cx_Request).(rq_Writes) result.(sr_Stream).(Adapters.cs_Events) None in
      _ ← catch (FinalizeStream s result usage (streamErr cx.(cx_Request) result.(sr_Stream) unread));
      mret (mkReply 200 (BodyEvents written) None)
  end.

Definition chatInput (cx : Context) (principal : APIKeyPrincipal) (requestID : uuid) (body : string) : ChatInput :=
  mkChatInput requestID principal cx.(cx_Request).(rq_Method) cx.(cx_Request).(rq_Path) body.

Definition Create : Handler := λ cx,
  match cx.(cx_Key) with
  | None => RespondError cx (Unauthorized "unauthorized")
  | Some principal =>
      match ReadAll cx with
      | inr BodyTooLarge => RespondError cx (RequestTooLarge "request body too large")
      | inr BodyBroken => RespondError cx (InvalidRequest "invalid request body")
      | inl body =>
          requestID ← requestUUID cx;
          match probeStream body with
          | Err _ => RespondError cx (InvalidRequest "invalid JSON body")
          | Ok true => createStream cx (chatInput cx principal requestID body)
          | Ok false =>
              r ← catch (Chat s (chatInput cx principal requestID body));
              match r with
              | Err e => RespondError cx e
              | Ok response => mret (mkReply 200 (BodyChat response) None)
              end
          end
      end
  end.

(** The route of [registerGatewayRoutes]. *)
Definition chatRoute (ring : TokenHashKeyRing) (limiter : option Limiter) (recorder : option Metering.Service) : Handler :=
  GatewayAPIKeyAuth ring
    (RequireAPIKeyScope Rbac.APIKeyScopeChatCompletions (RateLimited limiter recorder s.(hasMetrics) Create)).
End handler.
End ChatHandler.
