(* ===== verification/GatewayFrame.v ===== *)
(** * What the steps of a chat request leave alone

    [keeps P m]: whatever [m] returns, the database it leaves is related by [P]
    to the one it found, and a run in which no call fails stays one. Reading,
    and recording cache events and deliveries of budget alerts, keep every
    relation of the class [Calm]. *)

From Stdlib Require Import QArith.
From S2P Require Import Prelude GoTime GoStrings Costing Store ExampleWorld Tokens Secrets Outbound HttpClient.
From S2P Require Import Limits LimitsLedger LimitsReserve LimitsSpec BudgetService QuotaService AnomalyService Routing.
From S2P Require Import ContentPolicy Pricing Metering BudgetAlerts Redis GatewayBase Providers Caches Adapters Gateway.
#[local] Open Scope Z_scope.

Definition keeps {A} (P : DB → DB → Prop) (m : M A) : Prop :=
  ∀ w, P (w_db w) (w_db (m w).2) ∧ (w_faults w = [] → w_faults (m w).2 = []).

(** A relation that recording a cache event or a delivered alert cannot break. *)
Class Calm (P : DB → DB → Prop) := {
  calm_preorder :: PreOrder P;
  calm_cache c d c' d' : Gateway.insert_cache_event c d = Ok (c', d') → P d d';
  calm_delivery x d x' d' : BudgetAlerts.insert_delivery x d = Ok (x', d') → P d d'
}.

(** A relation that a line in the request log cannot break. *)
Class Logs (P : DB → DB → Prop) := {
  logs_insert l d l' d' : Metering.insert_request_log l d = Ok (l', d') → P d d'
}.

Lemma keeps_mono {A} (P Q : DB → DB → Prop) (m : M A) : (∀ d d', P d d' → Q d d') → keeps P m → keeps Q m.
Proof. intros HPQ Hm w. destruct (Hm w). auto. Qed.

Lemma keeps_and {A} (P Q : DB → DB → Prop) (m : M A) : keeps P m → keeps Q m → keeps (λ d d', P d d' ∧ Q d d') m.
Proof. intros Hp Hq w. destruct (Hp w), (Hq w). done. Qed.

Section keeps.
Context (P : DB → DB → Prop) `{!PreOrder P}.

Lemma keeps_ret {A} (a : A) : keeps P (mret (M := M) a).
Proof. done. Qed.
Lemma keeps_fail {A} e : keeps P (fail (A := A) e).
Proof. done. Qed.
Lemma keeps_lift {A} (r : result A) : keeps P (lift r).
Proof. done. Qed.
Lemma keeps_clock : keeps P clock.
Proof. done. Qed.
Lemma keeps_new_uuid : keeps P new_uuid.
Proof. done. Qed.
Lemma keeps_emit e : keeps P (emit e).
Proof. done. Qed.
Lemma keeps_call : keeps P call.
Proof. intros w. rewrite call_db. split; [done|]. intros H. unfold call. by rewrite H. Qed.
Lemma keeps_bind_ok {A B} (m : M A) (f : A → M B) :
  keeps P m → (∀ a w w', m w = (Ok a, w') → keeps P (f a)) → keeps P (m ≫= f).
Proof.
  intros Hm Hf w. destruct (Hm w) as [H1 H2]. unfold mbind, M_bind.
  destruct (m w) as [[a|e] w'] eqn:E; simpl in *; [|done].
  destruct (Hf a w w' E w') as [H3 H4]. split; [by etrans|auto].
Qed.
Lemma keeps_bind {A B} (m : M A) (f : A → M B) : keeps P m → (∀ a, keeps P (f a)) → keeps P (m ≫= f).
Proof. intros Hm Hf. by apply keeps_bind_ok. Qed.
Lemma keeps_try {A} (m : M A) : keeps P m → keeps P (try m).
Proof. intros Hm w. specialize (Hm w). unfold try. by destruct (m w). Qed.
Lemma keeps_catch {A} (m : M A) : keeps P m → keeps P (catch m).
Proof. intros Hm w. specialize (Hm w). unfold catch. by destruct (m w) as [[a|[]] w']. Qed.
Lemma keeps_draw : keeps P draw.
Proof. done. Qed.
Lemma keeps_trace_of : keeps P trace_of.
Proof. done. Qed.
Lemma keeps_Do `{Transport} r : keeps P (Do r).
Proof. intros w. destruct (Do_run r w) as (w' & -> & Hdb & Hf & _). simpl. by rewrite Hdb, Hf. Qed.
Lemma keeps_stmt {A} (f : DB → result (A * DB)) : (∀ d a d', f d = Ok (a, d') → P d d') → keeps P (stmt f).
Proof.
  intros Hf w. destruct (keeps_call w) as [H1 H2]. rewrite call_db in H1. unfold stmt.
  pose proof (call_db w) as Hd. destruct (call w) as [[u|e] w1]; simpl in *; [|by rewrite Hd].
  destruct (f (w_db w1)) as [[a d]|e] eqn:E; simpl; [|by rewrite Hd].
  split; [|done]. rewrite <- Hd. by eapply Hf.
Qed.
Lemma keeps_query {A} (f : DB → result A) : keeps P (query f).
Proof. apply keeps_stmt. intros d a d' H. apply result_bind_ok in H as (b & _ & [= _ <-]). done. Qed.
Lemma keeps_forM {S A} (l : list A) (body : S → A → M S) :
  (∀ acc x, keeps P (body acc x)) → ∀ acc, keeps P (forM l acc body).
Proof.
  intros Hb. induction l as [|x l IH]; intros acc; simpl; [apply keeps_ret|]. by apply keeps_bind.
Qed.

Lemma keeps_tx {A} commit (m : M A) : keeps P m → keeps P (WithTx commit m).
Proof.
  intros Hm w. pose proof (keeps_call w) as [_ Hc]. unfold WithTx. pose proof (call_db w) as Hd.
  destruct (call w) as [[u|e] w1]; simpl in *; [|by rewrite Hd].
  destruct (Hm w1) as [H1 H2]. rewrite Hd in H1. destruct (m w1) as [[a|e] w2]; simpl in *; [|rewrite Hd; split; [done|auto]].
  destruct (commit a); [|simpl; rewrite Hd; split; [done|auto]].
  pose proof (keeps_call w2) as [_ Hc2]. pose proof (call_db w2) as Hd2.
  destruct (call w2) as [[u2|e2] w3]; simpl in *; [rewrite Hd2|rewrite Hd]; split; auto; done.
Qed.
End keeps.

(** Take a method apart; what is left are its calls. *)
Ltac keeps_step :=
  match goal with
  | |- forall _, _ => intros
  | |- keeps _ (mret _) => apply keeps_ret, _
  | |- keeps _ (fail _) => apply keeps_fail, _
  | |- keeps _ (lift _) => apply keeps_lift, _
  | |- keeps _ clock => apply keeps_clock, _
  | |- keeps _ new_uuid => apply keeps_new_uuid, _
  | |- keeps _ (emit _) => apply keeps_emit, _
  | |- keeps _ call => apply keeps_call, _
  | |- keeps _ (query _) => apply keeps_query, _
  | |- keeps _ (WithTx _ _) => apply keeps_tx; [apply _|]
  | |- keeps _ (_ ≫= _) => apply keeps_bind; [apply _| |]
  | |- keeps _ draw => apply keeps_draw, _
  | |- keeps _ trace_of => apply keeps_trace_of, _
  | |- keeps _ (Do _) => apply keeps_Do, _
  | |- keeps _ (try _) => apply keeps_try
  | |- keeps _ (catch _) => apply keeps_catch
  | |- keeps _ (forM _ _ _) => apply keeps_forM; [apply _|]
  | |- keeps _ (match ?x with _ => _ end) => destruct x
  | |- keeps _ ((match ?x with _ => _ end) _) => destruct x
  | |- keeps _ (let _ := _ in _) => cbv zeta
  end.
Create HintDb keeps discriminated.
Ltac keeps := repeat (keeps_step || (solve [eauto with keeps nocore])).

(** ** The services that only read *)

Section reads.
Context (P : DB → DB → Prop) `{!PreOrder P}.

Lemma keeps_ActivePIIAction orgID : keeps P (PolicyService.ActivePIIAction orgID).
Proof. unfold PolicyService.ActivePIIAction, PolicyService.GetActiveContentPolicy. keeps. Qed.

Lemma keeps_applyContentPolicy orgID request : keeps P (Gateway.applyContentPolicy orgID request).
Proof. unfold Gateway.applyContentPolicy. pose proof keeps_ActivePIIAction. keeps. Qed.

Lemma keeps_budget_Check orgID : keeps P (BudgetService.Check orgID).
Proof.
  unfold BudgetService.Check, BudgetService.GetStatus, BudgetService.ListBudgets, BudgetService.statusForBudgetWithCache,
    BudgetService.usageForPeriod, BudgetService.periodWindow, BudgetService.GetBudgetUsedAmount. keeps.
Qed.

Lemma keeps_checkPeriods k periods r : keeps P (APIKeyQuota.checkPeriods k periods r).
Proof.
  revert r. induction periods as [|[p l] periods IH]; intros r; simpl; [keeps|].
  unfold APIKeyQuota.statusForPeriod, APIKeyQuota.periodWindow, APIKeyQuota.GetAPIKeyCostUsedAmount. keeps.
Qed.

Lemma keeps_quota_Check principal : keeps P (APIKeyQuota.Check principal).
Proof. unfold APIKeyQuota.Check, APIKeyQuota.GetAPIKey. pose proof keeps_checkPeriods. keeps. Qed.

Lemma keeps_Evaluate params : keeps P (Anomaly.Evaluate params).
Proof.
  unfold Anomaly.Evaluate, Anomaly.evaluateOne, Anomaly.evaluatePolicy, Anomaly.evaluateDailyCost,
    Anomaly.evaluateCostSpike, Anomaly.evaluateErrorRateSpike, Anomaly.costStats, Anomaly.errorStats. keeps.
Qed.

Lemma keeps_ResolveTargets pc params : keeps P (Routing.ResolveTargets pc params).
Proof.
  unfold Routing.ResolveTargets, Routing.resolveTarget, Routing.resolveLowestLatencyTargets,
    Routing.GetRoutePolicyByMatchModel, GetProvider, GetModel, orNoRows. keeps.
Qed.

Lemma keeps_Resolve pc params : keeps P (Routing.Resolve pc params).
Proof. unfold Routing.Resolve. pose proof keeps_ResolveTargets. keeps. Qed.

Lemma keeps_GetProviderSecret org p : keeps P (Providers.GetProviderSecret org p).
Proof. unfold Providers.GetProviderSecret. keeps. Qed.

(** The caches and the adapters talk to Redis and to the providers only. *)

Lemma keeps_codec_Seal `{Runtime, AEAD, Caches.CacheJSON} c r : keeps P (Caches.codec_Seal c r).
Proof. unfold Caches.codec_Seal, Secrets.box_Seal, rand_Read. keeps. Qed.

Lemma keeps_redis `{Redis} : 
  (∀ key, keeps P (redis_GET key)) ∧ (∀ key, keeps P (redis_SMEMBERS key)) ∧ (∀ c, keeps P (redis_write c)).
Proof. unfold redis_GET, redis_SMEMBERS, redis_write. split_and!; keeps. Qed.

Lemma keeps_PromptCache_Get `{AEAD, Caches.CacheJSON, Redis} c key : keeps P (Caches.PromptCache_Get c key).
Proof. destruct keeps_redis as (? & ? & ?). unfold Caches.PromptCache_Get. keeps. Qed.

Lemma keeps_PromptCache_Set `{Runtime, AEAD, Caches.CacheJSON} c key item : keeps P (Caches.PromptCache_Set c key item).
Proof. pose proof @keeps_codec_Seal. unfold Caches.PromptCache_Set, Caches.dated, redis_write. keeps. Qed.

Lemma keeps_SemanticCache_Store `{Runtime, AEAD, Digests, Caches.CacheJSON} c input : keeps P (Caches.SemanticCache_Store c input).
Proof. pose proof @keeps_codec_Seal. unfold Caches.SemanticCache_Store, redis_write. keeps. Qed.

Lemma keeps_SemanticCache_Lookup `{AEAD, Digests, Caches.CacheJSON, Redis} c input :
  keeps P (Caches.SemanticCache_Lookup c input).
Proof. destruct keeps_redis as (? & ? & ?). unfold Caches.SemanticCache_Lookup, Caches.consider. keeps. Qed.

Lemma keeps_adapters `{Transport, Adapters.UpstreamJSON, Digests} adapter request :
  keeps P (Adapters.adapterChat adapter request) ∧ keeps P (Adapters.adapterStreamChat adapter request).
Proof.
  unfold Adapters.adapterChat, Adapters.adapterStreamChat, Adapters.mock_Chat, Adapters.mock_StreamChat, Adapters.openai_Chat,
    Adapters.openai_StreamChat, Adapters.exchange. split; keeps.
Qed.

Lemma keeps_wait `{Gateway.Surroundings} t : keeps P (Gateway.wait t).
Proof. intros w. unfold Gateway.wait. by destruct (Gateway.interrupted _ _). Qed.

Lemma keeps_notify enabled hasMetrics e warning name :
  keeps P (Metering.notify enabled hasMetrics e warning name).
Proof. unfold Metering.notify. keeps. Qed.
End reads.
#[export] Hint Resolve keeps_applyContentPolicy keeps_budget_Check keeps_quota_Check keeps_Evaluate
  keeps_ResolveTargets keeps_Resolve keeps_GetProviderSecret keeps_PromptCache_Get keeps_PromptCache_Set
  keeps_SemanticCache_Store keeps_SemanticCache_Lookup keeps_wait : keeps.
#[export] Hint Extern 1 (PreOrder _) => typeclasses eauto : keeps.

(** ** The gateway *)

Module GatewayFrame.
Import GatewayBase Gateway.

(** The provider loop writes nothing at all. *)
Section loop.
Context (P : DB → DB → Prop) `{!PreOrder P}.
Context {SU : Surroundings} {RT : Runtime} {AE : AEAD} {NE : Net} {TR : Transport} {WH : Webhooks} {DG : Digests}.
Context {CJ : Caches.CacheJSON} {RD : Redis} {UJ : Adapters.UpstreamJSON}.
Context (s : ChatService).

Lemma keeps_metric name labels n : keeps P (metric s name labels n).
Proof. unfold metric. keeps. Qed.

Lemma keeps_prepareProvider p : keeps P (prepareProvider s p).
Proof. unfold prepareProvider, providerConfig. keeps. Qed.

Lemma keeps_chatAttempts fuel attempt chat : keeps P chat → keeps P (chatAttempts s fuel attempt chat).
Proof.
  intros Hc. revert attempt.
  induction fuel as [|fuel IH]; intros attempt; simpl; keeps.
Qed.

Lemma keeps_tryTargets input request fallback count index targets st :
  keeps P (tryTargets s input request fallback count index targets st).
Proof.
  pose proof (λ a r, proj1 (keeps_adapters P a r)). pose proof keeps_prepareProvider. pose proof keeps_chatAttempts.
  pose proof keeps_metric. revert index st. induction targets as [|t targets IH]; intros index st; simpl; [keeps|].
  unfold chatProviderWithRetry, observeProviderRequest. keeps.
Qed.
End loop.

Section calm.
Context (P : DB → DB → Prop) `{!Calm P}.
Context {SU : Surroundings} {RT : Runtime} {AE : AEAD} {NE : Net} {TR : Transport} {WH : Webhooks} {DG : Digests}.
Context {CJ : Caches.CacheJSON} {RD : Redis} {UJ : Adapters.UpstreamJSON}.
Context (s : ChatService).

Lemma keeps_CheckAndDeliver alerts org : keeps P (BudgetAlerts.CheckAndDeliver alerts org).
Proof.
  unfold BudgetAlerts.CheckAndDeliver, BudgetAlerts.checkAlert, BudgetAlerts.GetBudget, BudgetService.statusForBudget,
    BudgetService.statusForBudgetWithCache, BudgetService.usageForPeriod, BudgetService.periodWindow,
    BudgetService.GetBudgetUsedAmount, BudgetAlerts.deliverThreshold, BudgetAlerts.deliver, BudgetAlerts.send, BudgetAlerts.post.
  keeps. apply keeps_stmt; [apply _|]. intros ? ? ? Hins. by eapply calm_delivery.
Qed.

Lemma keeps_recordCacheEvent org log event model key reason :
  keeps P (recordCacheEvent org log event model key reason).
Proof.
  unfold recordCacheEvent, insertCacheEvent. keeps. apply keeps_stmt; [apply _|].
  intros ? ? ? Hins. by eapply calm_cache.
Qed.

Lemma keeps_recordSemanticCacheEvent org log event model key messages reason :
  keeps P (recordSemanticCacheEvent org log event model key messages reason).
Proof.
  unfold recordSemanticCacheEvent, insertCacheEvent. keeps. apply keeps_stmt; [apply _|].
  intros ? ? ? Hins. by eapply calm_cache.
Qed.

Lemma keeps_recordPromptCacheSkip input request reason : keeps P (recordPromptCacheSkip s input request reason).
Proof. unfold recordPromptCacheSkip. pose proof keeps_recordCacheEvent. keeps. Qed.

Lemma keeps_lookups input request key candidate :
  keeps P (lookupPromptCache s input request key) ∧ keeps P (semanticCacheCandidate s input request key) ∧
  keeps P (lookupSemanticCache s input request candidate).
Proof.
  pose proof keeps_recordCacheEvent. pose proof keeps_recordSemanticCacheEvent.
  unfold lookupPromptCache, semanticCacheCandidate, lookupSemanticCache. split_and!; keeps.
Qed.

Lemma keeps_respond input ad key candidate metered selected response :
  keeps P (respond s input ad key candidate metered selected response).
Proof.
  pose proof keeps_CheckAndDeliver.
  pose proof keeps_recordCacheEvent. pose proof keeps_recordSemanticCacheEvent. pose proof keeps_metric.
  unfold respond, storeInCaches, observeGatewayRequest. keeps.
Qed.

End calm.
(** ** Refusals and cache hits write the log only *)

Section logs.
Context (P : DB → DB → Prop) `{!Calm P, !Logs P}.
Context {SU : Surroundings} {RT : Runtime} {AE : AEAD} {NE : Net} {TR : Transport} {WH : Webhooks} {DG : Digests}.
Context {CJ : Caches.CacheJSON} {RD : Redis} {UJ : Adapters.UpstreamJSON}.
Context (s : ChatService).

Lemma keeps_log l : keeps P (stmt (Metering.insert_request_log l)).
Proof. apply keeps_stmt; [apply _|]. intros ? ? ? Hins. by eapply logs_insert. Qed.

Lemma keeps_RecordFailure ms input : keeps P (Metering.RecordFailure ms input).
Proof.
  pose proof (keeps_notify P). pose proof keeps_log.
  unfold Metering.RecordFailure, Metering.publishUsageEvent, Metering.writeAnalyticsRecord. keeps.
Qed.

Lemma keeps_RecordCacheHit ms input : keeps P (Metering.RecordCacheHit ms input).
Proof. pose proof (keeps_notify P). pose proof keeps_log. unfold Metering.RecordCacheHit, Metering.writeAnalyticsRecord. keeps. Qed.

Lemma keeps_recordFailure input model status code ecode rhash target metadata t :
  keeps P (recordFailure s input model status code ecode rhash target metadata t).
Proof. pose proof keeps_RecordFailure. unfold recordFailure. keeps. Qed.

Lemma keeps_reject {A} input model status code ecode metadata t counted label msg :
  keeps P counted → keeps P (reject (A := A) s input model status code ecode metadata t counted label msg).
Proof. intros Hc. pose proof keeps_recordFailure. pose proof (keeps_metric P). unfold reject, observeGatewayRequest. keeps. Qed.

Lemma keeps_rejectBudget {A} input model check content t :
  keeps P (rejectBudget (A := A) s input model check content t).
Proof. apply keeps_reject, keeps_metric, _. Qed.

Lemma keeps_rejectQuota {A} input model check content t :
  keeps P (rejectQuota (A := A) s input model check content t).
Proof. apply keeps_reject, keeps_ret, _. Qed.

Local Hint Extern 1 (keeps _ (rejectBudget _ _ _ _ _ _)) => apply keeps_rejectBudget : keeps.
Local Hint Extern 1 (keeps _ (rejectQuota _ _ _ _ _ _)) => apply keeps_rejectQuota : keeps.
Local Hint Extern 1 (keeps _ (reject _ _ _ _ _ _ _ _ _ _ _)) => apply keeps_reject, keeps_ret, _ : keeps.

Lemma keeps_admission input request t skipped metadata :
  (∀ r, keeps P (skipped r)) → keeps P (admission s input request t skipped metadata).
Proof.
  intros Hs. unfold admission, admitContent, admitBudget, admitQuota, admitAnomaly. keeps.
Qed.

Lemma keeps_orRouteNotFound {A} input ad (m : M A) : keeps P m → keeps P (orRouteNotFound s input ad m).
Proof.
  intros Hm. unfold orRouteNotFound. keeps.
Qed.

Lemma keeps_respondFromCache input ad resolved cached metadata event :
  (∀ id, keeps P (event id)) → keeps P (respondFromCache s input ad resolved cached metadata event).
Proof.
  intros He. pose proof keeps_RecordCacheHit. pose proof (keeps_metric P).
  unfold respondFromCache, observeGatewayRequest. keeps.
Qed.

Lemma keeps_openStream input ad active policy p m : keeps P (openStream s input ad active policy p m).
Proof.
  pose proof (keeps_prepareProvider P s). pose proof keeps_recordFailure. pose proof (keeps_metric P).
  pose proof (λ a r, proj2 (keeps_adapters P a r)).
  unfold openStream, streamFailed, observeGatewayRequest, observeProviderRequest. keeps.
Qed.
End logs.
#[export] Hint Extern 1 (keeps _ (rejectBudget _ _ _ _ _ _)) => apply keeps_rejectBudget; apply _ : keeps.
#[export] Hint Extern 1 (keeps _ (rejectQuota _ _ _ _ _ _)) => apply keeps_rejectQuota; apply _ : keeps.
#[export] Hint Extern 1 (keeps _ (reject _ _ _ _ _ _ _ _ _ _ _)) => apply keeps_reject, keeps_ret; apply _ : keeps.
(** ** Whole requests

    A request touches the ledger only through its own reservation, and the
    books only through its own success. *)

Section requests.
Context (P : DB → DB → Prop) `{!Calm P, !Logs P}.
Context {SU : Surroundings} {RT : Runtime} {AE : AEAD} {NE : Net} {TR : Transport} {WH : Webhooks} {DG : Digests}.
Context {CJ : Caches.CacheJSON} {RD : Redis} {UJ : Adapters.UpstreamJSON}.
Context (s : ChatService) (me : ChatInput).
Definition my_success (ri : Metering.RecordSuccessInput) : Prop :=
  ri.(Metering.rs_RequestID) = me.(in_RequestID) ∧ ri.(Metering.rs_OrgID) = me.(in_Principal).(OrgID) ∧
  ri.(Metering.rs_APIKeyID) = me.(in_Principal).(APIKeyID).
Context (Hreserve : ∀ ri, ri.(ri_RequestID) = me.(in_RequestID) → keeps P (Reserve ri)).
Context (Hrelease : keeps P (Release me.(in_RequestID))).
Context (Hsuccess : ∀ ms ri, my_success ri → keeps P (Metering.RecordSuccess ms ri)).

Lemma keeps_reserveProviderCost ad models : keeps P (reserveProviderCost s me ad models).
Proof. unfold reserveProviderCost. keeps; by apply Hreserve. Qed.

Lemma keeps_withRelease {A} active (m : M A) : keeps P m → keeps P (withRelease active me.(in_RequestID) m).
Proof. intros Hm. unfold withRelease. keeps. Qed.

Lemma keeps_callProviders ad resolved : keeps P (callProviders s me ad resolved).
Proof.
  pose proof (keeps_metric P s). pose proof (keeps_recordFailure P s). pose proof (keeps_tryTargets P s).
  unfold callProviders, providersFailed, observeProviderRequest, observeGatewayRequest. keeps; by apply Hsuccess.
Qed.

Lemma keeps_Chat : keeps P (Chat s me).
Proof.
  pose proof (keeps_admission P s). pose proof (λ c, keeps_orRouteNotFound (A := c) P s).
  pose proof (keeps_respondFromCache P s). pose proof (keeps_recordCacheEvent P). pose proof (keeps_recordSemanticCacheEvent P).
  pose proof keeps_callProviders. pose proof keeps_reserveProviderCost. pose proof (keeps_respond P s).
  pose proof (λ i r k, proj1 (keeps_lookups P s i r k noCandidate)).
  pose proof (λ i r k, proj1 (proj2 (keeps_lookups P s i r k noCandidate))).
  pose proof (λ i r c, proj2 (proj2 (keeps_lookups P s i r None c))). pose proof (@keeps_ret P _).
  pose proof @keeps_withRelease.
  unfold Chat, rejectRequest, respondFromPromptCache, respondFromSemanticCache, serve. keeps; eauto with keeps.
Qed.

Lemma keeps_StreamChat : keeps P (StreamChat s me).
Proof.
  pose proof (keeps_admission P s). pose proof (λ c, keeps_orRouteNotFound (A := c) P s).
  pose proof (keeps_recordPromptCacheSkip P s). pose proof keeps_reserveProviderCost. pose proof (keeps_openStream P s).
  pose proof @keeps_withRelease. unfold StreamChat, rejectRequest. keeps; eauto with keeps.
Qed.

Lemma keeps_FinalizeStream result usage streamErr :
  result.(sr_input) = me → keeps P (FinalizeStream s result usage streamErr).
Proof.
  intros Hme. pose proof (keeps_metric P s). pose proof (keeps_recordFailure P s). pose proof (keeps_RecordFailure P).
  assert (Hr : keeps P (releaseStream result)) by (unfold releaseStream; rewrite Hme; keeps).
  unfold FinalizeStream, thenReturn, observeProviderRequest, observeGatewayRequest. rewrite Hme. keeps; by apply Hsuccess.
Qed.
End requests.
End GatewayFrame.
