(* ===== verification/GatewayReservations.v ===== *)
(** * Reservations and requests

    No request keeps a reservation once it has ended: [Chat] releases or
    settles what it reserved on every path, and a stream does so when it is
    finalised. *)

From Stdlib Require Import QArith.
From S2P Require Import Prelude GoTime GoStrings Costing Store ExampleWorld Tokens Secrets Outbound HttpClient.
From S2P Require Import Limits LimitsLedger LimitsReserve LimitsSpec BudgetService QuotaService AnomalyService Routing.
From S2P Require Import ContentPolicy Pricing Metering BudgetAlerts Redis GatewayBase Providers Caches Adapters Gateway GatewayFrame.
#[local] Open Scope Z_scope.

Module GatewayReservations.
Import GatewayBase Gateway GatewayFrame.

(** A lemma whose remaining premises are instances. *)
Ltac use L := apply L; apply _.

(** ** Relations on the database *)

(** The ledger of reservations does not change. *)
Definition still (d d' : DB) : Prop :=
  d'.(cost_limit_counters) = d.(cost_limit_counters) ∧ d'.(cost_reservations) = d.(cost_reservations).

#[export] Instance still_calm : Calm still.
Proof.
  unfold still. split; [split; [done|]| |]; [intros d1 d2 d3; naive_solver congruence|..];
    intros ? ? ? ? H; by apply Metering.insert_ok in H as (_ & -> & _).
Qed.
#[export] Instance still_logs : Logs still.
Proof. split. intros ? ? ? ? H. by apply Metering.insert_ok in H as (_ & -> & _). Qed.

Definition anything (d d' : DB) : Prop := True.
#[export] Instance anything_preorder : PreOrder anything.
Proof. done. Qed.

Lemma keeps_any_stmt {A} (f : DB → result (A * DB)) : keeps anything (stmt f).
Proof. by apply keeps_stmt. Qed.

Lemma keeps_any_Reserve input : keeps anything (Reserve input).
Proof.
  assert (Hloop : ∀ now items, keeps anything (reserveConstraints input now items)).
  { intros now. pose proof @keeps_any_stmt. induction items as [|item items IH]; simpl;
      unfold reserveConstraint, ensureAndLockCounter; keeps. }
  pose proof @keeps_any_stmt. unfold Reserve, loadBlockingConstraints. keeps.
Qed.

Lemma keeps_any_Release req : keeps anything (Release req).
Proof. pose proof @keeps_any_stmt. unfold Release, ReleaseTx, ExecTxRaw. keeps. Qed.

Lemma keeps_any_RecordSuccess s input : keeps anything (Metering.RecordSuccess s input).
Proof.
  pose proof @keeps_any_stmt. pose proof (keeps_notify anything).
  unfold Metering.RecordSuccess, Metering.publishUsageEvent, Metering.writeAnalyticsRecord, ExecTxRaw. keeps.
  unfold Metering.recordSuccessTx, Pricing.query_active_version, SettleTx. keeps.
Qed.

(** ** No reservation outlives its request *)

(** The ledger balances and no call fails. *)
Definition ready (w : world) : Prop := ledger_ok (w_db w) ∧ w_faults w = [].
(** Moreover [req] holds nothing. *)
Definition idle (req : uuid) (w : world) : Prop := ready w ∧ held_by req (w_db w) = [].

Lemma still_ledger d d' : still d d' → ledger_ok d → ledger_ok d'.
Proof. intros [Hc Hr]. by apply ledger_ok_tables. Qed.

Lemma still_held req d d' : still d d' → held_by req d' = held_by req d.
Proof. unfold held_by. by intros [_ ->]. Qed.

Lemma still_ready {A} (m : M A) w : keeps still m → ready w → ready (m w).2.
Proof. intros Hm [Hl Hf]. destruct (Hm w) as [Hs Hf']. split; [by eapply still_ledger|auto]. Qed.

Lemma still_idle {A} (m : M A) req w : keeps still m → idle req w → idle req (m w).2.
Proof.
  intros Hm [Hr Hh]. split; [by apply still_ready|]. destruct (Hm w) as [Hs _]. by rewrite (still_held _ _ _ Hs).
Qed.

(** A step that starts and ends with nothing held. *)
Definition returns (req : uuid) {A} (m : M A) : Prop := ∀ w, idle req w → idle req (m w).2.

Lemma returns_still {A} req (m : M A) : keeps still m → returns req m.
Proof. intros Hm w. by apply still_idle. Qed.

Lemma returns_bind {A B} req (m : M A) (f : A → M B) : returns req m → (∀ a, returns req (f a)) → returns req (m ≫= f).
Proof.
  intros Hm Hf w Hw. unfold mbind, M_bind. specialize (Hm w Hw).
  destruct (m w) as [[a|e] w']; simpl in *; [by apply Hf|done].
Qed.

Section leak.
Context {SU : Surroundings} {RT : Runtime} {AE : AEAD} {NE : Net} {TR : Transport} {WH : Webhooks} {DG : Digests}.
Context {CJ : Caches.CacheJSON} {RD : Redis} {UJ : Adapters.UpstreamJSON}.
Context (s : ChatService).

Lemma Reserve_id ri w res : (Reserve ri w).1 = Ok res → ri.(ri_RequestID) ≠ Nil.
Proof. unfold Reserve. destruct (N.eqb_spec (ri_RequestID ri) Nil); done. Qed.

Lemma refused {A} input model status code ecode metadata t counted label msg w (a : A) :
  (reject (A := A) s input model status code ecode metadata t counted label msg w).1 ≠ Ok a.
Proof.
  unfold reject, mbind, M_bind, try, clock, observeGatewayRequest, metric, emit, fail.
  destruct (recordFailure _ _ _ _ _ _ _ _ _ _ w) as [r w1]. destruct (counted w1) as [[]]; [|done].
  by destruct (hasMetrics s).
Qed.

(** Reserving: only an admitted request holds anything. *)
Lemma reserve_idle input ad models w :
  idle input.(in_RequestID) w →
  let r := reserveProviderCost s input ad models w in
  ready r.2 ∧ (r.1 ≠ Ok true → idle input.(in_RequestID) r.2) ∧ (r.1 = Ok true → input.(in_RequestID) ≠ Nil).
Proof.
  intros Hi. unfold reserveProviderCost, mbind, M_bind, lift.
  destruct (estimateReservationCost _ _) as [cost|e]; [|split_and!; [apply Hi|done..]].
  destruct (cost <=? 0); [split_and!; [apply Hi|done..]|].
  set (ri := mkReserveInput _ _ _ _). pose proof (keeps_any_Reserve ri w) as [_ Hf].
  destruct (Reserve ri w) as [r w'] eqn:E. pose proof (Reserve_ledger ri r w w' (proj1 (proj1 Hi)) E) as [_ Hl].
  pose proof (Reserve_no_trace ri w) as Hn.
  pose proof (Reserve_id ri w) as Hid. rewrite E in *. simpl in *.
  assert (Hr : ready w') by (split; [done|apply Hf, Hi]).
  assert (Hsame : (∀ res, r = Ok res → rr_Allowed res = false) → idle (in_RequestID input) w').
  { intros Hno. split; [done|]. rewrite Hn by done. apply Hi. }
  destruct r as [res|e]; [|split_and!; [done|intros _; by apply Hsame|done]].
  destruct (rr_Allowed res) eqn:Ea; [split_and!; [done|by intros []|intros _; by eapply Hid]|].
  assert (Hi' : idle (in_RequestID input) w') by (apply Hsame; congruence).
  destruct (String.eqb _ _); (split_and!; [apply still_ready; [auto with keeps|done]
    |intros _; apply still_idle; [auto with keeps|done]|intros H; by apply refused in H]).
Qed.

Lemma release_idle req w : req ≠ Nil → ready w → idle req (Release req w).2.
Proof.
  intros Hn [Hl Hf]. pose proof (keeps_any_Release req w) as [_ Hf'].
  pose proof (Release_total req w Hl Hf Hn) as Ht. destruct (Release req w) as [r w'] eqn:E. simpl in *. subst r.
  apply Release_cases in E as [(e & ? & _)|(_ & Hd)]; [done| |done].
  split; [split; [apply Hd|auto]|]. by apply (discharged_none_held _ "released" _ _ _ ltac:(done) Hd).
Qed.

(** [closes req m]: [m] may leave [req] holding something only by failing. *)
Definition closes (req : uuid) {A} (m : M A) : Prop :=
  ∀ w, ready w → ready (m w).2 ∧ (is_ok (m w).1 = true ∨ idle req w → idle req (m w).2).

Lemma closes_bind {A B} req (m : M A) (f : A → M B) :
  keeps still m → (∀ a, closes req (f a)) → closes req (m ≫= f).
Proof.
  intros Hm Hf w Hw. pose proof (still_ready m w Hm Hw) as Hr. pose proof (still_idle m req w Hm) as Hi.
  unfold mbind, M_bind. destruct (m w) as [[a|e] w']; simpl in *; [|split; [done|]; by intros [?|?]; auto].
  destruct (Hf a w' Hr) as [H1 H2]. split; [done|]. intros [?|?]; auto.
Qed.

Lemma closes_ret {A B} req (m : M A) (g : A → B) : closes req m → closes req (m ≫= λ a, mret (g a)).
Proof.
  intros Hm w Hw. specialize (Hm w Hw). unfold mbind, M_bind. by destruct (m w) as [[a|e] w'].
Qed.

Lemma closes_fail {A} req e : closes req (fail (A := A) e).
Proof. intros w Hw. split; [done|]. by intros [?|?]. Qed.

Lemma withRelease_idle {A} active req (m : M A) w :
  (active = true → req ≠ Nil) → ready w → (active = false → idle req w) → closes req m → idle req (withRelease active req m w).2.
Proof.
  intros Hn Hr Ha Hm. specialize (Hm w Hr) as [Hr' Hi']. unfold withRelease, try, mbind, M_bind.
  destruct (m w) as [[a|e] w'] eqn:E; simpl in *; [by apply Hi'; left|].
  destruct active; [|by apply Hi'; right; apply Ha].
  pose proof (release_idle req w' (Hn eq_refl) Hr') as Hrel. by destruct (Release req w').
Qed.

Lemma closes_RecordSuccess ms ri : closes ri.(Metering.rs_RequestID) (Metering.RecordSuccess ms ri).
Proof.
  intros w [Hl Hf]. pose proof (keeps_any_RecordSuccess ms ri w) as [_ Hf'].
  pose proof (Metering.RecordSuccess_no_trace ms ri w) as Hn.
  destruct (Metering.RecordSuccess ms ri w) as [[res|e] w'] eqn:E; simpl in *.
  - apply Metering.RecordSuccess_closes in E as (Hl' & Hh & _); [|done]. unfold idle, ready. auto.
  - unfold idle, ready. rewrite (Hn e eq_refl). split; [auto|]. intros [?|[_ Hh]]; [done|auto].
Qed.

Lemma closes_providersFailed input ad fallback count st :
  closes input.(in_RequestID) (providersFailed s input ad fallback count st).
Proof.
  pose proof (keeps_recordFailure still s). pose proof (keeps_metric still).
  unfold providersFailed, observeGatewayRequest. cbv zeta.
  repeat (apply closes_bind; [solve [keeps]|intros]). apply closes_fail.
Qed.

(** The provider loop, then the record of the success. *)
Lemma closes_callProviders input ad resolved : closes input.(in_RequestID) (callProviders s input ad resolved).
Proof.
  pose proof (keeps_metric still). unfold callProviders, observeProviderRequest. cbv zeta.
  apply closes_bind; [use keeps_tryTargets|intros st].
  destruct (ls_providerResponse st); [|apply closes_providersFailed].
  destruct (ls_selected st); [|apply closes_providersFailed].
  repeat (apply closes_bind; [solve [keeps]|intros]). apply closes_ret, closes_RecordSuccess.
Qed.

Lemma serve_idle input ad resolved key candidate :
  returns input.(in_RequestID) (serve s input ad resolved key candidate).
Proof.
  intros w Hi. unfold serve, mbind, M_bind.
  pose proof (reserve_idle input ad (modelsFromResolvedTargets (Routing.rr_Targets resolved)) w Hi) as (Hr & Hni & Hn).
  destruct (reserveProviderCost _ _ _ _ w) as [[active|e] w1]; simpl in *; [|by apply Hni].
  assert (Hi2 : idle (in_RequestID input) (withRelease active (in_RequestID input) (callProviders s input ad resolved) w1).2).
  { apply withRelease_idle; [intros ->; by apply Hn|done| |apply closes_callProviders]. intros ->. by apply Hni. }
  destruct (withRelease _ _ _ w1) as [[r|e] w2]; simpl in *; [|done]. by apply still_idle; [use keeps_respond|].
Qed.

Lemma Chat_returns (input : ChatInput) : returns input.(in_RequestID) (Chat s input).
Proof.
  unfold Chat.
  apply returns_bind; [apply returns_still, keeps_clock, _|intros t].
  destruct (unmarshalRequest _) as [request|e]; [|apply returns_still, keeps_fail, _].
  destruct (req_Stream request); [apply returns_still, (keeps_reject still), keeps_ret, _|].
  destruct (emptyRequest request); [apply returns_still, (keeps_reject still), keeps_ret, _|].
  apply returns_bind; [apply returns_still, (keeps_admission still); intros; apply keeps_ret, _|intros ad].
  apply returns_bind; [apply returns_still, (keeps_orRouteNotFound still); use keeps_ResolveTargets|intros resolved].
  cbv zeta. set (key := promptCacheKey _ _ _).
  pose proof (λ c, keeps_lookups still s input (ad_request ad) key c) as Hl.
  apply returns_bind; [apply returns_still, Hl, noCandidate|intros cached].
  assert (Hrest : returns (in_RequestID input)
    (candidate ← semanticCacheCandidate s input (ad_request ad) key;
     found ← lookupSemanticCache s input (ad_request ad) candidate;
     match found with
     | Some m => respondFromSemanticCache s input ad resolved m
     | None => serve s input ad resolved key candidate
     end)).
  { apply returns_bind; [apply returns_still, Hl, noCandidate|intros candidate].
    apply returns_bind; [apply returns_still, Hl|intros [m|]]; [|by apply serve_idle].
    apply returns_still, (keeps_respondFromCache still). intros. use keeps_recordSemanticCacheEvent. }
  destruct cached, key; try done.
  apply returns_still, (keeps_respondFromCache still). intros. use keeps_recordCacheEvent.
Qed.

(** No reservation outlives its request. From a balanced ledger in which
    the request holds nothing, and while no database call fails, whatever the
    client sends, whatever the checks decide and whatever the providers, caches
    and encodings do, after [Chat] the request holds no reservation and every
    counter's reserved amount is again the sum of the open reservations. *)
Theorem Chat_no_leak (input : ChatInput) (w : world) :
  idle input.(in_RequestID) w → idle input.(in_RequestID) (Chat s input w).2.
Proof. apply Chat_returns. Qed.

(** *** Streams: the reservation passes to the caller *)

Definition opens (input : ChatInput) (m : M ChatStreamResult) : Prop :=
  ∀ w, idle input.(in_RequestID) w →
    match m w with
    | (Ok r, w') => ready w' ∧ r.(sr_input) = input ∧
        (r.(sr_reservationActive) = false → idle input.(in_RequestID) w') ∧
        (r.(sr_reservationActive) = true → input.(in_RequestID) ≠ Nil)
    | (Err _, w') => idle input.(in_RequestID) w'
    end.

Lemma opens_bind {A} input (m : M A) (f : A → M ChatStreamResult) :
  keeps still m → (∀ a, opens input (f a)) → opens input (m ≫= f).
Proof.
  intros Hm Hf w Hw. pose proof (still_idle m _ w Hm Hw) as Hi. unfold mbind, M_bind.
  destruct (m w) as [[a|e] w']; simpl in *; [by apply Hf|done].
Qed.

Lemma opens_err input (m : M ChatStreamResult) :
  keeps still m → (∀ w a, (m w).1 ≠ Ok a) → opens input m.
Proof.
  intros Hm He w Hw. pose proof (still_idle m _ w Hm Hw) as Hi. specialize (He w).
  destruct (m w) as [[a|e] w']; [by destruct (He a)|done].
Qed.

Lemma openStream_ok input ad active policy p m w r w' :
  openStream s input ad active policy p m w = (Ok r, w') → r.(sr_input) = input ∧ r.(sr_reservationActive) = active.
Proof.
  assert (Hf : ∀ st c x k w0, (streamFailed s input ad p m st c x k w0).1 ≠ Ok r).
  { intros. unfold streamFailed, mbind, M_bind, try, clock, observeGatewayRequest, metric, emit, fail.
    destruct (recordFailure _ _ _ _ _ _ _ _ _ _ w0). destruct (k _) as [[]]; [|done]. by destruct (hasMetrics s). }
  unfold openStream. intros H. apply bind_ok in H as (prepared & w1 & _ & H).
  destruct prepared as [[adapter cfg]|e]; [|by destruct (Hf _ _ _ _ w1 (f_equal fst H))].
  apply bind_ok in H as (t & w2 & _ & H). apply bind_ok in H as ([stream|e] & w3 & _ & H).
  - by apply ret_ok in H as [<- _].
  - destruct (providerErrorStatus e). by destruct (Hf _ _ _ _ w3 (f_equal fst H)).
Qed.

Lemma opens_rest input ad policy p m :
  opens input (active ← reserveProviderCost s input ad [m];
               withRelease active input.(in_RequestID) (openStream s input ad active policy p m)).
Proof.
  intros w Hi. unfold mbind at 1, M_bind at 1.
  pose proof (reserve_idle input ad [m] w Hi) as (Hr & Hni & Hn).
  destruct (reserveProviderCost _ _ _ _ w) as [[active|e] w1]; simpl in *; [|by apply Hni].
  pose proof (keeps_openStream still s input ad active policy p m) as Hk.
  pose proof (still_ready _ w1 Hk Hr) as Hr2. pose proof (still_idle _ (in_RequestID input) w1 Hk) as Hi2.
  pose proof (openStream_ok input ad active policy p m w1) as Hok. unfold withRelease, try, mbind, M_bind.
  destruct (openStream _ _ _ _ _ _ _ w1) as [[r|e] w2]; simpl in *.
  - destruct (Hok r w2 eq_refl) as [H1 H2]. split_and!; [done|done|intros Ha; apply Hi2, Hni; congruence|intros Ha; apply Hn; congruence].
  - destruct active; [|by apply Hi2, Hni]. pose proof (release_idle _ w2 (Hn eq_refl) Hr2) as Hrel. by destruct (Release _ w2).
Qed.

Lemma opens_StreamChat input : opens input (StreamChat s input).
Proof.
  unfold StreamChat. apply opens_bind; [apply keeps_clock, _|intros t].
  destruct (unmarshalRequest _) as [request|e]; [|by apply opens_err; [apply keeps_fail, _|]].
  destruct (emptyRequest request).
  { apply opens_err; [apply (keeps_reject still), keeps_ret, _|intros w a; apply refused]. }
  apply opens_bind; [apply (keeps_admission still); intros; use keeps_recordPromptCacheSkip|intros ad].
  apply opens_bind; [apply (keeps_orRouteNotFound still); use keeps_Resolve|intros [[policy p] m]]. apply opens_rest.
Qed.

Lemma releaseStream_idle r w :
  (r.(sr_reservationActive) = true → r.(sr_input).(in_RequestID) ≠ Nil) → ready w →
  (r.(sr_reservationActive) = false → idle r.(sr_input).(in_RequestID) w) →
  idle r.(sr_input).(in_RequestID) (releaseStream r w).2.
Proof.
  intros Hn Hr Ha. unfold releaseStream, try, mbind, M_bind. destruct (sr_reservationActive r); [|by apply Ha].
  pose proof (release_idle _ w (Hn eq_refl) Hr) as Hrel. by destruct (Release _ w).
Qed.

Lemma finish_idle {A} (r : ChatStreamResult) (m : M A) (f : result A → M unit) w :
  keeps still m → ready w → (r.(sr_reservationActive) = false → idle r.(sr_input).(in_RequestID) w) →
  (∀ x w1, ready w1 → (r.(sr_reservationActive) = false → idle r.(sr_input).(in_RequestID) w1) →
     idle r.(sr_input).(in_RequestID) (f x w1).2) →
  idle r.(sr_input).(in_RequestID) ((x ← try m; f x) w).2.
Proof.
  intros Hm Hr Ha Hf. unfold try, mbind, M_bind. pose proof (still_ready m w Hm Hr) as Hr1.
  pose proof (still_idle m (in_RequestID (sr_input r)) w Hm) as Hi1. destruct (m w) as [x w1]; simpl in *. auto.
Qed.

Lemma release_then {A} r (x : result A) (k : unit → M unit) w :
  (r.(sr_reservationActive) = true → r.(sr_input).(in_RequestID) ≠ Nil) → (∀ u, keeps still (k u)) → ready w →
  (r.(sr_reservationActive) = false → idle r.(sr_input).(in_RequestID) w) →
  idle r.(sr_input).(in_RequestID) (thenReturn x (releaseStream r ≫= k) w).2.
Proof.
  intros Hn Hk Hr Ha. unfold thenReturn, mbind, M_bind. pose proof (releaseStream_idle r w Hn Hr Ha) as Hi.
  destruct (releaseStream r w) as [[u|e] w1]; simpl in *; [|done]. pose proof (still_idle (k u) _ w1 (Hk u) Hi) as Hi2.
  destruct (k u w1) as [[u'|e] w2]; simpl in *; [by destruct x|done].
Qed.

Lemma FinalizeStream_idle r usage streamErr w :
  (r.(sr_reservationActive) = true → r.(sr_input).(in_RequestID) ≠ Nil) → ready w →
  (r.(sr_reservationActive) = false → idle r.(sr_input).(in_RequestID) w) →
  idle r.(sr_input).(in_RequestID) (FinalizeStream s r usage streamErr w).2.
Proof.
  intros Hn Hr Ha. pose proof (keeps_metric still) as Hm. unfold FinalizeStream. cbv zeta.
  unfold mbind at 1, M_bind at 1. simpl. unfold mbind at 1, M_bind at 1. simpl. generalize dependent w. intros w Hr Ha.
  set (w1 := set_tick _ (set_tick _ w)). assert (Hr1 : ready w1) by done.
  assert (Ha1 : sr_reservationActive r = false → idle (in_RequestID (sr_input r)) w1) by done. clearbody w1.
  destruct streamErr as [e|]; [|destruct usage as [u|]].
  - destruct (providerErrorStatus e). apply finish_idle; [apply (keeps_recordFailure still)|done|done|].
    intros x w2 Hr2 Ha2. apply release_then; try done. unfold observeProviderRequest, observeGatewayRequest. keeps.
  - unfold try, mbind at 1, M_bind at 1. set (ri := Metering.mkRecordSuccessInput _ _ _ _ _ _ _ _ _ _ _ _ _ _ _ _ _ _ _ _ _ _ _).
    destruct (closes_RecordSuccess (metering s) ri w1 Hr1) as [Hr2 Hi2].
    destruct (Metering.RecordSuccess (metering s) ri w1) as [[res|e] w2]; simpl in *.
    + apply still_idle; [|by apply Hi2; left]. unfold observeProviderRequest, observeGatewayRequest. keeps.
    + unfold mbind, M_bind. pose proof (releaseStream_idle r w2 Hn Hr2 (λ h, Hi2 (or_intror (Ha1 h)))) as Hi.
      by destruct (releaseStream r w2) as [[]].
  - apply finish_idle; [apply (keeps_RecordFailure still)|done|done|].
    intros x w2 Hr2 Ha2. apply release_then; try done. unfold observeGatewayRequest. keeps.
Qed.

(** No reservation outlives its stream. A streaming request that is
    refused holds nothing; one that is opened holds its reservation until
    [FinalizeStream], which leaves nothing held however the stream ended, with
    an error, without usage, or with a success that could not be recorded, and
    whatever happened to the rest of the database in between. *)
Theorem Stream_no_leak (input : ChatInput) (r : result ChatStreamResult) (w w1 : world) :
  idle input.(in_RequestID) w → StreamChat s input w = (r, w1) →
  match r with
  | Err _ => idle input.(in_RequestID) w1
  | Ok res => ready w1 ∧ ∀ w2 usage streamErr,
      ready w2 → held_by input.(in_RequestID) (w_db w2) = held_by input.(in_RequestID) (w_db w1) →
      idle input.(in_RequestID) (FinalizeStream s res usage streamErr w2).2
  end.
Proof.
  intros Hi E. pose proof (opens_StreamChat input w Hi) as H. rewrite E in H. destruct r as [res|e]; [|done].
  destruct H as (Hr & <- & Ha & Hn). split; [done|]. intros w2 usage streamErr Hr2 Hh.
  apply FinalizeStream_idle; [done|done|]. intros Hf. split; [done|]. rewrite Hh. by apply Ha.
Qed.

End leak.

End GatewayReservations.
