(* ===== verification/GatewayBooks.v ===== *)
(** * The books of a chat request

    What a request reports is what was recorded, and a failed request leaves
    at most one line in the log and nothing else. *)

From Stdlib Require Import QArith.
From S2P Require Import Prelude GoTime GoStrings Costing Store ExampleWorld Tokens Secrets Outbound HttpClient.
From S2P Require Import Limits LimitsLedger LimitsReserve LimitsSpec BudgetService QuotaService AnomalyService Routing.
From S2P Require Import ContentPolicy Pricing Metering BudgetAlerts Redis GatewayBase Providers Caches Adapters Gateway GatewayFrame.
#[local] Open Scope Z_scope.

Module GatewayBooks.
Import GatewayBase Gateway GatewayFrame.

(** A lemma whose remaining premises are instances. *)
Ltac use L := apply L; apply _.

(** [d'] is [d] with these rows added to the books; the ledger stays balanced. *)
Definition grew (logs : list RequestLog) (us : list UsageRecord) (cs : list CostRecord) (d d' : DB) : Prop :=
  ledger_ok d → ledger_ok d' ∧ d'.(request_logs) = d.(request_logs) ++ logs ∧
    d'.(usage_records) = d.(usage_records) ++ us ∧ d'.(cost_records) = d.(cost_records) ++ cs.

Definition books : DB → DB → Prop := grew [] [] [].

Lemma grew_trans l1 u1 c1 l2 u2 c2 d1 d2 d3 :
  grew l1 u1 c1 d1 d2 → grew l2 u2 c2 d2 d3 → grew (l1 ++ l2) (u1 ++ u2) (c1 ++ c2) d1 d3.
Proof.
  intros H1 H2 Hok. destruct (H1 Hok) as (Hok2 & E1 & E2 & E3). destruct (H2 Hok2) as (Hok3 & F1 & F2 & F3).
  split; [done|]. by rewrite F1, F2, F3, E1, E2, E3, !app_assoc.
Qed.

Lemma grew_books_l l u c d1 d2 d3 : books d1 d2 → grew l u c d2 d3 → grew l u c d1 d3.
Proof. intros H1 H2. exact (grew_trans [] [] [] l u c _ _ _ H1 H2). Qed.

Lemma grew_books_r l u c d1 d2 d3 : grew l u c d1 d2 → books d2 d3 → grew l u c d1 d3.
Proof. intros H1 H2. pose proof (grew_trans _ _ _ _ _ _ _ _ _ H1 H2) as H. by rewrite !app_nil_r in H. Qed.

#[export] Instance books_calm : Calm books.
Proof.
  split.
  - split; [intros d Hok; by rewrite !app_nil_r|]. intros d1 d2 d3. apply grew_books_l.
  - intros ? d ? d' H Hok. apply Metering.insert_ok in H as (_ & -> & _). rewrite !app_nil_r.
    split; [|done]. by apply (ledger_ok_tables d).
  - intros ? d ? d' H Hok. apply Metering.insert_ok in H as (_ & -> & _). rewrite !app_nil_r.
    split; [|done]. by apply (ledger_ok_tables d).
Qed.

Lemma books_same d d' : d' = d → books d d'.
Proof. by intros ->. Qed.

Lemma frame_books d d' : limits_frame d d' → ledger_ok d' → books d d'.
Proof. unfold limits_frame. destruct d, d'. simpl. intros H Hok _. simplify_eq/=. by rewrite !app_nil_r. Qed.

Lemma frame_grew l u c d d1 d' :
  grew l u c d d1 → limits_frame d1 d' → ledger_ok d' → grew l u c d d'.
Proof. intros H Hfr Hok. eapply grew_books_r; [done|]. by apply frame_books. Qed.

(** The ledger's own calls keep the books. *)
Lemma books_Reserve input w : books (w_db w) (w_db (Reserve input w).2).
Proof.
  intros Hok. destruct (Reserve input w) as [r w'] eqn:E. apply Reserve_ledger in E as [Hfr Hok']; [|done].
  by apply (frame_books (w_db w)).
Qed.

Lemma books_Release req w : books (w_db w) (w_db (Release req w).2).
Proof.
  intros Hok. destruct (Release req w) as [r w'] eqn:E.
  apply Release_cases in E as [(e & _ & Hd)|(_ & [])]; [by apply books_same| |done]. by apply (frame_books (w_db w)).
Qed.

(** ** Stages

    A stage either succeeds without touching the books, or fails having logged
    at most one failure of the request. *)

Definition failures (req : uuid) (logs : list RequestLog) : Prop :=
  logs = [] ∨ ∃ l, logs = [l] ∧ l.(RequestLog_ID) = req ∧ Metering.validFailureStatus l.(RequestLog_Status) = true.

Definition failed (req : uuid) (d d' : DB) : Prop := ∃ logs, failures req logs ∧ grew logs [] [] d d'.

(** [Q] is what a success does to the books. *)
Definition stage (req : uuid) {A} (m : M A) (Q : A → DB → DB → Prop) : Prop :=
  ∀ w, match m w with
       | (Ok a, w') => Q a (w_db w) (w_db w')
       | (Err _, w') => failed req (w_db w) (w_db w')
       end.
Definition unchanged {A} (a : A) : DB → DB → Prop := books.

Lemma failed_books req d d' : books d d' → failed req d d'.
Proof. intros H. exists []. split; [by left|done]. Qed.

Lemma failed_l req d1 d2 d3 : books d1 d2 → failed req d2 d3 → failed req d1 d3.
Proof. intros H (logs & Hl & Hg). exists logs. split; [done|]. by eapply grew_books_l. Qed.

Lemma failed_r req d1 d2 d3 : failed req d1 d2 → books d2 d3 → failed req d1 d3.
Proof. intros (logs & Hl & Hg) H. exists logs. split; [done|]. by eapply grew_books_r. Qed.

Lemma stage_bind {A B} req (m : M A) (f : A → M B) Q :
  stage req m unchanged → (∀ a, stage req (f a) Q) → (∀ b d1 d2 d3, books d1 d2 → Q b d2 d3 → Q b d1 d3) →
  stage req (m ≫= f) Q.
Proof.
  intros Hm Hf HQ w. specialize (Hm w). unfold mbind, M_bind. destruct (m w) as [[a|e] w1]; [|done].
  specialize (Hf a w1). destruct (f a w1) as [[b|e] w2]; [by eapply HQ|by eapply failed_l].
Qed.

Lemma stage_seq {A B} req (m : M A) (f : A → M B) :
  stage req m unchanged → (∀ a, stage req (f a) unchanged) → stage req (m ≫= f) unchanged.
Proof. intros Hm Hf. apply stage_bind; [done..|]. intros b d1 d2 d3. by apply grew_books_l. Qed.

Lemma stage_keeps {A} req (m : M A) : keeps books m → stage req m unchanged.
Proof.
  intros Hm w. destruct (Hm w) as [H _]. destruct (m w) as [[a|e] w']; [done|by apply failed_books].
Qed.

(** A method that fails at once, or logs a failure and fails. *)
Lemma stage_fails {A} req (m : M A) Q :
  (∀ w, failed req (w_db w) (w_db (m w).2) ∧ is_ok (m w).1 = false) → stage req m Q.
Proof. intros H w. destruct (H w) as [Hf Hn]. by destruct (m w) as [[a|e] w']. Qed.

Lemma RecordFailure_failed ms input w :
  failed input.(Metering.rf_RequestID) (w_db w) (w_db (Metering.RecordFailure ms input w).2).
Proof.
  pose proof (Metering.RecordFailure_no_trace ms input w) as Hn.
  destruct (Metering.RecordFailure ms input w) as [[log|e] w'] eqn:E; simpl in *.
  - apply Metering.RecordFailure_rows in E as (-> & Hid & _ & Hst). exists [log]. split; [right; by exists log|].
    intros Hok. simpl. rewrite !app_nil_r. split; [|done]. by apply (ledger_ok_tables (w_db w)).
  - rewrite (Hn e eq_refl). by apply failed_books.
Qed.

Section books.
Context {SU : Surroundings} {RT : Runtime} {AE : AEAD} {NE : Net} {TR : Transport} {WH : Webhooks} {DG : Digests}.
Context {CJ : Caches.CacheJSON} {RD : Redis} {UJ : Adapters.UpstreamJSON}.
Context (s : ChatService).

Lemma recordFailure_failed input model status code ecode rhash target metadata t w :
  failed input.(in_RequestID) (w_db w) (w_db (recordFailure s input model status code ecode rhash target metadata t w).2).
Proof.
  unfold recordFailure, mbind, M_bind, clock.
  match goal with |- context [Metering.RecordFailure ?ms ?ri ?w1] => exact (RecordFailure_failed ms ri w1) end.
Qed.

Lemma metric_run name labels n w : ∃ w', metric s name labels n w = (Ok tt, w') ∧ w_db w' = w_db w.
Proof. unfold metric, emit. destruct (hasMetrics s); by eexists. Qed.

Lemma stage_reject {A} input model status code ecode metadata t counted label msg Q :
  keeps books counted →
  stage input.(in_RequestID) (reject (A := A) s input model status code ecode metadata t counted label msg) Q.
Proof.
  intros Hc. apply stage_fails. intros w. unfold reject, mbind, M_bind, try, clock, observeGatewayRequest, fail.
  pose proof (recordFailure_failed input model status code ecode "" None metadata t w) as Hf.
  destruct (recordFailure _ _ _ _ _ _ _ _ _ _ w) as [r w1]. destruct (Hc w1) as [Hb _].
  destruct (counted w1) as [[u|e] w2]; simpl in *; [|split; [by eapply failed_r|done]].
  edestruct metric_run as (w3 & -> & Hd). simpl. rewrite Hd. split; [by eapply failed_r|done].
Qed.

Lemma stage_rejectBudget {A} input model check content t Q :
  stage input.(in_RequestID) (rejectBudget (A := A) s input model check content t) Q.
Proof. apply stage_reject. use keeps_metric. Qed.

Lemma stage_rejectQuota {A} input model check content t Q :
  stage input.(in_RequestID) (rejectQuota (A := A) s input model check content t) Q.
Proof. apply stage_reject, keeps_ret, _. Qed.

Ltac stage_step :=
  lazymatch goal with
  | |- forall _, _ => intros
  | |- stage _ (rejectBudget _ _ _ _ _ _) _ => apply stage_rejectBudget
  | |- stage _ (rejectQuota _ _ _ _ _ _) _ => apply stage_rejectQuota
  | |- stage _ (reject _ _ _ _ _ _ _ _ _ _ _) _ => apply stage_reject, keeps_ret, _
  | |- stage _ (if ?b then _ else _) _ => destruct b
  | |- stage _ (_ ≫= _) unchanged => apply stage_seq
  | |- stage _ _ unchanged => apply stage_keeps; solve [keeps]
  end.

Lemma stage_admission input request t skipped metadata :
  (∀ r, keeps books (skipped r)) → stage input.(in_RequestID) (admission s input request t skipped metadata) unchanged.
Proof.
  intros Hs. unfold admission, admitContent, admitBudget, admitQuota, admitAnomaly. repeat stage_step.
Qed.

Lemma stage_orRouteNotFound {A} input ad (m : M A) :
  keeps books m → stage input.(in_RequestID) (orRouteNotFound s input ad m) unchanged.
Proof.
  intros Hm. unfold orRouteNotFound. apply stage_seq; [apply stage_keeps; keeps|]. intros [a|e]; repeat stage_step.
Qed.

Lemma stage_reserve input ad models : stage input.(in_RequestID) (reserveProviderCost s input ad models) unchanged.
Proof.
  unfold reserveProviderCost. apply stage_seq; [apply stage_keeps; keeps|intros cost]. stage_step; [repeat stage_step|].
  apply stage_seq; [|repeat stage_step]. intros w. pose proof (books_Reserve (mkReserveInput (in_RequestID input)
    (OrgID (in_Principal input)) (APIKeyID (in_Principal input)) cost) w) as H.
  destruct (Reserve _ w) as [[r|e] w']; [done|by apply failed_books].
Qed.

Lemma stage_withRelease {A} active req (m : M A) Q : stage req m Q → stage req (withRelease active req m) Q.
Proof.
  intros Hm w. specialize (Hm w). unfold withRelease, try, mbind, M_bind.
  destruct (m w) as [[a|e] w1]; [done|]. destruct active; [|done].
  pose proof (books_Release req w1) as Hr. destruct (Release req w1) as [r w2]. simpl in *. by eapply failed_r.
Qed.
End books.

(** ** Success *)

(** [out] reports the rows written for it: what was charged, or a cache hit. *)
Definition reported (req : uuid) (out : ChatCompletionResponse) (d d' : DB) : Prop :=
  ∃ log us cs, log.(RequestLog_ID) = req ∧ grew [log] us cs d d' ∧
    ((∃ u c, us = [u] ∧ cs = [c] ∧ u.(UsageRecord_RequestLogID) = req ∧
        c.(CostRecord_UsageRecordID) = u.(UsageRecord_ID) ∧
        out.(out_PromptTokens) = u.(UsageRecord_PromptTokens) ∧
        out.(out_CompletionTokens) = u.(UsageRecord_CompletionTokens) ∧
        out.(out_TotalTokens) = u.(UsageRecord_TotalTokens) ∧
        out.(out_TotalCostMicro) = c.(CostRecord_TotalCostMicro)) ∨
     (us = [] ∧ cs = [] ∧ out.(out_PromptTokens) = 0 ∧ out.(out_CompletionTokens) = 0 ∧
        out.(out_TotalTokens) = 0 ∧ out.(out_TotalCostMicro) = 0)).

Definition charged_rows (req : uuid) (r : Metering.RecordSuccessResult) (d d' : DB) : Prop :=
  r.(Metering.res_RequestLog).(RequestLog_ID) = req ∧ r.(Metering.res_UsageRecord).(UsageRecord_RequestLogID) = req ∧
  r.(Metering.res_CostRecord).(CostRecord_UsageRecordID) = r.(Metering.res_UsageRecord).(UsageRecord_ID) ∧
  grew [r.(Metering.res_RequestLog)] [r.(Metering.res_UsageRecord)] [r.(Metering.res_CostRecord)] d d'.

Lemma charged_rows_l req r d1 d2 d3 : books d1 d2 → charged_rows req r d2 d3 → charged_rows req r d1 d3.
Proof. intros H (? & ? & ? & Hg). do 3 (split; [done|]). by eapply grew_books_l. Qed.

Lemma reported_l req out d1 d2 d3 : books d1 d2 → reported req out d2 d3 → reported req out d1 d3.
Proof. intros H (log & us & cs & Hid & Hg & Ho). exists log, us, cs. split; [done|]. split; [by eapply grew_books_l|done]. Qed.

(** Methods that return no error, and what they return; whether they may panic. *)
Definition ends (panics : Prop) {A} (m : M A) (P : A → Prop) : Prop :=
  ∀ w, (∃ a w', m w = (Ok a, w') ∧ P a) ∨ (panics ∧ ∃ w', m w = (Err EPanic, w')).
Definition always {A} (_ : A) : Prop := True.

Lemma ends_mono {A} p (m : M A) P : ends False m P → ends p m P.
Proof. intros H w. destruct (H w) as [?|[[] _]]. by left. Qed.
Lemma ends_bind {A B} p (m : M A) (f : A → M B) P : ends p m always → (∀ a, ends p (f a) P) → ends p (m ≫= f) P.
Proof.
  intros Hm Hf w. unfold mbind, M_bind. destruct (Hm w) as [(a & w1 & -> & _)|(Hp & w1 & ->)]; [apply Hf|eauto].
Qed.
Lemma ends_ret {A} p (a : A) (P : A → Prop) : P a → ends p (mret (M := M) a) P.
Proof. intros H w. left. by exists a, w. Qed.
Lemma ends_try {A} p (m : M A) : ends p (try m) always.
Proof. intros w. left. unfold try. destruct (m w). by eexists _, _. Qed.
Lemma ends_catch {A} (m : M A) : ends True (catch m) always.
Proof. intros w. unfold catch. destruct (m w) as [[a|[]] w1]; try (left; by eexists _, _). right. split; [done|by eexists]. Qed.
Lemma ends_step {A} p (m : M A) (g : world → A) (h : world → world) : (∀ w, m w = (Ok (g w), h w)) → ends p m always.
Proof. intros H w. left. by exists (g w), (h w). Qed.

Ltac ends_tac :=
  repeat match goal with
  | |- forall _, _ => intros
  | |- ends _ (_ ≫= _) _ => apply ends_bind
  | |- ends _ (mret _) _ => apply ends_ret
  | |- ends _ (try _) _ => apply ends_try
  | |- ends True (catch _) _ => apply ends_catch
  | |- ends _ clock _ => by eapply ends_step
  | |- ends _ new_uuid _ => by eapply ends_step
  | |- ends _ (emit _) _ => by eapply ends_step
  | |- ends _ (match ?x with _ => _ end) _ => destruct x
  | |- always _ => exact I
  end.

(** A request is served: it answers with what was recorded, or fails like a
    stage, or panics once it was charged. *)
Definition served (req : uuid) (m : M ChatCompletionResponse) : Prop :=
  ∀ w, match m w with
       | (Ok out, w') => reported req out (w_db w) (w_db w')
       | (Err e, w') => failed req (w_db w) (w_db w') ∨
           (e = EPanic ∧ ∃ r, charged_rows req r (w_db w) (w_db w'))
       end.

Lemma served_bind {A} req (m : M A) (f : A → M ChatCompletionResponse) :
  stage req m unchanged → (∀ a, served req (f a)) → served req (m ≫= f).
Proof.
  intros Hm Hf w. specialize (Hm w). unfold mbind, M_bind. destruct (m w) as [[a|e] w1]; [|by left].
  specialize (Hf a w1). destruct (f a w1) as [[out|e] w2]; [by eapply reported_l|].
  destruct Hf as [Hf|(He & r & Hr)]; [left; by eapply failed_l|]. right. split; [done|]. exists r. by eapply charged_rows_l.
Qed.

Lemma served_stage req m : stage req m (reported req) → served req m.
Proof. intros Hm w. specialize (Hm w). destruct (m w) as [[out|e] w']; [done|by left]. Qed.

Section success.
Context {SU : Surroundings} {RT : Runtime} {AE : AEAD} {NE : Net} {TR : Transport} {WH : Webhooks} {DG : Digests}.
Context {CJ : Caches.CacheJSON} {RD : Redis} {UJ : Adapters.UpstreamJSON}.
Context (s : ChatService).

Lemma ends_event p org log event model key reason : ends p (recordCacheEvent org log event model key reason) always.
Proof. unfold recordCacheEvent, insertCacheEvent. ends_tac. Qed.

Lemma ends_semantic_event p org log event model a b reason :
  ends p (recordSemanticCacheEvent org log event model a b reason) always.
Proof. unfold recordSemanticCacheEvent, insertCacheEvent. ends_tac. Qed.

Lemma ends_metric p name labels n : ends p (metric s name labels n) always.
Proof. unfold metric. ends_tac. Qed.

Lemma ends_respond input ad key candidate metered selected response :
  ends True (respond s input ad key candidate metered selected response) (λ out,
    out.(out_PromptTokens) = metered.(Metering.res_UsageRecord).(UsageRecord_PromptTokens) ∧
    out.(out_CompletionTokens) = metered.(Metering.res_UsageRecord).(UsageRecord_CompletionTokens) ∧
    out.(out_TotalTokens) = metered.(Metering.res_UsageRecord).(UsageRecord_TotalTokens) ∧
    out.(out_TotalCostMicro) = metered.(Metering.res_CostRecord).(CostRecord_TotalCostMicro)).
Proof.
  unfold respond, storeInCaches, observeGatewayRequest. ends_tac; try done.
  all: first [apply ends_metric | apply ends_event | apply ends_semantic_event].
Qed.

Lemma stage_RecordSuccess ms ri :
  stage ri.(Metering.rs_RequestID) (Metering.RecordSuccess ms ri) (charged_rows ri.(Metering.rs_RequestID)).
Proof.
  intros w. pose proof (Metering.RecordSuccess_no_trace ms ri w) as Hn.
  destruct (Metering.RecordSuccess ms ri w) as [[res|e] w'] eqn:E; simpl in *.
  - pose proof (Metering.RecordSuccess_rows _ _ _ _ _ E) as [[(Hl & _) (Hu & _) _ (Hc & _) _ _] _].
    do 3 (split; [done|]). intros Hok. apply Metering.RecordSuccess_closes in E as (Hok' & _ & Hfr); [|done].
    revert Hok. eapply frame_grew; [|exact Hfr|done]. intros Hok. by split; [apply (ledger_ok_tables (w_db w))|].
  - rewrite (Hn e eq_refl). by apply failed_books.
Qed.

Lemma stage_callProviders input ad resolved :
  stage input.(in_RequestID) (callProviders s input ad resolved) (λ r, charged_rows input.(in_RequestID) r.1.1).
Proof.
  pose proof (keeps_metric books). unfold callProviders, observeProviderRequest. cbv zeta.
  assert (Hfail : ∀ fb c st Q, stage (in_RequestID input) (providersFailed s input ad fb c st) Q).
  { intros. apply stage_fails. intros w. unfold providersFailed, mbind, M_bind, try, clock, observeGatewayRequest, fail.
    match goal with |- context [recordFailure _ _ ?a ?b ?c ?d ?e ?f ?g ?h w] =>
      pose proof (recordFailure_failed s input a b c d e f g h w) as Hf; destruct (recordFailure s input a b c d e f g h w) as [r w1]
    end.
    edestruct (metric_run s) as (w3 & -> & Hd). simpl in *. by rewrite Hd. }
  assert (Hl : ∀ b d1 d2 d3, books d1 d2 → charged_rows (in_RequestID input) b.1.1 d2 d3 →
    charged_rows (in_RequestID input) (b : Metering.RecordSuccessResult * Routing.ResolvedTarget * ChatResponse).1.1 d1 d3).
  { intros b. apply charged_rows_l. }
  apply stage_bind; [apply stage_keeps; use keeps_tryTargets|intros st|done].
  destruct (ls_providerResponse st); [|apply Hfail]. destruct (ls_selected st); [|apply Hfail].
  do 4 (apply stage_bind; [apply stage_keeps; keeps|intros|done]).
  match goal with |- stage _ (Metering.RecordSuccess ?ms ?ri ≫= _) _ => pose proof (stage_RecordSuccess ms ri) as Hrec end.
  intros w. specialize (Hrec w). unfold mbind, M_bind. by destruct (Metering.RecordSuccess _ _ w) as [[res|e] w'].
Qed.

Lemma served_serve input ad resolved key candidate : served input.(in_RequestID) (serve s input ad resolved key candidate).
Proof.
  unfold serve. apply served_bind; [apply stage_reserve|intros active].
  pose proof (stage_withRelease active _ _ _ (stage_callProviders input ad resolved)) as Hc.
  intros w. specialize (Hc w). unfold mbind, M_bind.
  destruct (withRelease _ _ _ w) as [[[[metered selected] response]|e] w1]; [|by left].
  destruct Hc as (Hid & Hu & Hcu & Hg). simpl in *.
  pose proof (keeps_respond books s input ad key candidate metered selected response w1) as [Hb _].
  destruct (ends_respond input ad key candidate metered selected response w1) as [(out & w2 & E & Ho)|(_ & w2 & E)];
    rewrite E in *; simpl in Hb.
  - exists (Metering.res_RequestLog metered), [Metering.res_UsageRecord metered], [Metering.res_CostRecord metered].
    split; [done|]. split; [by eapply grew_books_r|]. left. eexists _, _. repeat split; naive_solver.
  - right. split; [done|]. exists metered. do 3 (split; [done|]). by eapply grew_books_r.
Qed.

Lemma stage_respondFromCache input ad resolved cached metadata event :
  (∀ id, keeps books (event id)) → (∀ id, ends False (event id) always) →
  stage input.(in_RequestID) (respondFromCache s input ad resolved cached metadata event) (reported input.(in_RequestID)).
Proof.
  intros He Ht. unfold respondFromCache. destruct (Routing.rr_Targets resolved) as [|target rest].
  { apply stage_fails. intros w. split; [by apply failed_books|done]. }
  do 2 (apply stage_bind; [apply stage_keeps; keeps|intros|apply reported_l]).
  set (ci := Metering.mkRecordCacheHitInput _ _ _ _ _ _ _ _ _ _ _ _ _ _ _ _ _ _). intros w.
  pose proof (Metering.RecordCacheHit_no_trace (metering s) ci w) as Hn. unfold mbind at 1, M_bind at 1.
  destruct (Metering.RecordCacheHit (metering s) ci w) as [[log|e] w1] eqn:E; simpl in Hn;
    [|rewrite (Hn e eq_refl); by apply failed_books].
  apply Metering.RecordCacheHit_rows in E as (Hdb & Hid & _).
  set (rest' := event _ ≫= _).
  assert (Hrest : keeps books rest').
  { pose proof (keeps_metric books). unfold rest', observeGatewayRequest. keeps. }
  assert (Htot : ends False rest' (λ out, out.(out_PromptTokens) = 0 ∧ out.(out_CompletionTokens) = 0 ∧
    out.(out_TotalTokens) = 0 ∧ out.(out_TotalCostMicro) = 0)).
  { unfold rest', observeGatewayRequest. ends_tac; try apply ends_metric; try apply Ht; done. }
  destruct (Htot w1) as [(out & w2 & E2 & Ho)|[[] _]]. destruct (Hrest w1) as [Hb _]. rewrite E2 in *. simpl in Hb.
  exists log, [], []. split; [done|]. split; [|right; naive_solver].
  eapply grew_books_r; [|exact Hb]. rewrite Hdb. intros Hok. simpl. rewrite !app_nil_r.
  split; [by apply (ledger_ok_tables (w_db w))|done].
Qed.

Lemma served_Chat input : served input.(in_RequestID) (Chat s input).
Proof.
  unfold Chat. apply served_bind; [apply stage_keeps, keeps_clock, _|intros t].
  destruct (unmarshalRequest _) as [request|e];
    [|apply served_stage, stage_fails; intros w; split; [by apply failed_books|done]].
  destruct (req_Stream request); [apply served_stage, stage_reject, keeps_ret, _|].
  destruct (emptyRequest request); [apply served_stage, stage_reject, keeps_ret, _|].
  apply served_bind; [apply stage_admission; intros; apply keeps_ret, _|intros ad].
  apply served_bind; [apply stage_orRouteNotFound; use keeps_ResolveTargets|intros resolved].
  cbv zeta. set (key := promptCacheKey _ _ _).
  pose proof (λ c, keeps_lookups books s input (ad_request ad) key c) as Hl.
  apply served_bind; [apply stage_keeps, Hl, noCandidate|intros cached].
  assert (Hrest : served (in_RequestID input)
    (candidate ← semanticCacheCandidate s input (ad_request ad) key;
     found ← lookupSemanticCache s input (ad_request ad) candidate;
     match found with
     | Some m => respondFromSemanticCache s input ad resolved m
     | None => serve s input ad resolved key candidate
     end)).
  { apply served_bind; [apply stage_keeps, Hl, noCandidate|intros candidate].
    apply served_bind; [apply stage_keeps, Hl|intros [m|]]; [|apply served_serve].
    apply served_stage, stage_respondFromCache; intros; [use keeps_recordSemanticCacheEvent|].
    apply ends_semantic_event. }
  destruct cached, key; try done.
  apply served_stage, stage_respondFromCache; intros; [use keeps_recordCacheEvent|]. apply ends_event.
Qed.

(** C12: the client and the books agree. When [Chat] answers, exactly one line
    is added to the request log, and either one usage and one cost record with
    it, whose tokens and cost are those reported to the client, or, for an
    answer from a cache, none, and the client is told zero. When it returns an
    error, nothing is charged and at most one line, a failure of this request,
    is logged; whatever calls fail. Only a panic (of the cipher on a malformed
    stored secret) can leave a request charged and unanswered, and then its
    three rows are complete. *)
Theorem Chat_accounting (input : ChatInput) (r : result ChatCompletionResponse) (w w' : world) :
  ledger_ok (w_db w) → Chat s input w = (r, w') →
  match r with
  | Err e =>
      (∃ logs, failures input.(in_RequestID) logs ∧
        (w_db w').(request_logs) = (w_db w).(request_logs) ++ logs ∧
        (w_db w').(usage_records) = (w_db w).(usage_records) ∧ (w_db w').(cost_records) = (w_db w).(cost_records)) ∨
      (e = EPanic ∧ ∃ log u c, log.(RequestLog_ID) = input.(in_RequestID) ∧
        u.(UsageRecord_RequestLogID) = input.(in_RequestID) ∧ c.(CostRecord_UsageRecordID) = u.(UsageRecord_ID) ∧
        (w_db w').(request_logs) = (w_db w).(request_logs) ++ [log] ∧
        (w_db w').(usage_records) = (w_db w).(usage_records) ++ [u] ∧
        (w_db w').(cost_records) = (w_db w).(cost_records) ++ [c])
  | Ok out => ∃ log us cs, log.(RequestLog_ID) = input.(in_RequestID) ∧
      (w_db w').(request_logs) = (w_db w).(request_logs) ++ [log] ∧
      (w_db w').(usage_records) = (w_db w).(usage_records) ++ us ∧
      (w_db w').(cost_records) = (w_db w).(cost_records) ++ cs ∧
      ((∃ u c, us = [u] ∧ cs = [c] ∧ u.(UsageRecord_RequestLogID) = input.(in_RequestID) ∧
          c.(CostRecord_UsageRecordID) = u.(UsageRecord_ID) ∧
          out.(out_PromptTokens) = u.(UsageRecord_PromptTokens) ∧
          out.(out_CompletionTokens) = u.(UsageRecord_CompletionTokens) ∧
          out.(out_TotalTokens) = u.(UsageRecord_TotalTokens) ∧
          out.(out_TotalCostMicro) = c.(CostRecord_TotalCostMicro)) ∨
       (us = [] ∧ cs = [] ∧ out.(out_PromptTokens) = 0 ∧ out.(out_CompletionTokens) = 0 ∧
          out.(out_TotalTokens) = 0 ∧ out.(out_TotalCostMicro) = 0))
  end ∧ ledger_ok (w_db w').
Proof.
  intros Hok E. pose proof (served_Chat input w) as H. rewrite E in H. destruct r as [out|e].
  - destruct H as (log & us & cs & Hid & Hg & Ho). destruct (Hg Hok) as (Hok' & H1 & H2 & H3).
    split; [|done]. by exists log, us, cs.
  - destruct H as [(logs & Hl & Hg)|(-> & res & Hid & Hu & Hc & Hg)]; destruct (Hg Hok) as (Hok' & H1 & H2 & H3);
      (split; [|done]); [left|right].
    + rewrite !app_nil_r in *. by exists logs.
    + split; [done|]. by eexists _, _, _.
Qed.
End success.

End GatewayBooks.
