(* ===== verification/ChatRoute.v ===== *)
(** * The chat route, end to end

    What a request to the chat completions route can spend and hold, whoever
    sends it and however its client behaves. *)

From S2P Require Import Prelude GoTime GoStrings Encodings Costing Store ExampleWorld QuotaService Tokens ApiKeys.
From S2P Require Import Secrets Outbound HttpClient Limits LimitsLedger LimitsReserve LimitsSpec Pricing Metering BudgetAlerts.
From S2P Require Import Redis Rbac RateLimit GatewayBase Providers Caches Adapters Gateway.
From S2P Require Import HttpServer ChatHandler GatewayFrame GatewayReservations GatewayBooks.
#[local] Open Scope Z_scope.

Module ChatRoute.
Import GatewayBase Gateway GatewayFrame GatewayReservations GatewayBooks Http ChatHandler.

(** ** A request touches no reservation but its own *)

Definition others (req : uuid) (d d' : DB) : Prop := ∀ id, id ≠ req → held_by id d' = held_by id d.

#[export] Instance others_preorder req : PreOrder (others req).
Proof. split; [done|]. intros d1 d2 d3 H1 H2 id Hid. by rewrite H2, H1. Qed.

Lemma others_same req d d' : d'.(cost_reservations) = d.(cost_reservations) → others req d d'.
Proof. intros H id _. unfold held_by. by rewrite H. Qed.

#[export] Instance others_calm req : Calm (others req).
Proof.
  split; [apply _|..]; intros ? ? ? ? H; apply Metering.insert_ok in H as (_ & -> & _); by apply others_same.
Qed.
#[export] Instance others_logs req : Logs (others req).
Proof. split. intros ? ? ? ? H. apply Metering.insert_ok in H as (_ & -> & _). by apply others_same. Qed.

(** The ledger's calls for [req] write the ledger only, and no other reservation. *)
Definition mine (req : uuid) (d d' : DB) : Prop := limits_frame d d' ∧ others req d d'.

#[export] Instance mine_preorder req : PreOrder (mine req).
Proof.
  split; [intros d; by split; [unfold limits_frame; destruct d|]|].
  intros d1 d2 d3 [H1 H2] [H3 H4]. split; [by eapply limits_frame_trans|by etrans].
Qed.

Lemma mine_counters req cs d : mine req d (set_cost_limit_counters cs d).
Proof. by destruct d. Qed.

Lemma mine_insert req row : row.(CostReservation_RequestID) = req → keeps (mine req) (stmt (insert_reservation row)).
Proof.
  intros <-. apply keeps_stmt; [apply _|]. intros d [] d' H. apply insert_reservation_ok in H as [_ ->].
  split; [by destruct d|]. intros id Hid. unfold held_by. simpl. rewrite List.filter_app. simpl.
  unfold reserved_row at 2. rewrite (proj2 (N.eqb_neq _ _)) by congruence. apply app_nil_r.
Qed.

Lemma mine_update req f :
  (∀ r, CostReservation_RequestID (f r) = CostReservation_RequestID r) →
  keeps (mine req) (stmt (update_reservations req f)).
Proof.
  intros Hf. apply keeps_stmt; [apply _|]. intros d a d' H. apply result_bind_ok in H as (rs & Hrs & [= _ <-]).
  split; [by destruct d|]. intros id Hid. unfold held_by. simpl. revert rs Hrs.
  induction (cost_reservations d) as [|r l IH]; intros rs Hrs; simpl in Hrs; [by injection Hrs as <-|].
  apply result_bind_ok in Hrs as (r' & Hr & Hrs). apply result_bind_ok in Hrs as (l' & Hl & [= <-]).
  simpl. rewrite (IH l' Hl). destruct (reserved_row req r) eqn:E; injection Hr as <-; [|done].
  unfold reserved_row in E. apply andb_true_iff in E as [E%N.eqb_eq _].
  assert (∀ x, CostReservation_RequestID x = req → reserved_row id x = false) as Hno.
  { intros x Hx. unfold reserved_row. by rewrite Hx, (proj2 (N.eqb_neq _ _)). }
  rewrite !Hno; [done|done|by rewrite Hf].
Qed.

Lemma mine_insert_counter req id (amount : DB → result Z) (c : uuid → Z → CostLimitCounter) :
  keeps (mine req) (stmt (λ d, settled ← amount d; insert_counter_if_absent (c id settled) d)).
Proof.
  apply keeps_stmt; [apply _|]. intros d [] d' H. apply result_bind_ok in H as (v & _ & H).
  apply result_bind_ok in H as ([] & _ & H). destruct (existsb _ _); [by injection H as <-|].
  apply result_bind_ok in H as (_ & _ & [= <-]). apply mine_counters.
Qed.

Lemma mine_add_reserved req id amount now : keeps (mine req) (stmt (add_reserved id amount now)).
Proof.
  apply keeps_stmt; [apply _|]. intros d [] d' H. apply result_bind_ok in H as (cs & _ & [= <-]). apply mine_counters.
Qed.

Lemma mine_update_counter req k f : keeps (mine req) (stmt (update_counter k f)).
Proof.
  apply keeps_stmt; [apply _|]. intros d [] d' H. apply result_bind_ok in H as (cs & _ & [= <-]). apply mine_counters.
Qed.

Lemma mine_Reserve ri : keeps (mine ri.(ri_RequestID)) (Reserve ri).
Proof.
  assert (Hloop : ∀ now items, keeps (mine ri.(ri_RequestID)) (reserveConstraints ri now items)).
  { intros now. induction items as [|item items IH]; simpl; unfold reserveConstraint, ensureAndLockCounter;
      keeps; first [apply (mine_insert_counter _ _ (λ d, pg_bigint _) (λ id v, mkCostLimitCounter id _ _ _ _ _ _ v _ _ _))
                   |apply mine_add_reserved|by apply mine_insert]. }
  unfold Reserve, loadBlockingConstraints. keeps.
Qed.

Lemma mine_Release req : keeps (mine req) (Release req).
Proof. pose proof mine_update_counter. unfold Release, ReleaseTx, ExecTxRaw. keeps; by apply mine_update. Qed.

Lemma mine_SettleTx req cost now : keeps (mine req) (SettleTx req cost now).
Proof. pose proof mine_update_counter. unfold SettleTx. keeps; by apply mine_update. Qed.

(** Recording a success: the three rows, then the settlement. *)
Lemma RecordSuccess_writes ms ri w :
  w_db (Metering.RecordSuccess ms ri w).2 = w_db w ∨
  ∃ res, Metering.success_rows ri (w_db w) res ∧
    mine ri.(Metering.rs_RequestID) (Metering.add_records res (w_db w)) (w_db (Metering.RecordSuccess ms ri w).2).
Proof.
  pose proof (Metering.RecordSuccess_no_trace ms ri w) as Hn.
  destruct (Metering.RecordSuccess ms ri w) as [[res|e] w'] eqn:E; simpl in *; [right|left; by apply (Hn e)].
  apply Metering.RecordSuccess_rows in E as (Hr & w1 & w2 & now & Hd & -> & Hs). exists res. split; [done|]. rewrite <- Hd.
  destruct (mine_SettleTx ri.(Metering.rs_RequestID) res.(Metering.res_CostRecord).(CostRecord_TotalCostMicro) now w1) as [H _].
  by rewrite Hs in H.
Qed.

Lemma RecordSuccess_keeps (P : DB → DB → Prop) `{!PreOrder P} ms ri :
  (∀ d res, Metering.success_rows ri d res → P d (Metering.add_records res d)) →
  (∀ d d', mine ri.(Metering.rs_RequestID) d d' → P d d') → keeps P (Metering.RecordSuccess ms ri).
Proof.
  intros Hadd Hmine w. split; [|apply (keeps_any_RecordSuccess ms ri w)].
  destruct (RecordSuccess_writes ms ri w) as [-> |(res & Hr & Hm)]; [done|]. etrans; [by apply Hadd|by apply Hmine].
Qed.

Section others.
Context {SU : Surroundings} {RT : Runtime} {AE : AEAD} {NE : Net} {TR : Transport} {WH : Webhooks} {DG : Digests}.
Context {CJ : Caches.CacheJSON} {RD : Redis} {UJ : Adapters.UpstreamJSON}.
Context (s : ChatService).

Lemma others_premises me :
  (∀ ri, ri.(ri_RequestID) = me.(in_RequestID) → keeps (others me.(in_RequestID)) (Reserve ri)) ∧
  keeps (others me.(in_RequestID)) (Release me.(in_RequestID)) ∧
  (∀ ms ri, my_success me ri → keeps (others me.(in_RequestID)) (Metering.RecordSuccess ms ri)).
Proof.
  split_and!.
  - intros ri <-. eapply keeps_mono, mine_Reserve. by intros ? ? [].
  - eapply keeps_mono, mine_Release. by intros ? ? [].
  - intros ms ri (<- & _). apply RecordSuccess_keeps; [apply _|by intros; apply others_same|by intros ? ? []].
Qed.

Lemma others_Chat me : keeps (others me.(in_RequestID)) (Chat s me).
Proof. destruct (others_premises me) as (? & ? & ?). by apply (keeps_Chat (others me.(in_RequestID))). Qed.
Lemma others_StreamChat me : keeps (others me.(in_RequestID)) (StreamChat s me).
Proof. destruct (others_premises me) as (? & ? & ?). by apply (keeps_StreamChat (others me.(in_RequestID))). Qed.
Lemma others_FinalizeStream r usage e : keeps (others r.(sr_input).(in_RequestID)) (FinalizeStream s r usage e).
Proof. destruct (others_premises r.(sr_input)) as (? & ? & ?). by apply (keeps_FinalizeStream (others _) s r.(sr_input)). Qed.
End others.

(** ** A request charges its own tenant only *)

(** What is added to the books is charged to the key [p]. *)
Definition charges (p : APIKeyPrincipal) (d d' : DB) : Prop :=
  ∃ us cs, d'.(usage_records) = d.(usage_records) ++ us ∧ d'.(cost_records) = d.(cost_records) ++ cs ∧
    Forall (λ u, u.(UsageRecord_OrgID) = p.(OrgID) ∧ u.(UsageRecord_ApiKeyID) = p.(APIKeyID)) us ∧
    Forall (λ c, c.(CostRecord_OrgID) = p.(OrgID) ∧ c.(CostRecord_UsageRecordID) ∈ map UsageRecord_ID us) cs.

Lemma charges_same p d d' :
  d'.(usage_records) = d.(usage_records) → d'.(cost_records) = d.(cost_records) → charges p d d'.
Proof. intros Hu Hc. exists [], []. by rewrite Hu, Hc, !app_nil_r. Qed.

#[export] Instance charges_preorder p : PreOrder (charges p).
Proof.
  split; [by intros d; apply charges_same|]. intros d1 d2 d3 (u1 & c1 & Hu1 & Hc1 & F1 & G1) (u2 & c2 & Hu2 & Hc2 & F2 & G2).
  exists (u1 ++ u2), (c1 ++ c2). rewrite Hu2, Hc2, Hu1, Hc1, !app_assoc. split_and!; [done|done|by apply Forall_app|].
  apply Forall_app. split; (eapply List.Forall_impl; [|done]); intros c [Ho Hin]; (split; [done|]);
    rewrite map_app; apply elem_of_app; auto.
Qed.
#[export] Instance charges_calm p : Calm (charges p).
Proof. split; [apply _|..]; intros ? ? ? ? H; apply Metering.insert_ok in H as (_ & -> & _); by apply charges_same. Qed.
#[export] Instance charges_logs p : Logs (charges p).
Proof. split. intros ? ? ? ? H. apply Metering.insert_ok in H as (_ & -> & _). by apply charges_same. Qed.

Lemma charges_frame p d d' : limits_frame d d' → charges p d d'.
Proof. unfold limits_frame. destruct d, d'. simpl. intros H. simplify_eq/=. by apply charges_same. Qed.


Section charges.
Context {SU : Surroundings} {RT : Runtime} {AE : AEAD} {NE : Net} {TR : Transport} {WH : Webhooks} {DG : Digests}.
Context {CJ : Caches.CacheJSON} {RD : Redis} {UJ : Adapters.UpstreamJSON}.
Context (s : ChatService).

Lemma charges_premises me :
  (∀ ri, ri.(ri_RequestID) = me.(in_RequestID) → keeps (charges me.(in_Principal)) (Reserve ri)) ∧
  keeps (charges me.(in_Principal)) (Release me.(in_RequestID)) ∧
  (∀ ms ri, my_success me ri → keeps (charges me.(in_Principal)) (Metering.RecordSuccess ms ri)).
Proof.
  split_and!.
  - intros ri _. eapply keeps_mono, mine_Reserve. intros ? ? []. by apply charges_frame.
  - eapply keeps_mono, mine_Release. intros ? ? []. by apply charges_frame.
  - intros ms ri (_ & Ho & Hk). apply RecordSuccess_keeps; [apply _| |by intros ? ? [? _]; apply charges_frame].
    intros d res [_ (_ & Hu1 & Hu2 & _) _ (Hc1 & Hc2 & _) _ _].
    exists [res.(Metering.res_UsageRecord)], [res.(Metering.res_CostRecord)]. split_and!; [done|done|..].
    + constructor; [|done]. by rewrite Hu1, Hu2.
    + constructor; [|done]. rewrite Hc1, Hc2. split; [done|]. by left.
Qed.

Lemma charges_Chat me : keeps (charges me.(in_Principal)) (Chat s me).
Proof. destruct (charges_premises me) as (? & ? & ?). by apply (keeps_Chat (charges me.(in_Principal))). Qed.
Lemma charges_StreamChat me : keeps (charges me.(in_Principal)) (StreamChat s me).
Proof. destruct (charges_premises me) as (? & ? & ?). by apply (keeps_StreamChat (charges me.(in_Principal))). Qed.
Lemma charges_FinalizeStream r usage e : keeps (charges r.(sr_input).(in_Principal)) (FinalizeStream s r usage e).
Proof. destruct (charges_premises r.(sr_input)) as (? & ? & ?). by apply (keeps_FinalizeStream (charges _) s r.(sr_input)). Qed.
End charges.

(** ** Refusals spend nothing *)

Definition frugal (d d' : DB) : Prop :=
  d'.(cost_limit_counters) = d.(cost_limit_counters) ∧ d'.(cost_reservations) = d.(cost_reservations) ∧
  d'.(usage_records) = d.(usage_records) ∧ d'.(cost_records) = d.(cost_records).

#[export] Instance frugal_calm : Calm frugal.
Proof.
  unfold frugal. split; [split; [done|]| |]; [intros d1 d2 d3; naive_solver congruence|..];
    intros ? ? ? ? H; by apply Metering.insert_ok in H as (_ & -> & _).
Qed.
#[export] Instance frugal_logs : Logs frugal.
Proof. split. intros ? ? ? ? H. by apply Metering.insert_ok in H as (_ & -> & _). Qed.

(** What was sent to providers and webhooks so far. *)
Definition outgoing (w : world) : list effect :=
  List.filter (λ e, match e with EffHTTP _ _ _ _ => true | _ => false end) w.(w_trace).

Definition silent {A} (m : M A) : Prop := ∀ w, outgoing (m w).2 = outgoing w.

Lemma silent_bind {A B} (m : M A) (f : A → M B) : silent m → (∀ a, silent (f a)) → silent (m ≫= f).
Proof.
  intros Hm Hf w. unfold mbind, M_bind. specialize (Hm w). destruct (m w) as [[a|e] w']; simpl in *; [|done].
  by rewrite Hf.
Qed.
Lemma silent_try {A} (m : M A) : silent m → silent (try m).
Proof. intros Hm w. specialize (Hm w). unfold try. by destruct (m w). Qed.
Lemma silent_stmt {A} (f : DB → result (A * DB)) : silent (stmt f).
Proof.
  intros w. unfold stmt, call. destruct (w_faults w) as [|[] l]; [|done|]; simpl; by destruct (f _) as [[]|].
Qed.
Lemma silent_call : silent call.
Proof. intros w. unfold call. by destruct (w_faults w). Qed.
Lemma silent_emit e : (∀ m u h b, e ≠ EffHTTP m u h b) → silent (emit e).
Proof.
  intros He w. unfold outgoing. simpl. rewrite List.filter_app. destruct e; try apply app_nil_r. by destruct (He method url headers body).
Qed.

Ltac silent :=
  repeat match goal with
  | |- forall _, _ => intros
  | |- silent (_ ≫= _) => apply silent_bind
  | |- silent (try _) => apply silent_try
  | |- silent (stmt _) => apply silent_stmt
  | |- silent (query _) => apply silent_stmt
  | |- silent call => apply silent_call
  | |- silent (emit _) => by apply silent_emit
  | |- silent (mret _) => intros ?; reflexivity
  | |- silent (fail _) => intros ?; reflexivity
  | |- silent (lift _) => intros ?; reflexivity
  | |- silent clock => intros ?; reflexivity
  | |- silent new_uuid => intros ?; reflexivity
  | |- silent draw => intros ?; reflexivity
  | |- silent (match ?x with _ => _ end) => destruct x
  | |- silent (let _ := _ in _) => cbv zeta
  end; try solve [eauto].

(** What a refusal leaves behind. *)
Definition nothing_spent (w w' : world) : Prop :=
  frugal (w_db w) (w_db w') ∧ outgoing w' = outgoing w ∧ (w_faults w = [] → w_faults w' = []).

Lemma nothing_spent_run {A} (m : M A) w : keeps frugal m → silent m → nothing_spent w (m w).2.
Proof. intros Hm Hs. destruct (Hm w). by split_and!. Qed.

Lemma nothing_spent_trans w1 w2 w3 : nothing_spent w1 w2 → nothing_spent w2 w3 → nothing_spent w1 w3.
Proof. intros (F1 & O1 & H1) (F2 & O2 & H2). split_and!; [by etrans|congruence|auto]. Qed.

Lemma nothing_spent_step {A} (m : M A) w w0 r w' :
  m w0 = (r, w') → nothing_spent w w0 → keeps frugal m → silent m → nothing_spent w w'.
Proof.
  intros E H Hk Hs. eapply nothing_spent_trans; [done|].
  pose proof (nothing_spent_run m w0 Hk Hs) as Hm. by rewrite E in Hm.
Qed.

Section route.
Context {SU : Surroundings} {RT : Runtime} {AE : AEAD} {NE : Net} {TR : Transport} {WH : Webhooks} {DG : Digests}.
Context {CJ : Caches.CacheJSON} {RD : Redis} {UJ : Adapters.UpstreamJSON} {RP : RequestParsing}.
Context (s : ChatService) (ring : TokenHashKeyRing) (limiter : option Limiter) (recorder : option Metering.Service).

Lemma firstByHash_frugal {A} (get : string → M A) hashes :
  (∀ h, keeps frugal (get h)) → (∀ h, silent (get h)) → keeps frugal (firstByHash get hashes) ∧ silent (firstByHash get hashes).
Proof. intros H1 H2. induction hashes as [|h hs [IH1 IH2]]; simpl; split; [keeps|silent|keeps|silent]. Qed.

Lemma Authenticate_frugal token w : nothing_spent w (APIKeys.Authenticate ring token w).2.
Proof.
  assert (Hf : ∀ hs, keeps frugal (firstByHash APIKeys.GetAPIKeyByHash hs) ∧ silent (firstByHash APIKeys.GetAPIKeyByHash hs)).
  { intros hs. apply firstByHash_frugal; intros h; unfold APIKeys.GetAPIKeyByHash; [keeps|silent]. }
  assert (Hk : ∀ o i t, keeps frugal (stmt (APIKeys.touch_key o i t))).
  { intros o i t. apply keeps_stmt; [apply _|]. by intros d [] d' [= <-]. }
  apply nothing_spent_run; unfold APIKeys.Authenticate, CandidateHashes, range; [keeps|silent]; apply Hf.
Qed.

Lemma recordRateLimitFailure_frugal cx p status code ecode t :
  keeps frugal (recordRateLimitFailure recorder cx p status code ecode t) ∧
  silent (recordRateLimitFailure recorder cx p status code ecode t).
Proof.
  pose proof (keeps_RecordFailure frugal) as Hk.
  unfold recordRateLimitFailure, requestUUID. split; [keeps|].
  silent; unfold Metering.RecordFailure, Metering.publishUsageEvent, Metering.writeAnalyticsRecord, Metering.notify; silent.
Qed.

(** ** The way to the handler *)

(** What a request must present: a token of an issued key, with the route's
    scope, that the limiter lets through. *)
Record admitted (rq : Request) (w : world) (p : APIKeyPrincipal) : Prop := {
  ad_token : ∃ token w1, bearerToken (rq.(rq_Header) "Authorization") = Some token ∧
    APIKeys.Authenticate ring token w = (Ok p, w1);
  ad_scope : Rbac.keyHasScope p Rbac.APIKeyScopeChatCompletions = true;
  ad_limit : ∃ limit n decision, limiter = Some limit ∧ limit n p = (decision, None) ∧ decision.(RateLimit.dec_Allowed) = true
}.

Lemma RateLimited_cases next p cx w r w' :
  cx.(cx_Key) = Some p → RateLimited limiter recorder s.(hasMetrics) next cx w = (r, w') →
  nothing_spent w w' ∨
  ∃ w1 limit n decision, limiter = Some limit ∧ limit n p = (decision, None) ∧ decision.(RateLimit.dec_Allowed) = true ∧
    nothing_spent w w1 ∧ next cx w1 = (r, w').
Proof.
  intros Hp H. unfold RateLimited in H. set (w1 := set_tick (S (w_tick w)) w).
  rewrite (bind_run clock _ w _ w1 eq_refl) in H. rewrite Hp in H.
  assert (H1 : nothing_spent w w1) by done. destruct limiter as [limit|]; [|injection H as _ <-; by left].
  set (n := w_fresh w1) in *. set (w2 := set_fresh (S n) w1). assert (H2 : nothing_spent w w2) by done.
  rewrite (bind_run (LimiterAllow limit p) _ w1 (limit n p) w2 eq_refl) in H.
  pose proof (λ a b c d, recordRateLimitFailure_frugal cx p a b c d) as Hrec.
  destruct (limit n p) as [decision [e|]] eqn:El.
  - left. eapply nothing_spent_step; [exact H|done|..].
    + apply keeps_bind; [apply _|apply Hrec|unfold abortWithError; keeps].
    + apply silent_bind; [apply Hrec|by intros u w0].
  - destruct (RateLimit.dec_Allowed decision) eqn:Ed; simpl in H.
    + right. by exists w2, limit, n, decision.
    + left. eapply nothing_spent_step; [exact H|done|..].
      * apply keeps_bind; [apply _|apply Hrec|unfold abortWithError; keeps].
      * apply silent_bind; [apply Hrec|unfold abortWithError; silent].
Qed.

Lemma chatRoute_cases cx w r w' :
  chatRoute s ring limiter recorder cx w = (r, w') →
  nothing_spent w w' ∨
  ∃ p w1, admitted cx.(cx_Request) w p ∧ nothing_spent w w1 ∧
    Create s (mkContext cx.(cx_Request) cx.(cx_RequestID) (Some p) cx.(cx_Admin) cx.(cx_BodyLimit)) w1 = (r, w').
Proof.
  unfold chatRoute, GatewayAPIKeyAuth. destruct (bearerToken _) as [token|] eqn:Et; [|intros [= _ <-]; by left].
  pose proof (Authenticate_frugal token w) as Ha. unfold try, mbind at 1, M_bind at 1.
  destruct (APIKeys.Authenticate ring token w) as [[p|e] w1] eqn:Ea; simpl in *; [|intros [= _ <-]; by left].
  unfold RequireAPIKeyScope. simpl. destruct (Rbac.keyHasScope _ _) eqn:Es; simpl; [|intros [= _ <-]; by left].
  intros H. apply (RateLimited_cases _ p) in H as [H|(w2 & limit & n & decision & Hl & Hn & Hd & H2 & H)]; [| |done].
  - left. by eapply nothing_spent_trans.
  - right. exists p, w2. split; [|split; [by eapply nothing_spent_trans|done]]. split; [by exists token, w1|done|by eexists _, _, _].
Qed.

(** ** The handler *)

Lemma StreamChat_input me r w w' : StreamChat s me w = (Ok r, w') → r.(sr_input) = me.
Proof.
  unfold StreamChat. intros H. apply bind_ok in H as (t & w1 & _ & H).
  destruct (unmarshalRequest _) as [request|e]; [|done].
  destruct (emptyRequest request); [by apply (f_equal fst), refused in H|].
  apply bind_ok in H as (ad & w2 & _ & H). apply bind_ok in H as ([[policy p] m] & w3 & _ & H).
  apply bind_ok in H as (active & w4 & _ & H). unfold withRelease in H.
  apply bind_ok in H as (x & w5 & H5 & H). apply try_ok in H5. destruct x as [res|e].
  - apply ret_ok in H as [<- _]. by apply openStream_ok in H5 as [H5 _].
  - apply bind_ok in H as (u & w6 & _ & H). done.
Qed.

(** Every world between requests: the ledger balances, no call fails and
    nothing is held. *)
Definition nothing_held (w : world) : Prop := ready w ∧ ∀ id, held_by id (w_db w) = [].

Lemma nothing_held_spent w w' : nothing_spent w w' → nothing_held w → nothing_held w'.
Proof.
  intros ((Hc & Hr & _) & _ & Hf) [[Hl Hw] Hh]. split; [split; [|auto]|].
  - by apply (still_ledger (w_db w)).
  - intros id. unfold held_by. rewrite Hr. apply Hh.
Qed.

(** A step that closes its own reservation and touches no other. *)
Lemma nothing_held_step {A} req (m : M A) w :
  returns req m → keeps (others req) m → nothing_held w → nothing_held (m w).2.
Proof.
  intros Hr Ho [Hw Hh]. destruct (Hr w (conj Hw (Hh req))) as [Hw' Hh']. split; [done|].
  intros id. destruct (decide (id = req)) as [->|Hid]; [done|]. destruct (Ho w) as [H _]. by rewrite H.
Qed.

Lemma createStream_holds cx me w : nothing_held w → nothing_held (createStream s cx me w).2.
Proof.
  intros Hh. unfold createStream, catch, mbind at 1, M_bind at 1.
  pose proof (opens_StreamChat s me w (conj (proj1 Hh) (proj2 Hh _))) as Ho.
  pose proof (others_StreamChat s me w) as [Hother _].
  destruct (StreamChat s me w) as [[res|e] w1] eqn:E; simpl in *.
  - destruct Ho as (Hr & <- & Ha & Hn). destruct (relay _ _ _) as [[usage written] unread].
    set (e := streamErr _ _ _).
    pose proof (FinalizeStream_idle s res usage e w1 Hn Hr Ha) as [Hr2 Hh2].
    pose proof (others_FinalizeStream s res usage e w1) as [Ho2 _].
    assert (H2 : nothing_held (FinalizeStream s res usage e w1).2).
    { split; [done|]. intros id. destruct (decide (id = in_RequestID (sr_input res))) as [->|Hid]; [done|].
      rewrite Ho2, Hother by done. apply Hh. }
    unfold catch, mbind, M_bind. by destruct (FinalizeStream s res usage e w1) as [[x|[]] w2].
  - assert (H1 : nothing_held w1).
    { destruct Ho as [Hr Hh1]. split; [done|]. intros id. destruct (decide (id = in_RequestID me)) as [->|Hid]; [done|].
      rewrite Hother by done. apply Hh. }
    by destruct e.
Qed.

Lemma Create_holds cx w : nothing_held w → nothing_held (Create s cx w).2.
Proof.
  intros Hh. unfold Create. destruct (cx_Key cx) as [p|]; [|done].
  destruct (ReadAll cx) as [body|[]]; [|done..].
  assert (Hid : ∃ req w1, requestUUID cx w = (Ok req, w1) ∧ nothing_held w1).
  { unfold requestUUID. destruct (uuidParse _); [by eexists _, w|]. by eexists _, (set_fresh _ w). }
  destruct Hid as (req & w1 & Hid & H1). rewrite (bind_run _ _ _ _ _ Hid).
  destruct (probeStream body) as [[]|e]; [by apply createStream_holds| |done].
  pose proof (nothing_held_step _ _ w1 (Chat_returns s _) (others_Chat s (chatInput cx p req body)) H1) as H2.
  unfold catch, mbind, M_bind. by destruct (Chat _ _ w1) as [[out|[]] w2].
Qed.

Lemma createStream_charges cx me : keeps (charges me.(in_Principal)) (createStream s cx me).
Proof.
  pose proof (charges_StreamChat s me). unfold createStream, RespondError.
  apply keeps_bind_ok; [apply _|by apply keeps_catch|intros [res|e] w w1 E; [|keeps]].
  apply catch_ok, StreamChat_input in E as <-. pose proof (charges_FinalizeStream s res). keeps.
Qed.

Lemma Create_charges cx p : cx.(cx_Key) = Some p → keeps (charges p) (Create s cx).
Proof.
  intros Hp. unfold Create, RespondError, requestUUID. rewrite Hp. keeps.
  - apply (createStream_charges cx (chatInput cx p _ _)).
  - apply (charges_Chat s (chatInput cx p _ _)).
Qed.

(** The outer middlewares only name the request and catch panics. *)
Lemma served_cases rq w reply w' :
  served (chatRoute s ring limiter recorder) rq w = (reply, w') →
  ∃ rid w0 r, w_db w0 = w_db w ∧ w_now w0 = w_now w ∧ w_faults w0 = w_faults w ∧ w_trace w0 = w_trace w ∧
    chatRoute s ring limiter recorder (mkContext rq rid None None defaultMaxRequestBodyBytes) w0 = (r, w').
Proof.
  unfold served, RequestID, RequestBodyLimit, Recovery. simpl. destruct (String.eqb _ _); unfold mbind, M_bind; simpl.
  - intros H. eexists _, (set_fresh (S (w_fresh w)) w).
    destruct (chatRoute s ring limiter recorder _ _) as [r w1] eqn:E in H. exists r.
    destruct r; injection H as _ <-; (do 4 (split; [done|])); exact E.
  - intros H. eexists _, w. destruct (chatRoute s ring limiter recorder _ _) as [r w1] eqn:E in H. exists r.
    destruct r; injection H as _ <-; (do 4 (split; [done|])); exact E.
Qed.

(** No request leaves money held. Whoever sends it and whatever it says, with
    or without a key, refused, answered, streamed to a client that stays or
    leaves, and whatever the checks, the providers, the caches and the limiter
    do, even if the handler panics: if before it the ledger balances, nothing
    is reserved and no database call fails, then so it is after it. *)
Lemma nothing_left_held (rq : Request) (w : world) :
  nothing_held w → nothing_held (served (chatRoute s ring limiter recorder) rq w).2.
Proof.
  intros Hh. destruct (served _ rq w) as [reply w'] eqn:E.
  apply served_cases in E as (rid & w0 & r & Hd & _ & Hf & _ & E).
  assert (Hh0 : nothing_held w0) by (unfold nothing_held, ready in *; by rewrite Hd, Hf).
  apply chatRoute_cases in E as [H|(p & w1 & _ & H & E)]; [by apply (nothing_held_spent w0)|].
  pose proof (Create_holds (mkContext rq rid (Some p) None defaultMaxRequestBodyBytes) w1) as Hc.
  simpl in E. rewrite E in Hc. by apply Hc, (nothing_held_spent w0).
Qed.

(** A request spends nothing, or was admitted and is charged to its key. *)
Lemma route_spends (rq : Request) (w : world) :
  let w' := (served (chatRoute s ring limiter recorder) rq w).2 in
  nothing_spent w w' ∨
  ∃ p w0, w_db w0 = w_db w ∧ w_now w0 = w_now w ∧ admitted rq w0 p ∧ charges p (w_db w) (w_db w').
Proof.
  intros w'. unfold w'. clear w'. destruct (served _ rq w) as [reply w'] eqn:E. simpl.
  apply served_cases in E as (rid & w0 & r & Hd & Hnow & Hf & Htr & E).
  assert (H0 : nothing_spent w w0) by (unfold nothing_spent, outgoing; rewrite Hd, Hf, Htr; done).
  apply chatRoute_cases in E as [H|(p & w1 & Ha & H & E)]; [left; by eapply nothing_spent_trans|right].
  exists p, w0. do 3 (split; [done|]).
  destruct (Create_charges (mkContext rq rid (Some p) None defaultMaxRequestBodyBytes) p eq_refl w1) as [Hc _].
  simpl in E. rewrite E in Hc. etrans; [|exact Hc]. rewrite <- Hd. destruct H as ((_ & _ & Hu & Hcr) & _). by apply charges_same.
Qed.

(** C2: only issued keys spend, and only their own money. Under however many
    key rings the keys were issued: a request to the chat route either leaves
    the ledger and the books as they were and reaches no provider, or its
    bearer token is an issued key, not revoked, not expired, with the route's
    scope, which the limiter let through, and every usage and cost record it
    adds is charged to that key and its organisation. *)
Theorem only_issued_keys_spend {PH : PerfectHMAC} (T : list APIKeys.issued) (rq : Request) (w : world) :
  APIKeys.history T (w_db w).(api_keys) → NoDup (map APIKeys.is_Key T) →
  let w' := (served (chatRoute s ring limiter recorder) rq w).2 in
  nothing_spent w w' ∨
  ∃ token p limit n decision,
    bearerToken (rq.(rq_Header) "Authorization") = Some token ∧
    APIKeys.authenticates ring token (w_now w) T = Ok p ∧
    Rbac.keyHasScope p Rbac.APIKeyScopeChatCompletions = true ∧
    limiter = Some limit ∧ limit n p = (decision, None) ∧ decision.(RateLimit.dec_Allowed) = true ∧
    charges p (w_db w) (w_db w').
Proof.
  intros HT Hnd w'. destruct (route_spends rq w) as [H|(p & w0 & Hd & Hnow & Ha & Hc)]; [by left|right].
  destruct Ha as [(token & wa & Ht & Hauth) Hs (limit & n & decision & Hl & Hn & Hdec)].
  exists token, p, limit, n, decision. rewrite <- Hd in HT. rewrite <- Hnow.
  apply (APIKeys.Authenticate_result T) in Hauth as [Hp|(_ & e & [=])]; [|done..]. done.
Qed.
End route.
(** ** Relations that the whole route keeps *)

Section whole.
Context (P : DB → DB → Prop) `{!Calm P, !Logs P}.
Context {SU : Surroundings} {RT : Runtime} {AE : AEAD} {NE : Net} {TR : Transport} {WH : Webhooks} {DG : Digests}.
Context {CJ : Caches.CacheJSON} {RD : Redis} {UJ : Adapters.UpstreamJSON} {RP : RequestParsing}.
Context (s : ChatService).
Context (Hmine : ∀ req d d', mine req d d' → P d d').
Context (Hsuccess : ∀ ri d res, Metering.success_rows ri d res → P d (Metering.add_records res d)).

Lemma handler_keeps cx : keeps P (Create s cx).
Proof.
  assert (H1 : ∀ ri, keeps P (Reserve ri)) by (intros; eapply keeps_mono; [|apply mine_Reserve]; apply Hmine).
  assert (H2 : ∀ req, keeps P (Release req)) by (intros; eapply keeps_mono; [|apply mine_Release]; apply Hmine).
  assert (H3 : ∀ ms ri, keeps P (Metering.RecordSuccess ms ri)).
  { intros. apply RecordSuccess_keeps; [apply _|apply Hsuccess|apply Hmine]. }
  pose proof (λ me, keeps_Chat P s me (λ ri _, H1 ri) (H2 _) (λ ms ri _, H3 ms ri)).
  pose proof (λ me, keeps_StreamChat P s me (λ ri _, H1 ri) (H2 _)).
  pose proof (λ r u e, keeps_FinalizeStream P s _ (H2 _) (λ ms ri _, H3 ms ri) r u e eq_refl).
  unfold Create, createStream, RespondError, requestUUID. keeps.
Qed.

(** Of the keys, a request changes when its own was last used. *)
Lemma keeps_Authenticate ring token :
  (∀ o i t, keeps P (stmt (APIKeys.touch_key o i t))) → keeps P (APIKeys.Authenticate ring token).
Proof.
  intros Ht. assert (Hf : ∀ hs, keeps P (firstByHash APIKeys.GetAPIKeyByHash hs)).
  { unfold APIKeys.GetAPIKeyByHash. induction hs as [|h hs IH]; simpl; keeps. }
  unfold APIKeys.Authenticate, CandidateHashes, range. keeps.
Qed.

Lemma keys_free ring token : (∀ d ks, P d (set_api_keys ks d)) → keeps P (APIKeys.Authenticate ring token).
Proof.
  intros Hkeys. apply keeps_Authenticate. intros o i t. apply keeps_stmt; [apply _|]. by intros d [] d' [= <-].
Qed.

Lemma route_keeps ring limiter recorder rq w :
  (∀ token, keeps P (APIKeys.Authenticate ring token)) →
  P (w_db w) (w_db (served (chatRoute s ring limiter recorder) rq w).2).
Proof.
  intros Hauth. pose proof handler_keeps. pose proof (keeps_RecordFailure P).
  destruct (served _ rq w) as [reply w'] eqn:E. apply served_cases in E as (rid & w0 & r & <- & _ & _ & _ & E).
  set (cx := mkContext _ _ _ _ _) in E.
  assert (Hk : keeps P (chatRoute s ring limiter recorder cx)).
  { unfold chatRoute, GatewayAPIKeyAuth, RequireAPIKeyScope, RateLimited, LimiterAllow, recordRateLimitFailure, requestUUID,
      abortUnauthorized, abortWithError. keeps. }
  destruct (Hk w0) as [Hw _]. by rewrite E in Hw.
Qed.
End whole.

End ChatRoute.
