(* ===== verification/Integrity.v ===== *)
(** * The integrity of the books

    The three tables of the books refer to each other: a cost to its usage, a
    usage to its line of the request log. The columns' types, the [CHECK]s, the
    keys and the references are an invariant of the chat route. *)

From Stdlib Require Import QArith.
From S2P Require Import Prelude GoTime GoStrings Encodings Costing Store ExampleWorld QuotaService Tokens ApiKeys.
From S2P Require Import Secrets Outbound HttpClient Limits LimitsLedger LimitsReserve LimitsSpec Routing Pricing Metering BudgetAlerts.
From S2P Require Import Redis Rbac RateLimit GatewayBase Providers Caches Adapters Gateway.
From S2P Require Import HttpServer ChatHandler GatewayFrame GatewayReservations GatewayBooks ChatRoute.
#[local] Open Scope Z_scope.

Module Integrity.
Import GatewayBase Gateway GatewayFrame Http ChatHandler ChatRoute.

Definition log_typed (l : RequestLog) : Prop := Metering.request_log_check l = true.

(** A usage record belongs to a line of the log, of the same tenant. *)
Definition usage_typed (d : DB) (u : UsageRecord) : Prop :=
  Metering.usage_check u = true ∧ u.(UsageRecord_TotalTokens) <= MaxInt32 ∧
  ∃ l, l ∈ d.(request_logs) ∧ l.(RequestLog_ID) = u.(UsageRecord_RequestLogID) ∧ l.(RequestLog_OrgID) = u.(UsageRecord_OrgID).

(** A cost record belongs to a usage record, of the same tenant. *)
Definition cost_typed (d : DB) (c : CostRecord) : Prop :=
  Metering.cost_check c = true ∧ c.(CostRecord_TotalCostMicro) <= MaxInt64 ∧
  ∃ u, u ∈ d.(usage_records) ∧ u.(UsageRecord_ID) = c.(CostRecord_UsageRecordID) ∧ u.(UsageRecord_OrgID) = c.(CostRecord_OrgID).

Record well_typed (d : DB) : Prop := {
  wt_logs : Forall log_typed d.(request_logs);
  wt_usages : Forall (usage_typed d) d.(usage_records);
  wt_costs : Forall (cost_typed d) d.(cost_records);
  wt_log_key : NoDup (map RequestLog_ID d.(request_logs));
  wt_usage_key : NoDup (map UsageRecord_ID d.(usage_records));
  wt_usage_once : NoDup (map UsageRecord_RequestLogID d.(usage_records));
  wt_cost_key : NoDup (map CostRecord_ID d.(cost_records));
  wt_cost_once : NoDup (map CostRecord_UsageRecordID d.(cost_records))
}.

Definition typing (d d' : DB) : Prop := well_typed d → well_typed d'.

#[export] Instance typing_preorder : PreOrder typing.
Proof. unfold typing. split; [by intros d|]. intros d1 d2 d3. auto. Qed.

Lemma typing_same d d' :
  d'.(request_logs) = d.(request_logs) → d'.(usage_records) = d.(usage_records) → d'.(cost_records) = d.(cost_records) →
  typing d d'.
Proof. intros Hl Hu Hc []. split; unfold usage_typed, cost_typed in *; by rewrite ?Hl, ?Hu, ?Hc. Qed.

Lemma NoDup_snoc {A B} (f : A → B) l x : NoDup (map f l) → Forall (λ y, f y ≠ f x) l → NoDup (map f (l ++ [x])).
Proof.
  intros Hl Hx. rewrite map_app. apply list.NoDup_app. split; [done|]. split; [|apply NoDup_singleton].
  intros b Hb Hin. apply list_elem_of_singleton in Hin as ->. apply list_elem_of_In, in_map_iff in Hb as (y & Hy & Hin).
  rewrite List.Forall_forall in Hx. by apply (Hx y).
Qed.

Lemma Forall_snoc {A} (P Q : A → Prop) l x : Forall P l → (∀ y, P y → Q y) → Q x → Forall Q (l ++ [x]).
Proof. intros Hl HPQ Hx. apply Forall_app. split; [by eapply List.Forall_impl|by constructor]. Qed.

(** A new line of the log. *)
Lemma typing_log l d :
  log_typed l → Forall (λ q, q.(RequestLog_ID) ≠ l.(RequestLog_ID)) d.(request_logs) →
  typing d (set_request_logs (λ ls, ls ++ [l]) d).
Proof.
  intros Hl Hfresh []. split; simpl; try done.
  - by eapply Forall_snoc.
  - eapply List.Forall_impl; [|done]. intros u (? & ? & q & Hq & ?). do 2 (split; [done|]). exists q.
    split; [apply elem_of_app; by left|done].
  - by apply NoDup_snoc.
Qed.

#[export] Instance typing_calm : Calm typing.
Proof. split; [apply _|..]; intros ? ? ? ? H; apply Metering.insert_ok in H as (_ & -> & _); by apply typing_same. Qed.
#[export] Instance typing_logs : Logs typing.
Proof.
  split. intros l d l' d' H. apply Metering.insert_ok in H as (_ & -> & Hc & Hf). apply typing_log; [done|].
  eapply List.Forall_impl; [|exact Hf]. intros q. apply N.eqb_neq.
Qed.

(** The three rows of a success. *)
Lemma typing_success ri d res : Metering.success_rows ri d res → typing d (Metering.add_records res d).
Proof.
  intros [(Hl1 & Hl2 & _ & Hl3) (Hu1 & Hu2 & _ & Hu3) _ (Hc1 & Hc2 & _) _ (Hlc & Huc & Hum & Hcc & Hcm & Huf & Hcf)] Hwt.
  pose proof (typing_log res.(Metering.res_RequestLog) d Hlc ltac:(by rewrite Hl1) Hwt) as [].
  unfold Metering.add_records. simpl in *. split; simpl; try done.
  - eapply Forall_snoc; [done|done|]. split; [done|]. split; [done|]. exists res.(Metering.res_RequestLog).
    split; [apply elem_of_app; right; by left|]. by rewrite Hl1, Hl2, Hu1, Hu2.
  - eapply Forall_snoc; [done| |].
    + intros c (? & ? & u & Hu & ?). do 2 (split; [done|]). exists u. split; [apply elem_of_app; by left|done].
    + split; [done|]. split; [done|]. exists res.(Metering.res_UsageRecord). split; [apply elem_of_app; right; by left|].
      by rewrite Hc1, Hc2, Hu2.
  - by apply NoDup_snoc.
  - apply NoDup_snoc; [done|]. by rewrite Hu1.
  - apply NoDup_snoc; [done|]. eapply List.Forall_impl; [|exact Hcf]. by intros c [].
  - apply NoDup_snoc; [done|]. rewrite Hc1. eapply List.Forall_impl; [|exact Hcf]. by intros c [].
Qed.

Lemma typing_ledger req d d' : mine req d d' → typing d d'.
Proof. intros [H _]. unfold LimitsLedger.limits_frame in H. destruct d, d'. simpl in H. simplify_eq/=. by apply typing_same. Qed.

Section route.
Context {SU : Surroundings} {RT : Runtime} {AE : AEAD} {NE : Net} {TR : Transport} {WH : Webhooks} {DG : Digests}.
Context {CJ : Caches.CacheJSON} {RD : Redis} {UJ : Adapters.UpstreamJSON} {RP : RequestParsing}.
Context (s : ChatService) (ring : TokenHashKeyRing) (limiter : option Limiter) (recorder : option Metering.Service).

(** The books stay well typed. Whatever request the chat route serves, and
    whatever fails on the way, every token count fits its 32 bits and every
    cost its 64, no amount is negative and every total is the sum of its parts,
    no key occurs twice, every request has at most one usage record and every
    usage record at most one cost, and each belongs to the row of the same
    tenant that it names. *)
Lemma books_well_typed (rq : Request) (w : world) :
  well_typed (w_db w) → well_typed (w_db (served (chatRoute s ring limiter recorder) rq w).2).
Proof.
  apply (route_keeps typing); [exact typing_ledger|exact typing_success|]. intros token. apply keys_free; [apply _|].
  intros d ks. by apply typing_same.
Qed.
End route.
End Integrity.
