(* ===== verification/Reports.v ===== *)
(** * Usage reports: [usage.sql.go], [analytics/usage_analytics_service.go]

    The sums over the request log, the usages and the costs that the usage and
    analytics pages show, with their handlers. The reports that ClickHouse computes are in
    [ClickHouse]. Averages and percentiles are rationals; rows that the [ORDER BY]
    does not tell apart come in the order their keys first occur. *)

From Stdlib Require Import QArith.
From S2P Require Import Prelude GoTime GoStrings Encodings Costing Store ExampleWorld QuotaService Tokens ApiKeys.
From S2P Require Import Secrets Outbound HttpClient Limits LimitsLedger LimitsReserve LimitsSpec Routing Pricing Metering BudgetAlerts.
From S2P Require Import Redis Rbac RateLimit Float64 GatewayBase Providers Caches Adapters Gateway Sql HttpServer RequestLogs ChatHandler.
From S2P Require Import GatewayFrame GatewayReservations GatewayBooks ChatRoute Integrity.
#[local] Open Scope Z_scope.

Module Reports.
Import GatewayBase Http Sql RequestLogs.

(** ** [request_logs LEFT JOIN usage_records LEFT JOIN cost_records] *)

Definition usage_on (l : RequestLog) (u : UsageRecord) : bool :=
  (u.(UsageRecord_OrgID) =? l.(RequestLog_OrgID))%N && (u.(UsageRecord_RequestLogID) =? l.(RequestLog_ID))%N.

Definition cost_on_usage (u : UsageRecord) (c : CostRecord) : bool :=
  (c.(CostRecord_OrgID) =? u.(UsageRecord_OrgID))%N && (c.(CostRecord_UsageRecordID) =? u.(UsageRecord_ID))%N.

(** A null usage joins no cost. *)
Definition cost_on (r : RequestLog * option UsageRecord) (c : CostRecord) : bool :=
  match r.2 with Some u => cost_on_usage u c | None => false end.

Definition log_row : Type := RequestLog * option UsageRecord * option CostRecord.
Definition log_rows (logs : list RequestLog) (d : DB) : list log_row :=
  left_join cost_on (left_join usage_on logs d.(usage_records)) d.(cost_records).

Definition succeeded (status : string) : bool := String.eqb status "success" || String.eqb status "budget_warned".
Definition count {A} (p : A → bool) (l : list A) : Z := Z.of_nat (length (List.filter p l)).
Definition average (l : list Z) : Q := Qmake (sumZ id l) (Z.to_pos (Z.of_nat (length l))).

(** ** [UsageSummaryByProvider], [ByModel], [ByAPIKey] *)

Record SummaryRow := mkSummaryRow {
  sm_Key : uuid;
  sm_RequestCount : Z;
  sm_SuccessCount : Z;
  sm_ErrorCount : Z;
  sm_PromptTokens : Z;
  sm_CompletionTokens : Z;
  sm_TotalTokens : Z;
  sm_TotalCostMicroUsd : Z;
  sm_AvgLatencyMs : Q
}.

Definition summary_row (g : uuid * list log_row) : result SummaryRow :=
  let rows := g.2 in
  prompt ← pg_bigint (sumZ (λ r, sum_opt UsageRecord_PromptTokens r.1.2) rows);
  completion ← pg_bigint (sumZ (λ r, sum_opt UsageRecord_CompletionTokens r.1.2) rows);
  total ← pg_bigint (sumZ (λ r, sum_opt UsageRecord_TotalTokens r.1.2) rows);
  cost ← pg_bigint (sumZ (λ r, sum_opt CostRecord_TotalCostMicro r.2) rows);
  Ok (mkSummaryRow g.1 (Z.of_nat (length rows)) (count (λ r, succeeded r.1.1.(RequestLog_Status)) rows)
        (count (λ r, negb (succeeded r.1.1.(RequestLog_Status))) rows) prompt completion total cost
        (average (map (λ r, r.1.1.(RequestLog_LatencyMs)) rows))).

(** [ORDER BY total_cost_micro_usd DESC, request_count DESC]. *)
Definition costliest_first (a b : SummaryRow) : bool :=
  if a.(sm_TotalCostMicroUsd) =? b.(sm_TotalCostMicroUsd) then b.(sm_RequestCount) <=? a.(sm_RequestCount)
  else b.(sm_TotalCostMicroUsd) <? a.(sm_TotalCostMicroUsd).

(** The lines of a tenant started in a window, of which the column is not null. *)
Definition in_report (column : RequestLog → option uuid) (orgID : uuid) (fromAt toAt : Z) (l : RequestLog) : bool :=
  (l.(RequestLog_OrgID) =? orgID)%N && bool_decide (is_Some (column l))
  && (fromAt <=? l.(RequestLog_StartedAt)) && (l.(RequestLog_StartedAt) <? toAt).

(** The three queries differ by the column they group. *)
Definition UsageSummaryBy (column : RequestLog → option uuid) (orgID : uuid) (fromAt toAt : Z) (d : DB)
    : result (list SummaryRow) :=
  let logs := List.filter (in_report column orgID fromAt toAt) d.(request_logs) in
  rows ← mapM summary_row (group_by (λ r : log_row, default Nil (column r.1.1)) (log_rows logs d));
  Ok (sort_by costliest_first rows).

Definition UsageSummaryByProvider := UsageSummaryBy RequestLog_ProviderID.
Definition UsageSummaryByModel := UsageSummaryBy RequestLog_ModelID.
Definition UsageSummaryByAPIKey := UsageSummaryBy RequestLog_ApiKeyID.

(** ** [UsageAnalyticsService], on PostgreSQL *)

Record DailyCostPoint := mkDailyCostPoint { dc_Day : string; dc_RequestCount : Z; dc_TotalCostMicroUSD : Z }.

Record ModelCostBreakdownItem := mkModelCostBreakdownItem {
  mb_ModelID : uuid;
  mb_RequestCount : Z;
  mb_PromptTokens : Z;
  mb_CompletionTokens : Z;
  mb_TotalTokens : Z;
  mb_TotalCostMicroUSD : Z
}.

Record ProviderLatencyItem := mkProviderLatencyItem {
  pl_ProviderID : uuid;
  pl_RequestCount : Z;
  pl_AverageLatencyMS : Q;
  pl_P50LatencyMS : Q;
  pl_P95LatencyMS : Q;
  pl_P99LatencyMS : Q
}.

Record ErrorRatePoint := mkErrorRatePoint {
  er_Day : string;
  er_RequestCount : Z;
  er_ErrorCount : Z;
  er_ErrorRate : float64
}.

(** [to_char(date_trunc('day', t AT TIME ZONE 'UTC'), 'YYYY-MM-DD')], for the
    years 0 to 9999. *)
Fixpoint padded (width : nat) (n : Z) : string :=
  match width with O => "" | S width => padded width (n / 10) +:+ String (decChar (n mod 10)) "" end.
Definition dayText (t : Z) : string :=
  let '(y, m, d) := civil_from_days (day_of t) in padded 4 y +:+ "-" +:+ padded 2 m +:+ "-" +:+ padded 2 d.

(** The lines of a tenant completed in a window. *)
Definition completed_in (orgID : uuid) (fromAt toAt : Z) (l : RequestLog) : bool :=
  (l.(RequestLog_OrgID) =? orgID)%N && (fromAt <=? l.(RequestLog_CompletedAt)) && (l.(RequestLog_CompletedAt) <? toAt).

(** This query joins the costs on the tenant of the log, not of the usage. *)
Definition cost_on_log (r : RequestLog * option UsageRecord) (c : CostRecord) : bool :=
  match r.2 with
  | Some u => (c.(CostRecord_OrgID) =? r.1.(RequestLog_OrgID))%N && (c.(CostRecord_UsageRecordID) =? u.(UsageRecord_ID))%N
  | None => false
  end.

Definition dailyCostTrendPostgres (orgID : uuid) (fromAt toAt : Z) (d : DB) : result (list DailyCostPoint) :=
  let logs := List.filter (completed_in orgID fromAt toAt) d.(request_logs) in
  let rows := left_join cost_on_log (left_join usage_on logs d.(usage_records)) d.(cost_records) in
  points ← mapM (λ g : string * list log_row,
             cost ← pg_bigint (sumZ (λ r, sum_opt CostRecord_TotalCostMicro r.2) g.2);
             Ok (mkDailyCostPoint g.1 (Z.of_nat (length g.2)) cost))
           (group_by (λ r : log_row, dayText r.1.1.(RequestLog_CompletedAt)) rows);
  Ok (sort_by (λ a b, String.leb a.(dc_Day) b.(dc_Day)) points).

Definition model_order (a b : ModelCostBreakdownItem) : bool :=
  if a.(mb_TotalCostMicroUSD) =? b.(mb_TotalCostMicroUSD) then b.(mb_RequestCount) <=? a.(mb_RequestCount)
  else b.(mb_TotalCostMicroUSD) <? a.(mb_TotalCostMicroUSD).

Definition modelCostBreakdownPostgres (orgID : uuid) (fromAt toAt : Z) (d : DB) : result (list ModelCostBreakdownItem) :=
  let usages := List.filter (λ u, (u.(UsageRecord_OrgID) =? orgID)%N && (fromAt <=? u.(UsageRecord_CreatedAt))
                                  && (u.(UsageRecord_CreatedAt) <? toAt)) d.(usage_records) in
  items ← mapM (λ g : uuid * list (UsageRecord * option CostRecord),
            prompt ← pg_bigint (sumZ (λ r, r.1.(UsageRecord_PromptTokens)) g.2);
            completion ← pg_bigint (sumZ (λ r, r.1.(UsageRecord_CompletionTokens)) g.2);
            total ← pg_bigint (sumZ (λ r, r.1.(UsageRecord_TotalTokens)) g.2);
            cost ← pg_bigint (sumZ (λ r, sum_opt CostRecord_TotalCostMicro r.2) g.2);
            Ok (mkModelCostBreakdownItem g.1 (Z.of_nat (length g.2)) prompt completion total cost))
          (group_by (λ r : UsageRecord * option CostRecord, r.1.(UsageRecord_ModelID))
             (left_join cost_on_usage usages d.(cost_records)));
  Ok (sort_by model_order items).

Definition latency_order (a b : ProviderLatencyItem) : bool :=
  if Qeq_bool a.(pl_P95LatencyMS) b.(pl_P95LatencyMS) then b.(pl_RequestCount) <=? a.(pl_RequestCount)
  else Qle_bool b.(pl_P95LatencyMS) a.(pl_P95LatencyMS).

Definition providerLatencyPostgres (percentile_cont : Q → list Z → Q) (orgID : uuid) (fromAt toAt : Z) (d : DB)
    : result (list ProviderLatencyItem) :=
  let logs := List.filter (λ l, completed_in orgID fromAt toAt l && bool_decide (is_Some l.(RequestLog_ProviderID))) d.(request_logs) in
  let item (g : uuid * list RequestLog) :=
    let latencies := map RequestLog_LatencyMs g.2 in
    mkProviderLatencyItem g.1 (Z.of_nat (length g.2)) (average latencies) (percentile_cont (50 # 100) latencies)
      (percentile_cont (95 # 100) latencies) (percentile_cont (99 # 100) latencies) in
  Ok (sort_by latency_order (map item (group_by (λ l, default Nil l.(RequestLog_ProviderID)) logs))).

Definition errorRateTrendPostgres (orgID : uuid) (fromAt toAt : Z) (d : DB) : result (list ErrorRatePoint) :=
  let point (g : string * list RequestLog) :=
    let requests := Z.of_nat (length g.2) in
    let errors := count (λ l, negb (succeeded l.(RequestLog_Status))) g.2 in
    mkErrorRatePoint g.1 requests errors (if requests =? 0 then f64_zero else f64_div (f64_of_Z errors) (f64_of_Z requests)) in
  Ok (sort_by (λ a b, String.leb a.(er_Day) b.(er_Day))
        (map point (group_by (λ l, dayText l.(RequestLog_CompletedAt))
                      (List.filter (completed_in orgID fromAt toAt) d.(request_logs))))).

(** ** [UsageHandler.Summary] *)

Inductive grouping := GroupByProvider | GroupByModel | GroupByAPIKey.
Definition grouping_text (g : grouping) : string :=
  match g with GroupByProvider => "provider" | GroupByModel => "model" | GroupByAPIKey => "api_key" end.

(** [DefaultQuery] takes the default when the parameter is absent; given empty,
    it is refused. *)
Definition parseGroupBy (value : option string) : option grouping :=
  let value := default (grouping_text GroupByModel) value in
  if String.eqb value "provider" then Some GroupByProvider
  else if String.eqb value "model" then Some GroupByModel
  else if String.eqb value "api_key" then Some GroupByAPIKey
  else None.

Section handlers.
Context {DG : Digests} {TX : ReportText} {RP : RequestParsing}.
Variable percentile_cont : Q → list Z → Q.

Definition summaryOf (g : grouping) (orgID : uuid) (fromAt toAt : Z) (d : DB) : result (list SummaryRow) :=
  match g with
  | GroupByProvider => UsageSummaryByProvider orgID fromAt toAt d
  | GroupByModel => UsageSummaryByModel orgID fromAt toAt d
  | GroupByAPIKey => UsageSummaryByAPIKey orgID fromAt toAt d
  end.

(** The name of what a row is about, when it is found. *)
Definition summaryName (g : grouping) (orgID id : uuid) : M (option string) :=
  match g with
  | GroupByProvider => r ← try (GetProvider orgID id); mret (match r with Ok p => Some p.(Provider_Name) | Err _ => None end)
  | GroupByModel => r ← try (GetModel orgID id); mret (match r with Ok m => Some m.(Model_DisplayName) | Err _ => None end)
  | GroupByAPIKey => r ← try (APIKeyQuota.GetAPIKey orgID id); mret (match r with Ok k => Some k.(ApiKey_Name) | Err _ => None end)
  end.

Definition summaryItem (g : grouping) (r : SummaryRow) (name : option string) : json :=
  let what := grouping_text g in
  JObj ([(what +:+ "_id", jsonUUID r.(sm_Key))] ++ optional (what +:+ "_name") (JStr <$> name) ++
        [("request_count", JNum r.(sm_RequestCount)); ("success_count", JNum r.(sm_SuccessCount));
         ("error_count", JNum r.(sm_ErrorCount)); ("prompt_tokens", JNum r.(sm_PromptTokens));
         ("completion_tokens", JNum r.(sm_CompletionTokens)); ("total_tokens", JNum r.(sm_TotalTokens));
         ("total_cost_micro_usd", JNum r.(sm_TotalCostMicroUsd)); ("avg_latency_ms", JFloat (jsonDouble r.(sm_AvgLatencyMs)))]).

(** The three functions differ by the query and the table of the names. *)
Definition summaryBy (g : grouping) (orgID : uuid) (window : Z * Z) : M (list json) :=
  rows ← query (summaryOf g orgID window.1 window.2);
  forM rows [] (λ items row, name ← summaryName g orgID row.(sm_Key); mret (items ++ [summaryItem g row name])).

Definition summaryByProvider := summaryBy GroupByProvider.
Definition summaryByModel := summaryBy GroupByModel.
Definition summaryByAPIKey := summaryBy GroupByAPIKey.

Definition Summary : Handler := λ cx,
  match cx.(cx_Admin) with
  | None => RespondError cx (Unauthorized "unauthorized")
  | Some principal =>
      match parseGroupBy (cx.(cx_Request).(rq_GetQuery) "group_by") with
      | None => RespondError cx (InvalidRequest "group_by must be provider, model or api_key")
      | Some g =>
          window ← parseWindow cx;
          match window with
          | Err e => RespondError cx e
          | Ok window =>
              r ← try (let orgID := principal.(Rbac.at_OrgID) in
                       match g with
                       | GroupByProvider => summaryByProvider orgID window
                       | GroupByModel => summaryByModel orgID window
                       | GroupByAPIKey => summaryByAPIKey orgID window
                       end);
              match r with
              | Err _ => RespondError cx (InternalError "internal server error")
              | Ok items => mret (mkReply 200 (BodyJSON (JObj [("group_by", JStr (grouping_text g)); ("items", JArr items)])) None)
              end
          end
      end
  end.

(** ** [AnalyticsHandler] *)

Definition analyticsRequest (cx : Context) : M (result (uuid * (Z * Z))) :=
  match cx.(cx_Admin) with
  | None => mret (Err (Unauthorized "unauthorized"))
  | Some principal => window ← parseWindow cx; mret (window ← window; Ok (principal.(Rbac.at_OrgID), window))
  end.

Definition analyticsHandler {A} (fetch : uuid → Z → Z → DB → result (list A)) (item : A → json) : Handler := λ cx,
  request ← analyticsRequest cx;
  match request with
  | Err e => RespondError cx e
  | Ok (orgID, (fromAt, toAt)) =>
      r ← try (query (fetch orgID fromAt toAt));
      match r with
      | Err _ => RespondError cx (InternalError "internal server error")
      | Ok items => mret (mkReply 200 (BodyJSON (JObj [("items", JArr (map item items))])) None)
      end
  end.

Definition DailyCostTrend : Handler :=
  analyticsHandler dailyCostTrendPostgres (λ p,
    JObj [("day", JStr p.(dc_Day)); ("request_count", JNum p.(dc_RequestCount)); ("total_cost_micro_usd", JNum p.(dc_TotalCostMicroUSD))]).

Definition ModelCostBreakdown : Handler :=
  analyticsHandler modelCostBreakdownPostgres (λ p,
    JObj [("model_id", jsonUUID p.(mb_ModelID)); ("request_count", JNum p.(mb_RequestCount));
          ("prompt_tokens", JNum p.(mb_PromptTokens)); ("completion_tokens", JNum p.(mb_CompletionTokens));
          ("total_tokens", JNum p.(mb_TotalTokens)); ("total_cost_micro_usd", JNum p.(mb_TotalCostMicroUSD))]).

Definition ProviderLatency : Handler :=
  analyticsHandler (providerLatencyPostgres percentile_cont) (λ p,
    JObj [("provider_id", jsonUUID p.(pl_ProviderID)); ("request_count", JNum p.(pl_RequestCount));
          ("avg_latency_ms", JFloat (jsonDouble p.(pl_AverageLatencyMS))); ("p50_latency_ms", JFloat (jsonDouble p.(pl_P50LatencyMS)));
          ("p95_latency_ms", JFloat (jsonDouble p.(pl_P95LatencyMS))); ("p99_latency_ms", JFloat (jsonDouble p.(pl_P99LatencyMS)))]).

Definition ErrorRateTrend : Handler :=
  analyticsHandler errorRateTrendPostgres (λ p,
    JObj [("day", JStr p.(er_Day)); ("request_count", JNum p.(er_RequestCount)); ("error_count", JNum p.(er_ErrorCount));
          ("error_rate", JFloat (jsonFloat p.(er_ErrorRate)))]).
End handlers.

(** ** Proofs *)

(** The line of the log that a usage, or a cost, belongs to. *)
Definition usage_log (d : DB) (u : UsageRecord) : option RequestLog :=
  find (λ l, (l.(RequestLog_ID) =? u.(UsageRecord_RequestLogID))%N) d.(request_logs).
Definition cost_usage (d : DB) (c : CostRecord) : option UsageRecord :=
  find (λ u, (u.(UsageRecord_ID) =? c.(CostRecord_UsageRecordID))%N) d.(usage_records).
Definition on_log (q : RequestLog → bool) (o : option RequestLog) : bool := match o with Some l => q l | None => false end.
Definition used_by (d : DB) (q : RequestLog → bool) (u : UsageRecord) : bool := on_log q (usage_log d u).
Definition charged_to (d : DB) (q : RequestLog → bool) (c : CostRecord) : bool := on_log q (cost_usage d c ≫= usage_log d).

Section books.
Context (d : DB) (Ht : Integrity.well_typed d).

Lemma usage_on_once l : (length (List.filter (usage_on l) d.(usage_records)) <= 1)%nat.
Proof.
  apply (filter_unique UsageRecord_RequestLogID _ l.(RequestLog_ID)); [apply Ht|].
  intros u Hu. unfold usage_on in Hu. by eqb_to_prop.
Qed.

Lemma cost_on_usage_once u : (length (List.filter (cost_on_usage u) d.(cost_records)) <= 1)%nat.
Proof.
  apply (filter_unique CostRecord_UsageRecordID _ u.(UsageRecord_ID)); [apply Ht|].
  intros c Hc. unfold cost_on_usage in Hc. by eqb_to_prop.
Qed.

Lemma cost_on_once r : (length (List.filter (cost_on r) d.(cost_records)) <= 1)%nat.
Proof. unfold cost_on. destruct r.2; [apply cost_on_usage_once|]. rewrite filter_none_bool by done. simpl. lia. Qed.

(** Each line of the log is one row of the join. *)
Lemma log_rows_logs logs : map (λ r, r.1.1) (log_rows logs d) = logs.
Proof.
  rewrite <- (map_map fst fst). unfold log_rows. rewrite left_join_fst by apply cost_on_once.
  apply left_join_fst, usage_on_once.
Qed.

Lemma log_rows_filter p logs : List.filter (λ r, p r.1.1) (log_rows logs d) = log_rows (List.filter p logs) d.
Proof.
  unfold log_rows. rewrite (left_join_filter _ (λ r : RequestLog * option UsageRecord, p r.1)).
  by rewrite left_join_filter.
Qed.

(** A usage joins the line it belongs to. *)
Lemma usage_joined q u :
  u ∈ d.(usage_records) →
  sumZ (λ l, if usage_on l u then 1 else 0) (List.filter q d.(request_logs)) = if used_by d q u then 1 else 0.
Proof.
  intros Hu. destruct (proj1 (List.Forall_forall _ _) (Integrity.wt_usages _ Ht) u) as (_ & _ & l & Hl & Hid & Horg);
    [by apply list_elem_of_In|].
  rewrite sumZ_filter_bool.
  rewrite (sumZ_ext _ (λ l', if (l'.(RequestLog_ID) =? u.(UsageRecord_RequestLogID))%N then if q l' then 1 else 0 else 0)).
  - rewrite sumZ_find by apply Ht. unfold used_by, usage_log. by destruct (find _ _) as [l'|].
  - intros l' Hl'. unfold usage_on. rewrite (N.eqb_sym (UsageRecord_RequestLogID u)).
    destruct (N.eqb_spec (RequestLog_ID l') (UsageRecord_RequestLogID u)) as [E|]; [|by rewrite andb_false_r; destruct (q l')].
    rewrite (NoDup_map_inj _ _ _ _ (Integrity.wt_log_key _ Ht) Hl' Hl) by congruence.
    by rewrite Horg, N.eqb_refl.
Qed.

Lemma cost_joined (g : UsageRecord → Z) c :
  c ∈ d.(cost_records) →
  sumZ (λ u, if cost_on_usage u c then g u else 0) d.(usage_records) = sum_opt g (cost_usage d c).
Proof.
  intros Hc. destruct (proj1 (List.Forall_forall _ _) (Integrity.wt_costs _ Ht) c) as (_ & _ & u & Hu & Hid & Horg);
    [by apply list_elem_of_In|].
  unfold cost_usage. rewrite <- sumZ_find by apply Ht. apply sumZ_ext. intros u' Hu'. unfold cost_on_usage.
  rewrite (N.eqb_sym (CostRecord_UsageRecordID c)). destruct (N.eqb_spec (UsageRecord_ID u') (CostRecord_UsageRecordID c)) as [E|];
    [|by rewrite andb_false_r].
  rewrite (NoDup_map_inj _ _ _ _ (Integrity.wt_usage_key _ Ht) Hu' Hu) by congruence.
  by rewrite Horg, N.eqb_refl.
Qed.

(** What the usages of some lines come to is what the join sums. *)
Lemma log_usages (f : UsageRecord → Z) q :
  sumZ (λ r, sum_opt f r.1.2) (log_rows (List.filter q d.(request_logs)) d) = sumZ f (List.filter (used_by d q) d.(usage_records)).
Proof.
  rewrite <- (sumZ_map (λ r : RequestLog * option UsageRecord, sum_opt f r.2) fst). unfold log_rows.
  rewrite left_join_fst by apply cost_on_once. rewrite sumZ_left_join_right, sumZ_swap, sumZ_filter_bool.
  apply sumZ_ext. intros u Hu. pose proof (usage_joined q u Hu) as Hj.
  rewrite (sumZ_ext _ (λ l, (if usage_on l u then 1 else 0) * f u)) by (intros l _; destruct (usage_on l u); lia).
  rewrite sumZ_scale, Hj. destruct (used_by d q u); lia.
Qed.

(** What was charged for some lines is what the join sums. *)
Lemma log_costs (f : CostRecord → Z) q :
  sumZ (λ r, sum_opt f r.2) (log_rows (List.filter q d.(request_logs)) d) = sumZ f (List.filter (charged_to d q) d.(cost_records)).
Proof.
  unfold log_rows. rewrite sumZ_left_join_right.
  rewrite (sumZ_ext _ (λ r, sum_opt (λ u, sumZ (λ c, if cost_on_usage u c then f c else 0) d.(cost_records)) r.2)).
  2: { intros [l [u|]] _; [done|]. by apply sumZ_zero. }
  rewrite sumZ_left_join_right, sumZ_swap.
  rewrite (sumZ_ext _ (λ u, sumZ (λ c, if cost_on_usage u c then if used_by d q u then f c else 0 else 0) d.(cost_records))).
  - rewrite sumZ_swap, sumZ_filter_bool. apply sumZ_ext. intros c Hc.
    rewrite (cost_joined (λ u, if used_by d q u then f c else 0)) by done. unfold charged_to. by destruct (cost_usage d c).
  - intros u Hu. pose proof (usage_joined q u Hu) as Hj.
    set (s := sumZ (λ c, if cost_on_usage u c then f c else 0) d.(cost_records)).
    rewrite (sumZ_ext _ (λ l, (if usage_on l u then 1 else 0) * s)) by (intros l _; destruct (usage_on l u); lia).
    rewrite sumZ_scale, Hj. destruct (used_by d q u); [apply Z.mul_1_l|]. rewrite Z.mul_0_l. symmetry. apply sumZ_zero.
    intros c _. by destruct (cost_on_usage u c).
Qed.

(** ** The summaries *)

(** A row says what the lines that [q] picks come to. *)
Record sums_up (q : RequestLog → bool) (r : SummaryRow) : Prop := {
  su_requests : r.(sm_RequestCount) = count q d.(request_logs);
  su_successes : r.(sm_SuccessCount) = count (λ l, q l && succeeded l.(RequestLog_Status)) d.(request_logs);
  su_errors : r.(sm_SuccessCount) + r.(sm_ErrorCount) = r.(sm_RequestCount);
  su_prompt : r.(sm_PromptTokens) = sumZ UsageRecord_PromptTokens (List.filter (used_by d q) d.(usage_records));
  su_completion : r.(sm_CompletionTokens) = sumZ UsageRecord_CompletionTokens (List.filter (used_by d q) d.(usage_records));
  su_tokens : r.(sm_TotalTokens) = sumZ UsageRecord_TotalTokens (List.filter (used_by d q) d.(usage_records));
  su_cost : r.(sm_TotalCostMicroUsd) = sumZ CostRecord_TotalCostMicro (List.filter (charged_to d q) d.(cost_records));
  su_latency : r.(sm_AvgLatencyMs) = average (map RequestLog_LatencyMs (List.filter q d.(request_logs)))
}.

Lemma count_map {A B} (f : A → B) (p : B → bool) l : count (λ a, p (f a)) l = count p (map f l).
Proof. unfold count. by rewrite <- filter_map_bool, length_map. Qed.

Lemma count_split {A} (p : A → bool) l : count p l + count (λ a, negb (p a)) l = Z.of_nat (length l).
Proof. unfold count. induction l as [|a l IH]; [done|]. simpl. destruct (p a); simpl; lia. Qed.

Lemma summary_row_ok k q r :
  summary_row (k, log_rows (List.filter q d.(request_logs)) d) = Ok r → r.(sm_Key) = k ∧ sums_up q r.
Proof.
  unfold summary_row. cbn [fst snd]. set (rows := log_rows _ d).
  intros (p & Hp & (c & Hc & (t & Ht' & (m & Hm & [= <-])%result_bind_ok)%result_bind_ok)%result_bind_ok)%result_bind_ok.
  apply pg_bigint_ok in Hp as [-> _], Hc as [-> _], Ht' as [-> _], Hm as [-> _]. split; [done|]. split; simpl.
  - rewrite <- (length_map (λ r : log_row, r.1.1)). unfold rows. by rewrite log_rows_logs.
  - rewrite (count_map (λ r : log_row, r.1.1) (λ l, succeeded l.(RequestLog_Status))). unfold rows. rewrite log_rows_logs.
    unfold count. by rewrite filter_filter_bool.
  - apply count_split.
  - apply log_usages.
  - apply log_usages.
  - apply log_usages.
  - apply log_costs.
  - f_equal. rewrite <- (map_map (λ r : log_row, r.1.1) RequestLog_LatencyMs). unfold rows. by rewrite log_rows_logs.
Qed.
End books.

Lemma costliest_sorted rows : StronglySorted (λ a b, costliest_first a b = true) (sort_by costliest_first rows).
Proof.
  apply sort_by_sorted; unfold costliest_first.
  - intros a b H. rewrite Z.eqb_sym. case_all H; bool_to_prop; rewrite ?Z.leb_le, ?Z.ltb_lt; lia.
  - intros a b c Hab Hbc. case_all Hab; case_all Hbc; bool_to_prop; case_match; bool_to_prop; rewrite ?Z.leb_le, ?Z.ltb_lt; lia.
Qed.

(** The lines of a report that belong to [k]. *)
Definition in_group (column : RequestLog → option uuid) (orgID : uuid) (fromAt toAt : Z) (k : uuid) (l : RequestLog) : bool :=
  in_report column orgID fromAt toAt l && bool_decide (column l = Some k).

Lemma report_group d column orgID fromAt toAt k rows :
  (k, rows) ∈ group_by (λ r : log_row, default Nil (column r.1.1)) (log_rows (List.filter (in_report column orgID fromAt toAt) d.(request_logs)) d) →
  rows = log_rows (List.filter (in_group column orgID fromAt toAt k) d.(request_logs)) d.
Proof.
  intros H. apply elem_of_group in H as ->. cbv beta.
  rewrite (filter_ext_in _ (λ r : log_row, (default Nil (column r.1.1) =? k)%N)).
  2: { intros r _. case_bool_decide as E; symmetry; by apply N.eqb_eq || by apply N.eqb_neq. }
  rewrite (log_rows_filter d (λ l, default Nil (column l) =? k)%N). f_equal.
  rewrite filter_filter_bool. apply filter_ext_in. intros l _. unfold in_group.
  destruct (in_report column orgID fromAt toAt l) eqn:E; [|done]. simpl. unfold in_report in E. eqb_to_prop.
  destruct (column l) as [k'|]; simpl; [|by destruct H1]. case_bool_decide; [apply N.eqb_eq|apply N.eqb_neq]; congruence.
Qed.

Lemma report_keys column orgID fromAt toAt d k :
  Integrity.well_typed d →
  k ∈ map fst (group_by (λ r : log_row, default Nil (column r.1.1)) (log_rows (List.filter (in_report column orgID fromAt toAt) d.(request_logs)) d)) ↔
  ∃ l, l ∈ d.(request_logs) ∧ in_report column orgID fromAt toAt l = true ∧ column l = Some k.
Proof.
  intros Ht. rewrite elem_of_group_keys. set (logs := List.filter _ _). split.
  - intros (r & Hr & Hk). assert (Hl : r.1.1 ∈ logs).
    { rewrite <- (log_rows_logs d Ht logs). apply list_elem_of_In, (in_map (λ r : log_row, r.1.1)). by apply list_elem_of_In. }
    apply list_elem_of_In, filter_In in Hl as [Hl Hin]. exists r.1.1. split; [by apply list_elem_of_In|]. split; [done|].
    unfold in_report in Hin. eqb_to_prop. destruct (column r.1.1); simpl in *; [congruence|by destruct H1].
  - intros (l & Hl & Hin & Hk). assert (Hm : l ∈ map (λ r : log_row, r.1.1) (log_rows logs d)).
    { rewrite log_rows_logs by done. apply list_elem_of_In, filter_In. by rewrite <- list_elem_of_In. }
    apply list_elem_of_In, in_map_iff in Hm as (r & <- & Hr). exists r. rewrite Hk. split; [by apply list_elem_of_In|done].
Qed.

(** C18: the usage summaries reconcile with the books. On tables whose keys and
    references are sound, a summary by provider, model or API key has one row for
    each of the column's values among the tenant's lines started in the window,
    and the row sums up exactly the lines of that value: every request is counted
    once, as a success or as an error, and its tokens and its cost are those of
    the usage and cost records that belong to it. The rows come with the largest
    cost first, and over all rows the counts and the costs add up to those of the
    whole window. *)
Theorem usage_summaries_reconcile (column : RequestLog → option uuid) (orgID : uuid) (fromAt toAt : Z) (d : DB) (rows : list SummaryRow) :
  Integrity.well_typed d → UsageSummaryBy column orgID fromAt toAt d = Ok rows →
  let here := in_report column orgID fromAt toAt in
  StronglySorted (λ a b, costliest_first a b = true) rows ∧
  NoDup (map sm_Key rows) ∧
  (∀ k, k ∈ map sm_Key rows ↔ ∃ l, l ∈ d.(request_logs) ∧ here l = true ∧ column l = Some k) ∧
  Forall (λ r, sums_up d (in_group column orgID fromAt toAt r.(sm_Key)) r) rows ∧
  sumZ sm_RequestCount rows = count here d.(request_logs) ∧
  sumZ sm_TotalCostMicroUsd rows = sumZ CostRecord_TotalCostMicro (List.filter (charged_to d here) d.(cost_records)).
Proof.
  intros Ht H here. unfold UsageSummaryBy in H. fold here in H. apply result_bind_ok in H as (rs & Hm & [= <-]).
  set (key := λ r : log_row, default Nil (column r.1.1)) in *.
  set (groups := group_by key _) in Hm. apply mapM_ok in Hm.
  assert (Hrow : ∀ g r, g ∈ groups → summary_row g = Ok r →
    r.(sm_Key) = g.1 ∧ sums_up d (in_group column orgID fromAt toAt g.1) r ∧
    r.(sm_RequestCount) = sumZ (λ _, 1) g.2 ∧ r.(sm_TotalCostMicroUsd) = sumZ (λ r, sum_opt CostRecord_TotalCostMicro r.2) g.2).
  { intros [k g] r Hg Hr. pose proof (report_group _ _ _ _ _ _ _ Hg) as Eg. simpl in Eg. rewrite Eg in Hr.
    destruct (summary_row_ok d Ht _ _ _ Hr) as [Hk Hs]. split; [done|]. split; [done|]. rewrite sumZ_const.
    unfold summary_row in Hr. cbn [fst snd] in Hr. do 3 apply result_bind_ok in Hr as (? & _ & Hr).
    apply result_bind_ok in Hr as (m & Hc & [= <-]). apply pg_bigint_ok in Hc as [-> _]. by rewrite Eg. }
  assert (Hkeys : map sm_Key rs = map fst groups).
  { apply (Forall2_map_keys _ _ _ _ _ Hm). intros g r Hg Hr. by apply Hrow. }
  assert (Hperm : sort_by costliest_first rs ≡ₚ rs) by apply sort_by_perm.
  split; [apply costliest_sorted|]. rewrite !(sumZ_perm _ _ _ Hperm), Hperm, Hkeys.
  split; [apply group_keys_NoDup|]. split; [|split; [|split]].
  - intros k. rewrite Hperm, Hkeys. by apply report_keys.
  - apply List.Forall_forall. intros r Hr. apply list_elem_of_In in Hr.
    destruct (Forall2_elem_r _ _ _ _ Hm Hr) as (g & Hg & E). destruct (Hrow g r Hg E) as (-> & Hs & _). exact Hs.
  - rewrite (Forall2_sumZ _ (λ g, sumZ (λ _, 1) g.2) sm_RequestCount _ _ Hm)
      by (intros g r Hg E; exact (proj1 (proj2 (proj2 (Hrow g r Hg E))))).
    unfold groups. rewrite sumZ_groups, sumZ_const. unfold count. rewrite <- (length_map (λ r : log_row, r.1.1)). by rewrite log_rows_logs.
  - rewrite (Forall2_sumZ _ (λ g, sumZ (λ r, sum_opt CostRecord_TotalCostMicro r.2) g.2) sm_TotalCostMicroUsd _ _ Hm)
      by (intros g r Hg E; exact (proj2 (proj2 (proj2 (Hrow g r Hg E))))).
    unfold groups. rewrite (sumZ_groups key (λ r, sum_opt CostRecord_TotalCostMicro r.2)). by apply log_costs.
Qed.

(** ** The trends by day *)

(** Text order on a key. *)
Lemma sort_by_text {A} (key : A → string) l :
  StronglySorted (λ a b, String.leb (key a) (key b) = true) (sort_by (λ a b, String.leb (key a) (key b)) l).
Proof.
  apply sort_by_sorted.
  - intros a b H. destruct (String.leb_total (key a) (key b)); congruence.
  - intros a b c Hab Hbc. assert (H : String.le (key a) (key c)) by (etrans; [|apply Is_true_true, Hbc]; by apply Is_true_true).
    by apply Is_true_true in H.
Qed.

(** On sound references the tenant of the log is that of the usage. *)
Lemma cost_on_log_rows logs d :
  left_join cost_on_log (left_join usage_on logs d.(usage_records)) d.(cost_records) = log_rows logs d.
Proof.
  unfold log_rows, left_join at 1 3. rewrite !flat_map_concat_map. f_equal. apply map_ext_in. intros [l ou] Hr.
  replace (List.filter (cost_on_log (l, ou)) d.(cost_records)) with (List.filter (cost_on (l, ou)) d.(cost_records)); [done|].
  apply filter_ext_in. intros c _. unfold cost_on, cost_on_log, cost_on_usage. simpl. destruct ou as [u|]; [|done].
  apply in_flat_map in Hr as (l' & _ & Hr). destruct (List.filter (usage_on l') (usage_records d)) as [|u' us] eqn:E.
  - by destruct Hr.
  - rewrite <- E in Hr. apply in_map_iff in Hr as (u'' & [= <- <-] & Hu). apply filter_In in Hu as [_ Hu].
    unfold usage_on in Hu. eqb_to_prop. congruence.
Qed.

Definition on_day (orgID : uuid) (fromAt toAt : Z) (day : string) (l : RequestLog) : bool :=
  completed_in orgID fromAt toAt l && String.eqb (dayText l.(RequestLog_CompletedAt)) day.

Lemma day_group {A} (log : A → RequestLog) (q : RequestLog → bool) (l : list A) day g :
  (day, g) ∈ group_by (λ a, dayText (log a).(RequestLog_CompletedAt)) l →
  g = List.filter (λ a, String.eqb (dayText (log a).(RequestLog_CompletedAt)) day) l.
Proof.
  intros H. apply elem_of_group in H as ->. apply filter_ext_in. intros a _.
  case_bool_decide as E; symmetry; by apply String.eqb_eq || by apply String.eqb_neq.
Qed.

(** The points of the two charts have the same days. *)
Lemma daily_points orgID fromAt toAt d points :
  Integrity.well_typed d → dailyCostTrendPostgres orgID fromAt toAt d = Ok points →
  let groups := group_by (λ l, dayText l.(RequestLog_CompletedAt)) (List.filter (completed_in orgID fromAt toAt) d.(request_logs)) in
  map dc_Day points = sort_by String.leb (map fst groups) ∧
  Forall (λ p, p.(dc_RequestCount) = count (on_day orgID fromAt toAt p.(dc_Day)) d.(request_logs) ∧
               p.(dc_TotalCostMicroUSD) =
                 sumZ CostRecord_TotalCostMicro (List.filter (charged_to d (on_day orgID fromAt toAt p.(dc_Day))) d.(cost_records))) points.
Proof.
  intros Ht H groups. unfold dailyCostTrendPostgres in H. rewrite cost_on_log_rows in H.
  apply result_bind_ok in H as (ps & Hm & [= <-]). apply mapM_ok in Hm.
  set (rows := log_rows _ d) in Hm.
  assert (Hrow : ∀ g p, g ∈ group_by (λ r : log_row, dayText r.1.1.(RequestLog_CompletedAt)) rows →
    (cost ← pg_bigint (sumZ (λ r, sum_opt CostRecord_TotalCostMicro r.2) g.2);
     Ok (mkDailyCostPoint g.1 (Z.of_nat (length g.2)) cost)) = Ok p →
    p.(dc_Day) = g.1 ∧ p.(dc_RequestCount) = count (on_day orgID fromAt toAt g.1) d.(request_logs) ∧
    p.(dc_TotalCostMicroUSD) = sumZ CostRecord_TotalCostMicro (List.filter (charged_to d (on_day orgID fromAt toAt g.1)) d.(cost_records))).
  { intros [day g] p Hg Hp. apply (day_group (λ r : log_row, r.1.1) (λ _, true)) in Hg as ->. simpl in Hp. unfold rows in Hp.
    rewrite (log_rows_filter d (λ l, String.eqb (dayText l.(RequestLog_CompletedAt)) day)), filter_filter_bool in Hp.
    apply result_bind_ok in Hp as (c & Hc & [= <-]). apply pg_bigint_ok in Hc as [-> _]. simpl. split; [done|]. split.
    - rewrite <- (length_map (λ r : log_row, r.1.1)). by rewrite log_rows_logs.
    - by apply (log_costs d Ht CostRecord_TotalCostMicro (on_day orgID fromAt toAt day)). }
  split.
  - rewrite map_sort_by. f_equal. rewrite (Forall2_map_keys _ fst _ _ _ Hm) by (intros g p Hg E; by apply (Hrow g p)).
    unfold groups. rewrite !group_keys. f_equal. unfold rows. rewrite <- (map_map (λ r : log_row, r.1.1) (λ l, dayText l.(RequestLog_CompletedAt))).
    by rewrite log_rows_logs.
  - apply List.Forall_forall. intros p Hp. apply list_elem_of_In in Hp. rewrite sort_by_perm in Hp.
    destruct (Forall2_elem_r _ _ _ _ Hm Hp) as (g & Hg & E). by destruct (Hrow g p Hg E) as (-> & Hn & Hc).
Qed.

Lemma error_points orgID fromAt toAt d rates :
  errorRateTrendPostgres orgID fromAt toAt d = Ok rates →
  map er_Day rates = sort_by String.leb (map fst (group_by (λ l, dayText l.(RequestLog_CompletedAt))
    (List.filter (completed_in orgID fromAt toAt) d.(request_logs)))) ∧
  Forall (λ p, p.(er_RequestCount) = count (on_day orgID fromAt toAt p.(er_Day)) d.(request_logs) ∧
               p.(er_ErrorCount) = count (λ l, on_day orgID fromAt toAt p.(er_Day) l && negb (succeeded l.(RequestLog_Status))) d.(request_logs)) rates.
Proof.
  intros [= <-]. split.
  - rewrite map_sort_by, map_map. done.
  - apply List.Forall_forall. intros p Hp. apply list_elem_of_In in Hp. rewrite sort_by_perm in Hp.
    apply list_elem_of_In, in_map_iff in Hp as ([day g] & <- & Hg). apply list_elem_of_In in Hg.
    apply (day_group id (λ _, true)) in Hg as ->. unfold count. simpl. by rewrite !filter_filter_bool.
Qed.

(** The daily charts agree with each other and with the books. On tables
    whose keys and references are sound, the cost chart and the error chart of a
    window have the same days, each once and in order, with the same number of
    requests on each; the cost of a day is the sum of the cost records of the
    requests completed on it, and its errors are the requests that neither
    succeeded nor only warned. *)
Theorem daily_charts_agree (orgID : uuid) (fromAt toAt : Z) (d : DB) (points : list DailyCostPoint) (rates : list ErrorRatePoint) :
  Integrity.well_typed d → dailyCostTrendPostgres orgID fromAt toAt d = Ok points →
  errorRateTrendPostgres orgID fromAt toAt d = Ok rates →
  map dc_Day points = map er_Day rates ∧ NoDup (map dc_Day points) ∧
  StronglySorted (λ a b, String.leb a b = true) (map dc_Day points) ∧
  (∀ day, day ∈ map dc_Day points ↔ ∃ l, l ∈ d.(request_logs) ∧ on_day orgID fromAt toAt day l = true) ∧
  Forall (λ p, p.(dc_RequestCount) = count (on_day orgID fromAt toAt p.(dc_Day)) d.(request_logs) ∧
               p.(dc_TotalCostMicroUSD) =
                 sumZ CostRecord_TotalCostMicro (List.filter (charged_to d (on_day orgID fromAt toAt p.(dc_Day))) d.(cost_records))) points ∧
  Forall (λ p, p.(er_RequestCount) = count (on_day orgID fromAt toAt p.(er_Day)) d.(request_logs) ∧
               p.(er_ErrorCount) = count (λ l, on_day orgID fromAt toAt p.(er_Day) l && negb (succeeded l.(RequestLog_Status))) d.(request_logs)) rates.
Proof.
  intros Ht Hp Hr. destruct (daily_points _ _ _ _ _ Ht Hp) as [Hd Hf]. destruct (error_points _ _ _ _ _ Hr) as [He Hg].
  rewrite Hd, He. split; [done|]. split; [rewrite sort_by_perm; apply group_keys_NoDup|].
  split; [apply (sort_by_text id)|]. split; [|done].
  intros day. rewrite sort_by_perm, elem_of_group_keys. unfold on_day. split.
  - intros (l & Hl & <-). apply list_elem_of_In, filter_In in Hl as [Hl Hin]. exists l.
    split; [by apply list_elem_of_In|]. by rewrite Hin, String.eqb_refl.
  - intros (l & Hl & Hin). apply andb_true_iff in Hin as [Hin Hday]. apply String.eqb_eq in Hday. exists l.
    split; [|done]. apply list_elem_of_In, filter_In. by rewrite <- list_elem_of_In.
Qed.
End Reports.
