(* ===== verification/AdminRoutes.v ===== *)
(** * The administrative and the platform routes: [internal/app/router.go]

    The table of the routes under [/api/v1/admin] and [/api/v1/platform], each
    with the permission it needs, behind the middlewares of its group. The
    matching of a request's path against the table is the router library's. *)

From Stdlib Require Import QArith.
From S2P Require Import Prelude GoTime GoStrings Encodings Costing Store ExampleWorld QuotaService Tokens ApiKeys.
From S2P Require Import Rbac AdminTokens Sessions MagicLinks.
From S2P Require Import Secrets Outbound HttpClient Limits BudgetService AnomalyService Routing ContentPolicy Pricing Metering BudgetAlerts.
From S2P Require Import RateLimit Float64 GatewayBase Providers Caches HttpServer RequestLogs AdminAudit AdminHandlers AccessHandlers Reports.
#[local] Open Scope Z_scope.

(** What [registerAdminRoutes] builds its handlers from. *)
Record AdminServices := mkAdminServices {
  ad_ring : TokenHashKeyRing;
  ad_providers : Providers.Service;
  ad_alerts : BudgetAlerts.AlertService;
  ad_magicLinks : option MagicLinks.MagicLinkService;
  ad_production : bool
}.

Record Route := mkRoute {
  ro_Method : string;
  ro_Path : string;
  ro_Needs : option AdminAudit.AdminPermission;   (** [None]: any principal *)
  ro_Handler : Http.Handler
}.

Module AdminRoutes.
Import Http AdminAudit AdminHandlers AccessHandlers Reports.

Section routes.
Context `{Runtime, AEAD, Net, Transport, Webhooks, Digests}.
Context {TX : ReportText} {RP : RequestParsing} {AB : AdminBodies} {CB : AccessBodies}.
Variable percentile_cont : Q → list Z → Q.
Context (s : AdminServices).

Definition meRoutes : list Route := [mkRoute "GET" "/me" None getMe].

Definition memberRoutes : list Route :=
  [mkRoute "POST" "/members" (Some Rbac.CanManageMembers) createMember;
   mkRoute "GET" "/members" (Some Rbac.CanViewMembers) listMembers].

Definition tokenRoutes : list Route :=
  [mkRoute "POST" "/api-keys" (Some Rbac.CanManageTokens) (createAPIKey s.(ad_ring));
   mkRoute "GET" "/api-keys" (Some Rbac.CanManageTokens) listAPIKeys;
   mkRoute "POST" "/api-keys/:api_key_id/revoke" (Some Rbac.CanManageTokens) revokeAPIKey].

Definition configRoutes : list Route :=
  let config method path handler := mkRoute method path (Some Rbac.CanManageConfiguration) handler in
  [config "POST" "/providers" (createProvider s.(ad_providers));
   config "GET" "/providers" listProviders;
   config "GET" "/providers/health" listProviderHealth;
   config "POST" "/providers/:provider_id/health-check" (checkProviderHealth s.(ad_providers));
   config "POST" "/models" createModel;
   config "GET" "/models" listModels;
   config "PATCH" "/models/:model_id/pricing" updatePricing;
   config "GET" "/models/:model_id/pricing-versions" listPricingVersions;
   config "POST" "/route-policies" createRoutePolicy;
   config "GET" "/route-policies" listRoutePolicies;
   config "POST" "/budgets" createBudget;
   config "GET" "/budgets" listBudgets;
   config "GET" "/budgets/status" budgetStatus;
   config "POST" "/budget-alerts" (createBudgetAlert s.(ad_alerts));
   config "GET" "/budget-alerts" listBudgetAlerts;
   config "GET" "/budget-alert-deliveries" listBudgetAlertDeliveries;
   config "POST" "/anomaly-policies" createAnomalyPolicy;
   config "GET" "/anomaly-policies" listAnomalyPolicies;
   config "POST" "/content-policies" createContentPolicy;
   config "GET" "/content-policies" listContentPolicies].

Definition viewRoutes : list Route :=
  let view path handler := mkRoute "GET" path (Some Rbac.CanView) handler in
  [view "/audit-logs" listAuditLogs;
   view "/cache-events" listCacheEvents;
   view "/request-logs" RequestLogs.List;
   view "/usage/summary" Summary;
   view "/analytics/daily-cost" DailyCostTrend;
   view "/analytics/model-cost-breakdown" ModelCostBreakdown;
   view "/analytics/provider-latency" (ProviderLatency percentile_cont);
   view "/analytics/error-rate" ErrorRateTrend].

(** The group [/api/v1/admin], with the reports of PostgreSQL. When ClickHouse is
    configured the four of [/analytics] read the reports of [ClickHouse] instead,
    which this table leaves out. *)
Definition adminRoutes : list Route := meRoutes ++ memberRoutes ++ tokenRoutes ++ configRoutes ++ viewRoutes.

Definition guarded (needs : option AdminPermission) (handler : Handler) : Handler :=
  match needs with None => handler | Some allowed => RequireAdminPermission (Some allowed) handler end.

Definition adminHandler (route : Route) : Handler :=
  AdminAuth s.(ad_ring) (Audited (guarded route.(ro_Needs) route.(ro_Handler))).

(** The routes for logging in, which need no principal. *)
Definition publicRoutes : list Route :=
  (if s.(ad_production) then [] else [mkRoute "POST" "/sessions/passwordless-mock" None (passwordlessMockLogin s.(ad_ring))]) ++
  match s.(ad_magicLinks) with
  | None => []
  | Some _ => [mkRoute "POST" "/sessions/passwordless/request" None (requestMagicLink s.(ad_magicLinks) s.(ad_ring));
               mkRoute "POST" "/sessions/passwordless/verify" None (verifyMagicLink s.(ad_magicLinks) s.(ad_ring))]
  end.

(** The group [/api/v1/platform]. *)
Definition platformRoutes : list Route :=
  [mkRoute "POST" "/orgs" None createOrg;
   mkRoute "POST" "/orgs/:org_id/admin-tokens" None (createAdminToken s.(ad_ring))].

Definition platformHandler (bootstrapToken : string) (route : Route) : Handler :=
  PlatformAuth bootstrapToken route.(ro_Handler).
End routes.
End AdminRoutes.
