(* ===== verification/AdminFrame.v ===== *)
(** * What the administrative handlers leave alone

    [keeps P] of the handlers, from the calls each of them makes. *)

From Stdlib Require Import QArith.
From S2P Require Import Prelude GoTime GoStrings Encodings Costing Store ExampleWorld QuotaService Tokens ApiKeys.
From S2P Require Import Rbac AdminTokens Sessions MagicLinks.
From S2P Require Import Secrets Outbound HttpClient Limits BudgetService AnomalyService Routing ContentPolicy Pricing Metering BudgetAlerts.
From S2P Require Import RateLimit Float64 GatewayBase Providers Caches HttpServer RequestLogs AdminAudit AdminHandlers AccessHandlers Reports AdminRoutes.
From S2P Require Import GatewayFrame.
#[local] Open Scope Z_scope.

Module AdminFrame.
Import Http RequestLogs AdminAudit AdminHandlers AccessHandlers Reports AdminRoutes.

Section combinators.
Context (P : DB → DB → Prop) `{!PreOrder P}.

Lemma keeps_RespondError cx e : keeps P (RespondError cx e).
Proof. unfold RespondError. destruct (normalizeError e) as [[]]. keeps. Qed.
Lemma keeps_reply status value : keeps P (reply status value).
Proof. unfold reply. keeps. Qed.
Lemma keeps_replyAudited status value info : keeps P (replyAudited status value info).
Proof. unfold replyAudited. keeps. Qed.
Lemma keeps_itemsReply items : keeps P (itemsReply items).
Proof. apply keeps_reply. Qed.
Lemma keeps_abortUnauthorized cx : keeps P (abortUnauthorized cx).
Proof. unfold abortUnauthorized, abortWithError. keeps. Qed.
Lemma keeps_abortWithError cx status code message : keeps P (abortWithError cx status code message).
Proof. unfold abortWithError. keeps. Qed.
End combinators.
#[local] Hint Resolve keeps_RespondError keeps_reply keeps_replyAudited keeps_itemsReply keeps_abortUnauthorized
  keeps_abortWithError : keeps.

Section handlers.
Context (P : DB → DB → Prop) `{!PreOrder P}.

Lemma keeps_asAdmin handler cx :
  (∀ principal, cx.(cx_Admin) = Some principal → keeps P (handler principal cx)) → keeps P (asAdmin handler cx).
Proof. intros Hh. unfold asAdmin. destruct (cx_Admin cx); [by apply Hh|keeps]. Qed.

Lemma keeps_binding {A} decode (handler : A → Handler) cx :
  (∀ request, keeps P (handler request cx)) → keeps P (binding decode handler cx).
Proof. intros Hh. unfold binding. destruct (ShouldBindJSON decode cx); [apply Hh|keeps]. Qed.

Lemma keeps_pathID {RP : RequestParsing} name handler cx :
  (∀ id, keeps P (handler id cx)) → keeps P (pathID name handler cx).
Proof. intros Hh. unfold pathID. destruct (uuidParse _); [apply Hh|keeps]. Qed.

Lemma keeps_listing {A} (fetch : uuid → M (list A)) item cx :
  (∀ orgID, keeps P (fetch orgID)) → keeps P (listing fetch item cx).
Proof. intros Hf. unfold listing. apply keeps_asAdmin. intros principal _. pose proof (Hf (Rbac.at_OrgID principal)). keeps. Qed.

Lemma keeps_parseWindow {TX : ReportText} cx : keeps P (parseWindow cx).
Proof. unfold parseWindow. keeps. Qed.

Lemma keeps_orNoRows {A} (m : M A) e : keeps P m → keeps P (orNoRows m e).
Proof. intros Hm. unfold orNoRows. keeps. Qed.
End handlers.
#[local] Hint Resolve keeps_parseWindow : keeps.

(** ** The handlers that only read *)

Section reads.
Context `{Runtime, AEAD, Net, Transport, Webhooks, Digests}.
Context {TX : ReportText} {RP : RequestParsing} {AB : AdminBodies} {CB : AccessBodies}.
Variable percentile_cont : Q → list Z → Q.
Context (s : AdminServices) (P : DB → DB → Prop) `{!PreOrder P}.

Lemma keeps_GetStatus orgID : keeps P (BudgetService.GetStatus orgID).
Proof.
  unfold BudgetService.GetStatus, BudgetService.ListBudgets, BudgetService.statusForBudgetWithCache,
    BudgetService.usageForPeriod, BudgetService.periodWindow, BudgetService.GetBudgetUsedAmount. keeps.
Qed.

Lemma keeps_getMe cx : keeps P (getMe cx).
Proof.
  unfold getMe, GetOrganization, AdminTokens.GetAdminToken, respondAdminReadError, meReply.
  apply keeps_asAdmin; [done|]. intros principal _. keeps.
Qed.

Lemma keeps_listPricingVersions cx : keeps P (listPricingVersions cx).
Proof.
  unfold listPricingVersions. apply keeps_asAdmin; [done|]. intros principal _. apply keeps_pathID; [done|]. intros id.
  unfold Pricing.ListModelPricingVersions, orNoRows, GetModel, respondPricingServiceError. keeps.
Qed.

Lemma keeps_List cx : keeps P (RequestLogs.List cx).
Proof. unfold RequestLogs.List. keeps. Qed.

Lemma keeps_Summary cx : keeps P (Summary cx).
Proof.
  unfold Summary, summaryByProvider, summaryByModel, summaryByAPIKey, summaryBy, summaryName, GetProvider, GetModel,
    APIKeyQuota.GetAPIKey. keeps.
Qed.

Lemma keeps_analyticsHandler {A} (fetch : uuid → Z → Z → DB → result (list A)) item cx : keeps P (analyticsHandler fetch item cx).
Proof. unfold analyticsHandler, analyticsRequest. keeps. Qed.

Lemma keeps_listAuditLogs cx : keeps P (listAuditLogs cx).
Proof.
  unfold listAuditLogs. apply keeps_asAdmin; [done|]. intros principal _.
  destruct (parseBoundedInt32 cx "limit" _ _); [|keeps]. destruct (parseBoundedInt32 cx "offset" _ _); [|keeps].
  apply keeps_listing; [done|]. intros orgID. unfold List. keeps.
Qed.

Lemma keeps_listCacheEvents cx : keeps P (listCacheEvents cx).
Proof.
  unfold listCacheEvents. apply keeps_asAdmin; [done|]. intros principal _.
  apply keeps_bind; [done|apply keeps_parseWindow; done|]. intros [window|e]; [|keeps].
  destruct (parseBoundedInt32 cx "limit" _ _); [|keeps]. apply keeps_listing; [done|]. intros orgID. unfold ListCacheEvents. keeps.
Qed.

Lemma keeps_listDeliveries cx : keeps P (listBudgetAlertDeliveries cx).
Proof.
  unfold listBudgetAlertDeliveries. apply keeps_asAdmin; [done|]. intros principal _.
  destruct (deliveriesLimit cx); [|keeps]. apply keeps_listing; [done|]. intros orgID. unfold BudgetAlerts.ListDeliveries. keeps.
Qed.

(** A route that is fetched writes nothing. *)
Lemma reads_keep route cx :
  route ∈ adminRoutes percentile_cont s → route.(ro_Method) = "GET" → keeps P (route.(ro_Handler) cx).
Proof.
  intros Hin Hget. unfold adminRoutes, meRoutes, memberRoutes, tokenRoutes, configRoutes, viewRoutes in Hin. simpl in Hin.
  repeat (apply elem_of_cons in Hin as [->|Hin]; [simpl in Hget |- *; try discriminate Hget|]);
    [..|by apply not_elem_of_nil in Hin];
    first [apply keeps_getMe|apply keeps_listPricingVersions|apply keeps_List|apply keeps_Summary|apply keeps_analyticsHandler
          |apply keeps_listAuditLogs|apply keeps_listCacheEvents|apply keeps_listDeliveries
          |apply keeps_listing; [done|]; intros orgID; first [apply keeps_GetStatus|idtac]].
  all: unfold Sessions.ListMembers, APIKeys.ListAPIKeys, Providers.ListProviders, Providers.ListModels, Routing.ListRoutePolicies,
    BudgetService.ListBudgets, BudgetAlerts.ListAlerts, Anomaly.ListPolicies, PolicyService.ListContentPolicies; keeps.
Qed.
End reads.
End AdminFrame.
