(* ===== verification/AdminGuard.v ===== *)
(** * Who gets past the guards of the administrative routes

    A bearer token is looked up by its hashes; what it was found to be decides
    who the request speaks for, and the permission of the route whether the
    handler runs. *)

From Stdlib Require Import QArith.
From S2P Require Import Prelude GoTime GoStrings Encodings Costing Store ExampleWorld QuotaService Tokens ApiKeys.
From S2P Require Import Rbac AdminTokens Sessions MagicLinks.
From S2P Require Import Secrets Outbound HttpClient Limits BudgetService AnomalyService Routing ContentPolicy Pricing Metering BudgetAlerts.
From S2P Require Import RateLimit Float64 GatewayBase Providers Caches HttpServer RequestLogs AdminAudit AdminHandlers AccessHandlers Reports AdminRoutes.
From S2P Require Import GatewayFrame AdminFrame.
#[local] Open Scope Z_scope.

Module AdminGuard.
Import Http AdminAudit AdminHandlers AccessHandlers AdminRoutes AdminFrame.

Section guard.
Context `{Runtime, AEAD, Net, Transport, Webhooks, Digests}.
Context {TX : ReportText} {RP : RequestParsing} {AB : AdminBodies} {CB : AccessBodies}.

(** A row carries a hash of a token, under a secret of the ring. *)
Definition hashed (ring : TokenHashKeyRing) (token rowHash : string) : Prop :=
  ∃ v k, ring.(hashers) !! v = Some k ∧ rowHash = hash k token.

(** The common shape of both authentications. *)
Lemma bearer_cases {R A} (tbl : DB → list R) (hashOf : R → string) (usable : R → bool) (expired : R → Z → bool)
    (touch : R → Z → DB → result (unit * DB)) (principal : R → A) (refused : err) ring token w r w' :
  (hashes ← CandidateHashes ring token;
   found ← firstByHash (λ h, query (row_by_hash tbl hashOf h)) hashes;
   match found with
   | None => fail refused
   | Some x =>
       if negb (usable x) then fail refused
       else now ← clock; if expired x now then fail refused else _ ← stmt (touch x now); mret (principal x)
   end) w = (r, w') →
  w_clock w' = w_clock w ∧
  match r with
  | Ok p => ∃ x, x ∈ tbl (w_db w) ∧ hashed ring token (hashOf x) ∧ usable x = true ∧ expired x (w_now w) = false ∧
      p = principal x ∧ touch x (w_now w) (w_db w) = Ok (tt, w_db w')
  | Err _ => w_db w' = w_db w
  end.
Proof.
  intros Hr. destruct (CandidateHashes_run ring token w) as (hs & Hc & Hhs).
  set (w1 := set_fresh _ w) in Hc. rewrite (bind_run _ _ _ _ _ Hc) in Hr. clear Hc.
  assert (Hq : ∀ h, quiet (query (row_by_hash tbl hashOf h))) by (intros; apply quiet_query).
  apply bind_cases in Hr as [(found & w2 & Hf & Hr)|(e & Hf & ->)].
  2: { quiet_facts Hf. split; [exact Hclk|exact Hdb]. }
  quiet_facts Hf. change (w_db w2 = w_db w) in Hdb. change (w_now w2 = w_now w) in Hnow. change (w_clock w2 = w_clock w) in Hclk.
  destruct found as [x|]; [|unfold fail in Hr; by injection Hr as <- <-].
  apply firstByHash_ok in Hf as (h & Hh & Hx). apply pg_one_ok in Hx as [Hx Eh]. apply String.eqb_eq in Eh.
  apply Hhs in Hh as (v & k & Hv & ->).
  destruct (usable x) eqn:Eu; simpl in Hr; [|unfold fail in Hr; by injection Hr as <- <-].
  clock_step Hr now. rewrite Hnow in Enow. subst now.
  destruct (expired x (w_now w)) eqn:Ex; [unfold fail in Hr; injection Hr as <- <-; split; congruence|].
  apply bind_cases in Hr as [([] & w4 & Hs & Hr)|(e & Hs & ->)]; pose proof (stmt_clock _ _ _ _ Hs) as Hc4; apply stmt_cases in Hs.
  - injection Hr as <- <-. split; [congruence|]. exists x. rewrite Hdb0, Hdb in Hs. split_and!; try done. by exists v, k.
  - destruct Hs as [Hs _]. split; congruence.
Qed.

(** Who a token speaks for at an instant: a service, or a member. *)
Definition speaks (ring : TokenHashKeyRing) (token : string) (d : DB) (now : Z) (p : Rbac.AdminTokenPrincipal) : Prop :=
  (∃ t, t ∈ d.(admin_tokens) ∧ hashed ring (TrimSpace token) t.(AdminToken_TokenHash) ∧ t.(AdminToken_Status) = "active" ∧
     match t.(AdminToken_ExpiresAt) with Some e => now < e | None => True end ∧ p = AdminTokens.servicePrincipal t) ∨
  (∃ r, r ∈ Sessions.session_rows d ∧ hashed ring (TrimSpace token) (Sessions.session_hash r) ∧ Sessions.usable r = true ∧
     now < r.(Sessions.sr_Session).(UserSession_ExpiresAt) ∧ p = Sessions.userPrincipal r).

(** The only trace of being let in: when the credential was last used. *)
Definition touched (orgID : uuid) (d d' : DB) : Prop :=
  (∃ id now, AdminTokens.touch_admin_token orgID id now d = Ok (tt, d')) ∨
  (∃ id now, Sessions.touch_user_session orgID id now d = Ok (tt, d')).

Definition let_in (ring : TokenHashKeyRing) (token : string) (w : world) (r : result Rbac.AdminTokenPrincipal) (w' : world) : Prop :=
  w_clock w' = w_clock w ∧
  match r with
  | Ok p => (∃ n, speaks ring token (w_db w) (w_clock w n) p) ∧ touched p.(Rbac.at_OrgID) (w_db w) (w_db w')
  | Err _ => w_db w' = w_db w
  end.

Lemma AdminTokens_let_in ring token w r w' : AdminTokens.Authenticate ring token w = (r, w') → let_in ring token w r w'.
Proof.
  unfold AdminTokens.Authenticate, let_in. intros Hr. destruct (String.eqb _ _); [by injection Hr as <- <-|].
  unfold AdminTokens.GetAdminTokenByHash in Hr.
  apply (bearer_cases admin_tokens AdminToken_TokenHash (λ t, String.eqb t.(AdminToken_Status) "active")
    (λ t now, match t.(AdminToken_ExpiresAt) with Some t => t <=? now | None => false end)
    (λ t now, AdminTokens.touch_admin_token t.(AdminToken_OrgID) t.(AdminToken_ID) now) AdminTokens.servicePrincipal) in Hr as [Hc Hr].
  split; [done|]. destruct r as [p|e]; [|done]. destruct Hr as (t & Ht & Hh & Ha & Hx & -> & Hd).
  apply String.eqb_eq in Ha. split.
  - exists (w_tick w). left. exists t. split_and!; try done. destruct (AdminToken_ExpiresAt t); [|done]. by apply Z.leb_gt.
  - left. eauto.
Qed.

Lemma Sessions_let_in ring token w r w' : Sessions.Authenticate ring token w = (r, w') → let_in ring token w r w'.
Proof.
  unfold Sessions.Authenticate, let_in. intros Hr. destruct (String.eqb _ _); [by injection Hr as <- <-|].
  apply (bearer_cases Sessions.session_rows Sessions.session_hash Sessions.usable
    (λ r now, r.(Sessions.sr_Session).(UserSession_ExpiresAt) <=? now)
    (λ r now, Sessions.touch_user_session r.(Sessions.sr_Session).(UserSession_OrgID) r.(Sessions.sr_Session).(UserSession_ID) now)
    Sessions.userPrincipal) in Hr as [Hc Hr].
  split; [done|]. destruct r as [p|e]; [|done]. destruct Hr as (x & Hx & Hh & Hu & He & -> & Hd).
  split; [|right; simpl; eauto]. exists (w_tick w). right. exists x. split_and!; try done. by apply Z.leb_gt.
Qed.

Lemma AdminAuthenticate_let_in ring token w r w' : AdminAuthenticate ring token w = (r, w') → let_in ring token w r w'.
Proof.
  unfold AdminAuthenticate. intros Hr. destruct (HasPrefix token AdminTokens.AdminTokenPlainPrefix); [by apply AdminTokens_let_in|].
  destruct (HasPrefix token Sessions.SessionPlainPrefix); [by apply Sessions_let_in|].
  apply bind_cases in Hr as [(r1 & w1 & Ht & Hr)|(e & Ht & ->)]; [|by apply try_never in Ht].
  apply try_ok, AdminTokens_let_in in Ht. destruct r1 as [p|e]; [by injection Hr as <- <-|].
  destruct Ht as [Hc Hd]. apply Sessions_let_in in Hr. unfold let_in in *. by rewrite Hc, Hd in Hr.
Qed.

(** ** The routes *)

Context (percentile_cont : Q → list Z → Q) (s : AdminServices).

Definition permitted (route : Route) (p : Rbac.AdminTokenPrincipal) : bool :=
  match route.(ro_Needs) with None => true | Some allowed => allowed p end.

(** What a request's token was found to be. *)
Definition identified (rq : Request) (w : world) (p : Rbac.AdminTokenPrincipal) : Prop :=
  ∃ token n, bearerToken (rq.(rq_Header) "Authorization") = Some token ∧ speaks s.(ad_ring) token (w_db w) (w_clock w n) p.

Lemma Recovery_world (next : Handler) cx w : (Recovery next cx w).2 = (next cx w).2.
Proof. unfold Recovery. by destruct (next cx w) as [[] ?]. Qed.

Lemma Audited_same (next next' : Handler) cx w : next cx w = next' cx w → Audited next cx w = Audited next' cx w.
Proof. unfold Audited, mbind, M_bind. by intros ->. Qed.

(** A request to an administrative route: turned away, let in but not
    permitted, or handled and recorded. *)
Lemma adminServed_cases route rq w :
  let w' := (served (adminHandler s route) rq w).2 in
  w_db w' = w_db w ∨
  ∃ p w1, identified rq w p ∧ touched p.(Rbac.at_OrgID) (w_db w) (w_db w1) ∧
    (w_db w' = w_db w1 ∨
     permitted route p = true ∧
     ∃ cx, cx.(cx_Admin) = Some p ∧ cx.(cx_Request) = rq ∧ w_db w' = w_db (Audited route.(ro_Handler) cx w1).2).
Proof.
  intros w'. unfold w', served, RequestID, newContext. simpl.
  assert (Hmain : ∀ id wa, w_db wa = w_db w → w_clock wa = w_clock w →
    let wz := (RequestBodyLimit defaultMaxRequestBodyBytes (Recovery (adminHandler s route)) (mkContext rq id None None 0) wa).2 in
    w_db wz = w_db w ∨
    ∃ p w1, identified rq w p ∧ touched p.(Rbac.at_OrgID) (w_db w) (w_db w1) ∧
      (w_db wz = w_db w1 ∨
       permitted route p = true ∧
       ∃ cx, cx.(cx_Admin) = Some p ∧ cx.(cx_Request) = rq ∧ w_db wz = w_db (Audited route.(ro_Handler) cx w1).2)).
  { intros id wa Hd Hc. unfold RequestBodyLimit. rewrite Recovery_world.
    unfold adminHandler, AdminAuth. simpl.
    destruct (bearerToken (rq_Header rq "Authorization")) as [token|] eqn:Et; [|by left].
    unfold mbind, M_bind, try. destruct (AdminAuthenticate (ad_ring s) token wa) as [r w1] eqn:Ea.
    apply AdminAuthenticate_let_in in Ea as [Hc1 Hr]. simpl. destruct r as [p|e]; [|left; simpl; congruence].
    rewrite Hd, Hc in Hr. destruct Hr as [(n & Hs) Htouch]. right. exists p, w1.
    split; [by exists token, n|]. split; [done|].
    unfold guarded, permitted. destruct (ro_Needs route) as [allowed|]; [|right; split; [done|]; eexists; split_and!; [..|reflexivity]; done].
    set (cx := mkContext rq id None (Some p) _). destruct (allowed p) eqn:Ep; [right|left].
    - split; [done|]. exists cx. split; [done|]. split; [done|]. do 2 f_equal. apply Audited_same.
      unfold RequireAdminPermission. simpl. by rewrite Ep.
    - rewrite (Audited_same _ (λ cx, abortWithError cx 403 CodeForbidden "forbidden")).
      + unfold Audited, abortWithError, mbind, M_bind. simpl. by rewrite orb_true_r.
      + unfold RequireAdminPermission. simpl. by rewrite Ep. }
  destruct (String.eqb _ _); [|by apply Hmain]. by apply Hmain.
Qed.

(** Owners and administrators manage; of the services, those with a scope to. *)
Definition manager (p : Rbac.AdminTokenPrincipal) : Prop :=
  if Rbac.IsServiceToken p then
    Rbac.HasScope p Rbac.AdminScopeMembersManage || Rbac.HasScope p Rbac.AdminScopeTokensManage
    || Rbac.HasScope p Rbac.AdminScopeConfigurationManage = true
  else p.(Rbac.at_Role) = Rbac.RoleOwner ∨ p.(Rbac.at_Role) = Rbac.RoleAdmin.

Lemma manager_members p : Rbac.CanManageMembers p = true → manager p.
Proof.
  unfold Rbac.CanManageMembers, manager. destruct (Rbac.IsServiceToken p); [|intros Hr; left; by apply String.eqb_eq].
  intros Hr. by rewrite Hr.
Qed.
Lemma manager_tokens p : Rbac.CanManageTokens p = true → manager p.
Proof.
  unfold Rbac.CanManageTokens, manager. destruct (Rbac.IsServiceToken p); [|intros Hr; left; by apply String.eqb_eq].
  intros Hr. by rewrite Hr, orb_true_r.
Qed.
Lemma manager_configuration p : Rbac.CanManageConfiguration p = true → manager p.
Proof.
  unfold Rbac.CanManageConfiguration, manager. destruct (Rbac.IsServiceToken p).
  - intros Hr. by rewrite Hr, orb_true_r.
  - rewrite orb_true_iff, !String.eqb_eq. done.
Qed.

(** A route that is not fetched needs a manager. *)
Lemma writes_need_manager route p :
  route ∈ adminRoutes percentile_cont s → route.(ro_Method) ≠ "GET" → permitted route p = true → manager p.
Proof.
  intros Hin Hget Hp. unfold adminRoutes, meRoutes, memberRoutes, tokenRoutes, configRoutes, viewRoutes in Hin. simpl in Hin.
  repeat (apply elem_of_cons in Hin as [->|Hin]; [simpl in Hget; try (by destruct Hget)|]);
    [..|by apply not_elem_of_nil in Hin];
    first [exact (manager_members p Hp)|exact (manager_tokens p Hp)|exact (manager_configuration p Hp)].
Qed.

(** A request that is fetched is not recorded. *)
Lemma Audited_get (next : Handler) cx w :
  isAdminMutation cx.(cx_Request).(rq_Method) = false → w_db (Audited next cx w).2 = w_db (next cx w).2.
Proof. intros Hm. unfold Audited, mbind, M_bind. rewrite Hm. by destruct (next cx w) as [[]]. Qed.

(** C6: only managers change anything. Whatever request an administrative route
    serves, the database is afterwards as it was, up to the time the credential
    that was presented was last used, unless the route is not one that is
    fetched and the bearer token is that of an active, unexpired service token or
    session, of the tenant it belongs to, with the permission of the route: a
    service token with a scope to manage, or a member who is an owner or an
    administrator now. In particular a viewer, a token without scopes and a
    request without credentials change nothing. *)
Theorem only_managers_change (route : Route) (rq : Request) (w : world) :
  route ∈ adminRoutes percentile_cont s → rq.(rq_Method) = route.(ro_Method) →
  let d' := w_db (served (adminHandler s route) rq w).2 in
  d' = w_db w ∨
  ∃ p, identified rq w p ∧
    (touched p.(Rbac.at_OrgID) (w_db w) d' ∨ route.(ro_Method) ≠ "GET" ∧ permitted route p = true ∧ manager p).
Proof.
  intros Hin Hm d'. unfold d'. destruct (adminServed_cases route rq w) as [->|(p & w1 & Hi & Ht & Hrest)]; [by left|right].
  exists p. split; [done|]. destruct Hrest as [->|(Hp & cx & Hcx & Hrq & ->)]; [by left|].
  destruct (String.eqb_spec (ro_Method route) "GET") as [Hget|Hget].
  - left. rewrite Audited_get by by rewrite Hrq, Hm, Hget.
    destruct (reads_keep percentile_cont s eq route cx Hin Hget w1) as [<- _]. exact Ht.
  - right. split; [done|]. split; [done|]. by apply (writes_need_manager route).
Qed.
End guard.
End AdminGuard.
