(* ===== verification/AdminIsolation.v ===== *)
(** * The administrative routes keep the tenants apart

    What a request under [/api/v1/admin] may change belongs to the tenant its
    credential belongs to: [isolated o d d'] says that the rows of every other
    tenant, and the organisations, are in [d'] what they were in [d], and of the
    users, whom the tenants share, that some were added or renamed. *)

From Stdlib Require Import QArith.
From S2P Require Import Prelude GoTime GoStrings Encodings Costing Store ExampleWorld QuotaService Tokens ApiKeys.
From S2P Require Import Rbac AdminTokens Sessions MagicLinks.
From S2P Require Import Secrets Outbound HttpClient Limits BudgetService AnomalyService Routing ContentPolicy Pricing Metering BudgetAlerts.
From S2P Require Import RateLimit Float64 GatewayBase Providers Caches HttpServer RequestLogs AdminAudit AdminHandlers AccessHandlers Reports AdminRoutes.
From S2P Require Import GatewayFrame AdminFrame AdminGuard.
#[local] Open Scope Z_scope.

Module AdminIsolation.
Import Tokens Secrets Http AdminAudit AdminHandlers AccessHandlers AdminRoutes AdminFrame AdminGuard.

(** The rows of the other tenants. *)
Definition others {R} (orgOf : R → uuid) (o : uuid) (rows : list R) : list R :=
  List.filter (λ r, negb (orgOf r =? o)%N) rows.

Definition foreign (o : uuid) (d : DB) : DB :=
  mkDB (others Budget_OrgID o d.(budgets)) (others ApiKey_OrgID o d.(api_keys))
    (others RequestLog_OrgID o d.(request_logs)) (others UsageRecord_OrgID o d.(usage_records))
    (others CostRecord_OrgID o d.(cost_records))
    (others ModelPricingVersion_OrgID o d.(model_pricing_versions)) (others Model_OrgID o d.(models))
    (others Provider_OrgID o d.(providers)) (others RoutePolicy_OrgID o d.(route_policies))
    (others RouteTarget_OrgID o d.(route_targets)) (others ContentPolicy_OrgID o d.(content_policies))
    (others CostAnomalyPolicy_OrgID o d.(cost_anomaly_policies))
    (others CostLimitCounter_OrgID o d.(cost_limit_counters))
    (others CostReservation_OrgID o d.(cost_reservations)) (others CacheEvent_OrgID o d.(cache_events))
    d.(organizations) [] (others OrgMembership_OrgID o d.(org_memberships))
    (others UserSession_OrgID o d.(user_sessions)) (others MagicLinkToken_OrgID o d.(magic_link_tokens))
    (others AdminToken_OrgID o d.(admin_tokens)) (others ProviderSecret_OrgID o d.(provider_secrets))
    (others BudgetAlert_OrgID o d.(budget_alerts))
    (others BudgetAlertDelivery_OrgID o d.(budget_alert_deliveries))
    (others AdminAuditLog_OrgID o d.(admin_audit_logs)).
(** Everything of a user but the name that is shown and when it was set. *)
Definition same_user (u v : User) : Prop :=
  u.(User_ID) = v.(User_ID) ∧ u.(User_Email) = v.(User_Email) ∧ u.(User_Status) = v.(User_Status) ∧
  u.(User_CreatedAt) = v.(User_CreatedAt).

Definition users_kept (us us' : list User) : Prop := ∃ vs more, us' = vs ++ more ∧ Forall2 same_user us vs.

Definition isolated (o : uuid) (d d' : DB) : Prop := foreign o d' = foreign o d ∧ users_kept d.(users) d'.(users).

#[export] Instance same_user_equiv : Equivalence same_user.
Proof. split; unfold same_user; [done|intros u v (? & ? & ? & ?); split_and!; congruence|intros u v z (? & ? & ? & ?) (? & ? & ? & ?); split_and!; congruence]. Qed.

Lemma users_kept_refl us : users_kept us us.
Proof. exists us, []. split; [by rewrite app_nil_r|done]. Qed.

#[export] Instance isolated_preorder o : PreOrder (isolated o).
Proof.
  split; [intros d; split; [done|apply users_kept_refl]|].
  intros d1 d2 d3 [H1 (vs & more & E1 & F1)] [H2 (vs' & more' & E2 & F2)]. split; [congruence|].
  rewrite E1 in F2. apply Forall2_app_inv_l in F2 as (l1 & l2 & F3 & F4 & ->).
  exists l1, (l2 ++ more'). rewrite app_assoc. split; [done|]. by etrans.
Qed.

(** ** Statements that only touch a tenant's own rows *)

Section others.
Context {R : Type} (orgOf : R → uuid) (o : uuid).

Lemma others_snoc rows r : orgOf r = o → others orgOf o (rows ++ [r]) = others orgOf o rows.
Proof. intros Hr. unfold others. rewrite List.filter_app. simpl. by rewrite Hr, N.eqb_refl, app_nil_r. Qed.

Lemma others_map (p : R → bool) (g : R → R) rows :
  (∀ r, p r = true → orgOf r = o) → (∀ r, orgOf (g r) = orgOf r) →
  others orgOf o (map (λ r, if p r then g r else r) rows) = others orgOf o rows.
Proof.
  intros Hp Hg. unfold others. induction rows as [|r rows IH]; simpl; [done|]. destruct (p r) eqn:E; [|by rewrite IH].
  rewrite Hg, (Hp r E), N.eqb_refl. done.
Qed.
End others.

(** A run of a statement, down to the row and the database it gives. *)
Ltac run_sql H :=
  lazymatch type of H with
  | _ ≫= _ = Ok _ => let a := fresh "a" in let Ha := fresh "Ha" in apply result_bind_ok in H as (a & Ha & H); run_sql H
  | Ok _ = Ok _ => injection H as <- <-
  end.
Ltac own_rows := split; [unfold foreign; simpl; f_equal|apply users_kept_refl].

Section statements.
Context (o : uuid).

Lemma isolated_api_key k d x d' : k.(ApiKey_OrgID) = o → APIKeys.insert_api_key k d = Ok (x, d') → isolated o d d'.
Proof. unfold APIKeys.insert_api_key. intros Ho Hr. run_sql Hr. own_rows. by apply others_snoc. Qed.

Lemma isolated_revoke id now d x d' : APIKeys.revoke_key o id now d = Ok (x, d') → isolated o d d'.
Proof.
  unfold APIKeys.revoke_key. intros Hr. run_sql Hr. own_rows. apply others_map; [|done]. intros r Hr.
  unfold APIKeys.is_key in Hr. by eqb_to_prop.
Qed.

Lemma isolated_provider p d x d' : p.(Provider_OrgID) = o → Providers.insert_provider p d = Ok (x, d') → isolated o d d'.
Proof. unfold Providers.insert_provider. intros Ho Hr. run_sql Hr. own_rows. by apply others_snoc. Qed.

Lemma isolated_secret s d x d' : s.(ProviderSecret_OrgID) = o → Providers.upsert_provider_secret s d = Ok (x, d') → isolated o d d'.
Proof.
  unfold Providers.upsert_provider_secret. intros Ho Hr. apply result_bind_ok in Hr as (u & _ & Hr).
  destruct (find _ _); run_sql Hr; own_rows; [|by apply others_snoc].
  apply others_map; [|done]. intros r Hr. unfold Providers.secret_of in Hr. eqb_to_prop. congruence.
Qed.

Lemma isolated_health id status now code message d x d' :
  Providers.update_provider_health o id status now code message d = Ok (x, d') → isolated o d d'.
Proof.
  unfold Providers.update_provider_health. intros Hr. run_sql Hr. own_rows.
  apply (pg_update_rows _ _ (Providers.checked status now code message)) in Ha as ->.
  - apply others_map; [|done]. intros r Hr. unfold Providers.is_provider in Hr. by eqb_to_prop.
  - intros r r' Hr. by apply result_bind_ok in Hr as (_ & _ & [= <-]).
Qed.

Lemma isolated_model m d x d' : m.(Model_OrgID) = o → Pricing.insert_model m d = Ok (x, d') → isolated o d d'.
Proof. unfold Pricing.insert_model. intros Ho Hr. run_sql Hr. own_rows. by apply others_snoc. Qed.

Lemma isolated_version p d x d' : p.(ModelPricingVersion_OrgID) = o → Pricing.insert_pricing_version p d = Ok (x, d') → isolated o d d'.
Proof. unfold Pricing.insert_pricing_version. intros Ho Hr. run_sql Hr. own_rows. by apply others_snoc. Qed.

Lemma isolated_supersede id now d x d' : Pricing.supersede_active o id now d = Ok (x, d') → isolated o d d'.
Proof.
  unfold Pricing.supersede_active. intros Hr. run_sql Hr. own_rows.
  apply (pg_update_rows _ _ (Pricing.superseded now)) in Ha as ->.
  - apply others_map; [|done]. intros r Hr. unfold Pricing.active_version, Pricing.of_model in Hr. by eqb_to_prop.
  - intros r r' Hr. by apply result_bind_ok in Hr as (_ & _ & [= <-]).
Qed.

Lemma isolated_reprice id input output now d x d' : Pricing.update_model_pricing o id input output now d = Ok (x, d') → isolated o d d'.
Proof.
  unfold Pricing.update_model_pricing. intros Hr. run_sql Hr. own_rows.
  apply (pg_update_rows _ _ (Pricing.priced input output now)) in Ha as ->.
  - apply others_map; [|done]. intros r Hr. unfold Pricing.is_model in Hr. by eqb_to_prop.
  - intros r r' Hr. by apply result_bind_ok in Hr as (_ & _ & [= <-]).
Qed.

Lemma isolated_route_policy p d x d' : p.(RoutePolicy_OrgID) = o → Routing.insert_route_policy p d = Ok (x, d') → isolated o d d'.
Proof. unfold Routing.insert_route_policy. intros Ho Hr. run_sql Hr. own_rows. by apply others_snoc. Qed.

Lemma isolated_route_target t d x d' : t.(RouteTarget_OrgID) = o → Routing.insert_route_target t d = Ok (x, d') → isolated o d d'.
Proof. unfold Routing.insert_route_target. intros Ho Hr. run_sql Hr. own_rows. by apply others_snoc. Qed.

Lemma isolated_budget b d x d' : b.(Budget_OrgID) = o → BudgetService.insert_budget b d = Ok (x, d') → isolated o d d'.
Proof. unfold BudgetService.insert_budget. intros Ho Hr. run_sql Hr. own_rows. by apply others_snoc. Qed.

Lemma isolated_alert a d x d' : a.(BudgetAlert_OrgID) = o → BudgetAlerts.insert_alert a d = Ok (x, d') → isolated o d d'.
Proof. unfold BudgetAlerts.insert_alert. intros Ho Hr. run_sql Hr. own_rows. by apply others_snoc. Qed.

Lemma isolated_policy p d x d' : p.(CostAnomalyPolicy_OrgID) = o → Anomaly.insert_policy p d = Ok (x, d') → isolated o d d'.
Proof. unfold Anomaly.insert_policy. intros Ho Hr. run_sql Hr. own_rows. by apply others_snoc. Qed.

Lemma isolated_content_policy p d x d' : p.(ContentPolicy_OrgID) = o → PolicyService.insert_content_policy p d = Ok (x, d') → isolated o d d'.
Proof. unfold PolicyService.insert_content_policy. intros Ho Hr. run_sql Hr. own_rows. by apply others_snoc. Qed.

Lemma isolated_audit l d x d' : l.(AdminAuditLog_OrgID) = o → insert_audit_log l d = Ok (x, d') → isolated o d d'.
Proof. unfold insert_audit_log. intros Ho Hr. run_sql Hr. own_rows. by apply others_snoc. Qed.

Lemma isolated_membership m d x d' : m.(OrgMembership_OrgID) = o → Sessions.upsert_membership m d = Ok (x, d') → isolated o d d'.
Proof.
  unfold Sessions.upsert_membership. intros Ho Hr. apply result_bind_ok in Hr as (u & _ & Hr).
  destruct (find _ _); run_sql Hr; own_rows; [|by apply others_snoc].
  apply others_map; [|done]. intros r Hr. unfold Sessions.same_member in Hr. eqb_to_prop. congruence.
Qed.

Lemma isolated_touch d d' : touched o d d' → isolated o d d'.
Proof.
  intros [(id & now & Hr)|(id & now & Hr)].
  - unfold AdminTokens.touch_admin_token in Hr. injection Hr as <-. own_rows.
    apply others_map; [|done]. intros r Hr. by eqb_to_prop.
  - unfold Sessions.touch_user_session in Hr. injection Hr as <-. own_rows.
    apply others_map; [|done]. intros r Hr. unfold Sessions.is_session in Hr. by eqb_to_prop.
Qed.

(** A user is added, or has another name from now on. *)
Lemma isolated_user u d x d' : Sessions.upsert_user u d = Ok (x, d') → isolated o d d'.
Proof.
  unfold Sessions.upsert_user. intros Hr. apply result_bind_ok in Hr as (c & _ & Hr).
  destruct (find _ _); run_sql Hr; (split; [done|]); simpl; unfold users_kept.
  - eexists _, []. split; [by rewrite app_nil_r|]. induction (users d) as [|v vs IH]; simpl; constructor; [|done].
    by destruct (String.eqb _ _).
  - by exists (users d), [u].
Qed.
End statements.

(** A handler or a method, down to its statements on the tenant's rows. *)
Ltac isolate_stmt := apply keeps_stmt; [apply _|]; let d := fresh in let x := fresh in let d' := fresh in intros d x d';
  first
  [ apply isolated_api_key | apply isolated_revoke | apply isolated_provider | apply isolated_secret | apply isolated_health
  | apply isolated_model | apply isolated_version | apply isolated_supersede | apply isolated_reprice | apply isolated_route_policy
  | apply isolated_route_target | apply isolated_budget | apply isolated_alert | apply isolated_policy
  | apply isolated_content_policy | apply isolated_audit | apply isolated_membership | apply isolated_user ].
Ltac isolate := repeat (keeps_step || (solve [eauto with keeps nocore]) || isolate_stmt || reflexivity).

(** ** The services *)

Section services.
Context `{Runtime, AEAD, Net, Transport, Webhooks}.
Context (o : uuid).

Lemma keeps_generateToken P `{!PreOrder P} prefix : keeps P (generateToken prefix).
Proof. unfold generateToken, rand_Read. keeps. Qed.
Lemma keeps_Seal P `{!PreOrder P} ring plaintext : keeps P (Seal ring plaintext).
Proof. unfold Seal, box_Seal, rand_Read. keeps. Qed.
Lemma keeps_SealWebhookSecret P `{!PreOrder P} ring value : keeps P (SealWebhookSecret ring value).
Proof. unfold SealWebhookSecret. pose proof (keeps_Seal P). keeps. Qed.
#[local] Hint Resolve keeps_generateToken keeps_Seal keeps_SealWebhookSecret : keeps.

Lemma isolated_CreateAPIKey ring params :
  params.(APIKeys.ck_OrgID) = o → keeps (isolated o) (APIKeys.CreateAPIKey ring params).
Proof. intros <-. unfold APIKeys.CreateAPIKey. isolate. Qed.

Lemma isolated_RevokeAPIKey id : keeps (isolated o) (APIKeys.RevokeAPIKey o id).
Proof. unfold APIKeys.RevokeAPIKey, orNoRows. isolate. Qed.

Lemma isolated_CreateProvider s params :
  params.(Providers.cp_OrgID) = o → keeps (isolated o) (Providers.CreateProvider s params).
Proof. intros <-. unfold Providers.CreateProvider, Providers.createProviderTx, ExecTx, ExecTxRaw. isolate. Qed.

Lemma isolated_Check s id : keeps (isolated o) (Providers.Check s o id).
Proof.
  unfold Providers.Check, orNoRows, GetProvider, Providers.checkOpenAICompatible, Providers.GetProviderSecret. isolate.
Qed.

Lemma isolated_CreateInitialVersion model from :
  model.(Model_OrgID) = o → keeps (isolated o) (Pricing.CreateInitialVersionWithQueries model from).
Proof. intros <-. unfold Pricing.CreateInitialVersionWithQueries. isolate. Qed.

Lemma isolated_CreateModel params : params.(Pricing.cm_OrgID) = o → keeps (isolated o) (Pricing.CreateModel params).
Proof.
  intros Ho. unfold Pricing.CreateModel, orNoRows, GetProvider, Pricing.createModelTx, ExecTx, ExecTxRaw.
  do 3 (apply keeps_bind; [apply _|by isolate|intros ?]). apply keeps_tx; [apply _|].
  apply keeps_bind; [apply _|by isolate|intros id]. apply keeps_bind_ok; [apply _|by isolate_stmt|]. intros model w w' Hm.
  apply stmt_ok in Hm. unfold Pricing.insert_model in Hm. do 2 apply result_bind_ok in Hm as (? & _ & Hm). injection Hm as <- _.
  apply keeps_bind; [apply _|by apply isolated_CreateInitialVersion|]. isolate.
Qed.

Lemma isolated_UpdateModelPricing params :
  params.(Pricing.up_OrgID) = o → keeps (isolated o) (Pricing.UpdateModelPricing params).
Proof. intros <-. unfold Pricing.UpdateModelPricing, orNoRows, GetModel, ExecTx, ExecTxRaw. isolate. Qed.

Lemma isolated_CreateRoutePolicy params :
  params.(Routing.rp_OrgID) = o → keeps (isolated o) (Routing.CreateRoutePolicy params).
Proof.
  intros <-. unfold Routing.CreateRoutePolicy, Routing.validateTargetBelongsToOrg, Routing.createTarget, orNoRows, GetProvider,
    GetModel, ExecTx, ExecTxRaw. isolate.
Qed.

Lemma isolated_CreateBudget params :
  params.(BudgetService.cb_OrgID) = o → keeps (isolated o) (BudgetService.CreateBudget params).
Proof. intros <-. unfold BudgetService.CreateBudget. isolate. Qed.

Lemma isolated_CreateAlert s params :
  params.(BudgetAlerts.al_OrgID) = o → keeps (isolated o) (BudgetAlerts.CreateAlert s params).
Proof. intros <-. unfold BudgetAlerts.CreateAlert. isolate. Qed.

Lemma normalized_org params normalized :
  Anomaly.normalizeCreatePolicyParams params = Ok normalized → normalized.(Anomaly.cp_OrgID) = params.(Anomaly.cp_OrgID).
Proof.
  unfold Anomaly.normalizeCreatePolicyParams. intros Hn. case_all Hn.
  do 2 (apply result_bind_ok in Hn as (? & _ & Hn)). by injection Hn as <-.
Qed.

Lemma isolated_CreatePolicy params :
  params.(Anomaly.cp_OrgID) = o → keeps (isolated o) (Anomaly.CreatePolicy params).
Proof.
  intros <-. unfold Anomaly.CreatePolicy. apply keeps_bind_ok; [apply _|by isolate|]. intros normalized w w' [En _]%lift_ok.
  apply normalized_org in En. isolate.
Qed.

Lemma isolated_CreateContentPolicy params :
  params.(PolicyService.cp_OrgID) = o → keeps (isolated o) (PolicyService.CreateContentPolicy params).
Proof. intros <-. unfold PolicyService.CreateContentPolicy. isolate. Qed.

Lemma isolated_UpsertMember store params :
  params.(Sessions.um_OrgID) = o → keeps (isolated o) (Sessions.UpsertMember store params).
Proof.
  intros <-. unfold Sessions.UpsertMember, Sessions.upsertMemberWithQueries, orNoRows, GetOrganization, ExecTx, ExecTxRaw. isolate.
Qed.

Lemma isolated_Record input : input.(ri_OrgID) = o → keeps (isolated o) (Record_ input).
Proof. intros <-. unfold Record_. isolate. Qed.
End services.

(** ** The handlers *)

Section handlers.
Context `{Runtime, AEAD, Net, Transport, Webhooks, Digests}.
Context {TX : ReportText} {RP : RequestParsing} {AB : AdminBodies} {CB : AccessBodies}.
Context (percentile_cont : Q → list Z → Q) (s : AdminServices).
#[local] Hint Resolve keeps_RespondError keeps_reply keeps_replyAudited keeps_itemsReply
  isolated_CreateAPIKey isolated_RevokeAPIKey isolated_CreateProvider isolated_Check isolated_CreateModel
  isolated_UpdateModelPricing isolated_CreateRoutePolicy isolated_CreateBudget isolated_CreateAlert isolated_CreatePolicy
  isolated_CreateContentPolicy isolated_UpsertMember : keeps.
#[local] Hint Extern 1 (@eq uuid _ _) => reflexivity : keeps.

(** What a handler is given: the principal, the ids of the path and the body. *)
Ltac isolate_handler :=
  apply keeps_asAdmin; [apply _|]; intros principal Hp; simplify_eq;
  repeat first [apply keeps_binding; [apply _|]; intros request | apply keeps_pathID; [apply _|]; intros id];
  isolate.

Lemma isolated_handler route cx p :
  route ∈ adminRoutes percentile_cont s → cx.(cx_Admin) = Some p → keeps (isolated p.(Rbac.at_OrgID)) (route.(ro_Handler) cx).
Proof.
  intros Hin Hcx. destruct (String.eqb_spec route.(ro_Method) "GET") as [Hget|Hget]; [apply (reads_keep percentile_cont s); [apply _|done..]|].
  unfold adminRoutes, meRoutes, memberRoutes, tokenRoutes, configRoutes, viewRoutes in Hin. simpl in Hin.
  repeat (apply elem_of_cons in Hin as [->|Hin]; [simpl in Hget |- *; try (by destruct Hget)|]);
    [..|by apply not_elem_of_nil in Hin].
  - unfold createMember. isolate_handler.
  - unfold createAPIKey. isolate_handler.
  - unfold revokeAPIKey. isolate_handler.
  - unfold createProvider, respondProviderServiceError. isolate_handler.
  - unfold checkProviderHealth, respondProviderServiceError. isolate_handler.
  - unfold createModel, respondProviderServiceError. isolate_handler.
  - unfold updatePricing, respondPricingServiceError. isolate_handler.
  - unfold createRoutePolicy, respondRoutingServiceError. isolate_handler.
  - unfold createBudget. isolate_handler.
  - unfold createBudgetAlert. isolate_handler.
  - unfold createAnomalyPolicy. isolate_handler.
  - unfold createContentPolicy. isolate_handler.
Qed.

Lemma isolated_Audited (next : Handler) cx p :
  cx.(cx_Admin) = Some p → keeps (isolated p.(Rbac.at_OrgID)) (next cx) → keeps (isolated p.(Rbac.at_OrgID)) (Audited next cx).
Proof.
  intros Hcx Hn. unfold Audited. apply keeps_bind; [apply _|done|]. intros reply. rewrite Hcx.
  assert (Hr : ∀ info, keeps (isolated p.(Rbac.at_OrgID)) (Record_ (auditEntry cx p info))) by (intros; by apply isolated_Record).
  keeps.
Qed.

(** C7: a tenant's administrators reach only their own tenant. Whatever request
    an administrative route serves, the database is afterwards as it was, or the
    bearer token is that of a service token or a member of some tenant, and every
    row of every other tenant, in each of the tables, and every organisation is
    afterwards as it was and in the same order; of the users, whom the tenants
    share, some may have been added, and the name that is shown changed, but not
    the id, the e-mail address or the status of any that was there. The entry of the
    audit log and the time of last use are among what this bounds. *)
Theorem tenant_isolation (route : Route) (rq : Request) (w : world) :
  route ∈ adminRoutes percentile_cont s →
  let d' := w_db (served (adminHandler s route) rq w).2 in
  d' = w_db w ∨ ∃ p, identified s rq w p ∧ isolated p.(Rbac.at_OrgID) (w_db w) d'.
Proof.
  intros Hin d'. unfold d'. destruct (adminServed_cases s route rq w) as [->|(p & w1 & Hi & Ht & Hrest)]; [by left|right].
  exists p. split; [done|]. apply isolated_touch in Ht. destruct Hrest as [->|(_ & cx & Hcx & _ & ->)]; [done|].
  etrans; [exact Ht|]. by apply isolated_Audited; [|apply isolated_handler].
Qed.
End handlers.
End AdminIsolation.
