(* ===== verification/AdminPrivacy.v ===== *)
(** * What the administrative routes show

    [agrees o d d']: the two databases have the same rows of the tenant [o], in
    the same order: of every table, its organisation and its members' users. A
    computation is [discreet] when it cannot tell two such databases apart: it
    gives the same, changes neither and leaves the rest of the world the same. *)

From Stdlib Require Import QArith.
From S2P Require Import Prelude GoTime GoStrings Encodings Costing Store ExampleWorld QuotaService Tokens ApiKeys.
From S2P Require Import Rbac AdminTokens Sessions MagicLinks.
From S2P Require Import Secrets Outbound HttpClient Limits BudgetService AnomalyService Routing ContentPolicy Pricing Metering BudgetAlerts.
From S2P Require Import RateLimit Float64 GatewayBase Providers Caches Sql HttpServer RequestLogs AdminAudit AdminHandlers AccessHandlers Reports AdminRoutes.
#[local] Open Scope Z_scope.

Module AdminPrivacy.
Import Sql Http RequestLogs AdminAudit AdminHandlers AccessHandlers Reports AdminRoutes.

Definition own {R} (orgOf : R → uuid) (o : uuid) (rows : list R) : list R := List.filter (λ r, (orgOf r =? o)%N) rows.

(** The users that some of the memberships are of. *)
Definition member_users (ms : list OrgMembership) (us : list User) : list User :=
  List.filter (λ u, existsb (λ m, Sessions.user_of m u) ms) us.

Definition mine (o : uuid) (d : DB) : DB :=
  mkDB (own Budget_OrgID o d.(budgets)) (own ApiKey_OrgID o d.(api_keys))
    (own RequestLog_OrgID o d.(request_logs)) (own UsageRecord_OrgID o d.(usage_records))
    (own CostRecord_OrgID o d.(cost_records))
    (own ModelPricingVersion_OrgID o d.(model_pricing_versions)) (own Model_OrgID o d.(models))
    (own Provider_OrgID o d.(providers)) (own RoutePolicy_OrgID o d.(route_policies))
    (own RouteTarget_OrgID o d.(route_targets)) (own ContentPolicy_OrgID o d.(content_policies))
    (own CostAnomalyPolicy_OrgID o d.(cost_anomaly_policies))
    (own CostLimitCounter_OrgID o d.(cost_limit_counters))
    (own CostReservation_OrgID o d.(cost_reservations)) (own CacheEvent_OrgID o d.(cache_events))
    (own Organization_ID o d.(organizations)) (member_users (own OrgMembership_OrgID o d.(org_memberships)) d.(users)) (own OrgMembership_OrgID o d.(org_memberships))
    (own UserSession_OrgID o d.(user_sessions)) (own MagicLinkToken_OrgID o d.(magic_link_tokens))
    (own AdminToken_OrgID o d.(admin_tokens)) (own ProviderSecret_OrgID o d.(provider_secrets))
    (own BudgetAlert_OrgID o d.(budget_alerts))
    (own BudgetAlertDelivery_OrgID o d.(budget_alert_deliveries))
    (own AdminAuditLog_OrgID o d.(admin_audit_logs)).
Definition agrees (o : uuid) (d d' : DB) : Prop := mine o d = mine o d'.

#[export] Instance agrees_equiv o : Equivalence (agrees o).
Proof. unfold agrees. split; [done|by intros d d' ->|by intros d d' d'' -> ->]. Qed.

Definition discreet {A} (o : uuid) (m : M A) : Prop :=
  ∀ w d, agrees o (w_db w) d → m (set_db d w) = ((m w).1, set_db d (m w).2).

(** ** Computations that read *)

Section discreet.
Context (o : uuid).

Lemma set_db_same w : set_db (w_db w) w = w.
Proof. by destruct w. Qed.

Lemma discreet_db {A} (m : M A) w : discreet o m → w_db (m w).2 = w_db w.
Proof.
  intros Hm. specialize (Hm w (w_db w)). rewrite set_db_same in Hm.
  assert (Hd : m w = ((m w).1, set_db (w_db w) (m w).2)) by by apply Hm. by rewrite Hd.
Qed.

Lemma discreet_ret {A} (a : A) : discreet o (mret (M := M) a).
Proof. done. Qed.
Lemma discreet_fail {A} e : discreet o (fail (A := A) e).
Proof. done. Qed.
Lemma discreet_lift {A} (r : result A) : discreet o (lift r).
Proof. done. Qed.
Lemma discreet_clock : discreet o clock.
Proof. done. Qed.
Lemma discreet_bind_ok {A B} (m : M A) (f : A → M B) :
  discreet o m → (∀ a w w', m w = (Ok a, w') → discreet o (f a)) → discreet o (m ≫= f).
Proof.
  intros Hm Hf w d Hd. pose proof (discreet_db m w Hm) as Hdb. unfold mbind, M_bind. rewrite (Hm w d Hd).
  destruct (m w) as [[a|e] w'] eqn:E; simpl in *; [|done]. apply (Hf a w w' E). by rewrite Hdb.
Qed.
Lemma discreet_bind {A B} (m : M A) (f : A → M B) : discreet o m → (∀ a, discreet o (f a)) → discreet o (m ≫= f).
Proof. intros Hm Hf. by apply discreet_bind_ok. Qed.
Lemma discreet_try {A} (m : M A) : discreet o m → discreet o (try m).
Proof. intros Hm w d Hd. unfold try. rewrite (Hm w d Hd). by destruct (m w). Qed.
Lemma discreet_catch {A} (m : M A) : discreet o m → discreet o (catch m).
Proof. intros Hm w d Hd. unfold catch. rewrite (Hm w d Hd). by destruct (m w) as [[a|[]] w']. Qed.
Lemma discreet_orNoRows {A} (m : M A) e : discreet o m → discreet o (orNoRows m e).
Proof.
  intros Hm. unfold orNoRows. apply discreet_bind; [by apply discreet_try|].
  intros [a|[]]; first [apply discreet_ret|apply discreet_fail].
Qed.
Lemma discreet_forM {S A} (l : list A) (body : S → A → M S) :
  (∀ acc x, x ∈ l → discreet o (body acc x)) → ∀ acc, discreet o (forM l acc body).
Proof.
  induction l as [|x l IH]; intros Hb acc; simpl; [apply discreet_ret|].
  apply discreet_bind; [apply Hb; by left|]. intros a. apply IH. intros acc' y Hy. apply Hb. by right.
Qed.

Lemma discreet_query {A} (f : DB → result A) : (∀ d, f (mine o d) = f d) → discreet o (query f).
Proof.
  intros Hf w d Hd. unfold query, stmt, call.
  assert (Hfd : f (w_db w) = f d) by (rewrite <- (Hf d), <- (Hf (w_db w)); by f_equal).
  destruct w as [wd wf wc wt wu wfr wtr]; destruct wf as [|[] l]; simpl in *; rewrite ?Hfd; try done; by destruct (f d).
Qed.
End discreet.

(** Take a handler apart; what is left are the rows it reads. *)
Ltac discreet_step :=
  match goal with
  | |- forall _, _ => intros
  | |- discreet _ (mret _) => apply discreet_ret
  | |- discreet _ (fail _) => apply discreet_fail
  | |- discreet _ (lift _) => apply discreet_lift
  | |- discreet _ clock => apply discreet_clock
  | |- discreet _ (query _) => apply discreet_query
  | |- discreet _ (try _) => apply discreet_try
  | |- discreet _ (catch _) => apply discreet_catch
  | |- discreet _ (orNoRows _ _) => apply discreet_orNoRows
  | |- discreet _ (forM _ _ _) => apply discreet_forM
  | |- discreet _ (_ ≫= _) => apply discreet_bind
  | |- discreet _ (match ?x with _ => _ end) => destruct x
  | |- discreet _ ((match ?x with _ => _ end) _) => destruct x
  | |- discreet _ (let _ := _ in _) => cbv zeta
  end.
Create HintDb discreet discriminated.
Ltac discreet := repeat (discreet_step || (solve [eauto with discreet nocore])).

(** ** Reading a tenant's rows *)

Section rows.
Context {R : Type} (orgOf : R → uuid) (o : uuid).

Lemma filter_own (p : R → bool) rows :
  (∀ r, p r = true → orgOf r = o) → List.filter p (own orgOf o rows) = List.filter p rows.
Proof.
  intros Hp. unfold own. rewrite filter_filter_bool. apply filter_ext_in. intros r _.
  destruct (p r) eqn:E; [by rewrite (Hp r E), N.eqb_refl|by rewrite andb_false_r].
Qed.

Lemma filter_own_org rows : List.filter (λ r, (orgOf r =? o)%N) (own orgOf o rows) = List.filter (λ r, (orgOf r =? o)%N) rows.
Proof. apply filter_own. intros r Hr. by apply N.eqb_eq. Qed.

Lemma pg_one_own (p : R → bool) rows : (∀ r, p r = true → orgOf r = o) → pg_one p (own orgOf o rows) = pg_one p rows.
Proof. intros Hp. unfold pg_one. by rewrite filter_own. Qed.

Lemma left_join_own {A} (on : A → R → bool) (l : list A) rows :
  (∀ a r, a ∈ l → on a r = true → orgOf r = o) → left_join on l (own orgOf o rows) = left_join on l rows.
Proof.
  unfold left_join. induction l as [|a l IH]; intros Hon; [done|]. cbn [flat_map].
  rewrite filter_own by (intros r; apply Hon; by left). f_equal. apply IH. intros a' r Ha. apply Hon. by right.
Qed.
End rows.

Lemma elem_of_left_join {A B} (on : A → B → bool) l l' a b :
  (a, Some b) ∈ left_join on l l' → a ∈ l ∧ on a b = true.
Proof.
  unfold left_join. intros H. apply list_elem_of_In, in_flat_map in H as (a' & Ha & H).
  destruct (List.filter (on a') l') as [|b' bs] eqn:E; [by destruct H as [|[]]|].
  apply in_map_iff in H as (b'' & [= -> <-] & Hb). rewrite <- E in Hb. apply filter_In in Hb as [_ Hb].
  split; [by apply list_elem_of_In|done].
Qed.

Lemma elem_of_left_join_fst {A B} (on : A → B → bool) l l' r : r ∈ left_join on l l' → r.1 ∈ l.
Proof.
  unfold left_join. intros H. apply list_elem_of_In, in_flat_map in H as (a' & Ha & H). apply list_elem_of_In.
  destruct (List.filter (on a') l') as [|b' bs]; [by destruct H as [<-|[]]|]. by apply in_map_iff in H as (b'' & <- & Hb).
Qed.

(** The tenant's memberships with their users. *)
Lemma join_mine o ms us :
  List.filter (λ '(m, _), (m.(OrgMembership_OrgID) =? o)%N)
    (Sessions.join Sessions.user_of (own OrgMembership_OrgID o ms) (member_users (own OrgMembership_OrgID o ms) us))
  = List.filter (λ '(m, _), (m.(OrgMembership_OrgID) =? o)%N) (Sessions.join Sessions.user_of ms us).
Proof.
  assert (Hfst : ∀ (m : OrgMembership) (us' : list User), List.filter (λ '(m, _), (m.(OrgMembership_OrgID) =? o)%N) (map (pair m) us')
      = if (m.(OrgMembership_OrgID) =? o)%N then map (pair m) us' else []).
  { intros m us'. induction us' as [|u us' IH]; simpl; [by destruct (_ =? _)%N|]. rewrite IH. by destruct (_ =? _)%N. }
  assert (Hon : ∀ m, m ∈ own OrgMembership_OrgID o ms → List.filter (Sessions.user_of m) (member_users (own OrgMembership_OrgID o ms) us)
      = List.filter (Sessions.user_of m) us).
  { intros m Hm. unfold member_users. rewrite filter_filter_bool. apply filter_ext_in. intros u _.
    destruct (Sessions.user_of m u) eqn:E; [|by rewrite andb_false_r]. rewrite andb_true_r. apply existsb_exists.
    exists m. split; [by apply list_elem_of_In|done]. }
  revert Hon. generalize (member_users (own OrgMembership_OrgID o ms) us) as us'. intros us'. unfold own, Sessions.join.
  induction ms as [|m ms IH]; intros Hon; [done|]. cbn [flat_map List.filter] in *. rewrite List.filter_app, Hfst.
  destruct (OrgMembership_OrgID m =? o)%N eqn:Em; [|apply IH; done].
  cbn [flat_map]. rewrite List.filter_app, Hfst, Em, Hon by by left. f_equal. apply IH. intros m' Hm'. apply Hon. by right.
Qed.

(** A condition of a query that fixes the tenant. *)
Ltac own_org := let Ho := fresh in intros ? Ho; cbv beta in Ho; eqb_to_prop; first [assumption|congruence].
Ltac own_rows := simpl; rewrite ?filter_own_org; rewrite ?pg_one_own by own_org; rewrite ?filter_own by own_org; try reflexivity.

Section fetches.
Context (o : uuid).

Lemma mine_log_rows p d :
  (∀ l, p l = true → l.(RequestLog_OrgID) = o) →
  log_rows (List.filter p (mine o d).(request_logs)) (mine o d) = log_rows (List.filter p d.(request_logs)) d.
Proof.
  intros Hp. simpl. unfold log_rows. simpl. rewrite filter_own by done. rewrite (left_join_own UsageRecord_OrgID).
  - apply (left_join_own CostRecord_OrgID). intros [l [u|]] c Hr Hc; [|done]. apply elem_of_left_join in Hr as [Hl Hu].
    apply list_elem_of_In, filter_In in Hl as [_ Hl]. unfold cost_on, cost_on_usage in Hc. unfold usage_on in Hu. simpl in Hc. eqb_to_prop.
    specialize (Hp _ Hl). congruence.
  - intros l u Hl Hu. apply list_elem_of_In, filter_In in Hl as [_ Hl]. unfold usage_on in Hu. eqb_to_prop. specialize (Hp _ Hl). congruence.
Qed.

Lemma mine_summary g fromAt toAt d : summaryOf g o fromAt toAt (mine o d) = summaryOf g o fromAt toAt d.
Proof.
  assert (H : ∀ column, UsageSummaryBy column o fromAt toAt (mine o d) = UsageSummaryBy column o fromAt toAt d).
  { intros column. unfold UsageSummaryBy. cbv zeta. rewrite mine_log_rows; [done..|]. intros l Hl. unfold in_report in Hl. by eqb_to_prop. }
  destruct g; apply H.
Qed.

Lemma mine_daily fromAt toAt d : dailyCostTrendPostgres o fromAt toAt (mine o d) = dailyCostTrendPostgres o fromAt toAt d.
Proof.
  unfold dailyCostTrendPostgres. cbv zeta. simpl.
  assert (Hp : ∀ l, completed_in o fromAt toAt l = true → l.(RequestLog_OrgID) = o) by (intros l Hl; unfold completed_in in Hl; by eqb_to_prop).
  rewrite filter_own by done. rewrite (left_join_own UsageRecord_OrgID).
  - rewrite (left_join_own CostRecord_OrgID); [done|]. intros [l u] c Hr Hc. apply elem_of_left_join_fst in Hr.
    apply list_elem_of_In, filter_In in Hr as [_ Hl]. unfold cost_on_log in Hc. simpl in *. destruct u; [|done]. eqb_to_prop.
    specialize (Hp _ Hl). congruence.
  - intros l u Hl Hu. apply list_elem_of_In, filter_In in Hl as [_ Hl]. unfold usage_on in Hu. eqb_to_prop. specialize (Hp _ Hl). congruence.
Qed.

Lemma mine_breakdown fromAt toAt d : modelCostBreakdownPostgres o fromAt toAt (mine o d) = modelCostBreakdownPostgres o fromAt toAt d.
Proof.
  unfold modelCostBreakdownPostgres. cbv zeta. simpl. rewrite filter_own by own_org.
  rewrite left_join_own; [done|]. intros u c Hu Hc. apply list_elem_of_In, filter_In in Hu as [_ Hu].
  unfold cost_on_usage in Hc. eqb_to_prop. congruence.
Qed.

Lemma mine_latency pc fromAt toAt d : providerLatencyPostgres pc o fromAt toAt (mine o d) = providerLatencyPostgres pc o fromAt toAt d.
Proof. unfold providerLatencyPostgres, completed_in. by own_rows. Qed.

Lemma mine_errors fromAt toAt d : errorRateTrendPostgres o fromAt toAt (mine o d) = errorRateTrendPostgres o fromAt toAt d.
Proof. unfold errorRateTrendPostgres, completed_in. by own_rows. Qed.

Lemma mine_logs p cursor limit d :
  p.(lp_OrgID) = o → ListRequestLogs p cursor limit (mine o d) = ListRequestLogs p cursor limit d.
Proof. intros <-. unfold ListRequestLogs, matches. by own_rows. Qed.

Lemma discreet_GetStatus : discreet o (BudgetService.GetStatus o).
Proof.
  unfold BudgetService.GetStatus, BudgetService.ListBudgets, BudgetService.list_budgets.
  apply discreet_bind_ok; [apply discreet_query; intros d; by own_rows|]. intros items w w' [Hi _]%query_ok. injection Hi as <-.
  apply discreet_bind; [|discreet]. apply discreet_forM. intros [statuses cache] b Hb.
  apply elem_of_sort_by, list_elem_of_In, filter_In in Hb as [_ Hb]. apply N.eqb_eq in Hb.
  unfold BudgetService.statusForBudgetWithCache, BudgetService.usageForPeriod, BudgetService.periodWindow,
    BudgetService.GetBudgetUsedAmount, BudgetService.used_amount. rewrite Hb. discreet. by own_rows.
Qed.
End fetches.

(** ** The handlers *)

Section handlers.
Context `{Runtime, AEAD, Net, Transport, Webhooks, Digests}.
Context {TX : ReportText} {RP : RequestParsing} {AB : AdminBodies} {CB : AccessBodies}.
Context (percentile_cont : Q → list Z → Q) (s : AdminServices) (o : uuid).

Lemma discreet_RespondError cx e : discreet o (RespondError cx e).
Proof. unfold RespondError. destruct (normalizeError e) as [[]]. discreet. Qed.
Lemma discreet_reply status value : discreet o (reply status value).
Proof. unfold reply. discreet. Qed.
Lemma discreet_itemsReply items : discreet o (itemsReply items).
Proof. apply discreet_reply. Qed.
Lemma discreet_parseWindow cx : discreet o (parseWindow cx).
Proof. unfold parseWindow. discreet. Qed.
#[local] Hint Resolve discreet_RespondError discreet_reply discreet_itemsReply discreet_parseWindow : discreet.

Lemma discreet_asAdmin handler cx p :
  cx.(cx_Admin) = Some p → discreet o (handler p cx) → discreet o (asAdmin handler cx).
Proof. intros Hp. unfold asAdmin. by rewrite Hp. Qed.

Lemma discreet_listing {A} (fetch : uuid → M (list A)) item cx p :
  cx.(cx_Admin) = Some p → discreet o (fetch p.(Rbac.at_OrgID)) → discreet o (listing fetch item cx).
Proof. intros Hp Hf. unfold listing. apply (discreet_asAdmin _ _ p); [done|]. discreet. Qed.

Section principal.
Context (cx : Context) (p : Rbac.AdminTokenPrincipal) (Hcx : cx.(cx_Admin) = Some p) (Ho : p.(Rbac.at_OrgID) = o).

Lemma discreet_getMe : discreet o (getMe cx).
Proof.
  unfold getMe, GetOrganization, AdminTokens.GetAdminToken, respondAdminReadError, meReply.
  apply (discreet_asAdmin _ _ p); [done|]. rewrite Ho. discreet; by own_rows.
Qed.

Lemma discreet_listPricingVersions : discreet o (listPricingVersions cx).
Proof.
  unfold listPricingVersions, pathID, Pricing.ListModelPricingVersions, GetModel, Pricing.list_versions, Pricing.of_model,
    respondPricingServiceError.
  apply (discreet_asAdmin _ _ p); [done|]. rewrite Ho. discreet; by own_rows.
Qed.

Lemma discreet_List : discreet o (RequestLogs.List cx).
Proof.
  unfold RequestLogs.List. rewrite Hcx, Ho. apply discreet_bind; [discreet|]. intros window.
  destruct (window ≫= listParams cx o) as [[[params cursor] limit]|e] eqn:Ep; [|discreet].
  assert (Horg : params.(lp_OrgID) = o).
  { apply result_bind_ok in Ep as (wd & _ & Ep). unfold listParams in Ep.
    do 5 apply result_bind_ok in Ep as (? & _ & Ep). by injection Ep as <- _ _. }
  discreet. by apply mine_logs.
Qed.

Lemma discreet_Summary : discreet o (Summary cx).
Proof.
  unfold Summary, summaryByProvider, summaryByModel, summaryByAPIKey, summaryBy, summaryName, GetProvider, GetModel,
    APIKeyQuota.GetAPIKey. rewrite Hcx, Ho. cbv zeta. discreet; first [apply mine_summary|by own_rows].
Qed.

Lemma discreet_analytics {A} (fetch : uuid → Z → Z → DB → result (list A)) item :
  (∀ fromAt toAt d, fetch o fromAt toAt (mine o d) = fetch o fromAt toAt d) → discreet o (analyticsHandler fetch item cx).
Proof.
  intros Hf. unfold analyticsHandler, analyticsRequest. rewrite Hcx, Ho. apply discreet_bind_ok; [discreet|].
  intros request w w' Hr. apply bind_ok in Hr as (window & w1 & _ & [<- _]%ret_ok).
  destruct window as [[fromAt toAt]|e]; simpl; [|discreet]. discreet.
Qed.

Lemma discreet_listAuditLogs : discreet o (listAuditLogs cx).
Proof.
  unfold listAuditLogs, AdminAudit.List, list_audit_logs. apply (discreet_asAdmin _ _ p); [done|]. discreet.
  apply (discreet_listing _ _ _ p); [done|]. rewrite Ho. discreet; by own_rows.
Qed.

Lemma discreet_listCacheEvents : discreet o (listCacheEvents cx).
Proof.
  unfold listCacheEvents, ListCacheEvents, cache_event_matches. apply (discreet_asAdmin _ _ p); [done|]. discreet.
  apply (discreet_listing _ _ _ p); [done|]. rewrite Ho. discreet; by own_rows.
Qed.

Lemma discreet_listDeliveries : discreet o (listBudgetAlertDeliveries cx).
Proof.
  unfold listBudgetAlertDeliveries, BudgetAlerts.ListDeliveries, BudgetAlerts.list_deliveries.
  apply (discreet_asAdmin _ _ p); [done|]. discreet.
  apply (discreet_listing _ _ _ p); [done|]. rewrite Ho. discreet; by own_rows.
Qed.

Lemma discreet_handler route :
  route ∈ adminRoutes percentile_cont s → route.(ro_Method) = "GET" → discreet o (route.(ro_Handler) cx).
Proof.
  intros Hin Hget. unfold adminRoutes, meRoutes, memberRoutes, tokenRoutes, configRoutes, viewRoutes in Hin. simpl in Hin.
  repeat (apply elem_of_cons in Hin as [->|Hin]; [simpl in Hget |- *; try discriminate Hget|]);
    [..|by apply not_elem_of_nil in Hin];
    first [apply discreet_getMe|apply discreet_listPricingVersions|apply discreet_List|apply discreet_Summary
          |apply discreet_listAuditLogs|apply discreet_listCacheEvents|apply discreet_listDeliveries
          |apply discreet_analytics; first [apply mine_daily|apply mine_breakdown|apply mine_latency|apply mine_errors]
          |apply (discreet_listing _ _ _ p); [done|]; rewrite Ho; first [apply discreet_GetStatus|idtac]].
  all: unfold Sessions.ListMembers, APIKeys.ListAPIKeys, Providers.ListProviders, Providers.ListModels, Routing.ListRoutePolicies,
    BudgetService.ListBudgets, BudgetAlerts.ListAlerts, Anomaly.ListPolicies, PolicyService.ListContentPolicies,
    Sessions.list_members, Providers.list_providers, Providers.list_models, BudgetService.list_budgets, BudgetAlerts.list_alerts,
    Anomaly.list_policies, PolicyService.list_content_policies; discreet.
  all: first [by own_rows|simpl; by rewrite join_mine].
Qed.
End principal.

(** C9: an administrator sees only the tenant's own rows. On two databases that
    have the same rows of the principal's tenant in each of the tables, the same
    row of its organisation and the same users among its members, in the same
    order, but may differ in everything else, a route that is fetched answers the
    same, status, body and errors alike, and does the same to the rest of the
    world. *)
Theorem answers_from_own_rows (route : Route) (cx : Context) (p : Rbac.AdminTokenPrincipal) (w : world) (d : DB) :
  route ∈ adminRoutes percentile_cont s → route.(ro_Method) = "GET" → cx.(cx_Admin) = Some p →
  p.(Rbac.at_OrgID) = o → agrees o (w_db w) d →
  route.(ro_Handler) cx (set_db d w) = ((route.(ro_Handler) cx w).1, set_db d (route.(ro_Handler) cx w).2).
Proof. intros Hin Hget Hcx Ho Hd. by apply (discreet_handler cx p Hcx Ho route). Qed.
End handlers.
End AdminPrivacy.
