(* ===== verification/AdminTrail.v ===== *)
(** * What the administrative routes leave in the audit log

    The log only grows: by one entry for a creation that is recorded, and by
    nothing for any other request. Nor does an administrative request touch what
    the chat route keeps, and of the keys it does what their service does. *)

From Stdlib Require Import QArith.
From S2P Require Import Prelude GoTime GoStrings Encodings Costing Store ExampleWorld QuotaService Tokens ApiKeys.
From S2P Require Import Rbac AdminTokens Sessions MagicLinks.
From S2P Require Import Secrets Outbound HttpClient Limits BudgetService AnomalyService Routing ContentPolicy Pricing Metering BudgetAlerts.
From S2P Require Import RateLimit Float64 GatewayBase Providers Caches HttpServer RequestLogs AdminAudit AdminHandlers AccessHandlers Reports AdminRoutes.
From S2P Require Import GatewayFrame AdminFrame AdminGuard AdminIsolation.
#[local] Open Scope Z_scope.

Module AdminTrail.
Import Http RequestLogs AdminAudit AdminHandlers AccessHandlers Reports AdminRoutes AdminFrame AdminGuard AdminIsolation.

Definition log_kept (d d' : DB) : Prop := d'.(admin_audit_logs) = d.(admin_audit_logs).

(** The tables that only the chat route writes: what is reserved, and the books. *)
Definition traffic_kept (d d' : DB) : Prop :=
  d'.(cost_limit_counters) = d.(cost_limit_counters) ∧ d'.(cost_reservations) = d.(cost_reservations) ∧
  d'.(request_logs) = d.(request_logs) ∧ d'.(usage_records) = d.(usage_records) ∧ d'.(cost_records) = d.(cost_records).

Definition apart (d d' : DB) : Prop := log_kept d d' ∧ traffic_kept d d'.

#[export] Instance apart_preorder : PreOrder apart.
Proof. unfold apart, log_kept, traffic_kept. split; [done|]. intros d1 d2 d3 (? & ? & ?) (? & ? & ?). split_and!; intuition congruence. Qed.

(** The table of the keys is what calls of its service made of what it was: more
    keys may have been issued since. *)
Definition keyed `{Runtime} (d d' : DB) : Prop := ∀ T, APIKeys.history T d.(api_keys) →
  ∃ T', APIKeys.history T' d'.(api_keys) ∧ map APIKeys.is_Key T `prefix_of` map APIKeys.is_Key T' ∧
    map APIKeys.is_Principal T `prefix_of` map APIKeys.is_Principal T'.

(** Neither the log nor the traffic, and of the keys only what their service does. *)
Definition aside `{Runtime} (d d' : DB) : Prop := apart d d' ∧ keyed d d'.

Section keyed.
Context `{Runtime}.

#[export] Instance keyed_preorder : PreOrder keyed.
Proof.
  split; [by intros d T HT; exists T|]. intros d1 d2 d3 H12 H23 T HT. destruct (H12 T HT) as (T' & HT' & Hk & Hp).
  destruct (H23 T' HT') as (T2 & HT2 & Hk2 & Hp2). exists T2. split_and!; [done|by etrans..].
Qed.
#[export] Instance aside_preorder : PreOrder aside.
Proof. split; [by intros d|]. intros d1 d2 d3 [] []. split; by etrans. Qed.

Lemma keyed_same d d' : d'.(api_keys) = d.(api_keys) → keyed d d'.
Proof. intros Hk T HT. exists T. by rewrite Hk. Qed.

Lemma keyed_call {A} (m : M A) (next : result A → list APIKeys.issued → list APIKeys.issued) :
  keeps (λ _ _, True) m →
  (∀ T w, APIKeys.history T (w_db w).(api_keys) → APIKeys.history (next (m w).1 T) (w_db (m w).2).(api_keys)) →
  (∀ r T, map APIKeys.is_Key T `prefix_of` map APIKeys.is_Key (next r T) ∧
     map APIKeys.is_Principal T `prefix_of` map APIKeys.is_Principal (next r T)) → keeps keyed m.
Proof.
  intros Hm Hn Hp w. split; [|apply Hm]. intros T HT. exists (next (m w).1 T). split; [by apply Hn|apply Hp].
Qed.
End keyed.

(** A handler whose replies carry no resource. *)
Definition noAudit (m : M Reply) : Prop := ∀ w reply w', m w = (Ok reply, w') → reply.(re_Audit) = None.

Lemma noAudit_ret reply : reply.(re_Audit) = None → noAudit (mret reply).
Proof. intros Hr w reply' w' H. apply ret_ok in H as [<- _]. done. Qed.
Lemma noAudit_bind {A} (m : M A) f : (∀ a, noAudit (f a)) → noAudit (m ≫= f).
Proof. intros Hf w reply w' H. apply bind_ok in H as (a & w1 & _ & H). by apply Hf in H. Qed.
Lemma noAudit_fail e : noAudit (fail e).
Proof. intros w reply w' H. by apply fail_ok in H. Qed.

(** One row was added to a table, with this id and of this tenant. *)
Definition added {R} (tbl : DB → list R) (idOf orgOf : R → uuid) (o id : uuid) (d d' : DB) : Prop :=
  ∃ row, tbl d' = tbl d ++ [row] ∧ idOf row = id ∧ orgOf row = o.

Definition created (resourceType : string) (o id : uuid) (d d' : DB) : Prop :=
  if String.eqb resourceType "provider" then added providers Provider_ID Provider_OrgID o id d d'
  else if String.eqb resourceType "budget" then added budgets Budget_ID Budget_OrgID o id d d'
  else if String.eqb resourceType "anomaly_policy" then added cost_anomaly_policies CostAnomalyPolicy_ID CostAnomalyPolicy_OrgID o id d d'
  else if String.eqb resourceType "content_policy" then added content_policies ContentPolicy_ID ContentPolicy_OrgID o id d d'
  else False.

Definition creation (o : uuid) (d d' : DB) (info : auditInfo) : Prop :=
  ∃ id, info.(au_ResourceID) = Some id ∧ info.(au_Action) = Some ("create_" +:+ info.(au_ResourceType)) ∧
    info.(au_ResourceType) ≠ "" ∧ created info.(au_ResourceType) o id d d'.

(** A reply that carries a resource carries one that was just created. *)
Definition truthful (o : uuid) (m : M Reply) : Prop :=
  ∀ w reply w' info, m w = (Ok reply, w') → reply.(re_Audit) = Some info → creation o (w_db w) (w_db w') info.

Lemma noAudit_truthful o m : noAudit m → truthful o m.
Proof. intros Hm w reply w' info H Ha. apply Hm in H. congruence. Qed.

(** ** The statements *)

Ltac aside_stmt_by tac :=
  apply keeps_stmt; [apply _|]; let d := fresh in let x := fresh in let d' := fresh in let Hr := fresh in intros d x d' Hr;
  unfold APIKeys.insert_api_key, APIKeys.revoke_key, Providers.insert_provider, Providers.upsert_provider_secret,
    Providers.update_provider_health, Pricing.insert_model, Pricing.insert_pricing_version, Pricing.supersede_active,
    Pricing.update_model_pricing, Routing.insert_route_policy, Routing.insert_route_target, BudgetService.insert_budget,
    BudgetAlerts.insert_alert, Anomaly.insert_policy, PolicyService.insert_content_policy, Sessions.upsert_membership,
    Sessions.upsert_user, Sessions.insert_user_session, MagicLinks.insert_magic_link, AdminTokens.insert_organization,
    AdminTokens.insert_admin_token in Hr; cbv zeta in Hr;
  repeat (let a := fresh in apply result_bind_ok in Hr as (a & _ & Hr)); try (destruct (find _ _)); run_sql Hr; tac.
Ltac aside_stmt := aside_stmt_by ltac:(split; [by split_and!|by apply keyed_same]).
Ltac aside := repeat (keeps_step || (solve [eauto with keeps nocore]) || aside_stmt).
Ltac apart := repeat (keeps_step || (solve [eauto with keeps nocore]) || aside_stmt_by ltac:(by split_and!)).

Lemma aside_touched `{Runtime} o d d' : touched o d d' → aside d d'.
Proof. intros [(id & now & [= <-])|(id & now & [= <-])]; (split; [done|by apply keyed_same]). Qed.

Section services.
Context `{Runtime, AEAD, Net, Transport, Webhooks}.
#[local] Hint Resolve keeps_generateToken keeps_Seal keeps_SealWebhookSecret : keeps.

(** The two that do something to the keys. *)
Lemma aside_CreateAPIKey ring params : keeps aside (APIKeys.CreateAPIKey ring params).
Proof.
  assert (Ha : keeps apart (APIKeys.CreateAPIKey ring params)) by (unfold APIKeys.CreateAPIKey; apart).
  apply keeps_and; [done|]. apply (keyed_call _ (APIKeys.issue ring)); [by eapply keeps_mono; [|exact Ha]|..].
  - intros T w HT. destruct (APIKeys.CreateAPIKey ring params w) as [r w'] eqn:E. by eapply APIKeys.h_create.
  - intros [r|e] T; simpl; [rewrite !map_app|done]. split; by eexists.
Qed.
Lemma aside_RevokeAPIKey o id : keeps aside (APIKeys.RevokeAPIKey o id).
Proof.
  assert (Ha : keeps apart (APIKeys.RevokeAPIKey o id)) by (unfold APIKeys.RevokeAPIKey, orNoRows; apart).
  apply keeps_and; [done|]. apply (keyed_call _ (APIKeys.cancel o id)); [by eapply keeps_mono; [|exact Ha]|..].
  - intros T w HT. destruct (APIKeys.RevokeAPIKey o id w) as [r w'] eqn:E. by eapply APIKeys.h_revoke.
  - intros [r|e] T; simpl; [|done]. rewrite !map_map. split; apply reflexive_eq, map_ext; intros x; by destruct (APIKeys.owned _ _ x).
Qed.
Lemma aside_CreateProvider s params : keeps aside (Providers.CreateProvider s params).
Proof. unfold Providers.CreateProvider, Providers.createProviderTx, ExecTx, ExecTxRaw. aside. Qed.
Lemma aside_Check s o id : keeps aside (Providers.Check s o id).
Proof.
  unfold Providers.Check, orNoRows, GetProvider, Providers.checkOpenAICompatible, Providers.GetProviderSecret. aside.
Qed.
Lemma aside_CreateModel params : keeps aside (Pricing.CreateModel params).
Proof.
  unfold Pricing.CreateModel, orNoRows, GetProvider, Pricing.createModelTx, Pricing.CreateInitialVersionWithQueries, ExecTx, ExecTxRaw.
  aside.
Qed.
Lemma aside_UpdateModelPricing params : keeps aside (Pricing.UpdateModelPricing params).
Proof. unfold Pricing.UpdateModelPricing, orNoRows, GetModel, ExecTx, ExecTxRaw. aside. Qed.
Lemma aside_CreateRoutePolicy params : keeps aside (Routing.CreateRoutePolicy params).
Proof.
  unfold Routing.CreateRoutePolicy, Routing.validateTargetBelongsToOrg, Routing.createTarget, orNoRows, GetProvider,
    GetModel, ExecTx, ExecTxRaw. aside.
Qed.
Lemma aside_CreateBudget params : keeps aside (BudgetService.CreateBudget params).
Proof. unfold BudgetService.CreateBudget. aside. Qed.
Lemma aside_CreateAlert s params : keeps aside (BudgetAlerts.CreateAlert s params).
Proof. unfold BudgetAlerts.CreateAlert. aside. Qed.
Lemma aside_CreatePolicy params : keeps aside (Anomaly.CreatePolicy params).
Proof. unfold Anomaly.CreatePolicy. aside. Qed.
Lemma aside_CreateContentPolicy params : keeps aside (PolicyService.CreateContentPolicy params).
Proof. unfold PolicyService.CreateContentPolicy. aside. Qed.
Lemma aside_UpsertMember store params : keeps aside (Sessions.UpsertMember store params).
Proof.
  unfold Sessions.UpsertMember, Sessions.upsertMemberWithQueries, orNoRows, GetOrganization, ExecTx, ExecTxRaw. aside.
Qed.
End services.

(** ** The four creations *)

(** The last statement of a run adds a row. *)
Ltac added_row Hr :=
  let Hd := fresh "Hd" in do 2 apply result_bind_ok in Hr as (? & _ & Hr); injection Hr as <- Hd; rewrite <- Hd; simpl;
  split; [congruence|reflexivity].

Section creations.
Context `{Runtime, AEAD, Net, Transport, Webhooks}.

Lemma added_CreateProvider s params w p w' :
  Providers.CreateProvider s params w = (Ok p, w') →
  added providers Provider_ID Provider_OrgID params.(Providers.cp_OrgID) p.(Provider_ID) (w_db w) (w_db w').
Proof.
  unfold Providers.CreateProvider. intros Hr. minv Hr. apply WithTx_ok in Hr as (w4 & w5 & Hdb4 & _ & Htx & ->).
  apply Providers.createProviderTx_ok in Htx as (Has & _ & Hps & _). exists p. split; [congruence|]. split; [done|apply Has].
Qed.

Lemma added_CreateBudget params w b w' :
  BudgetService.CreateBudget params w = (Ok b, w') →
  added budgets Budget_ID Budget_OrgID params.(BudgetService.cb_OrgID) b.(Budget_ID) (w_db w) (w_db w').
Proof.
  unfold BudgetService.CreateBudget. intros Hr. cbv zeta in Hr.
  assert (Hrow : (w_db w').(budgets) = (w_db w).(budgets) ++ [b] ∧ b.(Budget_OrgID) = params.(BudgetService.cb_OrgID)).
  { case_all Hr; minv Hr; unfold BudgetService.insert_budget in Hr; added_row Hr. }
  exists b. by split_and!; [apply Hrow|..|apply Hrow].
Qed.

Lemma added_CreatePolicy params w p w' :
  Anomaly.CreatePolicy params w = (Ok p, w') →
  added cost_anomaly_policies CostAnomalyPolicy_ID CostAnomalyPolicy_OrgID params.(Anomaly.cp_OrgID) p.(CostAnomalyPolicy_ID)
    (w_db w) (w_db w').
Proof.
  unfold Anomaly.CreatePolicy. intros Hr. apply bind_ok in Hr as (n & w1 & [Hn <-]%lift_ok & Hr). apply normalized_org in Hn.
  assert (Hrow : (w_db w').(cost_anomaly_policies) = (w_db w).(cost_anomaly_policies) ++ [p] ∧ p.(CostAnomalyPolicy_OrgID) = n.(Anomaly.cp_OrgID)).
  { minv Hr. unfold Anomaly.insert_policy in Hr. added_row Hr. }
  exists p. rewrite <- Hn. by split_and!; [apply Hrow|..|apply Hrow].
Qed.

Lemma added_CreateContentPolicy params w p w' :
  PolicyService.CreateContentPolicy params w = (Ok p, w') →
  added content_policies ContentPolicy_ID ContentPolicy_OrgID params.(PolicyService.cp_OrgID) p.(ContentPolicy_ID) (w_db w) (w_db w').
Proof.
  unfold PolicyService.CreateContentPolicy. intros Hr. cbv zeta in Hr.
  assert (Hrow : (w_db w').(content_policies) = (w_db w).(content_policies) ++ [p] ∧ p.(ContentPolicy_OrgID) = params.(PolicyService.cp_OrgID)).
  { case_all Hr; minv Hr; unfold PolicyService.insert_content_policy in Hr; added_row Hr. }
  exists p. by split_and!; [apply Hrow|..|apply Hrow].
Qed.
End creations.

(** ** The service *)

Lemma Record_cases input w r w' :
  Record_ input w = (r, w') →
  match r with
  | Ok l =>
      w_db w' = set_admin_audit_logs (λ ls, ls ++ [l]) (w_db w) ∧ l.(AdminAuditLog_OrgID) = input.(ri_OrgID) ∧
      l.(AdminAuditLog_ActorAdminTokenID) = input.(ri_ActorAdminTokenID) ∧ l.(AdminAuditLog_ActorUserID) = input.(ri_ActorUserID) ∧
      l.(AdminAuditLog_Action) = input.(ri_Action) ∧ l.(AdminAuditLog_ResourceType) = input.(ri_ResourceType) ∧
      l.(AdminAuditLog_ResourceID) = input.(ri_ResourceID)
  | Err _ => w_db w' = w_db w
  end.
Proof.
  unfold Record_. intros Hr.
  repeat (match type of Hr with (if ?b then fail _ else _) _ = _ => destruct b; [by injection Hr as <- <-|] end).
  apply bind_cases in Hr as [(requestID & w1 & H1 & Hr)|(e & H1 & ->)].
  2: { by destruct (String.eqb _ _). }
  assert (Hd : w_db w1 = w_db w).
  { destruct (String.eqb _ _); [|by apply ret_ok in H1 as [_ <-]]. by minv H1. }
  apply bind_cases in Hr as [(id & w2 & H2 & Hr)|(e & H2 & ->)]; [|done]. apply new_uuid_ok in H2.
  apply bind_cases in Hr as [(now & w3 & H3 & Hr)|(e & H3 & ->)]; [|done]. apply clock_ok in H3.
  apply stmt_cases in Hr. destruct r as [l|e]; [|destruct Hr; congruence].
  unfold insert_audit_log in Hr. do 2 apply result_bind_ok in Hr as (? & _ & Hr). injection Hr as <- <-. simpl.
  split; [congruence|done].
Qed.

(** ** The handlers *)

Section handlers.
Context `{Runtime, AEAD, Net, Transport, Webhooks, Digests}.
Context {TX : ReportText} {RP : RequestParsing} {AB : AdminBodies} {CB : AccessBodies}.
Context (percentile_cont : Q → list Z → Q) (s : AdminServices).
#[local] Hint Resolve keeps_RespondError keeps_reply keeps_replyAudited keeps_itemsReply
  aside_CreateAPIKey aside_RevokeAPIKey aside_CreateProvider aside_Check aside_CreateModel aside_UpdateModelPricing aside_CreateRoutePolicy
  aside_CreateBudget aside_CreateAlert aside_CreatePolicy aside_CreateContentPolicy aside_UpsertMember : keeps.

Ltac aside_handle :=
  apply keeps_asAdmin; [apply _|]; intros principal Hp; simplify_eq;
  repeat first [apply keeps_binding; [apply _|]; intros request | apply keeps_pathID; [apply _|]; intros id];
  aside.

(** The handlers that change something, but for the four that are recorded. *)
Ltac each_write Hin Hget :=
  unfold adminRoutes, meRoutes, memberRoutes, tokenRoutes, configRoutes, viewRoutes in Hin; simpl in Hin;
  repeat (apply elem_of_cons in Hin as [->|Hin]; [simpl in Hget |- *; try (by destruct Hget)|]);
    [..|by apply not_elem_of_nil in Hin].

Lemma aside_handler route cx :
  route ∈ adminRoutes percentile_cont s → keeps aside (route.(ro_Handler) cx).
Proof.
  intros Hin. destruct (String.eqb_spec route.(ro_Method) "GET") as [Hget|Hget];
    [apply (reads_keep percentile_cont s); [apply _|done..]|].
  each_write Hin Hget;
    unfold createMember, createAPIKey, revokeAPIKey, createProvider, checkProviderHealth, createModel, updatePricing,
      createRoutePolicy, createBudget, createBudgetAlert, createAnomalyPolicy, createContentPolicy,
      respondProviderServiceError, respondPricingServiceError, respondRoutingServiceError; aside_handle.
Qed.

Lemma noAudit_RespondError cx e : noAudit (RespondError cx e).
Proof.
  unfold RespondError. destruct (normalizeError e) as [[]]. first [by apply noAudit_ret|apply noAudit_bind; intros; by apply noAudit_ret].
Qed.
Lemma noAudit_reply status value : noAudit (reply status value).
Proof. by apply noAudit_ret. Qed.

Ltac noAudit_step :=
  match goal with
  | |- forall _, _ => intros
  | |- noAudit (RespondError _ _) => apply noAudit_RespondError
  | |- noAudit (reply _ _) => apply noAudit_reply
  | |- noAudit (fail _) => apply noAudit_fail
  | |- noAudit (_ ≫= _) => apply noAudit_bind
  | |- noAudit (match ?x with _ => _ end) => destruct x
  | |- noAudit (let _ := _ in _) => cbv zeta
  end.

(** A service is called, and what it created is reported. *)
Lemma truthful_report {A} o (m : M A) (refused : err → M Reply) response info :
  (∀ e, noAudit (refused e)) → (∀ w a w', m w = (Ok a, w') → creation o (w_db w) (w_db w') (info a)) →
  truthful o (r ← catch m; match r with Err e => refused e | Ok a => replyAudited 201 (response a) (info a) end).
Proof.
  intros Hs Hm w reply w' i Hr Ha. apply bind_ok in Hr as (r & w1 & Hc & Hr). apply catch_ok in Hc.
  destruct r as [a|e]; [|apply Hs in Hr; congruence].
  apply ret_ok in Hr as [<- <-]. injection Ha as <-. by apply Hm in Hc.
Qed.

Lemma truthful_handler route cx p :
  route ∈ adminRoutes percentile_cont s → route.(ro_Method) ≠ "GET" → cx.(cx_Admin) = Some p →
  truthful p.(Rbac.at_OrgID) (route.(ro_Handler) cx).
Proof.
  intros Hin Hget Hcx. each_write Hin Hget.
  1-3,5-8,10: apply noAudit_truthful;
    unfold createMember, createAPIKey, revokeAPIKey, checkProviderHealth, createModel, updatePricing, createRoutePolicy,
      createBudgetAlert, respondProviderServiceError, respondPricingServiceError, respondRoutingServiceError,
      asAdmin, binding, pathID; repeat noAudit_step.
  - unfold createProvider, asAdmin, binding. rewrite Hcx.
    destruct (ShouldBindJSON _ _) as [request|]; [|apply noAudit_truthful, noAudit_RespondError]. apply truthful_report.
    + intros e. unfold respondProviderServiceError. repeat noAudit_step.
    + intros w a w' Hr. apply added_CreateProvider in Hr. by exists (Provider_ID a).
  - unfold createBudget, asAdmin, binding. rewrite Hcx.
    destruct (ShouldBindJSON _ _) as [request|]; [|apply noAudit_truthful, noAudit_RespondError].
    destruct (validateCreateBudgetRequest _) as [valid|]; [|apply noAudit_truthful, noAudit_RespondError]. apply truthful_report.
    + intros e. apply noAudit_RespondError.
    + intros w a w' Hr. apply added_CreateBudget in Hr. by exists (Budget_ID a).
  - unfold createAnomalyPolicy, asAdmin, binding. rewrite Hcx.
    destruct (ShouldBindJSON _ _) as [request|]; [|apply noAudit_truthful, noAudit_RespondError]. apply truthful_report.
    + intros e. apply noAudit_RespondError.
    + intros w a w' Hr. apply added_CreatePolicy in Hr. by exists (CostAnomalyPolicy_ID a).
  - unfold createContentPolicy, asAdmin, binding. rewrite Hcx.
    destruct (ShouldBindJSON _ _) as [request|]; [|apply noAudit_truthful, noAudit_RespondError].
    destruct (String.eqb _ _); [apply noAudit_truthful, noAudit_RespondError|]. apply truthful_report.
    + intros e. apply noAudit_RespondError.
    + intros w a w' Hr. apply added_CreateContentPolicy in Hr. by exists (ContentPolicy_ID a).
Qed.

(** The entry says who did it: the user of a session, or the service token. *)
Definition names_actor (p : Rbac.AdminTokenPrincipal) (l : AdminAuditLog) : Prop :=
  if Rbac.IsUser p && given p.(Rbac.at_UserID)
  then l.(AdminAuditLog_ActorUserID) = p.(Rbac.at_UserID) ∧ l.(AdminAuditLog_ActorAdminTokenID) = None
  else l.(AdminAuditLog_ActorAdminTokenID) = Some p.(Rbac.at_AdminTokenID) ∧ l.(AdminAuditLog_ActorUserID) = None.

(** The entry records what changed from [d] to [d']. *)
Definition records (p : Rbac.AdminTokenPrincipal) (d d' : DB) (l : AdminAuditLog) : Prop :=
  l.(AdminAuditLog_OrgID) = p.(Rbac.at_OrgID) ∧ names_actor p l ∧
  l.(AdminAuditLog_Action) = "create_" +:+ l.(AdminAuditLog_ResourceType) ∧
  ∃ id, l.(AdminAuditLog_ResourceID) = Some id ∧ created l.(AdminAuditLog_ResourceType) p.(Rbac.at_OrgID) id d d'.

Lemma created_touched type o id d0 d d' l :
  touched o d0 d → created type o id d d' → created type o id d0 (set_admin_audit_logs l d').
Proof. intros [(i & n & [= <-])|(i & n & [= <-])]; unfold created, added; by repeat case_match. Qed.

Lemma Audited_records route cx p w0 w :
  route ∈ adminRoutes percentile_cont s → cx.(cx_Admin) = Some p → cx.(cx_Request).(rq_Method) = route.(ro_Method) →
  touched p.(Rbac.at_OrgID) (w_db w0) (w_db w) →
  let d' := w_db (Audited route.(ro_Handler) cx w).2 in
  log_kept (w_db w) d' ∨ ∃ l, d'.(admin_audit_logs) = (w_db w).(admin_audit_logs) ++ [l] ∧ records p (w_db w0) d' l.
Proof.
  intros Hin Hcx Hm Ht d'. unfold d', Audited, mbind, M_bind. rewrite Hm, Hcx.
  destruct (aside_handler route cx Hin w) as [[[Hk _] _] _]. destruct (ro_Handler route cx w) as [[reply|e] w1] eqn:Eh; [|by left].
  simpl in Hk. destruct (negb _ || _) eqn:Em; [by left|]. apply orb_false_iff in Em as [Em _]. apply negb_false_iff in Em.
  destruct (auditResource reply) as [info|] eqn:Ei; [|by left].
  assert (Hget : ro_Method route ≠ "GET") by by intros E; rewrite E in Em.
  unfold auditResource in Ei. destruct (re_Audit reply) as [info'|] eqn:Er; [|done]. destruct (String.eqb _ _); [done|].
  injection Ei as ->. destruct (truthful_handler route cx p Hin Hget Hcx _ _ _ _ Eh Er) as (id & Hid & Hact & Hty & Hc).
  unfold try. destruct (Record_ _ w1) as [r w2] eqn:Erec. apply Record_cases in Erec. destruct r as [l|e]; simpl; [right|left; by rewrite Erec].
  destruct Erec as (Hd & Horg & Htok & Husr & Ha & Hrt & Hri). rewrite Hd. exists l. split; [simpl; by rewrite Hk|].
  unfold records. rewrite Horg, Hrt, Ha, Hri. simpl. split; [done|]. split.
  { unfold names_actor. rewrite Htok, Husr. simpl. by destruct (Rbac.IsUser p && _). }
  unfold auditAction. rewrite Hact. split.
  - destruct (String.eqb_spec ("create_" +:+ au_ResourceType info) "") as [E|]; [done|done].
  - exists id. split; [done|]. by eapply created_touched.
Qed.

(** C8: the audit log only grows, and never lies. Whatever request an
    administrative route serves, the audit log is afterwards as it was, or longer
    by one entry at its end; and that entry is of the tenant of a service token or
    member whom the request's bearer token was found to be, names that user or that
    service token and not both, and records the creation of a provider, a budget,
    an anomaly policy or a content policy, of that tenant and with that id, which
    this same request added to its table. *)
Theorem audit_log_grows (route : Route) (rq : Request) (w : world) :
  route ∈ adminRoutes percentile_cont s → rq.(rq_Method) = route.(ro_Method) →
  let d' := w_db (served (adminHandler s route) rq w).2 in
  d'.(admin_audit_logs) = (w_db w).(admin_audit_logs) ∨
  ∃ p l, identified s rq w p ∧ d'.(admin_audit_logs) = (w_db w).(admin_audit_logs) ++ [l] ∧ records p (w_db w) d' l.
Proof.
  intros Hin Hm d'. unfold d'. destruct (adminServed_cases s route rq w) as [->|(p & w1 & Hi & Ht & Hrest)]; [by left|].
  pose proof (aside_touched _ _ _ Ht) as [[Hl _] _]. destruct Hrest as [->|(_ & cx & Hcx & Hrq & ->)]; [by left|].
  rewrite <- Hrq in Hm. destruct (Audited_records route cx p w w1 Hin Hcx Hm Ht) as [Hk|(l & Hk & Hr)].
  - left. unfold log_kept in *. congruence.
  - right. exists p, l. rewrite Hk. unfold log_kept in Hl. by rewrite Hl.
Qed.
End handlers.
End AdminTrail.
