(* ===== verification/Email.v ===== *)
(** * Sending e-mail: [internal/email/smtp_sender.go]

    The SMTP session of one message, as the items put on the wire and whether
    the connection was encrypted when they were. [net/smtp] is modelled as far
    as the sender uses it, its refusal to send credentials in clear included;
    how the server answers is the class [MailServer]. *)

From Stdlib Require Import Ascii.
From S2P Require Import Prelude GoStrings Encodings Costing Store Tokens Config.
#[local] Open Scope Z_scope.

Class MailServer := {
  dials : bool;                  (** the TCP connection, and the TLS one where it comes first *)
  replies : nat → bool;          (** the n-th exchange of the session succeeds *)
  announces : nat → string → bool   (** the extensions in the answer to an EHLO at that exchange *)
}.

Module Email.
Import Config.

Record SMTPConfig := mkSMTPConfig {
  em_Host : string;
  em_Port : Z;
  em_Username : string;
  em_Password : string;
  em_From : string;
  em_TLSMode : string
}.

Record Message := mkMessage { ms_To : string; ms_Subject : string; ms_TextBody : string }.

(** ** The wire *)

Inductive item :=
| EHLO
| HELO
| STARTTLS
| AUTH (username password : string)
| MAIL (from : string)
| RCPT (to : string)
| DATA
| BODY (text : string)
| QUIT.

(** A session: its exchanges so far, whether it is encrypted, how the hello
    went, at which exchange the extensions were announced, and what was sent,
    each item with the encryption it had. *)
Record session := mkSession {
  se_turn : nat;
  se_tls : bool;
  se_hello : option (result unit);
  se_ext : option nat;
  se_sent : list (bool * item)
}.

Definition S (A : Type) : Type := session → result A * session.
#[export] Instance S_ret : MRet S := λ A a s, (Ok a, s).
#[export] Instance S_bind : MBind S := λ A B f m s,
  match m s with (Ok a, s') => f a s' | (Err e, s') => (Err e, s') end.
Definition refuse {A} (message : string) : S A := λ s, (Err (EMsg message), s).

Section smtp.
Context {MS : MailServer}.

Definition send (i : item) : S unit := λ s,
  (if replies s.(se_turn) then Ok tt else Err EFault,
   mkSession (Datatypes.S s.(se_turn)) s.(se_tls) s.(se_hello) s.(se_ext) (s.(se_sent) ++ [(s.(se_tls), i)])).

Definition set_hello (r : result unit) (s : session) : session :=
  mkSession s.(se_turn) s.(se_tls) (Some r) s.(se_ext) s.(se_sent).
Definition set_ext (e : option nat) (s : session) : session := mkSession s.(se_turn) s.(se_tls) s.(se_hello) e s.(se_sent).

(** [Client.ehlo]: an answer announces the extensions. *)
Definition ehlo : S unit := λ s,
  let '(r, s') := send EHLO s in (r, if is_ok r then set_ext (Some s.(se_turn)) s' else s').

(** [Client.helo]. *)
Definition helo : S unit := λ s, send HELO (set_ext None s).

(** [Client.hello], once per session: EHLO, or else HELO. *)
Definition sayHello : S unit := λ s,
  match s.(se_hello) with
  | Some r => (r, s)
  | None =>
      let '(r, s') := match ehlo s with (Err _, s1) => helo s1 | ok => ok end in (r, set_hello r s')
  end.

(** [smtp.NewClient]: the greeting. *)
Definition NewClient : S unit := λ s,
  (if replies s.(se_turn) then Ok tt else Err EFault,
   mkSession (Datatypes.S s.(se_turn)) s.(se_tls) s.(se_hello) s.(se_ext) s.(se_sent)).
Definition Dial : S unit := if dials then NewClient else refuse "dial".

Definition announced (s : session) (extension : string) : bool :=
  match s.(se_ext) with Some turn => announces turn extension | None => false end.

(** [Client.Extension]: a failed hello reads as no extension. *)
Definition Extension (extension : string) : S bool := λ s,
  match sayHello s with (Ok _, s') => (Ok (announced s' extension), s') | (Err _, s') => (Ok false, s') end.

Definition encrypt : S unit := λ s, (Ok tt, mkSession s.(se_turn) true s.(se_hello) s.(se_ext) s.(se_sent)).
Definition StartTLS : S unit :=
  _ ← sayHello;
  _ ← send STARTTLS;
  _ ← encrypt;
  ehlo.

Definition isLocalhost (name : string) : bool :=
  String.eqb name "localhost" || String.eqb name "127.0.0.1" || String.eqb name "::1".

Definition Quit : S unit := _ ← sayHello; send QUIT.

(** [m], and a [Quit] whose outcome is dropped when it fails. *)
Definition orQuit (m : S unit) : S unit := λ s, match m s with (Err e, s') => (Err e, (Quit s').2) | ok => ok end.

(** [Client.Auth] with [PlainAuth] for the host that was dialled. *)
Definition Auth (c : SMTPConfig) : S unit :=
  _ ← sayHello;
  orQuit (λ s, if negb s.(se_tls) && negb (isLocalhost c.(em_Host)) then refuse "unencrypted connection" s
               else send (AUTH c.(em_Username) c.(em_Password)) s).

Definition crlf : string := String (ascii_of_nat 13) (String (ascii_of_nat 10) "").

Definition hasAuth (c : SMTPConfig) : bool := negb (String.eqb c.(em_Username) "") || negb (String.eqb c.(em_Password) "").

(** [validateLine]: no line break in an address. *)
Definition oneLine (line : string) : bool := all_bytes (λ c, negb (is_byte 10 c || is_byte 13 c)) line.

Definition deliver (from to body : string) : S unit :=
  _ ← (if oneLine from then _ ← sayHello; send (MAIL from) else refuse "smtp: A line must not contain CR or LF");
  _ ← (if oneLine to then send (RCPT to) else refuse "smtp: A line must not contain CR or LF");
  _ ← send DATA;
  _ ← send (BODY body);
  send QUIT.

(** After a refused AUTH [net/smtp] sends a line [*] too, which is left out. *)
Definition sendWithClient (c : SMTPConfig) (from to body : string) : S unit :=
  _ ← (if hasAuth c then Auth c else mret tt);
  deliver from to body.

(** [smtp.SendMail]: encrypted when the server offers it. *)
Definition SendMail (c : SMTPConfig) (from to body : string) : S unit :=
  if negb (oneLine from && oneLine to) then refuse "smtp: A line must not contain CR or LF"
  else
    _ ← Dial;
    _ ← sayHello;
    ok ← Extension "STARTTLS";
    _ ← (if (ok : bool) then StartTLS else mret tt);
    _ ← (if hasAuth c then λ s, match s.(se_ext) with
                                | None => (Ok tt, s)
                                | Some turn => if announces turn "AUTH" then Auth c s else refuse "smtp: server doesn't support AUTH" s
                                end
         else mret tt);
    deliver from to body.

Definition messageText (c : SMTPConfig) (m : Message) : string :=
  "To: " +:+ TrimSpace m.(ms_To) +:+ crlf +:+ "From: " +:+ TrimSpace c.(em_From) +:+ crlf +:+ "Subject: " +:+ m.(ms_Subject) +:+ crlf +:+
  "Content-Type: text/plain; charset=UTF-8" +:+ crlf +:+ crlf +:+ m.(ms_TextBody) +:+ crlf.

Definition Send (c : SMTPConfig) (ctxErr : option err) (m : Message) : S unit :=
  match ctxErr with
  | Some e => λ s, (Err e, s)
  | None =>
      let to := TrimSpace m.(ms_To) in
      if String.eqb to "" then refuse "email recipient is required"
      else
        let from := TrimSpace c.(em_From) in
        if String.eqb from "" then refuse "email sender is required"
        else
          let body := messageText c m in
          if EqualFold c.(em_TLSMode) "implicit" then
            _ ← (if dials then encrypt else refuse "dial");
            _ ← NewClient;
            sendWithClient c from to body
          else if EqualFold c.(em_TLSMode) "starttls" then
            _ ← Dial;
            ok ← Extension "STARTTLS";
            _ ← (if (ok : bool) then StartTLS else refuse "smtp server does not support STARTTLS");
            sendWithClient c from to body
          else SendMail c from to body
  end.

Definition newSession : session := mkSession 0 false None None [].

(** ** What crosses the wire in clear *)

(** The items that carry the credentials, the addresses or the text. *)
Definition confidential (i : item) : bool := match i with AUTH _ _ | MAIL _ | RCPT _ | BODY _ => true | _ => false end.

Definition sealed (l : list (bool * item)) : Prop := Forall (λ e, confidential e.2 = true → e.1 = true) l.

(** [m] keeps an encrypted session encrypted, and adds nothing in clear to it. *)
Definition encrypted {A} (m : S A) : Prop := ∀ s r s', m s = (r, s') → sealed s.(se_sent) → s.(se_tls) = true →
  sealed s'.(se_sent) ∧ s'.(se_tls) = true.

(** [m] sends nothing confidential, and keeps the encryption there is. *)
Definition discreet {A} (m : S A) : Prop := ∀ s r s', m s = (r, s') →
  s'.(se_tls) = s.(se_tls) ∧ (sealed s.(se_sent) → sealed s'.(se_sent)).

Lemma sealed_snoc l e : sealed l → (confidential e.2 = true → e.1 = true) → sealed (l ++ [e]).
Proof. intros Hl He. apply Forall_app. split; [done|]. by constructor. Qed.

Lemma discreet_send i : confidential i = false → discreet (send i).
Proof. intros Hi s r s' [= _ <-]. split; [done|]. intros Hs. apply sealed_snoc; [done|]. simpl. by rewrite Hi. Qed.

Lemma encrypted_send i : encrypted (send i).
Proof. intros s r s' [= _ <-] Hs Ht. split; [|done]. apply sealed_snoc; [done|]. by rewrite Ht. Qed.

Lemma discreet_encrypted {A} (m : S A) : discreet m → encrypted m.
Proof. intros Hm s r s' H Hs Ht. apply Hm in H as [-> H]. auto. Qed.

Lemma encrypted_bind {A B} (m : S A) (f : A → S B) : encrypted m → (∀ a, encrypted (f a)) → encrypted (m ≫= f).
Proof.
  intros Hm Hf s r s' H Hs Ht. unfold mbind, S_bind in H. destruct (m s) as [[a|e] s1] eqn:E.
  - destruct (Hm _ _ _ E Hs Ht) as [Hs1 Ht1]. exact (Hf _ _ _ _ H Hs1 Ht1).
  - injection H as _ <-. exact (Hm _ _ _ E Hs Ht).
Qed.
Lemma encrypted_ret {A} (a : A) : encrypted (mret a).
Proof. by intros s r s' [= _ <-]. Qed.
Lemma encrypted_refuse {A} message : encrypted (refuse (A := A) message).
Proof. by intros s r s' [= _ <-]. Qed.

Lemma discreet_ehlo : discreet ehlo.
Proof.
  intros s r s'. unfold ehlo. destruct (send EHLO s) as [r1 s1] eqn:E. apply discreet_send in E as [Ht Hs]; [|done].
  destruct (is_ok r1); intros [= _ <-]; by split.
Qed.
Lemma discreet_sayHello : discreet sayHello.
Proof.
  intros s r s'. unfold sayHello. destruct (se_hello s); [by intros [= _ <-]|].
  destruct (ehlo s) as [[u|e] s1] eqn:E; apply discreet_ehlo in E as [Ht Hs]; [intros [= _ <-]; by split|].
  destruct (helo s1) as [r2 s2] eqn:E2. unfold helo in E2. apply discreet_send in E2 as [Ht2 Hs2]; [|done].
  intros [= _ <-]. simpl in *. split; [congruence|auto].
Qed.
Lemma discreet_NewClient : discreet NewClient.
Proof. by intros s r s' [= _ <-]. Qed.
Lemma discreet_Dial : discreet Dial.
Proof. unfold Dial. destruct dials; [apply discreet_NewClient|by intros s r s' [= _ <-]]. Qed.
Lemma discreet_Extension e : discreet (Extension e).
Proof.
  intros s r s'. unfold Extension. destruct (sayHello s) as [[u|er] s1] eqn:E; apply discreet_sayHello in E; by intros [= _ <-].
Qed.

Lemma encrypted_orQuit m : encrypted m → encrypted (orQuit m).
Proof.
  intros Hm s r s'. unfold orQuit. destruct (m s) as [[u|e] s1] eqn:E; [intros [= _ <-]; by apply (Hm _ _ _ E)|].
  intros H Hs Ht. destruct (Hm _ _ _ E Hs Ht) as [Hs1 Ht1]. destruct (Quit s1) as [r2 s2] eqn:E2. injection H as _ <-.
  unfold Quit in E2. eapply (encrypted_bind sayHello (λ _, send QUIT)); [apply discreet_encrypted, discreet_sayHello|
    intros; apply encrypted_send|exact E2|done..].
Qed.

Lemma encrypted_Auth c : encrypted (Auth c).
Proof.
  apply encrypted_bind; [apply discreet_encrypted, discreet_sayHello|]. intros _. apply encrypted_orQuit.
  intros s r s' H Hs Ht. rewrite Ht in H. exact (encrypted_send _ _ _ _ H Hs Ht).
Qed.

Lemma encrypted_deliver from to body : encrypted (deliver from to body).
Proof.
  unfold deliver. apply encrypted_bind; [|intros _; apply encrypted_bind; [|intros _; apply encrypted_bind; [|intros _; apply encrypted_bind]]].
  - destruct (oneLine from); [|apply encrypted_refuse].
    apply encrypted_bind; [apply discreet_encrypted, discreet_sayHello|intros; apply encrypted_send].
  - destruct (oneLine to); [apply encrypted_send|apply encrypted_refuse].
  - apply encrypted_send.
  - apply encrypted_send.
  - intros _. apply encrypted_send.
Qed.

Lemma encrypted_sendWithClient c from to body : encrypted (sendWithClient c from to body).
Proof.
  apply encrypted_bind; [destruct (hasAuth c); [apply encrypted_Auth|apply encrypted_ret]|]. intros _. apply encrypted_deliver.
Qed.

(** After [StartTLS] the session is encrypted, or nothing follows. *)
Lemma StartTLS_seals s r s' : StartTLS s = (r, s') → sealed s.(se_sent) → sealed s'.(se_sent) ∧ (is_ok r = true → s'.(se_tls) = true).
Proof.
  unfold StartTLS, mbind, S_bind. intros H Hs. destruct (sayHello s) as [[u|e] s1] eqn:E1; apply discreet_sayHello in E1 as [_ H1].
  2: { injection H as <- <-. by split; [apply H1|]. }
  destruct (send STARTTLS s1) as [[u2|e] s2] eqn:E2; apply discreet_send in E2 as [_ H2]; [|done| |done].
  2: { injection H as <- <-. by split; [apply H2, H1|]. }
  unfold encrypt in H. apply discreet_ehlo in H as [Ht H3]. simpl in *. split; [by apply H3, H2, H1|]. by rewrite Ht.
Qed.

Lemma Send_sealed c ctxErr m r s' :
  EqualFold c.(em_TLSMode) "implicit" || EqualFold c.(em_TLSMode) "starttls" = true →
  Send c ctxErr m newSession = (r, s') → sealed s'.(se_sent).
Proof.
  assert (Hnil : sealed newSession.(se_sent)) by constructor.
  unfold Send. intros Hmode H. destruct ctxErr; [by injection H as _ <-|].
  destruct (String.eqb _ _); [by injection H as _ <-|]. destruct (String.eqb _ _); [by injection H as _ <-|].
  destruct (EqualFold (em_TLSMode c) "implicit").
  - destruct dials; [|by injection H as _ <-].
    refine (proj1 (encrypted_bind NewClient (λ _, sendWithClient c _ _ _) (discreet_encrypted _ discreet_NewClient)
      (λ _, encrypted_sendWithClient c _ _ _) (mkSession 0 true None None []) _ _ H Hnil eq_refl)).
  - simpl in Hmode. rewrite Hmode in H. unfold mbind, S_bind in H.
    destruct (Dial newSession) as [[u|e] s1] eqn:E1; apply discreet_Dial in E1 as [_ H1]; [|injection H as _ <-; auto].
    destruct (Extension "STARTTLS" s1) as [[ok|e] s2] eqn:E2; apply discreet_Extension in E2 as [_ H2]; [|injection H as _ <-; auto].
    destruct ok; [|injection H as _ <-; auto].
    destruct (StartTLS s2) as [[u2|e] s3] eqn:E3; apply StartTLS_seals in E3 as [H3 Ht]; auto; [|by injection H as _ <-].
    exact (proj1 (encrypted_sendWithClient _ _ _ _ _ _ _ H H3 (Ht eq_refl))).
Qed.

(** ** What a success means *)

Lemma S_bind_ok {A B} (m : S A) (f : A → S B) s b s' :
  (m ≫= f) s = (Ok b, s') → ∃ a s1, m s = (Ok a, s1) ∧ f a s1 = (Ok b, s').
Proof. unfold mbind, S_bind. destruct (m s) as [[a|e] s1]; [eauto|done]. Qed.

Lemma send_ok i s s' : send i s = (Ok tt, s') → s'.(se_tls) = s.(se_tls) ∧ s'.(se_sent) = s.(se_sent) ++ [(s.(se_tls), i)].
Proof. unfold send. by intros [= _ <-]. Qed.

(** The five commands that hand a message over, as the last of a session. *)
Definition handed_over (from to body : string) (s : session) : Prop :=
  ∃ before tls, s.(se_sent) = before ++ [(tls, MAIL from); (tls, RCPT to); (tls, DATA); (tls, BODY body); (tls, QUIT)].

Lemma deliver_ok from to body s s' : deliver from to body s = (Ok tt, s') →
  oneLine from = true ∧ oneLine to = true ∧ handed_over from to body s'.
Proof.
  unfold deliver. intros ([] & s1 & H1 & H)%S_bind_ok. destruct (oneLine from); [|done].
  apply S_bind_ok in H1 as ([] & s0 & _ & [T1 L1]%send_ok).
  apply S_bind_ok in H as ([] & s2 & H2 & H). destruct (oneLine to); [|done]. apply send_ok in H2 as [T2 L2].
  apply S_bind_ok in H as ([] & s3 & [T3 L3]%send_ok & H). apply S_bind_ok in H as ([] & s4 & [T4 L4]%send_ok & [T5 L5]%send_ok).
  split; [done|]. split; [done|]. exists s0.(se_sent), s0.(se_tls). rewrite L5, L4, L3, L2, L1, T4, T3, T2, T1.
  by rewrite <- !app_assoc.
Qed.

Lemma Send_ok c m s' : Send c None m newSession = (Ok tt, s') →
  oneLine (TrimSpace c.(em_From)) = true ∧ oneLine (TrimSpace m.(ms_To)) = true ∧
  handed_over (TrimSpace c.(em_From)) (TrimSpace m.(ms_To)) (messageText c m) s'.
Proof.
  unfold Send. destruct (String.eqb _ _); [done|]. destruct (String.eqb _ _); [done|]. destruct (EqualFold _ _).
  - intros (? & ? & _ & (? & ? & _ & (? & ? & _ & H)%S_bind_ok)%S_bind_ok)%S_bind_ok. by apply deliver_ok in H.
  - destruct (EqualFold _ _).
    + intros (? & ? & _ & (? & ? & _ & (? & ? & _ & (? & ? & _ & H)%S_bind_ok)%S_bind_ok)%S_bind_ok)%S_bind_ok.
      by apply deliver_ok in H.
    + unfold SendMail. destruct (negb _); [done|].
      intros (? & ? & _ & (? & ? & _ & (? & ? & _ & (? & ? & _ & (? & ? & _ & H)%S_bind_ok)%S_bind_ok)%S_bind_ok)%S_bind_ok)%S_bind_ok.
      by apply deliver_ok in H.
Qed.

(** C35: The mail of a login reaches its server sealed and whole: in the modes
    [implicit] and [starttls], whatever the server answers and wherever the
    session breaks off, the credentials, the addresses and the text are sent
    over an encrypted connection or not at all; and in every mode a success
    means that the addresses, which have no line break in them to smuggle a
    command with, and the whole text were handed over, as the session's last
    commands. *)
Theorem mail_sealed_and_whole c m r s' :
  Send c None m newSession = (r, s') →
  (EqualFold c.(em_TLSMode) "implicit" || EqualFold c.(em_TLSMode) "starttls" = true → sealed s'.(se_sent)) ∧
  (r = Ok tt → oneLine (TrimSpace c.(em_From)) = true ∧ oneLine (TrimSpace m.(ms_To)) = true ∧
     handed_over (TrimSpace c.(em_From)) (TrimSpace m.(ms_To)) (messageText c m) s').
Proof.
  intros H. split; [intros Hm; by apply (Send_sealed _ _ _ _ _ Hm H)|]. intros ->. by apply Send_ok.
Qed.
End smtp.

(** ** An example: a server that offers encryption *)

#[export] Instance ex_server : MailServer := {|
  dials := true;
  replies _ := true;
  announces turn extension := String.eqb extension "STARTTLS" || (Nat.ltb 3 turn && String.eqb extension "AUTH")
|}.
Definition ex_smtp : SMTPConfig := mkSMTPConfig "mail.example" 587 "gw" "pw" " login@example " "STARTTLS".
Definition ex_mail : Message := mkMessage "ann@acme.example" "Hello" "link".

Example ex_session : map (λ e, (e.1, confidential e.2)) (Send ex_smtp None ex_mail newSession).2.(se_sent) =
  [(false, false); (false, false); (true, false); (true, true); (true, true); (true, true); (true, false); (true, true); (true, false)].
Proof. vm_compute. done. Qed.

Lemma mail_sealed_and_whole_witness :
  ∃ s', Send ex_smtp None ex_mail newSession = (Ok tt, s') ∧ sealed s'.(se_sent) ∧
    handed_over "login@example" "ann@acme.example" (messageText ex_smtp ex_mail) s'.
Proof.
  destruct (Send ex_smtp None ex_mail newSession) as [r s'] eqn:E.
  assert (r = Ok tt) as -> by (vm_compute in E; by injection E as <- _).
  destruct (mail_sealed_and_whole ex_smtp ex_mail _ s' E) as [Hs Hw]. exists s'. split; [done|].
  split; [by apply Hs|]. exact (proj2 (proj2 (Hw eq_refl))).
Defined.
End Email.
