(* ===== verification/App.v ===== *)
(** * Wiring the gateway: [internal/app/app.go], [internal/app/router.go]

    The services made of a configuration, and the table of everything the
    server answers. The database, Redis and the sinks are given as reachable or
    not; how they are opened and closed is in [Commands]. *)

From Stdlib Require Import QArith.
From S2P Require Import Prelude GoTime GoStrings Encodings Costing Store ExampleWorld QuotaService Tokens ApiKeys.
From S2P Require Import Rbac AdminTokens Sessions MagicLinks.
From S2P Require Import Secrets Outbound HttpClient Limits BudgetService AnomalyService Routing ContentPolicy Pricing Metering BudgetAlerts.
From S2P Require Import Redis RateLimit Float64 GatewayBase Providers Caches Adapters Gateway HttpServer ChatHandler.
From S2P Require Import RequestLogs AdminAudit AdminHandlers AccessHandlers Reports AdminRoutes Config.
#[local] Open Scope Z_scope.

Record RouterConfig := mkRouterConfig {
  rc_AppEnv : string;
  rc_PlatformBootstrapToken : string;
  rc_TokenHashKeyRing : TokenHashKeyRing;
  rc_SecretEncryptionKey : string;
  rc_SecretKeyRing : Secrets.SecretKeyRing;
  rc_MaxRetries : Z;
  rc_RetryBackoffMS : Z;
  rc_RateLimiter : option Http.Limiter;
  rc_UsageEventPublisher : bool;         (** Kafka, not the [DisabledPublisher] *)
  rc_UsageAnalytics : bool;              (** backed by ClickHouse *)
  rc_PromptCache : option Caches.PromptCache;
  rc_SemanticCache : option Caches.SemanticCache;
  rc_SemanticCacheThreshold : float64;
  rc_SemanticCacheMaxTemp : float64;
  rc_OutboundPublicOnly : bool;
  rc_PasswordlessEmailEnabled : bool;
  rc_MagicLinkBaseURL : string;
  rc_MagicLinkTTL : Z;
  rc_EmailSender : bool
}.

(** A route with its full path, and its handler behind the middlewares of its group. *)
Record Endpoint := mkEndpoint { ep_Method : string; ep_Path : string; ep_Handler : Http.Handler }.

Module App.
Import Config Secrets GatewayBase Gateway Http AdminAudit AdminRoutes ChatHandler.

Section start.
Context {RT : Runtime}.

(** ** The services *)

Definition newPromptCache (cfg : Config) (redisClient : bool) : result (option Caches.PromptCache) :=
  if negb cfg.(PromptCacheEnabled) || negb redisClient then Ok None
  else cache ← Caches.NewPromptCache (cfg.(PromptCacheTTLSeconds) *₆₄ Second) cfg.(SecretEncryptionKey); Ok (Some cache).

Definition newSemanticCache (cfg : Config) (redisClient : bool) : result (option Caches.SemanticCache) :=
  if negb cfg.(SemanticCacheEnabled) || negb redisClient then Ok None
  else cache ← Caches.NewSemanticCache (cfg.(PromptCacheTTLSeconds) *₆₄ Second) cfg.(SecretEncryptionKey); Ok (Some cache).

Definition newTokenHashKeyRing (cfg : Config) : M TokenHashKeyRing :=
  secrets ← lift (TokenHashSecrets cfg);
  NewTokenHashKeyRing (wrap32 (orOne cfg.(TokenHashSecretVersion))) secrets.

Definition newSecretKeyRing (cfg : Config) : M SecretKeyRing :=
  keys ← lift (SecretEncryptionKeys cfg);
  NewSecretKeyRing (wrap32 (orOne cfg.(SecretEncryptionKeyVersion))) keys.

(** Whether there is a sender. *)
Definition newEmailSender (cfg : Config) : bool := cfg.(PasswordlessEmailEnabled).

(** The configuration [newWithDependencies] hands to the router. *)
Definition newWithDependencies (cfg : Config) (redisClient : bool) (limiter : option Limiter) (publisher analytics : bool)
    : M RouterConfig :=
  promptCache ← lift (newPromptCache cfg redisClient);
  semanticCache ← lift (newSemanticCache cfg redisClient);
  secretKeyRing ← newSecretKeyRing cfg;
  tokenHashKeyRing ← newTokenHashKeyRing cfg;
  mret (mkRouterConfig cfg.(AppEnv) cfg.(PlatformBootstrapToken) tokenHashKeyRing cfg.(SecretEncryptionKey) secretKeyRing
          cfg.(cfg_MaxRetries) cfg.(RetryBackoffMS) limiter publisher analytics promptCache semanticCache
          cfg.(SemanticCacheThreshold) cfg.(SemanticCacheMaxTemp) cfg.(OutboundPublicOnly) cfg.(PasswordlessEmailEnabled)
          cfg.(MagicLinkBaseURL) (cfg.(MagicLinkTTLSeconds) *₆₄ Second) (newEmailSender cfg)).

(** ** The routes *)

Context {AE : AEAD} {NE : Net} {TR : Transport} {WH : Webhooks} {DG : Digests}.
Context {TX : ReportText} {RP : RequestParsing} {AB : AdminBodies} {CB : AccessBodies}.
Context {SU : Surroundings} {CJ : Caches.CacheJSON} {RD : Redis} {UJ : Adapters.UpstreamJSON}.
Variable percentile_cont : Q → list Z → Q.
Variable metricsHandler : Handler.        (** [promhttp.Handler] *)

Definition mount (prefix : string) (handler : Route → Handler) (route : Route) : Endpoint :=
  mkEndpoint route.(ro_Method) (prefix +:+ route.(ro_Path)) (handler route).

Definition Health : Handler := λ _, mret (mkReply 200 (BodyJSON (JObj [("status", JStr "ok")])) None).

Definition registerGatewayRoutes (cfg : RouterConfig) (limiter : Limiter) : M (list Endpoint) :=
  let recorder := Metering.mkService false cfg.(rc_UsageAnalytics) true in
  chat ← NewChatService (Metering.mkService cfg.(rc_UsageEventPublisher) cfg.(rc_UsageAnalytics) true)
    cfg.(rc_SecretEncryptionKey) true (NewRetryPolicy cfg.(rc_MaxRetries) cfg.(rc_RetryBackoffMS)) cfg.(rc_PromptCache)
    (Some (cfg.(rc_SemanticCache), Some (λ text, Ok (Caches.Embed text)), cfg.(rc_SemanticCacheThreshold), cfg.(rc_SemanticCacheMaxTemp)))
    cfg.(rc_OutboundPublicOnly) (Some cfg.(rc_SecretKeyRing));
  mret [mkEndpoint "POST" "/v1/chat/completions" (chatRoute chat cfg.(rc_TokenHashKeyRing) (Some limiter) (Some recorder))].

Definition adminServices (cfg : RouterConfig) : M AdminServices :=
  providers ← Providers.NewService cfg.(rc_SecretEncryptionKey) (Some cfg.(rc_SecretKeyRing)) cfg.(rc_OutboundPublicOnly);
  let alerts := BudgetAlerts.mkAlertService cfg.(rc_OutboundPublicOnly) (Some cfg.(rc_SecretKeyRing)) in
  let magicLinks := if cfg.(rc_PasswordlessEmailEnabled) && cfg.(rc_EmailSender)
                    then Some (MagicLinks.mkMagicLinkService true cfg.(rc_MagicLinkBaseURL) (MagicLinks.linkTTL cfg.(rc_MagicLinkTTL)))
                    else None in
  mret (mkAdminServices cfg.(rc_TokenHashKeyRing) providers alerts magicLinks (String.eqb cfg.(rc_AppEnv) "production")).

Definition registerAdminRoutes (s : AdminServices) : list Endpoint :=
  map (mount "/api/v1/admin" ro_Handler) (publicRoutes s) ++
  map (mount "/api/v1/admin" (adminHandler s)) (adminRoutes percentile_cont s).

Definition registerPlatformRoutes (s : AdminServices) (bootstrapToken : string) : list Endpoint :=
  map (mount "/api/v1/platform" (platformHandler bootstrapToken)) (platformRoutes s).

(** Every route of a router that has a store. *)
Definition NewRouter (cfg : RouterConfig) : M (list Endpoint) :=
  services ← adminServices cfg;
  gateway ← match cfg.(rc_RateLimiter) with Some limiter => registerGatewayRoutes cfg limiter | None => mret [] end;
  mret ([mkEndpoint "GET" "/healthz" Health] ++
        (if String.eqb cfg.(rc_AppEnv) "production" then [] else [mkEndpoint "GET" "/metrics" metricsHandler]) ++
        registerPlatformRoutes services cfg.(rc_PlatformBootstrapToken) ++ registerAdminRoutes services ++ gateway).
End start.

(** ** Building a ring *)

Lemma forM_turns {S A} (body : S → A → M S) l acc w acc' w' :
  forM l acc body w = (Ok acc', w') → ∀ x, x ∈ l → ∃ a w1 a' w2, body a x w1 = (Ok a', w2).
Proof.
  revert acc w. induction l as [|y l IH]; intros acc w H x Hx; [by apply not_elem_of_nil in Hx|].
  simpl in H. apply bind_ok in H as (a & w1 & Hy & H). apply elem_of_cons in Hx as [->|Hx]; [eauto|by eapply IH].
Qed.

Lemma forM_insert {A B} (f : A → B) (body : gmap Z B → Z * A → M (gmap Z B)) l :
  (∀ acc e w, e ∈ l → body acc e w = (Ok (<[e.1 := f e.2]> acc), w)) →
  ∀ acc w, forM l acc body w = (Ok (foldl (λ m e, <[e.1 := f e.2]> m) acc l), w).
Proof.
  induction l as [|e l IH]; intros Hb acc w; [done|]. simpl. unfold mbind, M_bind at 1.
  rewrite (Hb acc e w) by by left. apply IH. intros acc' e' w' He. apply Hb. by right.
Qed.

(** Going once through the entries of a map, in any order, rebuilds it. *)
Lemma foldl_entries {A B} (f : A → B) (m : gmap Z A) l : l ≡ₚ map_to_list m →
  foldl (λ acc e, <[e.1 := f e.2]> acc) ∅ l = f <$> m.
Proof.
  intros Hl. assert (Hd : NoDup (map fst l)) by (rewrite Hl; exact (NoDup_fst_map_to_list m)).
  rewrite foldl_insert by done. rewrite (right_id_L ∅ _). f_equal.
  rewrite <- (list_to_map_to_list m). apply list_to_map_proper; [done|exact Hl].
Qed.

Section rings.
Context {RT : Runtime}.

Definition positive {A} (m : gmap Z A) : Prop := ∀ v, is_Some (m !! v) → 0 < v.

Lemma NewTokenHashKeyRing_run version (secrets : gmap Z string) w :
  map_Forall (λ _ s, s ≠ "") secrets → is_Some (secrets !! version) → positive secrets →
  NewTokenHashKeyRing version secrets w =
    (Ok (mkTokenHashKeyRing version (mkTokenHasher <$> secrets)), set_fresh (S w.(w_fresh)) w).
Proof.
  intros Hne [s Hs] Hp. unfold NewTokenHashKeyRing. rewrite (proj2 (Z.leb_gt _ _)) by (apply Hp; eauto).
  destruct (size secrets =? 0)%nat eqn:E; [apply Nat.eqb_eq, map_size_empty_inv in E; by rewrite E, lookup_empty in Hs|].
  destruct (range_run secrets w) as (l & Hr & Hl). rewrite (bind_run _ _ _ _ _ Hr).
  rewrite (bind_run _ _ _ (mkTokenHasher <$> secrets) (set_fresh (S (w_fresh w)) w)).
  - by rewrite lookup_fmap, Hs.
  - rewrite (forM_insert mkTokenHasher); [by rewrite (foldl_entries mkTokenHasher secrets)|].
    intros acc [v k] w' He. rewrite Hl in He. apply elem_of_map_to_list in He.
    rewrite (proj2 (Z.leb_gt _ _)) by (apply Hp; eauto). by rewrite (proj2 (String.eqb_neq _ _) (Hne _ _ He)).
Qed.

Lemma NewTokenHashKeyRing_positive version (secrets : gmap Z string) w ring w' :
  NewTokenHashKeyRing version secrets w = (Ok ring, w') → positive secrets.
Proof.
  unfold NewTokenHashKeyRing. destruct (version <=? 0); [done|]. destruct (_ =? 0)%nat; [done|]. intros H.
  destruct (range_run secrets w) as (l & Hr & Hl). rewrite (bind_run _ _ _ _ _ Hr) in H.
  apply bind_ok in H as (hs & w1 & Hf & _). intros v [s Hs].
  destruct (forM_turns _ _ _ _ _ _ Hf (v, s)) as (a & w2 & a' & w3 & Ht); [rewrite Hl; by apply elem_of_map_to_list|].
  simpl in Ht. destruct (Z.leb_spec v 0); [done|lia].
Qed.

Lemma NewSecretKeyRing_run version (keys : gmap Z string) w :
  map_Forall (λ _ k, String.length k = aes256KeyLength) keys → is_Some (keys !! version) → positive keys →
  NewSecretKeyRing version keys w = (Ok (mkSecretKeyRing version (mkSecretBox <$> keys)), set_fresh (S w.(w_fresh)) w).
Proof.
  intros Hne [s Hs] Hp. unfold NewSecretKeyRing. rewrite (proj2 (Z.leb_gt _ _)) by (apply Hp; eauto).
  destruct (size keys =? 0)%nat eqn:E; [apply Nat.eqb_eq, map_size_empty_inv in E; by rewrite E, lookup_empty in Hs|].
  destruct (range_run keys w) as (l & Hr & Hl). rewrite (bind_run _ _ _ _ _ Hr).
  rewrite (bind_run _ _ _ (mkSecretBox <$> keys) (set_fresh (S (w_fresh w)) w)).
  - by rewrite lookup_fmap, Hs.
  - rewrite (forM_insert mkSecretBox); [by rewrite (foldl_entries mkSecretBox keys)|].
    intros acc [v k] w' He. rewrite Hl in He. apply elem_of_map_to_list in He.
    rewrite (proj2 (Z.leb_gt _ _)) by (apply Hp; eauto). unfold NewSecretBox.
    by rewrite (proj2 (Nat.eqb_eq _ _) (Hne _ _ He)).
Qed.

Lemma NewSecretKeyRing_positive version (keys : gmap Z string) w ring w' :
  NewSecretKeyRing version keys w = (Ok ring, w') → positive keys.
Proof.
  unfold NewSecretKeyRing. destruct (version <=? 0); [done|]. destruct (_ =? 0)%nat; [done|]. intros H.
  destruct (range_run keys w) as (l & Hr & Hl). rewrite (bind_run _ _ _ _ _ Hr) in H.
  apply bind_ok in H as (hs & w1 & Hf & _). intros v [s Hs].
  destruct (forM_turns _ _ _ _ _ _ Hf (v, s)) as (a & w2 & a' & w3 & Ht); [rewrite Hl; by apply elem_of_map_to_list|].
  simpl in Ht. destruct (Z.leb_spec v 0); [done|lia].
Qed.

(** ** A configuration that passed validation *)

Lemma newPromptCache_ok cfg redis : String.length cfg.(SecretEncryptionKey) = aes256KeyLength →
  ∃ cache, newPromptCache cfg redis = Ok cache.
Proof.
  intros Hk. unfold newPromptCache. case_match; [by eexists|]. unfold Caches.NewPromptCache, Caches.newResponseCodec, NewSecretBox.
  rewrite (proj2 (Nat.eqb_eq _ _) Hk). by eexists.
Qed.

Lemma newSemanticCache_ok cfg redis : String.length cfg.(SecretEncryptionKey) = aes256KeyLength →
  ∃ cache, newSemanticCache cfg redis = Ok cache.
Proof.
  intros Hk. unfold newSemanticCache. case_match; [by eexists|]. unfold Caches.NewSemanticCache, Caches.newResponseCodec, NewSecretBox.
  rewrite (proj2 (Nat.eqb_eq _ _) Hk). by eexists.
Qed.

Lemma orOne_id version : 0 < version → orOne version = version.
Proof. intros Hv. unfold orOne. by rewrite (proj2 (Z.leb_gt _ _)). Qed.

(** What the start of the gateway returns for the given keys. *)
Definition started (cfg : Config) (secrets keys : gmap Z string) (start : result RouterConfig * world) (w : world) : Prop :=
  match start with
  | (Ok rc, w') =>
      w_db w' = w_db w ∧ positive secrets ∧ positive keys ∧
      rc.(rc_TokenHashKeyRing) = mkTokenHashKeyRing (wrap32 cfg.(TokenHashSecretVersion)) (mkTokenHasher <$> secrets) ∧
      is_Some (rc.(rc_TokenHashKeyRing).(hashers) !! rc.(rc_TokenHashKeyRing).(activeVersion)) ∧
      rc.(rc_SecretKeyRing) = mkSecretKeyRing (wrap32 cfg.(SecretEncryptionKeyVersion)) (mkSecretBox <$> keys) ∧
      ring_ok rc.(rc_SecretKeyRing)
  | (Err _, _) => ∃ v, (is_Some (secrets !! v) ∨ is_Some (keys !! v)) ∧ oversized v
  end.

Lemma positive_or_oversized (m : gmap Z string) : map_Forall (λ v _, v <= 0 → oversized v) m →
  positive m ∨ ∃ v, is_Some (m !! v) ∧ oversized v.
Proof.
  intros Hm. destruct (decide (map_Forall (λ v _, 0 < v) m)) as [Hp|Hp].
  - left. intros v [s Hs]. by apply Hp in Hs.
  - right. apply map_not_Forall in Hp as (v & s & Hs & Hv); [|apply _]. exists v. split; [by eexists|]. apply (Hm v s Hs). lia.
Qed.

(** C29: A configuration that [Validate] accepts starts the gateway, with key
    rings that hold exactly the configured keys under their versions and have
    the active one, ready to seal and to hash; the one way for the start to
    fail is a key version of [2^31] or more, which [int32] turns around. *)
Theorem valid_config_starts {NT : Net} {EV : Environment} cfg redis limiter publisher analytics w :
  Validate cfg = Ok tt →
  ∃ secrets keys, TokenHashSecrets cfg = Ok secrets ∧ SecretEncryptionKeys cfg = Ok keys ∧
    started cfg secrets keys (newWithDependencies cfg redis limiter publisher analytics w) w.
Proof.
  intros (Hv & (secrets & Hs) & Hne & Hkv & (keys & Hk) & Hlen & _)%Validate_ok. exists secrets, keys. split; [done|]. split; [done|].
  destruct (TokenHashSecrets_ok _ _ Hs Hne Hv) as (Hs1 & Hs2 & Hs3).
  destruct (SecretEncryptionKeys_ok _ _ Hk Hlen Hkv) as (Hk1 & Hk2 & Hk3).
  destruct (newPromptCache_ok cfg redis Hlen) as [prompts Hp]. destruct (newSemanticCache_ok cfg redis Hlen) as [semantic Hsem].
  unfold newWithDependencies. rewrite Hp, Hsem. unfold lift at 1 2, newSecretKeyRing, newTokenHashKeyRing. rewrite Hk, Hs.
  rewrite !orOne_id by done. unfold lift, mbind, M_bind.
  destruct (NewSecretKeyRing (wrap32 (SecretEncryptionKeyVersion cfg)) keys w) as [[ring|e] w1] eqn:E1.
  - pose proof (NewSecretKeyRing_positive _ _ _ _ _ E1) as Hkp.
    rewrite (NewSecretKeyRing_run _ _ _ Hk1 Hk2 Hkp) in E1. injection E1 as <- <-.
    destruct (NewTokenHashKeyRing (wrap32 (TokenHashSecretVersion cfg)) secrets _) as [[ring|e] w2] eqn:E2.
    + pose proof (NewTokenHashKeyRing_positive _ _ _ _ _ E2) as Hsp.
      rewrite (NewTokenHashKeyRing_run _ _ _ Hs1 Hs2 Hsp) in E2. injection E2 as <- <-. unfold started. simpl.
      split_and!; try done; [rewrite lookup_fmap; by apply fmap_is_Some|].
      split; [|destruct Hk2 as [k Hk2]; simpl; rewrite lookup_fmap, Hk2; by eexists].
      simpl. pose proof (wrap32_range (SecretEncryptionKeyVersion cfg)). apply Hkp in Hk2. unfold_ranges. lia.
    + destruct (positive_or_oversized _ Hs3) as [Hsp|(v & Hin & Hov)]; [|by eexists; split; [left|]].
      by rewrite (NewTokenHashKeyRing_run _ _ _ Hs1 Hs2 Hsp) in E2.
  - destruct (positive_or_oversized _ Hk3) as [Hkp|(v & Hin & Hov)]; [|by eexists; split; [right|]].
    by rewrite (NewSecretKeyRing_run _ _ _ Hk1 Hk2 Hkp) in E1.
Qed.

(** ** Rotating the keys by editing the texts of the rings *)

(** The ring of a text of entries. *)
Lemma newTokenHashKeyRing_render cfg entries w : cfg.(TokenHashSecretKeyring) = renderKeyring entries →
  Forall (writable notEmpty) entries → NoDup (map fst entries) → cfg.(TokenHashSecretVersion) ∈ map fst entries →
  newTokenHashKeyRing cfg w =
    (Ok (mkTokenHashKeyRing cfg.(TokenHashSecretVersion) (mkTokenHasher <$> (list_to_map entries : gmap Z string))),
     set_fresh (S w.(w_fresh)) w).
Proof.
  intros Ht Hw Hd Hv. pose proof (writable_version _ _ _ Hw Hv). unfold newTokenHashKeyRing.
  rewrite (TokenHashSecrets_render cfg entries) by done. unfold lift, mbind, M_bind.
  rewrite orOne_id, wrap32_id by (unfold_ranges; lia). apply NewTokenHashKeyRing_run.
  - intros v s Hs. apply elem_of_list_to_map_2 in Hs. apply list_elem_of_In in Hs. rewrite Forall_forall in Hw.
    apply Hw in Hs as (_ & _ & Ha). by apply negb_true_iff, String.eqb_neq in Ha.
  - by apply list_to_map_present.
  - intros v [s Hs]. apply elem_of_list_to_map_2 in Hs. apply list_elem_of_In in Hs. rewrite Forall_forall in Hw.
    apply Hw in Hs as (? & _). simpl in *. lia.
Qed.

Lemma newSecretKeyRing_render cfg entries w : cfg.(SecretEncryptionKeyring) = renderKeyring entries →
  Forall (writable aesKey) entries → NoDup (map fst entries) → cfg.(SecretEncryptionKeyVersion) ∈ map fst entries →
  newSecretKeyRing cfg w =
    (Ok (mkSecretKeyRing cfg.(SecretEncryptionKeyVersion) (mkSecretBox <$> (list_to_map entries : gmap Z string))),
     set_fresh (S w.(w_fresh)) w).
Proof.
  intros Ht Hw Hd Hv. pose proof (writable_version _ _ _ Hw Hv). unfold newSecretKeyRing.
  rewrite (SecretEncryptionKeys_render cfg entries) by done. unfold lift, mbind, M_bind.
  rewrite orOne_id, wrap32_id by (unfold_ranges; lia). apply NewSecretKeyRing_run.
  - intros v s Hs. apply elem_of_list_to_map_2 in Hs. apply list_elem_of_In in Hs. rewrite Forall_forall in Hw.
    apply Hw in Hs as (_ & _ & Ha). by apply Nat.eqb_eq.
  - by apply list_to_map_present.
  - intros v [s Hs]. apply elem_of_list_to_map_2 in Hs. apply list_elem_of_In in Hs. rewrite Forall_forall in Hw.
    apply Hw in Hs as (? & _). simpl in *. lia.
Qed.

(** The texts of a configuration's rings. *)
Record rings_written (cfg : Config) (hashes keys : list (Z * string)) : Prop := {
  rw_hashes : cfg.(TokenHashSecretKeyring) = renderKeyring hashes;
  rw_keys : cfg.(SecretEncryptionKeyring) = renderKeyring keys;
  rw_hashes_ok : Forall (writable notEmpty) hashes;
  rw_keys_ok : Forall (writable aesKey) keys;
  rw_hashes_once : NoDup (map fst hashes);
  rw_keys_once : NoDup (map fst keys);
  rw_hash_active : cfg.(TokenHashSecretVersion) ∈ map fst hashes;
  rw_key_active : cfg.(SecretEncryptionKeyVersion) ∈ map fst keys
}.

(** What the old ring hashed or sealed, the new one recognises and opens. *)
Definition recognises {AE : AEAD} (old new : TokenHashKeyRing) (oldKeys newKeys : SecretKeyRing) : Prop :=
  (∀ token w, (Matches new token (Hash old token) w).1 = Ok true) ∧
  (∀ plaintext w s w', Seal oldKeys plaintext w = (Ok s, w') →
     Open newKeys s.(ss_Encrypted) s.(ss_Nonce) s.(ss_KeyVersion) = Ok plaintext).

Lemma list_to_map_kept (l l' : list (Z * string)) v : l ⊆ l' → NoDup (map fst l') → is_Some ((list_to_map l : gmap Z string) !! v) →
  (list_to_map l' : gmap Z string) !! v = (list_to_map l : gmap Z string) !! v.
Proof.
  intros Hsub Hd [s Hs]. rewrite Hs. apply elem_of_list_to_map_2 in Hs. apply elem_of_list_to_map_1; [done|]. by apply Hsub.
Qed.

(** C24: Key rotation through the configuration: when the operator edits the
    texts of the key rings so that every entry that was there is still there,
    under whatever active version, then the gateway restarted with the new
    texts recognises every token hashed before and opens every secret sealed
    before. *)
Theorem edited_rings_recognise {AE : AEAD} cfg cfg' hashes keys hashes' keys' w w' :
  rings_written cfg hashes keys → rings_written cfg' hashes' keys' → hashes ⊆ hashes' → keys ⊆ keys' →
  ∃ old oldKeys new newKeys w1 w1' w2 w2',
    newTokenHashKeyRing cfg w = (Ok old, w1) ∧ newSecretKeyRing cfg w = (Ok oldKeys, w1') ∧
    newTokenHashKeyRing cfg' w' = (Ok new, w2) ∧ newSecretKeyRing cfg' w' = (Ok newKeys, w2') ∧
    old.(activeVersion) = cfg.(TokenHashSecretVersion) ∧ new.(activeVersion) = cfg'.(TokenHashSecretVersion) ∧
    recognises old new oldKeys newKeys.
Proof.
  intros [Ht Hk Hto Hko Hton Hkon Hta Hka] [Ht' Hk' Hto' Hko' Hton' Hkon' Hta' Hka'] Hsh Hsk.
  rewrite (newTokenHashKeyRing_render cfg hashes), (newSecretKeyRing_render cfg keys) by done.
  rewrite (newTokenHashKeyRing_render cfg' hashes'), (newSecretKeyRing_render cfg' keys') by done.
  repeat eexists.
  - intros token u. unfold Matches.
    match goal with |- context [CandidateHashes ?r token] => destruct (CandidateHashes_run r token u) as (l & Hl & Hin) end.
    rewrite (bind_run _ _ _ _ _ Hl). simpl. f_equal. apply existsb_exists.
    eexists. split; [|by apply String.eqb_refl]. apply list_elem_of_In, Hin.
    destruct (list_to_map_present _ _ Hta) as [s Hs]. exists (TokenHashSecretVersion cfg), (mkTokenHasher s).
    unfold Hash, activeHasher. simpl. rewrite !lookup_fmap, (list_to_map_kept hashes hashes'), Hs by (try done; by eexists).
    done.
  - intros plaintext u s u' Hs. apply Seal_ok in Hs as (_ & Hv & _ & _ & Ho). apply Ho. rewrite Hv. simpl.
    rewrite !lookup_fmap. f_equal. apply list_to_map_kept; [done..|]. by apply list_to_map_present.
Qed.
End rings.

(** ** What a production server answers to strangers *)

Section surface.
Context {RT : Runtime} {AE : AEAD} {NE : Net} {TR : Transport} {WH : Webhooks} {DG : Digests} {EV : Environment}.
Context {TX : ReportText} {RP : RequestParsing} {AB : AdminBodies} {CB : AccessBodies}.
Context {SU : Surroundings} {CJ : Caches.CacheJSON} {RD : Redis} {UJ : Adapters.UpstreamJSON}.
Variable percentile_cont : Q → list Z → Q.
Variable metricsHandler : Handler.

Definition authorization (rq : Request) : option string := bearerToken (rq.(rq_Header) "Authorization").

(** The reply is 401, and nothing has happened. *)
Definition turned_away (h : Handler) (rq : Request) : Prop :=
  ∀ w, ∃ reply w', served h rq w = (Ok reply, w') ∧ reply.(re_Status) = 401 ∧ w_db w' = w_db w ∧ w_trace w' = w_trace w.

Lemma turned_away_if (h : Handler) rq :
  (∀ cx w, cx.(cx_Request) = rq → h cx w = abortUnauthorized cx w) → turned_away h rq.
Proof.
  intros Hh w. unfold served, RequestID, RequestBodyLimit, Recovery, newContext. simpl.
  destruct (String.eqb _ _); unfold mbind, M_bind, new_uuid; simpl; rewrite Hh by done; by eexists _, _.
Qed.

Definition open_paths : list string :=
  ["/healthz"; "/api/v1/admin/sessions/passwordless/request"; "/api/v1/admin/sessions/passwordless/verify"].

(** Behind which door an endpoint is. *)
Inductive door (rc : RouterConfig) (ep : Endpoint) : Prop :=
| door_open : ep.(ep_Path) ∈ open_paths → door rc ep
| door_admin ring next : ep.(ep_Handler) = AdminAuth ring next → door rc ep
| door_gateway ring next : ep.(ep_Handler) = GatewayAPIKeyAuth ring next → door rc ep
| door_platform next : ep.(ep_Handler) = PlatformAuth rc.(rc_PlatformBootstrapToken) next → door rc ep.

Definition under_platform (ep : Endpoint) : bool := HasPrefix ep.(ep_Path) "/api/v1/platform".

Lemma in_map {A B} (f : A → B) l y : y ∈ map f l → ∃ x, y = f x ∧ x ∈ l.
Proof. intros (x & <- & Hx)%list_elem_of_In%in_map_iff. exists x. by rewrite list_elem_of_In. Qed.

Lemma public_doors s rc ep : s.(ad_production) = true → ep ∈ map (mount "/api/v1/admin" ro_Handler) (publicRoutes s) →
  door rc ep ∧ under_platform ep = false.
Proof.
  intros E (route & -> & Hr)%in_map. split; [|done]. apply door_open. unfold publicRoutes in Hr. rewrite E in Hr.
  destruct (ad_magicLinks s); simpl in Hr; [|by apply not_elem_of_nil in Hr].
  apply elem_of_cons in Hr as [->|Hr]; [right; by left|]. apply list_elem_of_singleton in Hr as ->. right; right; by left.
Qed.

Lemma router_doors rc w eps w' : NewRouter percentile_cont metricsHandler rc w = (Ok eps, w') → rc.(rc_AppEnv) = "production" →
  ∀ ep, ep ∈ eps → door rc ep ∧
    (under_platform ep = true → ∃ next, ep.(ep_Handler) = PlatformAuth rc.(rc_PlatformBootstrapToken) next).
Proof.
  unfold NewRouter. intros H E ep Hep. apply bind_ok in H as (services & w1 & Hs & H).
  assert (Hprod : services.(ad_production) = true).
  { apply bind_ok in Hs as (providers & w3 & _ & [<- _]%ret_ok). simpl. by apply String.eqb_eq. }
  apply bind_ok in H as (gateway & w2 & Hg & [<- _]%ret_ok). rewrite (proj2 (String.eqb_eq _ _) E) in Hep.
  apply elem_of_app in Hep as [Hep|Hep].
  { apply list_elem_of_singleton in Hep as ->. split; [apply door_open; by left|done]. }
  apply elem_of_app in Hep as [Hep|Hep]; [by apply not_elem_of_nil in Hep|].
  apply elem_of_app in Hep as [(route & -> & _)%in_map|Hep].
  { split; [by eapply door_platform|]. intros _. by eexists. }
  apply elem_of_app in Hep as [Hep|Hep].
  - apply elem_of_app in Hep as [Hep|(route & -> & _)%in_map]; [|split; [by eapply door_admin|done]].
    destruct (public_doors _ rc _ Hprod Hep) as [Hd ->]. done.
  - destruct (rc_RateLimiter rc) as [limiter|]; [|apply ret_ok in Hg as [<- _]; by apply not_elem_of_nil in Hep].
    apply bind_ok in Hg as (chat & w3 & _ & [<- _]%ret_ok). apply list_elem_of_singleton in Hep as ->.
    split; [by eapply door_gateway|done].
Qed.

Lemma newWithDependencies_fields cfg redis limiter publisher analytics w rc w' :
  newWithDependencies cfg redis limiter publisher analytics w = (Ok rc, w') →
  rc.(rc_AppEnv) = cfg.(AppEnv) ∧ rc.(rc_PlatformBootstrapToken) = cfg.(PlatformBootstrapToken) ∧
  rc.(rc_OutboundPublicOnly) = cfg.(OutboundPublicOnly) ∧ rc.(rc_PasswordlessEmailEnabled) = cfg.(PasswordlessEmailEnabled) ∧
  rc.(rc_MagicLinkBaseURL) = cfg.(MagicLinkBaseURL).
Proof.
  unfold newWithDependencies. intros H. repeat (apply bind_ok in H as (?a & ?u & _ & H)). apply ret_ok in H as [<- _]. done.
Qed.

(** What a server keys its hashes and seals with when no ring is configured
    beside them: the two values themselves. *)
Lemma newWithDependencies_keys cfg redis limiter publisher analytics w rc w' :
  newWithDependencies cfg redis limiter publisher analytics w = (Ok rc, w') → Validate cfg = Ok tt →
  rc.(rc_SecretEncryptionKey) = cfg.(SecretEncryptionKey) ∧
  (TrimSpace cfg.(TokenHashSecretKeyring) = "" →
     rc.(rc_TokenHashKeyRing).(hashers) = {[wrap32 cfg.(TokenHashSecretVersion) := mkTokenHasher cfg.(TokenHashSecret)]}) ∧
  (TrimSpace cfg.(SecretEncryptionKeyring) = "" →
     rc.(rc_SecretKeyRing).(kr_boxes) = {[wrap32 cfg.(SecretEncryptionKeyVersion) := mkSecretBox cfg.(SecretEncryptionKey)]}).
Proof.
  intros H (Hv & _ & Hne & Hkv & _ & Hlen & _)%Validate_ok. unfold newWithDependencies in H.
  apply bind_ok in H as (prompts & w1 & _ & H). apply bind_ok in H as (semantic & w2 & _ & H).
  apply bind_ok in H as (ring & w3 & Hring & H). apply bind_ok in H as (hring & w4 & Hh & [<- _]%ret_ok).
  split; [done|]. simpl. split; intros Hno.
  - unfold newTokenHashKeyRing, TokenHashSecrets in Hh. rewrite Hno, !orOne_id in Hh by done. simpl in Hh.
    unfold lift, mbind, M_bind in Hh. pose proof (NewTokenHashKeyRing_positive _ _ _ _ _ Hh) as Hp.
    rewrite NewTokenHashKeyRing_run in Hh; [|by apply map_Forall_singleton|rewrite lookup_singleton_eq; by eexists|done].
    injection Hh as <- _. simpl. by rewrite map_fmap_singleton.
  - unfold newSecretKeyRing, SecretEncryptionKeys in Hring. rewrite Hno, !orOne_id in Hring by done. simpl in Hring.
    unfold lift, mbind, M_bind in Hring. pose proof (NewSecretKeyRing_positive _ _ _ _ _ Hring) as Hp.
    rewrite NewSecretKeyRing_run in Hring; [|by apply map_Forall_singleton|rewrite lookup_singleton_eq; by eexists|done].
    injection Hring as <- _. simpl. by rewrite map_fmap_singleton.
Qed.

(** C10: A server loaded for production is closed to strangers: of the endpoints
    it registers only the health check and, when e-mail logins are on, the two
    that request and verify a magic link do anything for a request without a
    bearer token, every other one answers 401 and changes nothing (there is no
    [/metrics] and no mock login); the platform endpoints answer so to any token
    but the bootstrap token, which has 32 characters at least; the server calls
    public hosts only, and the magic links it sends are https. Of its secrets it
    is known that the caches' key is not the example key, and, where no key ring
    is configured, that neither is the key of the sealed secrets, and that the
    tokens are hashed with a secret of 32 characters at least: the entries of a
    configured ring are not looked at. Of the database connection it is known
    only that its [sslmode] is not [disable]; a mode that falls back to plain
    text is accepted. *)
Theorem production_is_closed path cfg redis limiter publisher analytics w rc w1 eps w2 :
  Load path = Ok cfg → cfg.(AppEnv) = "production" →
  newWithDependencies cfg redis limiter publisher analytics w = (Ok rc, w1) →
  NewRouter percentile_cont metricsHandler rc w1 = (Ok eps, w2) →
  (∀ ep rq, ep ∈ eps → ep.(ep_Path) ∉ open_paths → authorization rq = None → turned_away ep.(ep_Handler) rq) ∧
  (∀ ep rq token, ep ∈ eps → under_platform ep = true →
     authorization rq = Some token → token ≠ cfg.(PlatformBootstrapToken) → turned_away ep.(ep_Handler) rq) ∧
  (32 <= String.length (TrimSpace cfg.(PlatformBootstrapToken)))%nat ∧ rc.(rc_OutboundPublicOnly) = true ∧
  EqualFold (url_Query cfg.(DatabaseURL) "sslmode") "disable" = false ∧
  (rc.(rc_PasswordlessEmailEnabled) = true → ∃ u, url_Parse rc.(rc_MagicLinkBaseURL) = Some u ∧ u.(url_Scheme) = "https") ∧
  rc.(rc_SecretEncryptionKey) ≠ exampleKey ∧
  (TrimSpace cfg.(SecretEncryptionKeyring) = "" →
     map_Forall (λ _ box, box.(box_key) ≠ exampleKey) rc.(rc_SecretKeyRing).(kr_boxes)) ∧
  (TrimSpace cfg.(TokenHashSecretKeyring) = "" →
     map_Forall (λ _ h, 32 <= String.length (TrimSpace h.(secret)))%nat rc.(rc_TokenHashKeyRing).(hashers)).
Proof.
  intros Hload E Hdeps Hrouter. pose proof (Load_valid _ _ Hload) as Hvalid.
  destruct (newWithDependencies_keys _ _ _ _ _ _ _ _ Hdeps Hvalid) as (Hk & Hhashers & Hboxes).
  apply Validate_ok in Hvalid as (_ & _ & _ & _ & _ & _ & Hprod).
  destruct (validateProductionConfig_ok _ (Hprod E)) as (Hboot & Hhash & Hexample & Hpublic & Htls & Hlink).
  destruct (newWithDependencies_fields _ _ _ _ _ _ _ _ Hdeps) as (Ee & Eb & Ep & El & Eu). rewrite E in Ee.
  pose proof (router_doors _ _ _ _ Hrouter Ee) as Hdoors. rewrite Ep, El, Eu. split_and!; try done.
  - intros ep rq Hep Hpath Hno. destruct (Hdoors ep Hep) as [[Ho|ring next Eh|ring next Eh|next Eh] _]; [done|..];
      apply turned_away_if; intros cx u <-; rewrite Eh; unfold authorization in Hno;
      unfold AdminAuth, GatewayAPIKeyAuth, PlatformAuth; by rewrite Hno.
  - intros ep rq token Hep Hp Ht Hne. destruct (Hdoors ep Hep) as [_ Hpl]. destruct (Hpl Hp) as [next Eh].
    apply turned_away_if. intros cx u <-. rewrite Eh, Eb. unfold authorization in Ht. unfold PlatformAuth, constantTimeEqual.
    by rewrite Ht, (proj2 (String.eqb_neq _ _) Hne).
  - by rewrite Hk.
  - intros Hno. rewrite Hboxes by done. by apply map_Forall_singleton.
  - intros Hno. rewrite Hhashers by done. by apply map_Forall_singleton.
Qed.
End surface.
End App.
