(* ===== verification/Server.v ===== *)
(** * A running server

    Everything [NewRouter] registers, serving one request after another: what
    holds after each of them, whatever the requests are and whatever happens
    outside between them. *)

From Stdlib Require Import QArith.
From S2P Require Import Prelude GoTime GoStrings Encodings Costing Store ExampleWorld QuotaService Tokens ApiKeys.
From S2P Require Import Rbac AdminTokens Sessions MagicLinks.
From S2P Require Import Secrets Outbound HttpClient Limits BudgetService AnomalyService Routing ContentPolicy Pricing Metering BudgetAlerts.
From S2P Require Import Redis RateLimit Float64 GatewayBase Providers Caches Adapters Gateway HttpServer ChatHandler.
From S2P Require Import RequestLogs AdminAudit AdminHandlers AccessHandlers Reports AdminRoutes Config App.
From S2P Require Import GatewayFrame GatewayReservations ChatRoute Integrity AdminFrame AdminIsolation AdminTrail.
#[local] Open Scope Z_scope.

Module Server.
Import GatewayBase Gateway Http AdminAudit AdminHandlers AccessHandlers AdminRoutes ChatHandler App.
Import GatewayReservations ChatRoute Integrity AdminFrame AdminIsolation AdminTrail.

(** What every handler but the gateway's does to the tables of the gateway. *)
Definition outside `{Runtime} (d d' : DB) : Prop := traffic_kept d d' ∧ keyed d d'.

#[export] Instance outside_preorder `{Runtime} : PreOrder outside.
Proof.
  unfold outside, traffic_kept. split; [by intros d|]. intros d1 d2 d3 [(? & ? & ? & ? & ?) ?] [(? & ? & ? & ? & ?) ?].
  split; [split_and!; congruence|by etrans].
Qed.

Lemma outside_aside `{Runtime} d d' : aside d d' → outside d d'.
Proof. by intros [[_ Ht] Hk]. Qed.

(** The outer middlewares keep what the handler keeps. *)
Lemma keeps_served P `{!PreOrder P} (h : Handler) rq : (∀ cx, keeps P (h cx)) → keeps P (served h rq).
Proof.
  intros Hh. assert (Hr : ∀ cx, keeps P (Recovery h cx)).
  { intros cx w. specialize (Hh cx w). unfold Recovery. by destruct (h cx w) as [[]]. }
  unfold served, RequestID, RequestBodyLimit. keeps.
Qed.

Section bearers.
Context (P : DB → DB → Prop) `{!PreOrder P}.
Context (Htoken : ∀ o id now d d', AdminTokens.touch_admin_token o id now d = Ok (tt, d') → P d d').
Context (Hsession : ∀ o id now d d', Sessions.touch_user_session o id now d = Ok (tt, d') → P d d').
Context {RT : Runtime}.

Lemma keeps_firstByHash {R} (get : string → M R) hashes : (∀ h, keeps P (get h)) → keeps P (firstByHash get hashes).
Proof. intros Hg. induction hashes as [|h hashes IH]; simpl; keeps. Qed.

Lemma keeps_CandidateHashes ring token : keeps P (CandidateHashes ring token).
Proof. unfold CandidateHashes, range. keeps. Qed.

Lemma keeps_AdminAuth ring (next : Handler) : (∀ cx, keeps P (next cx)) → ∀ cx, keeps P (AdminAuth ring next cx).
Proof.
  intros Hn cx.
  assert (H1 : ∀ o id now, keeps P (stmt (AdminTokens.touch_admin_token o id now))).
  { intros o id now. apply keeps_stmt; [done|]. intros d [] d'. apply Htoken. }
  assert (H2 : ∀ o id now, keeps P (stmt (Sessions.touch_user_session o id now))).
  { intros o id now. apply keeps_stmt; [done|]. intros d [] d'. apply Hsession. }
  assert (H3 : ∀ hs, keeps P (firstByHash (λ h, AdminTokens.GetAdminTokenByHash h) hs)).
  { intros hs. apply keeps_firstByHash. intros h. unfold AdminTokens.GetAdminTokenByHash. keeps. }
  assert (H4 : ∀ hs, keeps P (firstByHash Sessions.GetUserSessionByHash hs)).
  { intros hs. apply keeps_firstByHash. intros h. unfold Sessions.GetUserSessionByHash. keeps. }
  pose proof keeps_CandidateHashes.
  unfold AdminAuth, AdminAuthenticate, AdminTokens.Authenticate, Sessions.Authenticate, abortUnauthorized, abortWithError. keeps.
Qed.
End bearers.

(** ** The routes outside the gateway *)

Section others.
Context {RT : Runtime} {AE : AEAD} {NE : Net} {TR : Transport} {WH : Webhooks} {DG : Digests}.
Context {TX : ReportText} {RP : RequestParsing} {AB : AdminBodies} {CB : AccessBodies}.
Context (percentile_cont : Q → list Z → Q) (s : AdminServices).
#[local] Hint Resolve keeps_RespondError keeps_reply keeps_generateToken : keeps.

Lemma outside_adminHandler route cx :
  route ∈ adminRoutes percentile_cont s → keeps outside (adminHandler s route cx).
Proof.
  intros Hin. assert (Hh : ∀ cx, keeps outside (route.(ro_Handler) cx)).
  { intros c. eapply keeps_mono; [exact outside_aside|by eapply aside_handler]. }
  apply keeps_AdminAuth; [apply _|..].
  1-2: intros o id now d d' Ht; apply outside_aside, (aside_touched o); first [by left; eauto|by right; eauto].
  intros c. unfold Audited, guarded, RequireAdminPermission, abortUnauthorized, abortWithError, Record_.
  assert (Ha : ∀ l, keeps outside (stmt (insert_audit_log l))).
  { intros l. apply keeps_stmt; [apply _|]. intros d x d' Hr. unfold insert_audit_log in Hr. run_sql Hr.
    split; [by split_and!|by apply keyed_same]. }
  keeps.
Qed.

Lemma aside_openSession ring o u token expiresAt now : keeps aside (Sessions.openSession ring o u token expiresAt now).
Proof. unfold Sessions.openSession. aside. Qed.
#[local] Hint Resolve aside_openSession : keeps.

Lemma aside_login ring ttl slug email : keeps aside (Sessions.PasswordlessMockLogin ring ttl slug email).
Proof.
  unfold Sessions.PasswordlessMockLogin, orNoRows, Sessions.GetActiveMembershipByOrgSlugAndEmail. aside.
Qed.

Lemma aside_Request service ring slug email : keeps aside (MagicLinks.Request service ring slug email).
Proof.
  unfold MagicLinks.Request, Sessions.GetActiveMembershipByOrgSlugAndEmail, MagicLinks.recentRequestLimitExceeded. aside.
Qed.

Lemma aside_Consume ring token : keeps aside (MagicLinks.Consume ring token).
Proof.
  assert (Hc : ∀ h now, keeps aside (stmt (MagicLinks.consume_link h now))).
  { intros h now. apply keeps_stmt; [apply _|]. intros d x d' Hr. unfold MagicLinks.consume_link in Hr.
    apply result_bind_ok in Hr as (l & _ & Hr). destruct (MagicLinks.link_member d l); [|done]. injection Hr as _ <-.
    split; [by split_and!|by apply keyed_same]. }
  unfold MagicLinks.Consume, MagicLinks.consumeTx, ExecTx, ExecTxRaw, CandidateHashes, range.
  assert (Hf : ∀ now hs, keeps aside (firstByHash (λ h, stmt (MagicLinks.consume_link h now)) hs)).
  { intros now hs. apply keeps_firstByHash; [apply _|done]. }
  aside.
Qed.

Lemma aside_CreateAdminToken ring params : keeps aside (AdminTokens.CreateAdminToken ring params).
Proof. unfold AdminTokens.CreateAdminToken, orNoRows, GetOrganization. aside. Qed.
#[local] Hint Resolve aside_login aside_Request aside_Consume aside_CreateAdminToken : keeps.

Lemma aside_public route cx : route ∈ publicRoutes s → keeps aside (route.(ro_Handler) cx).
Proof.
  unfold publicRoutes. intros [Hin|Hin]%elem_of_app.
  - destruct (ad_production s); [by apply not_elem_of_nil in Hin|]. apply list_elem_of_singleton in Hin as ->. simpl.
    unfold passwordlessMockLogin. apply keeps_binding; [apply _|]. intros request. aside.
  - destruct (ad_magicLinks s); [|by apply not_elem_of_nil in Hin].
    apply elem_of_cons in Hin as [->|Hin]; [|apply list_elem_of_singleton in Hin as ->]; simpl; unfold requestMagicLink, verifyMagicLink, withMagicLinks;
      (apply keeps_binding; [apply _|]); intros request; aside.
Qed.

Lemma aside_platform route token cx : route ∈ platformRoutes s → keeps aside (platformHandler token route cx).
Proof.
  intros Hin. assert (Hh : ∀ c, keeps aside (route.(ro_Handler) c)).
  { intros c. unfold platformRoutes in Hin. apply elem_of_cons in Hin as [->|Hin]; [|apply list_elem_of_singleton in Hin as ->]; simpl.
    - unfold createOrg, respondPlatformDBError. apply keeps_binding; [apply _|]. intros request. aside.
    - unfold createAdminToken. apply keeps_pathID; [apply _|]. intros id. apply keeps_binding; [apply _|]. intros request. aside. }
  unfold platformHandler, PlatformAuth, abortUnauthorized, abortWithError. keeps.
Qed.
End others.

(** ** The whole table *)

Section server.
Context {RT : Runtime} {AE : AEAD} {NE : Net} {TR : Transport} {WH : Webhooks} {DG : Digests}.
Context {TX : ReportText} {RP : RequestParsing} {AB : AdminBodies} {CB : AccessBodies}.
Context {SU : Surroundings} {CJ : Caches.CacheJSON} {RD : Redis} {UJ : Adapters.UpstreamJSON}.
Variable percentile_cont : Q → list Z → Q.
Variable metricsHandler : Handler.

(** The metrics are in memory: no call to the database. *)
Hypothesis metrics_aside : ∀ cx, keeps aside (metricsHandler cx).

Definition gateway_endpoint (ep : Endpoint) : Prop :=
  ∃ chat ring limiter recorder, ep.(ep_Handler) = chatRoute chat ring limiter recorder.

(** One endpoint is the gateway; the others leave the traffic alone. *)
Lemma router_traffic rc w eps w' ep : NewRouter percentile_cont metricsHandler rc w = (Ok eps, w') → ep ∈ eps →
  gateway_endpoint ep ∨ ∀ cx, keeps outside (ep.(ep_Handler) cx).
Proof.
  unfold NewRouter. intros H Hep. apply bind_ok in H as (services & w1 & _ & H).
  apply bind_ok in H as (gateway & w2 & Hg & [<- _]%ret_ok).
  assert (Hm : ∀ (h : Handler), (∀ cx, keeps aside (h cx)) → ∀ cx, keeps outside (h cx)).
  { intros h Hh cx. by eapply keeps_mono; [exact outside_aside|]. }
  apply elem_of_app in Hep as [Hep|Hep].
  { apply list_elem_of_singleton in Hep as ->. right. intros cx. simpl. unfold Health. keeps. }
  apply elem_of_app in Hep as [Hep|Hep].
  { right. apply Hm. destruct (String.eqb _ _); [by apply not_elem_of_nil in Hep|]. by apply list_elem_of_singleton in Hep as ->. }
  apply elem_of_app in Hep as [(route & -> & Hr)%in_map|Hep]; [right; apply Hm; intros cx; by eapply aside_platform|].
  apply elem_of_app in Hep as [Hep|Hep].
  - right. apply elem_of_app in Hep as [(route & -> & Hr)%in_map|(route & -> & Hr)%in_map]; simpl.
    + apply Hm. intros cx. by eapply aside_public.
    + intros cx. by eapply outside_adminHandler.
  - left. destruct (rc_RateLimiter rc) as [limiter|]; [|apply ret_ok in Hg as [<- _]; by apply not_elem_of_nil in Hep].
    apply bind_ok in Hg as (chat & w3 & _ & [<- _]%ret_ok). apply list_elem_of_singleton in Hep as ->. by repeat eexists.
Qed.

(** A request to one of the endpoints; or anything outside: time passes, a
    provider or Redis answers otherwise from now on. *)
Inductive serves (eps : list Endpoint) : world → world → Prop :=
| serves_request ep rq w : ep ∈ eps → serves eps w (served ep.(ep_Handler) rq w).2
| serves_outside w w' : w_db w' = w_db w → w_faults w' = w_faults w → serves eps w w'.

(** What the chat route and every handler that leaves the traffic alone keep. *)
Lemma server_invariant (I : world → Prop) rc w eps w0 :
  NewRouter percentile_cont metricsHandler rc w = (Ok eps, w0) →
  (∀ chat ring limiter recorder rq w, I w → I (served (chatRoute chat ring limiter recorder) rq w).2) →
  (∀ w w', outside (w_db w) (w_db w') → (w_faults w = [] → w_faults w' = []) → I w → I w') →
  ∀ w1 w2, rtc (serves eps) w1 w2 → I w1 → I w2.
Proof.
  intros Hr Hchat Hother w1 w2 Hs. induction Hs as [|w1 w2 w3 Hs _ IH]; [done|]. intros Hi. apply IH. destruct Hs as [ep rq w1 Hep|w1 w2 Hd Hf].
  - destruct (router_traffic _ _ _ _ _ Hr Hep) as [(chat & ring & limiter & recorder & ->)|Hk]; [by apply Hchat|].
    destruct (keeps_served outside ep.(ep_Handler) rq Hk w1) as [Ht Hf]. by apply (Hother w1).
  - apply (Hother w1); [by rewrite Hd|by rewrite Hf|done].
Qed.

(** C4: no request leaves money held. Whatever a server is asked, at whatever
    endpoints and in whatever order, with or without credentials, refused,
    answered, streamed to clients that stay or leave, and whatever the checks,
    the providers, the caches and the limiter do, even if a handler panics: if the
    ledger balances, nothing is reserved and no database call fails, then so it
    is after every request. *)
Theorem no_money_left_held rc w eps w0 w1 w2 :
  NewRouter percentile_cont metricsHandler rc w = (Ok eps, w0) →
  nothing_held w1 → rtc (serves eps) w1 w2 → nothing_held w2.
Proof.
  intros Hr Hh Hs. revert Hh. apply (server_invariant nothing_held rc w eps w0 Hr); [|..|exact Hs].
  - intros. by apply nothing_left_held.
  - intros u u' [(Hc & Hres & _) _] Hf [[Hl Hw] Hh]. split; [split; [|auto]|].
    + by apply (still_ledger (w_db u)).
    + intros id. unfold LimitsLedger.held_by. rewrite Hres. apply Hh.
Qed.

(** The books are only ever added to. *)
Definition books_grow (d d' : DB) : Prop :=
  d.(request_logs) `prefix_of` d'.(request_logs) ∧ d.(usage_records) `prefix_of` d'.(usage_records) ∧
  d.(cost_records) `prefix_of` d'.(cost_records).

Lemma books_grow_same d d' :
  d'.(request_logs) = d.(request_logs) → d'.(usage_records) = d.(usage_records) → d'.(cost_records) = d.(cost_records) →
  books_grow d d'.
Proof. by intros Hl Hu Hc; split_and!; rewrite ?Hl, ?Hu, ?Hc. Qed.

#[export] Instance books_preorder : PreOrder books_grow.
Proof. split; [by intros d|]. intros d1 d2 d3 (? & ? & ?) (? & ? & ?). split_and!; by etrans. Qed.
#[export] Instance books_calm : Calm books_grow.
Proof. split; [apply _|..]; intros ? ? ? ? H; apply Metering.insert_ok in H as (_ & -> & _); by apply books_grow_same. Qed.
#[export] Instance books_logs : Logs books_grow.
Proof.
  split. intros l d l' d' H. apply Metering.insert_ok in H as (_ & -> & _). split_and!; [|done..]. by exists [l].
Qed.

Lemma books_ledger req d d' : ChatRoute.mine req d d' → books_grow d d'.
Proof. intros [H _]. unfold LimitsLedger.limits_frame in H. destruct d, d'. simpl in H. simplify_eq/=. by apply books_grow_same. Qed.

Lemma books_success ri d res : Metering.success_rows ri d res → books_grow d (Metering.add_records res d).
Proof. intros _. split_and!; by eexists. Qed.

(** C5: the books are append-only and stay well typed. Whatever a server is asked,
    by clients, administrators and the platform, in whatever order and whatever
    fails on the way: no line of the request log, usage record or cost record is
    ever changed or removed, and afterwards every token count fits its 32 bits
    and every cost its 64, no amount is negative and every total is the sum of
    its parts, no key occurs twice, every request has at most one usage record
    and every usage record at most one cost, and each belongs to the row of the
    same tenant that it names. *)
Theorem books_kept rc w eps w0 w1 w2 :
  NewRouter percentile_cont metricsHandler rc w = (Ok eps, w0) →
  well_typed (w_db w1) → rtc (serves eps) w1 w2 → well_typed (w_db w2) ∧ books_grow (w_db w1) (w_db w2).
Proof.
  intros Hr Hwt Hs. cut (typing (w_db w1) (w_db w2) ∧ books_grow (w_db w1) (w_db w2)); [intros [Ht Hb]; auto|].
  assert (H : typing (w_db w1) (w_db w1) ∧ books_grow (w_db w1) (w_db w1)) by done. revert H.
  apply (server_invariant (λ u, typing (w_db w1) (w_db u) ∧ books_grow (w_db w1) (w_db u)) rc w eps w0 Hr); [|..|exact Hs].
  - intros chat ring limiter recorder rq u [Ht Hb]. split; etrans; [exact Ht| |exact Hb|].
    + apply (route_keeps typing); [exact typing_ledger|exact typing_success|].
      intros token. apply keys_free; [apply _|]. intros d ks. by apply typing_same.
    + apply (route_keeps books_grow); [exact books_ledger|exact books_success|].
      intros token. apply keys_free; [apply _|]. intros d ks. by apply books_grow_same.
  - intros u u' [(_ & _ & Hl & Hu & Hc) _] _ [Ht Hb]. split; etrans; [exact Ht| |exact Hb|]; [by apply typing_same|by apply books_grow_same].
Qed.

(** ** Whom the traffic is charged to *)

#[export] Instance keyed_calm : Calm keyed.
Proof. split; [apply _|..]; intros ? ? ? ? H; apply Metering.insert_ok in H as (_ & -> & _); by apply keyed_same. Qed.
#[export] Instance keyed_logs : Logs keyed.
Proof. split. intros ? ? ? ? H. apply Metering.insert_ok in H as (_ & -> & _). by apply keyed_same. Qed.

Lemma keyed_ledger req d d' : ChatRoute.mine req d d' → keyed d d'.
Proof. intros [H _]. unfold LimitsLedger.limits_frame in H. destruct d, d'. simpl in H. simplify_eq/=. by apply keyed_same. Qed.

Lemma keyed_Authenticate ring token : keeps keyed (APIKeys.Authenticate ring token).
Proof.
  apply (keyed_call _ (λ _ T, T)); [|intros T w HT|done].
  - apply keys_free; [|done]. split; [split; [done|by intros ? ? ?]|done..].
  - destruct (APIKeys.Authenticate ring token w) as [r w'] eqn:E. by eapply APIKeys.h_authenticate.
Qed.

Lemma keyed_route chat ring limiter recorder rq w :
  keyed (w_db w) (w_db (served (chatRoute chat ring limiter recorder) rq w).2).
Proof. apply (route_keeps keyed); [exact keyed_ledger|by intros; apply keyed_same|intros token; apply keyed_Authenticate]. Qed.

(** A usage record is charged to one of the issued keys, with the scope for it,
    and to its organisation. *)
Definition charged (T : list APIKeys.issued) (u : UsageRecord) : Prop :=
  ∃ p, p ∈ map APIKeys.is_Principal T ∧ Rbac.keyHasScope p Rbac.APIKeyScopeChatCompletions = true ∧
    u.(UsageRecord_OrgID) = p.(OrgID) ∧ u.(UsageRecord_ApiKeyID) = p.(APIKeyID).

(** Every usage record since [d0] is charged to a key issued by now, as long as
    no two of the keys are the same text. *)
Definition accounted (d0 d : DB) (T : list APIKeys.issued) : Prop :=
  NoDup (map APIKeys.is_Key T) → ∀ u, u ∈ d.(usage_records) → u ∈ d0.(usage_records) ∨ charged T u.

Lemma accounted_later d0 d d' T T' :
  d'.(usage_records) = d.(usage_records) → map APIKeys.is_Key T `prefix_of` map APIKeys.is_Key T' →
  map APIKeys.is_Principal T `prefix_of` map APIKeys.is_Principal T' → accounted d0 d T → accounted d0 d' T'.
Proof.
  intros Hd [more Hk] [morep Hp] Ha Hnd u Hu. rewrite Hd in Hu. rewrite Hk in Hnd. apply list.NoDup_app in Hnd as (Hnd & _).
  destruct (Ha Hnd u Hu) as [Hin|(p & Hin & Hrest)]; [by left|right]. exists p. split; [|done]. rewrite Hp. apply elem_of_app. by left.
Qed.

Lemma accounted_charges d0 d d' T p :
  p ∈ map APIKeys.is_Principal T → Rbac.keyHasScope p Rbac.APIKeyScopeChatCompletions = true → charges p d d' →
  accounted d0 d T → accounted d0 d' T.
Proof.
  intros Hp Hs (us & cs & Hu & _ & Hus & _) Ha Hnd u Hin. rewrite Hu in Hin. apply elem_of_app in Hin as [Hin|Hin]; [by apply Ha|right].
  apply list_elem_of_In in Hin. rewrite List.Forall_forall in Hus. destruct (Hus u Hin). by exists p.
Qed.

Lemma authenticates_in ring token now T p : APIKeys.authenticates ring token now T = Ok p → p ∈ map APIKeys.is_Principal T.
Proof.
  unfold APIKeys.authenticates. destruct (find _ T) as [e|] eqn:Ef; [|done]. apply find_some in Ef as [Hin _].
  destruct (_ || _); [done|]. intros [= <-]. by apply list_elem_of_In, List.in_map.
Qed.

(** C3: every charge has a key. From whatever keys were issued before, under
    however many key rings, and whatever a server is asked from then on, by
    clients, by administrators who issue and revoke keys, and by the platform, in
    whatever order and whatever fails: the table of keys stays one that calls of
    its service made, and unless two issued keys are the same text, every usage
    record that was added is charged to a key that was issued, with the scope for
    it, and to the organisation it was issued to. *)
Theorem every_charge_has_a_key {PH : PerfectHMAC} rc w eps w0 w1 w2 T1 :
  NewRouter percentile_cont metricsHandler rc w = (Ok eps, w0) →
  APIKeys.history T1 (w_db w1).(api_keys) → rtc (serves eps) w1 w2 →
  ∃ T2, APIKeys.history T2 (w_db w2).(api_keys) ∧
    (NoDup (map APIKeys.is_Key T2) → ∀ u, u ∈ (w_db w2).(usage_records) → u ∈ (w_db w1).(usage_records) ∨ charged T2 u).
Proof.
  intros Hr HT Hs. change (∃ T2, APIKeys.history T2 (w_db w2).(api_keys) ∧ accounted (w_db w1) (w_db w2) T2).
  assert (H : ∃ T, APIKeys.history T (w_db w1).(api_keys) ∧ accounted (w_db w1) (w_db w1) T) by (exists T1; split; [done|by left]).
  revert H. apply (server_invariant (λ u, ∃ T, APIKeys.history T (w_db u).(api_keys) ∧ accounted (w_db w1) (w_db u) T)
    rc w eps w0 Hr); [|..|exact Hs].
  - intros chat ring limiter recorder rq u (T & HTu & Ha).
    destruct (keyed_route chat ring limiter recorder rq u T HTu) as (T' & HT' & Hk & Hp). exists T'. split; [done|].
    destruct (route_spends chat ring limiter recorder rq u) as [((_ & _ & Hu & _) & _)|(p & u0 & Hd & _ & [(token & ua & _ & Hauth) Hscope _] & Hc)].
    { by apply (accounted_later _ (w_db u) _ T T'). }
    intros Hnd. assert (HndT : NoDup (map APIKeys.is_Key T)).
    { destruct Hk as [more Hk]. rewrite Hk in Hnd. by apply list.NoDup_app in Hnd as (Hnd & _). }
    rewrite <- Hd in HTu. apply (APIKeys.Authenticate_result T) in Hauth as [Hin|(_ & e & [=])]; [|done..].
    symmetry in Hin. apply authenticates_in in Hin. revert Hnd. apply (accounted_charges _ (w_db u) _ _ p); [|done..|].
    + destruct Hp as [morep ->]. apply elem_of_app. by left.
    + by apply (accounted_later _ (w_db u) _ T T').
  - intros u u' [(_ & _ & _ & Hu & _) Hk] _ (T & HTu & Ha). destruct (Hk T HTu) as (T' & HT' & Hk' & Hp). exists T'.
    split; [done|]. by apply (accounted_later _ (w_db u) _ T T').
Qed.
End server.
End Server.
