(* ===== verification/ClickHouse.v ===== *)
(** * Analytics in ClickHouse: [internal/analytics]

    The client that speaks to ClickHouse over HTTP, the usage records sent to
    it, and the reports it computes in place of PostgreSQL. What the statements
    mean is ClickHouse's; the decoding of its rows is the class [RowJSON]. *)

From Stdlib Require Import QArith Ascii.
From S2P Require Import Prelude GoTime GoStrings Encodings Costing Store ExampleWorld Tokens Secrets Outbound HttpClient.
From S2P Require Import Float64 GatewayBase Providers Caches HttpServer RequestLogs Reports Config.
#[local] Open Scope Z_scope.

(** [json.Unmarshal] of one row of each report. *)
Class RowJSON := {
  decodeDaily : string → result Reports.DailyCostPoint;
  decodeModelCost : string → result Reports.ModelCostBreakdownItem;
  decodeLatency : string → result Reports.ProviderLatencyItem;
  decodeErrorRate : string → result Reports.ErrorRatePoint
}.

Module ClickHouse.
Import Config GatewayBase Reports.

Record ClickHouseClient := mkClickHouseClient {
  ch_endpoint : string;
  ch_database : string;
  ch_username : string;
  ch_password : string
}.

(** [analytics.UsageRecord]. *)
Record UsageRow := mkUsageRow {
  ur_RequestID : uuid;
  ur_OrgID : uuid;
  ur_APIKeyID : option uuid;
  ur_ProviderID : option uuid;
  ur_ModelID : option uuid;
  ur_Status : string;
  ur_PromptTokens : Z;
  ur_CompletionTokens : Z;
  ur_TotalTokens : Z;
  ur_TotalCostMicroUSD : Z;
  ur_LatencyMS : Z;
  ur_CreatedAt : Z
}.

(** [UTC().Format("2006-01-02 15:04:05.000")]. *)
Definition clickHouseTime (t : Z) : string :=
  let ms := t mod Day / 1000000 in
  dayText t +:+ " " +:+ padded 2 (ms / 3600000) +:+ ":" +:+ padded 2 (ms / 60000 mod 60) +:+ ":" +:+
  padded 2 (ms / 1000 mod 60) +:+ "." +:+ padded 3 (ms mod 1000).

Definition nullableUUID (value : option uuid) : json := match value with None => JNull | Some id => JStr (uuidString id) end.

Definition clickHouseUsageRecord (record : UsageRow) : json := JObj
  [("request_id", JStr (uuidString record.(ur_RequestID))); ("org_id", JStr (uuidString record.(ur_OrgID)));
   ("api_key_id", nullableUUID record.(ur_APIKeyID)); ("provider_id", nullableUUID record.(ur_ProviderID));
   ("model_id", nullableUUID record.(ur_ModelID)); ("status", JStr record.(ur_Status));
   ("prompt_tokens", JNum record.(ur_PromptTokens)); ("completion_tokens", JNum record.(ur_CompletionTokens));
   ("total_tokens", JNum record.(ur_TotalTokens)); ("total_cost_micro_usd", JNum record.(ur_TotalCostMicroUSD));
   ("latency_ms", JNum record.(ur_LatencyMS)); ("created_at", JStr (clickHouseTime record.(ur_CreatedAt)))].

Definition nl : string := String (ascii_of_nat 10) "".

Definition truncateForError (body : string) : string :=
  let text := TrimSpace body in
  if (String.length text <=? 512)%nat then text else String.substring 0 512 text.

(** [strings.Contains]. *)
Fixpoint Contains (s part : string) : bool :=
  HasPrefix s part || match s with EmptyString => false | String _ s' => Contains s' part end.

Definition asciiUpper (c : ascii) : ascii := if in_bytes 97 122 c then ascii_of_N (byte_of c - 32) else c.

(** The default limit of [bufio.Scanner]: a line that fills its buffer ends the scan. *)
Definition MaxScanTokenSize : nat := 64 * 1024.

(** The line ends of [bufio.ScanLines]: a carriage return is dropped, an empty
    rest is no line. *)
Definition scanLine (line : string) : string := TrimSuffix line (String (ascii_of_nat 13) "").

Fixpoint dropEmptyRest (lines : list string) : list string :=
  match lines with
  | [] => []
  | [last] => if String.eqb last "" then [] else [last]
  | line :: rest => line :: dropEmptyRest rest
  end.

Definition bodyLines (body : string) : list string := dropEmptyRest (splitByte 10 body).

Section client.
Context {RT : Runtime} {NE : Net} {TR : Transport} {DG : Digests} {RJ : RowJSON}.

Definition NewClickHouseClient (url database username password : string) : result ClickHouseClient :=
  if String.eqb url "" then Err (EMsg "clickhouse url is required")
  else match url_Parse url with
       | None => Err (EMsg "parse clickhouse url")
       | Some endpoint =>
           _ ← refuseIf (negb (String.eqb endpoint.(url_Scheme) "http") && negb (String.eqb endpoint.(url_Scheme) "https"))
                 "clickhouse url must use http or https scheme";
           _ ← refuseIf (String.eqb endpoint.(url_Host) "") "clickhouse url must include host";
           _ ← refuseIf (String.eqb database "") "clickhouse database is required";
           _ ← refuseIf (String.eqb username "") "clickhouse username is required";
           Ok (mkClickHouseClient url database username password)
       end.

(** [SetBasicAuth]. *)
Definition basicAuth (c : ClickHouseClient) : string := "Basic " +:+ StdEncode (c.(ch_username) +:+ ":" +:+ c.(ch_password)).

Definition requestURL (c : ClickHouseClient) : string :=
  url_set_query (url_set_query (url_set_query c.(ch_endpoint) "database" c.(ch_database)) "date_time_input_format" "best_effort")
    "output_format_json_quote_64bit_integers" "0".

Definition sqlRequest (c : ClickHouseClient) (query : string) : HttpRequest :=
  mkHttpRequest "POST" (requestURL c) [("Content-Type", "text/plain; charset=utf-8"); ("Authorization", basicAuth c)] query.

(** What is made of an answer. *)
Definition sqlAnswer (answer : HttpResponse + transportError) : result string :=
  match answer with
  | inr _ => Err (EMsg "call clickhouse")
  | inl resp =>
      if negb (success resp.(hp_StatusCode)) then
        Err (EMsg ("clickhouse status " +:+ formatInt resp.(hp_StatusCode) +:+ ": " +:+ truncateForError resp.(hp_Body)))
      else match resp.(hp_End) with
           | EndOfBody => Ok resp.(hp_Body)
           | _ => Err (EMsg "read clickhouse response")
           end
  end.

Definition execSQL (c : ClickHouseClient) (query : string) : M string :=
  if negb (newRequest "POST" (requestURL c)) then fail (EMsg "create clickhouse request")
  else answer ← Do (sqlRequest c query); lift (sqlAnswer answer).

Definition Ping (c : ClickHouseClient) : M unit := _ ← execSQL c "SELECT 1"; mret tt.

Definition InsertUsageRecord (c : ClickHouseClient) (record : UsageRow) : M unit :=
  _ ← execSQL c ("INSERT INTO usage_events FORMAT JSONEachRow" +:+ nl +:+ marshal (clickHouseUsageRecord record));
  mret tt.

(** The scan of the lines: blank ones are skipped, the first row that does not
    decode or the first line that is too long ends it. *)
Fixpoint scanRows {A} (decode : string → result A) (lines : list string) : result (list A) :=
  match lines with
  | [] => Ok []
  | line :: rest =>
      if (MaxScanTokenSize <=? String.length line)%nat then Err (EMsg "bufio.Scanner: token too long")
      else
        let row := TrimSpace (scanLine line) in
        if String.eqb row "" then scanRows decode rest
        else item ← decode row; items ← scanRows decode rest; Ok (item :: items)
  end.

Definition formatted (query : string) : string :=
  if Contains (mapBytes asciiUpper query) "FORMAT JSONEACHROW" then query else query +:+ nl +:+ "FORMAT JSONEachRow".

Definition QueryJSONEachRow {A} (c : ClickHouseClient) (query : string) (decode : string → result A) : M (list A) :=
  body ← execSQL c (formatted query);
  lift (scanRows decode (bodyLines body)).

(** ** The reports *)

(** A statement as the source lays it out, every line behind two tabs. *)
Definition statement (lines : list string) : string :=
  let tab := String (ascii_of_nat 9) "" in
  foldr (λ line rest, nl +:+ tab +:+ tab +:+ line +:+ rest) (nl +:+ tab) lines.

(** The rows of one tenant in a window. *)
Definition inWindow (orgID : uuid) (fromAt toAt : Z) : list string :=
  ["WHERE org_id = '" +:+ uuidString orgID +:+ "'";
   "  AND created_at >= parseDateTime64BestEffort('" +:+ clickHouseTime fromAt +:+ "', 3, 'UTC')";
   "  AND created_at < parseDateTime64BestEffort('" +:+ clickHouseTime toAt +:+ "', 3, 'UTC')"].

Definition dailyCostQuery (orgID : uuid) (fromAt toAt : Z) : string := statement
  (["SELECT"; "  toString(toDate(created_at, 'UTC')) AS day,"; "  count() AS request_count,";
    "  sum(total_cost_micro_usd) AS total_cost_micro_usd"; "FROM usage_events"] ++ inWindow orgID fromAt toAt ++
   ["GROUP BY day"; "ORDER BY day ASC"]).

Definition modelCostQuery (orgID : uuid) (fromAt toAt : Z) : string := statement
  (["SELECT"; "  model_id,"; "  count() AS request_count,"; "  sum(prompt_tokens) AS prompt_tokens,";
    "  sum(completion_tokens) AS completion_tokens,"; "  sum(total_tokens) AS total_tokens,";
    "  sum(total_cost_micro_usd) AS total_cost_micro_usd"; "FROM usage_events"] ++ inWindow orgID fromAt toAt ++
   ["  AND model_id IS NOT NULL"; "GROUP BY model_id"; "ORDER BY total_cost_micro_usd DESC, request_count DESC"]).

Definition latencyQuery (orgID : uuid) (fromAt toAt : Z) : string := statement
  (["SELECT"; "  provider_id,"; "  count() AS request_count,"; "  avg(latency_ms) AS avg_latency_ms,";
    "  quantileExact(0.50)(latency_ms) AS p50_latency_ms,"; "  quantileExact(0.95)(latency_ms) AS p95_latency_ms,";
    "  quantileExact(0.99)(latency_ms) AS p99_latency_ms"; "FROM usage_events"] ++ inWindow orgID fromAt toAt ++
   ["  AND provider_id IS NOT NULL"; "GROUP BY provider_id"; "ORDER BY p95_latency_ms DESC, request_count DESC"]).

Definition errorRateQuery (orgID : uuid) (fromAt toAt : Z) : string := statement
  (["SELECT"; "  toString(toDate(created_at, 'UTC')) AS day,"; "  count() AS request_count,";
    "  countIf(status NOT IN ('success', 'budget_warned')) AS error_count,";
    "  if(count() = 0, 0, error_count / count()) AS error_rate"; "FROM usage_events"] ++ inWindow orgID fromAt toAt ++
   ["GROUP BY day"; "ORDER BY day ASC"]).

(** [UsageAnalyticsService]: enabled when it has a client. *)
Definition UsageAnalyticsService : Type := option ClickHouseClient.
Definition NewUsageAnalyticsService (clickhouse : option ClickHouseClient) (clickHouseEnabled : bool) : UsageAnalyticsService :=
  if clickHouseEnabled then clickhouse else None.

Definition WriteUsageRecord (s : option UsageAnalyticsService) (record : UsageRow) : M unit :=
  match s with Some (Some c) => InsertUsageRecord c record | _ => mret tt end.

(** A report from ClickHouse, or else from PostgreSQL. *)
Definition report {A} (s : UsageAnalyticsService) (statementOf : uuid → Z → Z → string) (decode : string → result A)
    (fetch : uuid → Z → Z → DB → result (list A)) (orgID : uuid) (fromAt toAt : Z) : M (list A) :=
  match s with
  | Some c => QueryJSONEachRow c (statementOf orgID fromAt toAt) decode
  | None => query (fetch orgID fromAt toAt)
  end.

Definition DailyCostTrend (s : UsageAnalyticsService) := report s dailyCostQuery decodeDaily dailyCostTrendPostgres.
Definition ModelCostBreakdown (s : UsageAnalyticsService) := report s modelCostQuery decodeModelCost modelCostBreakdownPostgres.
Definition ProviderLatency (percentile_cont : Q → list Z → Q) (s : UsageAnalyticsService) :=
  report s latencyQuery decodeLatency (providerLatencyPostgres percentile_cont).
Definition ErrorRateTrend (s : UsageAnalyticsService) := report s errorRateQuery decodeErrorRate errorRateTrendPostgres.

(** ** What a report is worth *)

(** A row as ClickHouse writes one in [JSONEachRow]: a line with no space
    around it, shorter than the scanner's limit. *)
Definition row_text (t : string) : Prop :=
  all_bytes (λ c, negb (is_byte 10 c)) t = true ∧ HasSuffix t (String (ascii_of_nat 13) "") = false ∧ TrimSpace t = t ∧
  t ≠ "" ∧ (String.length t < MaxScanTokenSize)%nat.

Definition jsonEachRow (rows : list string) : string := foldr (λ row rest, row +:+ nl +:+ rest) "" rows.

Lemma dropEmptyRest_snoc lines : dropEmptyRest (lines ++ [""]) = lines.
Proof. induction lines as [|line lines IH]; [done|]. simpl. rewrite IH. by destruct (lines ++ [""]) eqn:E; [destruct lines|]. Qed.

Lemma bodyLines_rows rows : Forall row_text rows → bodyLines (jsonEachRow rows) = rows.
Proof.
  intros Hr. unfold bodyLines. assert (splitByte 10 (jsonEachRow rows) = rows ++ [""]) as ->; [|apply dropEmptyRest_snoc].
  induction Hr as [|row rows (Hn & _) Hr IH]; [done|]. cbn [jsonEachRow foldr].
  change (row +:+ nl +:+ foldr (λ row rest, row +:+ nl +:+ rest) "" rows) with (row +:+ String (ascii_of_nat 10) (jsonEachRow rows)).
  rewrite splitByte_cons by done. by rewrite IH.
Qed.

Lemma scanRows_rows {A} (decode : string → result A) (render : A → string) items :
  Forall (λ a, row_text (render a) ∧ decode (render a) = Ok a) items → scanRows decode (map render items) = Ok items.
Proof.
  induction 1 as [|a items [(_ & Hcr & Ht & Hne & Hlen) Hd] Hr IH]; [done|]. cbn [map scanRows].
  rewrite (proj2 (Nat.leb_gt _ _)) by done. unfold scanLine, TrimSuffix, HasSuffix in *. destruct (cutSuffix _ _); [done|]. simpl.
  rewrite Ht, (proj2 (String.eqb_neq _ _)) by done. by rewrite Hd, IH.
Qed.

(** The one request of a report. *)
Definition asks (c : ClickHouseClient) (body : string) (w w' : world) : Prop :=
  w_db w' = w_db w ∧
  w_trace w' = w_trace w ++ [EffHTTP "POST" (requestURL c) [("Content-Type", "text/plain; charset=utf-8"); ("Authorization", basicAuth c)] body].

Lemma execSQL_run c query w : newRequest "POST" (requestURL c) = true →
  ∃ w', execSQL c query w = (sqlAnswer (roundTrip (w_fresh w) (sqlRequest c query)), w') ∧ asks c query w w'.
Proof.
  intros Hn. unfold execSQL. rewrite Hn. destruct (Do_run (sqlRequest c query) w) as (w' & Hd & Hdb & _ & _ & _ & Ht).
  exists w'. split; [|by split]. simpl. by rewrite (bind_run _ _ _ _ _ Hd).
Qed.

(** A report backed by ClickHouse asks it once and nothing else, leaves the
    database alone, and fails exactly when the answer is not a readable success
    of rows; the rows of such an answer are the report, in order. *)
Theorem clickhouse_report {A} c statementOf (decode : string → result A) fetch orgID fromAt toAt w :
  newRequest "POST" (requestURL c) = true →
  let body := formatted (statementOf orgID fromAt toAt) in
  let answer := roundTrip (w_fresh w) (sqlRequest c body) in
  ∃ w', report (Some c) statementOf decode fetch orgID fromAt toAt w =
          (rows ← sqlAnswer answer; scanRows decode (bodyLines rows), w') ∧ asks c body w w' ∧
    ∀ items render, Forall (λ a, row_text (render a) ∧ decode (render a) = Ok a) items →
      answer = inl (mkHttpResponse 200 (jsonEachRow (map render items)) EndOfBody) →
      (report (Some c) statementOf decode fetch orgID fromAt toAt w).1 = Ok items.
Proof.
  intros Hn body answer. destruct (execSQL_run c body w Hn) as (w' & Hx & Ha).
  assert (Hrun : report (Some c) statementOf decode fetch orgID fromAt toAt w =
    (rows ← sqlAnswer answer; scanRows decode (bodyLines rows), w')).
  { unfold report, QueryJSONEachRow. fold body. unfold mbind at 1, M_bind. rewrite Hx.
    fold answer. destruct (sqlAnswer answer) as [rows|e]; done. }
  exists w'. split; [done|]. split; [done|]. intros items render Hi Hans. rewrite Hrun, Hans. simpl.
  rewrite bodyLines_rows; [by apply scanRows_rows|]. apply Forall_map. eapply Forall_impl; [|exact Hi]. by intros a [? _].
Qed.

(** ** Whose rows a statement asks for *)

Lemma Contains_app a b c : Contains (a +:+ b +:+ c) b = true.
Proof.
  assert (Hp : ∀ s, HasPrefix s b = true → Contains s b = true) by (intros [|x s] H; simpl; by rewrite H).
  induction a as [|x a IH]; [apply Hp, HasPrefix_spec; by exists c|]. rewrite string_app_cons. cbn [Contains].
  rewrite IH. apply orb_true_r.
Qed.

Lemma statement_line line lines : line ∈ lines → Contains (statement lines) line = true.
Proof.
  intros (before & after & ->)%list_elem_of_split.
  assert (∃ a c, statement (before ++ line :: after) = a +:+ line +:+ c) as (a & c & ->); [|apply Contains_app].
  unfold statement. set (tab := String (ascii_of_nat 9) ""). set (f := λ line rest, nl +:+ tab +:+ tab +:+ line +:+ rest).
  induction before as [|x before (a & c & IH)].
  - exists (nl +:+ tab +:+ tab), (foldr f (nl +:+ tab) after). simpl. unfold f. by rewrite <- !string_app_assoc.
  - exists (nl +:+ tab +:+ tab +:+ x +:+ a), c. simpl. rewrite IH. unfold f. by rewrite <- !string_app_assoc.
Qed.

(** Every report asks for the rows of its tenant only. *)
Lemma reports_of_tenant orgID fromAt toAt q :
  q ∈ [dailyCostQuery; modelCostQuery; latencyQuery; errorRateQuery] →
  Contains (q orgID fromAt toAt) ("WHERE org_id = '" +:+ uuidString orgID +:+ "'") = true.
Proof.
  intros Hq. repeat (apply elem_of_cons in Hq as [->|Hq]); [..|by apply not_elem_of_nil in Hq];
    apply statement_line, elem_of_app; right; apply elem_of_app; left; by left.
Qed.
End client.
End ClickHouse.
