(* ===== verification/Commands.v ===== *)
(** * The processes: [cmd/gateway], [cmd/secret-rotate] and the life of [App]

    What the gateway opens at its start and closes at its end
    ([internal/app/app.go]), how its process ends, and the rotation of the
    encryption keys as an operator runs it. *)

From Stdlib Require Import QArith.
From S2P Require Import Prelude GoTime GoStrings Encodings Costing Store ExampleWorld Tokens Secrets Outbound SecretRotation HttpServer Config App ClickHouse.
#[local] Open Scope Z_scope.

Module Lifecycle.
Import Config App.

(** ** What is open *)

Inductive resource := StorePool | RedisClient | TracerProvider | UsageProducer | AnalyticsClient.
Inductive event := Opened (r : resource) | Closed (r : resource).

#[export] Instance resource_eq_dec : EqDecision resource.
Proof. solve_decision. Defined.

(** Whether opening a resource succeeds, and whether ClickHouse answers. *)
Record Outcomes := mkOutcomes { opens : resource → bool; pingAnswers : bool }.

(** [App], by what it will close. *)
Record AppState := mkApp {
  app_store : option resource;
  app_redis : option resource;
  app_events : list resource;
  app_traces : option resource
}.

Definition closing (r : option resource) : list event := match r with Some r => [Closed r] | None => [] end.

Section start.
Context {RT : Runtime} {NE : Net}.

Definition newUsageEventPublisher (cfg : Config) : result (option resource) :=
  if negb cfg.(KafkaEnabled) then Ok None
  else match cfg.(KafkaBrokers) with
       | [] => Err (EMsg "kafka brokers are required")
       | _ => if String.eqb cfg.(KafkaUsageTopic) "" then Err (EMsg "kafka topic is required") else Ok (Some UsageProducer)
       end.

(** The closer of the service, and what happened. *)
Definition newUsageAnalyticsService (o : Outcomes) (cfg : Config) : result (option resource) * list event :=
  if negb cfg.(ClickHouseEnabled) then (Ok None, [])
  else match ClickHouse.NewClickHouseClient cfg.(ClickHouseURL) cfg.(ClickHouseDatabase) cfg.(ClickHouseUsername)
               cfg.(ClickHousePassword) with
       | Err e => (Err e, [])
       | Ok _ =>
           if o.(pingAnswers) then (Ok (Some AnalyticsClient), [Opened AnalyticsClient])
           else (Err EFault, [Opened AnalyticsClient; Closed AnalyticsClient])
       end.

(** The exporter it makes first has no connection of its own before it exports;
    an error of [resource.Merge] after it, which leaves the exporter behind, counts
    as a provider that was not opened. *)
Definition NewTracerProvider (o : Outcomes) (cfg : Config) : result (option resource) :=
  if negb cfg.(TracingEnabled) then Ok None
  else if o.(opens) TracerProvider then Ok (Some TracerProvider) else Err EFault.

Definition opening (r : option resource) : list event := match r with Some r => [Opened r] | None => [] end.

(** [New]; the limiter is the one made of the Redis client. *)
Definition New (o : Outcomes) (cfg : Config) (limiter : Http.Limiter) (w : world)
    : result (RouterConfig * AppState) * world * list event :=
  if negb (o.(opens) StorePool) then (Err EFault, w, [])
  else if negb (o.(opens) RedisClient) then (Err EFault, w, [Opened StorePool; Closed StorePool])
  else
    let log := [Opened StorePool; Opened RedisClient] in
    let closeBoth := [Closed RedisClient; Closed StorePool] in
    match NewTracerProvider o cfg with
    | Err e => (Err e, w, log ++ closeBoth)
    | Ok tracer =>
        let log := log ++ opening tracer in
        match newUsageEventPublisher cfg with
        | Err e => (Err e, w, log ++ closing tracer ++ closeBoth)
        | Ok publisher =>
            let log := log ++ opening publisher in
            match newUsageAnalyticsService o cfg with
            | (Err e, happened) => (Err e, w, log ++ happened ++ closing tracer ++ closing publisher ++ closeBoth)
            | (Ok analytics, happened) =>
                let log := log ++ happened in
                match newWithDependencies cfg true (Some limiter) cfg.(KafkaEnabled) cfg.(ClickHouseEnabled) w with
                | (Err e, w') => (Err e, w', log ++ closing tracer ++ closing publisher ++ closing analytics ++ closeBoth)
                | (Ok rc, w') =>
                    (Ok (rc, mkApp (Some StorePool) (Some RedisClient) (option_list publisher ++ option_list analytics) tracer), w', log)
                end
            end
        end
    end.

(** What [Shutdown] closes, once the server has drained its requests. *)
Definition Shutdown (a : AppState) : list event :=
  closing a.(app_store) ++ closing a.(app_redis) ++ map Closed a.(app_events) ++ closing a.(app_traces).

(** ** The process *)

Inductive serverEnd := ErrServerClosed | ServerFailed (e : err).

(** How the [select]s of [runWithFactory] go: the server ends by itself, or a
    signal comes first; then the server is shut down, which may fail, and ends
    or is given up on after ten seconds. *)
Inductive fate :=
| Ended (e : serverEnd)
| Signalled (shutdown : result unit) (late : option serverEnd).

Definition ended (e : serverEnd) : result unit := match e with ErrServerClosed => Ok tt | ServerFailed e => Err e end.

Definition runWithFactory (o : Outcomes) (cfg : Config) (limiter : Http.Limiter) (f : fate) (w : world)
    : result unit * list event :=
  match New o cfg limiter w with
  | (Err e, _, log) => (Err e, log)
  | (Ok (_, gateway), _, log) =>
      match f with
      | Ended e => (ended e, log)
      | Signalled (Err e) _ => (Err e, log ++ Shutdown gateway)
      | Signalled (Ok _) (Some e) => (ended e, log ++ Shutdown gateway)
      | Signalled (Ok _) None => (Err EDeadline, log ++ Shutdown gateway)
      end
  end.

(** ** Nothing stays open *)

Definition count (e : event → bool) (log : list event) : nat := length (List.filter e log).
Definition opened_as (r : resource) (e : event) : bool := match e with Opened r' => bool_decide (r = r') | _ => false end.
Definition closed_as (r : resource) (e : event) : bool := match e with Closed r' => bool_decide (r = r') | _ => false end.

(** Every resource was opened at most once, and closed as often as opened. *)
Definition settled (log : list event) : Prop :=
  ∀ r, (count (opened_as r) log <= 1)%nat ∧ count (closed_as r) log = count (opened_as r) log.

(** The kinds of connection the optional parts have. *)
Lemma NewTracerProvider_kind o cfg t : NewTracerProvider o cfg = Ok t → t = None ∨ t = Some TracerProvider.
Proof. unfold NewTracerProvider. repeat case_match; naive_solver. Qed.
Lemma newUsageEventPublisher_kind cfg p : newUsageEventPublisher cfg = Ok p → p = None ∨ p = Some UsageProducer.
Proof. unfold newUsageEventPublisher. repeat case_match; naive_solver. Qed.
Lemma newUsageAnalyticsService_kind o cfg r happened : newUsageAnalyticsService o cfg = (r, happened) →
  match r with
  | Ok a => (a = None ∧ happened = []) ∨ (a = Some AnalyticsClient ∧ happened = [Opened AnalyticsClient])
  | Err _ => happened = [] ∨ happened = [Opened AnalyticsClient; Closed AnalyticsClient]
  end.
Proof.
  unfold newUsageAnalyticsService. destruct (ClickHouseEnabled cfg); [|naive_solver].
  destruct (ClickHouse.NewClickHouseClient _ _ _ _) as [c|e]; [|naive_solver]. destruct (pingAnswers o); naive_solver.
Qed.

(** A gateway and what was done to start it. *)
Definition all_owned (log : list event) (a : AppState) : Prop :=
  (∀ r, count (closed_as r) log = 0%nat) ∧ settled (log ++ Shutdown a).

Ltac tally := intros []; vm_compute; repeat split; lia.

Lemma New_balanced o cfg limiter w :
  match New o cfg limiter w with
  | (Ok (_, a), _, log) => all_owned log a
  | (Err _, _, log) => settled log
  end.
Proof.
  unfold New. destruct (opens o StorePool); simpl; [|tally]. destruct (opens o RedisClient); simpl; [|tally].
  destruct (NewTracerProvider o cfg) as [t|] eqn:Et; [|tally]. apply NewTracerProvider_kind in Et.
  destruct (newUsageEventPublisher cfg) as [p|] eqn:Ep; [apply newUsageEventPublisher_kind in Ep|destruct Et as [-> | ->]; tally].
  destruct (newUsageAnalyticsService o cfg) as [[a|e] happened] eqn:Ea; apply newUsageAnalyticsService_kind in Ea.
  - destruct (newWithDependencies _ _ _ _ _ _) as [[rc|e] w'].
    + split; destruct Et as [-> | ->], Ep as [-> | ->], Ea as [[-> ->]|[-> ->]]; tally.
    + destruct Et as [-> | ->], Ep as [-> | ->], Ea as [[-> ->]|[-> ->]]; tally.
  - destruct Et as [-> | ->], Ep as [-> | ->], Ea as [-> | ->]; tally.
Qed.

(** C34: The gateway leaves nothing open: when its start fails, at whatever
    step, every connection it had opened has been closed, once; and a signal to
    a gateway that started makes it close each of its connections once, whatever
    becomes of its requests. Only a server that fails by itself leaves its
    connections to the end of the process. *)
Theorem nothing_stays_open o cfg limiter f w :
  let started := is_ok (New o cfg limiter w).1.1 in
  let log := (runWithFactory o cfg limiter f w).2 in
  match f with
  | Signalled _ _ => settled log
  | Ended _ => if started then ∀ r, count (closed_as r) log = 0%nat else settled log
  end.
Proof.
  pose proof (New_balanced o cfg limiter w) as H. unfold runWithFactory.
  destruct (New o cfg limiter w) as [[[[rc a]|e] w'] log]; simpl in *; [|by destruct f as [|[] []]].
  destruct H as [Hnone Hall]. by destruct f as [|[] []].
Qed.
End start.
End Lifecycle.

(** ** The rotation command *)

(** [flag.Parse] on the arguments: [-config], [-org-id] and [-dry-run]. *)
Class Flags := { parseFlags : list string → result (string * string * bool) }.

Module SecretRotate.
Import Config App Secrets SecretRotation.

Section command.
Context {RT : Runtime} {AE : AEAD} {NE : Net} {EV : Environment} {RP : RequestParsing} {FL : Flags}.

Record options := mkoptions { configPath : string; opt_orgID : option uuid; opt_dryRun : bool }.

Definition parseArgs (args : list string) : result options :=
  '(path, orgID, dryRun) ← parseFlags args;
  if String.eqb orgID "" then Ok (mkoptions path None dryRun)
  else match uuidParse orgID with
       | None => Err (EMsg "parse org-id")
       | Some parsed => Ok (mkoptions path (Some parsed) dryRun)
       end.

(** What it prints are the two results. *)
Definition run (args : list string) : M (ReencryptResult * ReencryptResult) :=
  opts ← lift (parseArgs args);
  cfg ← lift (Load opts.(configPath));
  _ ← call;
  keyRing ← newSecretKeyRing cfg;
  rotate keyRing opts.(opt_orgID) opts.(opt_dryRun).

(** ** Retiring a key *)

Lemma opens_elsewhere ring ring' s plaintext : s.(ProviderSecret_KeyVersion) = ring.(kr_activeVersion) →
  ring'.(kr_boxes) !! ring.(kr_activeVersion) = ring.(kr_boxes) !! ring.(kr_activeVersion) →
  opens ring s plaintext → opens ring' s plaintext.
Proof. intros Hv Hb. unfold opens, Open. by rewrite Hv, Hb. Qed.

Lemma webhook_elsewhere ring ring' a plaintext : current ring a →
  ring'.(kr_boxes) !! ring.(kr_activeVersion) = ring.(kr_boxes) !! ring.(kr_activeVersion) →
  OpenWebhookSecret (Some ring) a.(BudgetAlert_WebhookSecret) = Ok plaintext →
  OpenWebhookSecret (Some ring') a.(BudgetAlert_WebhookSecret) = Ok plaintext.
Proof.
  unfold current, OpenWebhookSecret, WebhookSecretKeyVersion. destruct (BudgetAlert_WebhookSecret a) as [s|]; [|done]. intros Hc Hb.
  destruct (String.eqb_spec (TrimSpace s) ""); [done|]. destruct Hc as [?|Hc]; [done|].
  destruct (HasPrefix _ _); [|done]. simpl in *.
  destruct (parseWebhookSecretEnvelope (TrimSpace s)) as [[[v nonce] enc]|]; [|done]. simpl in *. injection Hc as ->.
  unfold Open. by rewrite Hb.
Qed.

Lemma Forall2_conj {A B} (P Q : A → B → Prop) l l' (R : A → B → Prop) :
  Forall2 P l l' → Forall2 Q l l' → (∀ a b, P a b → Q a b → R a b) → Forall2 R l l'.
Proof. intros Hp Hq HR. induction Hp; inversion Hq; subst; constructor; eauto. Qed.

Definition ringOf (version : Z) (keys : gmap Z string) : SecretKeyRing := mkSecretKeyRing version (mkSecretBox <$> keys).

(** A successful run is a rotation under the ring of the configuration. *)
Lemma run_ok args path orgID dryRun cfg results w w' :
  parseArgs args = Ok (mkoptions path orgID dryRun) → Load path = Ok cfg → run args w = (Ok results, w') →
  ∃ keys w1, SecretEncryptionKeys cfg = Ok keys ∧ ring_ok (ringOf (wrap32 cfg.(SecretEncryptionKeyVersion)) keys) ∧
    w_db w1 = w_db w ∧ rotate (ringOf (wrap32 cfg.(SecretEncryptionKeyVersion)) keys) orgID dryRun w1 = (Ok results, w').
Proof.
  intros Ha Hl H. unfold run in H. rewrite Ha in H. apply bind_ok in H as (opts & w0 & [[= <-] <-]%lift_ok & H).
  simpl in H. rewrite Hl in H. apply bind_ok in H as (cfg' & w0 & [[= <-] <-]%lift_ok & H).
  apply bind_ok in H as (u1 & w1 & Hcall & H).
  pose proof (call_db w) as Hdb. rewrite Hcall in Hdb. simpl in Hdb.
  apply bind_ok in H as (ring & w2 & Hring & H). unfold newSecretKeyRing in Hring.
  apply bind_ok in Hring as (keys & w3 & [Hk <-]%lift_ok & Hring).
  pose proof (Load_valid _ _ Hl) as (_ & _ & _ & Hkv & _ & Hlen & _)%Validate_ok.
  destruct (SecretEncryptionKeys_ok _ _ Hk Hlen Hkv) as (Hk1 & Hk2 & _). rewrite orOne_id in Hring by done.
  pose proof (NewSecretKeyRing_positive _ _ _ _ _ Hring) as Hpos. rewrite (NewSecretKeyRing_run _ _ _ Hk1 Hk2 Hpos) in Hring.
  injection Hring as <- <-. exists keys, (set_fresh (S (w_fresh w1)) w1). split; [done|]. split; [|by split].
  split; simpl.
  - pose proof (wrap32_range (SecretEncryptionKeyVersion cfg)). apply Hpos in Hk2. unfold_ranges. lia.
  - destruct Hk2 as [k Hk2]. rewrite lookup_fmap, Hk2. by eexists.
Qed.

(** C33: After a rotation the old keys can go: when the command has run to its
    end over every tenant, not dry, then under any later configuration whose
    ring still has the key that was active, whatever else was dropped from it or
    added, every provider key that could be opened before the rotation opens to
    the same text, and every webhook secret to the same up to the spaces around
    it. *)
Theorem rotation_retires_keys args path cfg key cfg' hashes' keys' results w w' u :
  parseArgs args = Ok (mkoptions path None false) → Load path = Ok cfg → run args w = (Ok results, w') →
  NoDup (map ProviderSecret_ID (w_db w).(provider_secrets)) → NoDup (map BudgetAlert_ID (w_db w).(budget_alerts)) →
  (keys ← SecretEncryptionKeys cfg; Ok (keys !! wrap32 cfg.(SecretEncryptionKeyVersion))) = Ok (Some key) →
  rings_written cfg' hashes' keys' → (wrap32 cfg.(SecretEncryptionKeyVersion), key) ∈ keys' →
  ∃ keys ring' u', SecretEncryptionKeys cfg = Ok keys ∧ newSecretKeyRing cfg' u = (Ok ring', u') ∧
    let ring := ringOf (wrap32 cfg.(SecretEncryptionKeyVersion)) keys in
    Forall2 (λ s s', ∀ plaintext, opens ring s plaintext → opens ring' s' plaintext)
      (w_db w).(provider_secrets) (w_db w').(provider_secrets) ∧
    Forall2 (λ a a', ∀ plaintext, OpenWebhookSecret (Some ring) a.(BudgetAlert_WebhookSecret) = Ok plaintext →
               ∃ p, OpenWebhookSecret (Some ring') a'.(BudgetAlert_WebhookSecret) = Ok p ∧ TrimSpace p = TrimSpace plaintext)
      (w_db w).(budget_alerts) (w_db w').(budget_alerts).
Proof.
  intros Ha Hl Hrun Hs Hal Hkey [Ht Hk Hto Hko Hton Hkon Hta Hka] Hin.
  destruct (run_ok _ _ _ _ _ _ _ _ Ha Hl Hrun) as (keys & w1 & Hkeys & Hok & Hdb & Hrot).
  rewrite Hkeys in Hkey. injection Hkey as Hkey. exists keys. eexists _, _. split; [done|].
  split; [by apply (newSecretKeyRing_render cfg' keys')|]. intros ring. fold ring in Hok, Hrot.
  set (ring' := mkSecretKeyRing _ _).
  assert (Hb : ring'.(kr_boxes) !! ring.(kr_activeVersion) = ring.(kr_boxes) !! ring.(kr_activeVersion)).
  { simpl. rewrite !lookup_fmap, Hkey. f_equal. by apply elem_of_list_to_map_1. }
  rewrite <- Hdb in Hs, Hal |- *.
  destruct (rotation_keeps_secrets ring None false w1 w' _ Hok Hs Hal Hrot) as (Hks & Hka' & _ & Hfin).
  destruct (Hfin eq_refl eq_refl) as [Hv Hc]. split.
  - apply (Forall2_conj _ _ _ _ _ Hks Hv).
    intros s s' (_ & _ & _ & _ & Hkept) Hact plaintext Hop. eapply opens_elsewhere; [by apply Hact|done|by apply Hkept].
  - apply (Forall2_conj _ _ _ _ _ Hka' Hc). intros a a' (_ & Hkept) Hcur plaintext Hop.
    destruct (Hkept _ Hop) as (p & Hp & Ht'). exists p. split; [|done]. eapply webhook_elsewhere; [by apply Hcur|done..].
Qed.
End command.
End SecretRotate.
