(* ===== verification/GatewayStreams.v ===== *)
(** * The books of a stream

    What a stream that was relayed to a client is charged: at most once, for
    the last usage that was read while the client was there. *)

From Stdlib Require Import QArith.
From S2P Require Import Prelude GoTime GoStrings Encodings Costing Store ExampleWorld QuotaService Tokens ApiKeys.
From S2P Require Import Secrets Outbound HttpClient Limits LimitsLedger LimitsReserve LimitsSpec Routing Pricing Metering BudgetAlerts.
From S2P Require Import Redis Rbac RateLimit GatewayBase Providers Caches Adapters Gateway.
From S2P Require Import HttpServer ChatHandler GatewayFrame GatewayReservations GatewayBooks ChatRoute.
#[local] Open Scope Z_scope.

Module GatewayStreams.
Import GatewayBase Gateway GatewayFrame GatewayBooks Http ChatHandler.

(** ** The relay *)

(** What the handler reads of [events] when [writes] of its writes succeed:
    the event whose write fails was read. *)
Definition seen (writes : option nat) (events : list Adapters.StreamEvent) : list Adapters.StreamEvent :=
  match writes with None => events | Some n => take (S n) events end.
Definition sent (writes : option nat) (events : list Adapters.StreamEvent) : list string :=
  map Adapters.ev_Data (match writes with None => events | Some n => take n events end).
Definition lastUsage (events : list Adapters.StreamEvent) : option Usage := list.last (omap Adapters.ev_Usage events).

Lemma lastUsage_cons e events :
  lastUsage (e :: events) = match lastUsage events with Some u => Some u | None => e.(Adapters.ev_Usage) end.
Proof.
  unfold lastUsage. simpl. change (list_omap _ _ Adapters.ev_Usage events) with (omap Adapters.ev_Usage events).
  destruct (Adapters.ev_Usage e) as [u|]; [rewrite last_cons|]; by destruct (list.last _).
Qed.

Lemma relay_spec writes events u :
  relay writes events u =
  (match lastUsage (seen writes events) with Some v => Some v | None => u end, sent writes events,
   match writes with Some n => if (n <? length events)%nat then Some (drop (S n) events) else None | None => None end).
Proof.
  revert writes u. induction events as [|e events IH]; intros writes u; simpl.
  { by destruct writes as [[]|]. }
  destruct writes as [[|n]|]; simpl.
  - unfold seen. rewrite lastUsage_cons. simpl. by destruct (Adapters.ev_Usage e).
  - rewrite IH. simpl. unfold seen, sent. simpl. rewrite (lastUsage_cons e).
    change (S n <? S (length events))%nat with (n <? length events)%nat.
    f_equal. f_equal. destruct (lastUsage _); [done|]. by destruct (Adapters.ev_Usage e).
  - rewrite IH. unfold seen, sent. rewrite (lastUsage_cons e). f_equal. f_equal.
    destruct (lastUsage _); [done|]. by destruct (Adapters.ev_Usage e).
Qed.

(** ** Finalising a stream never panics *)

Definition tame {A} (r : result A) : Prop := r ≠ Err EPanic.
Definition calm {A} (m : M A) : Prop := ∀ w, tame (m w).1.

Lemma tame_bind {A B} (r : result A) (f : A → result B) : tame r → (∀ a, tame (f a)) → tame (r ≫= f).
Proof. destruct r as [a|e]; [intros _ Hf; apply Hf|]. intros Hr _ [= ->]. done. Qed.
Lemma tame_pg_update {R} p (f : R → result R) rows : (∀ x, tame (f x)) → tame (pg_update p f rows).
Proof.
  intros Hf. induction rows as [|x rows IH]; [done|]. simpl. apply tame_bind; [by destruct (p x)|].
  intros x'. by apply tame_bind.
Qed.

Lemma calm_bind {A B} (m : M A) (f : A → M B) : calm m → (∀ a, calm (f a)) → calm (m ≫= f).
Proof.
  intros Hm Hf w. unfold mbind, M_bind. specialize (Hm w). destruct (m w) as [[a|e] w1]; simpl in *; [apply Hf|].
  intros [= ->]. done.
Qed.
Lemma calm_lift {A} (r : result A) : tame r → calm (lift r).
Proof. by intros Hr w. Qed.
Lemma calm_call : calm call.
Proof. intros w. unfold call. by destruct (w_faults w) as [|[]]. Qed.
Lemma calm_stmt {A} (f : DB → result (A * DB)) : (∀ d, tame (f d)) → calm (stmt f).
Proof.
  intros Hf w. unfold stmt. pose proof (calm_call w) as Hc. destruct (call w) as [[u|e] w1]; simpl in *.
  - specialize (Hf (w_db w1)). destruct (f (w_db w1)) as [[]|e]; simpl; [done|]. intros [= ->]. done.
  - intros [= ->]. done.
Qed.
Lemma calm_forM {S A} (l : list A) (acc : S) body : (∀ acc x, calm (body acc x)) → calm (forM l acc body).
Proof. intros Hb. revert acc. induction l as [|x l IH]; intros acc; [done|]. simpl. by apply calm_bind. Qed.
Lemma calm_ExecTxRaw {A} (m : M A) : calm m → calm (ExecTxRaw m).
Proof.
  intros Hm w. unfold ExecTxRaw, WithTx. pose proof (calm_call w) as Hc. destruct (call w) as [[u|e] w1]; simpl in *; [|by intros [= ->]].
  specialize (Hm w1). destruct (m w1) as [[a|e] w2]; simpl in *; [|by intros [= ->]].
  pose proof (calm_call w2) as Hc2. destruct (call w2) as [[u2|e] w3]; simpl in *; [done|by intros [= ->]].
Qed.
(** The caller of [try m] sees an error of [m], which is no panic. *)
Lemma calm_try_bind {A B} (m : M A) (f : result A → M B) : calm m → (∀ r, tame r → calm (f r)) → calm (try m ≫= f).
Proof.
  intros Hm Hf w. unfold try, mbind, M_bind. specialize (Hm w). destruct (m w) as [r w1]; simpl in *. by apply Hf.
Qed.

(** [catch m] hands on what [m] did when that is no panic. *)
Lemma catch_bind_calm {A B} (m : M A) (f : result A → M B) w x w1 r :
  (catch m ≫= f) w = r → m w = (x, w1) → tame x → f x w1 = r.
Proof. unfold catch, mbind, M_bind. intros <- -> Hx. destruct x as [a|[]]; done. Qed.

(** Takes a method, or a result, apart into its steps. *)
Ltac calm_step :=
  match goal with
  | |- forall _, _ => intros
  | |- tame (_ ≫= _) => apply tame_bind
  | |- tame (pg_update _ _ _) => apply tame_pg_update
  | |- tame (if ?b then _ else _) => destruct b
  | |- tame (match ?x with _ => _ end) => destruct x
  | |- tame _ => done
  | |- calm (try _ ≫= _) => apply calm_try_bind
  | |- calm (query _) => apply calm_stmt
  | |- calm (stmt _) => apply calm_stmt
  | |- calm (forM _ _ _) => apply calm_forM
  | |- calm (ExecTxRaw _) => apply calm_ExecTxRaw
  | |- calm (lift _) => apply calm_lift
  | |- calm call => apply calm_call
  | |- calm (_ ≫= _) => apply calm_bind
  | |- calm (if ?b then _ else _) => destruct b
  | |- calm (match ?x with _ => _ end) => destruct x
  | |- calm _ => by intros ?
  end.

Lemma calm_notify enabled hasMetrics e warning label : calm (Metering.notify enabled hasMetrics e warning label).
Proof. unfold Metering.notify. repeat calm_step. Qed.

Lemma calm_SettleTx req actual now : calm (SettleTx req actual now).
Proof.
  unfold SettleTx, update_counter, update_reservations, settle_counter, check_counter, pg_check, pg_bigint. repeat calm_step.
Qed.

Lemma calm_Release req : calm (Release req).
Proof.
  unfold Release, ReleaseTx, update_counter, update_reservations, release_counter, check_counter, pg_check. repeat calm_step.
Qed.

Lemma tame_Calculate input : tame (Calculate input).
Proof. unfold Calculate, costMicro. repeat calm_step. Qed.

Lemma calm_RecordSuccess ms input : calm (Metering.RecordSuccess ms input).
Proof.
  unfold Metering.RecordSuccess, Metering.validateSuccessInput, Metering.recordSuccessTx, Metering.publishUsageEvent,
    Metering.writeAnalyticsRecord, Metering.insert_request_log, Metering.insert_usage_record, Metering.insert_cost_record,
    Pricing.query_active_version, pg_check, pg_unique, pg_one.
  repeat first [apply calm_notify | apply calm_SettleTx | apply tame_Calculate | calm_step].
Qed.

Lemma calm_RecordFailure ms input : calm (Metering.RecordFailure ms input).
Proof.
  unfold Metering.RecordFailure, Metering.validateFailureInput, Metering.publishUsageEvent, Metering.writeAnalyticsRecord,
    Metering.insert_request_log, pg_check, pg_unique.
  repeat first [apply calm_notify | calm_step].
Qed.

(** ** The books of opening and finishing a stream *)

Section books.
Context {SU : Surroundings} {RT : Runtime} {AE : AEAD} {NE : Net} {TR : Transport} {WH : Webhooks} {DG : Digests}.
Context {CJ : Caches.CacheJSON} {RD : Redis} {UJ : Adapters.UpstreamJSON} {RP : RequestParsing}.
Context (s : ChatService).

Lemma stage_streamFailed input ad p m status code msg counted Q :
  keeps books counted → stage input.(in_RequestID) (streamFailed s input ad p m status code msg counted) Q.
Proof.
  intros Hc. apply stage_fails. intros w. unfold streamFailed, mbind, M_bind, try, clock, observeGatewayRequest, fail.
  match goal with |- context [recordFailure _ _ ?a ?b ?c ?d ?e ?f ?g ?h w] =>
    pose proof (recordFailure_failed s input a b c d e f g h w) as Hf; destruct (recordFailure s input a b c d e f g h w) as [r w1]
  end.
  destruct (Hc w1) as [Hb _]. destruct (counted w1) as [[u|e] w2]; simpl in *; [|split; [by eapply failed_r|done]].
  edestruct (metric_run s) as (w3 & -> & Hd). simpl in *. rewrite Hd. split; [by eapply failed_r|done].
Qed.

Lemma stage_openStream input ad active policy p m :
  stage input.(in_RequestID) (openStream s input ad active policy p m) unchanged.
Proof.
  pose proof (keeps_metric books s). pose proof (λ a r, proj2 (keeps_adapters books a r)).
  unfold openStream, observeProviderRequest. apply stage_seq; [apply stage_keeps, keeps_catch; use keeps_prepareProvider|].
  intros [[adapter cfg]|e]; [|apply stage_streamFailed; keeps].
  apply stage_seq; [apply stage_keeps; keeps|intros t]. apply stage_seq; [apply stage_keeps; keeps|].
  intros [stream|e]; [apply stage_keeps; keeps|]. destruct (providerErrorStatus e). apply stage_streamFailed. keeps.
Qed.

Lemma stage_StreamChat input : stage input.(in_RequestID) (StreamChat s input) unchanged.
Proof.
  unfold StreamChat. apply stage_seq; [apply stage_keeps; keeps|intros t].
  destruct (unmarshalRequest _) as [request|e]; [|apply stage_keeps; keeps].
  destruct (emptyRequest request); [apply stage_reject, keeps_ret, _|].
  apply stage_seq; [apply stage_admission; intros; use keeps_recordPromptCacheSkip|intros ad].
  apply stage_seq; [apply stage_orRouteNotFound; use keeps_Resolve|intros [[policy p] m]].
  apply stage_seq; [apply stage_reserve|intros active]. apply stage_withRelease, stage_openStream.
Qed.

(** What finishing a stream does to the books. *)
Definition finished (req : uuid) (usage : option Usage) (streamErr : option err) (d d' : DB) : Prop :=
  failed req d d' ∨
  ∃ met u, streamErr = None ∧ usage = Some u ∧ charged_rows req met d d' ∧
    met.(Metering.res_UsageRecord).(UsageRecord_PromptTokens) = u.(us_PromptTokens) ∧
    met.(Metering.res_UsageRecord).(UsageRecord_CompletionTokens) = u.(us_CompletionTokens) ∧
    Forall (λ l, l.(RequestLog_ID) ≠ req) d.(request_logs).

Lemma books_releaseStream r : ∀ w, books (w_db w) (w_db (releaseStream r w).2).
Proof.
  intros w. unfold releaseStream, try, mbind, M_bind. destruct (sr_reservationActive r); [|by apply books_same].
  pose proof (books_Release (in_RequestID (sr_input r)) w) as H. by destruct (Release _ w).
Qed.

(** A failure is logged, what was reserved is released and the failure counted. *)
Lemma failed_then {A} r (x : result A) (k : unit → M unit) d w :
  (∀ u, keeps books (k u)) → failed r.(sr_input).(in_RequestID) d (w_db w) →
  failed r.(sr_input).(in_RequestID) d (w_db (thenReturn x (releaseStream r ≫= k) w).2).
Proof.
  intros Hk Hf. pose proof (books_releaseStream r w) as Hr. unfold thenReturn, mbind, M_bind.
  destruct (releaseStream r w) as [[u|e] w1]; simpl in *; [|by eapply failed_r].
  pose proof (Hk u w1) as [Hb _]. destruct (k u w1) as [[u'|e] w2]; simpl in *.
  - destruct x; simpl; (eapply failed_r; [by eapply failed_r|exact Hb]).
  - eapply failed_r; [by eapply failed_r|exact Hb].
Qed.

Lemma FinalizeStream_finished r usage streamErr w :
  finished r.(sr_input).(in_RequestID) usage streamErr (w_db w) (w_db (FinalizeStream s r usage streamErr w).2).
Proof.
  pose proof (keeps_metric books s). unfold FinalizeStream. cbv zeta.
  set (w1 := set_tick (S (w_tick w)) w). rewrite (bind_run clock _ w _ w1 eq_refl).
  set (w2 := set_tick (S (w_tick w1)) w1). rewrite (bind_run clock _ w1 _ w2 eq_refl).
  change (w_db w) with (w_db w2). destruct streamErr as [e|]; [|destruct usage as [u|]].
  - destruct (providerErrorStatus e). left. unfold try, mbind at 1, M_bind at 1.
    match goal with |- context [recordFailure _ _ ?a ?b ?c ?d ?e ?f ?g ?h w2] =>
      pose proof (recordFailure_failed s (sr_input r) a b c d e f g h w2) as Hf;
      destruct (recordFailure s (sr_input r) a b c d e f g h w2) as [x w3] end.
    apply failed_then; [unfold observeProviderRequest, observeGatewayRequest; keeps|done].
  - unfold try, mbind at 1, M_bind at 1. set (ri := Metering.mkRecordSuccessInput _ _ _ _ _ _ _ _ _ _ _ _ _ _ _ _ _ _ _ _ _ _ _).
    pose proof (stage_RecordSuccess (metering s) ri w2) as Hs.
    pose proof (Metering.RecordSuccess_rows (metering s) ri) as Hrows.
    destruct (Metering.RecordSuccess (metering s) ri w2) as [[res|e] w3] eqn:E; simpl in *.
    + right. exists res, u. split; [done|]. split; [done|].
      apply Hrows in E as [[(_ & _ & _ & Hfresh) _ (Hp & Hc & _) _ _ _] _]. split; [|by rewrite Hp, Hc].
      match goal with |- charged_rows _ _ _ (w_db (?k w3).2) => assert (Hk : keeps books k) end.
      { unfold observeProviderRequest, observeGatewayRequest. keeps. }
      destruct Hs as (H1 & H2 & H3 & Hg). do 3 (split; [done|]). eapply grew_books_r; [exact Hg|apply Hk].
    + left. unfold mbind, M_bind. pose proof (books_releaseStream r w3) as Hr.
      destruct (releaseStream r w3) as [[] w4]; by eapply failed_r.
  - left. unfold try, mbind at 1, M_bind at 1.
    match goal with |- context [Metering.RecordFailure ?ms ?ri w2] =>
      pose proof (RecordFailure_failed ms ri w2) as Hf; destruct (Metering.RecordFailure ms ri w2) as [x w3] end.
    apply failed_then; [unfold observeGatewayRequest; keeps|done].
Qed.

Lemma calm_metric name labels amount : calm (metric s name labels amount).
Proof. unfold metric. by destruct (hasMetrics s). Qed.
Lemma calm_recordFailure input model status code errorCode hash target metadata startedAt :
  calm (recordFailure s input model status code errorCode hash target metadata startedAt).
Proof. unfold recordFailure. apply calm_bind; [done|intros]. apply calm_bind; [done|intros]. apply calm_RecordFailure. Qed.
Lemma calm_releaseStream r : calm (releaseStream r).
Proof.
  unfold releaseStream. destruct (sr_reservationActive r); [|done]. apply calm_try_bind; [apply calm_Release|done].
Qed.
Lemma calm_thenReturn {A} (r : result A) m : tame r → calm m → calm (thenReturn r m).
Proof. intros Hr Hm. unfold thenReturn. apply calm_bind; [done|intros _]. destruct r as [|e]; [done|]. intros w [= ->]. done. Qed.

Lemma calm_FinalizeStream r usage e : calm (FinalizeStream s r usage e).
Proof.
  unfold FinalizeStream. cbv zeta. apply calm_bind; [done|intros now]. apply calm_bind; [done|intros completedAt].
  destruct e as [e|]; [destruct (providerErrorStatus e) as [status code]|destruct usage as [u|]].
  - apply calm_try_bind; [apply calm_recordFailure|intros x Hx]. apply calm_thenReturn; [done|].
    apply calm_bind; [apply calm_releaseStream|intros _]. apply calm_bind; [apply calm_metric|intros _].
    apply calm_bind; [done|intros now']. apply calm_metric.
  - apply calm_try_bind; [apply calm_RecordSuccess|intros [metered|e] Hx].
    + do 4 (apply calm_bind; [apply calm_metric|intros _]). apply calm_metric.
    + apply calm_bind; [apply calm_releaseStream|intros _]. intros w [= ->]. done.
  - apply calm_try_bind; [apply calm_RecordFailure|intros x Hx]. apply calm_thenReturn; [done|].
    apply calm_bind; [apply calm_releaseStream|intros _]. apply calm_metric.
Qed.

(** ** Whole streams *)

(** The events of the stream that [me] opens at [w], if it opens one. *)
Definition opened (me : ChatInput) (w : world) : option (list Adapters.StreamEvent) :=
  match StreamChat s me w with (Ok res, _) => Some res.(sr_Stream).(Adapters.cs_Events) | (Err _, _) => None end.

Lemma createStream_books cx me w r w' :
  createStream s cx me w = (r, w') →
  let writes := cx.(cx_Request).(rq_Writes) in
  match opened me w with
  | None => failed me.(in_RequestID) (w_db w) (w_db w')
  | Some events =>
      r = Ok (mkReply 200 (BodyEvents (sent writes events)) None) ∧
      ∃ d1 streamErr, books (w_db w) d1 ∧ finished me.(in_RequestID) (lastUsage (seen writes events)) streamErr d1 (w_db w')
  end.
Proof.
  intros H. cbv zeta. unfold opened. pose proof (stage_StreamChat me w) as Hs. unfold createStream in H.
  destruct (StreamChat s me w) as [[res|e] w1] eqn:E.
  - rewrite (bind_run (catch (StreamChat s me)) _ w (Ok res) w1) in H by (unfold catch; by rewrite E).
    rewrite relay_spec in H. set (u := lastUsage _) in *. set (e := streamErr _ _ _) in H.
    pose proof (FinalizeStream_finished res (match u with Some v => Some v | None => None end) e w1) as Hf.
    pose proof (calm_FinalizeStream res (match u with Some v => Some v | None => None end) e w1) as Hcalm.
    destruct (FinalizeStream s res _ e w1) as [x w2] eqn:Ef.
    apply catch_bind_calm with (x := x) (w1 := w2) in H; [|exact Ef|exact Hcalm]. unfold mret, M_ret in H. injection H as <- <-.
    split; [done|]. exists (w_db w1), e. split; [exact Hs|].
    assert (sr_input res = me) as <- by (by apply ChatRoute.StreamChat_input in E). by destruct u.
  - unfold catch, mbind, M_bind in H. rewrite E in H. destruct e; injection H as _ <-; exact Hs.
Qed.

(** C13: a stream is charged at most once, for the last usage that was read
    while the client was there. The client receives the provider's events up
    to the first write that fails, unchanged and in order; the books gain at
    most one line; and one usage and one cost record only if the stream was
    opened, the request's id was new to the log and some event read up to that
    write carried a usage, with the tokens of the last of them. So a client that
    leaves before the usage arrives pays nothing. *)
Theorem stream_charged_once (cx : Context) (me : ChatInput) (w w' : world) (r : result Reply) :
  ledger_ok (w_db w) → createStream s cx me w = (r, w') →
  let writes := cx.(cx_Request).(rq_Writes) in
  (∀ events, opened me w = Some events → r = Ok (mkReply 200 (BodyEvents (sent writes events)) None)) ∧
  ∃ logs us cs,
    (w_db w').(request_logs) = (w_db w).(request_logs) ++ logs ∧ (length logs <= 1)%nat ∧
    (w_db w').(usage_records) = (w_db w).(usage_records) ++ us ∧ (w_db w').(cost_records) = (w_db w).(cost_records) ++ cs ∧
    (us = [] ∧ cs = [] ∨
     ∃ events v u c, opened me w = Some events ∧ lastUsage (seen writes events) = Some v ∧ us = [u] ∧ cs = [c] ∧
       Forall (λ l, l.(RequestLog_ID) ≠ me.(in_RequestID)) (w_db w).(request_logs) ∧
       u.(UsageRecord_RequestLogID) = me.(in_RequestID) ∧ c.(CostRecord_UsageRecordID) = u.(UsageRecord_ID) ∧
       u.(UsageRecord_PromptTokens) = v.(us_PromptTokens) ∧ u.(UsageRecord_CompletionTokens) = v.(us_CompletionTokens)).
Proof.
  intros Hok H writes. apply createStream_books in H. fold writes in H. destruct (opened me w) as [events|].
  - destruct H as (-> & d1 & e & Hb & Hf). split; [by intros ? [= <-]|]. destruct (Hb Hok) as (Hok1 & L1 & U1 & C1).
    rewrite app_nil_r in *. destruct Hf as [(logs & Hl & Hg)|(met & v & _ & Hv & (H1 & H2 & H3 & Hg) & Hp & Hc & Hfresh)];
      destruct (Hg Hok1) as (_ & L2 & U2 & C2); rewrite L2, U2, C2, L1, U1, C1.
    + exists logs, [], []. split_and!; [done| |done|done|by left]. destruct Hl as [->|(l & -> & _)]; simpl; lia.
    + eexists [_], [_], [_]. split_and!; [done|done|done|done|]. right. rewrite L1 in Hfresh. by eexists events, v, _, _.
  - split; [done|]. destruct H as (logs & Hl & Hg). destruct (Hg Hok) as (_ & -> & -> & ->).
    exists logs, [], []. split_and!; [done| |done|done|by left]. destruct Hl as [->|(l & -> & _)]; simpl; lia.
Qed.

(** A stream whose request id was used before is delivered and never
    charged. The id comes from the client's [X-Request-Id] header and is the
    key of the request log, so recording the success fails, and the handler
    ignores that: whatever usage the provider reported, the client has received
    every event and no usage or cost record is written. *)
Theorem replayed_stream_is_free (cx : Context) (me : ChatInput) (w w' : world) (r : result Reply)
    (events : list Adapters.StreamEvent) :
  ledger_ok (w_db w) → (∃ l, l ∈ (w_db w).(request_logs) ∧ l.(RequestLog_ID) = me.(in_RequestID)) →
  opened me w = Some events → cx.(cx_Request).(rq_Writes) = None →
  createStream s cx me w = (r, w') →
  r = Ok (mkReply 200 (BodyEvents (map Adapters.ev_Data events)) None) ∧
  (w_db w').(usage_records) = (w_db w).(usage_records) ∧ (w_db w').(cost_records) = (w_db w).(cost_records).
Proof.
  intros Hok (l & Hl & Hid) Ho Hw H. apply createStream_books in H. rewrite Ho, Hw in H.
  destruct H as (-> & d1 & e & Hb & Hf). split; [done|]. destruct (Hb Hok) as (Hok1 & L1 & U1 & C1).
  destruct Hf as [(logs & _ & Hg)|(met & v & _ & _ & _ & _ & _ & Hfresh)].
  - destruct (Hg Hok1) as (_ & _ & -> & ->). rewrite U1, C1. by rewrite !app_nil_r.
  - rewrite L1, app_nil_r, List.Forall_forall in Hfresh. exfalso. by apply (Hfresh l); [apply list_elem_of_In|].
Qed.
End books.
End GatewayStreams.
