(* ===== verification/GatewayProviders.v ===== *)
(** * What is sent to the providers, and in which order

    The content policy's effect on the messages, the reservation as a bound on
    the cost, and the order and number of the attempts. *)

From Stdlib Require Import QArith.
From S2P Require Import Prelude GoTime GoStrings Costing Store ExampleWorld Tokens Secrets Outbound HttpClient.
From S2P Require Import Limits BudgetService QuotaService AnomalyService Routing ContentPolicy Metering BudgetAlerts Redis GatewayBase Providers Caches Adapters Gateway GatewayFrame.
#[local] Open Scope Z_scope.

Module GatewayProviders.
Import GatewayBase Secrets Gateway GatewayFrame.

(** ** The content policy *)

(** The message the policy lets through. *)
Definition screened (action : string) (m : ChatMessage) : ChatMessage :=
  if String.eqb action PolicyService.ActionRedact
  then mkChatMessage m.(msg_Role) (PII.redactSpec m.(msg_Content) (PII.Detect m.(msg_Content))) else m.

Definition all_hits (messages : list ChatMessage) : list PII.PIIHit :=
  flat_map (λ m, PII.Detect m.(msg_Content)) messages.

Lemma redactSpec_no_hits text : PII.redactSpec text [] = text.
Proof.
  pose proof (PII.Redact_spec text []) as H. simpl in H. symmetry. apply Ok_inj, H; [constructor|set_solver].
Qed.

Lemma scanMessages_ok action messages :
  scanMessages action messages = Ok (all_hits messages, map (screened action) messages).
Proof.
  unfold all_hits. induction messages as [|m messages IH]; [done|].
  cbn [scanMessages flat_map map]. rewrite IH. unfold screened at 2. pose proof (PII.Redact_Detect_ok (msg_Content m)) as Hr.
  destruct (PII.Detect (msg_Content m)) as [|h hits] eqn:E.
  - rewrite redactSpec_no_hits. destruct m. by destruct (String.eqb _ _).
  - destruct (String.eqb _ _); [|done]. rewrite Hr. done.
Qed.

(** What the providers see. When the active policy redacts, every message
    of the admitted request is the client's with each detected span replaced by
    a marker; under any other policy the messages are unchanged. The request
    is blocked exactly when something was detected and the policy blocks, and
    the detector and the redaction never fail. *)
Theorem content_policy_applied (orgID : uuid) (request request' : ChatCompletionRequest)
    (decision : contentPolicyDecision) (w w' : world) :
  applyContentPolicy orgID request w = (Ok (request', decision), w') →
  request' = set_messages (map (screened decision.(cd_Action)) request.(req_Messages)) request ∧
  (decision.(cd_Hit) = true ↔ all_hits request.(req_Messages) ≠ []) ∧
  decision.(cd_Blocked) = decision.(cd_Hit) && String.eqb decision.(cd_Action) PolicyService.ActionBlock ∧
  ∃ w0, PolicyService.ActivePIIAction orgID w = (Ok decision.(cd_Action), w0).
Proof.
  intros H. unfold applyContentPolicy in H. apply bind_ok in H as (action & w1 & H1 & H).
  rewrite scanMessages_ok in H. apply bind_ok in H as (r & w2 & H2 & H). apply lift_ok in H2 as [H2 <-].
  apply Ok_inj in H2. subst r. apply ret_ok in H as [H <-]. injection H as <- <-. simpl.
  split; [|split; [|split; [done|by exists w1]]].
  - destruct (all_hits (req_Messages request)) as [|h hits] eqn:E; simpl.
    + assert (Hs : map (screened action) (req_Messages request) = req_Messages request); [|rewrite Hs; by destruct request].
      induction (req_Messages request) as [|m l IH]; [done|]. simpl in E. apply app_eq_nil in E as [Em El]. simpl.
      rewrite IH by done. f_equal. unfold screened. destruct (String.eqb _ _); [|done].
      rewrite Em, redactSpec_no_hits. by destruct m.
    + destruct (String.eqb action PolicyService.ActionRedact) eqn:Ea; [done|].
      assert (Hs : map (screened action) (req_Messages request) = req_Messages request); [|rewrite Hs; by destruct request].
      clear E. induction (req_Messages request) as [|m l IH]; [done|]. simpl. rewrite IH. unfold screened. by rewrite Ea.
  - by destruct (all_hits _).
Qed.

(** ** The reservation covers the cost *)

Lemma maxCalculated_bound request prompt acc models est :
  maxCalculated request prompt acc models = Ok est →
  acc <= est ∧ ∀ m, m ∈ models → ∃ calc, Calculate (mkCalculateInput prompt
      (estimateReservationCompletionTokens request.(req_MaxTokens) prompt m)
      m.(Model_InputPriceMicroUsdPer1kTokens) m.(Model_OutputPriceMicroUsdPer1kTokens)) = Ok calc ∧
    calc.(TotalCostMicro) <= est.
Proof.
  revert acc. induction models as [|m models IH]; intros acc H; simpl in H.
  { injection H as <-. split; [done|]. intros m Hm. by apply not_elem_of_nil in Hm. }
  apply result_bind_ok in H as (calc & Hc & H). apply IH in H as [Hacc H].
  assert (acc <= est ∧ TotalCostMicro calc <= est) as [? ?]
    by (destruct (acc <? TotalCostMicro calc) eqn:E; bool_to_prop; lia).
  split; [done|]. intros m' [->|Hm]%elem_of_cons; [by exists calc|by apply H].
Qed.

(** C27: the reservation covers the request. If the estimate succeeds, then on
    each of the models that may answer, any usage within the estimated prompt
    and completion tokens can be priced without overflow at the model's prices,
    and costs no more than what is reserved. *)
Theorem reservation_covers (request : ChatCompletionRequest) (models : list Model) (m : Model) (prompt completion est : Z) :
  estimateReservationCost request models = Ok est → m ∈ models →
  0 <= prompt <= estimatePromptTokens request.(req_Messages) →
  0 <= completion <= estimateReservationCompletionTokens request.(req_MaxTokens)
                       (estimatePromptTokens request.(req_Messages)) m →
  ∃ calc, Calculate (mkCalculateInput prompt completion m.(Model_InputPriceMicroUsdPer1kTokens)
            m.(Model_OutputPriceMicroUsdPer1kTokens)) = Ok calc ∧ 0 <= calc.(TotalCostMicro) <= est.
Proof.
  intros H Hm Hp Hc. apply maxCalculated_bound in H as [_ H]. destruct (H m Hm) as (calc & Hcalc & Hle).
  destruct (Calculate_mono (mkCalculateInput prompt completion (Model_InputPriceMicroUsdPer1kTokens m)
    (Model_OutputPriceMicroUsdPer1kTokens m)) _ _ Hcalc) as (c' & Hc' & Hb); [done..|]. exists c'. split; [done|lia].
Qed.

(** ** Attempts *)

Definition target_ids (t : Routing.ResolvedTarget) : uuid * uuid * Z :=
  (t.(Routing.rt_Provider).(Provider_ID), t.(Routing.rt_Model).(Model_ID), t.(Routing.rt_RouteTarget).(RouteTarget_Priority)).
Definition attempt_ids (a : ProviderAttempt) : uuid * uuid * Z := (a.(pa_ProviderID), a.(pa_ModelID), a.(pa_Priority)).

Lemma maxAttempts_range p : 1 <= maxAttempts p <= MaxInt64.
Proof.
  unfold maxAttempts. pose proof (wrap64_range (MaxRetries (Normalize p) + 1)) as H. unfold_ranges.
  destruct (_ <? 1) eqn:E; bool_to_prop; lia.
Qed.

Section providers.
Context {SU : Surroundings} {RT : Runtime} {AE : AEAD} {NE : Net} {TR : Transport} {WH : Webhooks} {DG : Digests}.
Context {CJ : Caches.CacheJSON} {RD : Redis} {UJ : Adapters.UpstreamJSON}.
Context (s : ChatService).

(** The fuel is what is left of the attempts, so it never runs out. *)
Lemma chatAttempts_range fuel attempt chat w :
  1 <= attempt → Z.of_nat (S fuel) = maxAttempts s.(retryPolicy) - attempt + 1 →
  ∃ r n w', chatAttempts s (S fuel) attempt chat w = (Ok (r, n), w') ∧ attempt <= n <= maxAttempts s.(retryPolicy).
Proof.
  revert attempt w. induction fuel as [|fuel IH]; intros attempt w Ha Hf; simpl; unfold try, mbind, M_bind.
  - destruct (chat w) as [[r|e] w1]; [by eexists _, _, _; split; [done|lia]|].
    rewrite (proj2 (Z.eqb_eq _ _)) by lia. simpl. by eexists _, _, _; split; [done|lia].
  - destruct (chat w) as [[r|e] w1]; [by eexists _, _, _; split; [done|lia]|].
    destruct (_ || _); [by eexists _, _, _; split; [done|lia]|].
    destruct (wait _ w1) as [[u|e'] w2]; [|by eexists _, _, _; split; [done|lia]].
    destruct (IH (attempt + 1) w2) as (r & n & w' & E & Hn); [lia|lia|].
    exists r, n, w'. split; [exact E|lia].
Qed.

Lemma chatProviderWithRetry_range chat w :
  ∃ r n w', chatProviderWithRetry s chat w = (Ok (r, n), w') ∧ 1 <= n <= maxAttempts s.(retryPolicy).
Proof.
  pose proof (maxAttempts_range (retryPolicy s)) as Hm. unfold chatProviderWithRetry.
  destruct (Z.to_nat (maxAttempts (retryPolicy s))) as [|fuel] eqn:E; [lia|].
  apply chatAttempts_range; lia.
Qed.

(** [pre ++ [t]] were tried, [t] decided. *)
Record walked (fallback : bool) (pre : list Routing.ResolvedTarget) (t : Routing.ResolvedTarget)
    (post : list Routing.ResolvedTarget) (new : list ProviderAttempt) (st : loopState) : Prop := {
  walked_ids : map attempt_ids new = map target_ids (pre ++ [t]);
  walked_bounds : Forall (λ a, 1 <= a.(pa_Attempts) <= maxAttempts s.(retryPolicy)) new;
  walked_failed : ∀ i a, new !! i = Some a → (i < length pre)%nat →
    a.(pa_Result) = "error" ∧ a.(pa_Retryable) = true;
  walked_fallback : pre ≠ [] → fallback = true;
  walked_selected : st.(ls_selected) = Some t;
  walked_last : ∃ a, list.last new = Some a ∧
    ((a.(pa_Result) = "success" ∧ a.(pa_Retryable) = false) ∨
     (a.(pa_Result) = "error" ∧ st.(ls_providerResponse) = None ∧
      (fallback = true → a.(pa_Retryable) = true → post = [])))
}.

Lemma walked_cons fallback t0 pre t post new st st' a :
  fallback = true → attempt_ids a = target_ids t0 → 1 <= a.(pa_Attempts) <= maxAttempts s.(retryPolicy) →
  a.(pa_Result) = "error" → a.(pa_Retryable) = true → st'.(ls_selected) = st.(ls_selected) →
  st'.(ls_providerResponse) = st.(ls_providerResponse) →
  walked fallback pre t post new st → walked fallback (t0 :: pre) t post (a :: new) st'.
Proof.
  intros Hf Hid Hb Hr Ht Hs Hp [H1 H2 H3 H4 H5 (l & Hl & H6)]. split; try done; try congruence.
  - simpl. by rewrite Hid, H1.
  - by constructor.
  - intros [|i] x Hx Hi; simpl in *; [by simplify_eq|]. apply (H3 i); [done|lia].
  - exists l. split; [|by rewrite Hp]. destruct new; [done|]. exact Hl.
Qed.

Lemma walked_one fallback t post a st :
  attempt_ids a = target_ids t → 1 <= a.(pa_Attempts) <= maxAttempts s.(retryPolicy) → st.(ls_selected) = Some t →
  ((a.(pa_Result) = "success" ∧ a.(pa_Retryable) = false) ∨
   (a.(pa_Result) = "error" ∧ st.(ls_providerResponse) = None ∧
    (fallback = true → a.(pa_Retryable) = true → post = []))) →
  walked fallback [] t post [a] st.
Proof.
  intros Hid Hb Hs Hl. split; try done; [by simpl; rewrite Hid|by apply List.Forall_cons|simpl; intros; lia|by exists a].
Qed.

Lemma next_target fallback retryable index count (rest : list Routing.ResolvedTarget) :
  count = index + 1 + Z.of_nat (length rest) →
  (shouldTryNextFallbackTarget fallback retryable index count = true ∧ fallback = true ∧ retryable = true ∧ rest ≠ []) ∨
  (shouldTryNextFallbackTarget fallback retryable index count = false ∧
   (fallback = true → retryable = true → rest = [])).
Proof.
  intros ->. unfold shouldTryNextFallbackTarget. destruct fallback, retryable; simpl; [|by right..].
  destruct rest as [|t rest]; simpl; [right|left].
  - split; [|done]. apply Z.ltb_ge. lia.
  - split; [|done]. apply Z.ltb_lt. lia.
Qed.

(** A stored key whose nonce the cipher panics on. *)
Definition malformed (d : DB) : Prop :=
  ∃ ring secret, s.(secretKeyRing) = Some ring ∧ secret ∈ d.(provider_secrets) ∧
    Open ring secret.(ProviderSecret_EncryptedApiKey) secret.(ProviderSecret_Nonce) secret.(ProviderSecret_KeyVersion) = Err EPanic.

Lemma GetProviderSecret_cases org p w r w' :
  Providers.GetProviderSecret org p w = (r, w') →
  w_db w' = w_db w ∧
  match r with Ok secret => secret ∈ (w_db w).(provider_secrets) | Err e => e ≠ EPanic end.
Proof.
  unfold Providers.GetProviderSecret. intros Hq. destruct r as [secret|e].
  - apply query_ok in Hq as [Hq ->]. split; [done|]. unfold pg_one in Hq.
    destruct (List.filter _ _) as [|x l] eqn:Ef; [done|]. apply Ok_inj in Hq as <-.
    apply list_elem_of_In. apply (List.filter_In (Providers.secret_of org p) x). rewrite Ef. by left.
  - apply stmt_cases in Hq as [-> [->|Hq]]; [done|]. split; [done|]. unfold pg_one in Hq.
    destruct (List.filter _ _); [by injection Hq as <-|done].
Qed.

Lemma ValidateOutboundHTTPURL_panic url field publicOnly : Outbound.ValidateOutboundHTTPURL url field publicOnly ≠ Err EPanic.
Proof. unfold Outbound.ValidateOutboundHTTPURL. repeat case_match; done. Qed.

Lemma providerConfig_panic p w r w' :
  providerConfig s p w = (r, w') → r = Err EPanic → malformed (w_db w).
Proof.
  unfold providerConfig. intros E ->. destruct (negb _); [done|].
  apply bind_cases in E as [([] & w1 & Hl & E)|(e & Hl & [= <-])].
  2: { injection Hl as Hl _. by apply ValidateOutboundHTTPURL_panic in Hl. }
  injection Hl as _ <-. apply bind_cases in E as [(secret & w2 & Hs & E)|(e & Hs & [= <-])];
    apply GetProviderSecret_cases in Hs as [_ Hs]; [|done].
  destruct (secretKeyRing s) as [ring|] eqn:Er; [|done].
  apply bind_cases in E as [(key & w3 & _ & E)|(e & Ho & [= <-])]; [done|]. injection Ho as Ho _.
  by exists ring, secret.
Qed.

Lemma prepareProvider_panic p w w' : prepareProvider s p w = (Err EPanic, w') → malformed (w_db w).
Proof.
  unfold prepareProvider. intros E. apply bind_cases in E as [(a & w1 & Ha & E)|(e & Ha & [= <-])].
  - injection Ha as _ <-. apply bind_cases in E as [(cfg & w2 & _ & E)|(e & Hc & [= <-])]; [done|].
    by eapply providerConfig_panic.
  - unfold Providers.AdapterFor in Ha. repeat case_match; done.
Qed.

(** The loop from [w]: it ends after a prefix of the targets, or in the panic. *)
Definition loop_ends (w : world) (fallback : bool) (targets : list Routing.ResolvedTarget) (before : list ProviderAttempt)
    (r : result loopState) : Prop :=
  match r with
  | Ok st' => ∃ pre t post new, targets = pre ++ t :: post ∧ st'.(ls_attempts) = before ++ new ∧ walked fallback pre t post new st'
  | Err e => e = EPanic ∧ malformed (w_db w)
  end.

Lemma loop_ends_stop w fallback target rest before a st :
  st.(ls_attempts) = before ++ [a] → walked fallback [] target rest [a] st →
  loop_ends w fallback (target :: rest) before (Ok st).
Proof. intros Ha Hw. by exists [], target, rest, [a]. Qed.

Lemma loop_ends_next w w1 fallback target rest before a st r :
  w_db w1 = w_db w → st.(ls_attempts) = before ++ [a] → st.(ls_providerResponse) = None → attempt_ids a = target_ids target →
  1 <= a.(pa_Attempts) <= maxAttempts (retryPolicy s) → a.(pa_Result) = "error" → a.(pa_Retryable) = true → fallback = true →
  loop_ends w1 fallback rest st.(ls_attempts) r → loop_ends w fallback (target :: rest) before r.
Proof.
  intros Hdb Hat _ Hid Hb Hres Hret Hf. unfold loop_ends. destruct r as [st'|e]; [|by rewrite Hdb].
  intros (pre & t & post & new & -> & Hnew & Hw). exists (target :: pre), t, post, (a :: new). split; [done|].
  split; [by rewrite Hnew, Hat, <- app_assoc|]. by eapply walked_cons.
Qed.

Lemma observe_run a b c d w : ∃ w1, observeProviderRequest s a b c d w = (Ok tt, w1) ∧ w_db w1 = w_db w.
Proof. unfold observeProviderRequest, metric, emit. destruct (hasMetrics s); by eexists. Qed.

(** What follows a failed target: the next one, or the end. *)
Lemma after_failure input request fallback code count index target rest before a retryable st w w0 :
  (∀ st1 w1, st1.(ls_providerResponse) = None → w_db w1 = w_db w0 → rest ≠ [] →
     loop_ends w1 fallback rest st1.(ls_attempts) (tryTargets s input request fallback count (index + 1) rest st1 w1).1) →
  count = index + 1 + Z.of_nat (length rest) → w_db w0 = w_db w →
  st.(ls_attempts) = before ++ [a] → st.(ls_providerResponse) = None → st.(ls_selected) = Some target →
  attempt_ids a = target_ids target → 1 <= a.(pa_Attempts) <= maxAttempts (retryPolicy s) → a.(pa_Result) = "error" → a.(pa_Retryable) = retryable →
  loop_ends w fallback (target :: rest) before
    ((if shouldTryNextFallbackTarget fallback retryable index count then
        _ ← observeProviderRequest s target.(Routing.rt_Provider).(Provider_Name) request.(req_Model) "error" code;
        tryTargets s input request fallback count (index + 1) rest st
      else mret st) w0).1 ∧
  loop_ends w fallback (target :: rest) before
    ((_ ← observeProviderRequest s target.(Routing.rt_Provider).(Provider_Name) request.(req_Model) "error" code;
      if shouldTryNextFallbackTarget fallback retryable index count then
        tryTargets s input request fallback count (index + 1) rest st
      else mret st) w0).1.
Proof.
  intros IH Hc Hdb Hat Hnone Hsel Hid Hb Hres Hrt.
  destruct (observe_run target.(Routing.rt_Provider).(Provider_Name) request.(req_Model) "error" code w0) as (w4 & E4 & Hdb4).
  destruct (next_target fallback retryable index count rest Hc) as [(-> & Hf & Hret & Hrest)|[-> Hstop]].
  - unfold mbind, M_bind. rewrite E4.
    assert (loop_ends w fallback (target :: rest) before (tryTargets s input request fallback count (index + 1) rest st w4).1);
      [|done]. assert (Hdb' : w_db w4 = w_db w) by congruence.
    eapply (loop_ends_next w w4); [exact Hdb'|exact Hat|exact Hnone|exact Hid|exact Hb|exact Hres|congruence|exact Hf|].
    apply IH; [done|congruence|done].
  - unfold mbind, M_bind. rewrite E4.
    assert (loop_ends w fallback (target :: rest) before (Ok st)); [|done].
    eapply loop_ends_stop; [exact Hat|]. apply walked_one; [done..|right]. split_and!; [done..|]. by rewrite Hrt.
Qed.

Lemma tryTargets_ends input request fallback count targets : ∀ index st w,
  targets ≠ [] → count = index + Z.of_nat (length targets) → st.(ls_providerResponse) = None →
  loop_ends w fallback targets st.(ls_attempts) (tryTargets s input request fallback count index targets st w).1.
Proof.
  induction targets as [|target rest IH]; intros index st w Hne Hc Hnone; [done|].
  assert (Hc' : count = index + 1 + Z.of_nat (length rest)) by (simpl in Hc; lia).
  pose proof (maxAttempts_range (retryPolicy s)) as Hmax.
  assert (IH' : ∀ st1 w1 w0, st1.(ls_providerResponse) = None → w_db w1 = w_db w0 → rest ≠ [] →
    loop_ends w1 fallback rest st1.(ls_attempts) (tryTargets s input request fallback count (index + 1) rest st1 w1).1)
    by (intros; apply IH; [done|lia|done]).
  simpl tryTargets. unfold mbind at 1, M_bind at 1, catch at 1.
  pose proof (prepareProvider_panic (Routing.rt_Provider target) w) as Hp.
  destruct (keeps_prepareProvider eq s (Routing.rt_Provider target) w) as [Hdb1 _].
  destruct (prepareProvider s _ w) as [[[adapter cfg]|e] w1]; simpl in Hdb1.
  - unfold mbind at 1, M_bind at 1, clock at 1. unfold mbind at 1, M_bind at 1.
    match goal with |- context [chatProviderWithRetry s ?c ?w2] =>
      destruct (chatProviderWithRetry_range c w2) as (r & n & w3 & E & Hn);
      assert (Hk : keeps eq (chatProviderWithRetry s c)) by (apply keeps_chatAttempts, keeps_adapters; apply _);
      destruct (Hk w2) as [Hdb3 _]; rewrite E in *; simpl in Hdb3 end.
    assert (Hn1 : (if n <? 1 then 1 else n) = n) by (destruct (n <? 1) eqn:E1; bool_to_prop; lia).
    simpl. destruct r as [response|e].
    + eapply loop_ends_stop; [reflexivity|]. apply walked_one; [done|simpl; by rewrite Hn1|done|by left].
    + destruct (providerErrorStatus e) as [status code].
      refine (proj2 (after_failure _ _ _ _ _ _ _ _ _ _ _ _ w w3 (λ st2 w2, IH' st2 w2 w3) Hc' _ _ _ _ _ _ _ _)); [congruence|reflexivity|done|done|done|simpl; by rewrite Hn1|done|done].
  - assert (Hun : loop_ends w fallback (target :: rest) (ls_attempts st)
      ((let st' := mkloopState (appendProviderAttempt st.(ls_attempts) target "error" CodeProviderUnavailable true 1)
           (Some target) st.(ls_providerStarted) st.(ls_providerResponse) (Some e) 503 CodeProviderUnavailable in
        if shouldTryNextFallbackTarget fallback true index count then
          _ ← observeProviderRequest s (Routing.rt_Provider target).(Provider_Name) request.(req_Model) "error"
                CodeProviderUnavailable;
          tryTargets s input request fallback count (index + 1) rest st'
        else mret st') w1).1).
    { refine (proj1 (after_failure _ _ _ _ _ _ _ _ _ _ _ _ w w1 (λ st2 w2, IH' st2 w2 w1) Hc' _ _ _ _ _ _ _ _)); [congruence|reflexivity|done|done|done|simpl; lia|done|done]. }
    destruct e; try exact Hun. split; [done|]. by eapply Hp.
Qed.

(** C26: the provider loop terminates, whatever the providers answer, after
    trying a prefix of the targets in the order of the route: each target
    before the last one failed with a retryable error, each was called between
    one and [MaxRetries + 1] times, only a fallback route tries more than one,
    and a fallback route stops before its last target only on a success or on
    an error that is not retryable. It never returns an error; it can only
    panic, and only when a stored provider key is malformed. *)
Theorem providers_tried_in_order (input : ChatInput) (request : ChatCompletionRequest) (fallback : bool)
    (t0 : Routing.ResolvedTarget) (rest : list Routing.ResolvedTarget) (w : world) :
  match (tryTargets s input request fallback (Z.of_nat (length (t0 :: rest))) 0 (t0 :: rest) loopStart w).1 with
  | Ok st => ∃ pre t post, t0 :: rest = pre ++ t :: post ∧ walked fallback pre t post st.(ls_attempts) st
  | Err e => e = EPanic ∧ malformed (w_db w)
  end.
Proof.
  pose proof (tryTargets_ends input request fallback (Z.of_nat (length (t0 :: rest))) (t0 :: rest) 0 loopStart w) as H.
  specialize (H ltac:(done) ltac:(lia) eq_refl). unfold loop_ends in H. destruct (tryTargets _ _ _ _ _ _ _ _ w).1 as [st|e]; [|done].
  destruct H as (pre & t & post & new & Hp & Hn & Hw). simpl in Hn. subst new. by exists pre, t, post.
Qed.
End providers.

End GatewayProviders.
