(* ===== verification/GatewayExample.v ===== *)
(** * A chat request on the small deployment

    The gateway with concrete collaborators: both models belong to one provider
    behind the OpenAI-compatible adapter, whose stored key is sealed; its large
    model times out, the small one answers. *)

From Stdlib Require Import QArith.
From S2P Require Import Prelude GoTime GoStrings Costing Store ExampleWorld Tokens Secrets Outbound HttpClient.
From S2P Require Import Limits LimitsLedger LimitsReserve LimitsSpec BudgetService QuotaService AnomalyService Routing ContentPolicy Pricing Metering.
From S2P Require Import BudgetAlerts Redis Float64 GatewayBase Providers Caches Adapters Gateway GatewayFrame GatewayReservations GatewayBooks GatewayProviders.
#[local] Open Scope Z_scope.

Module GatewayExample.
Import GatewayBase Secrets Gateway GatewayFrame GatewayReservations GatewayBooks GatewayProviders.

Definition ex_request : ChatCompletionRequest :=
  mkChatCompletionRequest "gpt" [mkChatMessage "user" "write to bob@example.com"] None (Some 900) false.

#[local] Existing Instances ex_runtime ex_aead Outbound.ex_net BudgetAlerts.ex_webhooks Caches.ex_digests Caches.ex_json Caches.ex_redis.

#[export] Instance ex_surroundings : Surroundings := {|
  unmarshalRequest body := if String.eqb body "" then Err (EMsg "unexpected end of JSON input") else Ok ex_request;
  percentile_cont := Routing.ex_percentile;
  interrupted _ _ := None
|}.

(** The upstream JSON of the example is the name of the model, and what it answers. *)
#[export] Instance ex_upstream_json : Adapters.UpstreamJSON := {|
  Adapters.marshalUpstream u := Ok (if u.(Adapters.ur_Stream) then "stream" else u.(Adapters.ur_Model));
  Adapters.decodeUpstream body _ :=
    Ok (Adapters.mkupstreamResponse "1" [Adapters.mkupstreamChoice "assistant" body "stop"]
          (Some (Adapters.mkupstreamUsage (Some 12) (Some 850) (Some 862))));
  Adapters.decodeUsage data :=
    if String.eqb data "usage" then Some (Adapters.mkupstreamUsage (Some 12) (Some 850) (Some 862)) else None
|}.

#[export] Instance ex_transport : Transport := {|
  newRequest _ _ := true;
  roundTrip _ r := if String.eqb r.(hr_Body) "large-1" then inr TransportTimeout
                   else if String.eqb r.(hr_Body) "stream"
                   then inl (mkHttpResponse 200 (Adapters.writeEvents ["hello"; "usage"; "[DONE]"]) EndOfBody)
                   else inl (mkHttpResponse 200 "answered" EndOfBody)
|}.

Definition ex_chat_service : ChatService :=
  mkChatService (Metering.mkService true true true) (BudgetAlerts.mkAlertService false (Some ex_keys1)) (NewRetryPolicy 1 100)
    true (Some Caches.ex_prompt_cache) (Some Caches.ex_semantic_cache) (Some (λ text, Ok (Caches.Embed text)))
    f64_one f64_one (Some ex_keys1) false.

(** The sealed key of the provider. *)
Definition ex_sealed : SealedSecret :=
  match (Seal ex_keys1 "sk-live" ex_world).1 with Ok sealed => sealed | Err _ => mkSealedSecret "" "" 0 end.

Definition ex_chat_input : ChatInput :=
  mkChatInput 3%N (mkAPIKeyPrincipal 1%N 2%N [] 60) "POST" "/v1/chat/completions" "{}".

Definition ex_chat_world : world :=
  set_db (set_content_policies (λ _, [mkContentPolicy 80%N 1%N "pii" "redact" "active" 0 0])
    (set_providers (λ _, [mkProvider 40%N 1%N "upstream" "openai_compatible" (Some "https://api.example/v1") 30000 "active" 0 0
                            None None None None])
    (set_provider_secrets (λ _, [mkProviderSecret 95%N 1%N 40%N ex_sealed.(ss_Encrypted) ex_sealed.(ss_Nonce) 1 0 0])
    (set_model_pricing_versions (λ _, [mkModelPricingVersion 90%N 1%N 41%N 1 150 600 "active" 0 None 0;
                                       mkModelPricingVersion 91%N 1%N 42%N 1 10 20 "active" 0 None 0])
      (ex_routes ex_db))))) ex_world.

Notation ex_chat := (Chat ex_chat_service ex_chat_input ex_chat_world).

Lemma ex_chat_ledger : ledger_ok (w_db ex_chat_world).
Proof. apply (ledger_ok_tables (w_db ex_world)); [reflexivity..|apply ex_sane]. Qed.

Lemma ex_chat_idle : idle 3%N ex_chat_world.
Proof. split; [|reflexivity]. split; [apply ex_chat_ledger|reflexivity]. Qed.

(** The reservation of 541 on both counters was settled at 17. *)
Lemma Chat_no_leak_witness :
  map CostReservation_ReservedMicroUsd (w_db ex_chat.2).(cost_reservations) = [541; 541] ∧
  map CostLimitCounter_SettledMicroUsd (w_db ex_chat.2).(cost_limit_counters) = [217; 217] ∧
  idle 3%N ex_chat.2.
Proof.
  split; [vm_compute; reflexivity|]. split; [vm_compute; reflexivity|].
  exact (Chat_no_leak ex_chat_service ex_chat_input ex_chat_world ex_chat_idle).
Defined.

Lemma Chat_accounting_witness :
  ∃ out log, ex_chat.1 = Ok out ∧ out.(out_ProviderModel) = "small-1" ∧ out.(out_TotalCostMicro) = 17 ∧
    (w_db ex_chat.2).(request_logs) = (w_db ex_chat_world).(request_logs) ++ [log] ∧ ledger_ok (w_db ex_chat.2).
Proof.
  destruct ex_chat.1 as [out|e] eqn:E; [|exfalso; vm_compute in E; discriminate].
  pose proof (Chat_accounting ex_chat_service ex_chat_input (Ok out) ex_chat_world ex_chat.2
    ex_chat_ledger (run_eq _ _ E)) as [(log & us & cs & _ & Hl & _) Hok].
  exists out, log. split; [reflexivity|]. vm_compute in E. injection E as <-. split; [reflexivity|]. split; [reflexivity|].
  split; [exact Hl|exact Hok].
Defined.

(** A stream that breaks: what was reserved is released. *)
Notation ex_stream_start := (StreamChat ex_chat_service ex_chat_input ex_chat_world).

Lemma Stream_no_leak_witness :
  ∃ res, ex_stream_start.1 = Ok res ∧
    map CostLimitCounter_ReservedMicroUsd (w_db ex_stream_start.2).(cost_limit_counters) = [541; 541] ∧
    idle 3%N (FinalizeStream ex_chat_service res None (Some (EProvider CodeProviderError "broken" 0 false None)) ex_stream_start.2).2.
Proof.
  destruct ex_stream_start.1 as [res|e] eqn:E; [|exfalso; vm_compute in E; discriminate].
  pose proof (Stream_no_leak ex_chat_service ex_chat_input (Ok res) ex_chat_world ex_stream_start.2
    ex_chat_idle (run_eq _ _ E)) as [Hr H].
  exists res. split; [reflexivity|]. split; [vm_compute; reflexivity|]. apply H; [exact Hr|reflexivity].
Defined.

Lemma content_policy_applied_witness :
  ∃ request decision, (applyContentPolicy 1%N ex_request ex_chat_world).1 = Ok (request, decision) ∧
    map msg_Content request.(req_Messages) = ["write to [REDACTED:email]"] ∧
    request = set_messages (map (screened decision.(cd_Action)) ex_request.(req_Messages)) ex_request.
Proof.
  destruct (applyContentPolicy 1%N ex_request ex_chat_world).1 as [[request decision]|e] eqn:E;
    [|exfalso; vm_compute in E; discriminate].
  exists request, decision. split; [reflexivity|].
  pose proof (content_policy_applied _ _ _ _ _ _ (run_eq _ _ E)) as (H & _).
  vm_compute in E. injection E as <- <-. split; [reflexivity|exact H].
Defined.

Lemma reservation_covers_witness :
  ∃ calc, Calculate (mkCalculateInput 5 850 10 20) = Ok calc ∧ 0 <= calc.(TotalCostMicro) <= 540.
Proof.
  apply (reservation_covers ex_request [ex_large; ex_small] ex_small 5 850 540); [vm_compute; reflexivity| | |];
    [right; left|vm_compute; split; discriminate..].
Defined.

End GatewayExample.
