(* ===== verification/RouteExample.v ===== *)
(** * Requests to the chat route of the small deployment

    A key issued under the deployment's ring, presented to the route: a request
    that is answered, one that is refused, and streams to a client that stays
    and to one that leaves. *)

From Stdlib Require Import QArith.
From S2P Require Import Prelude GoTime GoStrings Encodings Costing Store ExampleWorld QuotaService Tokens ApiKeys.
From S2P Require Import Secrets Outbound HttpClient Limits LimitsLedger LimitsReserve LimitsSpec Routing Pricing Metering BudgetAlerts.
From S2P Require Import Redis Rbac RateLimit Float64 GatewayBase Providers Caches Adapters Gateway HttpServer ChatHandler.
From S2P Require Import GatewayFrame GatewayReservations GatewayBooks ChatRoute Integrity GatewayStreams GatewayExample.
#[local] Open Scope Z_scope.

Module RouteExample.
Import GatewayBase Gateway GatewayReservations Http ChatHandler ChatRoute Integrity GatewayStreams GatewayExample.

#[local] Existing Instances ex_runtime ex_perfect Secrets.ex_aead Outbound.ex_net BudgetAlerts.ex_webhooks Caches.ex_digests Caches.ex_json Caches.ex_redis.

#[export] Instance ex_parsing : RequestParsing := {|
  uuidParse s := if String.eqb s "three" then Some 3%N else if String.eqb s "thirty-one" then Some 31%N else None;
  probeStream body := Ok (String.eqb body "stream");
  probeModel _ := "gpt"
|}.

Definition ex_limiter : Limiter := λ _ _, (RateLimit.mkDecision true 60 59 0 (2%N, 0), None).

(** The key, and the deployment in which it is the only one. *)
Definition ex_issued : result APIKeys.CreateAPIKeyResult * world :=
  APIKeys.CreateAPIKey ex_ring APIKeys.ex_params APIKeys.ex_new_world.
Definition ex_key : string := match ex_issued.1 with Ok r => r.(APIKeys.cr_Key) | Err _ => "" end.
Definition ex_issues : list APIKeys.issued := APIKeys.issue ex_ring ex_issued.1 [].
Definition ex_route_world : world := set_db (set_api_keys (λ _, (w_db ex_issued.2).(api_keys)) (w_db ex_chat_world)) ex_chat_world.

Definition ex_rq (token id body : string) (writes : option nat) : Request :=
  mkRequest "POST" "/v1/chat/completions"
    (λ h, if String.eqb h "Authorization" then "Bearer " +:+ token else if String.eqb h RequestIDHeader then id else "")
    (λ _, None) (λ _, "") body false writes false.

Notation ex_served rq := (served (chatRoute ex_chat_service ex_ring (Some ex_limiter) None) rq ex_route_world).

Lemma nothing_held_keys f w : nothing_held w → nothing_held (set_db (set_api_keys f (w_db w)) w).
Proof. intros [[Hl Hf] Hh]. split; [split; [by apply (ledger_ok_tables (w_db w))|done]|done]. Qed.

Lemma ex_nothing_held : nothing_held ex_route_world.
Proof. apply nothing_held_keys. split; [split; [apply ex_chat_ledger|done]|done]. Qed.

Lemma ex_history : APIKeys.history ex_issues (w_db ex_route_world).(api_keys).
Proof.
  unfold ex_issues, ex_route_world. apply (APIKeys.h_create [] ex_ring APIKeys.ex_params APIKeys.ex_new_world _ ex_issued.2).
  - apply APIKeys.h_start.
  - unfold ex_issued. by destruct (APIKeys.CreateAPIKey _ _ _).
Qed.

Lemma ex_one_key : NoDup (map APIKeys.is_Key ex_issues).
Proof. replace (map APIKeys.is_Key ex_issues) with [ex_key] by by vm_compute. apply NoDup_singleton. Qed.

(** Both reservations of the answered request were settled. *)
Lemma nothing_left_held_witness :
  map CostReservation_Status (w_db (ex_served (ex_rq ex_key "three" "{}" None)).2).(cost_reservations) = ["settled"; "settled"] ∧
  nothing_held (ex_served (ex_rq ex_key "three" "{}" None)).2.
Proof.
  split; [vm_compute; reflexivity|].
  exact (nothing_left_held ex_chat_service ex_ring (Some ex_limiter) None (ex_rq ex_key "three" "{}" None) _ ex_nothing_held).
Defined.

Lemma ex_routes_well_typed : well_typed (ex_routes ex_db).
Proof.
  split; simpl; try apply NoDup_singleton; repeat constructor; try (vm_compute; congruence).
  - eexists. split; [by left|done].
  - eexists. split; [by left|done].
Qed.

Lemma well_typed_keys f w : well_typed (w_db w) → well_typed (w_db (set_db (set_api_keys f (w_db w)) w)).
Proof. by apply typing_same. Qed.

Lemma ex_well_typed : well_typed (w_db ex_route_world).
Proof.
  apply well_typed_keys. unfold ex_chat_world. generalize (ex_routes ex_db), ex_routes_well_typed. intros d.
  by apply typing_same.
Qed.

Lemma books_well_typed_witness :
  let w' := (ex_served (ex_rq ex_key "three" "{}" None)).2 in
  well_typed (w_db w') ∧ length (w_db w').(cost_records) = 2%nat ∧ length (w_db w').(request_logs) = 2%nat.
Proof.
  split; [|split; vm_compute; reflexivity].
  exact (books_well_typed ex_chat_service ex_ring (Some ex_limiter) None (ex_rq ex_key "three" "{}" None) _ ex_well_typed).
Defined.

Lemma ex_charged :
  length (w_db (ex_served (ex_rq ex_key "three" "{}" None)).2).(usage_records) ≠ length (w_db ex_route_world).(usage_records).
Proof. by vm_compute. Qed.

(** The answered request was charged, so it was the key's. *)
Lemma only_issued_keys_spend_witness :
  ∃ p, APIKeys.authenticates ex_ring ex_key (w_now ex_route_world) ex_issues = Ok p ∧
    charges p (w_db ex_route_world) (w_db (ex_served (ex_rq ex_key "three" "{}" None)).2).
Proof.
  destruct (only_issued_keys_spend ex_chat_service ex_ring (Some ex_limiter) None ex_issues (ex_rq ex_key "three" "{}" None)
    ex_route_world ex_history ex_one_key) as [((_ & _ & H & _) & _)|(token & p & limit & n & decision & Ht & Ha & _ & _ & _ & _ & Hc)].
  - destruct (ex_charged (f_equal length H)).
  - exists p. split; [|exact Hc]. replace token with ex_key in Ha; [exact Ha|].
    vm_compute in Ht. injection Ht as <-. vm_compute. reflexivity.
Defined.

(** Streams, on the world of the log line 31. *)
Definition ex_cx (writes : option nat) : Context := mkContext (ex_rq "" "" "stream" writes) "" None None 0.
Definition ex_input (id : uuid) : ChatInput :=
  mkChatInput id (mkAPIKeyPrincipal 1%N 2%N [] 60) "POST" "/v1/chat/completions" "stream".
Notation ex_stream writes id := (createStream ex_chat_service (ex_cx writes) (ex_input id) ex_chat_world).

Lemma ex_stream_facts :
  map CostRecord_TotalCostMicro (w_db (ex_stream None 3%N).2).(cost_records) = [200; 511] ∧
  map CostRecord_TotalCostMicro (w_db (ex_stream (Some O) 3%N).2).(cost_records) = [200] ∧
  (ex_stream (Some 1%nat) 3%N).1 = Ok (mkReply 200 (BodyEvents ["hello"]) None).
Proof. by vm_compute. Qed.

Definition ex_events : list Adapters.StreamEvent := default [] (opened ex_chat_service (ex_input 3%N) ex_chat_world).

Lemma ex_opened_facts :
  opened ex_chat_service (ex_input 3%N) ex_chat_world = Some ex_events ∧ map Adapters.ev_Data ex_events = ["hello"; "usage"; "[DONE]"] ∧
  opened ex_chat_service (ex_input 31%N) ex_chat_world = Some ex_events ∧
  existsb (λ l, (l.(RequestLog_ID) =? 31)%N) (w_db ex_chat_world).(request_logs) = true.
Proof. vm_compute. done. Qed.

Lemma ex_gained :
  length (w_db (ex_stream (Some 1%nat) 3%N).2).(usage_records) ≠ length (w_db ex_chat_world).(usage_records).
Proof. by vm_compute. Qed.

(** A client that leaves at the second event: the usage it carries was read. *)
Lemma stream_charged_once_witness :
  ∃ events v u, opened ex_chat_service (ex_input 3%N) ex_chat_world = Some events ∧
    lastUsage (seen (Some 1%nat) events) = Some v ∧ u.(UsageRecord_PromptTokens) = v.(us_PromptTokens) ∧
    (w_db (ex_stream (Some 1%nat) 3%N).2).(usage_records) = (w_db ex_chat_world).(usage_records) ++ [u] ∧
    (ex_stream (Some 1%nat) 3%N).1 = Ok (mkReply 200 (BodyEvents (sent (Some 1%nat) events)) None).
Proof.
  pose proof ex_gained as Hlen. destruct (ex_stream (Some 1%nat) 3%N) as [r w'] eqn:E.
  destruct (stream_charged_once ex_chat_service (ex_cx (Some 1%nat)) (ex_input 3%N) ex_chat_world w' r ex_chat_ledger E)
    as (Hr & logs & us & cs & _ & _ & Hu & _ & [[-> ->]|(events & v & u & c & Ho & Hv & -> & _ & _ & _ & _ & Hp & _)]).
  - exfalso. apply Hlen. rewrite <- (app_nil_r (usage_records (w_db ex_chat_world))). exact (f_equal length Hu).
  - exists events, v, u. exact (conj Ho (conj Hv (conj Hp (conj Hu (Hr events Ho))))).
Defined.

Lemma ex_logged : ∃ l, l ∈ (w_db ex_chat_world).(request_logs) ∧ l.(RequestLog_ID) = (ex_input 31%N).(in_RequestID).
Proof.
  destruct ex_opened_facts as (_ & _ & _ & H). apply existsb_exists in H as (l & Hl & Hid).
  exists l. split; [by apply list_elem_of_In|by apply N.eqb_eq].
Qed.

(** The stream that costs 511 under a new id is free under the id 31. *)
Lemma replayed_stream_is_free_witness :
  (w_db (ex_stream None 31%N).2).(cost_records) = (w_db ex_chat_world).(cost_records) ∧
  (ex_stream None 31%N).1 = Ok (mkReply 200 (BodyEvents (map Adapters.ev_Data ex_events)) None).
Proof.
  destruct (ex_stream None 31%N) as [r w'] eqn:E. destruct ex_opened_facts as (_ & _ & Ho & _).
  destruct (replayed_stream_is_free ex_chat_service (ex_cx None) (ex_input 31%N) ex_chat_world w' r ex_events
    ex_chat_ledger ex_logged Ho eq_refl E) as (Hr & _ & Hc). split; [exact Hc|exact Hr].
Defined.
End RouteExample.
