(* ===== verification/ReportsExample.v ===== *)
(** * The reports of the small deployment *)

From Stdlib Require Import Ascii QArith.
From S2P Require Import Prelude GoTime GoStrings Encodings Costing Store ExampleWorld QuotaService Tokens ApiKeys.
From S2P Require Import Secrets Outbound HttpClient Limits LimitsLedger LimitsReserve LimitsSpec Routing Pricing Metering BudgetAlerts.
From S2P Require Import Redis Rbac RateLimit Float64 GatewayBase Providers Caches Adapters Gateway Sql HttpServer RequestLogs ChatHandler.
From S2P Require Import GatewayFrame GatewayReservations GatewayBooks ChatRoute Integrity Reports GatewayStreams GatewayExample RouteExample.
#[local] Open Scope Z_scope.

Module ReportsExample.
Import GatewayBase Http ChatHandler ChatRoute Integrity RequestLogs Reports GatewayExample RouteExample.

#[local] Existing Instances ex_runtime ex_perfect Secrets.ex_aead Outbound.ex_net BudgetAlerts.ex_webhooks Caches.ex_digests Caches.ex_json Caches.ex_redis.

(** A faithful text of cursors: the bits of their code. *)
Fixpoint bits (p : positive) : string :=
  match p with xH => "" | xO p => String "0"%char (bits p) | xI p => String "1"%char (bits p) end.
Fixpoint unbits (s : string) : option positive :=
  match s with
  | EmptyString => Some xH
  | String c s => if Ascii.eqb c "0"%char then xO <$> unbits s else if Ascii.eqb c "1"%char then xI <$> unbits s else None
  end.

Lemma unbits_bits p : unbits (bits p) = Some p.
Proof. induction p as [p IH|p IH|]; simpl; [by rewrite IH..|done]. Qed.

#[export] Instance ex_text : ReportText := {|
  parseRFC3339 s := None;
  jsonTime t := formatInt t;
  jsonDouble _ := "0.5";
  marshalCursor t id := bits (encode (t, id));
  unmarshalCursor s := unbits s ≫= decode
|}.

#[export] Instance ex_cursor : FaithfulCursor.
Proof. split. intros t id. simpl. rewrite unbits_bits. simpl. apply decode_encode. Qed.

(** The books after one answered request. *)
Definition ex_answered : world := (served (chatRoute ex_chat_service ex_ring (Some ex_limiter) None) (ex_rq ex_key "three" "{}" None) ex_route_world).2.

Lemma ex_answered_typed : well_typed (w_db ex_answered).
Proof.
  apply (route_keeps typing); [exact typing_ledger|exact typing_success| |exact ex_well_typed].
  intros token. apply keys_free; [apply _|]. intros d ks. by apply typing_same.
Qed.

Definition ex_everything : ListRequestLogsParams := mkListRequestLogsParams 1%N 0 (10 * Day) None None None None None None.

Lemma ex_pages : length (List.filter (matches ex_everything) (w_db ex_answered).(request_logs)) = 2%nat.
Proof. by vm_compute. Qed.

Lemma lines_check logs :
  forallb (λ l, negb (IsZero l.(RequestLog_StartedAt)) && negb (l.(RequestLog_ID) =? Nil)%N) logs = true →
  Forall (λ l, IsZero l.(RequestLog_StartedAt) = false ∧ l.(RequestLog_ID) ≠ Nil) logs.
Proof. rewrite forallb_forall. intros H. apply List.Forall_forall. intros l Hl. specialize (H l Hl). by eqb_to_prop. Qed.

Lemma ex_lines : Forall (λ l, IsZero l.(RequestLog_StartedAt) = false ∧ l.(RequestLog_ID) ≠ Nil) (w_db ex_answered).(request_logs).
Proof. apply lines_check. vm_compute. reflexivity. Qed.

(** Two lines in pages of one. *)
Lemma pages_complete_witness :
  ∃ pages, walk 3 ex_everything 1 None (w_db ex_answered) = Ok pages ∧ Forall (λ page, Z.of_nat (length page) <= 1) pages ∧
    length (concat pages) = 2%nat.
Proof.
  destruct (pages_complete ex_everything 1 (w_db ex_answered) (wt_log_key _ ex_answered_typed) ex_lines (Z.le_refl 1))
    as (pages & Hw & Hf & Hp & _).
  exists pages. rewrite ex_pages in Hw. split; [exact Hw|]. split; [exact Hf|]. rewrite Hp. apply ex_pages.
Defined.

(** An administrator who asks for a page of none. *)
Definition ex_viewer : Rbac.AdminTokenPrincipal := Rbac.mkAdminTokenPrincipal 1%N Nil Rbac.ActorUser Rbac.RoleViewer None None None "" "" [].
Definition ex_admin_cx (query : string → option string) : Context :=
  mkContext (mkRequest "GET" "/" (λ _, "") query (λ _, "") "" false None false) "" None (Some ex_viewer) 0.
Definition ex_zero : Context := ex_admin_cx (λ name, if String.eqb name "limit" then Some "0" else None).

Definition ex_day : Z * Z := (12 * Hour, Day + 12 * Hour).
Definition ex_zero_params : ListRequestLogsParams := mkListRequestLogsParams 1%N ex_day.1 ex_day.2 None None None None None None.

Lemma ex_zero_facts :
  (parseWindow ex_zero ex_route_world).1 = Ok (Ok ex_day) ∧ listParams ex_zero 1%N ex_day = Ok (ex_zero_params, None, 0).
Proof. by vm_compute. Qed.

Lemma some_line p logs :
  existsb (matches p) logs = true → ∃ l, l ∈ logs ∧ matches p l = true ∧ past None l = true.
Proof. intros (l & Hl & Hm)%existsb_exists. exists l. split; [by apply list_elem_of_In|done]. Qed.

Lemma ex_zero_line : ∃ l, l ∈ (w_db ex_route_world).(request_logs) ∧ matches ex_zero_params l = true ∧ past None l = true.
Proof. apply some_line. vm_compute. reflexivity. Qed.

Lemma limit_zero_panics_witness : (RequestLogs.List ex_zero ex_route_world).1 = Err EPanic.
Proof.
  exact (proj2 (limit_zero_panics ex_zero ex_viewer ex_day ex_zero_params None 0 ex_route_world eq_refl eq_refl
    (proj1 ex_zero_facts) (proj2 ex_zero_facts)) (conj eq_refl ex_zero_line)).
Defined.

Definition ex_summary : result (list SummaryRow) := UsageSummaryByModel 1%N 0 (10 * Day) (w_db ex_answered).
Lemma ex_summary_facts :
  match ex_summary with Ok rows => map sm_RequestCount rows | Err _ => [] end = [2] ∧
  match ex_summary with Ok rows => map sm_TotalCostMicroUsd rows | Err _ => [] end = [217].
Proof. by vm_compute. Qed.

Lemma usage_summaries_reconcile_witness :
  ∃ rows, ex_summary = Ok rows ∧ map sm_TotalCostMicroUsd rows = [217] ∧
    sumZ sm_RequestCount rows = count (in_report RequestLog_ModelID 1%N 0 (10 * Day)) (w_db ex_answered).(request_logs).
Proof.
  pose proof ex_summary_facts as [_ Hc]. destruct ex_summary as [rows|] eqn:E; [|discriminate Hc].
  destruct (usage_summaries_reconcile RequestLog_ModelID 1%N 0 (10 * Day) (w_db ex_answered) rows ex_answered_typed E)
    as (_ & _ & _ & _ & Hr & _).
  exists rows. split; [reflexivity|]. split; [exact Hc|exact Hr].
Defined.

Definition ex_chart : result (list DailyCostPoint) := dailyCostTrendPostgres 1%N 0 (10 * Day) (w_db ex_answered).
Definition ex_errors : result (list ErrorRatePoint) := errorRateTrendPostgres 1%N 0 (10 * Day) (w_db ex_answered).
Lemma ex_chart_facts :
  match ex_chart with Ok points => points | Err _ => [] end = [mkDailyCostPoint "1970-01-02" 2 217] ∧ is_ok ex_errors = true.
Proof. by vm_compute. Qed.

Lemma daily_charts_agree_witness :
  ∃ points rates, ex_chart = Ok points ∧ ex_errors = Ok rates ∧ map er_Day rates = ["1970-01-02"].
Proof.
  pose proof ex_chart_facts as [Hc He]. destruct ex_chart as [points|] eqn:E; [|discriminate Hc].
  destruct ex_errors as [rates|] eqn:E'; [|discriminate He].
  destruct (daily_charts_agree 1%N 0 (10 * Day) (w_db ex_answered) points rates ex_answered_typed E E') as (Hd & _).
  exists points, rates. split; [reflexivity|]. split; [reflexivity|]. rewrite <- Hd. simpl in Hc. rewrite Hc. reflexivity.
Defined.
End ReportsExample.
