(* ===== verification/AdminExample.v ===== *)
(** * An administrator of the small deployment creates a budget

    Ann, an administrator of Acme, presents the token of her session; another
    tenant, Bolt, has a budget of its own. *)

From Stdlib Require Import QArith.
From S2P Require Import Prelude GoTime GoStrings Encodings Costing Store ExampleWorld QuotaService Tokens ApiKeys.
From S2P Require Import Rbac AdminTokens Sessions MagicLinks.
From S2P Require Import Secrets Outbound HttpClient Limits BudgetService AnomalyService Routing ContentPolicy Pricing Metering BudgetAlerts.
From S2P Require Import RateLimit Float64 GatewayBase Providers Caches HttpServer RequestLogs AdminAudit AdminHandlers AccessHandlers Reports AdminRoutes.
From S2P Require Import GatewayFrame AdminFrame AdminGuard AdminIsolation AdminPrivacy AdminTrail GatewayExample RouteExample ReportsExample.
#[local] Open Scope Z_scope.

Module AdminExample.
Import Http AdminAudit AdminHandlers AccessHandlers Reports AdminRoutes AdminGuard AdminIsolation AdminPrivacy AdminTrail.
Import GatewayExample RouteExample ReportsExample.

#[local] Existing Instances ex_runtime Secrets.ex_aead Outbound.ex_net BudgetAlerts.ex_webhooks Caches.ex_digests.

#[export] Instance ex_bodies : AdminBodies := {|
  errorText _ := "error";
  decodeProvider _ _ := None;
  decodeModel _ _ := None;
  decodePricing _ _ := None;
  decodeRoutePolicy _ _ := None;
  decodeBudget body _ := if String.eqb body "cap" then Some (mkcreateBudgetRequest " cap" "org" None "monthly" 5000 "block") else None;
  decodeBudgetAlert _ _ := None;
  decodeAnomalyPolicy _ _ := None;
  decodeContentPolicy _ _ := None
|}.

#[export] Instance ex_access : AccessBodies := {|
  decodeAPIKey _ _ := None;
  decodeMember _ _ := None;
  decodeLogin _ _ := None;
  decodeVerify _ _ := None;
  decodeAdminToken _ _ := None;
  decodeOrg _ _ := None
|}.

Definition ex_services : AdminServices :=
  mkAdminServices ex_ring (Providers.mkService None true) (BudgetAlerts.mkAlertService true None) None true.

(** Ann is logged in; Bolt has a budget. *)
Definition ex_bolt_budget : Budget := mkBudget 50%N 2%N "bolt" "org" None "daily" 9 "warn" "active" 0 0.
Definition ex_admin_world : world :=
  set_db (set_budgets (λ _, [ex_bolt_budget]) (w_db Sessions.ex_login.2)) Sessions.ex_login.2.
Definition ex_token : string := match Sessions.ex_login.1 with Ok res => res.(Sessions.lr_Token) | Err _ => "" end.

Definition ex_percentile (q : Q) (values : list Z) : Q := 0%Q.
Definition ex_post : Request :=
  mkRequest "POST" "/api/v1/admin/budgets" (λ h, if String.eqb h "Authorization" then "Bearer " +:+ ex_token else "")
    (λ _, None) (λ _, "") "cap" false None false.
Definition ex_budget_route : Route := mkRoute "POST" "/budgets" (Some Rbac.CanManageConfiguration) createBudget.
Notation ex_created := (served (adminHandler ex_services ex_budget_route) ex_post ex_admin_world).2.

Lemma ex_budget_in : ex_budget_route ∈ adminRoutes ex_percentile ex_services.
Proof. unfold adminRoutes, configRoutes. simpl. repeat (first [by left|right]). Qed.

Lemma ex_created_facts :
  length (w_db ex_created).(budgets) = 2%nat ∧ length (w_db ex_created).(admin_audit_logs) = 1%nat ∧
  length (w_db ex_admin_world).(budgets) = 1%nat ∧ length (w_db ex_admin_world).(admin_audit_logs) = 0%nat.
Proof. by vm_compute. Qed.

Lemma ex_changed : w_db ex_created ≠ w_db ex_admin_world.
Proof. pose proof ex_created_facts as (Ha & _ & Hb & _). intros Heq. rewrite Heq in Ha. congruence. Qed.

Lemma touched_budgets o d d' : touched o d d' → d'.(budgets) = d.(budgets).
Proof. intros [(id & now & [= <-])|(id & now & [= <-])]; done. Qed.

(** It took a manager. *)
Lemma only_managers_change_witness :
  length (w_db ex_created).(budgets) = 2%nat ∧
  ∃ p, identified ex_services ex_post ex_admin_world p ∧ permitted ex_budget_route p = true ∧ manager p.
Proof.
  split; [exact (proj1 ex_created_facts)|].
  destruct (only_managers_change ex_percentile ex_services ex_budget_route ex_post ex_admin_world ex_budget_in eq_refl)
    as [Hsame|(p & Hi & [Ht|(_ & Hp & Hm)])].
  - destruct (ex_changed Hsame).
  - apply touched_budgets in Ht. pose proof ex_created_facts as (Ha & _ & Hb & _).
    rewrite Ht in Ha. rewrite Ha in Hb. discriminate Hb.
  - exists p. exact (conj Hi (conj Hp Hm)).
Defined.

(** Bolt is not concerned. *)
Lemma tenant_isolation_witness :
  length (w_db ex_created).(budgets) = 2%nat ∧
  ∃ p, identified ex_services ex_post ex_admin_world p ∧ isolated p.(Rbac.at_OrgID) (w_db ex_admin_world) (w_db ex_created).
Proof.
  split; [exact (proj1 ex_created_facts)|].
  destruct (tenant_isolation ex_percentile ex_services ex_budget_route ex_post ex_admin_world ex_budget_in) as [Hsame|Hp].
  - destruct (ex_changed Hsame).
  - exact Hp.
Defined.

(** The entry of the audit log. *)
Lemma audit_log_grows_witness :
  ∃ p l, identified ex_services ex_post ex_admin_world p ∧ records p (w_db ex_admin_world) (w_db ex_created) l ∧
    (w_db ex_created).(admin_audit_logs) = (w_db ex_admin_world).(admin_audit_logs) ++ [l].
Proof.
  destruct (audit_log_grows ex_percentile ex_services ex_budget_route ex_post ex_admin_world ex_budget_in eq_refl)
    as [Hsame|(p & l & Hi & Hl & Hr)].
  - pose proof ex_created_facts as (_ & Ha & _ & Hb). rewrite Hsame in Ha. rewrite Ha in Hb. discriminate Hb.
  - exists p, l. exact (conj Hi (conj Hr Hl)).
Defined.

(** Whether or not Bolt has a budget, the viewer is shown the same. *)
Definition ex_listing : Route := mkRoute "GET" "/budgets" (Some Rbac.CanManageConfiguration) listBudgets.
Definition ex_alone : DB := set_budgets (λ _, List.filter (λ b, (b.(Budget_OrgID) =? 1)%N) (w_db ex_created).(budgets)) (w_db ex_created).

Lemma ex_listing_in : ex_listing ∈ adminRoutes ex_percentile ex_services.
Proof. unfold adminRoutes, configRoutes. simpl. repeat (first [by left|right]). Qed.

Lemma ex_agrees : agrees 1%N (w_db ex_created) ex_alone.
Proof. vm_compute. reflexivity. Qed.

Lemma ex_alone_differs : length ex_alone.(budgets) = 1%nat.
Proof. by vm_compute. Qed.

Lemma answers_from_own_rows_witness :
  length ex_alone.(budgets) ≠ length (w_db ex_created).(budgets) ∧
  (listBudgets (ex_admin_cx (λ _, None)) (set_db ex_alone ex_created)).1 = (listBudgets (ex_admin_cx (λ _, None)) ex_created).1.
Proof.
  split.
  - rewrite ex_alone_differs, (proj1 ex_created_facts). discriminate.
  - exact (f_equal fst (answers_from_own_rows ex_percentile ex_services 1%N ex_listing (ex_admin_cx (λ _, None)) ex_viewer ex_created
      ex_alone ex_listing_in eq_refl eq_refl eq_refl ex_agrees)).
Defined.
End AdminExample.
