(* ===== verification/AppExample.v ===== *)
(** * A small deployment goes to production

    The environment of a production server, its start and what it answers to
    strangers; and the edit that adds a key to each of its rings. *)

From Stdlib Require Import QArith.
From S2P Require Import Prelude GoTime GoStrings Encodings Costing Store ExampleWorld QuotaService Tokens ApiKeys.
From S2P Require Import Rbac AdminTokens Sessions MagicLinks.
From S2P Require Import Secrets Outbound HttpClient Limits BudgetService AnomalyService Routing ContentPolicy Pricing Metering BudgetAlerts.
From S2P Require Import Redis RateLimit Float64 GatewayBase Providers Caches Adapters Gateway HttpServer ChatHandler.
From S2P Require Import RequestLogs AdminAudit AdminHandlers AccessHandlers Reports AdminRoutes Config App SecretRotation Commands.
From S2P Require Import GatewayExample RouteExample ReportsExample AdminExample.
#[local] Open Scope Z_scope.

Module AppExample.
Import Config Secrets Http App GatewayExample RouteExample ReportsExample AdminExample.

#[local] Existing Instances ex_runtime Secrets.ex_aead BudgetAlerts.ex_webhooks Caches.ex_digests Caches.ex_json Caches.ex_redis.

(** URLs by their prefixes. *)
#[export] Instance ex_urls : Net := {|
  url_Parse s :=
    if HasPrefix s "postgres://" then Some (mkURL "postgres" "db.example" "db.example" true)
    else if HasPrefix s "redis://" then Some (mkURL "redis" "cache.example" "cache.example" false)
    else if HasPrefix s "https://" then Some (mkURL "https" "console.example" "console.example" false)
    else None;
  ParseIP _ := None;
  LookupIPAddr _ := Ok [[93; 184; 216; 34]]
|}.

Definition ex_variables : list (string * string) :=
  [("APP_ENV", "production"); ("DATABASE_URL", "postgres://gw:pw@db.example/llmgw?sslmode=verify-full");
   ("PLATFORM_BOOTSTRAP_TOKEN", "b00t-b00t-b00t-b00t-b00t-b00t-b00t"); ("TOKEN_HASH_SECRET", "h4sh-h4sh-h4sh-h4sh-h4sh-h4sh-h4sh");
   ("SECRET_ENCRYPTION_KEY", "k3y-k3y-k3y-k3y-k3y-k3y-k3y-k3y-"); ("SERVER_PORT", "443"); ("SMTP_HOST", "mail.example");
   ("AUTH_PASSWORDLESS_EMAIL_ENABLED", "true"); ("AUTH_MAGIC_LINK_BASE_URL", "https://console.example/login");
   ("SMTP_FROM", "login@example")].

Definition environment_of (variables : list (string * string)) : Environment := {|
  Getenv name := match find (λ v, String.eqb v.1 name) variables with Some v => v.2 | None => "" end;
  ReadFile _ := Err (EMsg "no such file");
  yaml_Unmarshal _ _ := Err (EMsg "yaml");
  ParseFloat _ := None;
  url_Query url name := if HasSuffix url "sslmode=verify-full" then "verify-full" else ""
|}.

#[export] Instance ex_environment : Environment := environment_of ex_variables.

Definition ex_production : Config := match Load "" with Ok cfg => cfg | Err _ => defaultConfig end.

Lemma ex_loaded : Load "" = Ok ex_production ∧ ex_production.(AppEnv) = "production" ∧ ex_production.(ServerPort) = 443.
Proof. vm_compute. done. Qed.

(** The example's database variables fold as Go folds them. *)
Example fold_disable : EqualFold "DiSaBlE" "disable" = true ∧ EqualFold "dis" "disable" = false.
Proof. vm_compute. done. Qed.

Lemma ex_production_valid : Validate ex_production = Ok tt.
Proof. vm_compute. done. Qed.

Definition ex_start : result RouterConfig * world :=
  newWithDependencies ex_production true (Some ex_limiter) false false ex_world.

Lemma valid_config_starts_witness :
  is_ok ex_start.1 = true ∧
  ∃ secrets keys, TokenHashSecrets ex_production = Ok secrets ∧ SecretEncryptionKeys ex_production = Ok keys ∧
    started ex_production secrets keys ex_start ex_world.
Proof.
  split; [vm_compute; reflexivity|].
  exact (valid_config_starts ex_production true (Some ex_limiter) false false ex_world ex_production_valid).
Defined.

(** The same keys, once alone and once next to newer ones that are now active. *)
Definition ex_hash_entry : Z * string := (1, "h4sh-h4sh-h4sh-h4sh-h4sh-h4sh-h4sh").
Definition ex_key_entry : Z * string := (1, "k3y-k3y-k3y-k3y-k3y-k3y-k3y-k3y-").
Definition ex_new_hash : Z * string := (2, "newer-newer-newer-newer-newer-newer").
Definition ex_new_key : Z * string := (7, "N3W-N3W-N3W-N3W-N3W-N3W-N3W-N3W-").

Definition with_rings (hashVersion : Z) (hashes : string) (keyVersion : Z) (keys : string) : Config :=
  mkConfig "test" 8080 "" "" "" "" hashVersion hashes "" keyVersion keys "info" 1 100 false [] "" false "" "" "" "" false 300 false
    f64_one f64_zero false "" false "" true false "" 900 "" 587 "" "" "" "none".

Definition ex_before : Config := with_rings 1 (renderKeyring [ex_hash_entry]) 1 (renderKeyring [ex_key_entry]).
Definition ex_after : Config :=
  with_rings 2 (renderKeyring [ex_new_hash; ex_hash_entry]) 7 (renderKeyring [ex_key_entry; ex_new_key]).

Example ex_after_text :
  ex_after.(TokenHashSecretKeyring) = "2:newer-newer-newer-newer-newer-newer,1:h4sh-h4sh-h4sh-h4sh-h4sh-h4sh-h4sh".
Proof. vm_compute. done. Qed.

Lemma ex_before_written : rings_written ex_before [ex_hash_entry] [ex_key_entry].
Proof.
  split; try done; repeat constructor; try (vm_compute; congruence); try (by left); by apply not_elem_of_nil.
Qed.

Lemma ex_after_written : rings_written ex_after [ex_new_hash; ex_hash_entry] [ex_key_entry; ex_new_key].
Proof.
  split; try done; repeat constructor; try (vm_compute; congruence); try (by left); try (by right; left); set_solver by (vm_compute; congruence).
Qed.

Lemma edited_rings_recognise_witness :
  ∃ old oldKeys new newKeys w1 w1' w2 w2',
    newTokenHashKeyRing ex_before ex_world = (Ok old, w1) ∧ newSecretKeyRing ex_before ex_world = (Ok oldKeys, w1') ∧
    newTokenHashKeyRing ex_after ex_world = (Ok new, w2) ∧ newSecretKeyRing ex_after ex_world = (Ok newKeys, w2') ∧
    old.(activeVersion) = 1 ∧ new.(activeVersion) = 2 ∧ recognises old new oldKeys newKeys.
Proof.
  apply (edited_rings_recognise ex_before ex_after [ex_hash_entry] [ex_key_entry] [ex_new_hash; ex_hash_entry] [ex_key_entry; ex_new_key]);
    [exact ex_before_written|exact ex_after_written|set_solver|set_solver].
Defined.

(** The endpoints of the production server. *)
Definition ex_metrics : Handler := λ _, mret (mkReply 200 NoBody None).
Definition ex_rc : RouterConfig :=
  match ex_start.1 with Ok rc => rc | Err _ => mkRouterConfig "" "" ex_ring "" ex_keys1 0 0 None false false None None f64_zero f64_zero false false "" 0 false end.
Notation ex_router := (NewRouter ex_percentile ex_metrics ex_rc ex_start.2).
Definition ex_endpoints : list Endpoint := match ex_router.1 with Ok eps => eps | Err _ => [] end.
Definition ex_stranger : Request := mkRequest "GET" "/api/v1/admin/me" (λ _, "") (λ _, None) (λ _, "") "" false None false.


Lemma ex_router_facts : is_ok ex_router.1 = true ∧ is_ok ex_start.1 = true ∧ length ex_endpoints = 40%nat ∧
  match nth_error ex_endpoints 5 with Some ep => ep.(ep_Path) | None => "" end = "/api/v1/admin/me" ∧
  authorization ex_stranger = None.
Proof. vm_compute. done. Qed.

Lemma ex_started : newWithDependencies ex_production true (Some ex_limiter) false false ex_world = (Ok ex_rc, ex_start.2).
Proof.
  destruct ex_router_facts as (_ & Hs & _). unfold ex_rc. fold ex_start. destruct ex_start as [[rc|e] w]; [done|discriminate Hs].
Qed.

Lemma ex_routed : ex_router = (Ok ex_endpoints, ex_router.2).
Proof.
  destruct ex_router_facts as (Hr & _). unfold ex_endpoints. destruct ex_router as [[eps|e] w]; [done|discriminate Hr].
Qed.

(** A stranger at the door of [/api/v1/admin/me]. *)
Lemma production_is_closed_witness :
  ∃ ep, nth_error ex_endpoints 5 = Some ep ∧ ep.(ep_Path) = "/api/v1/admin/me" ∧ turned_away ep.(ep_Handler) ex_stranger ∧
    ex_rc.(rc_OutboundPublicOnly) = true ∧ map_Forall (λ _ box, box.(box_key) ≠ exampleKey) ex_rc.(rc_SecretKeyRing).(kr_boxes) ∧
    map_Forall (λ _ h, 32 <= String.length (TrimSpace h.(secret)))%nat ex_rc.(rc_TokenHashKeyRing).(hashers).
Proof.
  destruct ex_router_facts as (_ & _ & _ & Hp & Hno). destruct ex_loaded as (Hl & He & _).
  destruct (production_is_closed ex_percentile ex_metrics "" ex_production true (Some ex_limiter) false false ex_world ex_rc
    ex_start.2 ex_endpoints ex_router.2 Hl He ex_started ex_routed) as (Hclosed & _ & _ & Hout & _ & _ & _ & Hboxes & Hhashers).
  destruct (nth_error ex_endpoints 5) as [ep|] eqn:E; [|discriminate Hp]. exists ep. split; [reflexivity|]. split; [exact Hp|].
  split; [|split; [exact Hout|split; [apply Hboxes|apply Hhashers]; reflexivity]]. apply Hclosed; [|rewrite Hp; vm_compute; intros H|exact Hno].
  - apply nth_error_In in E. by apply list_elem_of_In.
  - repeat (apply elem_of_cons in H as [H|H]; [discriminate H|]). by apply not_elem_of_nil in H.
Defined.

(** ** Retiring the key of version 1 *)

#[export] Instance ex_flags : Flags := {| parseFlags _ := Ok ("", "", false) |}.

Definition ex_rotating : Environment := environment_of
  (("SECRET_ENCRYPTION_KEYRING", "1:" +:+ ex_key1 +:+ ",2:" +:+ ex_key2) :: ("SECRET_ENCRYPTION_KEY_VERSION", "2") :: ex_variables).
Definition ex_rotating_config : Config :=
  match Load (EV := ex_rotating) "" with Ok cfg => cfg | Err _ => defaultConfig end.
Definition ex_retired : Config := with_rings 1 (renderKeyring [ex_hash_entry]) 2 (renderKeyring [(2, ex_key2)]).
Notation ex_run := (SecretRotate.run (EV := ex_rotating) [] SecretRotation.ex_secrets_world).

Lemma ex_retired_written : rings_written ex_retired [ex_hash_entry] [(2, ex_key2)].
Proof.
  split; try done; repeat constructor; try (vm_compute; congruence); try (by left); by apply not_elem_of_nil.
Qed.

Lemma ex_args : SecretRotate.parseArgs [] = Ok (SecretRotate.mkoptions "" None false).
Proof. done. Qed.
Lemma ex_secrets_once : NoDup (map ProviderSecret_ID (w_db SecretRotation.ex_secrets_world).(provider_secrets)).
Proof. apply NoDup_singleton. Qed.
Lemma ex_alerts_once : NoDup (map BudgetAlert_ID (w_db SecretRotation.ex_secrets_world).(budget_alerts)).
Proof. repeat constructor; set_solver. Qed.

(** The sealed key opens under a ring with the key of version 1. *)
Lemma ex_opens_old keys v : keys !! 1 = Some ex_key1 → SecretRotation.opens (SecretRotate.ringOf v keys)
  (mkProviderSecret 80%N 1%N 40%N (SecretRotation.ex_sealed "sk-live").(ss_Encrypted)
     (SecretRotation.ex_sealed "sk-live").(ss_Nonce) 1 0 0) "sk-live".
Proof.
  intros Hk. unfold SecretRotation.opens, Open, SecretRotate.ringOf. simpl. rewrite lookup_fmap, Hk. vm_compute. done.
Qed.

Lemma ex_run_facts :
  is_ok ex_run.1 = true ∧ Load (EV := ex_rotating) "" = Ok ex_rotating_config ∧
  (keys ← SecretEncryptionKeys ex_rotating_config; Ok (keys !! wrap32 ex_rotating_config.(SecretEncryptionKeyVersion))) = Ok (Some ex_key2) ∧
  wrap32 ex_rotating_config.(SecretEncryptionKeyVersion) = 2 ∧
  (keys ← SecretEncryptionKeys ex_rotating_config; Ok (keys !! 1)) = Ok (Some ex_key1).
Proof. vm_compute. done. Qed.

(** The provider key sealed under version 1 opens without the key of version 1. *)
Lemma rotation_retires_keys_witness :
  ∃ ring' u' s', newSecretKeyRing ex_retired ex_world = (Ok ring', u') ∧
    (w_db ex_run.2).(provider_secrets) = [s'] ∧ SecretRotation.opens ring' s' "sk-live".
Proof.
  destruct ex_run_facts as (Hok & Hl & Hk & Hv & Hk'). destruct ex_run as [[results|e] w'] eqn:E; [|discriminate Hok].
  pose proof (SecretRotate.rotation_retires_keys (EV := ex_rotating) [] "" ex_rotating_config ex_key2 ex_retired [ex_hash_entry]
    [(2, ex_key2)] results SecretRotation.ex_secrets_world w' ex_world) as H.
  specialize (H ex_args Hl E ex_secrets_once ex_alerts_once Hk ex_retired_written). rewrite Hv in H.
  destruct (H ltac:(by left)) as (keys & ring' & u' & Hkeys & Hring & Hs & _). clear H.
  simpl in Hs. apply Forall2_cons_inv_l in Hs as (s' & l & Hs & Hnil & Hrows). apply Forall2_nil_inv_l in Hnil as ->.
  exists ring', u', s'. split; [exact Hring|]. split; [exact Hrows|]. apply Hs. rewrite Hkeys in Hk'. injection Hk' as Hk'.
  exact (ex_opens_old keys _ Hk').
Defined.
End AppExample.
