(* ===== verification/ServerExample.v ===== *)
(** * A small server answers two requests

    The client of the small deployment asks a question, and the platform creates
    an organisation. *)

From Stdlib Require Import QArith.
From S2P Require Import Prelude GoTime GoStrings Encodings Costing Store ExampleWorld QuotaService Tokens ApiKeys.
From S2P Require Import Rbac AdminTokens Sessions MagicLinks.
From S2P Require Import Secrets Outbound HttpClient Limits BudgetService AnomalyService Routing ContentPolicy Pricing Metering BudgetAlerts.
From S2P Require Import Redis RateLimit Float64 GatewayBase Providers Caches Adapters Gateway HttpServer ChatHandler.
From S2P Require Import RequestLogs AdminAudit AdminHandlers AccessHandlers Reports AdminRoutes Config App.
From S2P Require Import GatewayFrame ChatRoute Integrity AdminTrail Server GatewayExample RouteExample ReportsExample AdminExample.
#[local] Open Scope Z_scope.

Module ServerExample.
Import Secrets Http App Server ChatRoute Integrity AdminTrail GatewayExample RouteExample ReportsExample AdminExample.

#[local] Existing Instances ex_runtime ex_perfect Secrets.ex_aead Outbound.ex_net BudgetAlerts.ex_webhooks Caches.ex_digests Caches.ex_json Caches.ex_redis.

#[export] Instance ex_org_bodies : AccessBodies := {|
  decodeAPIKey _ _ := None;
  decodeMember _ _ := None;
  decodeLogin _ _ := None;
  decodeVerify _ _ := None;
  decodeAdminToken _ _ := None;
  decodeOrg body _ := if String.eqb body "bolt" then Some (mkcreateOrgRequest "Bolt" " bolt") else None
|}.

Definition ex_server_rc : RouterConfig :=
  mkRouterConfig "test" "b00t" ex_ring "" ex_keys1 1 100 (Some ex_limiter) true true (Some Caches.ex_prompt_cache)
    (Some Caches.ex_semantic_cache) f64_one f64_one false false "" 0 false.
Definition ex_scrape : Handler := λ _, mret (mkReply 200 NoBody None).
Notation ex_server := (NewRouter (CB := ex_org_bodies) ex_percentile ex_scrape ex_server_rc ex_world).
Definition ex_server_endpoints : list Endpoint := match ex_server.1 with Ok eps => eps | Err _ => [] end.

Definition ex_endpoint (method path : string) : Endpoint :=
  default (mkEndpoint "" "" ex_scrape)
    (find (λ ep, String.eqb ep.(ep_Method) method && String.eqb ep.(ep_Path) path) ex_server_endpoints).

Definition ex_ask : Request := ex_rq ex_key "three" "{}" None.
Definition ex_found : Request :=
  mkRequest "POST" "/api/v1/platform/orgs" (λ h, if String.eqb h "Authorization" then "Bearer b00t" else "") (λ _, None) (λ _, "")
    "bolt" false None false.

Definition ex_asked : world := (served (ex_endpoint "POST" "/v1/chat/completions").(ep_Handler) ex_ask ex_route_world).2.
Definition ex_founded : world := (served (ex_endpoint "POST" "/api/v1/platform/orgs").(ep_Handler) ex_found ex_asked).2.

(** The question was paid for, and there is an organisation more. *)
Lemma ex_server_facts :
  is_ok ex_server.1 = true ∧
  (ep_Path (ex_endpoint "POST" "/v1/chat/completions") = "/v1/chat/completions" ∧
   ep_Path (ex_endpoint "POST" "/api/v1/platform/orgs") = "/api/v1/platform/orgs") ∧
  (length (w_db ex_founded).(usage_records) = 2 ∧ length (w_db ex_route_world).(usage_records) = 1 ∧
   length (w_db ex_founded).(organizations) = S (length (w_db ex_route_world).(organizations)))%nat ∧
  map CostReservation_Status (w_db ex_founded).(cost_reservations) = ["settled"; "settled"].
Proof. vm_compute. done. Qed.

Lemma ex_server_routed : ex_server = (Ok ex_server_endpoints, ex_server.2).
Proof.
  destruct ex_server_facts as (Hr & _). unfold ex_server_endpoints. destruct ex_server as [[eps|e] w]; [done|discriminate Hr].
Qed.

Lemma ex_endpoint_in method path :
  ep_Path (ex_endpoint method path) ≠ "" → ex_endpoint method path ∈ ex_server_endpoints.
Proof.
  unfold ex_endpoint. destruct (find _ _) as [ep|] eqn:E; [|done]. intros _. apply find_some in E as [Hin _]. by apply list_elem_of_In.
Qed.

Lemma ex_run : rtc (serves ex_server_endpoints) ex_route_world ex_founded.
Proof.
  destruct ex_server_facts as (_ & (H1 & H2) & _).
  eapply rtc_l; [apply (serves_request _ (ex_endpoint "POST" "/v1/chat/completions") ex_ask), ex_endpoint_in; by rewrite H1|].
  apply rtc_once, (serves_request _ (ex_endpoint "POST" "/api/v1/platform/orgs") ex_found), ex_endpoint_in. by rewrite H2.
Qed.

Lemma ex_scrape_aside cx : keeps aside (ex_scrape cx).
Proof. apply keeps_ret, _. Qed.

Lemma no_money_left_held_witness :
  map CostReservation_Status (w_db ex_founded).(cost_reservations) = ["settled"; "settled"] ∧ nothing_held ex_founded.
Proof.
  split; [exact (proj2 (proj2 (proj2 ex_server_facts)))|].
  exact (no_money_left_held ex_percentile ex_scrape ex_scrape_aside ex_server_rc ex_world ex_server_endpoints ex_server.2
    ex_route_world ex_founded ex_server_routed ex_nothing_held ex_run).
Defined.

Lemma books_kept_witness :
  length (w_db ex_founded).(usage_records) = 2%nat ∧ well_typed (w_db ex_founded) ∧
  books_grow (w_db ex_route_world) (w_db ex_founded).
Proof.
  split; [exact (proj1 (proj1 (proj2 (proj2 ex_server_facts))))|].
  exact (books_kept ex_percentile ex_scrape ex_scrape_aside ex_server_rc ex_world ex_server_endpoints ex_server.2
    ex_route_world ex_founded ex_server_routed ex_well_typed ex_run).
Defined.

(** From the one key of the deployment. *)
Lemma every_charge_has_a_key_witness :
  (length (w_db ex_founded).(usage_records) = 2 ∧ length (w_db ex_route_world).(usage_records) = 1)%nat ∧
  ∃ T, APIKeys.history T (w_db ex_founded).(api_keys) ∧
    (NoDup (map APIKeys.is_Key T) → ∀ u, u ∈ (w_db ex_founded).(usage_records) → u ∈ (w_db ex_route_world).(usage_records) ∨ charged T u).
Proof.
  destruct ex_server_facts as (_ & _ & (Hu & Hu' & _) & _). split; [exact (conj Hu Hu')|].
  exact (every_charge_has_a_key ex_percentile ex_scrape ex_scrape_aside ex_server_rc ex_world ex_server_endpoints ex_server.2
    ex_route_world ex_founded ex_issues ex_server_routed ex_history ex_run).
Defined.
End ServerExample.
